(* ===== verification/_CoqProject ===== *)
-Q . S2P
Prelude.v
Values.v
Filters.v
Sql.v
Text.v
Logical.v
RangeIndex.v
Crypto.v
KeyManagers.v
ArrowCodec.v
ColumnCrypto.v
BlindIndex.v
Resolver.v
Physical.v
Indices.v
TermPage.v
IndexMetadata.v
RawIndex.v
IndexSpec.v
NextVersion.v
IndexTheorems.v
IndexWitness.v
InvertedIndex.v
Transactions.v
PlanCache.v
SqlSchema.v
Statements.v
Names.v
KwSearch.v
TableStats.v
LogicalRules.v
PhysicalExprs.v
RowId.v
TableMeta.v
SessionStart.v
WritePath.v
WriteRead.v
ColumnarWrites.v
Sinks.v
SinkTheorems.v
ResultRows.v
Ddl.v
DmlPlanning.v
IndexCreation.v
DdlTheorems.v
IndexFill.v
InvertedCreation.v
Scan.v
ScanTheorems.v
TableScan.v
UpdateScan.v
Udf.v
CharUtils.v
RowProtocol.v
CommandPhase.v
StatusPackets.v
CommandTheorems.v
ParamTheorems.v
ProxyCommands.v
Connect.v
ConnectTheorems.v
