(* ===== verification/Prelude.v ===== *)
(** * Secure Fusion: a verification development

    Secure Fusion is a proxy between SQL clients and a MySQL server that must not
    see the data: columns are encrypted by the proxy, and encrypted indices let
    the server filter rows it cannot read. The development models the MySQL
    backend ([backends/mysql]), the crypto crate ([crypto]), the session of the
    proxy ([proxy]) and the MySQL front end ([frontends/mysql]), and proves that
    what the proxy sends to the server and to its clients, and reads back, is right.

    ** The program and the files that model it

    - A query condition is converted to a filter tree
      ([filtering/logical.rs], [metadata/kw_search_func.rs]: Logical.v; MATCH ...
      AGAINST in KwSearch.v; the filters of running plans, [filtering/physical.rs],
      in Physical.v); trees are
      rewritten and split between an index and the rest
      ([filtering/indexable_filter.rs]: Filters.v); the resolver forwards what the
      server can evaluate and hands the rest to the indices of the table
      ([filtering/resolver.rs]: Resolver.v). Names are normalised before planning
      ([planning/logical/normalize_ident.rs]: Names.v).
    - Three kinds of indices answer: the range index stores bucket numbers
      ([metadata/indices/range_queries.rs]: RangeIndex.v), the blind index keyed
      hashes ([metadata/blind_index.rs]: BlindIndex.v), and the inverted index
      maps keywords to encrypted pages of row identifiers
      ([metadata/indices/inverted_index/db_inverted_index.rs]: TermPage.v for the
      pages, IndexMetadata.v for the metadata and pending modifications, RawIndex.v
      for the operations on the table; [inverted_index.rs]: InvertedIndex.v for
      keyword filters, term extraction and the sinks; InvertedCreation.v for the
      plans that create and fill such an index).
    - Columns are turned into bytes ([crypto/src/arrow.rs]: ArrowCodec.v), and
      encrypted row by row under associated data computed from the row
      ([crypto/src/planning/physical], [crypto/src/row_id.rs]: ColumnCrypto.v),
      with the cipher, the keys and the identifiers of Crypto.v
      ([crypto/src/cipher/aws_lc.rs], [identifiers.rs], [key_management]);
      KeyManagers.v has the four key managers, the two cipher libraries and the
      configuration that selects among them ([crypto/src/config.rs]).
      PhysicalExprs.v evaluates these as the expressions that the proxy adds to
      execution plans, over batches.
    - Tables: SQL types, column definitions and the metadata of fields
      ([common/src/conversions], [common/src/metadata.rs]: SqlSchema.v), the row
      identifier of a table ([crypto/src/row_id.rs]: RowId.v), and what CREATE
      TABLE encrypts, with the declarations of indices ([metadata/mod.rs]:
      TableMeta.v); the catalog, metadata files, CREATE, DROP and ALTER TABLE
      ([providers/], [planning/physical/plans]: Ddl.v), CREATE INDEX and the plans
      that fill the new columns (IndexCreation.v, theorems in DdlTheorems.v and
      IndexFill.v), and the statistics of a table (TableStats.v).
    - Statements: what is rewritten in the syntax tree of a statement, in the front
      end and before planning ([command_phase/rewrites], [placeholders.rs],
      [planning/logical/insert.rs], [custom_forward_statement.rs]: Statements.v),
      the plans of INSERT, UPDATE and DELETE and the dispatch of statements
      ([planning/logical], [physical_planner.rs]: DmlPlanning.v), and the rules on
      logical plans, decryption first ([proxy/src/analyzer],
      [planning/logical/analyzers]: LogicalRules.v).
    - Writes: the projections of insertions and updates, which compute index
      columns, row identifiers and ciphertexts, and the decryption of a scan
      ([providers/table_provider.rs], [crypto/src/planning/decrypt_planner.rs]:
      WritePath.v, theorems in WriteRead.v); the expressions that blind and range
      indices add to them (ColumnarWrites.v); the row identifiers that an update
      reads (UpdateScan.v); the sinks that send batches as
      statements in a transaction, to the table and to its indices ([sinks/]:
      Sinks.v, theorems in SinkTheorems.v).
    - Reads: the scan plan, the query it sends, joins and filters that are pushed
      down to it ([planning/physical/plans/mysql_scan_plan.rs],
      [planning/physical/optimizers/push_down_joins.rs]: Scan.v, theorems in
      ScanTheorems.v); what a table answers about filters, and its scan
      ([supports_filters_pushdown], [scan]: TableScan.v); the rows of the server's
      answer as batches ([arrow_helper.rs]: ResultRows.v); SQL functions on batches
      ([udf/]: Udf.v).
    - A session starts with variables and options ([backends/mysql/src/lib.rs],
      [common/src/extensions/variable_store.rs]: SessionStart.v).
    - A session of the proxy keeps a cache of logical plans and prepared statements
      ([proxy/src/cache.rs], [proxy/src/session.rs]: PlanCache.v), and groups the
      statements of its writes in nested transactions
      ([transaction_control.rs]: Transactions.v).
    - The front end: a client connects and logs in ([connection_phase/],
      [server.rs], [protocols/mysql/src/connection.rs]: Connect.v, theorems in
      ConnectTheorems.v); its commands are handled until it leaves
      ([command_phase/]: CommandPhase.v; CommandTheorems.v for the answers,
      ParamTheorems.v for the values of prepared statements, ProxyCommands.v for
      the composition with the session of PlanCache.v); binary literals are taken
      out of its queries ([char_utils.rs]: CharUtils.v), and rows are written in
      the text and the binary protocol ([row_handlers/]: RowProtocol.v), and status
      packets as bytes ([status.rs], [sql_error.rs]: StatusPackets.v).
    - Values.v holds the scalars, columns, SQL truth values and statistics, Sql.v
      the SQL expressions and their evaluation by the server, Text.v Rust strings
      and UTF-8, and this file results, panics, machine integers and lists.

    State is passed explicitly: the index table is the list of its rows ([Db]), a
    node's cache is a record ([CachedIndexState]), a client is a record ([Client])
    and handling a command a step of a small state and error monad ([CM]); an
    operation maps states to new ones and a [result]. Errors are values of
    [result]; a Rust panic is the error [Panic] ([Panicked] and [Crashed] in the
    front end), so that a theorem that an operation returns [Ok] also says that it
    does not panic. Integers are [Z] with their width written out ([wrap_u],
    [wrap_s]); arithmetic is that of the release profile.

    ** What is a parameter

    Third-party code is a class with its documented laws: the AEAD ([Aead],
    [AeadLaws], [AeadTag]), HKDF ([Hkdf], [HkdfLaws]), [bincode] ([Codec]),
    Unicode tables ([Unicode]), Arrow's cast kernel ([ArrowCast],
    [ArrowCastLaws]), DataFusion's scalar comparison, casts and unparser
    ([ExprSem], [ExprLaws], [Unparser]) and cardinality arithmetic
    ([PrecisionOps]), the server's evaluation of conditions on plaintext
    columns ([Server], [ServerLaws]), the encodings and constants of the MySQL
    protocol ([LenEnc], [LenEncLaws], [NullBitmap], [MysqlCommon],
    [MysqlCommonLaws], [SqlStateCodec]), the two steps of HKDF and the two cipher
    libraries ([HkdfSteps], [AeadLibs] and their laws), the text of SQL types and
    statements ([SqlDisplay], [SqlParsing]) and of errors ([ErrorText]), TOML
    ([Toml], [TomlLaws]), the client library's conversions of values ([FromValue]),
    the evaluation of plans and expressions ([PlanSem], [PhysSem] and their laws)
    and the server when a session starts ([ServerSession]). The SQL parser, planning and execution in DataFusion, the
    random generator and the check of passwords are arguments of the definitions
    that use them. Each class has a concrete instance, used by the witnesses.
    Interfaces connect components of the program itself: [IndexContract] (what
    the resolver relies on; proved of the range and the blind index in Indices.v),
    [RawIndexContract] (what keyword filters rely on; proved of the encrypted
    inverted index in InvertedIndex.v), [ProxySession] and [OpensStatements] (what
    the front end relies on; proved of the session of PlanCache.v in
    ProxyCommands.v).

    ** What the theorems show

    - The inverted index (IndexSpec.v, NextVersion.v, IndexTheorems.v): a state of
      the table represents a map from terms to documents ([repr], [denote]), and
      every operation of the code implements the operation on sets: provisioning,
      inserting, updating, deleting, querying, the next-version task and loading
      of the metadata. [index_refines_sets] is the refinement for any sequence of
      operations by any number of nodes with their own caches. Pages, metadata and
      modifications round-trip; nonces never repeat.
    - Keyword filters (InvertedIndex.v): LIKE and MATCH select exactly what their
      keywords say, conjunctions are executed exactly, updates change exactly the
      terms that differ.
    - Filters and resolution (Filters.v, Logical.v, Resolver.v, Indices.v):
      conversion and splitting are exact on stated fragments (no negated IN, BETWEEN
      or LIKE; OR and NOT of parts that are split whole), merging comparisons drops no
      row, and on these fragments resolving a query loses no row
      ([resolver_loses_no_row], [physical_resolver_loses_no_row]).
    - Columns (ArrowCodec.v, ColumnCrypto.v, Crypto.v): encoding, encryption with
      the shared decryption buffer, and decoding give the column back;
      associated data determine the row they come from.
    - Tables and writes: CREATE TABLE encrypts exactly the columns it should; rows
      that are inserted, with their hidden row identifiers, or updated through the
      plan of a table are stored encrypted and decrypted by a scan
      ([insert_then_read], [update_then_read]), for values that the indices accept;
      rows of tables with blind and range indices are stored with what the filters
      look for ([written_rows_found], within the bounds of these indices); parameters
      go to the columns they come from and mean what the row holds, each sink gets its
      own columns; with autocommit on and no transaction open a DML statement is all
      or nothing ([sink_exec_atomic]) and commits every row ([dml_statement_commits]),
      and in a transaction of the client its writes wait for the end of it, those of
      a statement that failed too ([failed_statement_leaves_rows]).
    - Scans: replacing joins by one query does not change the rows of a plan
      ([push_down_joins_rows]), and neither do filters that are pushed down to the
      scan of one table ([pushdown_keeps_rows]).
    - Transactions (Transactions.v): the server's side of a session is computed from
      the statements that were sent ([replay]), which include statements with an
      implicit commit. The proxy's record stays safe to rely on in every reachable
      state ([transactions_in_sync]); its own transactions are atomic, nested ones and
      ones that stop anywhere included ([weak_transaction_atomic]), and what implicit
      commits and rollbacks of inner transactions do to them is stated
      ([implicit_commit_breaks_atomicity], [inner_rollback_ends_outer]).
    - Sessions (PlanCache.v): the state that planning reads is shared, and executing a
      plan or another connection may change it. The plan cache does not change any
      answer while the statements that are queried again would be planned as before,
      and keeps to its budget ([plan_cache_transparent]); otherwise the stale plan is
      executed ([stale_plan_executed], [ddl_leaves_stale_plan]); prepared statements
      keep their plans.
    - Clients: no session without an accepted login ([session_requires_login]) and
      a session for every client with one ([client_served]); every command is
      answered, statements of a query in their order; a prepared statement stays
      prepared through any other commands and is executed as it was prepared, on the
      values that the client binds ([prepare_then_execute], [execute_reads_values],
      without NULLs and unsigned flags); rows of a result and status packets are read
      back as they are by a reader that follows the protocol; binary literals reach
      the server as parameters. Forwarded statements with a parameter cannot be
      prepared ([forwarded_parameter_panics]).
    - From filter to rows: whichever answers a table gives about filters of the
      fragments above, the rows of its answer that satisfy the filters applied again
      are the rows that satisfy all of them ([table_scan_filters]); the analyzer rule
      makes encryption transparent ([add_decryption_transparent]); a server's answer
      is given out whole ([query_arrow_gives_rows]).
    - Definitions of data: encryption metadata agree with the server after any
      commands and restarts ([restart_keeps_encryption]); new indices are filled
      ([create_columnar_index_fills], [created_index_finds_rows]).
    - Keys: back ends of one algorithm read each other's data, and contexts of plain
      names do not share keys ([backends_interchangeable], [contexts_separated]).
    - Where the code does not do what it means to, a theorem states the behaviour
      on a concrete input: rows dropped by OR, NOT, NOT IN and strict range
      comparisons, swapped answers in disjunctions, plans that outlive their
      catalog, additions lost by a concurrent rebuild, literals that become SQL,
      a switch of authentication that panics, and others.

    ** Bounds

    [load_metadata] recurses at most once, so its fuel is 1 ([load_fuel]), and
    [load_metadata_fresh] shows that it is enough. [shrink_to_fit] and the loops
    that cut lists into chunks run on bounds given by the length of their input;
    the eviction loop of the plan cache removes an entry in each turn. The fuel of
    [tokens] and of [connect_attrs_fuel] is the length of their input and that of
    [add_chunk_continue_fuel] one more: every turn uses up at least one byte
    ([tokens_enough], [attributes_read]; a literal that is read to its end shows it
    for the last one).
    The tags of pages are 12-byte keyed hashes: the theorems on the inverted index
    assume that they are distinct on the finite vocabulary in use ([tags_distinct])
    and that fewer than 2^40 pages of a term and 2^31 versions exist, the limits
    of the page numbers and of the SQL column. Identifiers of prepared statements
    are distinct for the first four billion commands of a connection, those of a
    session for 2^64 statements. Testing whether a range index supports a node panics
    when its interval is not positive; the model then says that it does not
    ([range_support_total]).

    ** What is not modelled

    Code that is not compiled or not called: [crypto/src/kw_search], [key_manager.rs]
    and [raw_keygen.rs] (not declared in the crate), [rewrite_aggregates.rs],
    [create_blind_index_plan.rs] and [locking.rs] (not declared), [push_down_sort.rs],
    [rewrite_exists.rs] and [pushdown_decrypt_filters.rs] (disabled or commented out),
    and [coerce_parameters] of the session. Start-up of the server, logging, tracing
    and benchmarks are input and output. The SQL parser, planning of SELECT and the
    execution of plans are DataFusion's; the list of its optimizer rules is a choice
    and not a computation. The implementations of [Display], [Debug], equality and
    hashing of plan nodes are left out where no decision of the code reads them, and so
    is the spawning of background tasks, whose effects are steps that interleave with
    those of the clients. *)
From stdpp Require Export base gmap sets list strings.
From coqutil Require Export Byte Word.LittleEndianList.
From Stdlib Require Export ZArith Lia.

(** ** Results

    Rust's [Result] with the error enums of the crates, and panics
    ([unwrap], [expect], out-of-range slices, division by zero) as a value of
    their own, so that a theorem can say that a path does not panic. *)

Inductive error :=
  | PlanError (msg : string)       (* plan_err! *)
  | ExecError (msg : string)       (* exec_err! *)
  | CipherError                    (* CryptoError::CipherError *)
  | IndexError (msg : string)      (* IndexError::UnknownError *)
  | DecodeError                    (* bincode / arrow decoding *)
  | SqlError (msg : string)        (* the server rejects a statement *)
  | NotImplemented (msg : string)  (* not_impl_err! *)
  | Panic (msg : string).          (* the task panics *)

Inductive result (A : Type) :=
  | Ok (a : A)
  | Err (e : error).
Arguments Ok {A} a.
Arguments Err {A} e.

Definition result_bind {A B} (m : result A) (k : A -> result B) : result B :=
  match m with
  | Ok a => k a
  | Err e => Err e
  end.

Definition result_map {A B} (f : A -> B) (m : result A) : result B :=
  result_bind m (fun a => Ok (f a)).

Definition ok_or {A} (o : option A) (e : error) : result A :=
  match o with
  | Some a => Ok a
  | None => Err e
  end.

(** [unwrap] on a result. *)
Definition unwrap_ok {A} (m : result A) : result A :=
  match m with
  | Ok a => Ok a
  | Err (Panic e) => Err (Panic e)
  | Err _ => Err (Panic "called unwrap on an Err value")
  end.

Declare Scope result_scope.
Delimit Scope result_scope with result.
Notation "'let?' x ':=' m 'in' k" := (result_bind m (fun x => k))
  (at level 10, x pattern, m at level 100, k at level 200) : result_scope.
Open Scope result_scope.

(** [collect::<Result<Vec<_>, _>>()]: stops at the first error. *)
Fixpoint result_mapM {A B} (f : A -> result B) (l : list A) : result (list B) :=
  match l with
  | [] => Ok []
  | a :: l => let? b := f a in let? bs := result_mapM f l in Ok (b :: bs)
  end.

Fixpoint result_foldl {A B} (f : A -> B -> result A) (acc : A) (l : list B) : result A :=
  match l with
  | [] => Ok acc
  | b :: l => let? acc := f acc b in result_foldl f acc l
  end.

Definition is_ok {A} (m : result A) : bool := match m with Ok _ => true | Err _ => false end.

(** ** Tactics *)

(** Takes apart a hypothesis [bind ... = Ok _]. *)
Ltac inv_ok :=
  repeat match goal with
  | H : result_bind ?m _ = Ok _ |- _ =>
      let E := fresh "E" in destruct m eqn:E; cbn [result_bind] in H; [|discriminate H]
  | H : Ok _ = Ok _ |- _ => injection H as H; try subst
  | H : Err _ = Ok _ |- _ => discriminate H
  | H : ok_or ?o _ = Ok _ |- _ =>
      let E := fresh "E" in destruct o eqn:E; cbn [ok_or] in H; [|discriminate H]
  end.

(** Case analysis on every match of the goal, closing what computes. *)
Ltac split_matches := repeat (case_match; simplify_eq/=; try done).

(** ** Lists of results, and strings *)

(** ASCII letters in lower case ([str::to_ascii_lowercase]). *)
Definition lower_ascii (c : Ascii.ascii) : Ascii.ascii :=
  let n := Ascii.nat_of_ascii c in if bool_decide (65 <= n /\ n <= 90) then Ascii.ascii_of_nat (n + 32) else c.
Fixpoint to_ascii_lowercase (s : string) : string :=
  match s with EmptyString => EmptyString | String c s => String (lower_ascii c) (to_ascii_lowercase s) end.

Lemma string_app_cons c a b : String c a +:+ b = String c (a +:+ b).
Proof. done. Qed.

Lemma string_length_app a b : String.length (a +:+ b) = String.length a + String.length b.
Proof. induction a as [|c a IH]; [done|]. rewrite string_app_cons. cbn. by rewrite IH. Qed.

Lemma string_app_nil a : a +:+ "" = a.
Proof. induction a as [|d a IH]; [done|]. change (String d (a +:+ "") = String d a). by rewrite IH. Qed.

Lemma string_app_assoc a b c : (a +:+ b) +:+ c = a +:+ b +:+ c.
Proof. induction a as [|d a IH]; [done|]. change (String d ((a +:+ b) +:+ c) = String d (a +:+ b +:+ c)). by rewrite IH. Qed.

Lemma result_bind_ok {A B} (m : result A) (k : A -> result B) b :
  (let? a := m in k a) = Ok b -> exists a, m = Ok a /\ k a = Ok b.
Proof. destruct m; [|done]. by eexists. Qed.

Lemma result_mapM_lookup {A B} (f : A -> result B) l k i a :
  result_mapM f l = Ok k -> l !! i = Some a -> exists b, k !! i = Some b /\ f a = Ok b.
Proof.
  revert k i. induction l as [|x l IH]; intros k [|i] Hm Hi; cbn in *; inv_ok; try done.
  - injection Hi as <-. by eexists.
  - by apply (IH _ i eq_refl).
Qed.

Lemma result_mapM_ok {A B} (f : A -> result B) l :
  Forall (fun a => exists b, f a = Ok b) l -> exists k, result_mapM f l = Ok k.
Proof. induction 1 as [|x l [b Hb] _ [k IH]]; cbn; [by eexists|]. rewrite Hb. cbn. rewrite IH. by eexists. Qed.

Lemma result_mapM_length {A B} (f : A -> result B) l out :
  result_mapM f l = Ok out -> length out = length l.
Proof.
  revert out. induction l as [|a l IH]; cbn; intros out Ho; inv_ok; [done|]. cbn. f_equal. by apply IH.
Qed.

Lemma result_mapM_app {A B} (f : A -> result B) l1 l2 :
  result_mapM f (l1 ++ l2) =
  let? k1 := result_mapM f l1 in let? k2 := result_mapM f l2 in Ok (k1 ++ k2).
Proof.
  induction l1 as [|x l1 IH]; cbn; [by destruct (result_mapM f l2)|].
  destruct (f x); cbn; [|done]. rewrite IH. destruct (result_mapM f l1); cbn; [|done].
  by destruct (result_mapM f l2).
Qed.

Lemma Forall2_impl_elem {A B} (P Q : A -> B -> Prop) l k :
  Forall2 P l k -> (forall a b, a ∈ l -> P a b -> Q a b) -> Forall2 Q l k.
Proof.
  induction 1 as [|a b l k Hab _ IH]; intros HPQ; constructor; [apply HPQ; [left|done]|].
  apply IH. intros a' b' Ha'. apply HPQ. by right.
Qed.

Lemma result_mapM_fmap {A B} (f : A -> result B) l k :
  length k = length l -> (forall i a b, l !! i = Some a -> k !! i = Some b -> f a = Ok b) -> result_mapM f l = Ok k.
Proof.
  revert k. induction l as [|a l IH]; intros [|b k] [=] Hf; [done|]. cbn.
  rewrite (Hf 0 a b eq_refl eq_refl). cbn. rewrite (IH k); [done|done|]. intros i. apply (Hf (Datatypes.S i)).
Qed.

Create HintDb sf discriminated.
Create Rewrite HintDb sf_rw.

(** ** Bytes and machine integers *)

Abbreviation byte := Corelib.Init.Byte.byte.
Abbreviation bytes := (list byte).

#[export] Instance byte_eq_dec : EqDecision byte := Byte.byte_eq_dec.

#[export] Program Instance byte_countable : Countable byte :=
  inj_countable Byte.to_N Byte.of_N _.
Next Obligation. apply Byte.of_to_N. Qed.

Definition u8_max : Z := 255.

(** [wrap_u w] and [wrap_s w] are Rust's [as uN] and [as iN]. *)
Definition wrap_u (w : Z) (z : Z) : Z := z mod 2 ^ w.
Definition wrap_s (w : Z) (z : Z) : Z := (z + 2 ^ (w - 1)) mod 2 ^ w - 2 ^ (w - 1).

Definition fits_u (w : Z) (z : Z) : Prop := (0 <= z < 2 ^ w)%Z.
Definition fits_s (w : Z) (z : Z) : Prop := (- 2 ^ (w - 1) <= z < 2 ^ (w - 1))%Z.

Lemma wrap_u_id w z : fits_u w z -> wrap_u w z = z.
Proof. intros H. unfold wrap_u. apply Z.mod_small, H. Qed.

Lemma wrap_s_id w z : (0 < w)%Z -> fits_s w z -> wrap_s w z = z.
Proof.
  intros Hw H. unfold wrap_s, fits_s in *.
  assert (2 ^ w = 2 * 2 ^ (w - 1))%Z as E
    by (rewrite <- Z.pow_succ_r by lia; f_equal; lia).
  rewrite Z.mod_small by lia. lia.
Qed.

Lemma wrap_u_fits w z : (0 <= w)%Z -> fits_u w (wrap_u w z).
Proof. intros H. apply Z.mod_pos_bound. lia. Qed.

(** [to_le_bytes] / [to_be_bytes] / [from_le_bytes] of an [8 * n]-bit integer. *)
Definition to_le_bytes (n : nat) (z : Z) : bytes := le_split n z.
Definition to_be_bytes (n : nat) (z : Z) : bytes := rev (le_split n z).
Definition from_le_bytes (bs : bytes) : Z := le_combine bs.
Definition from_be_bytes (bs : bytes) : Z := le_combine (rev bs).

Lemma length_to_le_bytes n z : length (to_le_bytes n z) = n.
Proof. apply length_le_split. Qed.

Lemma length_to_be_bytes n z : length (to_be_bytes n z) = n.
Proof. unfold to_be_bytes. rewrite length_rev. apply length_le_split. Qed.

Lemma from_to_le_bytes n z : fits_u (8 * Z.of_nat n) z -> from_le_bytes (to_le_bytes n z) = z.
Proof.
  intros H. unfold from_le_bytes, to_le_bytes. rewrite le_combine_split.
  apply Z.mod_small. replace (Z.of_nat n * 8)%Z with (8 * Z.of_nat n)%Z by lia. exact H.
Qed.

Lemma from_to_be_bytes n z : fits_u (8 * Z.of_nat n) z -> from_be_bytes (to_be_bytes n z) = z.
Proof.
  intros H. unfold from_be_bytes, to_be_bytes. rewrite rev_involutive.
  by apply from_to_le_bytes.
Qed.

Lemma to_le_bytes_inj n z1 z2 :
  fits_u (8 * Z.of_nat n) z1 -> fits_u (8 * Z.of_nat n) z2 ->
  to_le_bytes n z1 = to_le_bytes n z2 -> z1 = z2.
Proof. intros H1 H2 E. by rewrite <- (from_to_le_bytes n z1), E, from_to_le_bytes. Qed.

Lemma to_be_bytes_inj n z1 z2 :
  fits_u (8 * Z.of_nat n) z1 -> fits_u (8 * Z.of_nat n) z2 ->
  to_be_bytes n z1 = to_be_bytes n z2 -> z1 = z2.
Proof. intros H1 H2 E. by rewrite <- (from_to_be_bytes n z1), E, from_to_be_bytes. Qed.

Lemma to_from_le_bytes bs : to_le_bytes (length bs) (from_le_bytes bs) = bs.
Proof. apply split_le_combine. Qed.

Lemma from_le_bytes_bound bs : fits_u (8 * Z.of_nat (length bs)) (from_le_bytes bs).
Proof. apply le_combine_bound. Qed.

#[export] Hint Rewrite length_to_le_bytes length_to_be_bytes : sf_rw.
#[export] Hint Resolve from_le_bytes_bound wrap_u_fits : sf.

(** ** Lists *)

(** Two concatenations with prefixes of one length agree part by part. *)
Lemma app_inj_len {A} (a b c d : list A) :
  length a = length c -> a ++ b = c ++ d -> a = c /\ b = d.
Proof. intros H E. by apply app_inj_1. Qed.

Lemma take_length_app {A} (a b : list A) : take (length a) (a ++ b) = a.
Proof. by rewrite take_app_length. Qed.

Lemma drop_length_app {A} (a b : list A) : drop (length a) (a ++ b) = b.
Proof. by rewrite drop_app_length. Qed.

Section Filters.
Context {A : Type} (P : A -> Prop) `{!forall x, Decision (P x)}.

Lemma filter_none (l : list A) : (forall x, x ∈ l -> ~ P x) -> filter P l = [].
Proof.
  induction l as [|x l IH]; intros Hl; [done|]. rewrite filter_cons_False by (apply Hl; left).
  apply IH. intros y Hy. apply Hl. by right.
Qed.

Lemma filter_all (l : list A) : (forall x, x ∈ l -> P x) -> filter P l = l.
Proof.
  induction l as [|x l IH]; intros Hl; [done|]. rewrite filter_cons_True by (apply Hl; left).
  f_equal. apply IH. intros y Hy. apply Hl. by right.
Qed.

Lemma filter_fmap {B} (f : B -> A) (l : list B) : filter P (f <$> l) = f <$> filter (fun b => P (f b)) l.
Proof. induction l as [|b l IH]; [done|]. cbn [fmap list_fmap]. rewrite !filter_cons, IH. by case_decide. Qed.
End Filters.

(** A permutation of an image is the image of a permutation. *)
Lemma permutation_fmap_inv {A B} (f : A -> B) (l : list A) (l' : list B) :
  l' ≡ₚ f <$> l -> exists k, l' = f <$> k /\ k ≡ₚ l.
Proof.
  intros Hp. symmetry in Hp. apply Permutation_sym, Permutation_map_inv in Hp as (k & -> & Hk).
  exists k. by split.
Qed.
