(* ===== verification/Values.v ===== *)
(** * Values, columns, SQL truth values and table statistics

    The data that the filter rewriting and the encrypted indices share: the
    scalar values and column types they match on, columns with an optional cast
    ([ColumnWithCast], [ColumnOrTuple]), the table statistics consulted when an
    index is chosen, and the three-valued logic in which filters are
    interpreted. Floats are IEEE numbers ([spec_float]); [f64] operations are the
    executable ones of [SpecFloat] at 53 bits of precision. *)
From S2P Require Import Prelude.
From Stdlib Require Import SpecFloat.

(** ** Types and scalar values *)

Inductive TimeUnit := Second | Millisecond | Microsecond | Nanosecond.

Inductive IntervalUnit := YearMonth | DayTime | MonthDayNano.

Inductive DataType :=
  | DtNull | DtBoolean
  | DtInt8 | DtInt16 | DtInt32 | DtInt64
  | DtUInt8 | DtUInt16 | DtUInt32 | DtUInt64
  | DtFloat16 | DtFloat32 | DtFloat64
  | DtTimestamp (u : TimeUnit) (tz : option string)
  | DtDate32 | DtDate64
  | DtTime32 (u : TimeUnit) | DtTime64 (u : TimeUnit)
  | DtDuration (u : TimeUnit) | DtInterval (u : IntervalUnit)
  | DtBinary | DtFixedSizeBinary (n : Z) | DtLargeBinary
  | DtUtf8 | DtLargeUtf8
  | DtDecimal32 (p s : Z) | DtDecimal64 (p s : Z)
  | DtDecimal128 (p s : Z) | DtDecimal256 (p s : Z)
  | DtFixedSizeListFloat32 (n : Z)
  | DtBinaryView | DtUtf8View
  | DtList (item : DataType) | DtDictionary (key value : DataType)
  | DtOther (name : string).

#[export] Instance TimeUnit_eq_dec : EqDecision TimeUnit.
Proof. solve_decision. Defined.
#[export] Instance IntervalUnit_eq_dec : EqDecision IntervalUnit.
Proof. solve_decision. Defined.
#[export] Instance DataType_eq_dec : EqDecision DataType.
Proof. solve_decision. Defined.
#[export] Instance spec_float_eq_dec : EqDecision spec_float.
Proof. solve_decision. Defined.

(** Timestamps carry their optional time zone, decimals precision and scale. *)
Inductive ScalarValue :=
  | SNull
  | SBoolean (v : option bool)
  | SFloat16 (v : option spec_float) | SFloat32 (v : option spec_float)
  | SFloat64 (v : option spec_float)
  | SDecimal32 (v : option Z) (p s : Z) | SDecimal64 (v : option Z) (p s : Z)
  | SDecimal128 (v : option Z) (p s : Z) | SDecimal256 (v : option Z) (p s : Z)
  | SInt8 (v : option Z) | SInt16 (v : option Z) | SInt32 (v : option Z) | SInt64 (v : option Z)
  | SUInt8 (v : option Z) | SUInt16 (v : option Z) | SUInt32 (v : option Z)
  | SUInt64 (v : option Z)
  | SUtf8 (v : option string) | SBinary (v : option bytes)
  | SDate32 (v : option Z) | SDate64 (v : option Z)
  | STime32Second (v : option Z) | STime32Millisecond (v : option Z)
  | STime64Microsecond (v : option Z) | STime64Nanosecond (v : option Z)
  | STimestampSecond (v : option Z) (tz : option string)
  | STimestampMillisecond (v : option Z) (tz : option string)
  | STimestampMicrosecond (v : option Z) (tz : option string)
  | STimestampNanosecond (v : option Z) (tz : option string)
  | SIntervalDayTime (v : option (Z * Z))
  | SStruct (columns : list ScalarValue).  (* the first row of a struct array *)

#[export] Instance ScalarValue_eq_dec : EqDecision ScalarValue.
Proof.
  unfold RelDecision. fix go 1. intros v w.
  assert (forall l l' : list ScalarValue, {l = l'} + {l <> l'}) as Hl.
  { fix lists 1. intros [|a l] [|b l']; [by left|by right|by right|].
    destruct (go a b) as [->|Hab]; [|right; congruence].
    destruct (lists l l') as [->|Hl]; [by left|right; congruence]. }
  destruct v as [| | | | | | | | | | | | | | | | | | | | | | | | | | | | | | c], w as [| | | | | | | | | | | | | | | | | | | | | | | | | | | | | | c'];
    try (right; discriminate); clear go;
    try match goal with
    | |- Decision (?C ?a ?b ?d = ?C ?a' ?b' ?d') =>
        destruct (decide ((a, b, d) = (a', b', d'))) as [E|E]; [left|right]; congruence
    | |- Decision (?C ?a ?b = ?C ?a' ?b') => destruct (decide ((a, b) = (a', b'))) as [E|E]; [left|right]; congruence
    | |- Decision (?C ?a = ?C ?a') => destruct (decide (a = a')) as [E|E]; [left|right]; congruence
    | |- Decision (?C = ?C) => by left
    end.
  destruct (Hl c c') as [->|Hc]; [by left|right; congruence].
Defined.

(** ** Columns *)

(** [datafusion::common::Column]: an optional relation and a name. *)
Record Column := { relation : option (option string * string); name : string }.

#[export] Instance Column_eq_dec : EqDecision Column.
Proof. solve_decision. Defined.

Record ColumnWithCast := { column : Column; cast_to : option DataType; or_null : bool }.

#[export] Instance ColumnWithCast_eq_dec : EqDecision ColumnWithCast.
Proof. solve_decision. Defined.

Inductive ColumnOrTuple :=
  | CColumn (c : ColumnWithCast)
  | CTuple (cs : list ColumnWithCast).

Definition cwc_column (col : Column) : ColumnWithCast :=
  {| column := col; cast_to := None; or_null := false |}.

Definition cwc_raw (col_name : string) : ColumnWithCast :=
  {| column := {| relation := None; name := col_name |}; cast_to := None; or_null := false |}.

Definition cwc_cast (c : ColumnWithCast) (typ : DataType) : ColumnWithCast :=
  {| column := column c; cast_to := Some typ; or_null := false |}.

Definition cwc_try_cast (c : ColumnWithCast) (typ : DataType) : ColumnWithCast :=
  {| column := column c; cast_to := Some typ; or_null := true |}.

(** ** SQL truth values

    [None] is SQL's NULL; a row is selected when its filter is [Some true]. *)

Abbreviation tv := (option bool).

Definition kand (a b : tv) : tv :=
  match a, b with
  | Some false, _ | _, Some false => Some false
  | Some true, Some true => Some true
  | _, _ => None
  end.

Definition kor (a b : tv) : tv :=
  match a, b with
  | Some true, _ | _, Some true => Some true
  | Some false, Some false => Some false
  | _, _ => None
  end.

Definition knot (a : tv) : tv := negb <$> a.

Lemma kor_kand_distr_l a b c : kor a (kand b c) = kand (kor a b) (kor a c).
Proof. by destruct a as [[]|], b as [[]|], c as [[]|]. Qed.
Lemma kor_comm a b : kor a b = kor b a.
Proof. by destruct a as [[]|], b as [[]|]. Qed.
Lemma kand_comm a b : kand a b = kand b a.
Proof. by destruct a as [[]|], b as [[]|]. Qed.
Lemma kand_assoc a b c : kand a (kand b c) = kand (kand a b) c.
Proof. by destruct a as [[]|], b as [[]|], c as [[]|]. Qed.
Lemma kand_true_r a : kand a (Some true) = a.
Proof. by destruct a as [[]|]. Qed.
Lemma kand_true_l a : kand (Some true) a = a.
Proof. by destruct a as [[]|]. Qed.
Lemma knot_kand a b : knot (kand a b) = kor (knot a) (knot b).
Proof. by destruct a as [[]|], b as [[]|]. Qed.
Lemma knot_kor a b : knot (kor a b) = kand (knot a) (knot b).
Proof. by destruct a as [[]|], b as [[]|]. Qed.
Lemma knot_involutive a : knot (knot a) = a.
Proof. by destruct a as [[]|]. Qed.
Lemma kand_true_iff a b : kand a b = Some true <-> a = Some true /\ b = Some true.
Proof. destruct a as [[]|], b as [[]|]; naive_solver. Qed.
Lemma kor_true_iff a b : kor a b = Some true <-> a = Some true \/ b = Some true.
Proof. destruct a as [[]|], b as [[]|]; naive_solver. Qed.

Arguments kand : simpl never.
Arguments kor : simpl never.
Arguments knot : simpl never.

Create Rewrite HintDb kleene.
#[export] Hint Rewrite kand_true_r kand_true_l knot_kand knot_kor knot_involutive : kleene.

(** ** Statistics *)

(** [Precision<usize>] of DataFusion; its operations are DataFusion's. *)
Inductive Precision := Exact (n : Z) | Inexact (n : Z) | Absent.

Class PrecisionOps := {
  precision_min : Precision -> Precision -> Precision;
  precision_add : Precision -> Precision -> Precision;
  precision_sub : Precision -> Precision -> Precision;
  precision_get_value : Precision -> option Z;
  with_estimated_selectivity : Precision -> spec_float -> Precision
}.

Definition f64_of_Z (z : Z) : spec_float := binary_normalize 53 1024 z 0 false.
Definition f64_mul : spec_float -> spec_float -> spec_float := SFmul 53 1024.
Definition f64_div : spec_float -> spec_float -> spec_float := SFdiv 53 1024.
(** [f64::min] returns the other argument when one is NaN. *)
Definition f64_min (a b : spec_float) : spec_float :=
  match a, b with
  | S754_nan, _ => b
  | _, S754_nan => a
  | _, _ => if SFltb b a then b else a
  end.

Record TableStatistics := { num_rows : Precision; indexing_columns : gmap string Precision }.

Definition column_stats (t : TableStatistics) (col : string) : option Precision :=
  indexing_columns t !! col.

Definition column_selectivity `{PrecisionOps} (t : TableStatistics) (col : string) :
    option spec_float :=
  match column_stats t col with
  | None => None
  | Some v =>
      match precision_get_value v with
      | None => None
      | Some v => Some (f64_min (f64_of_Z 1) (f64_div (f64_of_Z 1) (f64_of_Z v)))
      end
  end.
