(* ===== verification/Filters.v ===== *)
(** * Indexable filters

    Models [backends/mysql/src/filtering/indexable_filter.rs]: the filter trees
    that are pushed to the server or to an encrypted index, the comparison
    merging [optimize_cmp], the two negation rewritings, and the splitting of a
    tree into the part an index supports and the rest. A filter is interpreted
    over a row in SQL's three-valued logic ([eval]); the theorems relate each
    rewriting to that interpretation. *)
From S2P Require Import Prelude Values.
From Stdlib Require Import SpecFloat.

(** ** Operators *)

Inductive EqualityOperator := OpEq | OpGt | OpLt | OpLtEq | OpGtEq.

#[export] Instance EqualityOperator_eq_dec : EqDecision EqualityOperator.
Proof. solve_decision. Defined.

Definition inverse_order (op : EqualityOperator) : EqualityOperator :=
  match op with
  | OpEq => OpEq
  | OpGt => OpLt
  | OpLt => OpGt
  | OpLtEq => OpGtEq
  | OpGtEq => OpLtEq
  end.

(** [sqlparser::ast::BinaryOperator], the operators the backend emits. *)
Inductive BinaryOperator := BinEq | BinGt | BinLt | BinLtEq | BinGtEq | BinAnd | BinOr.

Definition binary_operator_from (op : EqualityOperator) : BinaryOperator :=
  match op with
  | OpEq => BinEq
  | OpGt => BinGt
  | OpLt => BinLt
  | OpLtEq => BinLtEq
  | OpGtEq => BinGtEq
  end.

(** [datafusion::logical_expr::Operator]; the remaining operators by name. *)
Inductive Operator :=
  | OperatorEq | OperatorLt | OperatorLtEq | OperatorGt | OperatorGtEq
  | OperatorAnd | OperatorOr | OperatorOther (name : string).

Definition equality_operator_try_from (value : Operator) : option EqualityOperator :=
  match value with
  | OperatorEq => Some OpEq
  | OperatorLt => Some OpLt
  | OperatorLtEq => Some OpLtEq
  | OperatorGt => Some OpGt
  | OperatorGtEq => Some OpGtEq
  | _ => None
  end.

(** ** Filter trees *)

Inductive IndexableFilterExpr (E : Type) :=
  | And (l r : IndexableFilterExpr E)
  | Or (l r : IndexableFilterExpr E)
  | Not (f : IndexableFilterExpr E)
  | Eq (c : ColumnWithCast) (op : EqualityOperator) (v : ScalarValue)
  | Between (c : ColumnWithCast) (low high : ScalarValue)
  | InList (c : ColumnOrTuple) (vs : list ScalarValue)
  | KwSearchLike (c : ColumnWithCast) (pattern : string)
  | KwMatch (columns : list Column) (search_string : string)
  | Other (e : E).
Arguments And {E} l r.
Arguments Or {E} l r.
Arguments Not {E} f.
Arguments Eq {E} c op v.
Arguments Between {E} c low high.
Arguments InList {E} c vs.
Arguments KwSearchLike {E} c pattern.
Arguments KwMatch {E} columns search_string.
Arguments Other {E} e.

(** ** Minimum of two scalar values of one type ([ScalarOp::min])

    [None] for values of different types, NULLs and types without an order. *)

Definition min_by (gt : bool) (this other : ScalarValue) : option ScalarValue :=
  Some (if gt then other else this).

Definition scalar_min (this other : ScalarValue) : option ScalarValue :=
  match this, other with
  | SFloat16 (Some v), SFloat16 (Some v2)
  | SFloat32 (Some v), SFloat32 (Some v2)
  | SFloat64 (Some v), SFloat64 (Some v2) => min_by (SFltb v2 v) this other
  | SDecimal32 (Some v) _ _, SDecimal32 (Some v2) _ _
  | SDecimal64 (Some v) _ _, SDecimal64 (Some v2) _ _
  | SDecimal128 (Some v) _ _, SDecimal128 (Some v2) _ _
  | SDecimal256 (Some v) _ _, SDecimal256 (Some v2) _ _
  | SInt8 (Some v), SInt8 (Some v2)
  | SInt16 (Some v), SInt16 (Some v2)
  | SInt32 (Some v), SInt32 (Some v2)
  | SInt64 (Some v), SInt64 (Some v2)
  | SUInt8 (Some v), SUInt8 (Some v2)
  | SUInt16 (Some v), SUInt16 (Some v2)
  | SUInt32 (Some v), SUInt32 (Some v2)
  | SUInt64 (Some v), SUInt64 (Some v2)
  | SDate32 (Some v), SDate32 (Some v2)
  | SDate64 (Some v), SDate64 (Some v2)
  | STime32Second (Some v), STime32Second (Some v2)
  | STime32Millisecond (Some v), STime32Millisecond (Some v2)
  | STime64Microsecond (Some v), STime64Microsecond (Some v2)
  | STime64Nanosecond (Some v), STime64Nanosecond (Some v2)
  | STimestampSecond (Some v) _, STimestampSecond (Some v2) _
  | STimestampMillisecond (Some v) _, STimestampMillisecond (Some v2) _
  | STimestampMicrosecond (Some v) _, STimestampMicrosecond (Some v2) _
  | STimestampNanosecond (Some v) _, STimestampNanosecond (Some v2) _ =>
      min_by (v2 <? v)%Z this other
  | _, _ => None
  end.

(** ** Rewritings *)

Definition is_upper (op : EqualityOperator) : bool :=
  match op with OpLt | OpLtEq => true | _ => false end.
Definition is_lower (op : EqualityOperator) : bool :=
  match op with OpGt | OpGtEq => true | _ => false end.

(** The two comparisons of a conjunction on one column, merged. *)
Definition merge_cmp {E} (left_col : ColumnWithCast) (left_operator : EqualityOperator)
    (left_value : ScalarValue) (right_col : ColumnWithCast) (right_operator : EqualityOperator)
    (right_value : ScalarValue) : IndexableFilterExpr E :=
  let unchanged :=
    And (Eq left_col left_operator left_value) (Eq right_col right_operator right_value) in
  match scalar_min left_value right_value with
  | None => unchanged
  | Some minimum =>
      let min_is_left := bool_decide (minimum = left_value) in
      if is_upper left_operator && is_upper right_operator then
        Eq left_col (if min_is_left then left_operator else right_operator)
          (if min_is_left then left_value else right_value)
      else if is_lower left_operator && is_lower right_operator then
        Eq left_col (if min_is_left then right_operator else left_operator)
          (if min_is_left then right_value else left_value)
      else if is_lower left_operator && is_upper right_operator && min_is_left then
        Between left_col left_value right_value
      else if is_upper left_operator && is_lower right_operator && negb min_is_left then
        Between left_col right_value left_value
      else unchanged
  end.

Definition as_order_cmp {E} (f : IndexableFilterExpr E) :
    option (ColumnWithCast * EqualityOperator * ScalarValue) :=
  match f with
  | Eq c op v => if is_upper op || is_lower op then Some (c, op, v) else None
  | _ => None
  end.

(** Rewrites [A > x AND A < y] as [A BETWEEN x AND y]. *)
Fixpoint optimize_cmp {E} (f : IndexableFilterExpr E) : IndexableFilterExpr E :=
  match f with
  | And lhs rhs =>
      match as_order_cmp lhs, as_order_cmp rhs with
      | Some (lc, lo, lv), Some (rc, ro, rv) =>
          if bool_decide (lc = rc) then merge_cmp lc lo lv rc ro rv
          else And (optimize_cmp lhs) (optimize_cmp rhs)
      | _, _ => And (optimize_cmp lhs) (optimize_cmp rhs)
      end
  | Or lhs rhs => Or (optimize_cmp lhs) (optimize_cmp rhs)
  | other => other
  end.

Fixpoint pushup_not {E} (f : IndexableFilterExpr E) : IndexableFilterExpr E :=
  match f with
  | And lhs rhs =>
      match pushup_not lhs, pushup_not rhs with
      | Not lhs, Not rhs => Not (Or lhs rhs)
      | lhs, rhs => And lhs rhs
      end
  | Or lhs rhs =>
      match pushup_not lhs, pushup_not rhs with
      | Not lhs, Not rhs => Not (And lhs rhs)
      | lhs, rhs => And lhs rhs
      end
  | Not f =>
      match pushup_not f with
      | Not f => f
      | other => Not other
      end
  | other => other
  end.

Fixpoint pushdown_not {E} (f : IndexableFilterExpr E) : IndexableFilterExpr E :=
  match f with
  | Not f =>
      match pushdown_not f with
      | And lhs rhs => Or (Not lhs) (Not rhs)
      | Or lhs rhs => And (Not lhs) (Not rhs)
      | Not f => f
      | other => Not other
      end
  | And lhs rhs => And (pushdown_not lhs) (pushdown_not rhs)
  | Or lhs rhs => Or (pushdown_not lhs) (pushdown_not rhs)
  | other => other
  end.

(** ** Splitting a tree between an index and the rest *)

Record SupportOptions (E : Type) := {
  supports_not : bool;
  supports_or : bool;
  is_supported : IndexableFilterExpr E -> TableStatistics -> option Precision
}.
Arguments supports_not {E}.
Arguments supports_or {E}.
Arguments is_supported {E}.

(** The [recombine!] macro. *)
Definition recombine {E} (lhs rhs : option (IndexableFilterExpr E))
    (combinator : IndexableFilterExpr E -> IndexableFilterExpr E -> IndexableFilterExpr E) :
    option (IndexableFilterExpr E) :=
  match lhs, rhs with
  | Some l, Some r => Some (combinator l r)
  | Some a, None | None, Some a => Some a
  | None, None => None
  end.

Section Split.
Context {E : Type} `{PrecisionOps}.
Variable support_options : SupportOptions E.
Variable table_stats : TableStatistics.

Definition split_result : Type :=
  option (IndexableFilterExpr E) * option (IndexableFilterExpr E) * Precision.

(** The [OR] arm, from the results of its two sides. *)
Definition split_or (lhs rhs : split_result) : split_result :=
  let '(l_supp, l_unsupp, l_sel) := lhs in
  let '(r_supp, r_unsupp, r_sel) := rhs in
  if (bool_decide (is_Some l_supp) && bool_decide (is_Some r_supp)
        && bool_decide (l_unsupp = None) && bool_decide (r_unsupp = None))
     || (bool_decide (l_supp = None) && bool_decide (r_supp = None)
        && bool_decide (is_Some l_unsupp) && bool_decide (is_Some r_unsupp)) then
    (recombine l_supp r_supp Or, recombine l_unsupp r_unsupp Or, precision_add l_sel r_sel)
  else if bool_decide (l_unsupp = None) then
    (recombine l_supp r_supp Or, recombine l_supp r_unsupp Or, precision_add l_sel r_sel)
  else if bool_decide (r_unsupp = None) then
    (recombine l_supp r_supp Or, recombine l_unsupp r_supp Or, precision_add l_sel r_sel)
  else
    (None,
     recombine (recombine l_supp l_unsupp And) (recombine r_supp r_unsupp And) Or,
     num_rows table_stats).

Fixpoint split_into_supported_unsupported (f : IndexableFilterExpr E) : split_result :=
  match is_supported support_options f table_stats with
  | Some selectivity => (Some f, None, selectivity)
  | None =>
      match f with
      | And lhs rhs =>
          let '(l_supp, l_unsupp, l_sel) := split_into_supported_unsupported lhs in
          let '(r_supp, r_unsupp, r_sel) := split_into_supported_unsupported rhs in
          (recombine l_supp r_supp And, recombine l_unsupp r_unsupp And,
           precision_min l_sel r_sel)
      | Or lhs rhs =>
          if supports_or support_options then
            split_or (split_into_supported_unsupported lhs)
              (split_into_supported_unsupported rhs)
          else (None, Some f, num_rows table_stats)
      | Not not =>
          if supports_not support_options then
            let '(supp, unsupp, sel) := split_into_supported_unsupported not in
            (Not <$> supp, Not <$> unsupp, precision_sub (num_rows table_stats) sel)
          else (None, Some f, num_rows table_stats)
      | other => (None, Some other, num_rows table_stats)
      end
  end.
End Split.

(** ** Interpretation *)

(** How a row compares with a scalar on a column ([None] when either is NULL),
    and the truth of the leaves that are not comparisons. *)
Class FilterSem (E row : Type) := {
  sem_cmp : row -> ColumnWithCast -> ScalarValue -> option comparison;
  sem_leaf : row -> IndexableFilterExpr E -> tv
}.

Definition op_holds (op : EqualityOperator) (c : comparison) : bool :=
  match op, c with
  | OpEq, Datatypes.Eq => true
  | OpGt, Gt => true
  | OpLt, Lt => true
  | OpLtEq, (Lt | Datatypes.Eq) => true
  | OpGtEq, (Gt | Datatypes.Eq) => true
  | _, _ => false
  end.

Section Semantics.
Context {E row : Type} `{!FilterSem E row}.

Definition eval_cmp (r : row) (c : ColumnWithCast) (op : EqualityOperator) (v : ScalarValue) : tv :=
  op_holds op <$> sem_cmp r c v.

Fixpoint eval (r : row) (f : IndexableFilterExpr E) : tv :=
  match f with
  | And a b => kand (eval r a) (eval r b)
  | Or a b => kor (eval r a) (eval r b)
  | Not a => knot (eval r a)
  | Eq c op v => eval_cmp r c op v
  | Between c low high => kand (eval_cmp r c OpGtEq low) (eval_cmp r c OpLtEq high)
  | InList (CColumn c) vs => foldr (fun v acc => kor (eval_cmp r c OpEq v) acc) (Some false) vs
  | f => sem_leaf r f
  end.

(** A missing side of a split is the neutral element of the conjunction. *)
Definition eval_opt (r : row) (f : option (IndexableFilterExpr E)) : tv :=
  match f with
  | Some f => eval r f
  | None => Some true
  end.
End Semantics.

(** ** Lemmas on operators and comparison merging *)

Lemma inverse_order_holds op c : op_holds (inverse_order op) (CompOpp c) = op_holds op c.
Proof. by destruct op, c. Qed.

Lemma inverse_order_involutive op : inverse_order (inverse_order op) = op.
Proof. by destruct op. Qed.

Lemma scalar_min_cases a b m : scalar_min a b = Some m -> m = a \/ m = b.
Proof. unfold scalar_min, min_by. intros; repeat case_match; simplify_eq; auto. Qed.

Section CmpLemmas.
Context {E row : Type} `{!FilterSem E row}.

Lemma eval_cmp_weaken_upper (r : row) c op v :
  is_upper op = true -> eval_cmp r c op v = Some true -> eval_cmp r c OpLtEq v = Some true.
Proof. unfold eval_cmp. destruct op, (sem_cmp r c v) as [[]|]; simpl; congruence. Qed.

Lemma eval_cmp_weaken_lower (r : row) c op v :
  is_lower op = true -> eval_cmp r c op v = Some true -> eval_cmp r c OpGtEq v = Some true.
Proof. unfold eval_cmp. destruct op, (sem_cmp r c v) as [[]|]; simpl; congruence. Qed.

Lemma merge_cmp_superset (r : row) c lo lv ro rv :
  eval_cmp r c lo lv = Some true -> eval_cmp r c ro rv = Some true ->
  eval r (merge_cmp c lo lv c ro rv) = Some true.
Proof.
  intros Hl Hr. unfold merge_cmp.
  destruct (scalar_min lv rv); [|simpl; by rewrite Hl, Hr].
  destruct (is_upper lo) eqn:?, (is_upper ro) eqn:?, (is_lower lo) eqn:?, (is_lower ro) eqn:?;
    simpl; try case_bool_decide; simpl;
    rewrite ?kand_true_iff; try split;
    eauto using eval_cmp_weaken_upper, eval_cmp_weaken_lower.
Qed.

Lemma as_order_cmp_inv (f : IndexableFilterExpr E) c op v :
  as_order_cmp f = Some (c, op, v) -> f = Eq c op v.
Proof. destruct f; simpl; try case_match; naive_solver. Qed.

(** The neutral element lets a conjunction of options be evaluated sidewise. *)
Lemma eval_recombine_and (r : row) a b :
  eval_opt r (recombine a b And) = kand (eval_opt r a) (eval_opt r b).
Proof. destruct a, b; simpl; by autorewrite with kleene. Qed.
End CmpLemmas.

(** ** The split *)

Section SplitLemmas.
Context {E row : Type} `{!FilterSem E row} `{PrecisionOps}.
Variable opts : SupportOptions E.
Variable stats : TableStatistics.
Abbreviation split := (split_into_supported_unsupported opts stats).

Definition supp_of (s : split_result) : option (IndexableFilterExpr E) := s.1.1.
Definition unsupp_of (s : split_result) : option (IndexableFilterExpr E) := s.1.2.

(** The shapes on which the [OR] and [NOT] arms keep the conjunction exact: an
    [OR] must not pair a fully supported side with a fully unsupported one,
    and the operand of a [NOT] must not be mixed. *)
Definition or_ok (l r : @split_result E) : bool :=
  negb ((bool_decide (unsupp_of l = None) && bool_decide (supp_of r = None))
        || (bool_decide (unsupp_of r = None) && bool_decide (supp_of l = None))).
Definition not_ok (s : @split_result E) : bool :=
  bool_decide (unsupp_of s = None) || bool_decide (supp_of s = None).

Fixpoint split_ok (f : IndexableFilterExpr E) : bool :=
  match is_supported opts f stats with
  | Some _ => true
  | None =>
      match f with
      | And a b => split_ok a && split_ok b
      | Or a b =>
          if supports_or opts then split_ok a && split_ok b && or_ok (split a) (split b) else true
      | Not a => if supports_not opts then split_ok a && not_ok (split a) else true
      | _ => true
      end
  end.

Lemma split_unfold f :
  split f =
  match is_supported opts f stats with
  | Some selectivity => (Some f, None, selectivity)
  | None =>
      match f with
      | And a b =>
          (recombine (supp_of (split a)) (supp_of (split b)) And,
           recombine (unsupp_of (split a)) (unsupp_of (split b)) And,
           precision_min (split a).2 (split b).2)
      | Or a b =>
          if supports_or opts then split_or stats (split a) (split b)
          else (None, Some f, num_rows stats)
      | Not a =>
          if supports_not opts then
            (Not <$> supp_of (split a), Not <$> unsupp_of (split a),
             precision_sub (num_rows stats) (split a).2)
          else (None, Some f, num_rows stats)
      | other => (None, Some other, num_rows stats)
      end
  end.
Proof.
  destruct f; cbn [split_into_supported_unsupported]; case_match; try done.
  - by destruct (split f1) as [[]], (split f2) as [[]].
  - by destruct (split f) as [[]].
Qed.

(** A split never loses the whole tree. *)
Lemma split_nonempty f : supp_of (split f) = None -> unsupp_of (split f) = None -> False.
Proof.
  induction f as [a IHa b IHb|a IHa b IHb|a IHa| | | | | |]; rewrite split_unfold;
    case_match; try done; unfold supp_of, unsupp_of in *; simpl.
  - destruct (split a) as [[[] []]], (split b) as [[[] []]]; simpl in *; naive_solver.
  - case_match; [|done]. destruct (split a) as [[[] []]], (split b) as [[[] []]];
      simpl in *; unfold split_or; simpl; naive_solver.
  - case_match; [|done]. simpl. destruct (split a) as [[[] []]]; simpl in *; naive_solver.
Qed.

Lemma split_or_exact (r : row) sl sr :
  (supp_of sl = None -> unsupp_of sl = None -> False) ->
  (supp_of sr = None -> unsupp_of sr = None -> False) ->
  or_ok sl sr = true ->
  kand (eval_opt r (supp_of (split_or stats sl sr))) (eval_opt r (unsupp_of (split_or stats sl sr)))
  = kor (kand (eval_opt r (supp_of sl)) (eval_opt r (unsupp_of sl)))
        (kand (eval_opt r (supp_of sr)) (eval_opt r (unsupp_of sr))).
Proof.
  destruct sl as [[[s1|] [u1|]] p1], sr as [[[s2|] [u2|]] p2];
    unfold or_ok, supp_of, unsupp_of, split_or; simpl; intros H1 H2 Hok;
    try done; try (exfalso; by eauto); autorewrite with kleene; try done;
    rewrite ?kor_kand_distr_l; try done.
  rewrite (kor_comm (kand _ _)), kor_kand_distr_l. f_equal; by rewrite kor_comm.
Qed.

Lemma split_exact_gen (r : row) f :
  split_ok f = true ->
  eval r f = kand (eval_opt r (supp_of (split f))) (eval_opt r (unsupp_of (split f))).
Proof.
  induction f as [a IHa b IHb|a IHa b IHb|a IHa| | | | | |]; rewrite split_unfold; cbn [split_ok];
    case_match; intros Hok; simpl; autorewrite with kleene; try done.
  - apply andb_prop in Hok as [Ha Hb]. unfold supp_of, unsupp_of in *. cbn.
    rewrite !eval_recombine_and, IHa, IHb by done.
    by repeat match goal with |- context [eval_opt r ?x] => destruct (eval_opt r x) as [[]|] end.
  - destruct (supports_or opts); [|simpl; by autorewrite with kleene].
    apply andb_prop in Hok as [[Ha Hb]%andb_prop Hor].
    rewrite split_or_exact by eauto using split_nonempty. by rewrite <- IHa, <- IHb.
  - destruct (supports_not opts); [|simpl; by autorewrite with kleene].
    apply andb_prop in Hok as [Ha Hnot]. rewrite IHa by done.
    pose proof (split_nonempty a) as Hne. unfold not_ok, supp_of, unsupp_of in *. cbn.
    destruct (split a) as [[[s|] [u|]] p]; simpl in *; try done.
    + by rewrite !kand_true_r.
    + by rewrite !kand_true_l.
    + by destruct (Hne eq_refl eq_refl).
Qed.

(** The trees an index may be handed. *)
Inductive fully_supported : IndexableFilterExpr E -> Prop :=
  | fs_node f p : is_supported opts f stats = Some p -> fully_supported f
  | fs_and a b : fully_supported a -> fully_supported b -> fully_supported (And a b)
  | fs_or a b : supports_or opts = true ->
      fully_supported a -> fully_supported b -> fully_supported (Or a b)
  | fs_not a : supports_not opts = true -> fully_supported a -> fully_supported (Not a).

Lemma split_supported_gen f g : supp_of (split f) = Some g -> fully_supported g.
Proof.
  revert g. induction f as [a IHa b IHb|a IHa b IHb|a IHa| | | | | |]; intros g;
    rewrite split_unfold; case_match eqn:Hs; cbn; try (intros [= <-]; by econstructor);
    unfold supp_of in *; try done.
  - destruct (split a) as [[[] []]], (split b) as [[[] []]]; simpl in *; intros; simplify_eq;
      eauto using fully_supported.
  - case_match; [|done].
    destruct (split a) as [[[] []]], (split b) as [[[] []]]; cbn in *; intros; simplify_eq;
      eauto using fully_supported.
  - case_match; [|done]. cbn. destruct (split a) as [[[]]]; cbn in *; intros; simplify_eq;
      eauto using fully_supported.
Qed.
End SplitLemmas.

(** ** Comparison merging adds boundary rows only *)

(** The integer a scalar of an exact ordered type holds. *)
Definition scalar_key (v : ScalarValue) : option Z :=
  match v with
  | SDecimal32 v _ _ | SDecimal64 v _ _ | SDecimal128 v _ _ | SDecimal256 v _ _
  | SInt8 v | SInt16 v | SInt32 v | SInt64 v | SUInt8 v | SUInt16 v | SUInt32 v | SUInt64 v
  | SDate32 v | SDate64 v | STime32Second v | STime32Millisecond v | STime64Microsecond v
  | STime64Nanosecond v | STimestampSecond v _ | STimestampMillisecond v _
  | STimestampMicrosecond v _ | STimestampNanosecond v _ => v
  | _ => None
  end.

(** On column [c] the row holds the integer [x]. *)
Definition column_holds {E row} `{!FilterSem E row} (r : row) (c : ColumnWithCast) (x : Z) : Prop :=
  forall v z, scalar_key v = Some z -> sem_cmp r c v = Some (x ?= z)%Z.

Lemma scalar_min_key a b za zb m :
  scalar_key a = Some za -> scalar_key b = Some zb -> scalar_min a b = Some m ->
  bool_decide (m = a) = negb (zb <? za)%Z.
Proof.
  intros Ha Hb. unfold scalar_min, min_by.
  destruct a; simpl in Ha; simplify_eq; try (by destruct v); destruct b; simpl in Hb;
    simplify_eq; try done; intros [= <-];
    destruct (Z.ltb_spec zb za); simpl; rewrite ?bool_decide_eq_true, ?bool_decide_eq_false;
    try done; intros ?; simplify_eq; lia.
Qed.

Lemma eval_cmp_holds {E row} `{!FilterSem E row} (r : row) c x op v z :
  column_holds r c x -> scalar_key v = Some z -> eval_cmp r c op v = Some (op_holds op (x ?= z)%Z).
Proof. intros Hc Hv. unfold eval_cmp. by rewrite (Hc v z Hv). Qed.

Section Properties.
Context {E row : Type} `{!FilterSem E row}.

Lemma optimize_cmp_sound (r : row) (f : IndexableFilterExpr E) :
  eval r f = Some true -> eval r (optimize_cmp f) = Some true.
Proof.
  induction f as [a IHa b IHb|a IHa b IHb|a IHa| | | | | |]; try done; cbn [optimize_cmp].
  - cbn [eval]. rewrite kand_true_iff. intros [Ha Hb].
    assert (eval r (And (optimize_cmp a) (optimize_cmp b)) = Some true) as Hab
      by (cbn [eval]; rewrite kand_true_iff; auto).
    destruct (as_order_cmp a) as [[[lc lo] lv]|] eqn:El; [|done].
    destruct (as_order_cmp b) as [[[rc ro] rv]|] eqn:Er; [|done].
    apply as_order_cmp_inv in El as ->. apply as_order_cmp_inv in Er as ->.
    case_bool_decide; [subst|done]. by apply merge_cmp_superset.
  - cbn [eval]. rewrite !kor_true_iff. naive_solver.
Qed.

(** C27: splitting a filter for an index is exact: on every row, the filter has
    the same SQL truth value as the conjunction of its supported and its
    unsupported part, so the supported part alone selects a superset of the
    matching rows. The hypothesis excludes the two shapes of the next two theorems. *)
Theorem split_exact `{PrecisionOps} (opts : SupportOptions E) (stats : TableStatistics)
    (r : row) (f : IndexableFilterExpr E) :
  split_ok opts stats f = true ->
  let s := split_into_supported_unsupported opts stats f in
  eval r f = kand (eval_opt r (supp_of s)) (eval_opt r (unsupp_of s)) /\
  (eval r f = Some true -> eval_opt r (supp_of s) = Some true).
Proof.
  intros Hok s. pose proof (split_exact_gen opts stats r f Hok) as Heq.
  split; [done|]. rewrite Heq, kand_true_iff. naive_solver.
Qed.

(** the part of a filter handed to an index is entirely made of nodes the
    index declared supported, joined by AND and by the OR and NOT it accepts,
    and a split never loses the whole filter. *)
Theorem split_supported_part `{PrecisionOps} (opts : SupportOptions E) (stats : TableStatistics)
    (f : IndexableFilterExpr E) :
  let s := split_into_supported_unsupported opts stats f in
  (forall g, supp_of s = Some g -> fully_supported opts stats g) /\
  (supp_of s <> None \/ unsupp_of s <> None).
Proof.
  simpl. split.
  - intros g. apply split_supported_gen.
  - pose proof (split_nonempty opts stats f) as Hne.
    destruct (supp_of _); [by left|]. destruct (unsupp_of _); [by right|]. by destruct Hne.
Qed.

(** merging comparisons never drops a row: every row the filter selects is
    selected by the optimised filter. *)
Theorem optimize_cmp_superset (r : row) (f : IndexableFilterExpr E) :
  eval r f = Some true -> eval r (optimize_cmp f) = Some true.
Proof. apply optimize_cmp_sound. Qed.

(** on a column holding an integer, the only rows that merging two range
    comparisons can add are those equal to one of the two bounds. *)
Theorem optimize_cmp_boundary (r : row) c x lo ro lv rv a b :
  column_holds r c x -> scalar_key lv = Some a -> scalar_key rv = Some b ->
  eval r (optimize_cmp (And (Eq c lo lv) (Eq c ro rv))) = Some true ->
  eval r (And (Eq c lo lv) (Eq c ro rv)) = Some true \/ x = a \/ x = b.
Proof.
  intros Hc Ha Hb. cbn [optimize_cmp as_order_cmp].
  destruct (is_upper lo || is_lower lo) eqn:Hlo; [|by auto].
  destruct (is_upper ro || is_lower ro) eqn:Hro; [|by auto].
  rewrite bool_decide_true by done. unfold merge_cmp.
  destruct (scalar_min lv rv) as [m|] eqn:Hm; [|by auto].
  rewrite (scalar_min_key _ _ _ _ _ Ha Hb Hm).
  destruct (Z.ltb_spec b a), lo, ro; try discriminate Hlo; try discriminate Hro; cbn;
    rewrite ?(eval_cmp_holds r c x _ _ _ Hc Ha), ?(eval_cmp_holds r c x _ _ _ Hc Hb);
    rewrite ?kand_true_iff;
    destruct (Z.compare_spec x a), (Z.compare_spec x b); cbn; intuition (try discriminate; lia).
Qed.

(** pushing negations down preserves the SQL truth value on every row. *)
Theorem pushdown_not_equiv (r : row) (f : IndexableFilterExpr E) :
  eval r (pushdown_not f) = eval r f.
Proof.
  induction f as [a IHa b IHb|a IHa b IHb|a IHa| | | | | |]; try done; cbn [pushdown_not].
  - cbn. by rewrite IHa, IHb.
  - cbn. by rewrite IHa, IHb.
  - cbn [eval]. rewrite <- IHa. destruct (pushdown_not a); cbn; by autorewrite with kleene.
Qed.
End Properties.

(** ** A concrete table for the witnesses

    Rows are pairs of integers, stored in the columns ["a"] and ["b"]; the index
    supports comparisons on column ["a"]. *)

Definition demo_col (n : string) : ColumnWithCast := cwc_raw n.

#[export] Instance demo_sem : FilterSem unit (Z * Z) := {
  sem_cmp r c v :=
    let x := if bool_decide (name (column c) = "a") then r.1 else r.2 in
    match scalar_key v with Some z => Some (x ?= z)%Z | None => None end;
  sem_leaf _ _ := None
}.

#[export] Instance demo_precision : PrecisionOps := {
  precision_min a _ := a; precision_add a _ := a; precision_sub a _ := a;
  precision_get_value p := match p with Exact n | Inexact n => Some n | Absent => None end;
  with_estimated_selectivity p _ := p
}.

Definition demo_stats : TableStatistics := {| num_rows := Inexact 10; indexing_columns := ∅ |}.

Definition demo_options : SupportOptions unit := {|
  supports_not := true;
  supports_or := true;
  is_supported f _ :=
    match f with
    | Eq c _ _ => if bool_decide (name (column c) = "a") then Some Absent else None
    | _ => None
    end
|}.

Abbreviation on_a op z := (Eq (demo_col "a") op (SInt32 (Some z%Z))).
Abbreviation on_b op z := (Eq (demo_col "b") op (SInt32 (Some z%Z))).

(** an OR between a fully supported and a fully unsupported side is split
    into the supported side alone, which drops matching rows: [a = 1 OR b = 2]
    selects the row (0, 2), its supported part [a = 1] does not. *)
Theorem split_or_drops_rows :
  let f := Or (on_a OpEq 1) (on_b OpEq 2) in
  let s := split_into_supported_unsupported demo_options demo_stats f in
  supp_of s = Some (on_a OpEq 1) /\
  eval (0%Z, 2%Z) f = Some true /\ eval_opt (0%Z, 2%Z) (supp_of s) = Some false.
Proof. done. Qed.

(** a NOT over a mixed conjunction is split into the conjunction of the
    negations, which drops matching rows: [NOT (a = 1 AND b = 2)] selects the
    row (1, 0), its supported part [NOT a = 1] does not. *)
Theorem split_not_drops_rows :
  let f := Not (And (on_a OpEq 1) (on_b OpEq 2)) in
  let s := split_into_supported_unsupported demo_options demo_stats f in
  supp_of s = Some (Not (on_a OpEq 1)) /\
  eval (1%Z, 0%Z) f = Some true /\ eval_opt (1%Z, 0%Z) (supp_of s) = Some false.
Proof. done. Qed.

(** raising negations turns an OR whose sides are not both negated into an
    AND: [a = 1 OR b = 2] becomes [a = 1 AND b = 2]. *)
Theorem pushup_not_or_becomes_and :
  let f := Or (on_a OpEq 1) (on_b OpEq 2) in
  pushup_not f = And (on_a OpEq 1) (on_b OpEq 2) /\
  eval (1%Z, 0%Z) f = Some true /\ eval (1%Z, 0%Z) (pushup_not f) = Some false.
Proof. done. Qed.

Lemma split_exact_witness :
  let f := And (on_a OpEq 1) (Or (on_b OpEq 2) (And (on_a OpGt 3) (on_b OpLt 2))) in
  split_ok demo_options demo_stats f = true /\
  (eval (1%Z, 2%Z) f = Some true ->
   eval_opt (1%Z, 2%Z) (supp_of (split_into_supported_unsupported demo_options demo_stats f))
   = Some true).
Proof.
  split; [vm_compute; reflexivity|].
  apply (split_exact demo_options demo_stats (1%Z, 2%Z)
    (And (on_a OpEq 1) (Or (on_b OpEq 2) (And (on_a OpGt 3) (on_b OpLt 2))))).
  vm_compute; reflexivity.
Defined.

Lemma optimize_cmp_superset_witness :
  eval (3%Z, 0%Z) (optimize_cmp (And (on_a OpGt 1) (on_a OpLt 5))) = Some true.
Proof.
  apply (optimize_cmp_superset (3%Z, 0%Z) (And (on_a OpGt 1) (on_a OpLt 5))).
  reflexivity.
Defined.

Lemma optimize_cmp_boundary_witness :
  eval (5%Z, 0%Z) (And (on_a OpGt 1) (on_a OpLt 5)) = Some true \/ 5%Z = 1%Z \/ 5%Z = 5%Z.
Proof.
  apply (optimize_cmp_boundary (5%Z, 0%Z) (demo_col "a") 5 OpGt OpLt
    (SInt32 (Some 1%Z)) (SInt32 (Some 5%Z)) 1 5); try reflexivity.
  intros v z Hv. cbn. rewrite Hv. reflexivity.
Defined.
