(* ===== verification/Sql.v ===== *)
(** * SQL expressions sent to the server

    The fragment of [sqlparser::ast::Expr] that the backend builds, the
    constructors of [backends/mysql/src/ast_expr_ext.rs], and the server's
    evaluation of such an expression on a stored row. *)
From S2P Require Import Prelude Values Filters.
From Stdlib Require Import Ascii.

(** [Number] holds the integer whose decimal text is sent. *)
Inductive SqlValue :=
  | Number (n : Z)
  | SingleQuotedString (s : string)
  | HexStringLiteral (s : string)
  | Boolean (b : bool).

Inductive SqlExpr :=
  | Identifier (s : string)
  | CompoundIdentifier (path : list string)
  | Value (v : SqlValue)
  | BinaryOp (left : SqlExpr) (op : BinaryOperator) (right : SqlExpr)
  | UnaryNot (e : SqlExpr)
  | SqlBetween (e low high : SqlExpr)
  | SqlInList (e : SqlExpr) (list : list SqlExpr)
  | SqlLike (e pattern : SqlExpr)
  | SqlCast (e : SqlExpr) (data_type : string) (try_cast : bool)
  | SqlTuple (es : list SqlExpr).

(** [AstExprExt]. *)
Definition binop (this other : SqlExpr) (op : BinaryOperator) : SqlExpr := BinaryOp this op other.
Definition sql_and (this other : SqlExpr) : SqlExpr := binop this other BinAnd.
Definition sql_or (this other : SqlExpr) : SqlExpr := binop this other BinOr.
Definition sql_eq (this other : SqlExpr) : SqlExpr := binop this other BinEq.
Definition sql_not (this : SqlExpr) : SqlExpr := UnaryNot this.

(** ** Evaluation on the server *)

(** A stored value; [None] is NULL. *)
Inductive Cell := CNum (n : Z) | CStr (s : string).

(** A stored row: the value of each column. *)
Abbreviation ServerRow := (string -> option Cell).

Definition operand (r : ServerRow) (e : SqlExpr) : option Cell :=
  match e with
  | Identifier s => r s
  | CompoundIdentifier path => match last path with Some s => r s | None => None end
  | Value (Number n) => Some (CNum n)
  | Value (SingleQuotedString s) => Some (CStr s)
  | Value (HexStringLiteral s) => Some (CStr s)
  | _ => None
  end.

Definition cell_compare (a b : option Cell) : option comparison :=
  match a, b with
  | Some (CNum a), Some (CNum b) => Some (a ?= b)%Z
  | Some (CStr a), Some (CStr b) => Some (String.compare a b)
  | _, _ => None
  end.

Definition cell_eq (a b : option Cell) : tv :=
  (fun c => match c with Datatypes.Eq => true | _ => false end) <$> cell_compare a b.

Definition binop_holds (op : BinaryOperator) (c : comparison) : option bool :=
  match op with
  | BinEq => Some (op_holds OpEq c)
  | BinGt => Some (op_holds OpGt c)
  | BinLt => Some (op_holds OpLt c)
  | BinLtEq => Some (op_holds OpLtEq c)
  | BinGtEq => Some (op_holds OpGtEq c)
  | BinAnd | BinOr => None
  end.

(** Casts, tuples and [LIKE] are not interpreted ([None]). *)
Fixpoint eval_sql (r : ServerRow) (e : SqlExpr) : tv :=
  match e with
  | BinaryOp a BinAnd b => kand (eval_sql r a) (eval_sql r b)
  | BinaryOp a BinOr b => kor (eval_sql r a) (eval_sql r b)
  | BinaryOp a op b =>
      match cell_compare (operand r a) (operand r b) with
      | Some c => binop_holds op c
      | None => None
      end
  | UnaryNot e => knot (eval_sql r e)
  | SqlBetween e low high =>
      let ge := op_holds OpGtEq <$> cell_compare (operand r e) (operand r low) in
      let le := op_holds OpLtEq <$> cell_compare (operand r e) (operand r high) in
      kand ge le
  | SqlInList e vs =>
      foldr (fun v acc => kor (cell_eq (operand r e) (operand r v)) acc) (Some false) vs
  | Value (Boolean b) => Some b
  | _ => None
  end.

Lemma string_compare_refl s : String.compare s s = Datatypes.Eq.
Proof. pose proof (String.compare_antisym s s) as Hc. by destruct (String.compare s s). Qed.

Lemma binop_holds_from op c : binop_holds (binary_operator_from op) c = Some (op_holds op c).
Proof. by destruct op. Qed.

Lemma eval_sql_cmp r a op b c :
  cell_compare (operand r a) (operand r b) = Some c ->
  eval_sql r (binop a b (binary_operator_from op)) = Some (op_holds op c).
Proof. intros H. unfold binop. destruct op; simpl; by rewrite H. Qed.

(** ** Rust strings

    A [String] is its UTF-8 bytes. *)

Definition string_bytes (s : string) : bytes := String.list_byte_of_string s.

(** [is_char_boundary]: not before a UTF-8 continuation byte. *)
Definition is_char_boundary (s : string) (i : nat) : bool :=
  match String.get i s with
  | None => bool_decide (i = String.length s)
  | Some a => let n := Z.of_nat (Ascii.nat_of_ascii a) in
              ((n <? 128) || (192 <=? n))%Z
  end.

(** [String::truncate] panics when it would cut a character. *)
Definition string_truncate (n : nat) (s : string) : result string :=
  if bool_decide (String.length s <= n) then Ok s
  else if is_char_boundary s n then Ok (String.substring 0 n s)
  else Err (Panic "truncate: not a char boundary").

(** [str::split_once]. *)
Fixpoint split_once (sep : Ascii.ascii) (s : string) : option (string * string) :=
  match s with
  | EmptyString => None
  | String c s =>
      if bool_decide (c = sep) then Some (EmptyString, s)
      else match split_once sep s with
           | Some (a, b) => Some (String c a, b)
           | None => None
           end
  end.

(** [str::replace]: left to right, without overlap; the recursion runs on a bound
    that the length of the string always satisfies. *)
Fixpoint replace_fuel (fuel : nat) (from to s : string) : string :=
  match fuel with
  | O => s
  | S fuel =>
      match s with
      | EmptyString => EmptyString
      | String c rest =>
          if String.prefix from s then
            to +:+ replace_fuel fuel from to
                     (String.substring (String.length from) (String.length s - String.length from) s)
          else String c (replace_fuel fuel from to rest)
      end
  end.
Definition str_replace (from to s : string) : string :=
  replace_fuel (S (String.length s)) from to s.

(** [str::parse] for integers: an optional sign ([-] only for signed types), at
    least one digit, the value in range. *)
Definition digit_val (a : Ascii.ascii) : option Z :=
  let n := Z.of_nat (Ascii.nat_of_ascii a) in
  if ((48 <=? n) && (n <=? 57))%Z then Some (n - 48)%Z else None.

Fixpoint parse_digits (acc : Z) (s : string) : option Z :=
  match s with
  | EmptyString => Some acc
  | String c s => match digit_val c with
                  | Some d => parse_digits (10 * acc + d)%Z s
                  | None => None
                  end
  end.

Definition parse_magnitude (s : string) : option Z :=
  match s with EmptyString => None | _ => parse_digits 0 s end.

Definition parse_i64 (s : string) : option Z :=
  let z := match s with
           | String "-"%char rest => Z.opp <$> parse_magnitude rest
           | String "+"%char rest => parse_magnitude rest
           | _ => parse_magnitude s
           end in
  match z with
  | Some z => if ((- 2 ^ 63 <=? z) && (z <? 2 ^ 63))%Z then Some z else None
  | None => None
  end.

Definition parse_u64 (s : string) : option Z :=
  let z := match s with
           | String "+"%char rest => parse_magnitude rest
           | _ => parse_magnitude s
           end in
  match z with
  | Some z => if (z <? 2 ^ 64)%Z then Some z else None
  | None => None
  end.

Example parse_i64_ex :
  (parse_i64 "-42", parse_i64 "+7", parse_i64 "", parse_i64 "-", parse_i64 "9223372036854775808",
   parse_u64 "-1", str_replace "spc" " " "1spcdayspcx")
  = (Some (-42)%Z, Some 7%Z, None, None, None, None, "1 day x").
Proof. vm_compute. reflexivity. Qed.
