(* ===== verification/Text.v ===== *)
(** * Characters and words

    What the keyword index uses of Rust's [char] and [str]: UTF-8, character
    classes, trimming and splitting. The two Unicode tables that go beyond ASCII
    ([char::is_alphabetic] and [str::to_lowercase]) are the class [Unicode]. *)
From S2P Require Import Prelude Sql.

(** A text is the list of its code points. *)
Abbreviation text := (list Z).

(** ** UTF-8 *)

Definition utf8_encode_char (c : Z) : list Z :=
  (if c <? 128 then [c]
   else if c <? 2048 then [192 + c / 64; 128 + c mod 64]
   else if c <? 65536 then [224 + c / 4096; 128 + (c / 64) mod 64; 128 + c mod 64]
   else [240 + c / 262144; 128 + (c / 4096) mod 64; 128 + (c / 64) mod 64; 128 + c mod 64])%Z.

Definition utf8_encode (t : text) : bytes := byte.of_Z <$> (t ≫= utf8_encode_char).

(** Strings are valid UTF-8: the malformed cases below do not occur. *)
Fixpoint utf8_decode (bs : list Z) : text :=
  match bs with
  | [] => []
  | b0 :: r0 =>
      if (b0 <? 128)%Z then b0 :: utf8_decode r0
      else match r0 with
           | [] => []
           | b1 :: r1 =>
               if (b0 <? 224)%Z then ((b0 - 192) * 64 + (b1 - 128))%Z :: utf8_decode r1
               else match r1 with
                    | [] => []
                    | b2 :: r2 =>
                        if (b0 <? 240)%Z then
                          ((b0 - 224) * 4096 + (b1 - 128) * 64 + (b2 - 128))%Z :: utf8_decode r2
                        else match r2 with
                             | [] => []
                             | b3 :: r3 =>
                                 ((b0 - 240) * 262144 + (b1 - 128) * 4096 + (b2 - 128) * 64
                                    + (b3 - 128))%Z :: utf8_decode r3
                             end
                    end
           end
  end.

Definition chars (s : string) : text := utf8_decode (byte.unsigned <$> string_bytes s).

(** Unicode scalar values. *)
Definition is_char (c : Z) : Prop := (0 <= c < 1114112)%Z.

(** ** Character classes *)

Definition in_range_Z (lo hi c : Z) : bool := ((lo <=? c) && (c <=? hi))%Z.

Definition is_ascii_control (c : Z) : bool := in_range_Z 0 31 c || (c =? 127)%Z.

Definition is_ascii_punctuation (c : Z) : bool :=
  in_range_Z 33 47 c || in_range_Z 58 64 c || in_range_Z 91 96 c || in_range_Z 123 126 c.

(** The [White_Space] property. *)
Definition is_whitespace (c : Z) : bool :=
  in_range_Z 9 13 c || (c =? 32)%Z || (c =? 133)%Z || (c =? 160)%Z || (c =? 5760)%Z
  || in_range_Z 8192 8202 c || (c =? 8232)%Z || (c =? 8233)%Z || (c =? 8239)%Z || (c =? 8287)%Z
  || (c =? 12288)%Z.

Class Unicode := { is_alphabetic : Z -> bool; to_lowercase : text -> text }.

(** The tables on ASCII. *)
Definition ascii_lower (c : Z) : Z := if in_range_Z 65 90 c then (c + 32)%Z else c.
Definition ascii_alphabetic (c : Z) : bool := in_range_Z 65 90 c || in_range_Z 97 122 c.
Definition ascii_unicode : Unicode := {| is_alphabetic := ascii_alphabetic; to_lowercase := fmap ascii_lower |}.

(** ** Trimming and splitting *)

Fixpoint trim_start (t : text) : text :=
  match t with
  | c :: r => if is_whitespace c then trim_start r else t
  | [] => []
  end.
Definition trim (t : text) : text := reverse (trim_start (reverse (trim_start t))).

(** [str::split]: the pieces between separators, empty ones included. *)
Fixpoint split_by (sep : Z -> bool) (t : text) : list text :=
  match t with
  | [] => [[]]
  | c :: r =>
      match split_by sep r with
      | [] => [[]]
      | w :: ws => if sep c then [] :: w :: ws else (c :: w) :: ws
      end
  end.

(** ** Lemmas *)

Lemma split_by_not_nil sep t : split_by sep t <> [].
Proof. destruct t as [|c r]; cbn; [done|]. destruct (split_by sep r); [done|]. by destruct (sep c). Qed.

(** No piece contains a separator. *)
Lemma split_by_no_sep sep t w : w ∈ split_by sep t -> Forall (fun c => sep c = false) w.
Proof.
  revert w. induction t as [|c r IH]; intros w; cbn.
  - intros ->%list_elem_of_singleton. constructor.
  - destruct (split_by sep r) as [|w0 ws] eqn:E; [by apply split_by_not_nil in E|].
    destruct (sep c) eqn:Es; intros [->|Hw]%elem_of_cons; [constructor|by apply IH| |by apply IH; right].
    constructor; [done|]. apply IH. left.
Qed.

Lemma utf8_decode_encode t : Forall is_char t -> utf8_decode (t ≫= utf8_encode_char) = t.
Proof.
  induction 1 as [|c t Hc _ IH]; [done|]. rewrite bind_cons. unfold is_char in Hc.
  unfold utf8_encode_char at 1.
  destruct (Z.ltb_spec c 128); [|destruct (Z.ltb_spec c 2048); [|destruct (Z.ltb_spec c 65536)]];
    cbn [app utf8_decode].
  - replace (c <? 128)%Z with true by lia. by rewrite IH.
  - pose proof (Z.div_mod c 64). pose proof (Z.mod_pos_bound c 64).
    replace (192 + c / 64 <? 128)%Z with false by lia. replace (192 + c / 64 <? 224)%Z with true by lia.
    rewrite IH. f_equal. lia.
  - pose proof (Z.div_mod c 64). pose proof (Z.mod_pos_bound c 64).
    pose proof (Z.div_mod (c / 64) 64). pose proof (Z.mod_pos_bound (c / 64) 64).
    rewrite Z.div_div in * by lia. change (64 * 64)%Z with 4096%Z in *.
    replace (224 + c / 4096 <? 128)%Z with false by lia. replace (224 + c / 4096 <? 224)%Z with false by lia.
    replace (224 + c / 4096 <? 240)%Z with true by lia. rewrite IH. f_equal. lia.
  - pose proof (Z.div_mod c 64). pose proof (Z.mod_pos_bound c 64).
    pose proof (Z.div_mod (c / 64) 64). pose proof (Z.mod_pos_bound (c / 64) 64).
    rewrite Z.div_div in * by lia. change (64 * 64)%Z with 4096%Z in *.
    pose proof (Z.div_mod (c / 4096) 64). pose proof (Z.mod_pos_bound (c / 4096) 64).
    rewrite Z.div_div in * by lia. change (4096 * 64)%Z with 262144%Z in *.
    replace (240 + c / 262144 <? 128)%Z with false by lia. replace (240 + c / 262144 <? 224)%Z with false by lia.
    replace (240 + c / 262144 <? 240)%Z with false by lia. rewrite IH. f_equal. lia.
Qed.

Lemma utf8_encode_inj t t' :
  Forall is_char t -> Forall is_char t' ->
  t ≫= utf8_encode_char = t' ≫= utf8_encode_char -> t = t'.
Proof.
  intros Ht Ht' E. by rewrite <- (utf8_decode_encode t Ht), E, utf8_decode_encode.
Qed.

Example chars_ex : split_by is_whitespace (trim (chars " red  box ")) = [chars "red"; []; chars "box"].
Proof. vm_compute. reflexivity. Qed.
