(* ===== verification/Logical.v ===== *)
(** * From query expressions to indexable filters

    Models [backends/mysql/src/filtering/logical.rs] (the conversion of
    DataFusion's logical expressions into filter trees), the argument parsing of
    [backends/mysql/src/metadata/kw_search_func.rs] and
    [DecryptUdf::eliminate_decrypt_in_expr] of
    [crypto/src/planning/physical/decrypt.rs]. An expression has a meaning on a
    row ([truth]); the theorems compare it with the meaning of the filter the
    conversion produces. *)
From S2P Require Import Prelude Values Filters.

(** ** Expressions

    [datafusion::logical_expr::Expr], the nodes the conversion tells apart; every
    other node is an [EOther] with its name and operands. *)
Inductive Expr :=
  | EColumn (c : Column)
  | ELiteral (v : ScalarValue)
  | EAlias (e : Expr)
  | ECast (e : Expr) (data_type : DataType)
  | ETryCast (e : Expr) (data_type : DataType)
  | EBetween (e : Expr) (negated : bool) (low high : Expr)
  | EBinary (left : Expr) (op : Operator) (right : Expr)
  | ELike (negated : bool) (e pattern : Expr) (escape_char : option Ascii.ascii)
      (case_insensitive : bool)
  | EInList (e : Expr) (list : list Expr) (negated : bool)
  | EScalarFunction (func : string) (args : list Expr)
  | ENot (e : Expr)
  | EIsTrue (e : Expr) | EIsFalse (e : Expr) | EIsNotTrue (e : Expr) | EIsNotFalse (e : Expr)
  | EOther (kind : string) (operands : list Expr).

Definition DECRYPT_UDF_NAME : string := "__internal__decrypt__".
Definition KW_SEARCH_UDF_NAME : string := "kw_search".

Definition eliminate_decrypt_in_expr (expr : Expr) : result Expr :=
  match expr with
  | EScalarFunction func args =>
      if bool_decide (func = DECRYPT_UDF_NAME) then
        match args with
        | [] => Err (PlanError "encountered decryption function with no argument")
        | a :: _ => Ok a
        end
      else Ok expr
  | _ => Ok expr
  end.

(** [Option::or]. *)
Definition option_or {A} (a b : option A) : option A :=
  match a with Some _ => a | None => b end.

(** [Expr::column_refs]: the columns named anywhere in the expression. *)
Fixpoint column_refs (expr : Expr) : list Column :=
  match expr with
  | EColumn c => [c]
  | ELiteral _ => []
  | EAlias e | ECast e _ | ETryCast e _ | ENot e
  | EIsTrue e | EIsFalse e | EIsNotTrue e | EIsNotFalse e => column_refs e
  | EBetween e _ low high => column_refs e ++ column_refs low ++ column_refs high
  | EBinary l _ r => column_refs l ++ column_refs r
  | ELike _ e p _ _ => column_refs e ++ column_refs p
  | EInList e l _ => column_refs e ++ flat_map column_refs l
  | EScalarFunction _ l | EOther _ l => flat_map column_refs l
  end.

(** ** Keyword search calls *)

Inductive SearchMode := Boolean.

Definition search_mode_try_from (value : string) : result SearchMode :=
  if bool_decide (value = "BOOLEAN") then Ok Boolean
  else Err (PlanError "Invalid KW search mode").

Record KwSearchArgs := {
  search_string : string;
  search_mode : SearchMode;
  search_columns : list Column
}.

(** [as_literal] followed by [try_as_str] and [flatten]. *)
Definition literal_str (e : Expr) : option string :=
  match e with
  | ELiteral (SUtf8 (Some s)) => Some s
  | _ => None
  end.

Definition search_column (e : Expr) : result Column :=
  let? e := eliminate_decrypt_in_expr e in
  match e with
  | EColumn c => Ok c
  | _ => Err (PlanError "KW_SEARCH first arguments must be columns")
  end.

(** All columns lie in the table of the first column that names one. *)
Definition same_table_step (acc : option (option string * string)) (elem : Column) :
    result (option (option string * string)) :=
  match acc with
  | Some table =>
      match relation elem with
      | None => Ok (Some table)
      | Some t =>
          if bool_decide (t = table) then Ok (Some table)
          else Err (PlanError "Multiple tables are not supported within a single KW_SEARCH call")
      end
  | None => Ok (relation elem)
  end.

Definition split_args (args : list Expr) : result KwSearchArgs :=
  match rev args with
  | mode :: search_string :: columns =>
      let columns := rev columns in
      if bool_decide (columns = []) then Err (PlanError "Invalid KW_SEARCH arguments")
      else
        let? search_string :=
          ok_or (literal_str search_string)
            (PlanError "KW_SEARCH second to last argument must be a pattern string") in
        let? mode :=
          ok_or (literal_str mode) (PlanError "KW_SEARCH last argument must be a mode string") in
        let? search_mode := search_mode_try_from mode in
        let? search_columns := result_mapM search_column columns in
        let? _ := result_foldl same_table_step None search_columns in
        Ok {| search_mode := search_mode; search_columns := search_columns;
              search_string := search_string |}
  | _ => Err (PlanError "Invalid KW_SEARCH arguments")
  end.

(** ** The conversion *)

Section Conversion.
(** DataFusion's [ScalarValue::cast_to]; [None] when it fails. *)
Variable cast_scalar : ScalarValue -> DataType -> option ScalarValue.

Fixpoint as_scalar_value_logical (expr : Expr) : option ScalarValue :=
  match expr with
  | ELiteral lit => Some lit
  | EAlias e => as_scalar_value_logical e
  | ECast e data_type | ETryCast e data_type =>
      match as_scalar_value_logical e with
      | Some v => cast_scalar v data_type
      | None => None
      end
  | _ => None
  end.

(** The match on [eliminate_decrypt_in_expr expr].unwrap(): [stripped] is set once
    a decryption call has been removed, since only one layer is. *)
Fixpoint as_column_from (stripped : bool) (expr : Expr) : result (option ColumnWithCast) :=
  match expr with
  | EColumn col => Ok (Some (cwc_column col))
  | EAlias e => as_column_from false e
  | ECast e data_type =>
      result_map (fmap (fun v => cwc_cast v data_type)) (as_column_from false e)
  | ETryCast e data_type =>
      result_map (fmap (fun v => cwc_try_cast v data_type)) (as_column_from false e)
  | EScalarFunction func args =>
      if negb stripped && bool_decide (func = DECRYPT_UDF_NAME) then
        match args with
        | [] => Err (Panic "called unwrap on an Err value")
        | a :: _ => as_column_from true a
        end
      else Ok None
  | _ => Ok None
  end.
Definition as_column_logical : Expr -> result (option ColumnWithCast) := as_column_from false.

(** [collect::<Option<FxHashSet<_>>>()]: the distinct values, or [None]. *)
Definition as_scalar_values (l : list Expr) : option (list ScalarValue) :=
  remove_dups <$> mapM as_scalar_value_logical l.

(** A comparison of a column with a scalar, the column on either side. *)
Definition from_comparison (expr : Expr) (left : Expr) (op : Operator) (right : Expr) :
    result (IndexableFilterExpr Expr) :=
  match equality_operator_try_from op with
  | None => Ok (Other expr)
  | Some eq_op =>
      let value_left := as_scalar_value_logical left in
      let eq_op := if bool_decide (is_Some value_left) then inverse_order eq_op else eq_op in
      match option_or value_left (as_scalar_value_logical right) with
      | None => Ok (Other expr)
      | Some value =>
          let? column_left := as_column_logical left in
          let? column_right := as_column_logical right in
          match option_or column_left column_right with
          | None => Ok (Other expr)
          | Some column => Ok (Eq column eq_op value)
          end
      end
  end.

(** [outer] is the expression before its decryption call was removed. *)
Fixpoint from_logical_expr (stripped : bool) (outer expr : Expr) :
    result (IndexableFilterExpr Expr) :=
  match expr with
  | EAlias inner => from_logical_expr false inner inner
  | ELiteral _ | EColumn _ | EOther _ _ => Ok (Other outer)
  | EBetween e _ low high =>
      let? col := as_column_logical e in
      match col with
      | None => Ok (Other expr)
      | Some col =>
          match as_scalar_value_logical low with
          | None => Ok (Other expr)
          | Some low =>
              match as_scalar_value_logical high with
              | None => Ok (Other expr)
              | Some high => Ok (Between col low high)
              end
          end
      end
  | EBinary lhs op rhs =>
      match op with
      | OperatorAnd =>
          let? l := from_logical_expr false lhs lhs in
          let? r := from_logical_expr false rhs rhs in
          Ok (And l r)
      | OperatorOr =>
          let? l := from_logical_expr false lhs lhs in
          let? r := from_logical_expr false rhs rhs in
          Ok (Or l r)
      | other => from_comparison expr lhs other rhs
      end
  | ELike _ e pattern _ _ =>
      let? column := as_column_logical e in
      match column with
      | None => Ok (Other outer)
      | Some column =>
          match as_scalar_value_logical pattern with
          | Some (SUtf8 (Some pattern)) => Ok (KwSearchLike column pattern)
          | _ => Ok (Other outer)
          end
      end
  | EInList e list _ =>
      let? column := as_column_logical e in
      match column with
      | None => Ok (Other outer)
      | Some column =>
          match as_scalar_values list with
          | None => Ok (Other outer)
          | Some values => Ok (InList (CColumn column) values)
          end
      end
  | EScalarFunction func args =>
      if negb stripped && bool_decide (func = DECRYPT_UDF_NAME) then
        match args with
        | [] => Err (Panic "called unwrap on an Err value")
        | a :: _ => from_logical_expr true outer a
        end
      else if bool_decide (func = KW_SEARCH_UDF_NAME) then
        match split_args args with
        | Ok a =>
            match search_mode a with
            | Boolean => Ok (KwMatch (search_columns a) (search_string a))
            end
        | Err _ => Ok (Other outer)
        end
      else Ok (Other expr)
  | ENot e | EIsFalse e | EIsNotTrue e =>
      let? f := from_logical_expr false e e in Ok (Not f)
  | EIsTrue e | EIsNotFalse e => from_logical_expr false e e
  | ECast inner _ | ETryCast inner _ => from_logical_expr false inner inner
  end.

Definition from_logical (expr : Expr) : result (IndexableFilterExpr Expr) :=
  from_logical_expr false expr expr.
End Conversion.

(** ** Meaning of an expression on a row *)

(** The row's values, the parts of DataFusion's evaluation the conversion leaves
    to it, and the comparison of two scalars ([None] when one is NULL). *)
Class ExprSem (row : Type) := {
  cast_scalar : ScalarValue -> DataType -> option ScalarValue;
  col_value : row -> Column -> ScalarValue;
  other_value : row -> Expr -> ScalarValue;
  scalar_cmp : ScalarValue -> ScalarValue -> option comparison;
  scalar_like : option Ascii.ascii -> bool -> ScalarValue -> ScalarValue -> tv;
  kw_search : row -> list Column -> string -> tv;
  tuple_in : row -> list ColumnWithCast -> list ScalarValue -> tv
}.

(** Exchanging the operands reverses a comparison. *)
Class ExprLaws (row : Type) `{!ExprSem row} := {
  scalar_cmp_opp a b : scalar_cmp b a = CompOpp <$> scalar_cmp a b
}.

Section Meaning.
Context {row : Type} `{!ExprSem row}.

Definition as_bool (v : ScalarValue) : tv := match v with SBoolean b => b | _ => None end.

(** A failed cast is NULL here; with [CAST] the query is aborted instead. *)
Definition cast_value (v : ScalarValue) (dt : DataType) : ScalarValue :=
  default SNull (cast_scalar v dt).

(** Decryption is transparent: the row holds the plaintexts. *)
Fixpoint value (r : row) (e : Expr) : ScalarValue :=
  match e with
  | EColumn c => col_value r c
  | ELiteral v => v
  | EAlias e => value r e
  | ECast e dt | ETryCast e dt => cast_value (value r e) dt
  | EScalarFunction func (a :: _) =>
      if bool_decide (func = DECRYPT_UDF_NAME) then value r a else other_value r e
  | _ => other_value r e
  end.

Definition negate_if (negated : bool) (t : tv) : tv := if negated then knot t else t.

Definition cmp_truth (op : EqualityOperator) (a b : ScalarValue) : tv :=
  op_holds op <$> scalar_cmp a b.

Fixpoint truth (r : row) (e : Expr) : tv :=
  match e with
  | EAlias e => truth r e
  | EBinary a OperatorAnd b => kand (truth r a) (truth r b)
  | EBinary a OperatorOr b => kor (truth r a) (truth r b)
  | EBinary a op b =>
      match equality_operator_try_from op with
      | Some op => cmp_truth op (value r a) (value r b)
      | None => as_bool (other_value r e)
      end
  | EBetween e negated low high =>
      negate_if negated
        (kand (cmp_truth OpGtEq (value r e) (value r low))
              (cmp_truth OpLtEq (value r e) (value r high)))
  | ELike negated e pattern escape ci =>
      negate_if negated (scalar_like escape ci (value r e) (value r pattern))
  | EInList e list negated =>
      negate_if negated
        (foldr (fun v acc => kor (cmp_truth OpEq (value r e) (value r v)) acc) (Some false) list)
  | ENot e => knot (truth r e)
  | EIsTrue e => Some (bool_decide (truth r e = Some true))
  | EIsFalse e => Some (bool_decide (truth r e = Some false))
  | EIsNotTrue e => Some (bool_decide (truth r e <> Some true))
  | EIsNotFalse e => Some (bool_decide (truth r e <> Some false))
  | EScalarFunction func args =>
      if bool_decide (func = DECRYPT_UDF_NAME) then
        match args with a :: _ => truth r a | [] => as_bool (other_value r e) end
      else if bool_decide (func = KW_SEARCH_UDF_NAME) then
        match split_args args with
        | Ok a => kw_search r (search_columns a) (search_string a)
        | Err _ => as_bool (other_value r e)
        end
      else as_bool (other_value r e)
  | EColumn _ | ELiteral _ | ECast _ _ | ETryCast _ _ | EOther _ _ => as_bool (value r e)
  end.

(** The value a column of a filter stands for. *)
Definition cwc_value (r : row) (c : ColumnWithCast) : ScalarValue :=
  match cast_to c with
  | None => col_value r (column c)
  | Some dt => cast_value (col_value r (column c)) dt
  end.

#[export] Instance logical_sem : FilterSem Expr row := {
  sem_cmp r c v := scalar_cmp (cwc_value r c) v;
  sem_leaf r f :=
    match f with
    | KwSearchLike c pattern => scalar_like None false (cwc_value r c) (SUtf8 (Some pattern))
    | KwMatch columns search_string => kw_search r columns search_string
    | InList (CTuple cs) vs => tuple_in r cs vs
    | Other e => truth r e
    | _ => None
    end
}.
End Meaning.

(** ** Expressions whose conversion is exact *)

(** Casts between the top of an operand and its column. *)
Fixpoint casts (e : Expr) : nat :=
  match e with
  | EAlias e => casts e
  | ECast e _ | ETryCast e _ => S (casts e)
  | EScalarFunction func (a :: _) => if bool_decide (func = DECRYPT_UDF_NAME) then casts a else 0
  | _ => 0
  end.

(** No negated [BETWEEN], [IN] or [LIKE], no case-insensitive [LIKE] or [ESCAPE],
    no [IS TRUE] test or cast of a condition, no cast of a cast of a column. *)
Fixpoint plain (e : Expr) : bool :=
  match e with
  | EAlias e | ENot e => plain e
  | ELiteral _ | EColumn _ | EOther _ _ => true
  | EBetween e negated _ _ => negb negated && bool_decide (casts e <= 1)
  | EBinary a (OperatorAnd | OperatorOr) b => plain a && plain b
  | EBinary a _ b => bool_decide (casts a <= 1) && bool_decide (casts b <= 1)
  | ELike negated e _ escape ci =>
      negb negated && bool_decide (escape = None) && negb ci && bool_decide (casts e <= 1)
  | EInList e _ negated => negb negated && bool_decide (casts e <= 1)
  | EScalarFunction func args =>
      if bool_decide (func = DECRYPT_UDF_NAME) then
        match args with a :: _ => plain a | [] => true end
      else true
  | EIsTrue _ | EIsFalse _ | EIsNotTrue _ | EIsNotFalse _ | ECast _ _ | ETryCast _ _ => false
  end.

(** Every decryption call has an argument: the planner builds them with two. *)
Fixpoint decrypts_ok (e : Expr) : bool :=
  match e with
  | EColumn _ | ELiteral _ => true
  | EAlias e | ECast e _ | ETryCast e _ | ENot e
  | EIsTrue e | EIsFalse e | EIsNotTrue e | EIsNotFalse e => decrypts_ok e
  | EBetween e _ low high => decrypts_ok e && decrypts_ok low && decrypts_ok high
  | EBinary l _ r => decrypts_ok l && decrypts_ok r
  | ELike _ e p _ _ => decrypts_ok e && decrypts_ok p
  | EInList e l _ => decrypts_ok e && forallb decrypts_ok l
  | EScalarFunction func args =>
      forallb decrypts_ok args
      && negb (bool_decide (func = DECRYPT_UDF_NAME) && bool_decide (args = []))
  | EOther _ l => forallb decrypts_ok l
  end.

(** ** Lemmas *)

(** Induction on an expression that also reaches the first argument of a call. *)
Lemma Expr_chain_ind (P : Expr -> Prop) :
  (forall e,
     (forall e', match e with
                 | EAlias a | ECast a _ | ETryCast a _ | ENot a | EIsTrue a | EIsFalse a
                 | EIsNotTrue a | EIsNotFalse a => e' = a
                 | EBinary a _ b => e' = a \/ e' = b
                 | EScalarFunction _ (a :: _) => e' = a
                 | _ => False
                 end -> P e') -> P e) ->
  forall e, P e.
Proof.
  intros H. fix IH 1. intros e. apply H.
  destruct e as [| | | | | |a o b| | |f args| | | | | |]; try (intros ? ->; apply IH);
    try (intros ? []; fail).
  - intros e' [->| ->]; apply IH.
  - destruct args; [intros ? []|intros ? ->; apply IH].
Qed.

Section Exact.
Context {row : Type} `{!ExprSem row}.

Lemma scalar_value (r : row) e v : as_scalar_value_logical cast_scalar e = Some v -> value r e = v.
Proof.
  revert v. induction e; intros w; cbn; intros Hw; simplify_eq; try done; eauto.
  all: destruct (as_scalar_value_logical cast_scalar e) as [u|]; [|done].
  all: rewrite (IHe u eq_refl); unfold cast_value; by rewrite Hw.
Qed.

Lemma column_cast_free st e c :
  as_column_from st e = Ok (Some c) -> casts e = 0 -> cast_to c = None.
Proof.
  revert st c. induction e as [e IH] using Expr_chain_ind. intros st c.
  destruct e as [| | | | | | | | |f args| | | | | |]; cbn; try done.
  - intros [= <-]. done.
  - eauto.
  - destruct (bool_decide _); [|by rewrite andb_false_r].
    destruct args as [|a args]; [by case_match|]. destruct st; cbn; [done|]. by eauto.
Qed.

Lemma column_value (r : row) st e c :
  as_column_from st e = Ok (Some c) -> casts e <= 1 -> value r e = cwc_value r c.
Proof.
  revert st c. induction e as [e IH] using Expr_chain_ind. intros st c.
  destruct e as [| | |e dt|e dt| | | | |f args| | | | | |]; cbn; try done.
  - intros [= <-]. done.
  - eauto.
  - unfold result_map. intros Hc Hle. inv_ok. destruct a as [c'|]; [|done].
    simplify_eq/=. unfold cwc_value; cbn. f_equal.
    rewrite (IH e eq_refl _ _ E) by lia. unfold cwc_value.
    by rewrite (column_cast_free _ _ _ E) by lia.
  - unfold result_map. intros Hc Hle. inv_ok. destruct a as [c'|]; [|done].
    simplify_eq/=. unfold cwc_value; cbn. f_equal.
    rewrite (IH e eq_refl _ _ E) by lia. unfold cwc_value.
    by rewrite (column_cast_free _ _ _ E) by lia.
  - destruct (bool_decide _) eqn:Hf; [|by rewrite andb_false_r].
    destruct args as [|a args]; [by case_match|]. destruct st; cbn; [done|].
    rewrite ?Hf. by eauto.
Qed.

(** An operand is not both a scalar and a column. *)
Lemma scalar_not_column st e v :
  as_scalar_value_logical cast_scalar e = Some v -> as_column_from st e = Ok None.
Proof.
  revert st v. induction e; intros st w; cbn; intros Hw; simplify_eq; try done; eauto.
  all: destruct (as_scalar_value_logical cast_scalar e) as [u|]; [|done].
  all: by rewrite (IHe false u eq_refl).
Qed.

Lemma eval_column_cmp (r : row) st e c op v :
  as_column_from st e = Ok (Some c) -> casts e <= 1 ->
  eval_cmp r c op v = cmp_truth op (value r e) v.
Proof. intros Hc Hle. unfold eval_cmp, cmp_truth. cbn. by rewrite (column_value r st e c). Qed.

Lemma foldr_kor_in {A} (g : A -> tv) l : foldr (fun v acc => kor (g v) acc) (Some false) l
  = if bool_decide (Exists (fun v => g v = Some true) l) then Some true
    else if bool_decide (Exists (fun v => g v = None) l) then None else Some false.
Proof.
  induction l as [|a l IH]; [done|]. cbn [foldr]. rewrite IH.
  destruct (g a) as [[]|] eqn:Ha;
    repeat case_bool_decide; try done; exfalso;
    repeat match goal with H : Exists _ (_ :: _) |- _ => inversion H; subst; clear H end;
    try congruence; auto.
Qed.

Lemma foldr_kor_ext {A} (g : A -> tv) l l' :
  (forall a, a ∈ l <-> a ∈ l') ->
  foldr (fun v acc => kor (g v) acc) (Some false) l
  = foldr (fun v acc => kor (g v) acc) (Some false) l'.
Proof.
  intros Hl. rewrite !foldr_kor_in.
  assert (forall P : A -> Prop, Exists P l <-> Exists P l') as HE
    by (intros P; rewrite !Exists_exists; naive_solver).
  by rewrite (bool_decide_ext _ _ (HE _)), (bool_decide_ext _ _ (HE (fun v => g v = None))).
Qed.

Lemma in_list_truth (r : row) e c l vs :
  as_column_logical e = Ok (Some c) -> casts e <= 1 -> as_scalar_values cast_scalar l = Some vs ->
  eval r (InList (CColumn c) vs) = truth r (EInList e l false).
Proof.
  intros Hc Hle Hvs. unfold as_scalar_values in Hvs.
  apply fmap_Some in Hvs as (us & Hus & ->). cbn [eval truth negate_if].
  rewrite (foldr_kor_ext (eval_cmp r c OpEq) (remove_dups us) us) by (intros; apply elem_of_remove_dups).
  apply mapM_Some in Hus. induction Hus as [|a v l us Hv _ IH]; [done|]. cbn [foldr]. f_equal; [|done].
  by rewrite (eval_column_cmp r false e), (scalar_value r a v).
Qed.

Context `{!ExprLaws row}.

Lemma cmp_truth_opp op a b : cmp_truth (inverse_order op) b a = cmp_truth op a b.
Proof.
  unfold cmp_truth. rewrite (scalar_cmp_opp a b).
  destruct (scalar_cmp a b) as [c|]; [|done]. cbn. by rewrite inverse_order_holds.
Qed.

Lemma comparison_truth (r : row) e a op b f :
  (forall o, equality_operator_try_from op = Some o ->
     truth r e = cmp_truth o (value r a) (value r b)) ->
  casts a <= 1 -> casts b <= 1 ->
  from_comparison cast_scalar e a op b = Ok f -> eval r f = truth r e.
Proof.
  intros He Ha Hb. unfold from_comparison.
  destruct (equality_operator_try_from op) as [o|]; [|by intros [= <-]].
  rewrite (He o eq_refl).
  destruct (as_scalar_value_logical cast_scalar a) as [v|] eqn:Hva.
  - unfold as_column_logical. rewrite (scalar_not_column false a v Hva). cbn.
    destruct (as_column_from false b) as [[c|]|] eqn:Hc; cbn; intros Hf; inv_ok;
      [|by cbn; apply He].
    cbn [eval]. rewrite (eval_column_cmp r false b c) by done.
    by rewrite (scalar_value r a v Hva), cmp_truth_opp.
  - cbn. destruct (as_scalar_value_logical cast_scalar b) as [v|] eqn:Hvb;
      [|cbn; intros [= <-]; cbn; by apply He].
    unfold as_column_logical. rewrite (scalar_not_column false b v Hvb). cbn.
    destruct (as_column_from false a) as [[c|]|] eqn:Hc; cbn; intros Hf; inv_ok;
      [|by cbn; apply He].
    cbn [eval]. rewrite (eval_column_cmp r false a c) by done. by rewrite (scalar_value r b v Hvb).
Qed.

Lemma from_logical_exact_gen (r : row) e :
  forall st outer f, plain e = true -> truth r outer = truth r e ->
  from_logical_expr cast_scalar st outer e = Ok f -> eval r f = truth r e.
Proof.
  induction e as [e IH] using Expr_chain_ind. intros st outer f Hp Ho.
  destruct e as [c|v|e|e dt|e dt|e neg lo hi|a op b|neg e p esc ci|e l neg|fn args|e|e|e|e|e|k l];
    cbn [from_logical_expr]; try done; cbn in Hp.
  - by intros [= <-].
  - by intros [= <-].
  - intros Hf. exact (IH e eq_refl false e f Hp eq_refl Hf).
  - destruct neg; [done|]. apply bool_decide_eq_true in Hp. intros Hf. inv_ok.
    destruct a as [c|]; [|by inv_ok].
    destruct (as_scalar_value_logical cast_scalar lo) as [vlo|] eqn:Hlo; [|by inv_ok].
    destruct (as_scalar_value_logical cast_scalar hi) as [vhi|] eqn:Hhi; [|by inv_ok].
    inv_ok. cbn [eval truth negate_if]. rewrite !(eval_column_cmp r false e c) by done.
    by rewrite (scalar_value r lo vlo), (scalar_value r hi vhi).
  - destruct op; try (apply andb_prop in Hp as [Ha%bool_decide_eq_true Hb%bool_decide_eq_true];
      first [by apply comparison_truth; [intros o [= <-]| |] | by apply comparison_truth]).
    all: apply andb_prop in Hp as [Ha Hb]; intros Hf; inv_ok; cbn;
      by rewrite (IH a (or_introl eq_refl) false a a0), (IH b (or_intror eq_refl) false b a1).
  - destruct neg, esc, ci; try done. apply bool_decide_eq_true in Hp. intros Hf. inv_ok.
    destruct a as [c|]; [|by inv_ok].
    destruct (as_scalar_value_logical cast_scalar p) as [[]|] eqn:Hv; try by inv_ok.
    destruct v as [s|]; [|by inv_ok]. inv_ok.
    cbn. by rewrite (column_value r false e c), (scalar_value r p _ Hv).
  - destruct neg; [done|]. apply bool_decide_eq_true in Hp. intros Hf. inv_ok.
    destruct a as [c|]; [|by inv_ok].
    destruct (as_scalar_values cast_scalar l) as [vs|] eqn:Hv; [|by inv_ok]. inv_ok.
    by apply in_list_truth.
  - destruct (bool_decide (fn = DECRYPT_UDF_NAME)) eqn:Hd.
    + destruct st; cbn [negb andb].
      * apply bool_decide_eq_true in Hd as ->. rewrite bool_decide_false by done. by intros [= <-].
      * destruct args as [|a args]; [done|]. cbn [truth]. rewrite Hd. cbn in Ho. rewrite Hd in Ho.
        eapply IH; done.
    + rewrite andb_false_r. destruct (bool_decide (fn = KW_SEARCH_UDF_NAME)) eqn:Hk; [|by intros [= <-]].
      destruct (split_args args) as [ka|] eqn:Hs; [|by intros [= <-]].
      destruct (search_mode ka). intros [= <-]. cbn. by rewrite Hd, Hk, Hs.
  - intros Hf. inv_ok. cbn. by rewrite (IH e eq_refl false e a).
  - by intros [= <-].
Qed.
End Exact.

(** ** The conversion returns *)

Lemma as_column_total st e : decrypts_ok e = true -> exists c, as_column_from st e = Ok c.
Proof.
  revert st. induction e as [e IH] using Expr_chain_ind. intros st Hd.
  destruct e as [| |e|e dt|e dt| | | | |fn args| | | | | |]; cbn in *; eauto.
  - destruct (IH e eq_refl false Hd) as [c ->]. cbn. eauto.
  - destruct (IH e eq_refl false Hd) as [c ->]. cbn. eauto.
  - destruct (negb st && bool_decide (fn = DECRYPT_UDF_NAME)) eqn:Hs; [|eauto].
    apply andb_prop in Hs as [_ Hf]. rewrite Hf in Hd. apply andb_prop in Hd as [Hd Hn].
    destruct args as [|a args]; [done|]. cbn in Hd. apply andb_prop in Hd as [Hd _]. eauto.
Qed.

Lemma from_comparison_total cast e a op b :
  decrypts_ok a = true -> decrypts_ok b = true -> exists f, from_comparison cast e a op b = Ok f.
Proof.
  intros Ha Hb. unfold from_comparison, as_column_logical.
  destruct (equality_operator_try_from op); [|eauto].
  destruct (option_or _ _); [|eauto].
  destruct (as_column_total false a Ha) as [? ->], (as_column_total false b Hb) as [? ->]. cbn.
  destruct (option_or _ _); eauto.
Qed.

Lemma from_logical_total_gen cast e :
  forall st outer, decrypts_ok e = true -> exists f, from_logical_expr cast st outer e = Ok f.
Proof.
  induction e as [e IH] using Expr_chain_ind. intros st outer Hd.
  destruct e as [c|v|e|e dt|e dt|e neg lo hi|a op b|neg e p esc ci|e l neg|fn args|e|e|e|e|e|k l];
    cbn in *; eauto;
    repeat match goal with
    | H : _ && _ = true |- _ => apply andb_prop in H as [? ?]
    | H : decrypts_ok e = true |- context [as_column_logical e] =>
        unfold as_column_logical; destruct (as_column_total false e H) as [? ->]; cbn
    | H : decrypts_ok e = true |- context [from_logical_expr cast false e e] =>
        destruct (IH e eq_refl false e H) as [? ->]; cbn
    end; eauto; try by repeat case_match; eauto.
  - destruct op; try by apply from_comparison_total.
    all: destruct (IH a (or_introl eq_refl) false a) as [? ->]; [done|];
      destruct (IH b (or_intror eq_refl) false b) as [? ->]; [done|]; cbn; eauto.
  - destruct (negb st && bool_decide (fn = DECRYPT_UDF_NAME)) eqn:Hs; [|repeat case_match; eauto].
    apply andb_prop in Hs as [_ Hf]. rewrite Hf in *.
    destruct args as [|a args]; [done|]. cbn in *.
    match goal with H : _ && _ = true |- _ => apply andb_prop in H as [? ?] end. eauto.
Qed.

(** Converting a condition of a query to a filter tree returns (whenever
    every decryption call has its argument), and on the conditions of the plain
    fragment the tree has the SQL truth value of the condition on every row. *)
Theorem from_logical_exact {row : Type} `{!ExprSem row} `{!ExprLaws row} (e : Expr) :
  decrypts_ok e = true ->
  exists f, from_logical cast_scalar e = Ok f /\
            (plain e = true -> forall r : row, eval r f = truth r e).
Proof.
  intros Hd. destruct (from_logical_total_gen cast_scalar e false e Hd) as [f Hf].
  exists f. split; [done|]. intros Hp r. by eapply from_logical_exact_gen.
Qed.

(** Rows are pairs of integers in the columns ["a"] and ["b"]. *)
#[export] Instance demo_expr_sem : ExprSem (Z * Z) := {
  cast_scalar v _ := Some v;
  col_value r c := SInt32 (Some (if bool_decide (name c = "a") then r.1 else r.2));
  other_value _ _ := SNull;
  scalar_cmp a b :=
    match scalar_key a, scalar_key b with Some x, Some y => Some (x ?= y)%Z | _, _ => None end;
  scalar_like _ _ _ _ := None;
  kw_search _ _ _ := None;
  tuple_in _ _ vs := match vs with [] => Some false | _ => None end
}.

#[export] Instance demo_expr_laws : ExprLaws (Z * Z).
Proof.
  split. intros a b. cbn. destruct (scalar_key a) as [x|], (scalar_key b) as [y|]; try reflexivity.
  cbn. by rewrite (Z.compare_antisym x y).
Qed.

Definition demo_column (n : string) : Expr := EColumn {| relation := None; name := n |}.
Definition demo_int (z : Z) : Expr := ELiteral (SInt32 (Some z)).

Lemma from_logical_exact_witness :
  let e := EBinary (EBinary (demo_int 3) OperatorLt
                      (EScalarFunction DECRYPT_UDF_NAME [demo_column "a"; demo_int 0]))
             OperatorAnd (EInList (demo_column "b") [demo_int 1; demo_int 2; demo_int 1] false) in
  exists f, from_logical cast_scalar e = Ok f /\
            (plain e = true -> forall r : Z * Z, eval r f = truth r e).
Proof.
  intros e. apply (from_logical_exact e). vm_compute. reflexivity.
Defined.

(** The conversion ignores the negation of [NOT IN], [NOT BETWEEN] and
    [NOT LIKE]: the negated condition becomes the filter of the positive one,
    which the rows the query asks for do not satisfy. *)
Theorem negated_conditions_drop_rows :
  (forall cast e list c vs, from_logical cast (EInList e list false) = Ok (InList c vs) ->
     from_logical cast (EInList e list true) = Ok (InList c vs)) /\
  (forall cast e low high c l h, from_logical cast (EBetween e false low high) = Ok (Between c l h) ->
     from_logical cast (EBetween e true low high) = Ok (Between c l h)) /\
  (forall cast e p esc ci c s, from_logical cast (ELike false e p esc ci) = Ok (KwSearchLike c s) ->
     from_logical cast (ELike true e p esc ci) = Ok (KwSearchLike c s)) /\
  let e := EInList (demo_column "a") [demo_int 1] true in
  exists f, from_logical cast_scalar e = Ok f /\
            truth (0%Z, 0%Z) e = Some true /\ eval (0%Z, 0%Z) f = Some false.
Proof.
  split; [|split; [|split]].
  1-3: intros *; unfold from_logical; cbn; destruct (as_column_logical e) as [[col|]|]; cbn;
    try done; repeat case_match; done.
  eexists. split; [reflexivity|]. by vm_compute.
Qed.
