(* ===== verification/RangeIndex.v ===== *)
(** * Range index

    Models [backends/mysql/src/metadata/indices/range_queries.rs]. A range index
    stores, beside an encrypted column, the number of the bucket its value falls
    in ([value_to_indexable]); range filters on the column are forwarded to the
    server as filters on bucket numbers. [i64] and [u32] arithmetic is that of the
    release profile: overflow wraps, and dividing by zero panics. *)
From S2P Require Import Prelude Values Filters Sql.
From Stdlib Require Import SpecFloat Ascii.

(** ** Bucket numbers *)

Inductive ValueDistribution := Uniform (min interval : Z).

Inductive ObfuscationStrategy := NoObfuscation.

Record RangeIndexValues := {
  distribution : ValueDistribution;
  obfuscation_strategy : ObfuscationStrategy
}.

Definition distribution_value_to_indexable (d : ValueDistribution) (source_value : Z) : result Z :=
  match d with
  | Uniform min interval =>
      if (source_value <=? min)%Z then Ok 0%Z
      else
        let delta := wrap_s 64 (source_value - min) in
        if (interval =? 0)%Z then Err (Panic "attempt to divide by zero")
        else if ((delta =? - 2 ^ 63) && (interval =? -1))%Z then
          Err (Panic "attempt to divide with overflow")
        else Ok (wrap_u 32 (Z.quot delta interval))
  end.

Definition value_to_indexable (cfg : RangeIndexValues) (source_value : Z) : result Z :=
  distribution_value_to_indexable (distribution cfg) source_value.

(** The [i64] a scalar is indexed under: the first match of [for_value]. *)
Definition range_key (value : ScalarValue) : option Z :=
  match value with
  | SDecimal32 v _ _ | SInt32 v | SDate32 v | STime32Second v | STime32Millisecond v => v
  | STimestampMillisecond v _ | STimestampMicrosecond v _ | STimestampNanosecond v _
  | STime64Nanosecond v | STimestampSecond v _ | SDecimal64 v _ _ | SInt64 v | SDate64 v
  | STime64Microsecond v => v
  | SInt8 v => v
  | SInt16 v => v
  | SUInt8 v => v
  | SUInt16 v => v
  | SUInt32 v => v
  | SUInt64 v => (fun v => wrap_s 64 (Z.shiftr v 1)) <$> v
  | _ => None
  end.

(** ** The index *)

Record RangeIndex := {
  cfg : RangeIndexValues;
  index_name : string;
  indexed_column : string;
  index_column_name : string
}.

Definition range_index_new (name column : string) (distribution : ValueDistribution)
    (obfuscation_strategy : ObfuscationStrategy) : result RangeIndex :=
  let? index_column_name := string_truncate 32 ("prox_rg_" +:+ name) in
  Ok {| index_name := name; indexed_column := column;
        cfg := {| obfuscation_strategy := obfuscation_strategy; distribution := distribution |};
        index_column_name := index_column_name |}.

(** [None] when the value has no bucket; an error when computing it panics. *)
Definition for_value (ix : RangeIndex) (value : ScalarValue) : result (option Z) :=
  match range_key value with
  | None => Ok None
  | Some v => let? i := value_to_indexable (cfg ix) v in Ok (Some i)
  end.

Definition f64_014 : spec_float := f64_div (f64_of_Z 14) (f64_of_Z 100).

(** [None]: not supported. *)
Definition is_indexable_expr_supported {E} `{PrecisionOps} (ix : RangeIndex)
    (logical : IndexableFilterExpr E) (table_stats : TableStatistics) : result (option Precision) :=
  match logical with
  | Between c l r =>
      if bool_decide (name (column c) = indexed_column ix) then
        let? low := for_value ix l in
        match low with
        | None => Ok None
        | Some low =>
            let? high := for_value ix r in
            match high with
            | None => Ok None
            | Some high =>
                match column_selectivity table_stats (index_column_name ix) with
                | None => Ok (Some Absent)
                | Some selectivity =>
                    let num_values := f64_of_Z (wrap_u 32 (high - low)) in
                    let query_selectivity := f64_mul selectivity num_values in
                    let query_selectivity :=
                      if SFleb f64_014 query_selectivity
                      then f64_mul query_selectivity (f64_of_Z 2) else query_selectivity in
                    Ok (Some (with_estimated_selectivity (num_rows table_stats)
                                (f64_min query_selectivity (f64_of_Z 1))))
                end
            end
        end
      else Ok None
  | Eq c op other =>
      if bool_decide (name (column c) = indexed_column ix) then
        let? v := for_value ix other in
        match v with
        | None => Ok None
        | Some _ =>
            if bool_decide (op = OpEq) then
              match column_stats table_stats (index_column_name ix) ≫= precision_get_value with
              | None => Ok (Some Absent)
              | Some column_stat =>
                  Ok (Some (with_estimated_selectivity (num_rows table_stats)
                              (f64_div (f64_of_Z 1) (f64_of_Z column_stat))))
              end
            else Ok (Some Absent)
        end
      else Ok None
  | _ => Ok None
  end.

(** The bucket column, qualified by its table. *)
Definition index_column_expr (ix : RangeIndex) (table : string) : SqlExpr :=
  CompoundIdentifier [table; index_column_name ix].

Definition bucket_literal (ix : RangeIndex) (v : ScalarValue) : result SqlExpr :=
  let? i := for_value ix v in
  let? i := ok_or i (PlanError "invalid null value in filter") in
  Ok (Value (Number i)).

Fixpoint indexable_query_to_expr {E} (ix : RangeIndex) (table : string)
    (filter : IndexableFilterExpr E) : result SqlExpr :=
  match filter with
  | And l r =>
      let? a := indexable_query_to_expr ix table l in
      let? b := indexable_query_to_expr ix table r in
      Ok (sql_and a b)
  | Or l r =>
      let? a := indexable_query_to_expr ix table l in
      let? b := indexable_query_to_expr ix table r in
      Ok (sql_or a b)
  | Between col low high =>
      if bool_decide (name (column col) <> indexed_column ix) then
        Err (PlanError "unsupported column for blind_index")
      else
        let? low := bucket_literal ix low in
        let? high := bucket_literal ix high in
        Ok (SqlBetween (index_column_expr ix table) low high)
  | Eq col op value =>
      if bool_decide (name (column col) <> indexed_column ix) then
        Err (PlanError "unsupported column for blind_index")
      else
        let? value := bucket_literal ix value in
        Ok (BinaryOp (index_column_expr ix table) (binary_operator_from op) value)
  | _ => Err (PlanError "unsupported filter for blind_index")
  end.

(** [logical_query] and [physical_query]: comparisons are merged first. *)
Definition range_query {E} (ix : RangeIndex) (table : string) (filter : IndexableFilterExpr E) :
    result SqlExpr :=
  indexable_query_to_expr ix table (optimize_cmp filter).

(** [logical_support_options] and [physical_support_options]. Testing a node panics only
    for an index whose interval is not positive ([range_support_total]), as then does
    every insertion above the minimum; here such a node is not supported. *)
Definition range_support_options {E} `{PrecisionOps} (ix : RangeIndex) : SupportOptions E := {|
  supports_not := true;
  supports_or := true;
  is_supported f stats :=
    match is_indexable_expr_supported ix f stats with Ok r => r | Err _ => None end
|}.

(** ** Bucket column computed on insertion *)

(** An Arrow primitive array: its type and nullable values. *)
Record PrimArray := { arr_type : DataType; arr_values : list (option Z) }.

(** The [range_eval_array!] macro. *)
Definition range_eval_array (cfg : RangeIndexValues) (transform : Z -> Z) (values : list (option Z)) :
    result PrimArray :=
  let? out :=
    result_mapM (fun v => match v with
                          | Some v => let? i := value_to_indexable cfg (transform v) in Ok (Some i)
                          | None => Ok None
                          end) values in
  Ok {| arr_type := DtUInt32; arr_values := out |}.

Definition range_for_array (cfg : RangeIndexValues) (arr : PrimArray) : result PrimArray :=
  match arr_type arr with
  | DtNull => Ok {| arr_type := DtNull; arr_values := (fun _ => None) <$> arr_values arr |}
  | DtInt8 | DtInt16 | DtInt32 | DtInt64 | DtUInt8 | DtUInt16 | DtUInt32 =>
      range_eval_array cfg (fun v => v) (arr_values arr)
  | DtUInt64 => range_eval_array cfg (fun v => wrap_s 64 (Z.shiftr v 1)) (arr_values arr)
  | DtTimestamp _ _ | DtDate32 | DtDate64
  | DtTime32 (Second | Millisecond) | DtTime64 (Microsecond | Nanosecond)
  | DtDecimal32 _ _ | DtDecimal64 _ _ => range_eval_array cfg (fun v => v) (arr_values arr)
  | _ => Err (ExecError "unsupported datatype for range index")
  end.

(** Either a column of a batch or a scalar repeated over it. *)
Inductive ColumnarValue := CvArray (a : PrimArray) | CvScalar (v : ScalarValue).

(** [ScalarValue::to_array] and the type of a scalar. *)
Definition scalar_to_array (v : ScalarValue) : result PrimArray :=
  match v with
  | SNull => Ok {| arr_type := DtNull; arr_values := [None] |}
  | SDecimal32 v p s => Ok {| arr_type := DtDecimal32 p s; arr_values := [v] |}
  | SDecimal64 v p s => Ok {| arr_type := DtDecimal64 p s; arr_values := [v] |}
  | SInt8 v => Ok {| arr_type := DtInt8; arr_values := [v] |}
  | SInt16 v => Ok {| arr_type := DtInt16; arr_values := [v] |}
  | SInt32 v => Ok {| arr_type := DtInt32; arr_values := [v] |}
  | SInt64 v => Ok {| arr_type := DtInt64; arr_values := [v] |}
  | SUInt8 v => Ok {| arr_type := DtUInt8; arr_values := [v] |}
  | SUInt16 v => Ok {| arr_type := DtUInt16; arr_values := [v] |}
  | SUInt32 v => Ok {| arr_type := DtUInt32; arr_values := [v] |}
  | SUInt64 v => Ok {| arr_type := DtUInt64; arr_values := [v] |}
  | SDate32 v => Ok {| arr_type := DtDate32; arr_values := [v] |}
  | SDate64 v => Ok {| arr_type := DtDate64; arr_values := [v] |}
  | STime32Second v => Ok {| arr_type := DtTime32 Second; arr_values := [v] |}
  | STime32Millisecond v => Ok {| arr_type := DtTime32 Millisecond; arr_values := [v] |}
  | STime64Microsecond v => Ok {| arr_type := DtTime64 Microsecond; arr_values := [v] |}
  | STime64Nanosecond v => Ok {| arr_type := DtTime64 Nanosecond; arr_values := [v] |}
  | STimestampSecond v tz => Ok {| arr_type := DtTimestamp Second tz; arr_values := [v] |}
  | STimestampMillisecond v tz => Ok {| arr_type := DtTimestamp Millisecond tz; arr_values := [v] |}
  | STimestampMicrosecond v tz => Ok {| arr_type := DtTimestamp Microsecond tz; arr_values := [v] |}
  | STimestampNanosecond v tz => Ok {| arr_type := DtTimestamp Nanosecond tz; arr_values := [v] |}
  | _ => Err (ExecError "not a primitive scalar of the model")
  end.

(** [RangeIndexExpr::evaluate], from the value of its source expression. *)
Definition range_evaluate (cfg : RangeIndexValues) (parent : ColumnarValue) : result ColumnarValue :=
  match parent with
  | CvArray array => let? column := range_for_array cfg array in Ok (CvArray column)
  | CvScalar scalar =>
      let? array := scalar_to_array scalar in
      let? column := range_for_array cfg array in
      match arr_type column, arr_values column with
      | DtNull, _ => Ok (CvScalar SNull)
      | _, [v] => Ok (CvScalar (SUInt32 v))
      | _, _ => Err (ExecError "try_from_array")
      end
  end.

(** ** Parsing [range_<min>_<interval>] *)

Section Parse.
(** DataFusion's [ScalarValue::cast_to]. *)
Variable cast_scalar : ScalarValue -> DataType -> result ScalarValue.

Definition expect_int64 (v : ScalarValue) : result Z :=
  match v with
  | SInt64 (Some z) => Ok z
  | _ => Err (Panic "internal error: entered unreachable code")
  end.

Definition unescape (s : string) : string :=
  str_replace "col" ":" (str_replace "dash" "-" (str_replace "spc" " " s)).

Definition parse_int (s : string) : result Z :=
  ok_or (parse_i64 s) (PlanError "failed to parse as an integer").

(** A text cast to the column type and then to [Int64]. *)
Definition cast_to_int64 (s : string) (dt : DataType) : result Z :=
  let? v := cast_scalar (SUtf8 (Some s)) dt in
  let? v := cast_scalar v DtInt64 in
  expect_int64 v.

(** [days] and [milliseconds] (both [i32]) of an interval, in the unit of the
    column; only the two finest units can exceed an [i64]. *)
Definition interval_in_unit (dt : DataType) (days milliseconds : Z) : result Z :=
  match dt with
  | DtDate32 | DtDate64 => Ok days
  | DtTimestamp Second _ => Ok (days * 86400 + Z.quot milliseconds 1000)%Z
  | DtTimestamp Millisecond _ => Ok (days * 86400000 + milliseconds)%Z
  | DtTimestamp Microsecond _ => Ok (wrap_s 64 (days * 86400000000 + milliseconds * 1000))%Z
  | DtTimestamp Nanosecond _ => Ok (wrap_s 64 (days * 86400000000000 + milliseconds * 1000000))%Z
  | _ => Err (Panic "internal error: entered unreachable code")
  end.

Definition parse_bounds (data_type : DataType) (min interval : string) : result (Z * Z) :=
  match data_type with
  | DtInt8 | DtInt16 | DtInt32 | DtInt64 | DtUInt8 | DtUInt16 | DtUInt32 =>
      let? min := parse_int min in
      let? interval := parse_int interval in
      Ok (min, interval)
  | DtUInt64 =>
      let? min := ok_or (parse_u64 min) (PlanError "failed to parse as an integer") in
      let? interval := parse_int interval in
      Ok (wrap_s 64 (Z.shiftr min 1), interval)
  | DtTimestamp _ _ | DtDate32 | DtDate64 =>
      let? min := cast_to_int64 (unescape min) data_type in
      let? iv := cast_scalar (SUtf8 (Some (unescape interval))) (DtInterval DayTime) in
      match iv with
      | SIntervalDayTime (Some (days, milliseconds)) =>
          let? interval := interval_in_unit data_type days milliseconds in
          Ok (min, interval)
      | _ => Err (Panic "internal error: entered unreachable code")
      end
  | DtTime32 tu | DtTime64 tu =>
      let? min := cast_to_int64 (unescape min) data_type in
      let? interval := cast_to_int64 (str_replace "spc" " " interval) (DtDuration tu) in
      Ok (min, interval)
  | DtDecimal32 _ _ | DtDecimal64 _ _ =>
      let? min := cast_to_int64 (str_replace "dot" "." min) data_type in
      let? interval := cast_to_int64 (str_replace "dot" "." interval) data_type in
      Ok (min, interval)
  | _ => Err (PlanError "unsupported datatype for range index")
  end.

Definition distribution_parse (data_type : DataType) (source : string) : result ValueDistribution :=
  match split_once "_"%char source with
  | None => Err (Panic "called `Result::unwrap()` on an `Err` value")
  | Some (min, interval) =>
      let? (min, interval) := parse_bounds data_type min interval in
      Ok (Uniform min interval)
  end.
End Parse.

(** ** Buckets *)

(** The bucket of a value, in unbounded arithmetic. *)
Definition bucket (min interval z : Z) : Z := if (z <=? min)%Z then 0%Z else ((z - min) / interval)%Z.

(** The values whose bucket is computed without wrapping. *)
Definition in_domain (min interval z : Z) : Prop :=
  (z <= min \/ (z - min < 2 ^ 63 /\ (z - min) / interval < 2 ^ 32))%Z.

Lemma bucket_mono min interval x y :
  (0 < interval)%Z -> (x <= y)%Z -> (bucket min interval x <= bucket min interval y)%Z.
Proof.
  intros Hi Hxy. unfold bucket.
  destruct (Z.leb_spec x min), (Z.leb_spec y min); try lia.
  - apply Z.div_pos; lia.
  - apply Z.div_le_mono; lia.
Qed.

Lemma value_to_indexable_bucket min interval z :
  (0 < interval)%Z -> in_domain min interval z ->
  distribution_value_to_indexable (Uniform min interval) z = Ok (bucket min interval z).
Proof.
  intros Hi Hd. unfold distribution_value_to_indexable, bucket.
  destruct (Z.leb_spec z min) as [|Hgt]; [done|].
  destruct Hd as [?|[Hov Hb]]; [lia|].
  rewrite wrap_s_id by (unfold fits_s; lia).
  destruct (Z.eqb_spec interval 0); [lia|].
  destruct (Z.eqb_spec interval (-1)); [lia|]. rewrite andb_false_r.
  rewrite Z.quot_div_nonneg by lia. f_equal. apply wrap_u_id.
  split; [apply Z.div_pos; lia|done].
Qed.

Lemma value_to_indexable_total min interval z :
  (0 < interval)%Z ->
  exists i, distribution_value_to_indexable (Uniform min interval) z = Ok i /\ fits_u 32 i.
Proof.
  intros Hi. unfold distribution_value_to_indexable.
  destruct (Z.leb_spec z min); [exists 0%Z; split; [done|unfold fits_u; lia]|].
  destruct (Z.eqb_spec interval 0); [lia|].
  destruct (Z.eqb_spec interval (-1)); [lia|]. rewrite andb_false_r.
  eexists; split; [done|]. by apply wrap_u_fits.
Qed.

(** ** Soundness of the forwarded filter *)

(** The conversion to [i64] of a value of the column type. *)
Definition conv (dt : DataType) (z : Z) : Z :=
  match dt with DtUInt64 => wrap_s 64 (Z.shiftr z 1) | _ => z end.

Definition fits_dt (dt : DataType) (z : Z) : Prop :=
  match dt with DtUInt64 => fits_u 64 z | _ => True end.

Lemma shiftr_1_mono x y : (x <= y)%Z -> (Z.shiftr x 1 <= Z.shiftr y 1)%Z.
Proof. intros. rewrite !Z.shiftr_div_pow2 by lia. by apply Z.div_le_mono. Qed.

Lemma conv_mono dt x y :
  fits_dt dt x -> fits_dt dt y -> (x <= y)%Z -> (conv dt x <= conv dt y)%Z.
Proof.
  destruct dt; simpl; try done. intros Hx Hy Hxy.
  assert (forall z, fits_u 64 z -> wrap_s 64 (Z.shiftr z 1) = Z.shiftr z 1) as Hid.
  { intros z Hz. apply wrap_s_id; [done|]. unfold fits_s, fits_u in *.
    rewrite Z.shiftr_div_pow2 by lia. split.
    - transitivity 0%Z; [lia|]. apply Z.div_pos; lia.
    - apply Z.div_lt_upper_bound; lia. }
  rewrite !Hid by done. by apply shiftr_1_mono.
Qed.

(** The Arrow type of a scalar that has buckets. *)
Definition scalar_type (v : ScalarValue) : option DataType :=
  match scalar_to_array v with Ok a => Some (arr_type a) | Err _ => None end.

Lemma range_key_conv v dt k :
  scalar_type v = Some dt -> range_key v = Some k ->
  exists z, scalar_key v = Some z /\ k = conv dt z.
Proof.
  unfold scalar_type. destruct v; simpl; intros; simplify_eq; simpl; eauto.
  destruct v; naive_solver.
Qed.

(** Every scalar of a filter satisfies [P]. *)
Fixpoint scalars_ok {E} (P : ScalarValue -> Prop) (f : IndexableFilterExpr E) : Prop :=
  match f with
  | And a b | Or a b => scalars_ok P a /\ scalars_ok P b
  | Not a => scalars_ok P a
  | Eq _ _ v => P v
  | Between _ low high => P low /\ P high
  | _ => True
  end.

(** The filters whose translation keeps every row: no strict comparison, no
    negation. *)
Fixpoint range_safe {E} (f : IndexableFilterExpr E) : bool :=
  match f with
  | And a b | Or a b => range_safe a && range_safe b
  | Between _ _ _ => true
  | Eq _ op _ => match op with OpLt | OpGt => false | _ => true end
  | _ => false
  end.

Section Soundness.
Context {E row : Type} `{!FilterSem E row}.
Variables (ix : RangeIndex) (table : string) (min interval : Z) (dt : DataType).
Hypothesis cfg_uniform : distribution (cfg ix) = Uniform min interval.
Hypothesis interval_pos : (0 < interval)%Z.

(** A scalar of the column type, in the range of the index. *)
Definition bound_ok (v : ScalarValue) : Prop :=
  scalar_type v = Some dt /\
  forall z, scalar_key v = Some z -> fits_dt dt z /\ in_domain min interval (conv dt z).

(** The row holds [x] in the indexed column and the server its bucket. *)
Record row_indexed (r : row) (srv : ServerRow) (x : Z) : Prop := {
  ri_holds : forall c, name (column c) = indexed_column ix -> column_holds r c x;
  ri_fits : fits_dt dt x;
  ri_domain : in_domain min interval (conv dt x);
  ri_stored : exists i, value_to_indexable (cfg ix) (conv dt x) = Ok i /\
                        srv (index_column_name ix) = Some (CNum i)
}.

Lemma vti_bucket z :
  in_domain min interval z -> value_to_indexable (cfg ix) z = Ok (bucket min interval z).
Proof.
  intros. unfold value_to_indexable. rewrite cfg_uniform. by apply value_to_indexable_bucket.
Qed.

Lemma stored_bucket r srv x :
  row_indexed r srv x -> srv (index_column_name ix) = Some (CNum (bucket min interval (conv dt x))).
Proof.
  intros [_ _ Hd (i & Hi & Hs)]. rewrite vti_bucket in Hi by done. by simplify_eq.
Qed.

Lemma bucket_literal_inv v e :
  bound_ok v -> bucket_literal ix v = Ok e ->
  exists z, scalar_key v = Some z /\ fits_dt dt z /\
            e = Value (Number (bucket min interval (conv dt z))).
Proof.
  intros [Ht Hz] He. unfold bucket_literal, for_value in He.
  destruct (range_key v) as [k|] eqn:Hk; [|simpl in He; discriminate].
  destruct (range_key_conv v dt k Ht Hk) as (z & Hkey & ->).
  destruct (Hz z Hkey) as [Hf Hd]. rewrite (vti_bucket _ Hd) in He. simpl in He.
  simplify_eq. eauto.
Qed.

Lemma eval_sql_bucket_cmp r srv x op z :
  row_indexed r srv x -> fits_dt dt z ->
  (match op with OpLt | OpGt => false | _ => true end) = true ->
  op_holds op (x ?= z)%Z = true ->
  op_holds op (bucket min interval (conv dt x) ?= bucket min interval (conv dt z))%Z = true.
Proof.
  intros Hr Hz Hop Hh. pose proof (ri_fits _ _ _ Hr) as Hx.
  assert (forall a b, fits_dt dt a -> fits_dt dt b -> (a <= b)%Z ->
            (bucket min interval (conv dt a) <= bucket min interval (conv dt b))%Z) as Hm
    by (intros; apply bucket_mono; [done|by apply conv_mono]).
  destruct (Z.compare_spec x z) as [->| |].
  - destruct op; simpl in *; try done; by rewrite Z.compare_refl.
  - specialize (Hm x z Hx Hz ltac:(lia)). destruct op; try done;
      destruct (Z.compare_spec (bucket min interval (conv dt x)) (bucket min interval (conv dt z)));
      try done; lia.
  - specialize (Hm z x Hz Hx ltac:(lia)). destruct op; try done;
      destruct (Z.compare_spec (bucket min interval (conv dt x)) (bucket min interval (conv dt z)));
      try done; lia.
Qed.

Lemma eval_cmp_key (r : row) srv x c op v z :
  row_indexed r srv x -> name (column c) = indexed_column ix -> scalar_key v = Some z ->
  eval_cmp r c op v = Some true -> op_holds op (x ?= z)%Z = true.
Proof.
  intros Hr Hc Hv. rewrite (eval_cmp_holds r c x op v z (ri_holds _ _ _ Hr c Hc) Hv). congruence.
Qed.

Lemma query_to_expr_superset (r : row) srv x (f : IndexableFilterExpr E) sql :
  row_indexed r srv x -> scalars_ok bound_ok f -> range_safe f = true ->
  indexable_query_to_expr ix table f = Ok sql -> eval r f = Some true -> eval_sql srv sql = Some true.
Proof.
  intros Hr. pose proof (stored_bucket r srv x Hr) as Hstored. revert sql.
  induction f as [a IHa b IHb|a IHa b IHb|a IHa|c op v|c lo hi| | | |]; intros sql Hok Hsafe He Hev;
    try done; cbn [indexable_query_to_expr] in He; cbn [eval] in Hev; cbn [scalars_ok] in Hok.
  - apply andb_prop in Hsafe as [Hsa Hsb]. destruct Hok as [Hoka Hokb]. inv_ok.
    apply kand_true_iff in Hev as [Ha Hb]. cbn. rewrite kand_true_iff. eauto.
  - apply andb_prop in Hsafe as [Hsa Hsb]. destruct Hok as [Hoka Hokb]. inv_ok.
    cbn. rewrite kor_true_iff. apply kor_true_iff in Hev as []; eauto.
  - case_bool_decide as Hc; [discriminate|]. inv_ok.
    destruct (bucket_literal_inv _ _ Hok E0) as (z & Hz & Hf & ->).
    change (BinaryOp ?a ?o ?b) with (binop a b o).
    rewrite (eval_sql_cmp srv (index_column_expr ix table) op _
               (bucket min interval (conv dt x) ?= bucket min interval (conv dt z))%Z)
      by (cbn; by rewrite Hstored).
    f_equal. eapply eval_sql_bucket_cmp; eauto using eval_cmp_key.
  - case_bool_decide as Hc; [discriminate|]. inv_ok.
    destruct Hok as [Hol Hoh].
    destruct (bucket_literal_inv _ _ Hol E0) as (zl & Hzl & Hfl & ->).
    destruct (bucket_literal_inv _ _ Hoh E1) as (zh & Hzh & Hfh & ->).
    apply kand_true_iff in Hev as [Hl Hh].
    cbn -[op_holds]. rewrite Hstored. cbn -[op_holds].
    rewrite (eval_sql_bucket_cmp r srv x OpGtEq zl), (eval_sql_bucket_cmp r srv x OpLtEq zh);
      eauto using eval_cmp_key.
Qed.
End Soundness.

(** with a positive interval the bucket of any [i64] is computed without a
    panic and fits a [u32]; on the values whose bucket number fits, it is the
    exact quotient and grows with the value. *)
Theorem bucket_sound min interval x y :
  (0 < interval)%Z ->
  (exists i, distribution_value_to_indexable (Uniform min interval) x = Ok i /\ fits_u 32 i) /\
  (in_domain min interval x -> in_domain min interval y -> (x <= y)%Z ->
   exists i j, distribution_value_to_indexable (Uniform min interval) x = Ok i /\
               distribution_value_to_indexable (Uniform min interval) y = Ok j /\
               (i <= j)%Z /\ i = bucket min interval x).
Proof.
  intros Hi. split; [by apply value_to_indexable_total|]. intros Hx Hy Hxy.
  exists (bucket min interval x), (bucket min interval y).
  rewrite !value_to_indexable_bucket by done. eauto using bucket_mono.
Qed.

Lemma bucket_sound_witness :
  exists i j, distribution_value_to_indexable (Uniform 0 10) 25 = Ok i /\
              distribution_value_to_indexable (Uniform 0 10) 31 = Ok j /\
              (i <= j)%Z /\ i = bucket 0 10 25.
Proof.
  apply (bucket_sound 0 10 25 31); [lia| | |lia]; right; vm_compute; auto.
Defined.

(** a range filter forwarded to the server keeps every matching row: a row
    that satisfies the filter satisfies the filter on bucket numbers, whenever
    the merged filter uses no strict comparison and no negation, its bounds have
    the column's type, and the values are in the index's range. *)
Theorem range_query_superset {E row} `{!FilterSem E row} (ix : RangeIndex) table min interval dt
    (r : row) srv x (f : IndexableFilterExpr E) sql :
  distribution (cfg ix) = Uniform min interval -> (0 < interval)%Z ->
  row_indexed ix min interval dt r srv x ->
  scalars_ok (bound_ok min interval dt) (optimize_cmp f) -> range_safe (optimize_cmp f) = true ->
  range_query ix table f = Ok sql -> eval r f = Some true -> eval_sql srv sql = Some true.
Proof.
  intros Hcfg Hi Hr Hok Hsafe Hq Hev. unfold range_query in Hq.
  eapply (query_to_expr_superset ix table min interval dt Hcfg Hi); eauto.
  by apply optimize_cmp_sound.
Qed.

(** An index on column ["a"] with buckets of 10, and a row holding 25. *)
Definition demo_range : RangeIndex := {|
  cfg := {| distribution := Uniform 0 10; obfuscation_strategy := NoObfuscation |};
  index_name := "i"; indexed_column := "a"; index_column_name := "prox_rg_i"
|}.
Definition demo_server (bucket : Z) : ServerRow :=
  fun c => if bool_decide (c = "prox_rg_i") then Some (CNum bucket) else None.

Lemma demo_holds c (r : Z * Z) :
  name (column c) = "a" -> column_holds r c r.1.
Proof. intros Hc v z Hv. cbn. rewrite Hc, Hv. reflexivity. Defined.

Lemma demo_bound z :
  in_domain 0 10 z -> bound_ok 0 10 DtInt32 (SInt32 (Some z)).
Proof. intros H. split; [reflexivity|]. intros z' [= <-]. split; [exact I|exact H]. Defined.

Lemma range_query_superset_witness :
  exists sql,
    range_query (E := unit) demo_range "t" (And (on_a OpGt 21) (on_a OpLt 39)) = Ok sql /\
    eval_sql (demo_server 2) sql = Some true.
Proof.
  eexists. split; [vm_compute; reflexivity|].
  apply (range_query_superset (E := unit) demo_range "t" 0 10 DtInt32 (25%Z, 0%Z) (demo_server 2) 25
           (And (on_a OpGt 21) (on_a OpLt 39))); try reflexivity.
  - split; [intros c Hc; exact (demo_holds c (25%Z, 0%Z) Hc)|exact I| |].
    + right. vm_compute. auto.
    + exists 2%Z. split; vm_compute; reflexivity.
  - split; apply demo_bound; right; vm_compute; auto.
Defined.

(** a strict comparison is forwarded as a strict comparison of buckets,
    which drops matching rows: 5 satisfies [a < 9] and lies in bucket 0, the
    forwarded filter asks for a bucket below 0. *)
Theorem range_strict_drops_rows :
  let f := on_a OpLt 9 : IndexableFilterExpr unit in
  exists sql,
    range_query demo_range "t" f = Ok sql /\
    value_to_indexable (cfg demo_range) 5 = Ok 0%Z /\
    eval (5%Z, 0%Z) f = Some true /\ eval_sql (demo_server 0) sql = Some false.
Proof. eexists. by vm_compute. Qed.

(** the index declares that it supports NOT, but querying it with a negated
    filter is an error, although the filter passed to [logical_query] is the
    supported part of a split. *)
Theorem range_negation_rejected :
  let f := Not (on_a OpLtEq 9) : IndexableFilterExpr unit in
  supp_of (split_into_supported_unsupported (range_support_options demo_range) demo_stats f) = Some f /\
  range_query demo_range "t" f = Err (PlanError "unsupported filter for blind_index").
Proof. by vm_compute. Qed.

(** beyond 2^32 buckets the number wraps, so a larger value can get a
    smaller bucket and a forwarded range filter can drop it. *)
Theorem range_bucket_wraps :
  let big := (2 ^ 33)%Z in
  let f := Eq (demo_col "a") OpGtEq (SInt64 (Some 100%Z)) : IndexableFilterExpr unit in
  let ix := {| cfg := {| distribution := Uniform 0 1; obfuscation_strategy := NoObfuscation |};
               index_name := "i"; indexed_column := "a"; index_column_name := "prox_rg_i" |} in
  value_to_indexable (cfg ix) big = Ok 0%Z /\
  exists sql, range_query ix "t" f = Ok sql /\
    eval (big, 0%Z) f = Some true /\ eval_sql (demo_server 0) sql = Some false.
Proof. split; [by vm_compute|]. eexists. by vm_compute. Qed.

(** the bucket stored when a value is inserted is the bucket looked up when
    the same value is queried, for every type the index accepts. *)
Theorem range_insert_query_agree (ix : RangeIndex) v arr out :
  scalar_to_array v = Ok arr -> v <> SNull -> range_for_array (cfg ix) arr = Ok out ->
  exists o, arr_values out = [o] /\ for_value ix v = Ok o.
Proof.
  intros Ha Hn Ho. unfold for_value.
  destruct v as [| | | | |v ? ?|v ? ?| | |v|v|v|v|v|v|v|v| | |v|v|v|v|v|v|v ?|v ?|v ?|v ?| |];
    cbn in Ha; simplify_eq; try done; cbn in Ho;
    unfold range_eval_array in Ho; cbn in Ho; destruct v; cbn in *; inv_ok; cbn in *; inv_ok;
    eauto.
Qed.

Lemma range_insert_query_agree_witness :
  exists o, arr_values {| arr_type := DtUInt32; arr_values := [Some 4%Z] |} = [o] /\
            for_value demo_range (SUInt64 (Some 90%Z)) = Ok o.
Proof.
  apply (range_insert_query_agree demo_range (SUInt64 (Some 90%Z))
           {| arr_type := DtUInt64; arr_values := [Some 90%Z] |}); try reflexivity.
  discriminate.
Defined.

(** Testing a node does not panic when the interval is positive. *)
Lemma range_support_total {E} `{PrecisionOps} ix (filter : IndexableFilterExpr E) stats min interval :
  distribution (cfg ix) = Uniform min interval -> (0 < interval)%Z ->
  exists r, is_indexable_expr_supported ix filter stats = Ok r.
Proof.
  intros Hd Hi. assert (forall v, exists o, for_value ix v = Ok o) as Hv.
  { intros v. unfold for_value, value_to_indexable. rewrite Hd. destruct (range_key v) as [z|]; [|by eexists].
    destruct (value_to_indexable_total min interval z Hi) as (i & -> & _). by eexists. }
  destruct filter as [| | |c op v|c l r| | | |]; cbn; try (by eexists); (case_bool_decide; [|by eexists]).
  2: (destruct (Hv l) as [[l'|] ->]; cbn; [|by eexists]; destruct (Hv r) as [[r'|] ->]; cbn; [|by eexists];
            destruct (column_selectivity _ _); by eexists).
  destruct (Hv v) as [[v'|] ->]; cbn; [|by eexists]. case_bool_decide; [|by eexists]. destruct (column_stats _ _ ≫= _); by eexists.
Qed.

(** the integer parameters of a range index are parsed as written, and the
    index is accepted for an interval of zero, which makes every insertion of a
    value above the minimum panic. *)
Theorem range_zero_interval_panics cast_scalar :
  distribution_parse cast_scalar DtInt32 "5_0" = Ok (Uniform 5 0) /\
  distribution_parse cast_scalar DtInt32 "-5_10" = Ok (Uniform (-5) 10) /\
  distribution_parse cast_scalar DtUInt64 "9_10" = Ok (Uniform 4 10) /\
  (forall z, (5 < z)%Z ->
     distribution_value_to_indexable (Uniform 5 0) z = Err (Panic "attempt to divide by zero")).
Proof.
  repeat split; try by vm_compute. intros z Hz. cbn.
  by destruct (Z.leb_spec z 5); [lia|].
Qed.
