(* ===== verification/Crypto.v ===== *)
(** * Ciphers, keys and identifiers

    Models [crypto/src/cipher/aws_lc.rs], [crypto/src/identifiers.rs],
    [crypto/src/key_management/context.rs] and the key derivation of
    [crypto/src/key_management/hmac_sha256.rs]. The AEAD and HKDF primitives are
    third-party code: they are the classes [Aead] and [Hkdf], whose laws
    ([AeadLaws], [HkdfLaws]) state their documented behaviour. [Codec] is the
    interface of the [bincode] serialisation used for index pages. *)
From S2P Require Import Prelude Values Sql.
From stdpp Require Import pretty.

(** ** Primitives *)

(** [aws_lc_rs::aead]. [open_in_place] returns the plaintext and what is left
    behind it in the buffer. *)
Class Aead := {
  seal_in_place_append_tag : bytes -> bytes -> bytes -> bytes -> option bytes;
  open_in_place : bytes -> bytes -> bytes -> bytes -> option (bytes * bytes)
}.

(** Sealing succeeds, and opening with the same key, nonce and associated data
    gives the plaintext back. *)
Class AeadLaws `{Aead} := {
  seal_total key nonce aad p : exists c, seal_in_place_append_tag key nonce aad p = Some c;
  open_seal key nonce aad p c :
    seal_in_place_append_tag key nonce aad p = Some c ->
    exists t, open_in_place key nonce aad c = Some (p, t)
}.

(** HKDF-SHA256: salt, input key, info and output length; an output of more than
    255 blocks is an error, which the code unwraps. *)
Class Hkdf := { hkdf_expand : bytes -> bytes -> bytes -> nat -> bytes }.

Class HkdfLaws `{Hkdf} := {
  hkdf_length salt ikm info n : length (hkdf_expand salt ikm info n) = n
}.

(** A serialisation whose decoder ignores what follows the value. *)
Class Codec (A : Type) := {
  codec_encode : A -> bytes;
  codec_decode : bytes -> option A;
  codec_roundtrip a rest : codec_decode (codec_encode a ++ rest) = Some a
}.

(** ** AwsLcCipher *)

Definition NONCE_LEN : nat := 12.

Section Cipher.
Context `{Aead}.

Definition decrypt_with_nonce_to_slice (key output ciphertext_with_nonce aad : bytes) :
    result (bytes * nat) :=
  if bool_decide (length ciphertext_with_nonce < NONCE_LEN) then Err CipherError
  else
    let n := length ciphertext_with_nonce - NONCE_LEN in
    let ciphertext := take n ciphertext_with_nonce in
    let nonce := drop n ciphertext_with_nonce in
    match open_in_place key nonce aad ciphertext with
    | None => Err CipherError
    | Some (plain, _) =>
        if bool_decide (length output < length plain) then Err (Panic "range end index out of range")
        else Ok (plain ++ drop (length plain) output, length plain)
    end.

(** The decrypted buffer keeps its length: the plaintext comes first. *)
Definition decrypt_with_nonce_detached (key ciphertext nonce aad : bytes) : result bytes :=
  if bool_decide (length nonce <> NONCE_LEN) then Err (Panic "nonce size")
  else match open_in_place key nonce aad ciphertext with
       | None => Err CipherError
       | Some (plain, rest) => Ok (plain ++ rest)
       end.

(** [random] is the nonce drawn from the system generator. *)
Definition encrypt_with_random_nonce (key plaintext aad random : bytes) : result bytes :=
  match seal_in_place_append_tag key random aad plaintext with
  | None => Err CipherError
  | Some buffer => Ok (buffer ++ random)
  end.

Definition encrypt_with_fixed_nonce (key plaintext nonce aad : bytes) : result bytes :=
  if bool_decide (length nonce <> NONCE_LEN) then Err (Panic "nonce size mismatch")
  else match seal_in_place_append_tag key nonce aad plaintext with
       | None => Err CipherError
       | Some c => Ok c
       end.

(** Sealed with a fixed nonce: the ciphertext, in a total form for statements. *)
Definition sealed (key plaintext nonce aad : bytes) : bytes :=
  default [] (seal_in_place_append_tag key nonce aad plaintext).

Context `{!AeadLaws}.

Lemma encrypt_fixed_ok key p nonce aad :
  length nonce = NONCE_LEN ->
  encrypt_with_fixed_nonce key p nonce aad = Ok (sealed key p nonce aad).
Proof.
  intros Hn. unfold encrypt_with_fixed_nonce, sealed.
  destruct (seal_total key nonce aad p) as [c ->]. by rewrite Hn.
Qed.

Lemma decrypt_sealed {A} `{!Codec A} key (a : A) nonce aad :
  length nonce = NONCE_LEN ->
  exists buf, decrypt_with_nonce_detached key (sealed key (codec_encode a) nonce aad) nonce aad = Ok buf
              /\ codec_decode buf = Some a.
Proof.
  intros Hn. unfold decrypt_with_nonce_detached, sealed.
  destruct (seal_total key nonce aad (codec_encode a)) as [c Hc]. rewrite Hc. simpl.
  destruct (open_seal _ _ _ _ _ Hc) as [t ->]. rewrite Hn. simpl.
  eauto using codec_roundtrip.
Qed.
End Cipher.

(** ** Stable identifiers *)

(** [div_ceil]. *)
Definition div_ceil_8 (n : nat) : nat := (n + 7) / 8.

Definition hex_digit (n : Z) : Ascii.ascii :=
  Ascii.ascii_of_nat (Z.to_nat (if (n <? 10)%Z then 48 + n else 87 + n)%Z).

(** [hex::encode]: two lower-case digits per byte. *)
Fixpoint hex_encode (bs : bytes) : string :=
  match bs with
  | [] => EmptyString
  | b :: bs =>
      let z := byte.unsigned b in
      String (hex_digit (Z.shiftr z 4)) (String (hex_digit (Z.land z 15)) (hex_encode bs))
  end.

Section Identifiers.
(** [get_opaque_stable_identifier_in]: fills a buffer of the given length. *)
Variable identifier_in : bytes -> nat -> bytes.

Definition get_opaque_stable_identifier (data : bytes) (length_bits : nat) : bytes :=
  let output := identifier_in data (div_ceil_8 length_bits) in
  let last_byte_bits := length_bits mod 8 in
  if bool_decide (0 < last_byte_bits) then
    match output with
    | [] => output
    | b :: rest => byte.of_Z (Z.shiftr (byte.unsigned b) (8 - Z.of_nat last_byte_bits)) :: rest
    end
  else output.

Definition get_opaque_stable_identifier_hex (data : bytes) (length_bits : nat) : string :=
  hex_encode (get_opaque_stable_identifier data length_bits).
End Identifiers.

(** ** Contexts and keys *)

(** [ResolvedTableReference] and its [Display]. *)
Record TableRef := { catalog : string; schema : string; table : string }.

#[export] Instance TableRef_eq_dec : EqDecision TableRef.
Proof. solve_decision. Defined.

Definition table_ref_to_string (t : TableRef) : string :=
  catalog t +:+ "." +:+ schema t +:+ "." +:+ table t.

Inductive IdentifierContext :=
  | RowIdColumnCtx (table_context : TableRef)
  | NamedIndexInTable (table_context : TableRef) (index_name : string)
  | NamedVersionedIndexInTable (table_context : TableRef) (index_name : string) (version_number : Z).

Inductive CipherContext :=
  | TableColumn (table_context : TableRef) (column_name : string)
  | VersionedIndexEntry (table_context : TableRef) (index_name : string) (version_number : option Z).

Definition identifier_context_to_string (c : IdentifierContext) : string :=
  match c with
  | NamedIndexInTable t index_name =>
      "named_index(" +:+ table_ref_to_string t +:+ "," +:+ index_name +:+ ")"
  | RowIdColumnCtx t => "row_id(" +:+ table_ref_to_string t +:+ ")"
  | NamedVersionedIndexInTable t index_name version_number =>
      "versioned_index(" +:+ table_ref_to_string t +:+ "," +:+ index_name +:+ ",v"
        +:+ pretty (Z.to_N version_number) +:+ ")"
  end.

Section KeyManager.
Context `{Hkdf}.
Variable master_key : bytes.

(** Salt and info of the key of a cipher. *)
Definition cipher_inputs (context : CipherContext) : string * bytes :=
  match context with
  | TableColumn t column_name =>
      ("tbl:" +:+ table_ref_to_string t +:+ "." +:+ column_name, string_bytes column_name)
  | VersionedIndexEntry t index_name version_number =>
      ("versioned_index(" +:+ table_ref_to_string t +:+ "," +:+ index_name +:+ ")",
       to_le_bytes 8 (default 0%Z version_number))
  end.

Definition get_cipher (context : CipherContext) : bytes :=
  let '(salt, info) := cipher_inputs context in
  hkdf_expand (string_bytes salt) master_key info 32.

Definition get_identifier_generator (context : IdentifierContext) (data : bytes) (n : nat) : bytes :=
  hkdf_expand (string_bytes ("ident_generator:" +:+ identifier_context_to_string context))
    master_key data n.
End KeyManager.

(** ** A concrete instance

    An AEAD that appends sixteen zero bytes, and codecs for countable types, used
    to instantiate the interfaces in the witnesses. *)

Definition demo_tag : bytes := replicate 16 Byte.x00.

Definition demo_aead : Aead := {|
  seal_in_place_append_tag _ _ _ p := Some (p ++ demo_tag);
  open_in_place _ _ _ c :=
    if bool_decide (length c < 16) then None
    else Some (take (length c - 16) c, drop (length c - 16) c)
|}.

Lemma demo_aead_laws : @AeadLaws demo_aead.
Proof.
  split; cbn -[demo_tag].
  - eauto.
  - intros _ _ _ p c [= <-]. rewrite length_app. change (length demo_tag) with 16.
    rewrite bool_decide_false by lia.
    replace (length p + 16 - 16) with (length p) by lia.
    rewrite take_app_length. eauto.
Qed.

(** A positive number, one byte per binary digit, closed by [x02]. *)
Fixpoint pack (p : positive) : bytes :=
  match p with
  | xH => [Byte.x02]
  | xO p => Byte.x00 :: pack p
  | xI p => Byte.x01 :: pack p
  end.

Fixpoint unpack (bs : bytes) : option (positive * bytes) :=
  match bs with
  | Byte.x02 :: rest => Some (xH, rest)
  | Byte.x00 :: rest => match unpack rest with Some (p, r) => Some (xO p, r) | None => None end
  | Byte.x01 :: rest => match unpack rest with Some (p, r) => Some (xI p, r) | None => None end
  | _ => None
  end.

Lemma unpack_pack p rest : unpack (pack p ++ rest) = Some (p, rest).
Proof. induction p as [p IH|p IH|]; cbn; by rewrite ?IH. Qed.

Lemma length_pack p : length (pack p) = Pos.size_nat p.
Proof. induction p; cbn; auto. Qed.

Definition pack_value {A} `{Countable A} (a : A) : bytes := pack (encode a).
Definition unpack_value {A} `{Countable A} (bs : bytes) : option (A * bytes) :=
  match unpack bs with
  | Some (p, rest) => match decode p with Some a => Some (a, rest) | None => None end
  | None => None
  end.

Lemma unpack_pack_value {A} `{Countable A} (a : A) rest :
  unpack_value (pack_value a ++ rest) = Some (a, rest).
Proof. unfold unpack_value, pack_value. by rewrite unpack_pack, decode_encode. Qed.

Program Definition countable_codec {A} `{Countable A} : Codec A := {|
  codec_encode := pack_value;
  codec_decode bs := fst <$> unpack_value bs
|}.
Next Obligation. intros A ? ? a rest. cbn. by rewrite unpack_pack_value. Qed.

(** a value encrypted with a random nonce is decrypted in full by
    [decrypt_with_nonce_to_slice] into any buffer that is long enough, and the
    ciphertext carries its nonce as its last twelve bytes. *)
Theorem cipher_roundtrip `{Aead} `{!AeadLaws} key p aad random output :
  length random = NONCE_LEN -> length p <= length output ->
  exists c, encrypt_with_random_nonce key p aad random = Ok c /\
    drop (length c - NONCE_LEN) c = random /\
    decrypt_with_nonce_to_slice key output c aad = Ok (p ++ drop (length p) output, length p).
Proof.
  intros Hr Ho. unfold encrypt_with_random_nonce, decrypt_with_nonce_to_slice.
  destruct (seal_total key random aad p) as [c Hc]. rewrite Hc.
  destruct (open_seal _ _ _ _ _ Hc) as [t Ht].
  exists (c ++ random). rewrite length_app, Hr.
  replace (length c + NONCE_LEN - NONCE_LEN) with (length c) by lia.
  rewrite take_app_length, drop_app_length, bool_decide_false by lia.
  by rewrite Ht, bool_decide_false by lia.
Qed.

Lemma cipher_roundtrip_witness :
  exists c, @encrypt_with_random_nonce demo_aead [] [Byte.x61] [] (replicate 12 Byte.x09) = Ok c /\
    drop (length c - NONCE_LEN) c = replicate 12 Byte.x09 /\
    @decrypt_with_nonce_to_slice demo_aead [] [Byte.x00; Byte.x00] c []
    = Ok ([Byte.x61] ++ drop 1 [Byte.x00; Byte.x00], 1).
Proof.
  apply (@cipher_roundtrip demo_aead demo_aead_laws [] [Byte.x61] [] (replicate 12 Byte.x09)
    [Byte.x00; Byte.x00]); vm_compute; auto with arith.
Defined.
