(* ===== verification/KeyManagers.v ===== *)
(** * Key managers and ciphers of every back end

    Models [crypto/src/config.rs], [crypto/src/cipher/rustcrypto.rs] and the key managers of
    [crypto/src/key_management]: [aws_lc.rs], [aws_lc_compat.rs], [hmac_sha256.rs] and
    [rustcrypto.rs]. A configuration names one of four key managers and an algorithm; the
    two libraries behind them are parameters with the laws of the standards that both
    implement (RFC 5869 for the derivation of keys, RFC 5116 for the ciphers). *)
From S2P Require Import Prelude Values Sql Crypto.
From Stdlib Require Import Ascii.
From stdpp Require Import pretty.

(** ** Primitives *)

Inductive AeadAlg := ALG_AES_128_GCM | ALG_AES_256_GCM | ALG_CHACHA20_POLY1305 | ALG_CHACHA8_POLY1305.

#[export] Instance AeadAlg_eq_dec : EqDecision AeadAlg.
Proof. solve_decision. Defined.

(** [Algorithm::key_len] and [KeySizeUser]. *)
Definition key_len (alg : AeadAlg) : nat := match alg with ALG_AES_128_GCM => 16 | _ => 32 end.

Definition TAG_LEN : nat := 16.

(** HKDF-SHA256 in its two steps. *)
Class HkdfSteps := {
  hkdf_extract : option bytes -> bytes -> bytes;
  prk_expand : bytes -> bytes -> nat -> bytes
}.

(** A missing salt is the empty one, and a short output is the beginning of a long one. *)
Class HkdfStepsLaws `{HkdfSteps} := {
  extract_no_salt ikm : hkdf_extract None ikm = hkdf_extract (Some []) ikm;
  expand_length prk info n : length (prk_expand prk info n) = n;
  expand_prefix prk info n m : n <= m -> take n (prk_expand prk info m) = prk_expand prk info n
}.

(** The largest output: 255 blocks. *)
Definition HKDF_MAX : nat := 255 * 32.

Definition hkdf_fill `{HkdfSteps} (prk info : bytes) (n : nat) : result bytes :=
  if bool_decide (n <= HKDF_MAX) then Ok (prk_expand prk info n) else Err (Panic "called `Result::unwrap()` on an `Err` value").

(** [aws_lc_rs] by algorithm, and the [aead] traits of RustCrypto: [rc_encrypt] appends
    the tag, [rc_decrypt_detached] takes it on its own. *)
Class AeadLibs := {
  aws_aead :: AeadAlg -> Aead;
  rc_encrypt : AeadAlg -> bytes -> bytes -> bytes -> bytes -> option bytes;
  rc_decrypt_detached : AeadAlg -> bytes -> bytes -> bytes -> bytes -> bytes -> option bytes
}.

Class AeadLibsLaws `{AeadLibs} := {
  aws_aead_laws alg :: @AeadLaws (aws_aead alg);
  rc_encrypt_total alg key nonce aad p : exists c, rc_encrypt alg key nonce aad p = Some c;
  rc_encrypt_length alg key nonce aad p c : rc_encrypt alg key nonce aad p = Some c -> length c = length p + TAG_LEN;
  rc_decrypt_encrypt alg key nonce aad p c : rc_encrypt alg key nonce aad p = Some c ->
    rc_decrypt_detached alg key nonce aad (take (length c - TAG_LEN) c) (drop (length c - TAG_LEN) c) = Some p;
  same_ciphers alg key nonce aad p : alg <> ALG_CHACHA8_POLY1305 ->
    @seal_in_place_append_tag (aws_aead alg) key nonce aad p = rc_encrypt alg key nonce aad p
}.

(** ** The trait of ciphers *)

(** [Cipher]: [random] is the nonce that the system generator gives. *)
Record CipherOps := {
  nonce_size : nat;
  tag_size : nat;
  op_decrypt_to_slice : bytes -> bytes -> bytes -> result (bytes * nat);
  op_decrypt_detached : bytes -> bytes -> bytes -> result bytes;
  op_encrypt_random : bytes -> bytes -> bytes -> result bytes;
  op_encrypt_fixed : bytes -> bytes -> bytes -> result bytes
}.

Section Ciphers.
Context `{AeadLibs}.

(** [AwsLcCipher::new]. *)
Definition aws_cipher (alg : AeadAlg) (key : bytes) : result CipherOps :=
  if bool_decide (length key = key_len alg) then
    Ok {| nonce_size := NONCE_LEN; tag_size := TAG_LEN;
          op_decrypt_to_slice := @decrypt_with_nonce_to_slice (aws_aead alg) key;
          op_decrypt_detached := @decrypt_with_nonce_detached (aws_aead alg) key;
          op_encrypt_random := @encrypt_with_random_nonce (aws_aead alg) key;
          op_encrypt_fixed := @encrypt_with_fixed_nonce (aws_aead alg) key |}
  else Err (Panic "failed to instantiate crypto backend").

Definition rc_decrypt_to_slice (alg : AeadAlg) (key output ciphertext_with_nonce aad : bytes) : result (bytes * nat) :=
  if bool_decide (length ciphertext_with_nonce < NONCE_LEN) then Err CipherError
  else
    let n := length ciphertext_with_nonce - NONCE_LEN in
    let ciphertext := take n ciphertext_with_nonce in
    let nonce := drop n ciphertext_with_nonce in
    if bool_decide (length ciphertext < TAG_LEN) then Err (Panic "mid > len")
    else
      let msg := take (length ciphertext - TAG_LEN) ciphertext in
      let tag := drop (length ciphertext - TAG_LEN) ciphertext in
      if bool_decide (length output < length msg) then Err (Panic "range end index out of range")
      else match rc_decrypt_detached alg key nonce aad msg tag with
           | None => Err CipherError
           | Some plain => Ok (plain ++ drop (length msg) output, length msg)
           end.

(** [decrypt_in_place] cuts the tag off the buffer, and fails when there is none. *)
Definition rc_decrypt_with_nonce_detached (alg : AeadAlg) (key ciphertext nonce aad : bytes) : result bytes :=
  if bool_decide (length nonce <> NONCE_LEN) then Err (Panic "nonce size mismatch")
  else if bool_decide (length ciphertext < TAG_LEN) then Err CipherError
  else match rc_decrypt_detached alg key nonce aad (take (length ciphertext - TAG_LEN) ciphertext)
               (drop (length ciphertext - TAG_LEN) ciphertext) with
       | None => Err CipherError
       | Some plain => Ok plain
       end.

Definition rc_encrypt_with_random_nonce (alg : AeadAlg) (key plaintext aad random : bytes) : result bytes :=
  match rc_encrypt alg key random aad plaintext with
  | None => Err CipherError
  | Some encrypted => Ok (encrypted ++ random)
  end.

Definition rc_encrypt_with_fixed_nonce (alg : AeadAlg) (key plaintext nonce aad : bytes) : result bytes :=
  if bool_decide (length nonce <> NONCE_LEN) then Err (Panic "nonce size mismatch")
  else match rc_encrypt alg key nonce aad plaintext with
       | None => Err CipherError
       | Some c => Ok c
       end.

(** The blanket implementation for the ciphers of RustCrypto. *)
Definition rc_cipher (alg : AeadAlg) (key : bytes) : CipherOps := {|
  nonce_size := NONCE_LEN; tag_size := TAG_LEN;
  op_decrypt_to_slice := rc_decrypt_to_slice alg key;
  op_decrypt_detached := rc_decrypt_with_nonce_detached alg key;
  op_encrypt_random := rc_encrypt_with_random_nonce alg key;
  op_encrypt_fixed := rc_encrypt_with_fixed_nonce alg key
|}.
End Ciphers.

(** ** Key managers *)

Inductive PrincipalKeyManager :=
  | AwsLcHkdfSha256KeyManager (principal_id : Z) (algo : AeadAlg) (kdf : bytes)
  | CompatAwsLcHkdfSha256KeyManager (principal_id : Z) (master_key : bytes) (algo : AeadAlg)
  | LegacyKeyManager (C : AeadAlg) (principal_id : Z) (master_key : bytes)
  | RustCryptoHkdfSha256KeyManager (C : AeadAlg) (principal_id : Z) (kdf : bytes).

Definition get_principal_id (m : PrincipalKeyManager) : Z :=
  match m with
  | AwsLcHkdfSha256KeyManager p _ _ | CompatAwsLcHkdfSha256KeyManager p _ _
  | LegacyKeyManager _ p _ | RustCryptoHkdfSha256KeyManager _ p _ => p
  end.

Section Managers.
Context `{HkdfSteps} `{AeadLibs}.

(** The info of the key of a cipher where the key of the derivation is the principal's. *)
Definition cipher_info (context : CipherContext) : string :=
  match context with
  | TableColumn t column_name => "tbl:" +:+ table_ref_to_string t +:+ "." +:+ column_name
  | VersionedIndexEntry t index_name version_number =>
      "versioned_index:" +:+ table_ref_to_string t +:+ "." +:+ index_name +:+ ":" +:+ pretty (Z.to_N (default 0%Z version_number))
  end.

(** Where it is derived from the master key, the context is in the salt: [cipher_inputs]. *)
Definition salted_key (master_key : bytes) (context : CipherContext) (n : nat) : result bytes :=
  let '(salt, info) := cipher_inputs context in
  hkdf_fill (hkdf_extract (Some (string_bytes salt)) master_key) info n.

(** [get_cipher] of the four key managers. *)
Definition aws_get_cipher (algo : AeadAlg) (kdf : bytes) (context : CipherContext) : result CipherOps :=
  let? key := hkdf_fill kdf (string_bytes (cipher_info context)) (key_len algo) in
  aws_cipher algo key.

Definition compat_get_cipher (master_key : bytes) (algo : AeadAlg) (context : CipherContext) : result CipherOps :=
  let? key := salted_key master_key context 32 in
  aws_cipher algo (take (key_len algo) key).

Definition legacy_get_cipher (C : AeadAlg) (master_key : bytes) (context : CipherContext) : result CipherOps :=
  let? key := salted_key master_key context (key_len C) in
  Ok (rc_cipher C key).

Definition rustcrypto_get_cipher (C : AeadAlg) (kdf : bytes) (context : CipherContext) : result CipherOps :=
  let? key := hkdf_fill kdf (string_bytes (cipher_info context)) (key_len C) in
  Ok (rc_cipher C key).

Definition manager_cipher (m : PrincipalKeyManager) (context : CipherContext) : result CipherOps :=
  match m with
  | AwsLcHkdfSha256KeyManager _ algo kdf => aws_get_cipher algo kdf context
  | CompatAwsLcHkdfSha256KeyManager _ master_key algo => compat_get_cipher master_key algo context
  | LegacyKeyManager C _ master_key => legacy_get_cipher C master_key context
  | RustCryptoHkdfSha256KeyManager C _ kdf => rustcrypto_get_cipher C kdf context
  end.

(** What the generator of identifiers is derived from. *)
Definition identifier_info (m : PrincipalKeyManager) (context : IdentifierContext) : string :=
  match m with
  | AwsLcHkdfSha256KeyManager _ _ _ => identifier_context_to_string context
  | _ => "ident_generator:" +:+ identifier_context_to_string context
  end.

(** [get_identifier_generator]: the key of the generator. *)
Definition identifier_key (m : PrincipalKeyManager) (context : IdentifierContext) : bytes :=
  let info := string_bytes (identifier_info m context) in
  match m with
  | AwsLcHkdfSha256KeyManager _ _ kdf | RustCryptoHkdfSha256KeyManager _ _ kdf => prk_expand kdf info 32
  | CompatAwsLcHkdfSha256KeyManager _ master_key _ | LegacyKeyManager _ _ master_key => hkdf_extract (Some info) master_key
  end.

(** [get_opaque_stable_identifier_in] of the generator of a context. *)
Definition manager_identifier (m : PrincipalKeyManager) (context : IdentifierContext) (data : bytes) (n : nat) : result bytes :=
  hkdf_fill (identifier_key m context) data n.
End Managers.

(** ** Configuration *)

(** [hex::decode]. *)
Definition hex_value (c : Ascii.ascii) : option Z :=
  let n := Z.of_nat (Ascii.nat_of_ascii c) in
  if (48 <=? n)%Z && (n <=? 57)%Z then Some (n - 48)%Z
  else if (97 <=? n)%Z && (n <=? 102)%Z then Some (n - 87)%Z
  else if (65 <=? n)%Z && (n <=? 70)%Z then Some (n - 55)%Z
  else None.

Fixpoint hex_decode (s : string) : option bytes :=
  match s with
  | EmptyString => Some []
  | String _ EmptyString => None
  | String a (String b s) =>
      match hex_value a, hex_value b, hex_decode s with
      | Some a, Some b, Some bs => Some (byte.of_Z (16 * a + b) :: bs)
      | _, _, _ => None
      end
  end.

Inductive AwsCryptoAlg := AwsAes128Gcm | AwsAes256Gcm | AwsChaCha20Poly1305.
Inductive RustCryptoAlg := RcAes128Gcm | RcAes256Gcm | RcChaCha20Poly1305 | RcChaCha8Poly1305.

Definition get_alg (a : AwsCryptoAlg) : AeadAlg :=
  match a with
  | AwsAes128Gcm => ALG_AES_128_GCM
  | AwsAes256Gcm => ALG_AES_256_GCM
  | AwsChaCha20Poly1305 => ALG_CHACHA20_POLY1305
  end.

(** The type argument that [init_key_manager] gives to the key managers of RustCrypto. *)
Definition rust_cipher (a : RustCryptoAlg) : AeadAlg :=
  match a with
  | RcAes128Gcm => ALG_AES_128_GCM
  | RcAes256Gcm => ALG_AES_256_GCM
  | RcChaCha20Poly1305 => ALG_CHACHA20_POLY1305
  | RcChaCha8Poly1305 => ALG_CHACHA8_POLY1305
  end.

Inductive CryptoManager :=
  | LegacyAws (alg : AwsCryptoAlg)
  | Aws (alg : AwsCryptoAlg)
  | Legacy (alg : RustCryptoAlg)
  | RustCrypto (alg : RustCryptoAlg).

Record CryptoConfig := { secret_key : string; backend : CryptoManager }.

Definition default_crypto_config : CryptoConfig := {|
  secret_key := "b6fd00728958b706fde7f9d5fde9637a5feadab81688b480ae66dcc3393f1284";
  backend := LegacyAws AwsChaCha20Poly1305
|}.

(** [try_into] of an array of 32 bytes. *)
Definition key_array (decoded : bytes) : result bytes :=
  if bool_decide (length decoded = 32) then Ok decoded else Err (Panic "decoded key is not correct length").

Definition init_key_manager `{HkdfSteps} (config : CryptoConfig) : result PrincipalKeyManager :=
  let? decoded := ok_or (hex_decode (secret_key config)) (Panic "called `Result::unwrap()` on an `Err` value") in
  match backend config with
  | LegacyAws aws => let? key := key_array decoded in Ok (CompatAwsLcHkdfSha256KeyManager 0 key (get_alg aws))
  | Aws aws => Ok (AwsLcHkdfSha256KeyManager 0 (get_alg aws) (hkdf_extract (Some []) decoded))
  | Legacy rc => let? key := key_array decoded in Ok (LegacyKeyManager (rust_cipher rc) 0 key)
  | RustCrypto rc => Ok (RustCryptoHkdfSha256KeyManager (rust_cipher rc) 0 (hkdf_extract None decoded))
  end.

Lemma hex_digits b :
  hex_value (hex_digit (Z.shiftr (byte.unsigned b) 4)) = Some (Z.shiftr (byte.unsigned b) 4) /\
  hex_value (hex_digit (Z.land (byte.unsigned b) 15)) = Some (Z.land (byte.unsigned b) 15) /\
  byte.of_Z (16 * Z.shiftr (byte.unsigned b) 4 + Z.land (byte.unsigned b) 15) = b.
Proof. by destruct b. Qed.

(** A key that is written in hexadecimal is read back. *)
Lemma hex_decode_encode bs : hex_decode (hex_encode bs) = Some bs.
Proof.
  induction bs as [|b bs IH]; [done|]. destruct (hex_digits b) as (H1 & H2 & H3). cbn [hex_encode hex_decode].
  by rewrite H1, H2, IH, H3.
Qed.

(** ** One configuration for another *)

(** The managers that derive keys in the same way. *)
Definition is_legacy (b : CryptoManager) : bool := match b with LegacyAws _ | Legacy _ => true | Aws _ | RustCrypto _ => false end.

Definition backend_alg (b : CryptoManager) : AeadAlg :=
  match b with LegacyAws a | Aws a => get_alg a | Legacy r | RustCrypto r => rust_cipher r end.

Definition is_aws (b : CryptoManager) : bool := match b with LegacyAws _ | Aws _ => true | Legacy _ | RustCrypto _ => false end.

Section Interoperate.
Context `{HkdfSteps} `{!HkdfStepsLaws} `{AeadLibs} `{!AeadLibsLaws}.

(** What a cipher and another one promise each other: the second reads what the first
    wrote, with a random nonce into a buffer and with a fixed nonce in place. *)
Definition reads (c1 c2 : CipherOps) : Prop :=
  (forall p aad random output, length random = NONCE_LEN -> length p <= length output ->
     exists c, op_encrypt_random c1 p aad random = Ok c /\
       op_decrypt_to_slice c2 output c aad = Ok (p ++ drop (length p) output, length p)) /\
  (forall p aad nonce, length nonce = NONCE_LEN ->
     exists c rest, op_encrypt_fixed c1 p nonce aad = Ok c /\ op_decrypt_detached c2 c nonce aad = Ok (p ++ rest)).

(** The cipher of a library. *)
Definition library_cipher (aws : bool) (alg : AeadAlg) (key : bytes) : result CipherOps :=
  if aws then aws_cipher alg key else Ok (rc_cipher alg key).

(** Both libraries seal in the same way. *)
Lemma library_seals aws alg key : (aws = true -> alg <> ALG_CHACHA8_POLY1305) -> length key = key_len alg ->
  exists c, library_cipher aws alg key = Ok c /\
    (forall p aad random, op_encrypt_random c p aad random =
       match rc_encrypt alg key random aad p with Some e => Ok (e ++ random) | None => Err CipherError end) /\
    (forall p aad nonce, length nonce = NONCE_LEN -> op_encrypt_fixed c p nonce aad =
       match rc_encrypt alg key nonce aad p with Some e => Ok e | None => Err CipherError end).
Proof.
  intros Ha Hk. destruct aws; cbn [library_cipher].
  - unfold aws_cipher. rewrite bool_decide_true by done. eexists. split; [done|]. cbn. split.
    + intros p aad random. unfold encrypt_with_random_nonce. rewrite same_ciphers by auto. by destruct rc_encrypt.
    + intros p aad nonce Hn. unfold encrypt_with_fixed_nonce. rewrite bool_decide_false by auto. rewrite same_ciphers by auto.
      by destruct rc_encrypt.
  - eexists. split; [done|]. cbn. split; [done|]. intros p aad nonce Hn. unfold rc_encrypt_with_fixed_nonce.
    by rewrite bool_decide_false by auto.
Qed.

Lemma rc_opens_slice alg key p aad random output e :
  rc_encrypt alg key random aad p = Some e -> length random = NONCE_LEN -> length p <= length output ->
  rc_decrypt_to_slice alg key output (e ++ random) aad = Ok (p ++ drop (length p) output, length p).
Proof.
  intros He Hr Ho. pose proof (rc_encrypt_length _ _ _ _ _ _ He) as Hl. unfold rc_decrypt_to_slice.
  rewrite length_app, Hr. rewrite bool_decide_false by lia. replace (length e + NONCE_LEN - NONCE_LEN) with (length e) by lia.
  rewrite take_app_length, drop_app_length, bool_decide_false by lia.
  rewrite (rc_decrypt_encrypt _ _ _ _ _ _ He), length_take. replace (length e - TAG_LEN) with (length p) by lia.
  rewrite Nat.min_l by lia. by rewrite bool_decide_false by lia.
Qed.

Lemma aws_opens_slice alg key p aad random output e : alg <> ALG_CHACHA8_POLY1305 ->
  rc_encrypt alg key random aad p = Some e -> length random = NONCE_LEN -> length p <= length output ->
  @decrypt_with_nonce_to_slice (aws_aead alg) key output (e ++ random) aad = Ok (p ++ drop (length p) output, length p).
Proof.
  intros Ha He Hr Ho. rewrite <- same_ciphers in He by done. destruct (open_seal _ _ _ _ _ He) as [t Ht].
  unfold decrypt_with_nonce_to_slice. rewrite length_app, Hr. rewrite bool_decide_false by lia.
  replace (length e + NONCE_LEN - NONCE_LEN) with (length e) by lia.
  by rewrite take_app_length, drop_app_length, Ht, bool_decide_false by lia.
Qed.

(** Each library opens what is sealed. *)
Lemma library_opens aws alg key : (aws = true -> alg <> ALG_CHACHA8_POLY1305) -> length key = key_len alg ->
  exists c, library_cipher aws alg key = Ok c /\
    (forall p aad random output e, rc_encrypt alg key random aad p = Some e -> length random = NONCE_LEN -> length p <= length output ->
       op_decrypt_to_slice c output (e ++ random) aad = Ok (p ++ drop (length p) output, length p)) /\
    (forall p aad nonce e, rc_encrypt alg key nonce aad p = Some e -> length nonce = NONCE_LEN ->
       exists rest, op_decrypt_detached c e nonce aad = Ok (p ++ rest)).
Proof.
  intros Ha Hk. destruct aws; cbn [library_cipher].
  - unfold aws_cipher. rewrite bool_decide_true by done. eexists. split; [done|]. cbn. split; [by auto using aws_opens_slice|].
    intros p aad nonce e He Hn. rewrite <- same_ciphers in He by auto. destruct (open_seal _ _ _ _ _ He) as [t Ht].
    exists t. unfold decrypt_with_nonce_detached. by rewrite bool_decide_false, Ht by auto.
  - eexists. split; [done|]. cbn. split; [by auto using rc_opens_slice|].
    intros p aad nonce e He Hn. exists []. unfold rc_decrypt_with_nonce_detached. rewrite bool_decide_false by auto.
    rewrite bool_decide_false by (rewrite (rc_encrypt_length _ _ _ _ _ _ He); lia).
    by rewrite (rc_decrypt_encrypt _ _ _ _ _ _ He), app_nil_r.
Qed.

Lemma libraries_read aws1 aws2 alg key c1 c2 :
  (aws1 = true -> alg <> ALG_CHACHA8_POLY1305) -> (aws2 = true -> alg <> ALG_CHACHA8_POLY1305) -> length key = key_len alg ->
  library_cipher aws1 alg key = Ok c1 -> library_cipher aws2 alg key = Ok c2 -> reads c1 c2.
Proof.
  intros Ha1 Ha2 Hk Hc1 Hc2. destruct (library_seals aws1 alg key Ha1 Hk) as (c & Hc & Hr & Hf).
  rewrite Hc in Hc1. injection Hc1 as ->. destruct (library_opens aws2 alg key Ha2 Hk) as (c' & Hc' & Hr' & Hf').
  rewrite Hc' in Hc2. injection Hc2 as ->. split.
  - intros p aad random output Hn Ho. rewrite Hr. destruct (rc_encrypt_total alg key random aad p) as [e He]. rewrite He.
    eauto.
  - intros p aad nonce Hn. rewrite Hf by done. destruct (rc_encrypt_total alg key nonce aad p) as [e He]. rewrite He.
    destruct (Hf' _ _ _ _ He Hn) as [rest Hrest]. eauto.
Qed.

(** The key that a manager of the configuration derives. *)
Definition derived_key (b : CryptoManager) (k : bytes) (context : CipherContext) : bytes :=
  if is_legacy b then
    let '(salt, info) := cipher_inputs context in prk_expand (hkdf_extract (Some (string_bytes salt)) k) info (key_len (backend_alg b))
  else prk_expand (hkdf_extract (Some []) k) (string_bytes (cipher_info context)) (key_len (backend_alg b)).

Lemma key_len_bound alg : key_len alg <= 32.
Proof. destruct alg; cbn; lia. Qed.

Lemma fill_ok prk info n : n <= 32 -> hkdf_fill prk info n = Ok (prk_expand prk info n).
Proof. intros Hn. unfold hkdf_fill. rewrite bool_decide_true; [done|]. unfold HKDF_MAX. lia. Qed.

(** Every manager gives the cipher of its library under that key. *)
Lemma manager_derives b k : length k = 32 ->
  exists m, init_key_manager {| secret_key := hex_encode k; backend := b |} = Ok m /\
    forall context, manager_cipher m context = library_cipher (is_aws b) (backend_alg b) (derived_key b k context).
Proof.
  intros Hk. unfold init_key_manager. cbn [secret_key backend]. rewrite hex_decode_encode. cbn [ok_or result_bind]. unfold key_array.
  rewrite bool_decide_true by done.
  destruct b as [a|a|r|r]; cbn [result_bind]; (eexists; split; [done|]); intros context; unfold derived_key;
    cbn [is_legacy is_aws backend_alg manager_cipher library_cipher];
    unfold aws_get_cipher, compat_get_cipher, legacy_get_cipher, rustcrypto_get_cipher, salted_key; destruct (cipher_inputs context) as [salt info];
    rewrite ?fill_ok by auto using key_len_bound; cbn [result_bind]; rewrite ?extract_no_salt, ?expand_prefix by auto using key_len_bound; done.
Qed.

(** C29: changing the library in the configuration keeps the stored data: two back ends of
    the same algorithm and the same derivation of keys start from the same secret key, each
    reads the columns and the pages of indices that the other encrypted, in every context,
    and the two older ones give the same identifiers. *)
Theorem backends_interchangeable b1 b2 k : length k = 32 ->
  is_legacy b1 = is_legacy b2 -> backend_alg b1 = backend_alg b2 ->
  exists m1 m2, init_key_manager {| secret_key := hex_encode k; backend := b1 |} = Ok m1 /\
    init_key_manager {| secret_key := hex_encode k; backend := b2 |} = Ok m2 /\
    (forall context, exists c1 c2, manager_cipher m1 context = Ok c1 /\ manager_cipher m2 context = Ok c2 /\ reads c1 c2 /\ reads c2 c1) /\
    (is_legacy b1 = true -> forall context data n, manager_identifier m1 context data n = manager_identifier m2 context data n).
Proof.
  intros Hk Hl Ha. destruct (manager_derives b1 k Hk) as (m1 & Hm1 & Hd1). destruct (manager_derives b2 k Hk) as (m2 & Hm2 & Hd2).
  exists m1, m2. split; [done|]. split; [done|].
  assert (forall b, is_aws b = true -> backend_alg b <> ALG_CHACHA8_POLY1305) as Hno by (intros [[]|[]|[]|[]]; done). split.
  - intros context. rewrite Hd1, Hd2. set (key := derived_key b1 k context).
    assert (derived_key b2 k context = key) as -> by (unfold key, derived_key; by rewrite Hl, Ha).
    assert (length key = key_len (backend_alg b1)) as Hlen.
    { unfold key, derived_key. destruct (is_legacy b1), (cipher_inputs context); apply expand_length. }
    rewrite <- Ha. pose proof (Hno b1) as Hn1. pose proof (Hno b2) as Hn2. rewrite <- Ha in Hn2.
    destruct (library_seals _ _ key Hn1 Hlen) as (c1 & Hc1 & _). destruct (library_seals _ _ key Hn2 Hlen) as (c2 & Hc2 & _).
    exists c1, c2. split; [done|]. split; [done|]. split; [exact (libraries_read _ _ _ _ _ _ Hn1 Hn2 Hlen Hc1 Hc2)|].
    exact (libraries_read _ _ _ _ _ _ Hn2 Hn1 Hlen Hc2 Hc1).
  - intros Hleg context data n. unfold init_key_manager in Hm1, Hm2. cbn [secret_key backend] in Hm1, Hm2. rewrite hex_decode_encode in Hm1, Hm2.
    cbn [ok_or result_bind] in Hm1, Hm2. unfold key_array in Hm1, Hm2. rewrite bool_decide_true in Hm1, Hm2 by done.
    destruct b1, b2; try done; cbn in Hm1, Hm2; injection Hm1 as <-; injection Hm2 as <-; done.
Qed.
End Interoperate.

(** ** Contexts are kept apart *)

(** A name without the characters that separate the parts of a context. *)
Definition plain_char (c : Ascii.ascii) : bool :=
  negb (existsb (Ascii.eqb c) ["."; ","; ":"; ")"]%char).
Definition plain_name (s : string) : bool := forallb plain_char (String.list_ascii_of_string s).

Definition plain_table (t : TableRef) : Prop :=
  plain_name (catalog t) = true /\ plain_name (schema t) = true /\ plain_name (table t) = true.

Definition plain_version (v : Z) : Prop := (0 <= v < 2 ^ 64)%Z.

Definition plain_cipher_context (c : CipherContext) : Prop :=
  match c with
  | TableColumn t column_name => plain_table t /\ plain_name column_name = true
  | VersionedIndexEntry t index_name v => plain_table t /\ plain_name index_name = true /\ plain_version (default 0%Z v)
  end.

Definition plain_identifier_context (c : IdentifierContext) : Prop :=
  match c with
  | RowIdColumnCtx t => plain_table t
  | NamedIndexInTable t index_name => plain_table t /\ plain_name index_name = true
  | NamedVersionedIndexInTable t index_name v => plain_table t /\ plain_name index_name = true /\ plain_version v
  end.

(** A missing version is version 0. *)
Definition with_version (c : CipherContext) : CipherContext :=
  match c with
  | TableColumn _ _ => c
  | VersionedIndexEntry t index_name v => VersionedIndexEntry t index_name (Some (default 0%Z v))
  end.

(** The salt and the info of the key of a cipher, by manager. *)
Definition cipher_material (m : PrincipalKeyManager) (context : CipherContext) : string * bytes :=
  match m with
  | AwsLcHkdfSha256KeyManager _ _ _ | RustCryptoHkdfSha256KeyManager _ _ _ => ("", string_bytes (cipher_info context))
  | CompatAwsLcHkdfSha256KeyManager _ _ _ | LegacyKeyManager _ _ _ => cipher_inputs context
  end.

(** Contexts of the same material have the same cipher. *)
Lemma cipher_from_material `{HkdfSteps} `{AeadLibs} m c1 c2 :
  cipher_material m c1 = cipher_material m c2 -> manager_cipher m c1 = manager_cipher m c2.
Proof.
  destruct m; cbn [cipher_material manager_cipher]; unfold aws_get_cipher, compat_get_cipher, legacy_get_cipher, rustcrypto_get_cipher, salted_key.
  - by intros [= ->].
  - by intros ->.
  - by intros ->.
  - by intros [= ->].
Qed.

(** Two texts that agree up to a separator which does not occur before it. *)
Lemma separated d a1 a2 b1 b2 : plain_char d = false -> plain_name a1 = true -> plain_name a2 = true ->
  a1 +:+ String d b1 = a2 +:+ String d b2 -> a1 = a2 /\ b1 = b2.
Proof.
  intros Hd. revert a2. induction a1 as [|x a1 IH]; intros [|y a2] Ha1 Ha2; rewrite ?string_app_cons.
  - by intros [= ->].
  - intros [= <- _]. cbn in Ha2. by rewrite Hd in Ha2.
  - intros [= -> _]. cbn in Ha1. by rewrite Hd in Ha1.
  - intros [= -> He]. cbn in Ha1, Ha2. apply andb_true_iff in Ha1 as [_ Ha1], Ha2 as [_ Ha2].
    destruct (IH a2 Ha1 Ha2 He) as [-> ->]. done.
Qed.

Lemma string_app_inj_l p a b : p +:+ a = p +:+ b -> a = b.
Proof. induction p as [|c p IH]; [done|]. rewrite !string_app_cons. intros [= Hp]. by apply IH. Qed.

Lemma string_app_inj_r a1 a2 b : a1 +:+ b = a2 +:+ b -> a1 = a2.
Proof.
  revert a2. induction a1 as [|c a1 IH]; intros [|d a2] Ha; [done| | |].
  - apply (f_equal String.length) in Ha. rewrite !string_length_app in Ha. cbn in Ha. lia.
  - apply (f_equal String.length) in Ha. rewrite !string_length_app in Ha. cbn in Ha. lia.
  - rewrite !string_app_cons in Ha. injection Ha as -> Ha. by rewrite (IH _ Ha).
Qed.

Lemma string_bytes_inj a b : string_bytes a = string_bytes b -> a = b.
Proof.
  intros Hab. rewrite <- (String.string_of_list_byte_of_string a), <- (String.string_of_list_byte_of_string b).
  unfold string_bytes in Hab. by rewrite Hab.
Qed.

(** The text of a table, followed by a separator. *)
Lemma table_separated d t1 t2 b1 b2 : plain_char d = false -> plain_table t1 -> plain_table t2 ->
  table_ref_to_string t1 +:+ String d b1 = table_ref_to_string t2 +:+ String d b2 -> t1 = t2 /\ b1 = b2.
Proof.
  intros Hd (Hc1 & Hs1 & Ht1) (Hc2 & Hs2 & Ht2). unfold table_ref_to_string. rewrite !string_app_assoc.
  destruct t1 as [c1 s1 t1], t2 as [c2 s2 t2]. cbn in *. intros He.
  apply (separated "."%char _ _ _ _ eq_refl Hc1 Hc2) in He as [-> He]. apply (separated "."%char _ _ _ _ eq_refl Hs1 Hs2) in He as [-> He].
  apply (separated d _ _ _ _ Hd Ht1 Ht2) in He as [-> ->]. done.
Qed.

Lemma version_pretty v1 v2 : plain_version v1 -> plain_version v2 -> pretty (Z.to_N v1) = pretty (Z.to_N v2) -> v1 = v2.
Proof. intros Hv1 Hv2 Hp. apply (inj pretty) in Hp. unfold plain_version in *. lia. Qed.

Lemma cipher_inputs_separated c1 c2 : plain_cipher_context c1 -> plain_cipher_context c2 ->
  cipher_inputs c1 = cipher_inputs c2 -> with_version c1 = with_version c2.
Proof.
  destruct c1 as [t1 n1|t1 n1 v1], c2 as [t2 n2|t2 n2 v2]; cbn [cipher_inputs plain_cipher_context with_version].
  - intros [Ht1 _] [Ht2 _] He. apply (f_equal fst), (string_app_inj_l "tbl:") in He.
    by destruct (table_separated "." t1 t2 n1 n2 eq_refl Ht1 Ht2 He) as [-> ->].
  - done.
  - done.
  - intros (Ht1 & Hn1 & Hv1) (Ht2 & Hn2 & Hv2) He. pose proof (f_equal snd He) as Hv. apply (f_equal fst), (string_app_inj_l "versioned_index(") in He.
    cbn [snd] in Hv. destruct (table_separated "," t1 t2 _ _ eq_refl Ht1 Ht2 He) as [-> He'].
    destruct (separated ")"%char n1 n2 "" "" eq_refl Hn1 Hn2 He') as [-> _]. do 2 f_equal.
    by apply (to_le_bytes_inj 8) in Hv.
Qed.

Lemma cipher_info_separated c1 c2 : plain_cipher_context c1 -> plain_cipher_context c2 ->
  cipher_info c1 = cipher_info c2 -> with_version c1 = with_version c2.
Proof.
  destruct c1 as [t1 n1|t1 n1 v1], c2 as [t2 n2|t2 n2 v2]; cbn [cipher_info plain_cipher_context with_version].
  - intros [Ht1 _] [Ht2 _] He. apply (string_app_inj_l "tbl:") in He.
    by destruct (table_separated "." t1 t2 n1 n2 eq_refl Ht1 Ht2 He) as [-> ->].
  - done.
  - done.
  - intros (Ht1 & Hn1 & Hv1) (Ht2 & Hn2 & Hv2) He. apply (string_app_inj_l "versioned_index:") in He.
    destruct (table_separated "." t1 t2 _ _ eq_refl Ht1 Ht2 He) as [-> He'].
    destruct (separated ":"%char n1 n2 _ _ eq_refl Hn1 Hn2 He') as [-> Hv]. do 2 f_equal. by apply version_pretty.
Qed.

Lemma identifier_context_separated i1 i2 : plain_identifier_context i1 -> plain_identifier_context i2 ->
  identifier_context_to_string i1 = identifier_context_to_string i2 -> i1 = i2.
Proof.
  destruct i1 as [t1|t1 n1|t1 n1 v1], i2 as [t2|t2 n2|t2 n2 v2]; cbn [identifier_context_to_string plain_identifier_context]; try done.
  - intros Ht1 Ht2 He. apply (string_app_inj_l "row_id(") in He. by destruct (table_separated ")" t1 t2 "" "" eq_refl Ht1 Ht2 He) as [-> _].
  - intros [Ht1 Hn1] [Ht2 Hn2] He. apply (string_app_inj_l "named_index(") in He.
    destruct (table_separated "," t1 t2 _ _ eq_refl Ht1 Ht2 He) as [-> He'].
    by destruct (separated ")"%char n1 n2 "" "" eq_refl Hn1 Hn2 He') as [-> _].
  - intros (Ht1 & Hn1 & Hv1) (Ht2 & Hn2 & Hv2) He. apply (string_app_inj_l "versioned_index(") in He.
    destruct (table_separated "," t1 t2 _ _ eq_refl Ht1 Ht2 He) as [-> He'].
    destruct (separated ","%char n1 n2 _ _ eq_refl Hn1 Hn2 He') as [-> Hv]. apply (string_app_inj_l "v") in Hv.
    apply string_app_inj_r in Hv. f_equal. by apply version_pretty.
Qed.

(** Where the context is: in the salt, or in the info. *)
Definition cipher_label (m : PrincipalKeyManager) (context : CipherContext) : string :=
  match m with
  | AwsLcHkdfSha256KeyManager _ _ _ | RustCryptoHkdfSha256KeyManager _ _ _ => cipher_info context
  | CompatAwsLcHkdfSha256KeyManager _ _ _ | LegacyKeyManager _ _ _ => (cipher_inputs context).1
  end.

(** C30: keys are not shared between uses: under every manager, contexts whose names have
    no separator derive a cipher from the same salt and info only when they are the same,
    with a missing version counted as version 0; identifiers of different contexts never
    share the label of their key, and none has the label of a cipher. *)
Theorem contexts_separated m :
  (forall c1 c2, plain_cipher_context c1 -> plain_cipher_context c2 -> cipher_material m c1 = cipher_material m c2 ->
     with_version c1 = with_version c2) /\
  (forall i1 i2, plain_identifier_context i1 -> plain_identifier_context i2 -> identifier_info m i1 = identifier_info m i2 -> i1 = i2) /\
  (forall c i, cipher_label m c <> identifier_info m i).
Proof.
  split; [|split].
  - intros c1 c2 Hc1 Hc2. destruct m; cbn [cipher_material]; try by apply cipher_inputs_separated.
    + intros He. injection He as He%string_bytes_inj. by apply cipher_info_separated.
    + intros He. injection He as He%string_bytes_inj. by apply cipher_info_separated.
  - intros i1 i2 Hi1 Hi2. destruct m; cbn [identifier_info]; try (intros He%(string_app_inj_l "ident_generator:"));
      by apply identifier_context_separated.
  - intros c i. destruct m; cbn [cipher_label identifier_info]; destruct c, i; done.
Qed.

(** Names with dots share keys: two tables of different databases. *)
Lemma dotted_names_share_keys `{HkdfSteps} `{AeadLibs} m column :
  manager_cipher m (TableColumn {| catalog := "def"; schema := "a.b"; table := "c" |} column) =
  manager_cipher m (TableColumn {| catalog := "def"; schema := "a"; table := "b.c" |} column).
Proof. apply cipher_from_material. by destruct m. Qed.

(** The two managers that share their keys have different generators of identifiers. *)
Lemma identifier_labels_differ p algo kdf p' C kdf' context :
  identifier_info (AwsLcHkdfSha256KeyManager p algo kdf) context <> identifier_info (RustCryptoHkdfSha256KeyManager C p' kdf') context.
Proof. by destruct context. Qed.

(** A ciphertext that is shorter than the tag is an error for one library and a panic for
    the other. *)
Lemma short_ciphertext_panics `{AeadLibs} alg key output c aad : NONCE_LEN <= length c < NONCE_LEN + TAG_LEN ->
  rc_decrypt_to_slice alg key output c aad = Err (Panic "mid > len").
Proof.
  intros Hc. unfold rc_decrypt_to_slice. rewrite bool_decide_false by lia. rewrite length_take, bool_decide_true; [done|]. lia.
Qed.

(** ** A concrete instance *)

(** The derivation writes the key, the info and zeros. *)
Definition demo_hkdf_steps : HkdfSteps := {|
  hkdf_extract salt ikm := default [] salt ++ ikm;
  prk_expand prk info n := take n ((prk ++ info) ++ replicate n Byte.x00)
|}.

Lemma demo_hkdf_steps_laws : @HkdfStepsLaws demo_hkdf_steps.
Proof.
  split; [done| |].
  - intros prk info n. cbn. rewrite length_take, length_app, length_replicate. lia.
  - intros prk info n m Hn. cbn. rewrite take_take, Nat.min_l by done. rewrite !take_app. f_equal.
    rewrite !take_replicate. f_equal. lia.
Qed.

Definition demo_libs : AeadLibs := {|
  aws_aead _ := demo_aead;
  rc_encrypt _ _ _ _ p := Some (p ++ demo_tag);
  rc_decrypt_detached _ _ _ _ p tag := if bool_decide (tag = demo_tag) then Some p else None
|}.

Lemma demo_libs_laws : @AeadLibsLaws demo_libs.
Proof.
  split; cbn -[demo_tag]; [intros _; exact demo_aead_laws|eauto| | |done].
  - intros _ _ _ _ p c [= <-]. by rewrite length_app.
  - intros _ _ _ _ p c [= <-]. rewrite length_app. change (length demo_tag) with TAG_LEN.
    rewrite Nat.add_sub, take_app_length, drop_app_length. done.
Qed.

Lemma backends_interchangeable_witness :
  let k := replicate 32 Byte.x07 in
  exists m1 m2, @init_key_manager demo_hkdf_steps {| secret_key := hex_encode k; backend := LegacyAws AwsAes128Gcm |} = Ok m1 /\
    @init_key_manager demo_hkdf_steps {| secret_key := hex_encode k; backend := Legacy RcAes128Gcm |} = Ok m2 /\
    (forall context, exists c1 c2, @manager_cipher demo_hkdf_steps demo_libs m1 context = Ok c1 /\
       @manager_cipher demo_hkdf_steps demo_libs m2 context = Ok c2 /\ reads c1 c2 /\ reads c2 c1) /\
    (true = true -> forall context data n,
       @manager_identifier demo_hkdf_steps m1 context data n = @manager_identifier demo_hkdf_steps m2 context data n).
Proof.
  exact (@backends_interchangeable demo_hkdf_steps demo_hkdf_steps_laws demo_libs demo_libs_laws
    (LegacyAws AwsAes128Gcm) (Legacy RcAes128Gcm) (replicate 32 Byte.x07) eq_refl eq_refl eq_refl).
Defined.

(** The default configuration starts, and a key of another length does not. *)
Lemma default_config_starts `{HkdfSteps} : exists m, init_key_manager default_crypto_config = Ok m.
Proof. eexists. reflexivity. Qed.

Lemma short_key_panics `{HkdfSteps} :
  init_key_manager {| secret_key := "00ff"; backend := Legacy RcAes256Gcm |} = Err (Panic "decoded key is not correct length").
Proof. reflexivity. Qed.

Lemma contexts_separated_witness :
  let m := AwsLcHkdfSha256KeyManager 0 ALG_AES_256_GCM [] in
  let t := {| catalog := "def"; schema := "shop"; table := "users" |} in
  cipher_material m (VersionedIndexEntry t "terms" None) <> cipher_material m (VersionedIndexEntry t "terms" (Some 1%Z)) /\
  identifier_info m (NamedIndexInTable t "mail") <> identifier_info m (NamedIndexInTable t "name") /\
  cipher_label m (TableColumn t "mail") <> identifier_info m (RowIdColumnCtx t).
Proof.
  intros m t. destruct (contexts_separated m) as (Hc & Hi & Hd). split; [|split; [|apply Hd]].
  - intros He. apply Hc in He; [discriminate He| |]; cbn; unfold plain_table, plain_version; cbn; split_and!; done || lia.
  - intros He. apply Hi in He; [discriminate He| |]; cbn; unfold plain_table; cbn; split_and!; done.
Defined.
