(* ===== verification/ArrowCodec.v ===== *)
(** * Arrow columns as binary columns

    Models [crypto/src/arrow.rs]: before a column is encrypted its values are
    turned into byte strings, and back after decryption. Primitive values are
    written in the native byte order (little endian); where Arrow's own [cast]
    kernel accepts the types, the code delegates to it, which here is the class
    [ArrowCast]. *)
From S2P Require Import Prelude Values.

(** ** Arrays *)

(** One value: integers, dates, decimals and the bit patterns of floats are
    [VPrim]; a vector of 32-bit floats has nullable elements. *)
Inductive ArrowValue :=
  | VPrim (z : Z)
  | VBool (b : bool)
  | VBytes (bs : bytes)
  | VFloats (fs : list (option Z)).

#[export] Instance ArrowValue_eq_dec : EqDecision ArrowValue.
Proof. solve_decision. Defined.

Record Array := { data_type : DataType; values : list (option ArrowValue) }.

Abbreviation BinaryArray := (list (option bytes)).

(** Arrow's [cast] kernel, from and to [Binary]; [valid_decimal] is the check of
    [with_precision_and_scale], [valid_bytes] tells the byte strings that are
    values of a type (UTF-8 for strings). *)
Class ArrowCast := {
  can_cast_to_binary : DataType -> bool;
  can_cast_from_binary : DataType -> bool;
  cast_to_binary : Array -> result BinaryArray;
  cast_from_binary : BinaryArray -> DataType -> result Array;
  valid_decimal : DataType -> bool;
  valid_bytes : DataType -> bytes -> bool
}.

(** ** Primitive values *)

(** Bytes and signedness of the native type of a primitive Arrow type; floats
    are their bit patterns. *)
Definition native (dt : DataType) : option (nat * bool) :=
  match dt with
  | DtInt8 => Some (1, true) | DtInt16 => Some (2, true)
  | DtInt32 => Some (4, true) | DtInt64 => Some (8, true)
  | DtUInt8 => Some (1, false) | DtUInt16 => Some (2, false)
  | DtUInt32 => Some (4, false) | DtUInt64 => Some (8, false)
  | DtFloat16 => Some (2, false) | DtFloat32 => Some (4, false) | DtFloat64 => Some (8, false)
  | DtDecimal32 _ _ => Some (4, true) | DtDecimal64 _ _ => Some (8, true)
  | DtDecimal128 _ _ => Some (16, true)
  | DtDate32 => Some (4, true) | DtDate64 => Some (8, true)
  | DtTimestamp _ _ => Some (8, true)
  | DtTime32 (Second | Millisecond) => Some (4, true)
  | DtTime64 (Microsecond | Nanosecond) => Some (8, true)
  | DtDuration _ => Some (8, true)
  | DtInterval YearMonth => Some (4, true)
  | _ => None
  end.

(** [as_bytes] and [read_from_bytes] of the native type. *)
Definition prim_bytes (w : nat) (z : Z) : bytes := to_le_bytes w z.

Definition prim_read (w : nat) (signed : bool) (bs : bytes) : option Z :=
  if bool_decide (length bs = w) then
    let z := from_le_bytes bs in
    Some (if signed then wrap_s (8 * Z.of_nat w) z else z)
  else None.

Definition as_primitive (v : ArrowValue) : result Z :=
  match v with VPrim z => Ok z | _ => Err (Panic "primitive array") end.

(** The [None] slots stay NULL. *)
Definition map_slots {A B} (f : A -> result B) (l : list (option A)) : result (list (option B)) :=
  result_mapM (fun v => match v with
                        | Some v => let? w := f v in Ok (Some w)
                        | None => Ok None
                        end) l.

Arguments map_slots : simpl never.

Definition primitive_array_to_bytes (w : nat) (array : list (option ArrowValue)) :
    result BinaryArray :=
  map_slots (fun v => let? z := as_primitive v in Ok (prim_bytes w z)) array.

(** A byte string of another length than the native type is read as NULL. *)
Definition primitive_array_from_bytes (w : nat) (signed : bool) (array : BinaryArray) :
    list (option ArrowValue) :=
  (fun v => match v with
            | Some bs => VPrim <$> prim_read w signed bs
            | None => None
            end) <$> array.

(** ** Encoding *)

(** A vector: the bytes of its non-NULL elements. *)
Definition floats_bytes (fs : list (option Z)) : bytes :=
  flat_map (fun f => match f with Some z => prim_bytes 4 z | None => [] end) fs.

Definition vector_bytes (v : ArrowValue) : result bytes :=
  match v with VFloats fs => Ok (floats_bytes fs) | _ => Err (Panic "fixed size list array") end.

Definition bool_bytes (v : ArrowValue) : result bytes :=
  match v with
  | VBool b => Ok [if b then Byte.x01 else Byte.x00]
  | _ => Err (Panic "boolean array")
  end.

Definition encode_array_to_binary `{ArrowCast} (array : Array) : result BinaryArray :=
  if can_cast_to_binary (data_type array) then cast_to_binary array
  else
    match data_type array with
    | DtBoolean =>
        map_slots bool_bytes (values array)
    | DtFixedSizeListFloat32 _ =>
        map_slots vector_bytes (values array)
    | dt =>
        match native dt with
        | Some (w, _) => primitive_array_to_bytes w (values array)
        | None => Err (ExecError "Casting not implemented to binary")
        end
    end.

(** ** Decoding *)

(** The elements of a vector, four bytes each. *)
Fixpoint read_floats (n : nat) (bs : bytes) : list (option Z) :=
  match n with
  | O => []
  | S n => Some (from_le_bytes (take 4 bs)) :: read_floats n (drop 4 bs)
  end.

Definition read_vector (n : nat) (bs : bytes) : result ArrowValue :=
  if bool_decide (length bs = 4 * n) then Ok (VFloats (read_floats n bs))
  else Err (Panic "assertion failed: value.len()").

Definition read_bool (bs : bytes) : ArrowValue := VBool (bool_decide (bs = [Byte.x01])).

Definition decode_array_from_binary `{ArrowCast} (array : BinaryArray) (target_type : DataType) :
    result Array :=
  if can_cast_from_binary target_type then cast_from_binary array target_type
  else
    match target_type with
    | DtNull => Ok {| data_type := DtNull; values := map (fun _ => None) array |}
    | DtBoolean =>
        Ok {| data_type := DtBoolean;
              values := map (option_map read_bool) array |}
    | DtFixedSizeListFloat32 num =>
        (* the capacity is estimated by dividing by the size of a vector *)
        if (num =? 0)%Z then Err (Panic "attempt to divide by zero")
        else
          let? vs := map_slots (read_vector (Z.to_nat num)) array in
          Ok {| data_type := target_type; values := vs |}
    | dt =>
        match native dt with
        | Some (w, signed) =>
            match dt with
            | DtDecimal32 _ _ | DtDecimal64 _ _ | DtDecimal128 _ _ =>
                if valid_decimal dt then
                  Ok {| data_type := dt; values := primitive_array_from_bytes w signed array |}
                else Err (ExecError "invalid decimal precision or scale")
            | _ => Ok {| data_type := dt; values := primitive_array_from_bytes w signed array |}
            end
        | None => Err (ExecError "Casting not implemented from binary")
        end
    end.

(** [ToBinaryExpr::evaluate] on a column: a binary column is left as it is. *)
Definition as_binary (v : ArrowValue) : result bytes :=
  match v with VBytes bs => Ok bs | _ => Err (Panic "byte array") end.

Definition to_binary_evaluate `{ArrowCast} (parent : Array) : result BinaryArray :=
  if bool_decide (data_type parent = DtBinary) then map_slots as_binary (values parent)
  else encode_array_to_binary parent.

(** [FromBinaryExpr::evaluate] on a binary column. *)
Definition from_binary_evaluate `{ArrowCast} (target_type : DataType) (parent : BinaryArray) :
    result Array :=
  if bool_decide (target_type = DtBinary) then
    Ok {| data_type := DtBinary; values := map (option_map VBytes) parent |}
  else decode_array_from_binary parent target_type.

(** ** Columnar values *)

(** A column or a scalar repeated over a batch. *)
Inductive ColumnarValue (A : Type) := CvArray (a : list (option A)) | CvScalar (v : option A).
Arguments CvArray {A} a.
Arguments CvScalar {A} v.

(** [into_array_of_size]. *)
Definition into_array_of_size {A} (v : ColumnarValue A) (n : nat) : list (option A) :=
  match v with
  | CvArray a => a
  | CvScalar v => replicate n v
  end.

(** ** Lemmas *)

(** The integers of a native type. *)
Definition fits_native (w : nat) (signed : bool) (z : Z) : Prop :=
  if signed then fits_s (8 * Z.of_nat w) z else fits_u (8 * Z.of_nat w) z.

(** A value of the type of its array. *)
Definition value_ok `{ArrowCast} (dt : DataType) (v : ArrowValue) : Prop :=
  match dt, v with
  | DtBoolean, VBool _ => True
  | DtFixedSizeListFloat32 num, VFloats fs =>
      length fs = Z.to_nat num /\ Forall (fun f => exists z, f = Some z /\ fits_u 32 z) fs
  | dt, VPrim z =>
      match native dt with Some (w, signed) => fits_native w signed z | None => False end
  | (DtBoolean | DtFixedSizeListFloat32 _), VBytes _ => False
  | dt, VBytes bs => native dt = None /\ valid_bytes dt bs = true
  | _, _ => False
  end.

Definition array_ok `{ArrowCast} (a : Array) : Prop :=
  Forall (fun v => match v with Some v => value_ok (data_type a) v | None => True end) (values a).

Lemma prim_read_bytes w signed z :
  0 < w -> fits_native w signed z -> prim_read w signed (prim_bytes w z) = Some z.
Proof.
  intros Hw Hz. unfold prim_read, prim_bytes. rewrite length_to_le_bytes, bool_decide_true by done.
  unfold from_le_bytes, to_le_bytes. rewrite le_combine_split, (Z.mul_comm (Z.of_nat w) 8). f_equal.
  destruct signed; cbn in Hz.
  - rewrite <- (wrap_s_id (8 * Z.of_nat w) z) at 2 by (done || lia). unfold wrap_s.
    rewrite Z.add_mod_idemp_l by (apply Z.pow_nonzero; lia). done.
  - by apply Z.mod_small.
Qed.

Lemma map_slots_total {A B} (f : A -> result B) (g : B -> option A) (l : list (option A)) :
  (forall v, Some v ∈ l -> exists b, f v = Ok b /\ g b = Some v) ->
  exists out, map_slots f l = Ok out /\ (fun v => v ≫= g) <$> out = l.
Proof.
  unfold map_slots. induction l as [|v l IH]; intros Hl; [by exists []|].
  destruct IH as (out & Hout & Hg); [intros w Hw; apply Hl; by right|].
  destruct v as [v|].
  - destruct (Hl v) as (b & Hb & Hgb); [left|].
    exists (Some b :: out). cbn. rewrite Hb. cbn. rewrite Hout. cbn. by rewrite Hgb, Hg.
  - exists (None :: out). cbn. rewrite Hout. cbn. by rewrite Hg.
Qed.

Lemma map_slots_inverse {A B} (f : A -> result B) (g : B -> result A) (l : list (option A)) :
  (forall v, Some v ∈ l -> exists b, f v = Ok b /\ g b = Ok v) ->
  exists out, map_slots f l = Ok out /\ map_slots g out = Ok l.
Proof.
  unfold map_slots. induction l as [|v l IH]; intros Hl; [by exists []|].
  destruct IH as (out & Hout & Hg); [intros w Hw; apply Hl; by right|].
  destruct v as [v|].
  - destruct (Hl v) as (b & Hb & Hgb); [left|].
    exists (Some b :: out). cbn. rewrite Hb, Hgb. cbn. by rewrite Hout, Hg.
  - exists (None :: out). cbn. by rewrite Hout, Hg.
Qed.

Lemma map_slots_length {A B} (f : A -> result B) l out :
  map_slots f l = Ok out -> length out = length l.
Proof.
  unfold map_slots. revert out. induction l as [|v l IH]; cbn; intros out Ho; inv_ok; [done|].
  cbn. f_equal. by apply IH.
Qed.

Lemma array_ok_elem `{ArrowCast} a v : array_ok a -> Some v ∈ values a -> value_ok (data_type a) v.
Proof. intros Ha Hv. unfold array_ok in Ha. rewrite Forall_forall in Ha. exact (Ha _ Hv). Qed.

Lemma native_width dt w signed : native dt = Some (w, signed) -> 0 < w.
Proof. destruct dt; cbn; repeat case_match; naive_solver lia. Qed.

Lemma floats_bytes_cons z fs : floats_bytes (Some z :: fs) = to_le_bytes 4 z ++ floats_bytes fs.
Proof. done. Qed.

Lemma read_floats_bytes n fs :
  length fs = n -> Forall (fun f => exists z, f = Some z /\ fits_u 32 z) fs ->
  length (floats_bytes fs) = 4 * n /\ read_floats n (floats_bytes fs) = fs.
Proof.
  intros Hn Hfs. revert n Hn. induction Hfs as [|f fs (z & -> & Hz) _ IH]; intros n <-; [done|].
  destruct (IH _ eq_refl) as [Hl Hr]. rewrite floats_bytes_cons.
  split; [rewrite length_app, length_to_le_bytes, Hl, length_cons; lia|].
  cbn [length read_floats]. rewrite take_app_length', drop_app_length'
    by (by rewrite length_to_le_bytes). by rewrite Hr, from_to_le_bytes.
Qed.

(** ** Round trip *)

(** Two columns with NULLs in the same places. *)
Definition same_nulls {A B} (l : list (option A)) (k : list (option B)) : Prop :=
  Forall2 (fun x y => is_Some x <-> is_Some y) l k.

Lemma map_slots_nulls {A B} (f : A -> result B) l out : map_slots f l = Ok out -> same_nulls l out.
Proof.
  unfold map_slots. revert out. induction l as [|v l IH]; cbn; intros out Ho; inv_ok; [constructor|].
  constructor; [|by apply IH]. destruct v; inv_ok; [|done]. split; intros _; by eexists.
Qed.

(** What the [cast] kernel documents: the types it converts from binary it also
    converts to binary, the two being inverse, NULLs stay in place, and an integer
    that it converts to binary but not back becomes its native bytes. *)
Class ArrowCastLaws `{ArrowCast} := {
  cast_both dt : can_cast_from_binary dt = true -> can_cast_to_binary dt = true;
  cast_inverse a : can_cast_from_binary (data_type a) = true -> array_ok a ->
    exists b, cast_to_binary a = Ok b /\ length b = length (values a) /\
              cast_from_binary b (data_type a) = Ok a;
  cast_nulls a b : cast_to_binary a = Ok b -> same_nulls (values a) b;
  cast_identity a : data_type a = DtBinary -> cast_to_binary a = map_slots as_binary (values a);
  cast_integer a w signed : can_cast_to_binary (data_type a) = true ->
    can_cast_from_binary (data_type a) = false -> native (data_type a) = Some (w, signed) ->
    cast_to_binary a = primitive_array_to_bytes w (values a);
  cast_integer_only dt : can_cast_to_binary dt = true -> can_cast_from_binary dt = false ->
    is_Some (native dt)
}.

(** The types of columns that can be encrypted. *)
Definition encodable `{ArrowCast} (dt : DataType) : bool :=
  can_cast_from_binary dt
  || match dt with
     | DtBoolean => true
     | DtFixedSizeListFloat32 num => (0 <? num)%Z
     | DtDecimal32 _ _ | DtDecimal64 _ _ | DtDecimal128 _ _ => valid_decimal dt
     | _ => bool_decide (is_Some (native dt))
     end.

Section RoundTrip.
Context `{ArrowCastLaws}.

Lemma prim_array_roundtrip a w signed :
  native (data_type a) = Some (w, signed) -> array_ok a ->
  exists b, primitive_array_to_bytes w (values a) = Ok b /\
            primitive_array_from_bytes w signed b = values a.
Proof.
  intros Hn Ha.
  destruct (map_slots_total (fun v => let? z := as_primitive v in Ok (prim_bytes w z))
              (fun bs => VPrim <$> prim_read w signed bs) (values a)) as (b & Hb & Hg).
  - intros v Hv. apply (array_ok_elem a) in Hv; [|done]. unfold value_ok in Hv.
    destruct v; try by (destruct (data_type a); naive_solver). rewrite Hn in Hv.
    assert (fits_native w signed z) as Hz by (by destruct (data_type a)).
    eexists. split; [done|]. rewrite prim_read_bytes by eauto using native_width. done.
  - exists b. split; [done|]. rewrite <- Hg. apply list_fmap_ext. intros i [bs|] _; done.
Qed.

Lemma bool_array_roundtrip vs :
  array_ok {| data_type := DtBoolean; values := vs |} ->
  exists b, map_slots bool_bytes vs = Ok b /\ map (option_map read_bool) b = vs.
Proof.
  intros Ha. destruct (map_slots_total bool_bytes (fun bs => Some (read_bool bs)) vs) as (b & Hb & Hg).
  - intros v Hv. apply (array_ok_elem _ _ Ha) in Hv. cbn in Hv.
    destruct v as [|[]| |]; try done; cbn; eauto.
  - exists b. split; [done|]. rewrite <- Hg. apply map_ext. by intros [bs|].
Qed.

Lemma floats_array_roundtrip num vs :
  array_ok {| data_type := DtFixedSizeListFloat32 num; values := vs |} ->
  exists b, map_slots vector_bytes vs = Ok b /\ map_slots (read_vector (Z.to_nat num)) b = Ok vs.
Proof.
  intros Ha. apply map_slots_inverse. intros v Hv. apply (array_ok_elem _ _ Ha) in Hv. cbn in Hv.
  destruct v; try done. destruct Hv as [Hlen Hfs].
  destruct (read_floats_bytes _ _ Hlen Hfs) as [Hl Hr].
  eexists. split; [done|]. unfold read_vector. by rewrite Hl, bool_decide_true, Hr.
Qed.

Lemma encode_decode (a : Array) :
  encodable (data_type a) = true -> array_ok a ->
  exists b, encode_array_to_binary a = Ok b /\ length b = length (values a) /\
            decode_array_from_binary b (data_type a) = Ok a.
Proof.
  intros He Ha. unfold encodable in He. unfold encode_array_to_binary, decode_array_from_binary.
  destruct (can_cast_from_binary (data_type a)) eqn:Hfrom.
  { rewrite cast_both by done. destruct (cast_inverse a Hfrom Ha) as (b & -> & Hb). eauto. }
  cbn in He. destruct a as [dt vs]; cbn in *.
  destruct (native dt) as [[w signed]|] eqn:Hn.
  - destruct (prim_array_roundtrip {| data_type := dt; values := vs |} w signed Hn Ha)
      as (b & Hb & Hd). cbn in Hb, Hd.
    pose proof (map_slots_length _ _ _ Hb). exists b. split; [|split; [done|]].
    + destruct (can_cast_to_binary dt) eqn:Hto.
      * by rewrite (cast_integer {| data_type := dt; values := vs |} w signed).
      * destruct dt; try discriminate Hn; cbn in Hn |- *; by rewrite ?Hn; simplify_eq.
    + destruct dt; try discriminate Hn; cbn in Hn |- *; rewrite ?Hn; try rewrite He; by simplify_eq.
  - destruct (can_cast_to_binary dt) eqn:Hto.
    { destruct (cast_integer_only dt Hto Hfrom) as [? ?]. congruence. }
    destruct dt; try discriminate Hn; try (apply bool_decide_eq_true in He as [? ?]; congruence).
    + destruct (bool_array_roundtrip vs Ha) as (b & Hb & Hd). exists b.
      pose proof (map_slots_length _ _ _ Hb). by rewrite Hb, Hd.
    + destruct (floats_array_roundtrip _ vs Ha) as (b & Hb & Hd). exists b.
      pose proof (map_slots_length _ _ _ Hb). apply Z.ltb_lt in He.
      destruct (Z.eqb_spec n 0); [lia|]. by rewrite Hb, Hd.
Qed.

Lemma encode_nulls a b : encode_array_to_binary a = Ok b -> same_nulls (values a) b.
Proof.
  unfold encode_array_to_binary. destruct (can_cast_to_binary (data_type a)); [apply cast_nulls|].
  destruct (data_type a); try (by apply map_slots_nulls); destruct (native _) as [[w signed]|]; try done;
    apply map_slots_nulls.
Qed.

Lemma to_binary_encode (a : Array) :
  encodable (data_type a) = true -> to_binary_evaluate a = encode_array_to_binary a.
Proof.
  intros He. unfold to_binary_evaluate. case_bool_decide as Hd; [|done].
  unfold encode_array_to_binary. unfold encodable in He. rewrite Hd in *.
  destruct (can_cast_from_binary DtBinary) eqn:Hf; [|by apply bool_decide_eq_true in He as [? ?]].
  rewrite cast_both by done. by rewrite cast_identity.
Qed.

(** Encoding a column to binary and decoding the result with the column's
    type gives the column back, NULLs included, for every type of column the
    proxy encrypts. *)
Theorem encode_decode_roundtrip (a : Array) :
  encodable (data_type a) = true -> array_ok a ->
  exists b, encode_array_to_binary a = Ok b /\ length b = length (values a) /\
            decode_array_from_binary b (data_type a) = Ok a.
Proof. apply encode_decode. Qed.
End RoundTrip.

(** A [cast] kernel that knows [Binary], and writes 32-bit integers natively. *)
#[export] Instance demo_cast : ArrowCast := {
  can_cast_to_binary dt := bool_decide (dt = DtBinary) || bool_decide (dt = DtInt32);
  can_cast_from_binary dt := bool_decide (dt = DtBinary);
  cast_to_binary a :=
    if bool_decide (data_type a = DtInt32) then primitive_array_to_bytes 4 (values a)
    else map_slots as_binary (values a);
  cast_from_binary b dt := Ok {| data_type := dt; values := map (option_map VBytes) b |};
  valid_decimal _ := true;
  valid_bytes _ _ := true
}.

#[export] Instance demo_cast_laws : ArrowCastLaws.
Proof.
  split.
  - intros dt Hdt. cbn in *. by rewrite Hdt.
  - intros [dt vs] Hdt Ha. cbn in Hdt. apply bool_decide_eq_true in Hdt as ->.
    destruct (map_slots_total as_binary (fun bs => Some (VBytes bs)) vs) as (b & Hb & Hg).
    { intros v Hv. apply (array_ok_elem _ _ Ha) in Hv. cbn in Hv. destruct v; try done. by eexists. }
    exists b. cbn. split; [done|]. split; [by eapply map_slots_length|]. by rewrite <- Hg.
  - intros [dt vs] b Hb. cbn in *. case_bool_decide; by apply map_slots_nulls in Hb.
  - intros [dt vs] Hdt. cbn in Hdt. by subst.
  - intros [dt vs] w signed Hto Hfrom Hn. cbn in *. rewrite Hfrom in Hto. cbn in Hto.
    apply bool_decide_eq_true in Hto as ->. cbn in Hn. by simplify_eq.
  - intros dt Hto Hfrom. cbn in *. rewrite Hfrom in Hto. cbn in Hto.
    apply bool_decide_eq_true in Hto as ->. by eexists.
Qed.

Lemma encode_decode_roundtrip_witness :
  exists b,
    encode_array_to_binary {| data_type := DtDate32; values := [Some (VPrim (-3)); None] |} = Ok b /\
    length b = 2 /\
    decode_array_from_binary b DtDate32 = Ok {| data_type := DtDate32; values := [Some (VPrim (-3)); None] |}.
Proof.
  apply (encode_decode_roundtrip {| data_type := DtDate32; values := [Some (VPrim (-3)); None] |}).
  - vm_compute. reflexivity.
  - repeat constructor; cbn; discriminate.
Defined.
