(* ===== verification/ColumnCrypto.v ===== *)
(** * Encrypted columns

    Models how a column is encrypted and decrypted row by row:
    [crypto/src/planning/physical/encrypt.rs], [decrypt.rs], [compute_aad.rs],
    [to_binary.rs] and [from_binary.rs], and the computed row identifiers of
    [crypto/src/row_id.rs]. A batch of values is turned into bytes
    ([ArrowCodec]), each value is sealed with a random nonce under associated
    data computed from other columns of its row, and decryption writes all
    plaintexts of the batch into one buffer. *)
From S2P Require Import Prelude Values Sql Crypto ArrowCodec.

(** ** Associated data *)

(** [usize::to_be_bytes] on a 64-bit machine. *)
Definition usize_be (n : nat) : bytes := to_be_bytes 8 (Z.of_nat n).

(** A length-prefixed value. *)
Definition prefixed (v : bytes) : bytes := usize_be (length v) ++ v.

(** [BinaryArray::value]: a NULL slot holds no bytes; out of range panics. *)
Definition value_at (col : BinaryArray) (index : nat) : result bytes :=
  match col !! index with
  | Some v => Ok (default [] v)
  | None => Err (Panic "Trying to access an element out of bounds")
  end.

(** [base_aad]: the displayed name of the column's type. *)
Record ComputeAadImpl := { base_aad : bytes }.

Definition aad_base (me : ComputeAadImpl) (ncols : nat) : bytes :=
  prefixed (base_aad me) ++ to_le_bytes 1 (Z.of_nat ncols).

(** The associated data of one row. *)
Definition aad_row (me : ComputeAadImpl) (columns : list BinaryArray) (index : nat) : result bytes :=
  let? vs := result_mapM (fun col => value_at col index) columns in
  Ok (aad_base me (length columns) ++ flat_map prefixed vs).

(** The columns are given in binary form, after the cast of the callers. *)
Definition evaluate_aad (me : ComputeAadImpl) (num_rows : nat) (columns : list (ColumnarValue bytes)) :
    result (ColumnarValue bytes) :=
  if bool_decide (255 < length columns) then
    Err (ExecError "too many values used for AAD computation")
  else if bool_decide (columns = []) then Ok (CvScalar (Some (aad_base me 0)))
  else
    let columns := (fun c => into_array_of_size c num_rows) <$> columns in
    let? rows := result_mapM (aad_row me columns) (seq 0 num_rows) in
    Ok (CvArray (Some <$> rows)).

(** ** Row identifiers *)

(** The bytes a computed row identifier is derived from. *)
Definition rowid_input (arrays : list BinaryArray) (i : nat) : result bytes :=
  let? vs := result_mapM (fun arr => value_at arr i) arrays in
  Ok (to_le_bytes 1 (wrap_u 8 (Z.of_nat (length arrays))) ++ flat_map prefixed vs).

Definition compute_rowid (identifier_in : bytes -> nat -> bytes) (size_bytes : nat)
    (arrays : list BinaryArray) (num_rows : nat) : result (ColumnarValue bytes) :=
  let? ids := result_mapM (fun i => let? buffer := rowid_input arrays i in
                                    Ok (Some (identifier_in buffer size_bytes)))
                (seq 0 num_rows) in
  Ok (CvArray ids).

(** ** Encryption *)

Section Column.
Context `{Aead}.
(** [tag_size] of the cipher. *)
Variable tag_size : nat.
Variable key : bytes.

(** [random i] is the nonce drawn for row [i]. *)
Fixpoint encrypt_array_from (random : nat -> bytes) (i : nat) (bin_column aad_column : BinaryArray) :
    BinaryArray :=
  match bin_column, aad_column with
  | entry :: bin_column, aad :: aad_column =>
      match entry, aad with
      | Some bytes, Some aad =>
          match encrypt_with_random_nonce key bytes aad (random i) with
          | Ok c => Some c
          | Err _ => None
          end
      | _, _ => None
      end :: encrypt_array_from random (S i) bin_column aad_column
  | _, _ => []
  end.
Definition encrypt_array (random : nat -> bytes) : BinaryArray -> BinaryArray -> BinaryArray :=
  encrypt_array_from random 0.

(** [EncryptExpr::evaluate], from the values of its two children. *)
Definition encrypt_evaluate (random : nat -> bytes) (num_rows : nat) (parent aad : ColumnarValue bytes) :
    result (ColumnarValue bytes) :=
  let aad := into_array_of_size aad num_rows in
  match parent with
  | CvArray array => Ok (CvArray (encrypt_array random array aad))
  | CvScalar scalar =>
      match encrypt_array random [scalar] aad with
      | v :: _ => Ok (CvScalar v)
      | [] => Err (ExecError "index out of bounds")
      end
  end.

(** ** Decryption *)

(** The buffers of [decrypt_array]. *)
Record DecState := {
  buf : bytes;              (* [array], zeroed at first *)
  written_bytes : nat;
  lengths : list nat;       (* [offset_buffer] *)
  valid : list bool         (* [null_offset_buffer] *)
}.

Definition decrypt_step (st : DecState) (row : option bytes * option bytes) : result DecState :=
  match row with
  | (None, _) =>
      Ok {| buf := buf st; written_bytes := written_bytes st;
            lengths := lengths st ++ [0]; valid := valid st ++ [false] |}
  | (Some _, None) => Err (ExecError "null AAD encountered in row")
  | (Some ciphertext, Some aad) =>
      match decrypt_with_nonce_to_slice key (drop (written_bytes st) (buf st)) ciphertext aad with
      | Ok (slice, n) =>
          Ok {| buf := take (written_bytes st) (buf st) ++ slice;
                written_bytes := written_bytes st + n;
                lengths := lengths st ++ [n]; valid := valid st ++ [true] |}
      | Err (Panic m) => Err (Panic m)
      | Err _ => Err (ExecError "Could not decrypt value (corrupted data or bad plan?)!")
      end
  end.

(** [BinaryArray::new]: consecutive slices of the buffer. *)
Fixpoint slices (lengths : list nat) (valid : list bool) (data : bytes) : BinaryArray :=
  match lengths, valid with
  | n :: lengths, b :: valid =>
      (if b then Some (take n data) else None) :: slices lengths valid (drop n data)
  | _, _ => []
  end.

Definition non_null (column : BinaryArray) : nat := length (omap id column).

(** [memory] is [get_buffer_memory_size] of the column. *)
Definition decrypt_array (memory : nat) (column : BinaryArray) (associated_data : ColumnarValue bytes) :
    result BinaryArray :=
  let total_extra_size := non_null column * (NONCE_LEN + tag_size) in
  if bool_decide (memory < total_extra_size) then Err (Panic "attempt to subtract with overflow")
  else
    let? aads := match associated_data with
                 | CvArray arr => Ok arr
                 | CvScalar (Some v) => Ok (replicate (length column) (Some v))
                 | CvScalar None => Err (ExecError "invalid aad type")
                 end in
    let? st := result_foldl decrypt_step
                 {| buf := replicate (memory - total_extra_size) Byte.x00; written_bytes := 0;
                    lengths := []; valid := [] |} (zip column aads) in
    Ok (slices (lengths st) (valid st) (take (written_bytes st) (buf st))).

(** [DecryptUdf::invoke_with_args] on a column. *)
Definition decrypt_invoke_with_args `{ArrowCast} (memory : nat) (column : BinaryArray)
    (aad : ColumnarValue bytes) (output_type : DataType) : result Array :=
  let? column := decrypt_array memory column aad in
  decode_array_from_binary column output_type.
End Column.

(** ** Decryption row by row *)

Section DecryptLemmas.
Context `{Aead}.
Variable tag_size : nat.
Variable key : bytes.

(** The plaintext of one row, NULL for NULL. *)
Inductive row_decrypts : option bytes * option bytes -> option bytes -> Prop :=
  | rd_null aad : row_decrypts (None, aad) None
  | rd_value c aad p rest :
      NONCE_LEN <= length c ->
      open_in_place key (drop (length c - NONCE_LEN) c) aad (take (length c - NONCE_LEN) c)
        = Some (p, rest) ->
      row_decrypts (Some c, Some aad) (Some p).

Definition plain_bytes (l : BinaryArray) : bytes := concat (omap id l).
Lemma non_null_cons v l :
  non_null (v :: l) = (if bool_decide (is_Some v) then 1 else 0) + non_null l.
Proof. by destruct v. Qed.

Definition plain_length (v : option bytes) : nat := length (default [] v).

Lemma plain_bytes_cons v l : plain_bytes (v :: l) = default [] v ++ plain_bytes l.
Proof. by destruct v. Qed.

Lemma decrypt_step_ok st row p :
  row_decrypts row p -> written_bytes st + plain_length p <= length (buf st) ->
  exists st', decrypt_step key st row = Ok st' /\
    lengths st' = lengths st ++ [plain_length p] /\
    valid st' = valid st ++ [bool_decide (is_Some p)] /\
    written_bytes st' = written_bytes st + plain_length p /\
    length (buf st') = length (buf st) /\
    take (written_bytes st') (buf st') = take (written_bytes st) (buf st) ++ default [] p.
Proof.
  intros Hr. destruct st as [b w ls vs]. cbn. destruct Hr as [aad|c aad p rest Hc Ho]; intros Hlen.
  - eexists. split; [done|]. cbn. by rewrite Nat.add_0_r, app_nil_r.
  - unfold plain_length in *. cbn in Hlen |- *. unfold decrypt_with_nonce_to_slice.
    rewrite bool_decide_false by lia. rewrite Ho. rewrite bool_decide_false by (rewrite length_drop; lia).
    eexists. split; [done|]. cbn. repeat split.
    + rewrite !length_app, length_take, !length_drop. lia.
    + rewrite take_app, length_take, (Nat.min_l w) by lia.
      replace (w + length p - w) with (length p) by lia. rewrite take_app_length.
      by rewrite take_take, Nat.min_r by lia.
Qed.

Lemma decrypt_fold_ok rows ps :
  Forall2 row_decrypts rows ps -> forall st,
  written_bytes st + length (plain_bytes ps) <= length (buf st) ->
  exists st', result_foldl (decrypt_step key) st rows = Ok st' /\
    lengths st' = lengths st ++ (plain_length <$> ps) /\
    valid st' = valid st ++ ((fun p => bool_decide (is_Some p)) <$> ps) /\
    take (written_bytes st') (buf st') = take (written_bytes st) (buf st) ++ plain_bytes ps.
Proof.
  induction 1 as [|row p rows ps Hr _ IH]; intros st Hlen.
  - exists st. cbn. by rewrite !app_nil_r.
  - rewrite plain_bytes_cons, length_app in Hlen. change (length (default [] p)) with (plain_length p) in Hlen.
    destruct (decrypt_step_ok st row p Hr) as (st1 & Hs & Hl & Hv & Hw & Hb & Ht); [lia|].
    destruct (IH st1) as (st2 & Hf & Hl2 & Hv2 & Ht2); [lia|].
    exists st2. cbn [result_foldl]. rewrite Hs. cbn [result_bind].
    by rewrite Hf, Hl2, Hv2, Ht2, Hl, Hv, Ht, plain_bytes_cons, <- !app_assoc.
Qed.

Lemma slices_plain ps :
  slices (plain_length <$> ps) ((fun p => bool_decide (is_Some p)) <$> ps) (plain_bytes ps) = ps.
Proof.
  induction ps as [|p ps IH]; [done|]. rewrite plain_bytes_cons. cbn [fmap list_fmap slices].
  change (plain_length p) with (length (default [] p)).
  rewrite take_app_length, drop_app_length, IH. f_equal.
  by destruct p.
Qed.

(** Decrypting a batch into one buffer is decrypting it row by row. *)
Lemma decrypt_array_rows memory column aads ps :
  Forall2 row_decrypts (zip column aads) ps ->
  non_null column * (NONCE_LEN + tag_size) + length (plain_bytes ps) <= memory ->
  decrypt_array tag_size key memory column (CvArray aads) = Ok ps.
Proof.
  intros HF Hm. unfold decrypt_array. rewrite bool_decide_false by lia. cbn [result_bind].
  destruct (decrypt_fold_ok _ ps HF
              {| buf := replicate (memory - non_null column * (NONCE_LEN + tag_size)) Byte.x00;
                 written_bytes := 0; lengths := []; valid := [] |}) as (st & -> & Hl & Hv & Ht).
  - cbn [buf written_bytes]. rewrite length_replicate. lia.
  - cbn [result_bind]. rewrite Ht, Hl, Hv. cbn. by rewrite slices_plain.
Qed.
End DecryptLemmas.

(** ** Encryption then decryption *)

(** A sealed message is its plaintext followed by a tag of the cipher's size. *)
Class AeadTag `{Aead} (tag_size : nat) := {
  seal_length key nonce aad p c :
    seal_in_place_append_tag key nonce aad p = Some c -> length c = length p + tag_size
}.

Section RoundTrip.
Context `{AeadLaws} {tag_size : nat} `{!AeadTag tag_size}.
Variable key : bytes.

Lemma encrypt_random_row b aad nonce :
  length nonce = NONCE_LEN ->
  exists c, encrypt_with_random_nonce key b aad nonce = Ok c /\
            length c = length b + tag_size + NONCE_LEN /\
            row_decrypts key (Some c, Some aad) (Some b).
Proof.
  intros Hn. unfold encrypt_with_random_nonce.
  destruct (seal_total key nonce aad b) as [c Hc]. rewrite Hc.
  pose proof (seal_length key nonce aad b c Hc) as Hl.
  destruct (open_seal _ _ _ _ _ Hc) as [rest Ho].
  eexists. split; [done|]. rewrite length_app, Hn, Hl. split; [lia|].
  econstructor; [rewrite length_app; lia|]. rewrite length_app, Hn, Nat.add_sub.
  rewrite drop_app_length, take_app_length. done.
Qed.

Lemma encrypt_array_rows random b aads :
  (forall i, length (random i) = NONCE_LEN) -> length aads = length b ->
  Forall (fun aad => is_Some aad) aads -> forall i,
  Forall2 (row_decrypts key) (zip (encrypt_array_from key random i b aads) aads) b /\
  non_null (encrypt_array_from key random i b aads) = non_null b /\
  length (plain_bytes (encrypt_array_from key random i b aads))
    = non_null b * (NONCE_LEN + tag_size) + length (plain_bytes b).
Proof.
  intros Hn Hl Ha. revert b Hl. induction Ha as [|aad aads [a ->] _ IH]; intros [|v b] [=] i.
  { repeat split; constructor. }
  destruct (IH b ltac:(done) (S i)) as (HF & Hnn & Hlen).
  cbn [encrypt_array_from]. destruct v as [v|].
  - destruct (encrypt_random_row v a (random i) (Hn i)) as (c & -> & Hc & Hr).
    cbn [zip zip_with]. rewrite !plain_bytes_cons, !length_app, !non_null_cons.
    cbn [default from_option id bool_decide]. rewrite !bool_decide_true by eauto.
    rewrite Hnn, Hlen, Hc. repeat split; [by constructor|lia].
  - cbn [zip zip_with]. rewrite !plain_bytes_cons, !non_null_cons.
    rewrite bool_decide_false by (by intros []). cbn [default from_option app Nat.add].
    rewrite Hnn, Hlen. repeat split. constructor; [constructor|done].
Qed.

(** C9: A column that is encrypted and decrypted with the same key and the same
    associated data is the column again, NULLs included: each value is turned
    into bytes, sealed with a fresh nonce, opened into the shared buffer of the
    batch and read back with its type. [memory] is any capacity of at least the
    bytes of the encrypted column. *)
Theorem column_roundtrip `{ArrowCastLaws} (a : Array) (random : nat -> bytes)
    (aads : BinaryArray) (memory : nat) :
  encodable (data_type a) = true -> array_ok a ->
  (forall i, length (random i) = NONCE_LEN) ->
  length aads = length (values a) -> Forall (fun aad => is_Some aad) aads ->
  exists b,
    to_binary_evaluate a = Ok b /\
    (length (plain_bytes (encrypt_array key random b aads)) <= memory ->
     decrypt_invoke_with_args tag_size key memory (encrypt_array key random b aads) (CvArray aads) (data_type a)
     = Ok a).
Proof.
  intros He Ha Hn Hl Hs. destruct (encode_decode a He Ha) as (b & Hb & Hlb & Hd).
  exists b. split; [by rewrite to_binary_encode|]. intros Hm.
  destruct (encrypt_array_rows random b aads Hn ltac:(congruence) Hs 0) as (HF & Hnn & Hlen).
  unfold decrypt_invoke_with_args. rewrite (decrypt_array_rows tag_size key memory _ aads b); [done|done|].
  unfold encrypt_array in *. rewrite Hnn. lia.
Qed.
End RoundTrip.

(** ** Associated data determine the row they were computed from *)

(** Lengths that fit a [usize]. *)
Definition sized (v : bytes) : Prop := fits_u 64 (Z.of_nat (length v)).

Lemma prefixed_inj v1 v2 r1 r2 :
  sized v1 -> sized v2 -> prefixed v1 ++ r1 = prefixed v2 ++ r2 -> v1 = v2 /\ r1 = r2.
Proof.
  intros H1 H2 E. unfold prefixed, usize_be in E. rewrite <- !app_assoc in E.
  apply app_inj_len in E as [El E]; [|by rewrite !length_to_be_bytes].
  apply to_be_bytes_inj in El; [|done|done]. apply app_inj_len in E; [done|lia].
Qed.

Lemma flat_prefixed_inj vs1 vs2 :
  length vs1 = length vs2 -> Forall sized vs1 -> Forall sized vs2 ->
  flat_map prefixed vs1 = flat_map prefixed vs2 -> vs1 = vs2.
Proof.
  intros Hl H1. revert vs2 Hl. induction H1 as [|v vs1 Hv _ IH]; intros [|w vs2] [=] H2 E; [done|].
  apply Forall_cons in H2 as [Hw H2]. cbn in E. apply prefixed_inj in E as [-> E]; [|done|done].
  f_equal. by apply IH.
Qed.

(** A count of at most 255 in one byte, followed by that many values. *)
Lemma counted_inj vs1 vs2 :
  length vs1 <= 255 -> length vs2 <= 255 -> Forall sized vs1 -> Forall sized vs2 ->
  to_le_bytes 1 (Z.of_nat (length vs1)) ++ flat_map prefixed vs1
    = to_le_bytes 1 (Z.of_nat (length vs2)) ++ flat_map prefixed vs2 -> vs1 = vs2.
Proof.
  intros Hl1 Hl2 H1 H2 E. apply app_inj_len in E as [En E]; [|by rewrite !length_to_le_bytes].
  apply to_le_bytes_inj in En; [|unfold fits_u; lia|unfold fits_u; lia].
  apply flat_prefixed_inj; [lia|done..].
Qed.

(** C31: Two rows with the same associated data have columns of the same type and
    the same values in the columns the data is computed from, value by value
    and in the same number: no shift of bytes between neighbouring columns
    produces the same associated data. *)
Theorem aad_injective (me1 me2 : ComputeAadImpl) (cols1 cols2 : list BinaryArray) i j aad vs1 vs2 :
  length cols1 <= 255 -> length cols2 <= 255 ->
  sized (base_aad me1) -> sized (base_aad me2) ->
  result_mapM (fun col => value_at col i) cols1 = Ok vs1 -> Forall sized vs1 ->
  result_mapM (fun col => value_at col j) cols2 = Ok vs2 -> Forall sized vs2 ->
  aad_row me1 cols1 i = Ok aad -> aad_row me2 cols2 j = Ok aad ->
  base_aad me1 = base_aad me2 /\ vs1 = vs2.
Proof.
  intros Hc1 Hc2 Hb1 Hb2 Hv1 Hs1 Hv2 Hs2 H1 H2. unfold aad_row in *.
  rewrite Hv1 in H1. rewrite Hv2, <- H1 in H2. cbn [result_bind] in *. clear H1.
  assert (forall x y : bytes, Ok x = Ok y -> x = y) as Hok by congruence. apply Hok in H2.
  unfold aad_base in H2. rewrite <- !app_assoc in H2.
  apply prefixed_inj in H2 as [-> E]; [|done|done]. split; [done|]. symmetry. apply result_mapM_length in Hv1, Hv2.
  rewrite <- Hv1, <- Hv2 in E. apply counted_inj; [lia|lia|done..].
Qed.

Lemma aad_injective_witness :
  base_aad {| base_aad := [Byte.x55] |} = base_aad {| base_aad := [Byte.x55] |} /\
  [[Byte.x01; Byte.x02]; []] = [[Byte.x01; Byte.x02]; []].
Proof.
  apply (aad_injective {| base_aad := [Byte.x55] |} {| base_aad := [Byte.x55] |}
           [[Some [Byte.x01; Byte.x02]]; [None]] [[Some [Byte.x01; Byte.x02]]; [Some []]] 0 0
           (default [] (match aad_row {| base_aad := [Byte.x55] |}
                                [[Some [Byte.x01; Byte.x02]]; [None]] 0 with Ok b => Some b | _ => None end)));
    try reflexivity; try (cbn; lia); try (unfold sized, fits_u; cbn; lia);
    repeat constructor; cbn; discriminate.
Defined.

(** The bytes a computed row identifier is derived from determine the values of
    the primary key columns. *)
Lemma rowid_input_injective (arrays1 arrays2 : list BinaryArray) i j buffer vs1 vs2 :
  length arrays1 <= 255 -> length arrays2 <= 255 ->
  result_mapM (fun col => value_at col i) arrays1 = Ok vs1 -> Forall sized vs1 ->
  result_mapM (fun col => value_at col j) arrays2 = Ok vs2 -> Forall sized vs2 ->
  rowid_input arrays1 i = Ok buffer -> rowid_input arrays2 j = Ok buffer -> vs1 = vs2.
Proof.
  intros Hc1 Hc2 Hv1 Hs1 Hv2 Hs2 H1 H2. unfold rowid_input in *.
  rewrite Hv1 in H1. rewrite Hv2, <- H1 in H2. cbn [result_bind] in *. clear H1.
  assert (forall x y : bytes, Ok x = Ok y -> x = y) as Hok by congruence. apply Hok in H2.
  apply result_mapM_length in Hv1, Hv2. rewrite <- Hv1, <- Hv2 in H2.
  rewrite !wrap_u_id in H2 by (unfold fits_u; lia). symmetry. apply counted_inj; [lia|lia|done..].
Qed.

(** ** A concrete column *)

#[export] Instance demo_aead_tag : @AeadTag demo_aead 16.
Proof. split. intros key nonce aad p c [= <-]. by rewrite length_app. Qed.

Lemma column_roundtrip_witness :
  let a := {| data_type := DtDate32; values := [Some (VPrim (-3)); None] |} in
  exists b,
    to_binary_evaluate a = Ok b /\
    (length (plain_bytes (@encrypt_array demo_aead [] (fun _ => replicate 12 Byte.x00) b
                            [Some []; Some [Byte.x01]])) <= 100 ->
     @decrypt_invoke_with_args demo_aead 16 [] demo_cast 100
       (@encrypt_array demo_aead [] (fun _ => replicate 12 Byte.x00) b [Some []; Some [Byte.x01]])
       (CvArray [Some []; Some [Byte.x01]]) DtDate32 = Ok a).
Proof.
  apply (@column_roundtrip demo_aead demo_aead_laws 16 demo_aead_tag [] demo_cast demo_cast_laws
           {| data_type := DtDate32; values := [Some (VPrim (-3)); None] |}
           (fun _ => replicate 12 Byte.x00) [Some []; Some [Byte.x01]] 100).
  - vm_compute. reflexivity.
  - repeat constructor; cbn; discriminate.
  - reflexivity.
  - reflexivity.
  - repeat constructor; eauto.
Defined.
