(* ===== verification/BlindIndex.v ===== *)
(** * Blind index

    Models [backends/mysql/src/metadata/blind_index.rs]. A blind index stores,
    beside an encrypted column, a short keyed hash of its value; equality filters
    on the column are forwarded to the server as filters on the hash. The text of
    a scalar ([Display] of DataFusion's [ScalarValue]) is a parameter. *)
From S2P Require Import Prelude Values Filters Sql Crypto ArrowCodec.
From Stdlib Require Import SpecFloat.
From stdpp Require Import pretty.

Record BlindIndex := {
  name_ : string;
  indexed_column : string;
  size_bits : nat;
  index_column_name : string
}.

Definition blind_index_new (name column : string) (size_bits : nat) : result BlindIndex :=
  let? index_column_name :=
    string_truncate 32 ("prox_blid_" +:+ name +:+ "_" +:+ pretty size_bits) in
  Ok {| name_ := name; indexed_column := column; size_bits := size_bits;
        index_column_name := index_column_name |}.

Definition identifier_context (ix : BlindIndex) (table : TableRef) : IdentifierContext :=
  NamedIndexInTable table (name_ ix).

(** [1u32 << size_bits]; the release profile takes the shift modulo 32. *)
Definition possible_values (ix : BlindIndex) : Z :=
  wrap_u 32 (Z.shiftl 1 (Z.of_nat (size_bits ix) mod 32)).

Definition is_indexable_expr_supported {E} `{PrecisionOps} (ix : BlindIndex)
    (logical : IndexableFilterExpr E) (table_rows : TableStatistics) : option Precision :=
  match logical with
  | Eq c OpEq _ | InList (CColumn c) _ =>
      if bool_decide (name (column c) = indexed_column ix) then
        match column_selectivity table_rows (index_column_name ix) with
        | Some selectivity => Some (with_estimated_selectivity (num_rows table_rows) selectivity)
        | None =>
            Some (with_estimated_selectivity (num_rows table_rows)
                    (f64_div (f64_of_Z 1) (f64_of_Z (possible_values ix))))
        end
      else None
  | _ => None
  end.

Definition blind_support_options {E} `{PrecisionOps} (ix : BlindIndex) : SupportOptions E := {|
  supports_not := false; supports_or := true; is_supported := is_indexable_expr_supported ix
|}.

Section Query.
Context `{Hkdf}.
Variable display : ScalarValue -> string.
Variable master_key : bytes.
Variable ix : BlindIndex.
Variable table_reference : TableRef.

Definition scalar_to_bytes (scalar_value : ScalarValue) : bytes := string_bytes (display scalar_value).

(** The identifier stored for, and compared with, a byte string. *)
Definition blind_identifier (data : bytes) : string :=
  get_opaque_stable_identifier_hex
    (get_identifier_generator master_key (identifier_context ix table_reference))
    data (size_bits ix).

Definition value_to_blind_value (value : ScalarValue) : SqlExpr :=
  Value (SingleQuotedString (blind_identifier (scalar_to_bytes value))).

Definition index_column : SqlExpr :=
  CompoundIdentifier [table table_reference; index_column_name ix].

Fixpoint indexable_query_to_expr {E} (filter : IndexableFilterExpr E) : result SqlExpr :=
  match filter with
  | And l r =>
      let? a := indexable_query_to_expr l in
      let? b := indexable_query_to_expr r in
      Ok (sql_and a b)
  | Or l r =>
      let? a := indexable_query_to_expr l in
      let? b := indexable_query_to_expr r in
      Ok (sql_or a b)
  | InList (CColumn col) values =>
      if bool_decide (name (column col) <> indexed_column ix) then
        Err (PlanError "unsupported column for blind_index")
      else Ok (SqlInList index_column (value_to_blind_value <$> values))
  | Eq col OpEq value =>
      if bool_decide (name (column col) <> indexed_column ix) then
        Err (PlanError "unsupported column for blind_index")
      else Ok (BinaryOp index_column BinEq (value_to_blind_value value))
  | _ => Err (PlanError "unsupported filter for blind_index")
  end.

(** [BlindIndexExpr::for_array]: the index column of an inserted batch, from the
    source column in binary form ([ToBinaryExpr]). *)
Definition for_array (arr : BinaryArray) : list (option string) :=
  map (option_map blind_identifier) arr.

(** [insert]: the columns added to a batch with the given source column; none
    when the batch does not have the indexed column. *)
Definition blind_insert `{ArrowCast} (source : option Array) : result (list (string * list (option string))) :=
  match source with
  | None => Ok []
  | Some a =>
      let? bin := to_binary_evaluate a in
      Ok [(index_column_name ix, for_array bin)]
  end.

(** ** Soundness *)

(** The scalars compared with the indexed column in a filter. *)
Fixpoint blind_scalars {E} (f : IndexableFilterExpr E) : list ScalarValue :=
  match f with
  | And a b | Or a b => blind_scalars a ++ blind_scalars b
  | Eq _ _ v => [v]
  | InList _ vs => vs
  | _ => []
  end.

Section Sound.
Context {E row : Type} `{!FilterSem E row}.

(** The server holds the identifier of the bytes [b] of the indexed column of
    the row, and a scalar of the filter that equals the column has these bytes. *)
Definition blind_stored (r : row) (srv : ServerRow) (scalars : list ScalarValue) : Prop :=
  exists b, srv (index_column_name ix) = Some (CStr (blind_identifier b)) /\
    forall c v, name (column c) = indexed_column ix -> v ∈ scalars ->
      sem_cmp r c v = Some Datatypes.Eq -> scalar_to_bytes v = b.

Lemma blind_stored_incl (r : row) srv vs ws :
  blind_stored r srv ws -> (forall v, v ∈ vs -> v ∈ ws) -> blind_stored r srv vs.
Proof. intros (b & Hs & Hb) Hi. exists b. split; [done|]. intros c v Hc Hv. apply Hb; auto. Qed.

Lemma op_holds_eq c : op_holds OpEq c = true -> c = Datatypes.Eq.
Proof. by destruct c. Qed.

Lemma eval_cmp_eq (r : row) c v :
  eval_cmp r c OpEq v = Some true -> sem_cmp r c v = Some Datatypes.Eq.
Proof.
  unfold eval_cmp. destruct (sem_cmp r c v) as [o|]; [|done]. cbn. intros [= Ho].
  by rewrite (op_holds_eq o Ho).
Qed.

Lemma blind_cell (r : row) srv scalars c v :
  blind_stored r srv scalars -> name (column c) = indexed_column ix -> v ∈ scalars ->
  eval_cmp r c OpEq v = Some true ->
  cell_compare (operand srv index_column) (operand srv (value_to_blind_value v)) = Some Datatypes.Eq.
Proof.
  intros (b & Hs & Hb) Hc Hv He. cbn. rewrite Hs. cbn.
  rewrite (Hb c v Hc Hv (eval_cmp_eq r c v He)). by rewrite string_compare_refl.
Qed.

Lemma foldr_kor_true {A} (g : A -> tv) l :
  foldr (fun v acc => kor (g v) acc) (Some false) l = Some true <-> exists v, v ∈ l /\ g v = Some true.
Proof.
  induction l as [|a l IH]; cbn.
  - split; [done|]. intros (v & Hv & _). by apply not_elem_of_nil in Hv.
  - rewrite kor_true_iff, IH. setoid_rewrite elem_of_cons. naive_solver.
Qed.

Lemma blind_query_superset (r : row) srv (f : IndexableFilterExpr E) sql :
  blind_stored r srv (blind_scalars f) -> indexable_query_to_expr f = Ok sql ->
  eval r f = Some true -> eval_sql srv sql = Some true.
Proof.
  revert sql. induction f as [a IHa b IHb|a IHa b IHb| |c op v| |[c|] vs| | |];
    intros sql Hst Hq Hev; cbn [indexable_query_to_expr] in Hq; try discriminate Hq; cbn [eval] in Hev.
  - inv_ok. apply kand_true_iff in Hev as [Ha Hb]. cbn. rewrite kand_true_iff. split.
    + eapply IHa; eauto. eapply blind_stored_incl; [done|]. intros w Hw. apply elem_of_app. by left.
    + eapply IHb; eauto. eapply blind_stored_incl; [done|]. intros w Hw. apply elem_of_app. by right.
  - inv_ok. cbn. rewrite kor_true_iff. apply kor_true_iff in Hev as [Ha|Hb]; [left|right].
    + eapply IHa; eauto. eapply blind_stored_incl; [done|]. intros w Hw. apply elem_of_app. by left.
    + eapply IHb; eauto. eapply blind_stored_incl; [done|]. intros w Hw. apply elem_of_app. by right.
  - destruct op; try discriminate Hq. case_bool_decide as Hc; [discriminate|]. inv_ok.
    cbn [eval_sql].
    rewrite (blind_cell r srv _ c v Hst Hc ltac:(left) Hev). done.
  - case_bool_decide as Hc; [discriminate|]. inv_ok.
    apply foldr_kor_true in Hev as (v & Hv & He). cbn [eval_sql].
    rewrite foldr_kor_true. exists (value_to_blind_value v).
    split; [by apply list_elem_of_fmap; eauto|]. unfold cell_eq.
    by rewrite (blind_cell r srv _ c v Hst Hc Hv He).
Qed.
End Sound.
End Query.

Lemma blind_query_total {E : Type} `{PrecisionOps} `{Hkdf} display master_key
    (ix : BlindIndex) (table : TableRef) (stats : TableStatistics) (f : IndexableFilterExpr E) :
  fully_supported (blind_support_options ix) stats f ->
  exists sql, indexable_query_to_expr display master_key ix table f = Ok sql.
Proof.
  induction 1 as [f p Hp|a b _ IHa _ IHb|a b _ _ IHa _ IHb|a Hn]; [| | |done].
  - destruct f as [| | |c op v| |[c|] vs| | |]; try done; cbn in Hp |- *.
    + destruct op; try done. case_bool_decide; [|done]. rewrite bool_decide_false by naive_solver. eauto.
    + case_bool_decide; [|done]. rewrite bool_decide_false by naive_solver. eauto.
  - destruct IHa as [x Hx], IHb as [y Hy]. cbn. rewrite Hx, Hy. cbn. eauto.
  - destruct IHa as [x Hx], IHb as [y Hy]. cbn. rewrite Hx, Hy. cbn. eauto.
Qed.

(** ** Properties of the blind index *)

(** The part of a filter handed to a blind index is always answered, and the
    condition sent to the server selects every row the filter selects, whenever
    the stored identifier was computed from the bytes the scalars of the filter
    are turned into. *)
Theorem blind_index_answers {E row : Type} `{!FilterSem E row} `{PrecisionOps} `{Hkdf}
    (display : ScalarValue -> string) (master_key : bytes) (ix : BlindIndex)
    (table : TableRef) (stats : TableStatistics) (f g : IndexableFilterExpr E) :
  supp_of (split_into_supported_unsupported (blind_support_options ix) stats f) = Some g ->
  exists sql,
    indexable_query_to_expr display master_key ix table g = Ok sql /\
    forall (r : row) (s : ServerRow),
      blind_stored display master_key ix table r s (blind_scalars g) ->
      eval r g = Some true -> eval_sql s sql = Some true.
Proof.
  intros Hg. apply split_supported_gen in Hg.
  destruct (blind_query_total display master_key ix table stats g Hg) as [sql Hq].
  exists sql. split; [done|]. intros r s Hst Hev. by eapply blind_query_superset.
Qed.

(** A keyed hash that returns its input, padded; integers displayed in decimal. *)
Definition demo_kdf : Hkdf := {| hkdf_expand _ _ info n := take n (info ++ replicate n Byte.x00) |}.
Definition demo_display (v : ScalarValue) : string :=
  match v with
  | SUtf8 (Some s) => s
  | SInt32 (Some z) => pretty z
  | _ => "NULL"
  end.
Definition demo_blind : BlindIndex := {|
  name_ := "i"; indexed_column := "a"; size_bits := 32;
  index_column_name := "prox_blid_i_32"
|}.
Definition demo_table_ref : TableRef := {| catalog := "c"; schema := "s"; table := "t" |}.

Lemma blind_index_answers_witness :
  exists sql,
    @indexable_query_to_expr demo_kdf demo_display [] demo_blind demo_table_ref
      unit (on_a OpEq 5) = Ok sql /\
    forall (r : Z * Z) (s : ServerRow),
      @blind_stored demo_kdf demo_display [] demo_blind demo_table_ref unit (Z * Z) demo_sem r s
        (blind_scalars (E := unit) (on_a OpEq 5)) ->
      eval (E := unit) r (on_a OpEq 5) = Some true -> eval_sql s sql = Some true.
Proof.
  apply (@blind_index_answers unit (Z * Z) demo_sem demo_precision demo_kdf demo_display [] demo_blind
           demo_table_ref demo_stats (And (on_a OpEq 5) (on_b OpEq 1))).
  vm_compute. reflexivity.
Defined.

(** On an integer column the index answers with no row: insertion hashes the
    bytes of the integer, the query hashes its decimal text. A row holding 5 is
    inserted with one identifier, and [a = 5] asks for another one. *)
Theorem blind_integer_filter_drops_rows :
  let a := {| data_type := DtInt32; values := [Some (VPrim 5)] |} in
  let f := on_a OpEq 5 : IndexableFilterExpr unit in
  exists id sql,
    @blind_insert demo_kdf [] demo_blind demo_table_ref demo_cast (Some a)
      = Ok [("prox_blid_i_32", [Some id])] /\
    @indexable_query_to_expr demo_kdf demo_display [] demo_blind demo_table_ref unit f = Ok sql /\
    eval (5%Z, 0%Z) f = Some true /\
    eval_sql (fun c => if bool_decide (c = "prox_blid_i_32") then Some (CStr id) else None) sql
      = Some false.
Proof. eexists _, _. repeat split; vm_compute; reflexivity. Qed.

