(* ===== verification/Resolver.v ===== *)
(** * Choosing the indices that answer a query

    Models [backends/mysql/src/filtering/resolver.rs] and the translation of
    filters back to SQL ([logical.rs], [indexable_filter.rs]). The resolver
    forwards to the server what it can evaluate itself, then hands the rest to
    the indices of the table in turn. The indices are known by an interface: the
    record [EncryptedIndex] of the operations the resolver calls, and the class
    [IndexContract] of what it relies on. *)
From S2P Require Import Prelude Values Filters Sql Logical Crypto.
From Stdlib Require Import SpecFloat.

(** ** Filters as SQL *)

(** DataFusion's unparser, for MySQL; [None] where it reports an error. *)
Class Unparser := {
  scalar_to_sql : ScalarValue -> option SqlExpr;
  arrow_dtype_to_ast_dtype : DataType -> option string;
  expr_to_sql : Expr -> option SqlExpr
}.

Definition unwrap_some {A} (o : option A) : result A :=
  ok_or o (Panic "called unwrap on an Err value").

Section ToSql.
Context `{Unparser}.

Definition column_to_ast (c : ColumnWithCast) : result SqlExpr :=
  let base := name (column c) in
  let base :=
    match relation (column c) with
    | Some (_, table) => CompoundIdentifier [table; base]
    | None => Identifier base
    end in
  match cast_to c with
  | Some cast =>
      let? dt := unwrap_some (arrow_dtype_to_ast_dtype cast) in
      Ok (SqlCast base dt (or_null c))
  | None => Ok base
  end.

Definition column_or_tuple_to_ast (c : ColumnOrTuple) : result SqlExpr :=
  match c with
  | CColumn v => column_to_ast v
  | CTuple v => let? values_in_tuple := result_mapM column_to_ast v in Ok (SqlTuple values_in_tuple)
  end.

Definition scalar_to_ast (v : ScalarValue) : result SqlExpr := unwrap_some (scalar_to_sql v).

(** [From<IndexableLogicalExpr> for ast::Expr]. *)
Fixpoint logical_to_ast (f : IndexableFilterExpr Expr) : result SqlExpr :=
  match f with
  | And l r => let? a := logical_to_ast l in let? b := logical_to_ast r in Ok (sql_and a b)
  | Or l r => let? a := logical_to_ast l in let? b := logical_to_ast r in Ok (sql_or a b)
  | Not e => let? a := logical_to_ast e in Ok (sql_not a)
  | Eq c op v =>
      let? c := column_to_ast c in
      let? v := scalar_to_ast v in
      Ok (binop c v (binary_operator_from op))
  | Between c v1 v2 =>
      let? c := column_to_ast c in
      let? low := scalar_to_ast v1 in
      let? high := scalar_to_ast v2 in
      Ok (SqlBetween c low high)
  | InList c v =>
      let? list := result_mapM scalar_to_ast v in
      let? c := column_or_tuple_to_ast c in
      Ok (SqlInList c list)
  | KwSearchLike c v => let? c := column_to_ast c in Ok (SqlLike c (Value (SingleQuotedString v)))
  | KwMatch _ _ => Err (Panic "not implemented: kw_match")
  | Other e => unwrap_some (expr_to_sql e)
  end.
End ToSql.

(** ** Interfaces *)

(** [D] is a filter that is computed when the query runs ([DynamicFilter]). *)
Inductive IndexQueryStrategy (D : Type) := Fixed (e : SqlExpr) | Dynamic (d : D).
Arguments Fixed {D} e.
Arguments Dynamic {D} d.

(** The operations of the trait [EncryptedIndex] that answer queries; [P] is the
    type of physical expressions. *)
Record EncryptedIndex (P D : Type) := {
  logical_support_options : SupportOptions Expr;
  logical_query : IndexableFilterExpr Expr -> result (IndexQueryStrategy D);
  physical_support_options : option (SupportOptions P);
  physical_query : IndexableFilterExpr P -> result (IndexQueryStrategy D)
}.
Arguments logical_support_options {P D}.
Arguments logical_query {P D}.
Arguments physical_support_options {P D}.
Arguments physical_query {P D}.

(** [EncryptedTableMeta]: the encrypted columns and the indices of a table. *)
Record EncryptedTableMeta (P D : Type) := {
  encrypted_columns : list string;
  indices : list (EncryptedIndex P D)
}.
Arguments encrypted_columns {P D}.
Arguments indices {P D}.

Definition is_column_encrypted {P D} (m : EncryptedTableMeta P D) (column_name : string) : bool :=
  bool_decide (column_name ∈ encrypted_columns m).

Record ResolveIndexResult (D : Type) := {
  fully_supported_filters : list nat;
  forwarded_static : list SqlExpr;
  forwarded_dynamic : list D;
  index_selectivity : Precision
}.
Arguments fully_supported_filters {D}.
Arguments forwarded_static {D}.
Arguments forwarded_dynamic {D}.
Arguments index_selectivity {D}.

Inductive TableProviderFilterPushDown := Unsupported | InexactPushDown | ExactPushDown.

(** ** The resolver *)

Section Resolver.
Context {P D : Type} `{PrecisionOps} `{Unparser}.
Variable table_ref : TableRef.
Variable table_metadata : EncryptedTableMeta P D.
Variable cast_scalar : ScalarValue -> DataType -> option ScalarValue.
(** [get_table_statistics]. *)
Variable stats : TableStatistics.

Definition f64_02 : spec_float := f64_div (f64_of_Z 2) (f64_of_Z 10).

(** The column exists in this table and is not encrypted. *)
Definition can_fw_column (c : ColumnWithCast) : bool :=
  let is_same_table :=
    match relation (column c) with
    | None => true
    | Some (sch, tbl) =>
        bool_decide (tbl = table table_ref)
        && match sch with None => true | Some sch => bool_decide (sch = schema table_ref) end
    end in
  is_same_table && negb (is_column_encrypted table_metadata (name (column c))).

Definition columns_with_num (f : IndexableFilterExpr Expr) : option (list (ColumnWithCast * Precision)) :=
  match f with
  | Eq c op _ => Some [(c, if bool_decide (op = OpEq) then Exact 1 else Absent)]
  | InList (CColumn c) vs => Some [(c, Exact (Z.of_nat (length vs)))]
  | KwSearchLike c _ => Some [(c, Absent)]
  | KwMatch columns _ => Some ((fun c => (cwc_column c, Absent)) <$> columns)
  | InList (CTuple columns) vs => Some ((fun c => (c, Exact (Z.of_nat (length vs)))) <$> columns)
  | Other e => Some ((fun c => (cwc_column c, Absent)) <$> remove_dups (column_refs e))
  | _ => None
  end.

(** One step of the fold of [can_forward_exact_logical]. *)
Definition can_fw_step (statistics : TableStatistics) (acc : bool * Precision)
    (col : ColumnWithCast * Precision) : bool * Precision :=
  let '(can_fw, num_rows) := acc in
  let '(column_, selectivity_multiplier) := col in
  if negb can_fw then (false, num_rows)
  else if negb (can_fw_column column_) then (false, num_rows)
  else
    match precision_get_value selectivity_multiplier with
    | None => (true, with_estimated_selectivity num_rows f64_02)
    | Some multiplier =>
        match column_selectivity statistics (name (column column_)) with
        | None => (true, with_estimated_selectivity num_rows f64_02)
        | Some column_selectivity =>
            (true, with_estimated_selectivity num_rows
                     (f64_mul (f64_of_Z multiplier) column_selectivity))
        end
    end.

Definition can_forward_exact_logical (logical_expr : IndexableFilterExpr Expr)
    (statistics : TableStatistics) : option Precision :=
  match columns_with_num logical_expr with
  | None => None
  | Some cols =>
      let '(can_fw, n_rows) := foldl (can_fw_step statistics) (true, num_rows statistics) cols in
      if can_fw then Some n_rows else None
  end.

Definition table_logical_options : SupportOptions Expr := {|
  supports_not := true; supports_or := true; is_supported := can_forward_exact_logical
|}.

Definition physical_columns (f : IndexableFilterExpr P) : option (list ColumnWithCast) :=
  match f with
  | Eq c _ _ | InList (CColumn c) _ | KwSearchLike c _ => Some [c]
  | KwMatch columns _ => Some (cwc_column <$> columns)
  | InList (CTuple columns) _ => Some columns
  | _ => None
  end.

Definition can_forward_exact_physical (f : IndexableFilterExpr P) (_ : TableStatistics) :
    option Precision :=
  match physical_columns f with
  | None => None
  | Some columns => if forallb can_fw_column columns then Some Absent else None
  end.

Definition table_physical_options : SupportOptions P := {|
  supports_not := true; supports_or := true; is_supported := can_forward_exact_physical
|}.

(** The loop over the indices of [filter_supported_for_expr]. *)
Fixpoint some_index_supports (l : list (EncryptedIndex P D)) (unsupported : option (IndexableFilterExpr Expr)) :
    TableProviderFilterPushDown :=
  match l, unsupported with
  | [], _ | _, None => Unsupported
  | index :: l, Some unsupp =>
      let '(supported, unsupp, _) :=
        split_into_supported_unsupported (logical_support_options index) stats unsupp in
      match supported with
      | Some _ => InexactPushDown
      | None => some_index_supports l unsupp
      end
  end.

Definition filter_supported_for_expr (expr : Expr) : result TableProviderFilterPushDown :=
  let? tree := from_logical cast_scalar expr in
  let '(supp, unsupported, _) := split_into_supported_unsupported table_logical_options stats tree in
  match unsupported with
  | None => Ok ExactPushDown
  | Some _ =>
      match supp with
      | Some _ => Ok InexactPushDown
      | None => Ok (some_index_supports (indices table_metadata) unsupported)
      end
  end.

(** What the loop over the indices has gathered. *)
Record Gathered := {
  g_static : list SqlExpr;
  g_dynamic : list D;
  g_selectivity : Precision
}.

Definition gather (g : Gathered) (selectivity : Precision) (q : IndexQueryStrategy D) : Gathered :=
  let sel := precision_min (g_selectivity g) selectivity in
  match q with
  | Fixed expr => {| g_static := g_static g ++ [expr]; g_dynamic := g_dynamic g; g_selectivity := sel |}
  | Dynamic d => {| g_static := g_static g; g_dynamic := g_dynamic g ++ [d]; g_selectivity := sel |}
  end.

Fixpoint query_indices (l : list (EncryptedIndex P D)) (unsupported : option (IndexableFilterExpr Expr))
    (g : Gathered) : result Gathered :=
  match l, unsupported with
  | [], _ | _, None => Ok g
  | index :: l, Some unsupp =>
      let '(supported, unsupp, selectivity) :=
        split_into_supported_unsupported (logical_support_options index) stats unsupp in
      match supported with
      | None => query_indices l unsupp g
      | Some supported =>
          let? result := logical_query index supported in
          query_indices l unsupp (gather g selectivity result)
      end
  end.

(** [reduce(|a, b| a.and(b))]. *)
Definition reduce_and {E} (l : list (IndexableFilterExpr E)) : option (IndexableFilterExpr E) :=
  match l with
  | [] => None
  | f :: l => Some (foldl And f l)
  end.

Definition split_all {E} (opts : SupportOptions E) (filters : list (IndexableFilterExpr E)) :
    list (@split_result E) :=
  split_into_supported_unsupported opts stats <$> filters.

(** The filters without an unsupported part, by position. *)
Definition fully_supported_indices {E} (splits : list (@split_result E)) : list nat :=
  imap (fun i s => (i, unsupp_of s)) splits
    ≫= fun p => match p with (i, None) => [i] | _ => [] end.

Definition resolve_indices_for_logical_filters (filters : list Expr) : result (ResolveIndexResult D) :=
  let? filters := result_mapM (from_logical cast_scalar) filters in
  let splits := split_all table_logical_options filters in
  let selectivity := foldl (fun acc s => precision_min acc s.2) (num_rows stats) splits in
  let? forwarded_filters := result_mapM logical_to_ast (omap supp_of splits) in
  let unsupported := optimize_cmp <$> reduce_and (omap unsupp_of splits) in
  let? g := query_indices (indices table_metadata) unsupported
              {| g_static := forwarded_filters; g_dynamic := []; g_selectivity := selectivity |} in
  Ok {| fully_supported_filters := fully_supported_indices splits;
        forwarded_dynamic := g_dynamic g; forwarded_static := g_static g;
        index_selectivity := g_selectivity g |}.

(** An index without physical support ends the loop: its [continue] comes after
    the filters have been taken out of [unsupported]. *)
Fixpoint query_indices_physical (l : list (EncryptedIndex P D))
    (unsupported : option (IndexableFilterExpr P)) (g : Gathered) : result Gathered :=
  match l, unsupported with
  | [], _ | _, None => Ok g
  | index :: l, Some unsupp =>
      match physical_support_options index with
      | None => query_indices_physical l None g
      | Some physical_support =>
          let '(supported, unsupp, selectivity) :=
            split_into_supported_unsupported physical_support stats unsupp in
          match supported with
          | None => query_indices_physical l unsupp g
          | Some supported =>
              let? result := physical_query index supported in
              query_indices_physical l unsupp (gather g selectivity result)
          end
      end
  end.

(** From the converted filters; [physical_to_ast] is the translation to SQL of
    [physical.rs]: [Ok None] where it declines, an error where it panics. *)
Definition resolve_indices_for_physical_filters
    (physical_to_ast : IndexableFilterExpr P -> result (option SqlExpr))
    (filters : list (IndexableFilterExpr P)) : result (ResolveIndexResult D) :=
  let splits := split_all table_physical_options filters in
  let? forwarded_filters := result_mapM physical_to_ast (omap supp_of splits) in
  let unsupported := reduce_and (omap unsupp_of splits) in
  let? g := query_indices_physical (indices table_metadata) unsupported
              {| g_static := omap id forwarded_filters; g_dynamic := [];
                 g_selectivity := num_rows stats |} in
  Ok {| fully_supported_filters := fully_supported_indices splits;
        forwarded_dynamic := g_dynamic g; forwarded_static := g_static g;
        index_selectivity := g_selectivity g |}.
End Resolver.

(** ** What the resolver relies on *)

(** The server: the rows it stores and how it evaluates a condition on one. *)
Class Server (row srow : Type) := {
  stored : row -> srow -> Prop;
  server_eval : srow -> SqlExpr -> tv
}.

Section Contracts.
Context {P D row srow : Type} `{!ExprSem row} `{!Server row srow} `{PrecisionOps} `{Unparser}.

(** The result of running a dynamic filter. *)
Variable execute : D -> result SqlExpr.
Variable stats : TableStatistics.

(** The condition an index sent to the server selects a row. *)
Definition strategy_holds (s : srow) (q : IndexQueryStrategy D) : Prop :=
  match q with
  | Fixed e => server_eval s e = Some true
  | Dynamic d => forall e, execute d = Ok e -> server_eval s e = Some true
  end.

(** An index answers the filters it [serves]: the query returns, and what it
    sends to the server selects every row the filter selects. *)
Class IndexContract (ix : EncryptedIndex P D) (serves : IndexableFilterExpr Expr -> Prop) := {
  index_query_total f :
    fully_supported (logical_support_options ix) stats f -> serves f ->
    exists q, logical_query ix f = Ok q;
  index_query_superset f q r s :
    fully_supported (logical_support_options ix) stats f -> serves f ->
    logical_query ix f = Ok q -> stored r s -> eval r f = Some true -> strategy_holds s q
}.

(** A column of the table that is stored in clear. *)
Definition plaintext_column (table_ref : TableRef) (m : EncryptedTableMeta P D) (c : ColumnWithCast) :
    Prop :=
  (name (column c) ∉ encrypted_columns m) /\
  forall sch tbl, relation (column c) = Some (sch, tbl) ->
    tbl = table table_ref /\ forall s, sch = Some s -> s = schema table_ref.

(** The server evaluates the connectives as SQL does, and a condition on
    plaintext columns as the proxy would. *)
Class ServerLaws (table_ref : TableRef) (m : EncryptedTableMeta P D) := {
  server_and s a b : server_eval s (sql_and a b) = kand (server_eval s a) (server_eval s b);
  server_or s a b : server_eval s (sql_or a b) = kor (server_eval s a) (server_eval s b);
  server_not s a : server_eval s (sql_not a) = knot (server_eval s a);
  server_cmp r s c op v ce ve :
    stored r s -> plaintext_column table_ref m c ->
    column_to_ast c = Ok ce -> scalar_to_ast v = Ok ve ->
    server_eval s (binop ce ve (binary_operator_from op)) = eval_cmp r c op v;
  server_in r s c vs ce ves :
    stored r s ->
    Forall (plaintext_column table_ref m) (match c with CColumn c => [c] | CTuple cs => cs end) ->
    column_or_tuple_to_ast c = Ok ce -> result_mapM scalar_to_ast vs = Ok ves ->
    server_eval s (SqlInList ce ves) = eval r (InList c vs);
  server_like r s c p ce :
    stored r s -> plaintext_column table_ref m c -> column_to_ast c = Ok ce ->
    server_eval s (SqlLike ce (Value (SingleQuotedString p))) = eval r (KwSearchLike c p);
  server_other r s e se :
    stored r s -> Forall (plaintext_column table_ref m) (cwc_column <$> column_refs e) ->
    expr_to_sql e = Some se -> server_eval s se = eval r (Other e)
}.
End Contracts.

(** ** The table's own filters *)

Section Forward.
Context {P D row srow : Type} `{!ExprSem row} `{!Server row srow} `{PrecisionOps} `{Unparser}.
Variable table_ref : TableRef.
Variable m : EncryptedTableMeta P D.
Variable stats : TableStatistics.
Abbreviation opts := (table_logical_options table_ref m).

Lemma can_fw_plaintext c : can_fw_column table_ref m c = true -> plaintext_column table_ref m c.
Proof.
  unfold can_fw_column, is_column_encrypted. intros Hc. apply andb_prop in Hc as [Hr He].
  apply negb_true_iff, bool_decide_eq_false in He. split; [done|]. intros sch tbl Hrel.
  rewrite Hrel in Hr. apply andb_prop in Hr as [Ht%bool_decide_eq_true Hs]. split; [done|].
  intros s ->. by apply bool_decide_eq_true in Hs.
Qed.

Lemma can_fw_fold st acc cols b n :
  foldl (can_fw_step table_ref m st) acc cols = (b, n) ->
  b = acc.1 && forallb (can_fw_column table_ref m) cols.*1.
Proof.
  revert acc. induction cols as [|[c p] cols IH]; intros [can_fw num]; cbn [foldl].
  - intros [= -> ->]. by destruct b.
  - intros Hf. rewrite (IH _ Hf). unfold can_fw_step. cbn.
    destruct can_fw; cbn; [|done]. destruct (can_fw_column table_ref m c); cbn; [|done].
    by repeat case_match.
Qed.

Lemma can_forward_columns f st p :
  can_forward_exact_logical table_ref m f st = Some p ->
  exists cols, columns_with_num f = Some cols /\
               Forall (plaintext_column table_ref m) cols.*1.
Proof.
  unfold can_forward_exact_logical. destruct (columns_with_num f) as [cols|]; [|done].
  destruct (foldl _ _ cols) as [can_fw n] eqn:Hf. apply can_fw_fold in Hf. cbn in Hf.
  destruct can_fw; [|done]. intros _. exists cols. split; [done|].
  apply Forall_forall. intros c Hc. apply can_fw_plaintext.
  symmetry in Hf. rewrite forallb_forall in Hf. by apply Hf, list_elem_of_In.
Qed.

Context `{!ServerLaws table_ref m}.

Lemma forward_exact f sql :
  fully_supported opts stats f -> logical_to_ast f = Ok sql ->
  forall (r : row) (s : srow), stored r s -> server_eval s sql = eval r f.
Proof.
  intros Hf. revert sql. induction Hf as [f p Hp|a b _ IHa _ IHb|a b _ _ IHa _ IHb|a _ _ IHa];
    intros sql Hsql r s Hs; cbn [logical_to_ast] in Hsql.
  - apply can_forward_columns in Hp as (cols & Hc & Hfw).
    destruct f as [| | |c op v| |[c|cs] vs|c pat| |e]; try discriminate Hc;
      cbn in Hc; simplify_eq; cbn [logical_to_ast] in Hsql; inv_ok.
    + apply Forall_cons in Hfw as [Hfw _]. exact (server_cmp r s c op v a a0 Hs Hfw E E0).
    + by eapply server_in.
    + eapply server_in; [done| |done|done]. rewrite <- list_fmap_compose in Hfw.
      by rewrite list_fmap_id in Hfw.
    + apply Forall_cons in Hfw as [Hfw _]. by eapply server_like.
    + unfold unwrap_some in Hsql. inv_ok. eapply server_other; [done| |done].
      rewrite <- list_fmap_compose in Hfw. rewrite Forall_fmap, Forall_forall in *.
      intros c Hc. apply Hfw. by apply elem_of_remove_dups.
  - inv_ok. rewrite server_and. cbn [eval]. by erewrite IHa, IHb.
  - inv_ok. rewrite server_or. cbn [eval]. by erewrite IHa, IHb.
  - inv_ok. rewrite server_not. cbn [eval]. by erewrite IHa.
Qed.
End Forward.

(** ** The parts of filters *)

Section Parts.
Context {E row srow : Type} `{!FilterSem E row} `{!Server row srow} `{PrecisionOps}.
Variable opts : SupportOptions E.
Variable stats : TableStatistics.

Lemma reduce_and_true (r : row) (l : list (IndexableFilterExpr E)) :
  Forall (fun f => eval r f = Some true) l -> eval_opt r (reduce_and l) = Some true.
Proof.
  destruct l as [|f l]; [done|]. cbn. rewrite Forall_cons. intros [Hf Hl].
  revert f Hf. induction Hl as [|f' l Hf' _ IH]; intros f Hf; [done|].
  cbn. apply IH. cbn. by rewrite kand_true_iff.
Qed.

Lemma fully_supported_indices_elem (splits : list (@split_result E)) i :
  i ∈ fully_supported_indices splits <-> exists s, splits !! i = Some s /\ unsupp_of s = None.
Proof.
  unfold fully_supported_indices. rewrite list_elem_of_bind. split.
  - intros ([j u] & Hi & Hj). apply elem_of_lookup_imap in Hj as (k & s & Heq & Hk).
    simplify_eq. destruct (unsupp_of s) eqn:Hu; [by apply not_elem_of_nil in Hi|].
    apply list_elem_of_singleton in Hi as ->. eauto.
  - intros (s & Hs & Hu). exists (i, None). split; [by apply list_elem_of_singleton|].
    apply elem_of_lookup_imap. exists i, s. by rewrite Hu.
Qed.

Lemma split_parts_true (r : row) fs :
  Forall (fun f => split_ok opts stats f = true) fs -> Forall (fun f => eval r f = Some true) fs ->
  Forall (fun f => eval r f = Some true) (omap supp_of (split_all stats opts fs)) /\
  Forall (fun f => eval r f = Some true) (omap unsupp_of (split_all stats opts fs)).
Proof.
  intros Hok Hev. induction Hev as [|f fs Hf _ IH]; [by split; constructor|].
  apply Forall_cons in Hok as [Hok Hoks]. destruct (IH Hoks) as [IHs IHu].
  rewrite (split_exact_gen opts stats r f Hok), kand_true_iff in Hf. destruct Hf as [Hs Hu].
  unfold split_all in *. cbn [fmap list_fmap omap list_omap].
  split; repeat case_match; try done; constructor; try done.
Qed.

Lemma forwarded_all_true fs fw (r : row) (s : srow) :
  Forall (fun f => eval r f = Some true) (omap supp_of (split_all stats opts fs)) ->
  Forall2 (fun f sql => server_eval s sql = eval r f) (omap supp_of (split_all stats opts fs)) fw ->
  Forall (fun e => server_eval s e = Some true) fw.
Proof.
  intros Hall Hfw. induction Hfw as [|f sql fs' fw' Heq _ IH]; [done|].
  apply Forall_cons in Hall as [Hf Hall]. constructor; [congruence|auto].
Qed.

Lemma fully_supported_true fs fw (r : row) (s : srow) i f :
  Forall (fun f => split_ok opts stats f = true) fs ->
  Forall2 (fun f sql => server_eval s sql = eval r f) (omap supp_of (split_all stats opts fs)) fw ->
  Forall (fun e => server_eval s e = Some true) fw ->
  fs !! i = Some f -> i ∈ fully_supported_indices (split_all stats opts fs) ->
  eval r f = Some true.
Proof.
  intros Hok Hfw Hall Hf Hi. apply fully_supported_indices_elem in Hi as (sp & Hsp & Hu).
  unfold split_all in Hsp. rewrite list_lookup_fmap, Hf in Hsp. cbn in Hsp. simplify_eq.
  assert (split_ok opts stats f = true) as Hokf by (by eapply Forall_lookup_1 in Hok).
  rewrite (split_exact_gen opts stats r f Hokf), Hu, kand_true_r.
  destruct (supp_of (split_into_supported_unsupported opts stats f)) as [g|] eqn:Hg; [|done].
  assert (g ∈ omap supp_of (split_all stats opts fs)) as Hin.
  { apply list_elem_of_omap. eexists. split; [|done]. unfold split_all.
    apply list_elem_of_fmap. eauto using list_elem_of_lookup_2. }
  apply list_elem_of_lookup in Hin as [j Hj].
  destruct (Forall2_lookup_l _ _ _ _ _ Hfw Hj) as (sql & Hsql & Heq).
  cbn. rewrite <- Heq. by eapply Forall_lookup_1 in Hall.
Qed.

End Parts.

(** ** The resolver loses no row *)

Section Sound.
Context {P D row srow : Type} `{!ExprSem row} `{!Server row srow} `{PrecisionOps} `{Unparser}.
Variable execute : D -> result SqlExpr.
Variable table_ref : TableRef.
Variable m : EncryptedTableMeta P D.
Variable stats : TableStatistics.
Variable serves : EncryptedIndex P D -> IndexableFilterExpr Expr -> Prop.
Abbreviation opts := (table_logical_options table_ref m).

(** Each split of the loop over the indices is exact, and each index serves the
    part it is handed. *)
Fixpoint handed_ok (l : list (EncryptedIndex P D)) (unsupported : option (IndexableFilterExpr Expr)) : Prop :=
  match l, unsupported with
  | [], _ | _, None => True
  | ix :: l, Some u =>
      let s := split_into_supported_unsupported (logical_support_options ix) stats u in
      split_ok (logical_support_options ix) stats u = true /\
      (forall g, supp_of s = Some g -> serves ix g) /\
      handed_ok l (unsupp_of s)
  end.

(** Everything gathered so far selects the row. *)
Definition selects (s : srow) (static : list SqlExpr) (dynamic : list D) : Prop :=
  Forall (fun e => server_eval s e = Some true) static /\
  Forall (fun d => forall e, execute d = Ok e -> server_eval s e = Some true) dynamic.

Lemma gather_static (g : Gathered) sel (q : IndexQueryStrategy D) :
  exists extra, g_static (gather g sel q) = g_static g ++ extra.
Proof. destruct q; cbn; [by eexists|]. exists []. by rewrite app_nil_r. Qed.

Lemma gather_selects (s : srow) (g : Gathered) sel (q : IndexQueryStrategy D) :
  selects s (g_static g) (g_dynamic g) -> strategy_holds execute s q ->
  selects s (g_static (gather g sel q)) (g_dynamic (gather g sel q)).
Proof. intros [Hs Hd] Hq. destruct q; split; cbn; rewrite ?Forall_app, ?Forall_singleton; auto. Qed.

Lemma query_indices_sound l u g :
  (forall ix, ix ∈ l -> IndexContract execute stats ix (serves ix)) -> handed_ok l u ->
  exists g' extra,
    query_indices stats l u g = Ok g' /\ g_static g' = g_static g ++ extra /\
    forall (r : row) s, stored r s -> eval_opt r u = Some true ->
      selects s (g_static g) (g_dynamic g) -> selects s (g_static g') (g_dynamic g').
Proof.
  revert u g. induction l as [|ix l IH]; intros [u|] g Hc Hu;
    try (by exists g, []; rewrite app_nil_r).
  cbn [query_indices handed_ok] in *. destruct Hu as (Hok & Hsrv & Hrest).
  pose proof (split_supported_gen (logical_support_options ix) stats u) as Hsup.
  assert (forall r : row, eval r u = kand (eval_opt r (supp_of _)) (eval_opt r (unsupp_of _))) as Hex
    by (intros r; exact (split_exact_gen (logical_support_options ix) stats r u Hok)).
  destruct (split_into_supported_unsupported _ _ u) as [[sup uns] sel].
  unfold supp_of, unsupp_of in *; cbn in Hsup, Hex, Hrest, Hsrv.
  assert (forall ix', ix' ∈ l -> IndexContract execute stats ix' (serves ix')) as Hc'
    by (intros; apply Hc; by right).
  assert (IndexContract execute stats ix (serves ix)) as Hix by (apply Hc; left).
  destruct sup as [f|].
  - specialize (Hsup f eq_refl). specialize (Hsrv f eq_refl).
    destruct (index_query_total execute stats f Hsup Hsrv) as [q Hq]. rewrite Hq. cbn.
    destruct (IH uns (gather g sel q) Hc' Hrest) as (g' & extra & -> & He & Hsel).
    destruct (gather_static g sel q) as [ex Hge]. rewrite Hge, <- app_assoc in He.
    exists g', (ex ++ extra). split; [done|]. split; [done|]. intros r s Hst Hev Hg.
    change (eval r u = Some true) in Hev. rewrite Hex, kand_true_iff in Hev. destruct Hev as [Hf Hun].
    apply (Hsel r); [done|done|]. apply gather_selects; [done|].
    by eapply (index_query_superset execute stats f).
  - destruct (IH uns g Hc' Hrest) as (g' & extra & -> & He & Hsel).
    exists g', extra. split; [done|]. split; [done|]. intros r s Hst Hev.
    change (eval r u = Some true) in Hev. rewrite Hex, kand_true_iff in Hev.
    destruct Hev as [_ Hun]. by apply (Hsel r).
Qed.

Lemma result_mapM_total {A B} (f : A -> result B) l :
  (forall a, a ∈ l -> exists b, f a = Ok b) ->
  exists bs, result_mapM f l = Ok bs /\ Forall2 (fun a b => f a = Ok b) l bs.
Proof.
  induction l as [|a l IH]; intros Hl; [by exists []|].
  destruct (Hl a) as [b Hb]; [left|]. destruct IH as (bs & Hbs & HF); [intros; apply Hl; by right|].
  exists (b :: bs). cbn. rewrite Hb, Hbs. by repeat constructor.
Qed.

Context `{!ExprLaws row} `{!ServerLaws table_ref m}.

(** The filters of a query, converted: their truth is that of the conditions. *)
Lemma converted_truth es fs :
  forallb plain es = true -> result_mapM (from_logical cast_scalar) es = Ok fs ->
  Forall2 (fun e f => forall r : row, eval r f = truth r e) es fs.
Proof.
  revert fs. induction es as [|e es IH]; cbn; intros fs Hp Hfs; inv_ok; [by constructor|].
  apply andb_prop in Hp as [Hp Hps]. constructor; [|by apply IH].
  intros r. by eapply from_logical_exact_gen.
Qed.

(** The filters forwarded for the table itself select what they stand for. *)
Lemma forwarded_true fs fw (r : row) s :
  stored r s ->
  Forall2 (fun f sql => logical_to_ast f = Ok sql) (omap supp_of (split_all stats opts fs)) fw ->
  Forall2 (fun f sql => server_eval s sql = eval r f) (omap supp_of (split_all stats opts fs)) fw.
Proof.
  intros Hst. unfold split_all. revert fw. induction fs as [|f fs IH]; cbn; intros fw Hfw.
  - by inversion Hfw.
  - destruct (supp_of (split_into_supported_unsupported opts stats f)) as [g|] eqn:Hg; [|by apply IH].
    inversion Hfw; subst. constructor; [|by apply IH].
    eapply (forward_exact table_ref m stats g); [by eapply split_supported_gen|done|done].
Qed.
End Sound.

Section Theorems.
Context {P D row srow : Type} `{!ExprSem row} `{!Server row srow} `{PrecisionOps} `{Unparser}.
Variable execute : D -> result SqlExpr.
Variable table_ref : TableRef.
Variable m : EncryptedTableMeta P D.
Variable stats : TableStatistics.
Variable serves : EncryptedIndex P D -> IndexableFilterExpr Expr -> Prop.
Context `{!ExprLaws row} `{!ServerLaws table_ref m}.
Abbreviation opts := (table_logical_options table_ref m).

(** The conditions a query is resolved for: plain, splitting exactly, with a
    translation to SQL, and served by the indices they reach. *)
Record resolvable (es : list Expr) (fs : list (IndexableFilterExpr Expr)) : Prop := {
  rs_plain : forallb plain es = true;
  rs_converted : result_mapM (from_logical cast_scalar) es = Ok fs;
  rs_split : Forall (fun f => split_ok opts stats f = true) fs;
  rs_sql : forall f, f ∈ omap supp_of (split_all stats opts fs) -> exists sql, logical_to_ast f = Ok sql;
  rs_handed : handed_ok stats serves (indices m)
                (optimize_cmp <$> reduce_and (omap unsupp_of (split_all stats opts fs)))
}.

(** The resolution, with the filters it reports as fully supported. *)
Lemma resolver_sound (es : list Expr) (fs : list (IndexableFilterExpr Expr)) :
  (forall ix, ix ∈ indices m -> IndexContract execute stats ix (serves ix)) ->
  resolvable es fs ->
  exists res,
    resolve_indices_for_logical_filters table_ref m cast_scalar stats es = Ok res /\
    fully_supported_filters res = fully_supported_indices (split_all stats opts fs) /\
    (forall (r : row) s, stored r s -> Forall (fun e => truth r e = Some true) es ->
       selects execute s (forwarded_static res) (forwarded_dynamic res)) /\
    (forall (r : row) s i e, stored r s -> es !! i = Some e -> i ∈ fully_supported_filters res ->
       Forall (fun e => server_eval s e = Some true) (forwarded_static res) ->
       truth r e = Some true).
Proof.
  intros Hc [Hp Hconv Hok Hsql Hh]. pose proof (converted_truth es fs Hp Hconv) as Ht.
  destruct (result_mapM_total logical_to_ast _ Hsql) as (fw & Hfw & HF).
  unfold resolve_indices_for_logical_filters. rewrite Hconv. cbn [result_bind]. rewrite Hfw. cbn [result_bind].
  edestruct (query_indices_sound execute stats serves (indices m)) as (g & extra & Hg & Hext & Hsel);
    [done|exact Hh|]. rewrite Hg. cbn [result_bind]. eexists. split; [done|]. split; [done|]. cbn. split.
  - intros r s Hst Hall.
    assert (Forall (fun f => eval r f = Some true) fs) as Hfs.
    { clear -Ht Hall. induction Ht as [|e f es fs Heq _ IH]; [done|].
      apply Forall_cons in Hall as [He Hall]. constructor; [by rewrite Heq|auto]. }
    destruct (split_parts_true opts stats r fs Hok Hfs) as [Hsup Huns].
    apply (Hsel r s Hst).
    + apply reduce_and_true in Huns. destruct (reduce_and _); [|done]. by apply optimize_cmp_sound.
    + split; [|done]. cbn. eapply forwarded_all_true, forwarded_true; eauto.
  - intros r s i e Hst He Hi Hall. rewrite Hext in Hall. apply Forall_app in Hall as [Hall _].
    destruct (Forall2_lookup_l _ _ _ _ _ Ht He) as (f & Hf & Heq). rewrite <- Heq.
    eapply fully_supported_true; eauto using forwarded_true.
Qed.

End Theorems.

(** An index without physical support ends the resolution of physical filters:
    none of the indices after it is asked, whatever the filters. *)
Theorem physical_loop_stops {P D : Type} `{PrecisionOps} (stats : TableStatistics)
    (ix : EncryptedIndex P D) (rest : list (EncryptedIndex P D)) unsupported (g : Gathered) :
  physical_support_options ix = None ->
  query_indices_physical stats (ix :: rest) unsupported g = Ok g.
Proof.
  intros Hix. destruct unsupported; [|done]. cbn. rewrite Hix. by destruct rest.
Qed.
