(* ===== verification/Physical.v ===== *)
(** * From physical expressions to indexable filters

    Models [backends/mysql/src/filtering/physical.rs]: the filters that an execution
    plan pushes to a scan while the query runs (for example the keys of the other side
    of a hash join) are converted to filter trees and, where the server can evaluate
    them, to SQL. The resolver of Resolver.v then resolves them as it resolves the
    conditions of the query. *)
From S2P Require Import Prelude Values Filters Sql Logical Crypto Resolver.

(** ** Expressions

    [datafusion::physical_expr], the nodes the conversion tells apart. *)
Inductive PhysicalExpr :=
  | PhColumn (col_name : string) (index : nat)
  | PhLiteral (v : ScalarValue)
  | PhCast (e : PhysicalExpr) (cast_type : DataType)
  | PhTryCast (e : PhysicalExpr) (cast_type : DataType)
  | PhBinary (left : PhysicalExpr) (op : Operator) (right : PhysicalExpr)
  | PhLike (negated case_insensitive : bool) (e pattern : PhysicalExpr)
  | PhInList (e : PhysicalExpr) (list : list PhysicalExpr) (negated : bool)
  | PhNot (e : PhysicalExpr)
  | PhScalarFunction (func : string) (args : list PhysicalExpr)
  | PhOther (kind : string) (operands : list PhysicalExpr).

Section Conversion.
Variable cast_scalar : ScalarValue -> DataType -> option ScalarValue.

Fixpoint as_scalar_value_physical (expr : PhysicalExpr) : option ScalarValue :=
  match expr with
  | PhLiteral v => Some v
  | PhCast e t | PhTryCast e t =>
      match as_scalar_value_physical e with Some v => cast_scalar v t | None => None end
  | _ => None
  end.

Fixpoint as_column_physical (expr : PhysicalExpr) : option ColumnWithCast :=
  match expr with
  | PhColumn n _ => Some (cwc_raw n)
  | PhCast e t => (fun v => cwc_cast v t) <$> as_column_physical e
  | PhTryCast e t => (fun v => cwc_try_cast v t) <$> as_column_physical e
  | _ => None
  end.

(** Tuples of columns come as calls of a function [struct]. *)
Definition as_columns_physical (expr : PhysicalExpr) : option ColumnOrTuple :=
  match as_column_physical expr with
  | Some rec => Some (CColumn rec)
  | None =>
      match expr with
      | PhScalarFunction func args =>
          if bool_decide (func = "struct") then CTuple <$> mapM as_column_physical args else None
      | _ => None
      end
  end.

(** A comparison of a column with a scalar, the column on either side. *)
Definition from_physical_comparison (expr left : PhysicalExpr) (op : Operator) (right : PhysicalExpr) :
    IndexableFilterExpr PhysicalExpr :=
  match equality_operator_try_from op with
  | None => Other expr
  | Some eq_op =>
      let value_left := as_scalar_value_physical left in
      let eq_op := if bool_decide (is_Some value_left) then inverse_order eq_op else eq_op in
      match option_or value_left (as_scalar_value_physical right) with
      | None => Other expr
      | Some value =>
          match option_or (as_column_physical left) (as_column_physical right) with
          | None => Other expr
          | Some column => Eq column eq_op value
          end
      end
  end.

Fixpoint from_physical (expr : PhysicalExpr) : result (IndexableFilterExpr PhysicalExpr) :=
  match expr with
  | PhBinary lhs OperatorAnd rhs =>
      let? l := from_physical lhs in let? r := from_physical rhs in Ok (And l r)
  | PhBinary lhs OperatorOr rhs =>
      let? l := from_physical lhs in let? r := from_physical rhs in Ok (Or l r)
  | PhBinary lhs op rhs => Ok (from_physical_comparison expr lhs op rhs)
  | PhLike _ _ e pattern =>
      match as_column_physical e, as_scalar_value_physical pattern with
      | Some column, Some (SUtf8 (Some pattern)) => Ok (KwSearchLike column pattern)
      | _, _ => Ok (Other expr)
      end
  | PhInList e list _ =>
      match as_columns_physical e, mapM as_scalar_value_physical list with
      | Some column, Some values => Ok (InList column (remove_dups values))
      | _, _ => Ok (Other expr)
      end
  | PhNot e => let? f := from_physical e in Ok (Not f)
  | PhScalarFunction func args =>
      if bool_decide (func = DECRYPT_UDF_NAME) then
        match args with
        | [] => Err (Panic "encountered decryption function with no argument")
        | a :: _ => from_physical a
        end
      else Ok (Other expr)
  | PhCast e _ | PhTryCast e _ => from_physical e
  | PhColumn _ _ | PhLiteral _ | PhOther _ _ => Ok (Other expr)
  end.
End Conversion.

(** ** Filters as SQL *)

Section ToSql.
Context `{Unparser}.

(** The values of tuples are structs, which become tuples of SQL. *)
Fixpoint scalar_or_struct_to_expr (v : ScalarValue) : option SqlExpr :=
  match v with
  | SStruct columns =>
      SqlTuple <$>
        (fix go (l : list ScalarValue) : option (list SqlExpr) :=
           match l with
           | [] => Some []
           | v :: l => match scalar_or_struct_to_expr v with
                       | Some e => match go l with Some es => Some (e :: es) | None => None end
                       | None => None
                       end
           end) columns
  | _ => scalar_to_sql v
  end.

(** [TryFrom<IndexablePhysicalExpr> for ast::Expr]: [Ok None] is its error, the
    expression that has no translation. *)
Fixpoint physical_to_ast (f : IndexableFilterExpr PhysicalExpr) : result (option SqlExpr) :=
  match f with
  | And l r =>
      let? a := physical_to_ast l in
      match a with None => Ok None | Some a => let? b := physical_to_ast r in Ok (sql_and a <$> b) end
  | Or l r =>
      let? a := physical_to_ast l in
      match a with None => Ok None | Some a => let? b := physical_to_ast r in Ok (sql_or a <$> b) end
  | Not e => let? a := physical_to_ast e in Ok (sql_not <$> a)
  | Eq c op v =>
      let? c := column_to_ast c in
      let? v := scalar_to_ast v in
      Ok (Some (binop c v (binary_operator_from op)))
  | Between c low high =>
      let? c := column_to_ast c in
      let? low := scalar_to_ast low in
      let? high := scalar_to_ast high in
      Ok (Some (SqlBetween c low high))
  | InList c v =>
      let? list := result_mapM (fun v => unwrap_some (scalar_or_struct_to_expr v)) v in
      let? c := column_or_tuple_to_ast c in
      Ok (Some (SqlInList c list))
  | KwSearchLike c v => let? c := column_to_ast c in Ok (Some (SqlLike c (Value (SingleQuotedString v))))
  | KwMatch _ _ => Err (Panic "not implemented: kw_match")
  | Other _ => Ok None
  end.
End ToSql.

(** [IndexResolver::resolve_indices_for_physical_filters], with the conversion. *)
Definition resolve_physical {D} `{PrecisionOps} `{Unparser} (table_ref : TableRef) (m : EncryptedTableMeta PhysicalExpr D)
    (cast_scalar : ScalarValue -> DataType -> option ScalarValue) (stats : TableStatistics) (filters : list PhysicalExpr) :
    result (ResolveIndexResult D) :=
  let? filters := result_mapM (from_physical cast_scalar) filters in
  resolve_indices_for_physical_filters table_ref m stats physical_to_ast filters.

(** ** Meaning of an expression on a row *)

(** The parts of the evaluation that the conversion leaves to DataFusion. *)
Class PhysSem (row : Type) := { phys_other : row -> PhysicalExpr -> ScalarValue }.

Section Meaning.
Context {row : Type} `{!ExprSem row} `{!PhysSem row}.

Fixpoint phys_value (r : row) (e : PhysicalExpr) : ScalarValue :=
  match e with
  | PhColumn n _ => col_value r {| relation := None; name := n |}
  | PhLiteral v => v
  | PhCast e t | PhTryCast e t => cast_value (phys_value r e) t
  | PhScalarFunction func args =>
      if bool_decide (func = "struct") then SStruct (phys_value r <$> args) else phys_other r e
  | _ => phys_other r e
  end.

Fixpoint phys_truth (r : row) (e : PhysicalExpr) : tv :=
  match e with
  | PhBinary a OperatorAnd b => kand (phys_truth r a) (phys_truth r b)
  | PhBinary a OperatorOr b => kor (phys_truth r a) (phys_truth r b)
  | PhBinary a op b =>
      match equality_operator_try_from op with
      | Some op => cmp_truth op (phys_value r a) (phys_value r b)
      | None => as_bool (phys_other r e)
      end
  | PhLike negated ci e pattern => negate_if negated (scalar_like None ci (phys_value r e) (phys_value r pattern))
  | PhInList e list negated =>
      negate_if negated
        (foldr (fun v acc => kor (cmp_truth OpEq (phys_value r e) (phys_value r v)) acc) (Some false) list)
  | PhNot e => knot (phys_truth r e)
  | PhScalarFunction func args =>
      if bool_decide (func = DECRYPT_UDF_NAME) then
        match args with a :: _ => phys_truth r a | [] => as_bool (phys_other r e) end
      else as_bool (phys_value r e)
  | PhColumn _ _ | PhLiteral _ | PhCast _ _ | PhTryCast _ _ | PhOther _ _ => as_bool (phys_value r e)
  end.

#[export] Instance physical_sem : FilterSem PhysicalExpr row := {
  sem_cmp r c v := scalar_cmp (cwc_value r c) v;
  sem_leaf r f :=
    match f with
    | KwSearchLike c pattern => scalar_like None false (cwc_value r c) (SUtf8 (Some pattern))
    | KwMatch columns search_string => kw_search r columns search_string
    | InList (CTuple cs) vs => tuple_in r cs vs
    | Other e => phys_truth r e
    | _ => None
    end
}.

(** A tuple is in a list when it is one of its structs. *)
Class TupleLaws : Prop :=
  tuple_in_structs : forall (r : row) cs vs,
    tuple_in r cs vs = foldr (fun v acc => kor (cmp_truth OpEq (SStruct (cwc_value r <$> cs)) v) acc) (Some false) vs.

(** The server evaluates a list of structs as the list of their tuples. *)
Class TupleServerLaws {D srow} `{!Server row srow} `{Unparser} (table_ref : TableRef) (m : EncryptedTableMeta PhysicalExpr D) : Prop :=
  server_in_structs : forall (r : row) (s : srow) c vs ce ves,
    stored r s -> Forall (plaintext_column table_ref m) (match c with CColumn c => [c] | CTuple cs => cs end) ->
    column_or_tuple_to_ast c = Ok ce ->
    result_mapM (fun v => unwrap_some (scalar_or_struct_to_expr v)) vs = Ok ves ->
    server_eval s (SqlInList ce ves) = eval r (InList (E := PhysicalExpr) c vs).
End Meaning.
Arguments TupleLaws row {_}.

(** ** Expressions whose conversion is exact *)

Fixpoint phys_casts (e : PhysicalExpr) : nat :=
  match e with PhCast e _ | PhTryCast e _ => S (phys_casts e) | _ => 0 end.

(** At most one cast around each column, also in tuples. *)
Definition phys_operand (e : PhysicalExpr) : bool :=
  bool_decide (phys_casts e <= 1) &&
  match e with PhScalarFunction _ args => forallb (fun a => bool_decide (phys_casts a <= 1)) args | _ => true end.

(** No negated [IN] or [LIKE], no case-insensitive [LIKE], no cast of a condition. *)
Fixpoint phys_plain (e : PhysicalExpr) : bool :=
  match e with
  | PhColumn _ _ | PhLiteral _ | PhOther _ _ => true
  | PhBinary a (OperatorAnd | OperatorOr) b => phys_plain a && phys_plain b
  | PhBinary a _ b => phys_operand a && phys_operand b
  | PhLike negated ci e _ => negb negated && negb ci && phys_operand e
  | PhInList e _ negated => negb negated && phys_operand e
  | PhNot e => phys_plain e
  | PhScalarFunction func args =>
      if bool_decide (func = DECRYPT_UDF_NAME) then match args with a :: _ => phys_plain a | [] => false end else true
  | PhCast _ _ | PhTryCast _ _ => false
  end.

(** ** The conversion is exact *)

Lemma PhysicalExpr_chain_ind (P : PhysicalExpr -> Prop) :
  (forall e,
     (forall e', match e with
                 | PhCast a _ | PhTryCast a _ | PhNot a => e' = a
                 | PhBinary a _ b => e' = a \/ e' = b
                 | PhScalarFunction _ (a :: _) => e' = a
                 | _ => False
                 end -> P e') -> P e) ->
  forall e, P e.
Proof.
  intros H. fix IH 1. intros e. apply H.
  destruct e as [| | | |a o b| | | |f args|]; try (intros ? ->; apply IH); try (intros ? []; fail).
  - intros e' [->| ->]; apply IH.
  - destruct args; [intros ? []|intros ? ->; apply IH].
Qed.

Section Exact.
Context {row : Type} `{!ExprSem row} `{!PhysSem row}.

Lemma phys_scalar_value (r : row) e v : as_scalar_value_physical cast_scalar e = Some v -> phys_value r e = v.
Proof.
  revert v. induction e; intros w; cbn; intros Hw; simplify_eq; try done.
  all: destruct (as_scalar_value_physical cast_scalar e) as [u|]; [|done].
  all: rewrite (IHe u eq_refl); unfold cast_value; by rewrite Hw.
Qed.

Lemma phys_column_cast_free e c : as_column_physical e = Some c -> phys_casts e = 0 -> cast_to c = None.
Proof. destruct e; cbn; try done. by intros [= <-]. Qed.

Lemma phys_column_value (r : row) e c : as_column_physical e = Some c -> phys_casts e <= 1 -> phys_value r e = cwc_value r c.
Proof.
  destruct e as [n i| |e t|e t| | | | | |]; cbn; try done.
  - by intros [= <-].
  - intros Hc Hle. apply fmap_Some in Hc as (c' & Hc & ->). unfold cwc_value. cbn. f_equal.
    pose proof (phys_column_cast_free e c' Hc ltac:(lia)) as Hf. destruct e; cbn in *; try done; try lia; by simplify_eq.
  - intros Hc Hle. apply fmap_Some in Hc as (c' & Hc & ->). unfold cwc_value. cbn. f_equal.
    pose proof (phys_column_cast_free e c' Hc ltac:(lia)) as Hf. destruct e; cbn in *; try done; try lia; by simplify_eq.
Qed.

Lemma phys_scalar_not_column e v : as_scalar_value_physical cast_scalar e = Some v -> as_column_physical e = None.
Proof.
  revert v. induction e; intros w; cbn; intros Hw; simplify_eq; try done.
  all: destruct (as_scalar_value_physical cast_scalar e) as [u|]; [|done]; by rewrite (IHe u eq_refl).
Qed.

Lemma phys_eval_cmp (r : row) e c op v :
  as_column_physical e = Some c -> phys_casts e <= 1 ->
  eval_cmp (E := PhysicalExpr) r c op v = cmp_truth op (phys_value r e) v.
Proof. intros Hc Hle. unfold eval_cmp, cmp_truth. cbn. by rewrite (phys_column_value r e c). Qed.

Lemma phys_operand_casts e : phys_operand e = true -> phys_casts e <= 1.
Proof. unfold phys_operand. intros [He _]%andb_prop. by apply bool_decide_eq_true in He. Qed.

(** Columns of a tuple. *)
Lemma phys_tuple_values (r : row) args cs :
  mapM as_column_physical args = Some cs -> forallb (fun a => bool_decide (phys_casts a <= 1)) args = true ->
  phys_value r <$> args = cwc_value r <$> cs.
Proof.
  intros Hcs Hall. apply mapM_Some in Hcs. induction Hcs as [|a c args cs Hc _ IH]; [done|]. cbn in Hall |- *.
  apply andb_prop in Hall as [Ha Hall]. apply bool_decide_eq_true in Ha. f_equal; [by apply phys_column_value|by apply IH].
Qed.

Lemma phys_values_foldr (r : row) (g : ScalarValue -> tv) l vs :
  mapM (as_scalar_value_physical cast_scalar) l = Some vs ->
  foldr (fun v acc => kor (g v) acc) (Some false) (remove_dups vs) =
  foldr (fun e acc => kor (g (phys_value r e)) acc) (Some false) l.
Proof.
  intros Hvs. rewrite (foldr_kor_ext g (remove_dups vs) vs) by (intros; apply elem_of_remove_dups).
  apply mapM_Some in Hvs. induction Hvs as [|e v l vs Hv _ IH]; [done|]. cbn. by rewrite IH, (phys_scalar_value r e v Hv).
Qed.

Context `{!TupleLaws row}.

Lemma phys_in_list (r : row) e c l vs :
  phys_operand e = true -> as_columns_physical e = Some c -> mapM (as_scalar_value_physical cast_scalar) l = Some vs ->
  eval r (InList (E := PhysicalExpr) c (remove_dups vs)) =
  foldr (fun v acc => kor (cmp_truth OpEq (phys_value r e) (phys_value r v)) acc) (Some false) l.
Proof.
  intros He Hc Hvs. pose proof (phys_operand_casts e He) as Hle. unfold as_columns_physical in Hc.
  destruct (as_column_physical e) as [c'|] eqn:Hcol.
  - injection Hc as <-. cbn [eval]. rewrite <- (phys_values_foldr r (cmp_truth OpEq (phys_value r e)) l vs Hvs).
    induction (remove_dups vs) as [|v l' IH]; [done|]. cbn [foldr]. rewrite IH. f_equal. by apply phys_eval_cmp.
  - destruct e as [| | | | | | | |func args|]; try done. case_bool_decide as Hf; [|done].
    apply fmap_Some in Hc as (cs & Hcs & ->). cbn [eval]. cbn [sem_leaf physical_sem]. rewrite tuple_in_structs.
    cbn [phys_value]. rewrite (bool_decide_true _ Hf). unfold phys_operand in He. apply andb_prop in He as [_ He].
    rewrite (phys_tuple_values r args cs Hcs He). by apply phys_values_foldr.
Qed.

Context `{!ExprLaws row}.

Lemma phys_comparison (r : row) e a op b :
  (forall o, equality_operator_try_from op = Some o -> phys_truth r e = cmp_truth o (phys_value r a) (phys_value r b)) ->
  phys_operand a = true -> phys_operand b = true ->
  eval r (from_physical_comparison cast_scalar e a op b) = phys_truth r e.
Proof.
  intros He Ha%phys_operand_casts Hb%phys_operand_casts. unfold from_physical_comparison.
  destruct (equality_operator_try_from op) as [o|]; [|done]. specialize (He o eq_refl).
  destruct (as_scalar_value_physical cast_scalar a) as [v|] eqn:Hva.
  - rewrite (phys_scalar_not_column a v Hva). cbn. destruct (as_column_physical b) as [c|] eqn:Hc; [|done].
    cbn [eval]. rewrite (phys_eval_cmp r b c) by done. by rewrite He, (phys_scalar_value r a v Hva), cmp_truth_opp.
  - cbn. destruct (as_scalar_value_physical cast_scalar b) as [v|] eqn:Hvb; [|done].
    rewrite (phys_scalar_not_column b v Hvb). destruct (as_column_physical a) as [c|] eqn:Hc; [|done].
    cbn [option_or eval]. rewrite (phys_eval_cmp r a c) by done. by rewrite He, (phys_scalar_value r b v Hvb).
Qed.

(** A plain expression is converted, and the filter has its truth value. *)
Lemma from_physical_exact_gen e : phys_plain e = true ->
  exists f, from_physical cast_scalar e = Ok f /\ forall r : row, eval r f = phys_truth r e.
Proof.
  induction e as [e IH] using PhysicalExpr_chain_ind. intros Hp.
  destruct e as [n i|v|e t|e t|a op b|neg ci e p|e l neg|e|func args|k l]; cbn [from_physical phys_plain] in *;
    try done; try (by eexists).
  - assert (forall o, equality_operator_try_from op = Some o -> forall r : row,
      phys_truth r (PhBinary a op b) = cmp_truth o (phys_value r a) (phys_value r b)) as Ho.
    { intros o Eo r. destruct op; cbn in Eo |- *; simplify_eq; done. }
    destruct op; try (apply andb_prop in Hp as [Ha Hb]; eexists; split; [reflexivity|]; intros r; apply phys_comparison; [|done|done]; intros o Eo; by apply Ho).
    + apply andb_prop in Hp as [Ha Hb]. destruct (IH a) as (fa & -> & Ea); [by left|done|].
      destruct (IH b) as (fb & -> & Eb); [by right|done|]. eexists. split; [reflexivity|]. intros r. cbn. by rewrite Ea, Eb.
    + apply andb_prop in Hp as [Ha Hb]. destruct (IH a) as (fa & -> & Ea); [by left|done|].
      destruct (IH b) as (fb & -> & Eb); [by right|done|]. eexists. split; [reflexivity|]. intros r. cbn. by rewrite Ea, Eb.
  - apply andb_prop in Hp as [Hp He]. apply andb_prop in Hp as [Hn Hci]. apply phys_operand_casts in He.
    destruct neg, ci; try done. destruct (as_column_physical e) as [c|] eqn:Hc; [|by eexists].
    destruct (as_scalar_value_physical cast_scalar p) as [v|] eqn:Hv; [|by eexists].
    destruct v as [| | | | | | | | | | | | | | | | |[s|]| | | | | | | | | | | | |]; try (by eexists).
    eexists. split; [reflexivity|]. intros r. cbn. by rewrite (phys_column_value r e c), (phys_scalar_value r p _ Hv).
  - apply andb_prop in Hp as [Hn He]. destruct neg; [done|].
    destruct (as_columns_physical e) as [c|] eqn:Hc; [|by eexists].
    destruct (mapM (as_scalar_value_physical cast_scalar) l) as [vs|] eqn:Hvs; [|by eexists].
    eexists. split; [reflexivity|]. intros r. by apply phys_in_list.
  - destruct (IH e) as (f & -> & Ef); [done|done|]. eexists. split; [reflexivity|]. intros r. cbn. by rewrite Ef.
  - case_bool_decide as Hf; [|by eexists]. destruct args as [|a args]; [done|].
    destruct (IH a) as (f & Hfa & Ef); [done|done|]. exists f. split; [done|]. intros r. cbn. by rewrite bool_decide_true.
Qed.
End Exact.

(** ** Resolving filters of the plan *)

Section Resolve.
Context {D row srow : Type} `{!ExprSem row} `{!PhysSem row} `{!Server row srow} `{PrecisionOps} `{Unparser}.
Variable execute : D -> result SqlExpr.
Variable table_ref : TableRef.
Variable m : EncryptedTableMeta PhysicalExpr D.
Variable stats : TableStatistics.
Variable serves : EncryptedIndex PhysicalExpr D -> IndexableFilterExpr PhysicalExpr -> Prop.
Abbreviation opts := (table_physical_options table_ref m).

(** What the resolver relies on for the filters that an index [serves]. *)
Class PhysIndexContract (ix : EncryptedIndex PhysicalExpr D) (srv : IndexableFilterExpr PhysicalExpr -> Prop) : Prop := {
  phys_query_total o f :
    physical_support_options ix = Some o -> fully_supported o stats f -> srv f -> exists q, physical_query ix f = Ok q;
  phys_query_superset o f q (r : row) s :
    physical_support_options ix = Some o -> fully_supported o stats f -> srv f ->
    physical_query ix f = Ok q -> stored r s -> eval r f = Some true -> strategy_holds execute s q
}.

Fixpoint phys_handed_ok (l : list (EncryptedIndex PhysicalExpr D)) (unsupported : option (IndexableFilterExpr PhysicalExpr)) : Prop :=
  match l, unsupported with
  | [], _ | _, None => True
  | ix :: l, Some u =>
      match physical_support_options ix with
      | None => True
      | Some o =>
          let s := split_into_supported_unsupported o stats u in
          split_ok o stats u = true /\ (forall g, supp_of s = Some g -> serves ix g) /\ phys_handed_ok l (unsupp_of s)
      end
  end.

Lemma query_indices_physical_sound l u g :
  (forall ix, ix ∈ l -> PhysIndexContract ix (serves ix)) -> phys_handed_ok l u ->
  exists g' extra,
    query_indices_physical stats l u g = Ok g' /\ g_static g' = g_static g ++ extra /\
    forall (r : row) s, stored r s -> eval_opt r u = Some true ->
      selects execute s (g_static g) (g_dynamic g) -> selects execute s (g_static g') (g_dynamic g').
Proof.
  revert u g. induction l as [|ix l IH]; intros [u|] g Hc Hu; try (by exists g, []; rewrite app_nil_r).
  cbn [query_indices_physical phys_handed_ok] in *. destruct (physical_support_options ix) as [o|] eqn:Ho.
  2: { exists g, []. rewrite app_nil_r. by destruct l. }
  destruct Hu as (Hok & Hsrv & Hrest). pose proof (split_supported_gen o stats u) as Hsup.
  pose proof (fun r : row => split_exact_gen o stats r u Hok) as Hex.
  destruct (split_into_supported_unsupported _ _ u) as [[sup uns] sel].
  unfold supp_of, unsupp_of in *; cbn in Hsup, Hex, Hrest, Hsrv.
  assert (forall ix', ix' ∈ l -> PhysIndexContract ix' (serves ix')) as Hc' by (intros; apply Hc; by right).
  assert (PhysIndexContract ix (serves ix)) as Hix by (apply Hc; left). destruct sup as [f|].
  - specialize (Hsup f eq_refl). specialize (Hsrv f eq_refl).
    destruct (phys_query_total o f Ho Hsup Hsrv) as [q Hq]. rewrite Hq. cbn.
    destruct (IH uns (gather g sel q) Hc' Hrest) as (g' & extra & -> & He & Hsel).
    destruct (gather_static g sel q) as [ex Hge]. rewrite Hge, <- app_assoc in He.
    exists g', (ex ++ extra). split; [done|]. split; [done|]. intros r s Hst Hev Hg.
    change (eval r u = Some true) in Hev. rewrite Hex, kand_true_iff in Hev. destruct Hev as [Hf Hun].
    apply (Hsel r); [done|done|]. apply gather_selects; [done|]. by eapply (phys_query_superset o f).
  - destruct (IH uns g Hc' Hrest) as (g' & extra & -> & He & Hsel). exists g', extra. split; [done|]. split; [done|].
    intros r s Hst Hev. change (eval r u = Some true) in Hev. rewrite Hex, kand_true_iff in Hev.
    destruct Hev as [_ Hun]. by apply (Hsel r).
Qed.

Context `{!ServerLaws table_ref m} `{!TupleServerLaws table_ref m}.

Lemma can_forward_physical_columns f st p : can_forward_exact_physical table_ref m f st = Some p ->
  exists cols, physical_columns f = Some cols /\ Forall (plaintext_column table_ref m) cols.
Proof.
  unfold can_forward_exact_physical. destruct (physical_columns f) as [cols|]; [|done].
  destruct (forallb _ cols) eqn:Hall; [|done]. intros _. exists cols. split; [done|]. apply Forall_forall. intros c Hc.
  apply can_fw_plaintext. rewrite forallb_forall in Hall. by apply Hall, list_elem_of_In.
Qed.

(** What the server is sent for the table's own columns means what the filter means. *)
Lemma forward_physical_exact f o : fully_supported opts stats f -> physical_to_ast f = Ok o ->
  exists sql, o = Some sql /\ forall (r : row) (s : srow), stored r s -> server_eval s sql = eval r f.
Proof.
  intros Hf. revert o. induction Hf as [f p Hp|a b _ IHa _ IHb|a b _ _ IHa _ IHb|a _ _ IHa];
    intros o Ho; cbn [physical_to_ast] in Ho.
  - destruct (can_forward_physical_columns _ _ _ Hp) as (cols & Hc & Hfw).
    destruct f as [| | |c op v| |[c|cs] vs|c pat| |e]; try discriminate Hc; cbn in Hc; simplify_eq;
      cbn [physical_to_ast] in Ho; inv_ok; eexists; (split; [reflexivity|]); intros r s Hs.
    + apply Forall_cons in Hfw as [Hfw _]. exact (server_cmp r s c op v _ _ Hs Hfw E E0).
    + by eapply server_in_structs.
    + by eapply server_in_structs.
    + apply Forall_cons in Hfw as [Hfw _]. exact (server_like r s c pat _ Hs Hfw E).
  - inv_ok. destruct (IHa _ eq_refl) as (sa & -> & Ea). inv_ok. destruct (IHb _ eq_refl) as (sb & -> & Eb).
    eexists. split; [reflexivity|]. intros r s Hs. rewrite server_and. cbn [eval]. by rewrite (Ea r s Hs), (Eb r s Hs).
  - inv_ok. destruct (IHa _ eq_refl) as (sa & -> & Ea). inv_ok. destruct (IHb _ eq_refl) as (sb & -> & Eb).
    eexists. split; [reflexivity|]. intros r s Hs. rewrite server_or. cbn [eval]. by rewrite (Ea r s Hs), (Eb r s Hs).
  - inv_ok. destruct (IHa _ eq_refl) as (sa & -> & Ea). eexists. split; [reflexivity|]. intros r s Hs.
    rewrite server_not. cbn [eval]. by rewrite (Ea r s Hs).
Qed.

Lemma forwarded_physical fs fw (r : row) s :
  stored r s ->
  Forall2 (fun f o => physical_to_ast f = Ok o) (omap supp_of (split_all stats opts fs)) fw ->
  Forall2 (fun f sql => server_eval s sql = eval r f) (omap supp_of (split_all stats opts fs)) (omap id fw).
Proof.
  intros Hst. unfold split_all. revert fw. induction fs as [|f fs IH]; cbn; intros fw Hfw.
  - inversion Hfw. constructor.
  - destruct (supp_of (split_into_supported_unsupported opts stats f)) as [g|] eqn:Hg; [|by apply IH].
    inversion Hfw as [|? o ? fw' Ho Hfw']; subst. destruct (forward_physical_exact g o) as (sql & -> & Hsql); [|done|].
    { by eapply split_supported_gen. }
    cbn. constructor; [by apply Hsql|by apply IH].
Qed.

Context `{!ExprLaws row} `{!TupleLaws row}.

(** The filters of a plan that are resolved: plain, splitting exactly, translated to SQL
    without a panic, and served by the indices they reach. *)
Record phys_resolvable (es : list PhysicalExpr) (fs : list (IndexableFilterExpr PhysicalExpr)) : Prop := {
  pr_plain : forallb phys_plain es = true;
  pr_converted : result_mapM (from_physical cast_scalar) es = Ok fs;
  pr_split : Forall (fun f => split_ok opts stats f = true) fs;
  pr_sql : forall f, f ∈ omap supp_of (split_all stats opts fs) -> exists o, physical_to_ast f = Ok o;
  pr_handed : phys_handed_ok (indices m) (reduce_and (omap unsupp_of (split_all stats opts fs)))
}.

Lemma phys_converted_truth es fs :
  forallb phys_plain es = true -> result_mapM (from_physical cast_scalar) es = Ok fs ->
  Forall2 (fun e f => forall r : row, eval r f = phys_truth r e) es fs.
Proof.
  revert fs. induction es as [|e es IH]; cbn; intros fs Hp Hfs; inv_ok; [by constructor|].
  apply andb_prop in Hp as [Hp Hps]. constructor; [|by apply IH].
  destruct (from_physical_exact_gen e Hp) as (f & Hf & Heq). congruence.
Qed.

Lemma phys_resolver_sound es fs :
  (forall ix, ix ∈ indices m -> PhysIndexContract ix (serves ix)) -> phys_resolvable es fs ->
  exists res,
    resolve_physical table_ref m cast_scalar stats es = Ok res /\
    (forall (r : row) s, stored r s -> Forall (fun e => phys_truth r e = Some true) es ->
       selects execute s (forwarded_static res) (forwarded_dynamic res)) /\
    (forall (r : row) s i e, stored r s -> es !! i = Some e -> i ∈ fully_supported_filters res ->
       Forall (fun e => server_eval s e = Some true) (forwarded_static res) -> phys_truth r e = Some true).
Proof.
  intros Hc [Hp Hconv Hok Hsql Hh]. pose proof (phys_converted_truth es fs Hp Hconv) as Ht.
  destruct (result_mapM_total physical_to_ast _ Hsql) as (fw & Hfw & HF).
  unfold resolve_physical, resolve_indices_for_physical_filters. rewrite Hconv. cbn [result_bind]. rewrite Hfw. cbn [result_bind].
  edestruct (query_indices_physical_sound (indices m)) as (g & extra & Hg & Hext & Hsel); [done|exact Hh|].
  rewrite Hg. cbn [result_bind]. eexists. split; [done|]. cbn. split.
  - intros r s Hst Hall. assert (Forall (fun f => eval r f = Some true) fs) as Hfs.
    { clear -Ht Hall. induction Ht as [|e f es fs Heq _ IH]; [done|].
      apply Forall_cons in Hall as [He Hall]. constructor; [by rewrite Heq|auto]. }
    destruct (split_parts_true opts stats r fs Hok Hfs) as [Hsup Huns].
    apply (Hsel r s Hst); [by apply reduce_and_true|]. split; [|done]. cbn.
    apply (forwarded_all_true opts stats fs (omap id fw) r s Hsup). by apply forwarded_physical.
  - intros r s i e Hst He Hi Hall. rewrite Hext in Hall. apply Forall_app in Hall as [Hall _].
    destruct (Forall2_lookup_l _ _ _ _ _ Ht He) as (f & Hf & Heq). rewrite <- Heq.
    apply (fully_supported_true opts stats fs (omap id fw) r s i f); try done. by apply forwarded_physical.
Qed.
End Resolve.

(** The conversion does not read the flags of [IN] and [LIKE]: a filter and its negation
    are converted to the same tree. *)
Theorem physical_flags_ignored cast e l p c :
  (as_columns_physical e = Some c -> is_Some (mapM (as_scalar_value_physical cast) l) ->
   forall negated, from_physical cast (PhInList e l negated) = from_physical cast (PhInList e l false)) /\
  (forall c s, as_column_physical e = Some c -> as_scalar_value_physical cast p = Some (SUtf8 (Some s)) ->
   forall negated ci, from_physical cast (PhLike negated ci e p) = Ok (KwSearchLike c s)).
Proof.
  split.
  - intros Hc [vs Hvs] negated. cbn. by rewrite Hc, Hvs.
  - intros c' s Hc Hp negated ci. cbn. by rewrite Hc, Hp.
Qed.

(** A comparison on a decrypted column is not detected: the call of [decrypt] is removed
    only where it is the whole condition. *)
Theorem physical_decrypt_not_detected cast args op v :
  op <> OperatorAnd -> op <> OperatorOr ->
  let e := PhBinary (PhScalarFunction DECRYPT_UDF_NAME args) op (PhLiteral v) in
  from_physical cast e = Ok (Other e).
Proof.
  intros Ha Ho. cbn. unfold from_physical_comparison. cbn.
  by destruct op; try done; destruct (equality_operator_try_from _).
Qed.
