(* ===== verification/Indices.v ===== *)
(** * The columnar indices behind the resolver's interface

    The range index and the blind index as [EncryptedIndex] records, the proofs
    that they meet the resolver's [IndexContract] for the conditions of a query and
    its [PhysIndexContract] for the filters of a running plan, and a table on which
    the theorems about the resolver are applied. *)
From S2P Require Import Prelude Values Filters Sql Logical Crypto ArrowCodec BlindIndex RangeIndex Resolver Physical.
From stdpp Require Import pretty.

(** ** The range index *)

Definition range_encrypted_index {P D : Type} `{PrecisionOps} (ix : RangeIndex.RangeIndex)
    (table : string) : EncryptedIndex P D := {|
  logical_support_options := RangeIndex.range_support_options ix;
  logical_query f := result_map Fixed (RangeIndex.range_query ix table f);
  physical_support_options := Some (RangeIndex.range_support_options ix);
  physical_query f := result_map Fixed (RangeIndex.range_query ix table f)
|}.

Section Range.
Context {E row : Type} `{!FilterSem E row} `{!Server row ServerRow} `{PrecisionOps}.
Variables (stats : TableStatistics).
Variables (ix : RangeIndex.RangeIndex) (table : string) (min interval : Z) (dt : DataType).
Hypothesis cfg_uniform : RangeIndex.distribution (RangeIndex.cfg ix) = RangeIndex.Uniform min interval.
Hypothesis interval_pos : (0 < interval)%Z.
Hypothesis server_sql : forall (s : ServerRow) e, server_eval s e = eval_sql s e.
Hypothesis stored_bucket : forall r s, stored r s -> exists x, RangeIndex.row_indexed ix min interval dt r s x.
Abbreviation opts := (RangeIndex.range_support_options (E := E) ix).

(** No strict comparison and no negation once comparisons are merged, and bounds
    of the column's type in the range of the index. *)
Definition range_serves (f : IndexableFilterExpr E) : Prop :=
  RangeIndex.scalars_ok (RangeIndex.bound_ok min interval dt) (optimize_cmp f) /\
  RangeIndex.range_safe (optimize_cmp f) = true.

(** A leaf the index supports has its buckets. *)
Definition range_leaf (f : IndexableFilterExpr E) : Prop :=
  match f with
  | Eq c _ v => name (column c) = RangeIndex.indexed_column ix /\
                exists e, RangeIndex.bucket_literal ix v = Ok e
  | Between c l h => name (column c) = RangeIndex.indexed_column ix /\
                     (exists e, RangeIndex.bucket_literal ix l = Ok e) /\
                     (exists e, RangeIndex.bucket_literal ix h = Ok e)
  | _ => False
  end.

Lemma range_supported_leaf f p : is_supported opts f stats = Some p -> range_leaf f.
Proof.
  cbn. unfold RangeIndex.is_indexable_expr_supported.
  destruct f as [| | |c op v|c l h| | | |]; try done; case_bool_decide; try done; cbn;
    unfold RangeIndex.bucket_literal.
  - destruct (RangeIndex.for_value ix v) as [[i|]|]; cbn; try done. eauto.
  - destruct (RangeIndex.for_value ix l) as [[i|]|]; cbn; try done.
    destruct (RangeIndex.for_value ix h) as [[j|]|]; cbn; try done. eauto.
Qed.

Lemma range_leaf_query f : range_leaf f -> exists sql, RangeIndex.indexable_query_to_expr ix table f = Ok sql.
Proof.
  destruct f as [| | |c op v|c l h| | | |]; try done; cbn.
  - intros [Hc [e He]]. rewrite bool_decide_false by naive_solver. rewrite He. cbn. eauto.
  - intros [Hc [[e He] [e' He']]]. rewrite bool_decide_false by naive_solver. rewrite He, He'. cbn. eauto.
Qed.

Lemma merge_cmp_leaf c lo lv ro rv :
  range_leaf (Eq c lo lv) -> range_leaf (Eq c ro rv) ->
  range_leaf (merge_cmp c lo lv c ro rv) \/
  merge_cmp (E := E) c lo lv c ro rv = And (Eq c lo lv) (Eq c ro rv).
Proof.
  intros [Hc Hl] [_ Hr]. unfold merge_cmp. destruct (scalar_min lv rv); [|by right].
  repeat case_match; cbn; auto.
Qed.

Lemma range_query_total f :
  fully_supported opts stats f -> RangeIndex.range_safe (optimize_cmp f) = true ->
  exists sql, RangeIndex.indexable_query_to_expr ix table (optimize_cmp f) = Ok sql.
Proof.
  induction 1 as [f p Hp|a b Ha IHa Hb IHb|a b _ Ha IHa Hb IHb|a _ _ _]; intros Hs.
  - apply range_supported_leaf in Hp. destruct f; try done; by apply range_leaf_query.
  - cbn [optimize_cmp] in *.
    destruct (as_order_cmp a) as [[[lc lo] lv]|] eqn:Hla;
      [destruct (as_order_cmp b) as [[[rc ro] rv]|] eqn:Hlb|];
      [case_bool_decide as Heq; [|]| |].
    2-4: cbn in Hs; apply andb_prop in Hs as [Hsa Hsb];
      destruct (IHa Hsa) as [x Hx], (IHb Hsb) as [y Hy]; cbn; rewrite Hx, Hy; cbn; eauto.
    apply as_order_cmp_inv in Hla as ->. apply as_order_cmp_inv in Hlb as ->. subst rc.
    inversion Ha as [? ? Hpa| | |]; subst. inversion Hb as [? ? Hpb| | |]; subst.
    apply range_supported_leaf in Hpa, Hpb.
    destruct (merge_cmp_leaf lc lo lv ro rv Hpa Hpb) as [Hm| ->]; [by apply range_leaf_query|].
    destruct (range_leaf_query _ Hpa) as [x Hx], (range_leaf_query _ Hpb) as [y Hy].
    cbn [RangeIndex.indexable_query_to_expr] in *. rewrite Hx, Hy. cbn. eauto.
  - cbn in Hs. apply andb_prop in Hs as [Hsa Hsb].
    destruct (IHa Hsa) as [x Hx], (IHb Hsb) as [y Hy]. cbn. rewrite Hx, Hy. cbn. eauto.
  - done.
Qed.

(** The condition that answers a served filter is built, and it selects every row
    the filter selects. *)
Lemma range_answers f :
  fully_supported opts stats f -> range_serves f ->
  exists sql, RangeIndex.range_query ix table f = Ok sql /\
    forall (r : row) s, stored r s -> eval r f = Some true -> server_eval s sql = Some true.
Proof.
  intros Hf [Hok Hsafe]. destruct (range_query_total f Hf Hsafe) as [sql Hq].
  exists sql. split; [done|]. intros r s Hst Hev.
  rewrite server_sql. destruct (stored_bucket r s Hst) as [x Hx].
  apply (RangeIndex.query_to_expr_superset ix table min interval dt cfg_uniform interval_pos
           r s x (optimize_cmp f)); auto using optimize_cmp_sound.
Qed.
End Range.

Section RangeContracts.
Context {D row : Type} `{!ExprSem row} `{!PhysSem row} `{!Server row ServerRow} `{PrecisionOps}.
Variables (execute : D -> result SqlExpr) (stats : TableStatistics).
Variables (ix : RangeIndex.RangeIndex) (table : string) (min interval : Z) (dt : DataType).
Hypothesis cfg_uniform : RangeIndex.distribution (RangeIndex.cfg ix) = RangeIndex.Uniform min interval.
Hypothesis interval_pos : (0 < interval)%Z.
Hypothesis server_sql : forall (s : ServerRow) e, server_eval s e = eval_sql s e.

#[export] Instance range_contract {P} :
  (forall r s, stored r s -> exists x, RangeIndex.row_indexed (E := Expr) ix min interval dt r s x) ->
  IndexContract execute stats (range_encrypted_index (P := P) ix table) (range_serves min interval dt).
Proof.
  intros Hb. split.
  - intros f Hf Hsrv. destruct (range_answers stats ix table min interval dt cfg_uniform interval_pos server_sql Hb f Hf Hsrv) as (sql & Hq & _).
    exists (Fixed sql). cbn. by rewrite Hq.
  - intros f q r s Hf Hsrv Hq Hst Hev.
    destruct (range_answers stats ix table min interval dt cfg_uniform interval_pos server_sql Hb f Hf Hsrv) as (sql & Hq' & Hsql).
    cbn in Hq. rewrite Hq' in Hq. injection Hq as <-. cbn. eauto.
Qed.

#[export] Instance range_phys_contract :
  (forall r s, stored r s -> exists x, RangeIndex.row_indexed (E := PhysicalExpr) ix min interval dt r s x) ->
  PhysIndexContract execute stats (range_encrypted_index ix table) (range_serves min interval dt).
Proof.
  intros Hb. split.
  - intros o f [= <-] Hf Hsrv. destruct (range_answers stats ix table min interval dt cfg_uniform interval_pos server_sql Hb f Hf Hsrv) as (sql & Hq & _).
    exists (Fixed sql). cbn. by rewrite Hq.
  - intros o f q r s [= <-] Hf Hsrv Hq Hst Hev.
    destruct (range_answers stats ix table min interval dt cfg_uniform interval_pos server_sql Hb f Hf Hsrv) as (sql & Hq' & Hsql).
    cbn in Hq. rewrite Hq' in Hq. injection Hq as <-. cbn. eauto.
Qed.
End RangeContracts.

(** ** The blind index *)

Definition blind_encrypted_index {P D : Type} `{PrecisionOps} `{Hkdf} (display : ScalarValue -> string)
    (master_key : bytes) (ix : BlindIndex.BlindIndex) (table : TableRef) : EncryptedIndex P D := {|
  logical_support_options := BlindIndex.blind_support_options ix;
  logical_query f :=
    result_map Fixed (BlindIndex.indexable_query_to_expr display master_key ix table f);
  physical_support_options := Some (BlindIndex.blind_support_options ix);
  physical_query f :=
    result_map Fixed (BlindIndex.indexable_query_to_expr display master_key ix table f)
|}.

Section Blind.
Context {D row : Type} `{!ExprSem row} `{!PhysSem row} `{!Server row ServerRow} `{PrecisionOps} `{Hkdf}.
Variables (execute : D -> result SqlExpr) (stats : TableStatistics).
Variables (display : ScalarValue -> string) (master_key : bytes).
Variables (ix : BlindIndex.BlindIndex) (table : TableRef).
Hypothesis server_sql : forall (s : ServerRow) e, server_eval s e = eval_sql s e.

(** Every stored row holds the identifier of its value, in the bytes the scalars
    of the filter are turned into. *)
Definition blind_serves {E} `{!FilterSem E row} (f : IndexableFilterExpr E) : Prop :=
  forall r s, stored r s ->
    BlindIndex.blind_stored display master_key ix table r s (BlindIndex.blind_scalars f).

Lemma blind_answers {E} `{!FilterSem E row} (f : IndexableFilterExpr E) :
  fully_supported (BlindIndex.blind_support_options ix) stats f -> blind_serves f ->
  exists sql, BlindIndex.indexable_query_to_expr display master_key ix table f = Ok sql /\
    forall (r : row) s, stored r s -> eval r f = Some true -> server_eval s sql = Some true.
Proof.
  intros Hf Hsrv. destruct (blind_query_total display master_key ix table stats f Hf) as [sql Hq].
  exists sql. split; [done|]. intros r s Hst Hev. rewrite server_sql.
  exact (BlindIndex.blind_query_superset display master_key ix table r s f _ (Hsrv r s Hst) Hq Hev).
Qed.

#[export] Instance blind_contract {P} :
  IndexContract execute stats (blind_encrypted_index (P := P) display master_key ix table) blind_serves.
Proof.
  split.
  - intros f Hf Hsrv. destruct (blind_answers f Hf Hsrv) as (sql & Hq & _).
    exists (Fixed sql). cbn. by rewrite Hq.
  - intros f q r s Hf Hsrv Hq Hst Hev. destruct (blind_answers f Hf Hsrv) as (sql & Hq' & Hsql).
    cbn in Hq. rewrite Hq' in Hq. injection Hq as <-. cbn. eauto.
Qed.

#[export] Instance blind_phys_contract :
  PhysIndexContract execute stats (blind_encrypted_index display master_key ix table) blind_serves.
Proof.
  split.
  - intros o f [= <-] Hf Hsrv. destruct (blind_answers f Hf Hsrv) as (sql & Hq & _).
    exists (Fixed sql). cbn. by rewrite Hq.
  - intros o f q r s [= <-] Hf Hsrv Hq Hst Hev. destruct (blind_answers f Hf Hsrv) as (sql & Hq' & Hsql).
    cbn in Hq. rewrite Hq' in Hq. injection Hq as <-. cbn. eauto.
Qed.
End Blind.

(** ** A table with a range index on an encrypted column

    Column ["a"] is encrypted, with a range index of buckets of 10; the other
    columns are in clear. *)

Abbreviation demo_range_ix := RangeIndex.demo_range.

#[export] Instance demo_unparser : Unparser := {
  scalar_to_sql v := match scalar_key v with Some z => Some (Value (Number z)) | None => None end;
  arrow_dtype_to_ast_dtype _ := None;
  expr_to_sql _ := None
}.

Definition demo_meta {P : Type} : EncryptedTableMeta P Empty_set := {|
  encrypted_columns := ["a"; "prox_rg_i"];
  indices := [range_encrypted_index demo_range_ix "t"]
|}.

Definition demo_execute (d : Empty_set) : result SqlExpr := match d with end.

#[export] Instance demo_server : Server (Z * Z) ServerRow := {
  stored r s :=
    RangeIndex.in_domain 0 10 r.1 /\
    s "prox_rg_i" = Some (CNum (RangeIndex.bucket 0 10 r.1)) /\
    forall n, n <> "a" -> n <> "prox_rg_i" -> s n = Some (CNum r.2);
  server_eval := eval_sql
}.

(** The columns that may be forwarded hold the second component of the row. *)
Lemma demo_column_value {P} (c : ColumnWithCast) ce (r : Z * Z) (s : ServerRow) :
  stored r s -> plaintext_column demo_table_ref (demo_meta (P := P)) c -> column_to_ast c = Ok ce ->
  operand s ce = Some (CNum r.2) /\ cwc_value r c = SInt32 (Some r.2).
Proof.
  intros (_ & _ & Hs) [Hc _] Hce. cbn in Hc.
  assert (name (column c) <> "a" /\ name (column c) <> "prox_rg_i") as [Ha Hp].
  { split; intros Hn; apply Hc; rewrite Hn; [left|right; left]. }
  unfold column_to_ast in Hce. unfold cwc_value. destruct (cast_to c) as [ty|]; [done|].
  split.
  - destruct (Values.relation (column c)) as [[? ?]|]; simplify_eq; cbn; by apply Hs.
  - cbn. by rewrite bool_decide_false.
Qed.

Lemma demo_scalar_value v ve (s : ServerRow) (x : Z) :
  scalar_to_ast v = Ok ve ->
  scalar_cmp (SInt32 (Some x)) v = cell_compare (Some (CNum x)) (operand s ve).
Proof.
  unfold scalar_to_ast. cbn. destruct (scalar_key v); cbn; [|done]. by intros [= <-].
Qed.

Lemma demo_eval_cmp (r : Z * Z) c op v :
  eval_cmp (E := Expr) r c op v = op_holds op <$> scalar_cmp (cwc_value r c) v.
Proof. done. Qed.

#[export] Instance demo_server_laws {P} :
  ServerLaws (row := Z * Z) (srow := ServerRow) demo_table_ref (demo_meta (P := P)).
Proof.
  split; try done.
  - intros r s c op v ce ve Hst Hc Hce Hve.
    destruct (demo_column_value c ce r s Hst Hc Hce) as [Ho Hv].
    rewrite demo_eval_cmp, Hv, (demo_scalar_value v ve s r.2 Hve). cbn [server_eval demo_server].
    destruct (cell_compare (Some (CNum r.2)) (operand s ve)) as [o|] eqn:Hcmp.
    + by erewrite eval_sql_cmp by (by rewrite Ho).
    + unfold binop. destruct op; cbn; by rewrite Ho, Hcmp.
  - intros r s [c|cs] vs ce ves Hst Hc Hce Hves.
    + apply Forall_cons in Hc as [Hc _].
      destruct (demo_column_value c ce r s Hst Hc Hce) as [Ho Hv]. cbn [eval].
      revert ves Hves. induction vs as [|v vs IH]; intros ves Hves; cbn in Hves; inv_ok; [done|].
      cbn [foldr server_eval demo_server eval_sql] in *. rewrite <- (IH _ eq_refl). f_equal.
      rewrite demo_eval_cmp, Hv, (demo_scalar_value v a s r.2 E). unfold cell_eq. rewrite Ho.
      by destruct (cell_compare _ _) as [[]|].
    + cbn in Hce. inv_ok. destruct vs as [|v vs]; cbn in Hves; inv_ok; [done|]. cbn.
      unfold cell_eq. cbn. clear. induction a1 as [|e es IH]; cbn; [done|]. by destruct (foldr _ _ es) as [[]|].
Qed.

Definition demo_serves {P E} (_ : EncryptedIndex P Empty_set) : IndexableFilterExpr E -> Prop :=
  range_serves 0 10 DtInt32.

Lemma demo_stored_bucket {E} `{!FilterSem E (Z * Z)} (r : Z * Z) (s : ServerRow) :
  (forall c v, sem_cmp (E := E) r c v = scalar_cmp (cwc_value r c) v) ->
  stored r s -> exists x, RangeIndex.row_indexed (E := E) demo_range_ix 0 10 DtInt32 r s x.
Proof.
  intros Hsem (Hd & Hp & Hs). exists r.1. split; [|done|done|].
  - intros c Hc v z Hz. rewrite Hsem.
    change (scalar_cmp (cwc_value r c) v = Some (r.1 ?= z)%Z). unfold cwc_value, cast_value.
    assert (col_value r (column c) = SInt32 (Some r.1)) as Hv by (cbn; by rewrite Hc).
    rewrite Hv. destruct (cast_to c); cbn; by rewrite Hz.
  - exists (RangeIndex.bucket 0 10 r.1). split; [|done].
    by apply (RangeIndex.vti_bucket demo_range_ix 0 10).
Qed.

#[export] Instance demo_contract :
  IndexContract (P := unit) (row := Z * Z) (srow := ServerRow) demo_execute demo_stats
    (range_encrypted_index demo_range_ix "t") (range_serves 0 10 DtInt32).
Proof.
  apply (range_contract demo_execute demo_stats demo_range_ix "t" 0 10 DtInt32 eq_refl ltac:(lia));
    [done|intros; by apply demo_stored_bucket].
Qed.

Definition demo_conditions : list Expr :=
  [EBinary (EScalarFunction DECRYPT_UDF_NAME [demo_column "a"; demo_int 0]) OperatorGt (demo_int 21);
   EBinary (EScalarFunction DECRYPT_UDF_NAME [demo_column "a"; demo_int 0]) OperatorLt (demo_int 39);
   EBinary (demo_column "b") OperatorEq (demo_int 3)].

Definition demo_filters : list (IndexableFilterExpr Expr) :=
  [on_a OpGt 21; on_a OpLt 39; on_b OpEq 3].


(** A keyword search on a column that is not encrypted is declared forwardable
    to the server and its translation to SQL panics. *)
Theorem plaintext_match_panics :
  resolve_indices_for_logical_filters demo_table_ref (demo_meta (P := unit)) cast_scalar demo_stats
    [EScalarFunction KW_SEARCH_UDF_NAME
       [demo_column "b"; ELiteral (SUtf8 (Some "+word")); ELiteral (SUtf8 (Some "BOOLEAN"))]]
  = Err (Panic "not implemented: kw_match").
Proof. by vm_compute. Qed.

(** ** The filters of a running plan *)

Section RunningPlan.
Context {D row srow : Type} `{!ExprSem row} `{!PhysSem row} `{!Server row srow} `{PrecisionOps} `{Unparser}.
Variable execute : D -> result SqlExpr.
Variable table_ref : TableRef.
Variable m : EncryptedTableMeta PhysicalExpr D.
Variable stats : TableStatistics.
Variable serves : EncryptedIndex PhysicalExpr D -> IndexableFilterExpr PhysicalExpr -> Prop.
Context `{!ServerLaws table_ref m} `{!TupleServerLaws table_ref m} `{!ExprLaws row} `{!TupleLaws row}.

End RunningPlan.

#[export] Instance demo_phys_sem : PhysSem (Z * Z) := {| phys_other _ _ := SNull |}.

#[export] Instance demo_tuple_laws : TupleLaws (Z * Z).
Proof.
  intros r cs vs. induction vs as [|v vs IH]; [done|]. cbn [foldr]. rewrite <- IH. by destruct vs.
Qed.

Lemma demo_struct_value v ve (s : ServerRow) (x : Z) :
  scalar_or_struct_to_expr v = Some ve ->
  scalar_cmp (SInt32 (Some x)) v = cell_compare (Some (CNum x)) (operand s ve).
Proof.
  destruct v; cbn [scalar_or_struct_to_expr];
    try (intros Hv; apply demo_scalar_value; unfold scalar_to_ast; by rewrite Hv).
  intros Hv. by apply fmap_Some in Hv as (es & _ & ->).
Qed.

#[export] Instance demo_tuple_server_laws :
  TupleServerLaws (row := Z * Z) (srow := ServerRow) demo_table_ref demo_meta.
Proof.
  intros r s [c|cs] vs ce ves Hst Hc Hce Hves.
  - apply Forall_cons in Hc as [Hc _].
    destruct (demo_column_value c ce r s Hst Hc Hce) as [Ho Hv]. cbn [eval].
    revert ves Hves. induction vs as [|v vs IH]; intros ves Hves; cbn in Hves; inv_ok; [done|].
    cbn [foldr server_eval demo_server eval_sql] in *. rewrite <- (IH _ eq_refl). f_equal.
    change (eval_cmp (E := PhysicalExpr) r c OpEq v) with (op_holds OpEq <$> scalar_cmp (cwc_value r c) v).
    destruct (scalar_or_struct_to_expr v) as [ve|] eqn:Hve; [|done]. cbn in E. simplify_eq.
    rewrite Hv, (demo_struct_value v a s r.2 Hve). unfold cell_eq. rewrite Ho.
    by destruct (cell_compare _ _) as [[]|].
  - cbn in Hce. inv_ok. destruct vs as [|v vs]; cbn in Hves; inv_ok; [done|]. cbn.
    unfold cell_eq. cbn. clear. induction a1 as [|e es IH]; cbn; [done|]. by destruct (foldr _ _ es) as [[]|].
Qed.

(** A hash join on the encrypted column asks for its bounds and for the keys in the
    clear column. *)
Definition demo_phys_conditions : list PhysicalExpr :=
  [PhBinary (PhBinary (PhColumn "a" 0) OperatorGtEq (PhLiteral (SInt32 (Some 21%Z)))) OperatorAnd
     (PhBinary (PhColumn "a" 0) OperatorLtEq (PhLiteral (SInt32 (Some 39%Z))));
   PhInList (PhColumn "b" 1) [PhLiteral (SInt32 (Some 3%Z)); PhLiteral (SInt32 (Some 5%Z))] false].

Definition demo_phys_filters : list (IndexableFilterExpr PhysicalExpr) :=
  [And (Eq (cwc_raw "a") OpGtEq (SInt32 (Some 21%Z))) (Eq (cwc_raw "a") OpLtEq (SInt32 (Some 39%Z)));
   InList (CColumn (cwc_raw "b")) [SInt32 (Some 3%Z); SInt32 (Some 5%Z)]].

