(* ===== verification/TermPage.v ===== *)
(** * Pages of an inverted index

    Models [TermPageHeader] and [TermPage] of
    [backends/mysql/src/metadata/indices/inverted_index/db_inverted_index.rs]: a
    page is a fixed-size block that holds the term, the page number and the
    identifiers of the documents that contain the term, laid out byte by byte. *)
From S2P Require Import Prelude Crypto.

Definition MAX_TERM_SIZE : nat := 64.
Definition PAGE_SIZE : nat := 4096 - 16.
Definition PAGE_NUM_LEN : nat := 5 - MAX_TERM_SIZE mod 8.
(** [size_of::<TermPageHeader>()]: a [u16], a [u8], the term and the number. *)
Definition HEADER_SIZE : nat := 2 + 1 + MAX_TERM_SIZE + PAGE_NUM_LEN.
Definition ENTRIES_DATA_SIZE : nat := PAGE_SIZE - HEADER_SIZE.

(** Terms longer than the limit are cut. *)
Definition resize_term (term : bytes) : bytes :=
  if bool_decide (MAX_TERM_SIZE < length term) then take MAX_TERM_SIZE term else term.

Record TermPageHeader := {
  num_present : Z;
  term_len : Z;
  header_term_array : bytes;
  header_page_number : bytes
}.

Definition header_term (h : TermPageHeader) : bytes :=
  take (Z.to_nat (term_len h)) (header_term_array h).

(** The number is read back into a [usize]: missing high bytes are zero. *)
Definition page_number (h : TermPageHeader) : Z :=
  from_le_bytes (header_page_number h ++ replicate (8 - length (header_page_number h)) Byte.x00).

Definition header_new (term : bytes) (page_num : Z) : TermPageHeader :=
  let term_len := min (length term) MAX_TERM_SIZE in
  {| num_present := 0;
     term_len := wrap_u 8 (Z.of_nat term_len);
     header_term_array := take term_len term ++ replicate (MAX_TERM_SIZE - term_len) Byte.x00;
     header_page_number := take PAGE_NUM_LEN (to_le_bytes 8 page_num) |}.

Record TermPage := { header : TermPageHeader; entries_data : bytes }.

(** [as_chunks]: whole chunks, the remainder dropped; the recursion is on a bound
    that the length always satisfies. *)
Fixpoint as_chunks_fuel (fuel n : nat) (l : bytes) : list bytes :=
  match fuel with
  | O => []
  | S fuel => if bool_decide (length l < n) then [] else take n l :: as_chunks_fuel fuel n (drop n l)
  end.
Definition as_chunks (n : nat) (l : bytes) : list bytes := as_chunks_fuel (length l) n l.

Section Page.
(** The size of a document identifier. *)
Variable KeySize : nat.

Definition items (p : TermPage) : result (list bytes) :=
  let total_occupied_size := KeySize * Z.to_nat (num_present (header p)) in
  if bool_decide (length (entries_data p) < total_occupied_size) then
    Err (Panic "range end index out of range")
  else Ok (as_chunks KeySize (take total_occupied_size (entries_data p))).

Definition page_new (term : bytes) (page_num : Z) : TermPage :=
  {| entries_data := replicate ENTRIES_DATA_SIZE Byte.x00; header := header_new term page_num |}.

(** The conversion to [u16] never fails: the block has fewer bytes. *)
Definition max_entries : nat := (PAGE_SIZE - HEADER_SIZE) / KeySize.

Definition free_space (p : TermPage) : result Z :=
  if bool_decide (Z.of_nat max_entries < num_present (header p))%Z then
    Err (Panic "max entries smaller than present")
  else Ok (Z.of_nat max_entries - num_present (header p))%Z.

(** One turn of the loop of [from_iterator]: write at [position], count. *)
Definition push_entry (st : TermPage * nat) (elem : bytes) : result (TermPage * nat) :=
  let '(page, position) := st in
  if bool_decide (length (entries_data page) < position + KeySize) then
    Err (Panic "range end index out of range")
  else
    let data := take position (entries_data page) ++ elem
                  ++ drop (position + KeySize) (entries_data page) in
    let h := header page in
    Ok ({| entries_data := data;
           header := {| num_present := wrap_u 16 (num_present h + 1); term_len := term_len h;
                        header_term_array := header_term_array h;
                        header_page_number := header_page_number h |} |},
        position + KeySize).

Definition from_iterator (term : bytes) (page_num : Z) (i : list bytes) : result TermPage :=
  let? (page, _) := result_foldl push_entry (page_new term page_num, 0) i in Ok page.

Context `{Aead} `{!Codec TermPage}.

Definition page_decrypt (tag key : bytes) (version : Z) (buffer : bytes) : result TermPage :=
  let? buf := decrypt_with_nonce_detached key buffer tag (to_le_bytes 8 version) in
  ok_or (codec_decode buf) DecodeError.

Definition page_encrypt (p : TermPage) (tag key : bytes) (version : Z) : result bytes :=
  encrypt_with_fixed_nonce key (codec_encode p) tag (to_le_bytes 8 version).
End Page.

(** ** Lemmas *)

Lemma resize_term_length t : length (resize_term t) <= MAX_TERM_SIZE.
Proof. unfold resize_term. case_bool_decide; rewrite ?length_take; lia. Qed.

Lemma resize_term_id t : length t <= MAX_TERM_SIZE -> resize_term t = t.
Proof. intros. unfold resize_term. case_bool_decide; [lia|done]. Qed.

Lemma resize_term_idemp t : resize_term (resize_term t) = resize_term t.
Proof. apply resize_term_id, resize_term_length. Qed.

Lemma header_size : HEADER_SIZE = 72.
Proof. reflexivity. Qed.

Lemma header_term_new t n : length t <= MAX_TERM_SIZE -> header_term (header_new t n) = t.
Proof.
  intros Hl. unfold header_term, header_new. cbn [term_len header_term_array].
  rewrite Nat.min_l by lia. unfold MAX_TERM_SIZE in *.
  rewrite wrap_u_id by (unfold fits_u; lia). rewrite Nat2Z.id.
  rewrite (take_ge t) by lia. by rewrite take_app_length.
Qed.

Lemma page_number_new t n : fits_u 40 n -> page_number (header_new t n) = n.
Proof.
  intros Hn. unfold page_number, header_new. cbn [header_page_number].
  rewrite length_take, length_to_le_bytes. change (PAGE_NUM_LEN) with 5. cbn [Nat.min Nat.sub].
  unfold from_le_bytes. change (replicate 3 Byte.x00) with (List.repeat Byte.x00 3).
  rewrite le_combine_app_0.
  unfold to_le_bytes. rewrite (le_combine_firstn 5), le_combine_split.
  rewrite (Z.mod_small n) by (unfold fits_u in Hn; lia).
  apply Z.mod_small. exact Hn.
Qed.

Section PageLemmas.
Variable KeySize : nat.
Hypothesis KeySize_pos : 0 < KeySize.

(** Identifiers that fit a page. *)
Definition page_ids (l : list bytes) : Prop :=
  Forall (fun d : bytes => length d = KeySize) l /\ length l <= max_entries KeySize.

Lemma length_concat_ids l :
  Forall (fun d : bytes => length d = KeySize) l -> length (concat l) = KeySize * length l.
Proof. induction 1 as [|d l Hd _ IH]; simpl; [lia|]. rewrite length_app, IH. lia. Qed.

Lemma max_entries_bound l : page_ids l -> KeySize * length l <= ENTRIES_DATA_SIZE.
Proof.
  intros [_ Hl]. unfold max_entries, ENTRIES_DATA_SIZE in *.
  pose proof (Nat.Div0.mul_div_le (PAGE_SIZE - HEADER_SIZE) KeySize). nia.
Qed.

(** The page holding [l]: header, then the identifiers, then zeros. *)
Definition page_of (term : bytes) (n : Z) (l : list bytes) : TermPage :=
  let h := header_new term n in
  {| header := {| num_present := Z.of_nat (length l); term_len := term_len h;
                  header_term_array := header_term_array h;
                  header_page_number := header_page_number h |};
     entries_data := concat l ++ replicate (ENTRIES_DATA_SIZE - KeySize * length l) Byte.x00 |}.

Lemma push_entry_page_of term n l d :
  page_ids (l ++ [d]) ->
  push_entry KeySize (page_of term n l, KeySize * length l) d
  = Ok (page_of term n (l ++ [d]), KeySize * length (l ++ [d])).
Proof.
  intros Hids. pose proof (max_entries_bound _ Hids) as Hb. destruct Hids as [Hall Hlen].
  apply Forall_app in Hall as [Hl Hd]. apply Forall_singleton in Hd.
  rewrite length_app in *. cbn [length] in *.
  unfold push_entry, page_of. cbn [entries_data header num_present term_len header_term_array
    header_page_number].
  rewrite !length_app, length_replicate, (length_concat_ids l Hl). cbn [length].
  rewrite bool_decide_false by lia. f_equal. f_equal; [|lia]. f_equal.
  - f_equal. rewrite wrap_u_id; [lia|]. unfold fits_u.
    assert (length l + 1 <= 4008) by (unfold max_entries in Hlen;
      change (PAGE_SIZE - HEADER_SIZE) with 4008 in Hlen;
      pose proof (Nat.Div0.div_le_upper_bound 4008 KeySize 4008); nia).
    lia.
  - rewrite <- (length_concat_ids l Hl), take_app_length.
    rewrite drop_app_add, drop_replicate, concat_app. simpl. rewrite app_nil_r, <- app_assoc.
    do 2 f_equal. rewrite (length_concat_ids l Hl). f_equal. lia.
Qed.

Lemma from_iterator_page_of term n l :
  page_ids l -> from_iterator KeySize term n l = Ok (page_of term n l).
Proof.
  intros Hids. unfold from_iterator.
  assert (forall done todo, page_ids (done ++ todo) ->
    result_foldl (push_entry KeySize) (page_of term n done, KeySize * length done) todo
    = Ok (page_of term n (done ++ todo), KeySize * length (done ++ todo))) as Hgen.
  { intros done todo. revert done. induction todo as [|d todo IH]; intros done Hd; cbn [result_foldl].
    - by rewrite app_nil_r.
    - rewrite push_entry_page_of; cbn [result_bind].
      + rewrite IH; by rewrite <- app_assoc.
      + destruct Hd as [Ha Hl]. split.
        * rewrite !Forall_app, ?Forall_cons in *. intuition constructor.
        * rewrite !length_app in *. simpl in *. lia. }
  specialize (Hgen [] l Hids). simpl in Hgen.
  replace (page_of term n [], KeySize * 0) with (page_new term n, 0) in Hgen; [by rewrite Hgen|].
  unfold page_of, page_new. cbn [length concat]. rewrite Nat.mul_0_r, Nat.sub_0_r. done.
Qed.

Lemma as_chunks_fuel_concat fuel l :
  Forall (fun d : bytes => length d = KeySize) l -> length l <= fuel ->
  as_chunks_fuel fuel KeySize (concat l) = l.
Proof.
  revert l. induction fuel as [|fuel IH]; intros [|d l] Hl Hf; simpl in *; try done; try lia.
  - by rewrite bool_decide_true by lia.
  - apply Forall_cons in Hl as [Hd Hl]. rewrite length_app, bool_decide_false by lia.
    rewrite <- Hd, take_app_length, drop_app_length, Hd. f_equal. apply IH; [done|lia].
Qed.

Lemma items_page_of term n l : page_ids l -> items KeySize (page_of term n l) = Ok l.
Proof.
  intros Hids. pose proof (max_entries_bound _ Hids) as Hb. destruct Hids as [Hl _].
  unfold items, page_of. cbn [header num_present entries_data]. rewrite Nat2Z.id.
  rewrite length_app, length_replicate, (length_concat_ids l Hl), bool_decide_false by lia.
  rewrite <- (length_concat_ids l Hl), take_app_length. f_equal.
  unfold as_chunks. apply as_chunks_fuel_concat; [done|]. rewrite (length_concat_ids l Hl). nia.
Qed.

Lemma free_space_page_of term n l :
  page_ids l -> free_space KeySize (page_of term n l) = Ok (Z.of_nat (max_entries KeySize - length l)).
Proof.
  intros [_ Hl]. unfold free_space, page_of. cbn [header num_present].
  rewrite bool_decide_false by lia. f_equal. lia.
Qed.

Lemma header_term_page_of t n l :
  length t <= MAX_TERM_SIZE -> header_term (header (page_of t n l)) = t.
Proof. apply (header_term_new t n). Qed.

Lemma page_number_page_of t n l : fits_u 40 n -> page_number (header (page_of t n l)) = n.
Proof. apply (page_number_new t n). Qed.
End PageLemmas.

(** a page built from the identifiers of a term reads back: the term, the
    page number, the identifiers in order and the free space are those written,
    for identifiers of the page's size that fit it and a number below 2^40. *)
Theorem term_page_roundtrip (KeySize : nat) term n ids :
  0 < KeySize -> length term <= MAX_TERM_SIZE -> fits_u 40 n -> page_ids KeySize ids ->
  exists p, from_iterator KeySize term n ids = Ok p /\
    header_term (header p) = term /\ page_number (header p) = n /\
    items KeySize p = Ok ids /\
    free_space KeySize p = Ok (Z.of_nat (max_entries KeySize - length ids)) /\
    length (entries_data p) = ENTRIES_DATA_SIZE.
Proof.
  intros Hk Ht Hn Hids. exists (page_of KeySize term n ids).
  pose proof (max_entries_bound _ Hk _ Hids) as Hb.
  rewrite from_iterator_page_of, header_term_page_of, page_number_page_of, items_page_of,
    free_space_page_of by done.
  repeat split. unfold page_of. cbn [entries_data].
  rewrite length_app, length_replicate, (length_concat_ids KeySize Hk ids) by apply Hids. lia.
Qed.

Definition demo_id (n : Z) : bytes := to_le_bytes 4 n.

Lemma term_page_roundtrip_witness :
  exists p, from_iterator 4 [Byte.x30; Byte.x61] 258 [demo_id 7; demo_id 9] = Ok p /\
    header_term (header p) = [Byte.x30; Byte.x61] /\ page_number (header p) = 258%Z /\
    items 4 p = Ok [demo_id 7; demo_id 9] /\
    free_space 4 p = Ok (Z.of_nat (max_entries 4 - 2)) /\
    length (entries_data p) = ENTRIES_DATA_SIZE.
Proof.
  apply (term_page_roundtrip 4 [Byte.x30; Byte.x61] 258 [demo_id 7; demo_id 9]).
  - lia.
  - vm_compute. lia.
  - vm_compute. intuition discriminate.
  - split; [repeat constructor|vm_compute; lia].
Defined.
