(* ===== verification/IndexMetadata.v ===== *)
(** * Metadata page and modifications table of an inverted index

    Models the module [metadata_page], [ModificationsTable] and the two
    [VersionedXxx] records of
    [backends/mysql/src/metadata/indices/inverted_index/db_inverted_index.rs]. The
    metadata page records how many pages each term has; it is kept under a size
    limit by forgetting the terms with few pages, for which a common default is
    assumed. The modifications table holds the additions and removals that are
    not yet merged into the pages. *)
From S2P Require Import Prelude Sql Crypto TermPage.

(** ** Metadata page *)

Record MetadataPage := {
  num_pages : gmap bytes Z;
  default_num_pages : Z;
  key_size : Z
}.

Definition MAX_METADATA_PAGE_SIZE : nat := Z.to_nat (2 ^ 20).

Definition metadata_new (key_size : Z) : MetadataPage :=
  {| num_pages := ∅; default_num_pages := 0; key_size := key_size |}.

(** The nonce is the version, in the first eight of the cipher's nonce bytes. *)
Definition metadata_nonce (version : Z) : bytes :=
  to_le_bytes 8 version ++ replicate (NONCE_LEN - 8) Byte.x00.

Definition get_num_pages (m : MetadataPage) (tag : bytes) : Z :=
  default (default_num_pages m) (num_pages m !! tag).

Definition insert_entry (m : MetadataPage) (keyword : bytes) (n : Z) : MetadataPage :=
  if bool_decide (default_num_pages m < n)%Z then
    {| num_pages := <[keyword := n]> (num_pages m);
       default_num_pages := default_num_pages m; key_size := key_size m |}
  else
    {| num_pages := delete keyword (num_pages m);
       default_num_pages := default_num_pages m; key_size := key_size m |}.

(** One turn of the shrinking loop: raise the default, drop what it covers. *)
Definition raise_default (m : MetadataPage) : MetadataPage :=
  let d := (default_num_pages m + 1)%Z in
  {| num_pages := filter (fun '(_, v) => (d < v)%Z) (num_pages m);
     default_num_pages := d; key_size := key_size m |}.

Definition metadata_aad : bytes := string_bytes "metadata_page".

Section Metadata.
Context `{Aead} `{!Codec MetadataPage}.

(** [shrink_to_fit_and_encode], as the page it leaves; [None] when [fuel] turns
    were not enough. *)
Fixpoint shrink_to_fit (fuel : nat) (m : MetadataPage) : option MetadataPage :=
  if bool_decide (length (codec_encode m) <= MAX_METADATA_PAGE_SIZE) then Some m
  else match fuel with
       | O => None
       | S fuel => shrink_to_fit fuel (raise_default m)
       end.

(** The largest recorded number of pages: after that many turns nothing is left. *)
Definition shrink_fuel (m : MetadataPage) : nat :=
  Z.to_nat (map_fold (fun _ v acc => Z.max v acc) 0%Z (num_pages m)).

Definition shrunk (m : MetadataPage) : MetadataPage := default m (shrink_to_fit (shrink_fuel m) m).

Definition metadata_encrypt (m : MetadataPage) (key : bytes) (version : Z) : result bytes :=
  match shrink_to_fit (shrink_fuel m) m with
  | None => Err (Panic "metadata page cannot be made to fit")
  | Some m => encrypt_with_fixed_nonce key (codec_encode m) (metadata_nonce version) metadata_aad
  end.

Definition metadata_decrypt (key : bytes) (version : Z) (buffer : bytes) : result MetadataPage :=
  let? buf := decrypt_with_nonce_detached key buffer (metadata_nonce version) metadata_aad in
  ok_or (codec_decode buf) DecodeError.
End Metadata.

Record VersionedMetadataPage := { meta_version : Z; metadata : MetadataPage }.

(** ** Modifications table *)

Record ModificationsTable := {
  added_entries : gmap bytes (gset bytes);
  removed_entries : gmap bytes (gset bytes)
}.

Definition no_modifications : ModificationsTable := {| added_entries := ∅; removed_entries := ∅ |}.

(** The nonce is the 128-bit total version cut to the nonce size; the bytes cut
    off must be zero. *)
Definition modifications_nonce (meta_version modif_version : Z) : result bytes :=
  let total_version := Z.lor (Z.shiftl meta_version 32) modif_version in
  let b := to_le_bytes 16 total_version in
  if forallb (fun x => bool_decide (x = Byte.x00)) (drop NONCE_LEN b) then Ok (take NONCE_LEN b)
  else Err (Panic "nonce spill!").

Definition modifications_aad : bytes := string_bytes "modifications_page".

(** [document] is moved from the set of [term] in [off] to the one in [on]. *)
Definition move_document (document term : bytes) (off on : gmap bytes (gset bytes)) :
    gmap bytes (gset bytes) * gmap bytes (gset bytes) :=
  let off := match off !! term with
             | Some set => <[term := set ∖ {[document]}]> off
             | None => off
             end in
  let on := match on !! term with
            | Some existing => <[term := existing ∪ {[document]}]> on
            | None => <[term := {[document]}]> on
            end in
  (off, on).

Definition insert_term (document : bytes) (m : ModificationsTable) (term : bytes) :
    ModificationsTable :=
  let '(removed, added) :=
    move_document document (resize_term term) (removed_entries m) (added_entries m) in
  {| added_entries := added; removed_entries := removed |}.

Definition remove_term (document : bytes) (m : ModificationsTable) (term : bytes) :
    ModificationsTable :=
  let '(added, removed) :=
    move_document document (resize_term term) (added_entries m) (removed_entries m) in
  {| added_entries := added; removed_entries := removed |}.

Definition insert_terms (m : ModificationsTable) (document : bytes) (terms : list bytes) :
    ModificationsTable := foldl (insert_term document) m terms.

Definition remove_terms (m : ModificationsTable) (document : bytes) (terms : list bytes) :
    ModificationsTable := foldl (remove_term document) m terms.

Section Modifications.
Context `{Aead} `{!Codec ModificationsTable}.

Definition modifications_encrypt (m : ModificationsTable) (key : bytes)
    (meta_version modif_version : Z) : result bytes :=
  let? nonce := modifications_nonce meta_version modif_version in
  encrypt_with_fixed_nonce key (codec_encode m) nonce modifications_aad.

Definition modifications_decrypt (key : bytes) (meta_version modif_version : Z) (buffer : bytes) :
    result ModificationsTable :=
  let? nonce := modifications_nonce meta_version modif_version in
  let? buf := decrypt_with_nonce_detached key buffer nonce modifications_aad in
  ok_or (codec_decode buf) DecodeError.
End Modifications.

Record VersionedModificationsTable := {
  modifications_version : Z;
  modifications : ModificationsTable
}.

(** ** Lemmas on the metadata page *)

Lemma get_num_pages_insert m k n t :
  (n <= get_num_pages (insert_entry m k n) k)%Z /\
  (t <> k -> get_num_pages (insert_entry m k n) t = get_num_pages m t).
Proof.
  unfold get_num_pages, insert_entry. case_bool_decide; cbn; split.
  - by rewrite lookup_insert_eq.
  - intros. by rewrite lookup_insert_ne.
  - rewrite lookup_delete_eq. cbn. lia.
  - intros. by rewrite lookup_delete_ne.
Qed.

Lemma get_num_pages_raise m t : (get_num_pages m t <= get_num_pages (raise_default m) t)%Z.
Proof.
  unfold get_num_pages, raise_default. cbn. rewrite map_lookup_filter.
  destruct (num_pages m !! t) as [v|]; cbn; [|lia].
  case_guard; cbn; lia.
Qed.

Lemma raise_default_bound m b :
  (forall t v, num_pages m !! t = Some v -> (v <= b)%Z) ->
  forall t v, num_pages (raise_default m) !! t = Some v -> (v <= b)%Z.
Proof. intros Hb t v. cbn. rewrite map_lookup_filter_Some. intros [? _]; eauto. Qed.

Lemma shrink_fuel_bound m t v : num_pages m !! t = Some v -> (v <= Z.of_nat (shrink_fuel m))%Z.
Proof.
  intros Hv. unfold shrink_fuel.
  enough (forall (r : Z) (l : gmap bytes Z), r = map_fold (fun _ v acc => Z.max v acc) 0%Z l ->
    (0 <= r)%Z /\ (l !! t = Some v -> (v <= r)%Z)) as H by (destruct (H _ (num_pages m) eq_refl) as [H0 H1]; specialize (H1 Hv); lia).
  intros r l ->. revert l.
  apply (map_fold_weak_ind (fun (r : Z) l => (0 <= r)%Z /\ (l !! t = Some v -> (v <= r)%Z))).
  - split; [lia|]. by rewrite lookup_empty.
  - intros k w l' r Hk [Hr IH]. split; [lia|].
    rewrite lookup_insert. case_decide; [intros [= ->]; lia|]. intros Hl. specialize (IH Hl). lia.
Qed.

(** Terms are recorded only when the default does not cover them. *)
Definition metadata_wf (m : MetadataPage) : Prop :=
  fits_u 64 (default_num_pages m) /\ fits_u 64 (key_size m) /\
  forall t v, num_pages m !! t = Some v -> (default_num_pages m < v < 2 ^ 64)%Z.

Lemma metadata_new_wf k : fits_u 64 k -> metadata_wf (metadata_new k).
Proof. split; [done|]. split; [done|]. intros t v. cbn. by rewrite lookup_empty. Qed.

Lemma insert_entry_wf m k n :
  (n < 2 ^ 64)%Z -> metadata_wf m -> metadata_wf (insert_entry m k n).
Proof.
  intros Hn (Hd & Hk & Hm). unfold insert_entry.
  case_bool_decide; (split; [done|split; [done|]]); cbn -[Z.pow]; intros t v.
  - rewrite lookup_insert. case_decide; [intros [= <-]; lia|]. apply Hm.
  - rewrite lookup_delete_Some. intros [_ ?]. eauto.
Qed.

Lemma raise_default_wf m t v :
  num_pages m !! t = Some v -> metadata_wf m -> metadata_wf (raise_default m).
Proof.
  intros Ht (Hd & Hk & Hm). pose proof (Hm t v Ht) as Hv. unfold fits_u in Hd.
  split; [unfold fits_u; cbn -[Z.pow]; lia|]. split; [done|].
  intros t' v'. cbn -[Z.pow]. rewrite map_lookup_filter_Some. intros [Hv' ?].
  specialize (Hm t' v' Hv'). lia.
Qed.

Section ShrinkLemmas.
Context `{!Codec MetadataPage}.

(** A page whose table is empty fits. *)
Definition empty_fits : Prop := forall d k, fits_u 64 d -> fits_u 64 k ->
  length (codec_encode {| num_pages := ∅; default_num_pages := d; key_size := k |})
  <= MAX_METADATA_PAGE_SIZE.

Lemma too_big_entry m :
  empty_fits -> metadata_wf m -> ~ length (codec_encode m) <= MAX_METADATA_PAGE_SIZE ->
  exists t v, num_pages m !! t = Some v.
Proof.
  intros Hfits (Hd & Hk & _) Hbig.
  destruct (decide (num_pages m = ∅)) as [He|Hne].
  - destruct Hbig. destruct m as [np d k]. cbn in *. subst. by apply Hfits.
  - by apply map_choose in Hne.
Qed.

Lemma shrink_terminates fuel m :
  empty_fits -> metadata_wf m ->
  (forall t v, num_pages m !! t = Some v -> (v <= default_num_pages m + Z.of_nat fuel)%Z) ->
  exists m', shrink_to_fit fuel m = Some m' /\
    length (codec_encode m') <= MAX_METADATA_PAGE_SIZE /\ metadata_wf m' /\
    (forall t, (get_num_pages m t <= get_num_pages m' t)%Z).
Proof.
  intros Hfits. revert m. induction fuel as [|fuel IH]; intros m Hwf Hb; cbn [shrink_to_fit];
    (case_bool_decide as Hfit; [exists m; by eauto with lia|]);
    destruct (too_big_entry m Hfits Hwf Hfit) as (t0 & v0 & Ht0).
  - destruct Hwf as (_ & _ & Hlt). specialize (Hlt _ _ Ht0). specialize (Hb _ _ Ht0). lia.
  - destruct (IH (raise_default m)) as (m' & Hs & Hl & Hw & Hn).
    + by eapply raise_default_wf.
    + intros t v. cbn. rewrite map_lookup_filter_Some. intros [Hv _]. specialize (Hb t v Hv). lia.
    + exists m'. split; [done|]. split; [done|]. split; [done|]. intros t.
      pose proof (get_num_pages_raise m t). specialize (Hn t). lia.
Qed.

Lemma shrunk_spec m :
  empty_fits -> metadata_wf m ->
  shrink_to_fit (shrink_fuel m) m = Some (shrunk m) /\ metadata_wf (shrunk m) /\
  length (codec_encode (shrunk m)) <= MAX_METADATA_PAGE_SIZE /\
  (forall t, (get_num_pages m t <= get_num_pages (shrunk m) t)%Z).
Proof.
  intros Hf Hwf. destruct (shrink_terminates (shrink_fuel m) m Hf Hwf) as (m' & Hs & Hl & Hw & Hn).
  - intros t v Hv. pose proof (shrink_fuel_bound m t v Hv). destruct Hwf as [[? _] _]. lia.
  - unfold shrunk. rewrite Hs. cbn. eauto.
Qed.
End ShrinkLemmas.

(** ** Nonces *)

Lemma metadata_nonce_length v : length (metadata_nonce v) = NONCE_LEN.
Proof. unfold metadata_nonce. by rewrite length_app, length_to_le_bytes, length_replicate. Qed.

Lemma total_version_sum mv v :
  fits_u 32 v -> Z.lor (Z.shiftl mv 32) v = (mv * 2 ^ 32 + v)%Z.
Proof.
  intros [Hv1 Hv2]. rewrite <- Z.shiftl_mul_pow2 by lia.
  rewrite <- Z.add_lor_land.
  enough (Z.land (Z.shiftl mv 32) v = 0%Z) by lia.
  apply Z.bits_inj'. intros n Hn. rewrite Z.land_spec, Z.bits_0.
  destruct (Z.ltb_spec n 32).
  - by rewrite Z.shiftl_spec_low.
  - rewrite <- (Z.mod_small v (2 ^ 32)) by lia. by rewrite Z.mod_pow2_bits_high, andb_false_r by lia.
Qed.

Lemma take_le_split n m z : n <= m -> take n (le_split m z) = le_split n z.
Proof.
  intros Hnm. apply le_combine_inj.
  - rewrite length_take, !length_le_split. lia.
  - rewrite le_combine_firstn, !le_combine_split.
    replace (8 * Z.of_nat n)%Z with (Z.of_nat n * 8)%Z by lia.
    apply Z.mod_mod_divide.
    exists (2 ^ ((Z.of_nat m - Z.of_nat n) * 8))%Z. rewrite <- Z.pow_add_r by lia. f_equal. lia.
Qed.

Lemma modifications_nonce_ok mv v :
  fits_u 64 mv -> fits_u 32 v ->
  modifications_nonce mv v = Ok (to_le_bytes NONCE_LEN (mv * 2 ^ 32 + v)).
Proof.
  intros Hm Hv. unfold modifications_nonce. rewrite total_version_sum by done.
  unfold to_le_bytes. rewrite skipn_le_split by (vm_compute; lia).
  unfold fits_u in *. change (8 * Z.of_nat NONCE_LEN)%Z with 96%Z.
  rewrite Z.shiftr_div_pow2, Z.div_small by lia.
  change (forallb _ _) with true. cbv match. by rewrite take_le_split by (vm_compute; lia).
Qed.

(** ** Lemmas on the modifications table *)

Definition added_of (m : ModificationsTable) (t : bytes) : gset bytes := default ∅ (added_entries m !! t).
Definition removed_of (m : ModificationsTable) (t : bytes) : gset bytes :=
  default ∅ (removed_entries m !! t).

Lemma lookup_move_document doc term off on t :
  let '(off', on') := move_document doc term off on in
  default ∅ (off' !! t) =
    (if bool_decide (t = term) then default ∅ (off !! t) ∖ {[doc]} else default ∅ (off !! t)) /\
  default ∅ (on' !! t) =
    (if bool_decide (t = term) then default ∅ (on !! t) ∪ {[doc]} else default ∅ (on !! t)).
Proof.
  unfold move_document. destruct (off !! term) eqn:Eoff, (on !! term) eqn:Eon;
    case_bool_decide as Ht; subst; rewrite ?lookup_insert_eq, ?lookup_insert_ne, ?Eoff, ?Eon by done;
    cbn; split; set_solver.
Qed.

Lemma insert_term_spec doc m term t :
  added_of (insert_term doc m term) t =
    (if bool_decide (t = resize_term term) then added_of m t ∪ {[doc]} else added_of m t) /\
  removed_of (insert_term doc m term) t =
    (if bool_decide (t = resize_term term) then removed_of m t ∖ {[doc]} else removed_of m t).
Proof.
  pose proof (lookup_move_document doc (resize_term term) (removed_entries m) (added_entries m) t) as H.
  unfold insert_term, added_of, removed_of. destruct (move_document _ _ _ _). cbn. naive_solver.
Qed.

Lemma remove_term_spec doc m term t :
  added_of (remove_term doc m term) t =
    (if bool_decide (t = resize_term term) then added_of m t ∖ {[doc]} else added_of m t) /\
  removed_of (remove_term doc m term) t =
    (if bool_decide (t = resize_term term) then removed_of m t ∪ {[doc]} else removed_of m t).
Proof.
  pose proof (lookup_move_document doc (resize_term term) (added_entries m) (removed_entries m) t) as H.
  unfold remove_term, added_of, removed_of. destruct (move_document _ _ _ _). cbn. naive_solver.
Qed.

(** Additions and removals of a term never share a document. *)
Definition modifications_wf (m : ModificationsTable) : Prop :=
  (forall t, added_of m t ## removed_of m t) /\
  (forall t, t ∈ dom (added_entries m) \/ t ∈ dom (removed_entries m) -> length t <= MAX_TERM_SIZE).

Lemma move_document_dom doc term off on t :
  let '(off', on') := move_document doc term off on in
  t ∈ dom off' \/ t ∈ dom on' -> t = term \/ t ∈ dom off \/ t ∈ dom on.
Proof.
  unfold move_document. destruct (off !! term) eqn:Eoff, (on !! term) eqn:Eon;
    rewrite ?dom_insert_L; set_solver.
Qed.

Lemma insert_term_wf doc m term : modifications_wf m -> modifications_wf (insert_term doc m term).
Proof.
  intros [Hd Hl]. split.
  - intros t. destruct (insert_term_spec doc m term t) as [-> ->]. specialize (Hd t).
    case_bool_decide; set_solver.
  - intros t Ht. pose proof (move_document_dom doc (resize_term term) (removed_entries m)
      (added_entries m) t) as Hm. unfold insert_term in Ht.
    destruct (move_document _ _ _ _). cbn in *.
    destruct Hm as [->| ?]; [tauto|apply resize_term_length|]. apply Hl. tauto.
Qed.

Lemma remove_term_wf doc m term : modifications_wf m -> modifications_wf (remove_term doc m term).
Proof.
  intros [Hd Hl]. split.
  - intros t. destruct (remove_term_spec doc m term t) as [-> ->]. specialize (Hd t).
    case_bool_decide; set_solver.
  - intros t Ht. pose proof (move_document_dom doc (resize_term term) (added_entries m)
      (removed_entries m) t) as Hm. unfold remove_term in Ht.
    destruct (move_document _ _ _ _). cbn in *.
    destruct Hm as [->| ?]; [tauto|apply resize_term_length|]. apply Hl. tauto.
Qed.

#[export] Hint Resolve insert_term_wf remove_term_wf insert_entry_wf metadata_new_wf : sf.

Lemma insert_terms_wf m doc ts : modifications_wf m -> modifications_wf (insert_terms m doc ts).
Proof. unfold insert_terms. revert m. induction ts; cbn [foldl]; eauto with sf. Qed.

Lemma remove_terms_wf m doc ts : modifications_wf m -> modifications_wf (remove_terms m doc ts).
Proof. unfold remove_terms. revert m. induction ts; cbn [foldl]; eauto with sf. Qed.

Lemma no_modifications_wf : modifications_wf no_modifications.
Proof. split; intros t; cbn; set_solver. Qed.

#[export] Hint Resolve insert_terms_wf remove_terms_wf no_modifications_wf : sf.

(** What a term denotes: the documents of its pages, with the table applied. *)
Definition apply_modifications (m : ModificationsTable) (t : bytes) (base : gset bytes) : gset bytes :=
  (base ∪ added_of m t) ∖ removed_of m t.

Lemma apply_insert_term m doc term t base :
  apply_modifications (insert_term doc m term) t base =
  apply_modifications m t base ∪ (if bool_decide (t = resize_term term) then {[doc]} else ∅).
Proof.
  unfold apply_modifications. destruct (insert_term_spec doc m term t) as [-> ->].
  case_bool_decide; [|set_solver].
  apply set_eq. intros x. destruct (decide (x = doc)); set_solver.
Qed.

Lemma apply_remove_term m doc term t base :
  apply_modifications (remove_term doc m term) t base =
  apply_modifications m t base ∖ (if bool_decide (t = resize_term term) then {[doc]} else ∅).
Proof.
  unfold apply_modifications. destruct (remove_term_spec doc m term t) as [-> ->].
  case_bool_decide; [|set_solver].
  apply set_eq. intros x. destruct (decide (x = doc)); set_solver.
Qed.

Lemma apply_insert_terms m doc ts t base :
  apply_modifications (insert_terms m doc ts) t base =
  apply_modifications m t base ∪ (if bool_decide (t ∈ resize_term <$> ts) then {[doc]} else ∅).
Proof.
  unfold insert_terms. revert m. induction ts as [|term ts IH]; intros m; cbn [foldl fmap list_fmap].
  - rewrite bool_decide_false by set_solver. set_solver.
  - rewrite IH, apply_insert_term. generalize (apply_modifications m t base) as X; intros X.
    rewrite (bool_decide_ext (t ∈ _ :: _) (t = resize_term term \/ t ∈ resize_term <$> ts))
      by apply elem_of_cons.
    rewrite bool_decide_or. do 2 case_bool_decide; cbn; set_solver.
Qed.

Lemma apply_remove_terms m doc ts t base :
  apply_modifications (remove_terms m doc ts) t base =
  apply_modifications m t base ∖ (if bool_decide (t ∈ resize_term <$> ts) then {[doc]} else ∅).
Proof.
  unfold remove_terms. revert m. induction ts as [|term ts IH]; intros m; cbn [foldl fmap list_fmap].
  - rewrite bool_decide_false by set_solver. set_solver.
  - rewrite IH, apply_remove_term. generalize (apply_modifications m t base) as X; intros X.
    rewrite (bool_decide_ext (t ∈ _ :: _) (t = resize_term term \/ t ∈ resize_term <$> ts))
      by apply elem_of_cons.
    rewrite bool_decide_or. do 2 case_bool_decide; cbn; set_solver.
Qed.

(** ** Sealed forms *)

Section Sealed.
Context `{Aead} `{!AeadLaws} `{!Codec MetadataPage} `{!Codec ModificationsTable}.

(** The ciphertexts stored for a page and a table. *)
Definition sealed_metadata (m : MetadataPage) (key : bytes) (version : Z) : bytes :=
  sealed key (codec_encode m) (metadata_nonce version) metadata_aad.

Definition sealed_modifications (m : ModificationsTable) (key : bytes) (mv v : Z) : bytes :=
  sealed key (codec_encode m) (to_le_bytes NONCE_LEN (mv * 2 ^ 32 + v)) modifications_aad.

Lemma metadata_encrypt_ok m key v :
  empty_fits -> metadata_wf m -> metadata_encrypt m key v = Ok (sealed_metadata (shrunk m) key v).
Proof.
  intros Hf Hwf. unfold metadata_encrypt, sealed_metadata.
  destruct (shrunk_spec m Hf Hwf) as (-> & _).
  apply encrypt_fixed_ok, metadata_nonce_length.
Qed.

Lemma metadata_decrypt_sealed m key v : metadata_decrypt key v (sealed_metadata m key v) = Ok m.
Proof.
  unfold metadata_decrypt, sealed_metadata.
  destruct (decrypt_sealed key m (metadata_nonce v) metadata_aad (metadata_nonce_length v))
    as (buf & -> & Hb). cbn. by rewrite Hb.
Qed.

Lemma modifications_encrypt_ok m key mv v :
  fits_u 64 mv -> fits_u 32 v ->
  modifications_encrypt m key mv v = Ok (sealed_modifications m key mv v).
Proof.
  intros. unfold modifications_encrypt, sealed_modifications.
  rewrite modifications_nonce_ok by done. cbn [result_bind]. apply encrypt_fixed_ok, length_to_le_bytes.
Qed.

Lemma modifications_decrypt_sealed m key mv v :
  fits_u 64 mv -> fits_u 32 v ->
  modifications_decrypt key mv v (sealed_modifications m key mv v) = Ok m.
Proof.
  intros. unfold modifications_decrypt, sealed_modifications.
  rewrite modifications_nonce_ok by done. cbn [result_bind].
  destruct (decrypt_sealed key m (to_le_bytes NONCE_LEN (mv * 2 ^ 32 + v)) modifications_aad
    (length_to_le_bytes _ _)) as (buf & -> & Hb). cbn. by rewrite Hb.
Qed.

(** C38: encrypting a metadata page always ends, within the size limit, and
    decrypting what is stored gives a page that never reports fewer pages for a
    term than the original: queries read at least the pages that exist. *)
Theorem metadata_page_roundtrip m key v :
  empty_fits -> metadata_wf m ->
  exists c m', metadata_encrypt m key v = Ok c /\ metadata_decrypt key v c = Ok m' /\
    length (codec_encode m') <= MAX_METADATA_PAGE_SIZE /\ metadata_wf m' /\
    forall t, (get_num_pages m t <= get_num_pages m' t)%Z.
Proof.
  intros Hf Hwf. destruct (shrunk_spec m Hf Hwf) as (_ & Hw & Hl & Hn).
  exists (sealed_metadata (shrunk m) key v), (shrunk m).
  rewrite metadata_encrypt_ok, metadata_decrypt_sealed by done. eauto.
Qed.

(** a modifications table encrypted for a version decrypts to itself, for
    every 64-bit index version and 32-bit table version. *)
Theorem modifications_roundtrip m key mv v :
  fits_u 64 mv -> fits_u 32 v ->
  exists c, modifications_encrypt m key mv v = Ok c /\ modifications_decrypt key mv v c = Ok m.
Proof.
  intros Hm Hv. exists (sealed_modifications m key mv v).
  by rewrite modifications_encrypt_ok, modifications_decrypt_sealed.
Qed.
End Sealed.

(** C39: nonces never repeat and never spill: the nonce of a table is defined for
    every 64-bit index version and 32-bit table version, distinct pairs of
    versions give distinct nonces, and so do distinct metadata versions. *)
Theorem nonces_unique mv v mv' v' :
  fits_u 64 mv -> fits_u 32 v -> fits_u 64 mv' -> fits_u 32 v' ->
  (exists n n', modifications_nonce mv v = Ok n /\ modifications_nonce mv' v' = Ok n' /\
                length n = NONCE_LEN /\ (n = n' -> mv = mv' /\ v = v')) /\
  (metadata_nonce mv = metadata_nonce mv' -> mv = mv').
Proof.
  intros Hm Hv Hm' Hv'. split.
  - do 2 eexists. rewrite !modifications_nonce_ok by done.
    split; [done|]. split; [done|]. split; [apply length_to_le_bytes|].
    unfold fits_u in *. intros E%to_le_bytes_inj; unfold fits_u, NONCE_LEN; lia.
  - intros [E _]%app_inj_len; [|by rewrite !length_to_le_bytes].
    by apply to_le_bytes_inj in E.
Qed.

Lemma nonces_unique_witness :
  exists n n', modifications_nonce 1 7 = Ok n /\ modifications_nonce 2 7 = Ok n' /\
               length n = NONCE_LEN /\ (n = n' -> 1%Z = 2%Z /\ 7%Z = 7%Z).
Proof. apply (nonces_unique 1 7 2 7); unfold fits_u; lia. Defined.

(** recording the insertion (removal) of a document for a list of terms adds
    it to (removes it from) exactly those terms, whatever the table held, and
    keeps additions and removals disjoint. *)
Theorem modifications_apply m doc ts t base :
  modifications_wf m ->
  apply_modifications (insert_terms m doc ts) t base =
    apply_modifications m t base ∪ (if bool_decide (t ∈ resize_term <$> ts) then {[doc]} else ∅) /\
  apply_modifications (remove_terms m doc ts) t base =
    apply_modifications m t base ∖ (if bool_decide (t ∈ resize_term <$> ts) then {[doc]} else ∅) /\
  modifications_wf (insert_terms m doc ts) /\ modifications_wf (remove_terms m doc ts).
Proof. intros. auto using apply_insert_terms, apply_remove_terms with sf. Qed.

Lemma modifications_apply_witness :
  apply_modifications (insert_terms no_modifications [Byte.x07] [[Byte.x30]]) [Byte.x30] ∅
  = apply_modifications no_modifications [Byte.x30] ∅ ∪ {[ [Byte.x07] ]}.
Proof.
  destruct (modifications_apply no_modifications [Byte.x07] [[Byte.x30]] [Byte.x30] ∅
    no_modifications_wf) as [-> _]. reflexivity.
Defined.

(** ** Concrete codecs for the witnesses *)

#[export] Instance ModificationsTable_eq_dec : EqDecision ModificationsTable.
Proof. solve_decision. Defined.

#[export] Program Instance ModificationsTable_countable : Countable ModificationsTable :=
  inj_countable' (fun m => (added_entries m, removed_entries m))
    (fun p => {| added_entries := p.1; removed_entries := p.2 |}) _.
Next Obligation. by intros []. Qed.

Definition demo_modifications_codec : Codec ModificationsTable := countable_codec.

Program Definition demo_metadata_codec : Codec MetadataPage := {|
  codec_encode m :=
    pack_value (default_num_pages m) ++ pack_value (key_size m) ++ pack_value (num_pages m);
  codec_decode bs :=
    match unpack_value bs with
    | Some (d, bs) =>
        match unpack_value bs with
        | Some (k, bs) =>
            match unpack_value bs with
            | Some (np, _) => Some {| num_pages := np; default_num_pages := d; key_size := k |}
            | None => None
            end
        | None => None
        end
    | None => None
    end
|}.
Next Obligation.
  intros [np d k] rest. cbn. rewrite <- !app_assoc, !unpack_pack_value. reflexivity.
Qed.

Lemma size_nat_bound p n : (Zpos p < 2 ^ Z.of_nat n)%Z -> Pos.size_nat p <= n.
Proof.
  revert n. induction p as [p IH|p IH|]; intros [|n] Hp; cbn [Pos.size_nat]; try lia.
  all: rewrite Nat2Z.inj_succ, Z.pow_succ_r in Hp by lia; apply le_n_S, IH; lia.
Qed.

Lemma length_pack_Z z : fits_u 64 z -> length (pack_value z) <= 65.
Proof.
  intros Hz. unfold pack_value. rewrite length_pack. unfold fits_u in Hz.
  destruct z as [|p|p]; [vm_compute; lia| |lia].
  change (encode (Zpos p)) with (p~0)%positive. apply le_n_S, size_nat_bound. cbn -[Z.pow]. lia.
Qed.

Lemma demo_empty_fits : @empty_fits demo_metadata_codec.
Proof.
  intros d k Hd Hk. cbn [codec_encode demo_metadata_codec num_pages default_num_pages key_size].
  rewrite !length_app. pose proof (length_pack_Z d Hd). pose proof (length_pack_Z k Hk).
  assert (length (pack_value (∅ : gmap bytes Z)) = 1) as -> by (vm_compute; reflexivity).
  unfold MAX_METADATA_PAGE_SIZE. change (2 ^ 20)%Z with 1048576%Z. lia.
Qed.

Lemma metadata_page_roundtrip_witness :
  exists c m', @metadata_encrypt demo_aead demo_metadata_codec (metadata_new 4) [] 1 = Ok c /\
    @metadata_decrypt demo_aead demo_metadata_codec [] 1 c = Ok m' /\
    length (@codec_encode _ demo_metadata_codec m') <= MAX_METADATA_PAGE_SIZE /\ metadata_wf m' /\
    forall t, (get_num_pages (metadata_new 4) t <= get_num_pages m' t)%Z.
Proof.
  apply (@metadata_page_roundtrip demo_aead demo_aead_laws demo_metadata_codec (metadata_new 4) [] 1).
  - exact demo_empty_fits.
  - apply metadata_new_wf. unfold fits_u. lia.
Defined.

Lemma modifications_roundtrip_witness :
  exists c, @modifications_encrypt demo_aead demo_modifications_codec no_modifications [] 1 1 = Ok c /\
    @modifications_decrypt demo_aead demo_modifications_codec [] 1 1 c = Ok no_modifications.
Proof.
  apply (@modifications_roundtrip demo_aead demo_aead_laws demo_modifications_codec
    no_modifications [] 1 1); unfold fits_u; lia.
Defined.
