(* ===== verification/RawIndex.v ===== *)
(** * The encrypted inverted index

    Models [RawIndexQuery], [CachedIndexState], [RawInvertedIndex],
    [DbNextVersionTask] and [DbInitialProvisioningTask] of
    [backends/mysql/src/metadata/indices/inverted_index/db_inverted_index.rs]. The
    index lives in one server table whose rows are encrypted pages: the metadata
    page, the modifications table, and the pages of each term under opaque tags.
    The table is the list of its rows; every operation takes the table (and the
    cached state of the index) and returns what it leaves, with the result. *)
From S2P Require Import Prelude Sql Crypto TermPage IndexMetadata.
From stdpp Require Import sorting.

Definition METADATA_TAG : bytes := string_bytes "metadata" ++ replicate 4 Byte.x00.
Definition MODIFICATIONS_TAG : bytes := string_bytes "modification".
Definition TAG_SIZE : nat := 12.
Definition TAG_PREFIX_SIZE : nat := 4.
Definition MAX_BLOB_SIZE : Z := 65535.
Definition REBUILD_THRESHOLD : Z := Z.shiftr MAX_BLOB_SIZE 2.

(** ** Queries *)

Inductive RawIndexQuery :=
  | QIntersect (a b : RawIndexQuery)
  | QDifference (a b : RawIndexQuery)
  | QUnion (a b : RawIndexQuery)
  | QTerm (t : bytes).

Fixpoint collect_terms (q : RawIndexQuery) (out : gset bytes) : gset bytes :=
  match q with
  | QUnion a b | QIntersect a b | QDifference a b => collect_terms b (collect_terms a out)
  | QTerm t => {[t]} ∪ out
  end.

Fixpoint check_max_lengths (q : RawIndexQuery) : RawIndexQuery :=
  match q with
  | QIntersect a b => QIntersect (check_max_lengths a) (check_max_lengths b)
  | QDifference a b => QDifference (check_max_lengths a) (check_max_lengths b)
  | QUnion a b => QUnion (check_max_lengths a) (check_max_lengths b)
  | QTerm term =>
      let term := resize_term term in
      QTerm (if bool_decide (MAX_TERM_SIZE < length term) then take MAX_TERM_SIZE term else term)
  end.

Fixpoint evaluate (q : RawIndexQuery) (response : gmap bytes (list bytes))
    (modifications : ModificationsTable) : gset bytes :=
  match q with
  | QTerm t =>
      let stream := default [] (response !! t) in
      let stream := match added_entries modifications !! t with
                    | Some add => stream ++ elements add
                    | None => stream
                    end in
      let stream := match removed_entries modifications !! t with
                    | Some remove => filter (fun elem => elem ∉ remove) stream
                    | None => stream
                    end in
      list_to_set stream
  | QUnion a b => evaluate a response modifications ∪ evaluate b response modifications
  | QDifference a b => evaluate a response modifications ∖ evaluate b response modifications
  | QIntersect a b => evaluate a response modifications ∩ evaluate b response modifications
  end.

(** ** The index table *)

Record IndexTableRow := { row_tag : bytes; row_version : Z; row_page : bytes }.

Abbreviation Db := (list IndexTableRow).

(** [version INTEGER NOT NULL]: a signed 32-bit column. *)
Definition version_column_accepts (version : Z) : bool :=
  (- 2 ^ 31 <=? version)%Z && (version <? 2 ^ 31)%Z.

(** The primary key is (version, tag). *)
Definition sql_insert (db : Db) (row : IndexTableRow) : result Db :=
  if negb (version_column_accepts (row_version row)) then
    Err (SqlError "out of range value for column version")
  else if existsb (fun r => bool_decide (row_version r = row_version row)
                       && bool_decide (row_tag r = row_tag row)) db
  then Err (SqlError "duplicate entry for key PRIMARY")
  else Ok (db ++ [row]).

Definition select_tag (tag : bytes) (db : Db) : Db :=
  filter (fun r => row_tag r = tag) db.

(** [UPDATE ... SET version = ?, page = ? WHERE tag = ?]. *)
Definition update_tag (tag : bytes) (version : Z) (page : bytes) (db : Db) : result Db :=
  if negb (version_column_accepts version) then
    Err (SqlError "out of range value for column version")
  else
    Ok ((fun r => if bool_decide (row_tag r = tag)
                  then {| row_tag := tag; row_version := version; row_page := page |} else r) <$> db).

(** [BTreeSet] iteration order. *)
Fixpoint bytes_leb (a b : bytes) : bool :=
  match a, b with
  | [], _ => true
  | _ :: _, [] => false
  | x :: a, y :: b =>
      let x := byte.unsigned x in let y := byte.unsigned y in
      (x <? y)%Z || ((x =? y)%Z && bytes_leb a b)
  end.
Definition bytes_le (a b : bytes) : Prop := bytes_leb a b = true.
#[export] Instance bytes_le_dec : RelDecision bytes_le := fun a b => bool_eq_dec (bytes_leb a b) true.
Definition sorted_entries (s : gset bytes) : list bytes := merge_sort bytes_le (elements s).

(** The [while peek ... take(n)] loop: consecutive chunks of at most [n]; the
    recursion is on a bound that the length always satisfies. *)
Fixpoint chunks_fuel (fuel n : nat) (l : list bytes) : list (list bytes) :=
  match l, fuel with
  | [], _ | _, O => []
  | _, S fuel => take n l :: chunks_fuel fuel n (drop n l)
  end.
Definition chunks (n : nat) (l : list bytes) : list (list bytes) := chunks_fuel (length l) n l.

Record CachedIndexState := {
  cached_metadata : option VersionedMetadataPage;
  cached_changes : option VersionedModificationsTable
}.

Definition empty_cache : CachedIndexState := {| cached_metadata := None; cached_changes := None |}.

Section Index.
Context `{Aead} `{Hkdf} `{!Codec MetadataPage} `{!Codec ModificationsTable} `{!Codec TermPage}.
Variable master_key : bytes.
Variable indexed_table : TableRef.
Variable index_name : string.
(** The size of a row identifier. *)
Variable IdSize : nat.
(** [shuffle] of the new pages before they are inserted. *)
Variable shuffle : Db -> Db.

(** *** Keys and tags *)

Definition get_metadata_cipher : bytes :=
  get_cipher master_key (VersionedIndexEntry indexed_table index_name None).

Definition get_version_cipher (version : Z) : bytes :=
  get_cipher master_key (VersionedIndexEntry indexed_table index_name (Some version)).

Definition get_version_tag_derivator (version : Z) : bytes -> nat -> bytes :=
  get_identifier_generator master_key (NamedVersionedIndexInTable indexed_table index_name version).

Definition page_tag (version : Z) (kw : bytes) (page : Z) : bytes :=
  get_version_tag_derivator version (kw ++ to_le_bytes 8 page) TAG_SIZE.

(** *** Decryption of rows *)

Definition decrypt_as_metadata (row : IndexTableRow) : result VersionedMetadataPage :=
  let? m := metadata_decrypt get_metadata_cipher (row_version row) (row_page row) in
  Ok {| metadata := m; meta_version := row_version row |}.

Definition decrypt_as_modifications (row : IndexTableRow) (metadata_version : Z) :
    result VersionedModificationsTable :=
  if bool_decide (fits_u 32 (row_version row)) then
    let? m := modifications_decrypt (get_version_cipher metadata_version) metadata_version
                (row_version row) (row_page row) in
    Ok {| modifications := m; modifications_version := row_version row |}
  else Err (Panic "changes version must fit in an u32").

(** *** Loading the metadata *)

(** An [expect]: an error becomes a panic. *)
Definition expect {A} (m : result A) (msg : string) : result A :=
  match m with Ok a => Ok a | Err _ => Err (Panic msg) end.

Definition stale_pages (cache : CachedIndexState) (db : Db) : Db :=
  let mv := match cached_metadata cache with Some m => meta_version m | None => 0%Z end in
  let cv := match cached_changes cache with Some c => modifications_version c | None => 0%Z end in
  filter (fun r => (row_tag r = METADATA_TAG /\ (mv < row_version r)%Z) \/
                   (row_tag r = MODIFICATIONS_TAG /\ row_version r <> cv)) db.

(** The recursion goes at most one level deep ([load_metadata_fresh] below); the
    cache is returned also when loading fails half-way. *)
Fixpoint load_metadata (fuel : nat) (cache : CachedIndexState) (db : Db) :
    CachedIndexState * result unit :=
  match stale_pages cache db with
  | [] =>
      match cached_metadata cache, cached_changes cache with
      | Some _, Some _ => (cache, Ok tt)
      | _, _ => (cache, Err (IndexError "No metadata pages for index!"))
      end
  | [page] =>
      if bool_decide (row_tag page = METADATA_TAG) then
        match decrypt_as_metadata page with
        | Err e => (cache, Err e)
        | Ok m =>
            let cache := {| cached_metadata := Some m; cached_changes := cached_changes cache |} in
            match cached_changes cache with
            | None => (cache, Ok tt)
            | Some _ =>
                let cache := {| cached_metadata := Some m; cached_changes := None |} in
                match fuel with
                | O => (cache, Err (Panic "out of fuel"))
                | S fuel => load_metadata fuel cache db
                end
            end
        end
      else if bool_decide (row_tag page = MODIFICATIONS_TAG) then
        match cached_metadata cache with
        | None => (cache, Err (IndexError "No metadata pages for index!"))
        | Some m =>
            match decrypt_as_modifications page (meta_version m) with
            | Err e => (cache, Err e)
            | Ok changes =>
                ({| cached_metadata := cached_metadata cache; cached_changes := Some changes |}, Ok tt)
            end
        end
      else (cache, Err (IndexError "Received metadata page with invalid tag!"))
  | [first; second] =>
      (* [pop] takes the last row first *)
      let '(m, c) := (second, first) in
      let pair :=
        if bool_decide (row_tag c = METADATA_TAG) && bool_decide (row_tag m = MODIFICATIONS_TAG) then
          Ok (c, m)
        else if bool_decide (row_tag c = MODIFICATIONS_TAG) && bool_decide (row_tag m = METADATA_TAG)
        then Ok (m, c)
        else Err (IndexError "Received metadata page with invalid tag!") in
      match pair with
      | Err e => (cache, Err e)
      | Ok (m, c) =>
          match expect (decrypt_as_metadata m) "Failed to decrypt metadata page" with
          | Err e => (cache, Err e)
          | Ok m =>
              match expect (decrypt_as_modifications c (meta_version m))
                      "Failed to decrypt changes page" with
              | Err e => (cache, Err e)
              | Ok c => ({| cached_metadata := Some m; cached_changes := Some c |}, Ok tt)
              end
          end
      end
  | _ => (cache, Err (IndexError "Received invalid number of metadata pages"))
  end.

Definition load_fuel : nat := 1.

(** *** Updating the modifications table *)

(** Returns the cache, and the table with the request for a new version. *)
Definition update_changeset (modifier : ModificationsTable -> ModificationsTable)
    (cache : CachedIndexState) (db : Db) : CachedIndexState * result (Db * bool) :=
  let '(cache, loaded) := load_metadata load_fuel cache db in
  (cache,
   let? _ := loaded in
   let? m := ok_or (cached_metadata cache) (Panic "metadata was not loaded properly") in
   let version := meta_version m in
   match select_tag MODIFICATIONS_TAG db with
   | [] => Err (Panic "removal index should be < len")
   | row :: _ =>
       let? table := decrypt_as_modifications row version in
       let new_version := wrap_u 32 (modifications_version table + 1) in
       let? page := modifications_encrypt (modifier (modifications table))
                      (get_version_cipher version) version new_version in
       let? db := update_tag MODIFICATIONS_TAG new_version page db in
       Ok (db, (16000000 <? modifications_version table)%Z
               || (REBUILD_THRESHOLD <=? Z.of_nat (length page))%Z)
   end).

Definition insert_documents (documents : list (bytes * list bytes)) (modif : ModificationsTable) :
    ModificationsTable :=
  foldl (fun modif '(doc_id, terms) => insert_terms modif doc_id terms) modif documents.

Definition insert_many (documents : list (bytes * list bytes)) :=
  update_changeset (insert_documents documents).

(** Each document comes with its added and its removed terms. *)
Definition update_documents (documents : list (bytes * (list bytes * list bytes)))
    (modif : ModificationsTable) : ModificationsTable :=
  foldl (fun modif '(doc_id, (added_terms, removed_terms)) =>
           remove_terms (insert_terms modif doc_id added_terms) doc_id removed_terms) modif documents.

Definition update_many (documents : list (bytes * (list bytes * list bytes))) :=
  update_changeset (update_documents documents).

Definition delete_document (document : bytes) (terms : list bytes) :=
  update_changeset (fun m => remove_terms m document terms).

(** *** Queries *)

(** The pages of the wanted tags, decrypted, with their tags. Rows are fetched by
    the first bytes of their tags; the others are skipped. *)
Definition query_pages (db : Db) (pages : gset bytes) (key : bytes) (version : Z) :
    result (list (bytes * TermPage)) :=
  if bool_decide (pages = ∅) then Ok []
  else
    let fetched := filter (fun r => take TAG_PREFIX_SIZE (row_tag r)
                                      ∈ take TAG_PREFIX_SIZE <$> elements pages
                                    /\ row_version r = version) db in
    result_mapM
      (fun r => let? p := page_decrypt (row_tag r) key version (row_page r) in Ok (row_tag r, p))
      (filter (fun r => row_tag r ∈ pages) fetched).

(** The pages of [kw]: numbers [0 .. n-1]. *)
Definition page_numbers (n : Z) : list Z := Z.of_nat <$> seq 0 (Z.to_nat n).

(** For each term, either an empty answer or the tags of its pages. *)
Definition plan_term (m : MetadataPage) (version : Z)
    (acc : gmap bytes bytes * gmap bytes (list bytes)) (kw : bytes) :
    gmap bytes bytes * gmap bytes (list bytes) :=
  let '(tag_to_kw, output) := acc in
  let n := get_num_pages m kw in
  if bool_decide (n = 0%Z) then (tag_to_kw, <[kw := []]> output)
  else (foldl (fun acc page => <[page_tag version kw page := kw]> acc) tag_to_kw (page_numbers n),
        output).

Definition plan_terms (m : MetadataPage) (version : Z) (terms : list bytes) :
    gmap bytes bytes * gmap bytes (list bytes) :=
  foldl (plan_term m version) (∅, ∅) terms.

Definition collect_page (tag_to_kw : gmap bytes bytes) (output : gmap bytes (list bytes))
    (p : bytes * TermPage) : result (gmap bytes (list bytes)) :=
  let? kw := ok_or (tag_to_kw !! p.1) (Panic "queried a tag which was not in the map") in
  let? docs := items IdSize p.2 in
  Ok (<[kw := default [] (output !! kw) ++ docs]> output).

Definition query_terms (terms : list bytes) (cache : CachedIndexState) (db : Db) :
    CachedIndexState * result (gmap bytes (list bytes)) :=
  let '(cache, loaded) := load_metadata load_fuel cache db in
  (cache,
   let? _ := loaded in
   let? m := ok_or (cached_metadata cache) (Panic "Metadata was not properly cached") in
   let '(tag_to_kw, output) := plan_terms (metadata m) (meta_version m) terms in
   let? pages := query_pages db (dom tag_to_kw) (get_version_cipher (meta_version m))
                   (meta_version m) in
   result_foldl (collect_page tag_to_kw) output pages).

Definition query (queries : list RawIndexQuery) (cache : CachedIndexState) (db : Db) :
    CachedIndexState * result (list (gset bytes)) :=
  let queries := check_max_lengths <$> queries in
  let terms := foldl (fun out q => collect_terms q out) ∅ queries in
  let '(cache, results) := query_terms (elements terms) cache db in
  (cache,
   let? results := results in
   let? changes := ok_or (cached_changes cache) (Panic "called `Option::unwrap()` on a `None` value") in
   Ok ((fun q => evaluate q results (modifications changes)) <$> queries)).

(** *** Writing the pages of a term

    The loop shared by the next-version task and the initial provisioning: the
    entries in order, in chunks, one encrypted page each, numbered from
    [page_number]. Returns the rows and the number after the last page. *)
Fixpoint write_chunks (version : Z) (keyword : bytes) (page_number : Z) (l : list (list bytes)) :
    result (Db * Z) :=
  match l with
  | [] => Ok ([], page_number)
  | chunk :: l =>
      let? page := from_iterator IdSize keyword page_number chunk in
      let tag := page_tag version keyword page_number in
      let? data := page_encrypt page tag (get_version_cipher version) version in
      let? (rows, last) := write_chunks version keyword (page_number + 1) l in
      Ok ({| row_tag := tag; row_version := version; row_page := data |} :: rows, last)
  end.

Definition write_term (version : Z) (keyword : bytes) (page_number : Z) (entries : gset bytes) :
    result (Db * Z) :=
  write_chunks version keyword page_number (chunks (max_entries IdSize) (sorted_entries entries)).

(** One turn of the loop over the terms: the rows so far and the metadata. *)
Definition write_entry (version : Z) (last_full_page : gmap bytes Z)
    (acc : Db * MetadataPage) (e : bytes * gset bytes) : result (Db * MetadataPage) :=
  let '(new_pages, new_metadata) := acc in
  let '(keyword, entries) := e in
  let start := match last_full_page !! keyword with Some v => (v + 1)%Z | None => 0%Z end in
  let? (rows, page_number) := write_term version keyword start entries in
  Ok (new_pages ++ rows, insert_entry new_metadata keyword page_number).

Definition insert_rows (db : Db) (rows : Db) : result Db := result_foldl sql_insert db rows.

(** *** The next version of the index *)

Record NextVersionState := {
  new_pages : Db;
  partial_pages : gmap bytes (gset bytes);
  last_full_page : gmap bytes Z
}.

(** [entry(keyword).or_default().extend(docs)]. *)
Definition extend_entry (m : gmap bytes (gset bytes)) (keyword : bytes) (docs : gset bytes) :=
  <[keyword := default ∅ (m !! keyword) ∪ docs]> m.

(** What is done with one decrypted page of the current version. *)
Definition next_version_page (current_version : Z) (changes : ModificationsTable)
    (st : NextVersionState) (page : IndexTableRow) : result NextVersionState :=
  let? decrypted := page_decrypt (row_tag page) (get_version_cipher current_version)
                      current_version (row_page page) in
  let keyword := header_term (header decrypted) in
  let page_index := page_number (header decrypted) in
  let push last_full :=
    let tag := page_tag (current_version + 1) keyword page_index in
    let? data := page_encrypt decrypted tag (get_version_cipher (current_version + 1))
                   (current_version + 1) in
    Ok {| new_pages := new_pages st
            ++ [{| row_tag := tag; row_version := current_version + 1; row_page := data |}];
          partial_pages := partial_pages st; last_full_page := last_full |} in
  let to_partial :=
    let? docs := items IdSize decrypted in
    Ok {| new_pages := new_pages st;
          partial_pages := extend_entry (partial_pages st) keyword (list_to_set docs);
          last_full_page := last_full_page st |} in
  if bool_decide (keyword ∈ dom (removed_entries changes)) then to_partial
  else if bool_decide (keyword ∈ dom (added_entries changes)) then
    let? free := free_space IdSize decrypted in
    if bool_decide (0 < free)%Z then to_partial
    else push (<[keyword := Z.max (default 0%Z (last_full_page st !! keyword)) page_index]>
                 (last_full_page st))
  else push (last_full_page st).

(** The changes merged into the entries of the partial pages. *)
Definition incorporate_deletions (removed partial : gmap bytes (gset bytes)) :=
  map_fold (fun word remove p => alter (fun terms => terms ∖ remove) word p) partial removed.

Definition incorporate_additions (added partial : gmap bytes (gset bytes)) :=
  map_fold (fun word append p => extend_entry p word append) partial added.

(** The modifications found at the end of the task, less the terms merged. *)
Definition forget_merged (changes m : ModificationsTable) : ModificationsTable :=
  {| added_entries := filter (fun '(k, _) => k ∉ dom (added_entries changes)) (added_entries m);
     removed_entries := filter (fun '(k, _) => k ∉ dom (removed_entries changes)) (removed_entries m) |}.

(** The metadata for the task: [None] when another task was faster. *)
Definition task_load_metadata (current_version : Z) (db : Db) : result (option VersionedMetadataPage) :=
  match select_tag METADATA_TAG db with
  | [] => Ok None
  | head :: _ =>
      if bool_decide (row_version head <> current_version) then Ok None
      else let? m := decrypt_as_metadata head in Ok (Some m)
  end.

Definition task_load_modifications (current_version : Z) (db : Db) :
    result VersionedModificationsTable :=
  match select_tag MODIFICATIONS_TAG db with
  | [] => Err (IndexError "no modifications row in table")
  | [head] => decrypt_as_modifications head current_version
  | _ => Err (IndexError "more than one modifications row in table")
  end.

(** The end of the transaction: the pages are inserted, the modifications read
    again under a lock, the rows of the old version replaced. *)
Definition commit_next_version (version : Z) (changes : ModificationsTable) (pages : Db)
    (new_metadata : MetadataPage) (db : Db) : result Db :=
  let? db := insert_rows db (shuffle pages) in
  match select_tag MODIFICATIONS_TAG db with
  | [] => Err (Panic "removal index should be < len")
  | row :: _ =>
      let? current := decrypt_as_modifications row version in
      let new_modifications := forget_merged changes (modifications current) in
      let? new_modifications_page :=
        modifications_encrypt new_modifications (get_version_cipher (version + 1)) (version + 1) 1 in
      let? new_metadata_page := metadata_encrypt new_metadata get_metadata_cipher (version + 1) in
      let db := filter (fun r => ~ (row_version r = version \/ row_tag r = MODIFICATIONS_TAG)) db in
      let? db := sql_insert db {| row_tag := METADATA_TAG; row_version := version + 1;
                                  row_page := new_metadata_page |} in
      sql_insert db {| row_tag := MODIFICATIONS_TAG; row_version := 1;
                       row_page := new_modifications_page |}
  end.

(** The transaction reads the metadata, the changes and the pages from its
    snapshot [db_read]; the later locking read and the writes see the table as
    other sessions left it meanwhile, [db]. *)
Definition do_next_version (current_version : Z) (db_read db : Db) : result Db :=
  let? meta := task_load_metadata current_version db_read in
  match meta with
  | None => Ok db
  | Some current_metadata =>
      let version := meta_version current_metadata in
      let? changes := task_load_modifications current_version db_read in
      let changes := modifications changes in
      let all_pages := filter (fun r => row_version r = current_version
                                 /\ row_tag r ∉ [METADATA_TAG; MODIFICATIONS_TAG]) db_read in
      let? st := result_foldl (next_version_page version changes)
                   {| new_pages := []; partial_pages := ∅; last_full_page := ∅ |} all_pages in
      let partial := incorporate_deletions (removed_entries changes) (partial_pages st) in
      let partial := incorporate_additions (added_entries changes) partial in
      let? (pages, new_metadata) :=
        result_foldl (write_entry (version + 1) (last_full_page st))
          (new_pages st, metadata current_metadata) (map_to_list partial) in
      commit_next_version version changes pages new_metadata db
  end.

(** *** Initial provisioning *)

Definition do_initial_provisioning (documents_for_term : gmap bytes (gset bytes)) (db : Db) :
    result Db :=
  let? (pages, new_metadata) :=
    result_foldl (write_entry 1 ∅) ([], metadata_new (Z.of_nat IdSize))
      (map_to_list documents_for_term) in
  let pages := shuffle pages in
  let? new_modifications_page := modifications_encrypt no_modifications (get_version_cipher 1) 1 1 in
  let? new_metadata_page := metadata_encrypt new_metadata get_metadata_cipher 1 in
  insert_rows db
    (pages ++ [{| row_tag := METADATA_TAG; row_version := 1; row_page := new_metadata_page |};
               {| row_tag := MODIFICATIONS_TAG; row_version := 1; row_page := new_modifications_page |}]).

Definition add_document (acc : gmap bytes (gset bytes)) (d : bytes * list bytes) :=
  foldl (fun acc term => extend_entry acc (resize_term term) {[d.1]}) acc d.2.

Definition do_initial_provisioning_from_iterator (documents : list (bytes * list bytes)) (db : Db) :
    result Db :=
  do_initial_provisioning (foldl add_document ∅ documents) db.

(** A row of the source stream: identifier and terms may be null, and an
    identifier of the wrong size is skipped. *)
Definition add_result_row (acc : gmap bytes (gset bytes))
    (r : option bytes * option (list (option bytes))) : gmap bytes (gset bytes) :=
  match r with
  | (Some id, Some terms) =>
      if bool_decide (length id = IdSize) then add_document acc (id, omap (fun term => term) terms) else acc
  | _ => acc
  end.

Definition do_initial_provisioning_from_results
    (batches : list (list (option bytes * option (list (option bytes))))) (db : Db) : result Db :=
  do_initial_provisioning (foldl add_result_row ∅ (concat batches)) db.
End Index.
