(* ===== verification/IndexSpec.v ===== *)
(** * What an encrypted inverted index stores

    The abstract state behind the server table of
    [metadata/indices/inverted_index/db_inverted_index.rs] ([IndexState]), the
    relation between the two ([repr]), its invariant ([state_wf]), the coherence of
    the cached state of a node ([cache_ok]) and the documents a term denotes
    ([contents]); then the lemmas that each operation of [RawIndex] implements its
    abstract counterpart. *)
From S2P Require Import Prelude Sql Crypto TermPage IndexMetadata RawIndex.
From stdpp Require Import sorting.

(** A page of the index in clear: term, page number, documents. *)
Record Page := mk_page { pg_term : bytes; pg_number : Z; pg_docs : list bytes }.

Record IndexState := {
  st_version : Z;
  st_meta : MetadataPage;
  st_mods_version : Z;
  st_mods : ModificationsTable;
  st_pages : list Page
}.

(** The documents the pages hold for a term. *)
Definition base_docs (pages : list Page) (t : bytes) : gset bytes :=
  list_to_set (pages ≫= fun p => if bool_decide (pg_term p = t) then pg_docs p else []).

Lemma elem_of_base_docs pages t d :
  d ∈ base_docs pages t <-> exists p, p ∈ pages /\ pg_term p = t /\ d ∈ pg_docs p.
Proof.
  unfold base_docs. rewrite elem_of_list_to_set, list_elem_of_bind. split.
  - intros (p & Hd & Hp). exists p. case_bool_decide; [done|]. by apply not_elem_of_nil in Hd.
  - intros (p & Hp & Ht & Hd). exists p. by rewrite bool_decide_true.
Qed.

#[export] Instance base_docs_proper : Proper ((≡ₚ) ==> (=) ==> (=)) base_docs.
Proof.
  intros l l' Hl t ? <-. apply set_eq. intros d. rewrite !elem_of_base_docs. by setoid_rewrite Hl.
Qed.

Lemma base_docs_app l l' t : base_docs (l ++ l') t = base_docs l t ∪ base_docs l' t.
Proof.
  apply set_eq. intros d. rewrite elem_of_union, !elem_of_base_docs.
  setoid_rewrite elem_of_app. naive_solver.
Qed.

Lemma base_docs_nil t : base_docs [] t = ∅.
Proof. done. Qed.

Lemma base_docs_cons p l t :
  base_docs (p :: l) t =
  (if bool_decide (pg_term p = t) then list_to_set (pg_docs p) else ∅) ∪ base_docs l t.
Proof.
  apply set_eq. intros d. rewrite elem_of_union, !elem_of_base_docs.
  setoid_rewrite elem_of_cons. case_bool_decide; set_solver.
Qed.

(** What a term denotes. *)
Definition contents (st : IndexState) (t : bytes) : gset bytes :=
  apply_modifications (st_mods st) t (base_docs (st_pages st) t).

(** What a query denotes, given what its terms denote. *)
Fixpoint denote (q : RawIndexQuery) (c : bytes -> gset bytes) : gset bytes :=
  match q with
  | QTerm t => c (resize_term t)
  | QUnion a b => denote a c ∪ denote b c
  | QIntersect a b => denote a c ∩ denote b c
  | QDifference a b => denote a c ∖ denote b c
  end.

Fixpoint query_vocab (q : RawIndexQuery) : list bytes :=
  match q with
  | QTerm t => [resize_term t]
  | QUnion a b | QIntersect a b | QDifference a b => query_vocab a ++ query_vocab b
  end.

Lemma elem_of_collect_terms q out t :
  t ∈ collect_terms (check_max_lengths q) out <-> t ∈ query_vocab q \/ t ∈ out.
Proof.
  revert out. induction q as [a IHa b IHb|a IHa b IHb|a IHa b IHb|x]; intros out;
    cbn [check_max_lengths collect_terms query_vocab];
    [rewrite IHb, IHa, elem_of_app; tauto..|].
  rewrite bool_decide_false by (pose proof (resize_term_length x); lia).
  rewrite elem_of_union, elem_of_singleton, list_elem_of_singleton. tauto.
Qed.

Lemma elem_of_all_terms qs t :
  t ∈ foldl (fun out q => collect_terms q out) ∅ (check_max_lengths <$> qs)
  <-> t ∈ qs ≫= query_vocab.
Proof.
  enough (forall out, t ∈ foldl (fun out q => collect_terms q out) out (check_max_lengths <$> qs)
    <-> t ∈ qs ≫= query_vocab \/ t ∈ out) as Hgen by (rewrite Hgen; set_solver).
  induction qs as [|q qs IH]; intros out; cbn [fmap list_fmap foldl]; [set_solver|].
  rewrite IH, elem_of_collect_terms, bind_cons, elem_of_app. tauto.
Qed.

(** Evaluation agrees with the denotation when the answers do. *)
Lemma evaluate_denote q response mods base :
  (forall t, t ∈ query_vocab q -> list_to_set (default [] (response !! t)) = base t) ->
  evaluate (check_max_lengths q) response mods
  = denote q (fun t => apply_modifications mods t (base t)).
Proof.
  induction q as [a IHa b IHb|a IHa b IHb|a IHa b IHb|x]; intros Hr;
    cbn [check_max_lengths evaluate denote query_vocab] in *;
    [rewrite IHa, IHb by (intros; apply Hr, elem_of_app; tauto); done..|].
  rewrite bool_decide_false by (pose proof (resize_term_length x); lia).
  unfold apply_modifications, added_of, removed_of.
  rewrite <- Hr by set_solver. generalize (default [] (response !! resize_term x)). intros l.
  destruct (added_entries mods !! _), (removed_entries mods !! _); cbn;
    apply set_eq; intros d; rewrite ?elem_of_list_to_set, ?elem_of_difference, ?elem_of_union,
    ?elem_of_list_to_set, ?list_elem_of_filter, ?elem_of_app, ?elem_of_elements; set_solver.
Qed.

(** What a batch of documents adds to, or removes from, a term. *)
Definition docs_with_term (documents : list (bytes * list bytes)) (t : bytes) : gset bytes :=
  list_to_set (fst <$> filter (fun d => t ∈ resize_term <$> d.2) documents).

Lemma docs_with_term_cons d l t :
  docs_with_term (d :: l) t =
  (if bool_decide (t ∈ resize_term <$> d.2) then {[d.1]} else ∅) ∪ docs_with_term l t.
Proof.
  unfold docs_with_term. rewrite filter_cons. case_bool_decide; [rewrite decide_True by done|rewrite decide_False by done]; set_solver.
Qed.

Lemma insert_many_contents documents m t base :
  apply_modifications (insert_documents documents m) t base
  = apply_modifications m t base ∪ docs_with_term documents t.
Proof.
  unfold insert_documents. revert m. induction documents as [|[d ts] l IH]; intros m; cbn [foldl].
  - set_solver.
  - rewrite IH, apply_insert_terms, docs_with_term_cons. set_solver.
Qed.

(** The reference for [update_many]: documents one after the other. *)
Definition updated (t : bytes) (docs : gset bytes) (d : bytes * (list bytes * list bytes)) : gset bytes :=
  let '(id, (added, removed)) := d in
  (docs ∪ (if bool_decide (t ∈ resize_term <$> added) then {[id]} else ∅))
    ∖ (if bool_decide (t ∈ resize_term <$> removed) then {[id]} else ∅).

Lemma update_many_contents documents m t base :
  apply_modifications (update_documents documents m) t base
  = foldl (updated t) (apply_modifications m t base) documents.
Proof.
  unfold update_documents. revert m. induction documents as [|[d [a r]] l IH]; intros m; cbn [foldl]; [done|].
  by rewrite IH, apply_remove_terms, apply_insert_terms.
Qed.

(** Evaluates the tests on the tags of the two fixed rows. *)
Ltac tag_tests :=
  rewrite ?(bool_decide_true (METADATA_TAG = METADATA_TAG)),
    ?(bool_decide_true (MODIFICATIONS_TAG = MODIFICATIONS_TAG)),
    ?(bool_decide_false (METADATA_TAG = MODIFICATIONS_TAG)),
    ?(bool_decide_false (MODIFICATIONS_TAG = METADATA_TAG)) by done;
  cbn [andb]; cbv iota beta.

Section Spec.
Context `{Aead} `{!AeadLaws} `{Hkdf} `{!HkdfLaws}.
Context `{!Codec MetadataPage} `{!Codec ModificationsTable} `{!Codec TermPage}.
Variable master_key : bytes.
Variable indexed_table : TableRef.
Variable index_name : string.
Variable IdSize : nat.
Hypothesis IdSize_ok : 0 < IdSize <= ENTRIES_DATA_SIZE.

(** The terms ever stored or asked for, and a bound on page numbers. *)
Variable vocab : gset bytes.
Variable limit : Z.
Hypothesis limit_ok : (0 <= limit <= 2 ^ 40)%Z.

Local Abbreviation vkey := (get_version_cipher master_key indexed_table index_name).
Local Abbreviation mkey := (get_metadata_cipher master_key indexed_table index_name).
Local Abbreviation ptag := (page_tag master_key indexed_table index_name).

(** Tags of [TAG_SIZE] bytes cannot be injective on all inputs: the pages in use
    are assumed not to collide, with each other nor with the two fixed tags. *)
Definition tags_distinct (v : Z) : Prop :=
  forall t n, t ∈ vocab -> (0 <= n < limit)%Z ->
    ptag v t n <> METADATA_TAG /\ ptag v t n <> MODIFICATIONS_TAG /\
    forall t' n', t' ∈ vocab -> (0 <= n' < limit)%Z -> ptag v t n = ptag v t' n' -> t = t' /\ n = n'.

(** ** Representation *)

Definition page_row (v : Z) (p : Page) : IndexTableRow :=
  let tag := ptag v (pg_term p) (pg_number p) in
  {| row_tag := tag; row_version := v;
     row_page := sealed (vkey v) (codec_encode (page_of IdSize (pg_term p) (pg_number p) (pg_docs p)))
                   tag (to_le_bytes 8 v) |}.

Definition meta_row (st : IndexState) : IndexTableRow :=
  {| row_tag := METADATA_TAG; row_version := st_version st;
     row_page := sealed_metadata (st_meta st) mkey (st_version st) |}.

Definition mods_row (st : IndexState) : IndexTableRow :=
  {| row_tag := MODIFICATIONS_TAG; row_version := st_mods_version st;
     row_page := sealed_modifications (st_mods st) (vkey (st_version st)) (st_version st)
                   (st_mods_version st) |}.

Definition repr (st : IndexState) (db : Db) : Prop :=
  db ≡ₚ meta_row st :: mods_row st :: (page_row (st_version st) <$> st_pages st).

(** ** Invariant *)

Definition page_wf (m : MetadataPage) (p : Page) : Prop :=
  pg_term p ∈ vocab /\ (0 <= pg_number p < get_num_pages m (pg_term p))%Z /\
  page_ids IdSize (pg_docs p).

(** No term has, or is assumed to have, more pages than [limit]. *)
Definition metadata_le (m : MetadataPage) : Prop :=
  (default_num_pages m <= limit)%Z /\ forall t v, num_pages m !! t = Some v -> (v <= limit)%Z.

Definition mods_ok (m : ModificationsTable) : Prop :=
  modifications_wf m /\ dom (added_entries m) ⊆ vocab /\
  forall t d, d ∈ added_of m t -> length d = IdSize.

Record state_wf (st : IndexState) : Prop := {
  wf_version : (1 <= st_version st < 2 ^ 31)%Z;
  wf_mods_version : (1 <= st_mods_version st < 2 ^ 31)%Z;
  wf_meta : metadata_wf (st_meta st);
  wf_limit : metadata_le (st_meta st);
  wf_mods : mods_ok (st_mods st);
  wf_pages : Forall (page_wf (st_meta st)) (st_pages st);
  wf_nodup : NoDup ((fun p => (pg_term p, pg_number p)) <$> st_pages st);
  wf_vocab : set_Forall (fun t : bytes => length t <= MAX_TERM_SIZE) vocab
}.

(** ** Coherence of a cache *)

Definition cache_ok (cache : CachedIndexState) (st : IndexState) : Prop :=
  match cached_metadata cache with
  | None => cached_changes cache = None
  | Some m =>
      (meta_version m < st_version st)%Z \/
      (meta_version m = st_version st /\ metadata m = st_meta st /\
       forall c, cached_changes cache = Some c ->
         (modifications_version c < st_mods_version st)%Z \/
         (modifications_version c = st_mods_version st /\ modifications c = st_mods st))
  end.

(** The cache that holds the current state. *)
Definition fresh_cache (st : IndexState) : CachedIndexState :=
  {| cached_metadata := Some {| metadata := st_meta st; meta_version := st_version st |};
     cached_changes := Some {| modifications := st_mods st;
                               modifications_version := st_mods_version st |} |}.

Lemma fresh_cache_ok st : cache_ok (fresh_cache st) st.
Proof. right. split; [done|]. split; [done|]. intros c [= <-]. by right. Qed.

Lemma empty_cache_ok st : cache_ok empty_cache st.
Proof. done. Qed.

(** ** Tags *)

Lemma fixed_tags_differ : METADATA_TAG <> MODIFICATIONS_TAG.
Proof. discriminate. Qed.

Lemma ptag_length v t n : length (ptag v t n) = NONCE_LEN.
Proof. apply hkdf_length. Qed.

Lemma page_in_range st p :
  state_wf st -> p ∈ st_pages st -> pg_term p ∈ vocab /\ (0 <= pg_number p < limit)%Z.
Proof. clear IdSize_ok limit_ok.
  intros Hwf Hp. destruct (proj1 (Forall_forall _ _) (wf_pages _ Hwf) p Hp) as (Ht & Hn & _).
  split; [done|]. destruct (wf_limit _ Hwf) as [Hd Hm]. unfold get_num_pages in Hn.
  destruct (num_pages _ !! _) as [v|] eqn:E; cbn in Hn; [apply Hm in E|]; lia.
Qed.

Lemma page_row_tags st p :
  state_wf st -> tags_distinct (st_version st) -> p ∈ st_pages st ->
  row_tag (page_row (st_version st) p) <> METADATA_TAG /\
  row_tag (page_row (st_version st) p) <> MODIFICATIONS_TAG.
Proof.
  intros Hwf Ht Hp. destruct (page_in_range st p Hwf Hp) as [Hv Hn].
  destruct (Ht _ _ Hv Hn) as (? & ? & _). done.
Qed.

(** Filters that select no page leave the two fixed rows. *)
Lemma filter_page_rows_nil (P : IndexTableRow -> Prop) `{!forall r, Decision (P r)} st :
  (forall p, p ∈ st_pages st -> ~ P (page_row (st_version st) p)) ->
  filter P (page_row (st_version st) <$> st_pages st) = [].
Proof.
  intros HP. apply filter_none. intros r (p & -> & Hp)%list_elem_of_fmap. by apply HP.
Qed.

(** ** Decryption of the rows *)

Lemma decrypt_meta_row st :
  decrypt_as_metadata master_key indexed_table index_name (meta_row st)
  = Ok {| metadata := st_meta st; meta_version := st_version st |}.
Proof.
  unfold decrypt_as_metadata. cbn [row_version row_page meta_row].
  by rewrite metadata_decrypt_sealed.
Qed.

Lemma decrypt_mods_row st :
  state_wf st ->
  decrypt_as_modifications master_key indexed_table index_name (mods_row st) (st_version st)
  = Ok {| modifications := st_mods st; modifications_version := st_mods_version st |}.
Proof. clear IdSize_ok limit_ok.
  intros [Hv Hm]. unfold decrypt_as_modifications. cbn [row_version row_page mods_row].
  rewrite bool_decide_true by (unfold fits_u; lia).
  by rewrite modifications_decrypt_sealed by (unfold fits_u; lia).
Qed.

Lemma decrypt_page_row v p :
  page_decrypt (row_tag (page_row v p)) (vkey v) v (row_page (page_row v p))
  = Ok (page_of IdSize (pg_term p) (pg_number p) (pg_docs p)).
Proof.
  unfold page_decrypt. cbn [row_tag row_page page_row].
  destruct (decrypt_sealed (vkey v) (page_of IdSize (pg_term p) (pg_number p) (pg_docs p))
    (ptag v (pg_term p) (pg_number p)) (to_le_bytes 8 v) (ptag_length _ _ _)) as (buf & -> & Hb).
  cbn [result_bind]. by rewrite Hb.
Qed.

Lemma encrypt_page_row v p :
  page_encrypt (page_of IdSize (pg_term p) (pg_number p) (pg_docs p))
    (ptag v (pg_term p) (pg_number p)) (vkey v) v = Ok (row_page (page_row v p)).
Proof. apply encrypt_fixed_ok, ptag_length. Qed.

(** ** The fixed rows of the table *)

Lemma select_fixed st db :
  state_wf st -> tags_distinct (st_version st) -> repr st db ->
  select_tag METADATA_TAG db = [meta_row st] /\ select_tag MODIFICATIONS_TAG db = [mods_row st].
Proof.
  intros Hwf Ht Hdb. unfold select_tag.
  split; apply Permutation_singleton_r; rewrite Hdb, !filter_cons;
    rewrite filter_page_rows_nil
      by (intros p Hp; destruct (page_row_tags st p Hwf Ht Hp); done);
    cbn [row_tag meta_row mods_row].
  - rewrite decide_True, decide_False by done. done.
  - rewrite decide_False, decide_True by done. done.
Qed.

Lemma stale_pages_repr st db cache :
  state_wf st -> tags_distinct (st_version st) -> repr st db -> cache_ok cache st ->
  let stale_meta := match cached_metadata cache with
                    | Some m => bool_decide (meta_version m < st_version st)%Z | None => true end in
  let stale_mods := match cached_changes cache with
                    | Some c => bool_decide (modifications_version c <> st_mods_version st)
                    | None => true end in
  stale_pages cache db ≡ₚ (if stale_meta then [meta_row st] else [])
                           ++ (if stale_mods then [mods_row st] else []).
Proof.
  intros Hwf Ht Hdb Hc. cbn zeta. unfold stale_pages. rewrite Hdb, !filter_cons.
  rewrite filter_page_rows_nil by (intros p Hp; destruct (page_row_tags st p Hwf Ht Hp); tauto).
  cbn [row_tag row_version meta_row mods_row].
  pose proof (wf_version _ Hwf). pose proof (wf_mods_version _ Hwf).
  pose proof fixed_tags_differ.
  destruct (cached_metadata cache), (cached_changes cache); repeat case_bool_decide;
    repeat case_decide; cbn [app]; try done; exfalso; naive_solver lia.
Qed.

Lemma load_metadata_both cache db st l fuel :
  state_wf st -> stale_pages cache db = l -> l ≡ₚ [meta_row st; mods_row st] ->
  load_metadata master_key indexed_table index_name fuel cache db = (fresh_cache st, Ok tt).
Proof.
  intros Hwf Hl Hp. symmetry in Hp.
  apply Permutation_length_2_inv in Hp as [->| ->];
    destruct fuel; cbn [load_metadata]; rewrite Hl;
    change (row_tag (meta_row st)) with METADATA_TAG;
    change (row_tag (mods_row st)) with MODIFICATIONS_TAG; tag_tests;
    rewrite decrypt_meta_row; cbn [expect meta_version];
    rewrite decrypt_mods_row by done; done.
Qed.

Lemma load_metadata_mods cache db st fuel :
  state_wf st -> stale_pages cache db = [mods_row st] ->
  cached_metadata cache = Some {| metadata := st_meta st; meta_version := st_version st |} ->
  load_metadata master_key indexed_table index_name fuel cache db = (fresh_cache st, Ok tt).
Proof.
  intros Hwf Hl Hm. destruct fuel; cbn [load_metadata]; rewrite Hl, Hm;
    change (row_tag (mods_row st)) with MODIFICATIONS_TAG; tag_tests;
    cbn [meta_version]; by rewrite decrypt_mods_row by done.
Qed.

Lemma load_metadata_meta cache db st c fuel :
  stale_pages cache db = [meta_row st] -> cached_changes cache = Some c ->
  load_metadata master_key indexed_table index_name (S fuel) cache db
  = load_metadata master_key indexed_table index_name fuel
      {| cached_metadata := Some {| metadata := st_meta st; meta_version := st_version st |};
         cached_changes := None |} db.
Proof.
  intros Hl Hc. cbn [load_metadata]. rewrite Hl.
  change (row_tag (meta_row st)) with METADATA_TAG. tag_tests. by rewrite decrypt_meta_row, Hc.
Qed.

(** Loading brings any coherent cache up to date, with one recursive call. *)
Lemma load_metadata_ok st db cache :
  state_wf st -> tags_distinct (st_version st) -> repr st db -> cache_ok cache st ->
  load_metadata master_key indexed_table index_name load_fuel cache db = (fresh_cache st, Ok tt).
Proof.
  intros Hwf Ht Hdb Hc. pose proof (stale_pages_repr st db cache Hwf Ht Hdb Hc) as Hs. cbn zeta in Hs.
  destruct (cached_metadata cache) as [m|] eqn:Em.
  2:{ unfold cache_ok in Hc. rewrite Em in Hc. rewrite Hc in Hs. eapply load_metadata_both; eauto. }
  pose proof Hc as Hc'. unfold cache_ok in Hc'. rewrite Em in Hc'.
  destruct Hc' as [Hlt|(Hv & Hmeta & Hch)].
  - rewrite bool_decide_true in Hs by done.
    destruct (cached_changes cache) as [c|] eqn:Ec; [|by eapply load_metadata_both].
    case_bool_decide as Hcv; [by eapply load_metadata_both|].
    apply Permutation_singleton_r in Hs. unfold load_fuel. rewrite (load_metadata_meta _ _ st c) by done.
    apply load_metadata_mods; [done| |done].
    pose proof (stale_pages_repr st db {| cached_metadata := Some {| metadata := st_meta st;
      meta_version := st_version st |}; cached_changes := None |} Hwf Ht Hdb) as Hs2.
    cbn [cached_metadata cached_changes meta_version] in Hs2. rewrite bool_decide_false in Hs2 by lia.
    apply Permutation_singleton_r, Hs2. right. done.
  - rewrite bool_decide_false in Hs by lia. destruct m as [mv mm]. cbn in Hv, Hmeta. subst mv mm.
    destruct (cached_changes cache) as [c|] eqn:Ec;
      [case_bool_decide as Hcv|]; [apply Permutation_singleton_r in Hs; by apply load_metadata_mods| |
      apply Permutation_singleton_r in Hs; by apply load_metadata_mods].
    apply Permutation_nil_r in Hs. destruct (Hch c eq_refl) as [Hlt|[_ Hm]]; [lia|].
    cbn [load_metadata load_fuel]. rewrite Hs, Em, Ec.
    destruct cache as [? ?], c as [? ?]. cbn in *. subst. unfold fresh_cache. done.
Qed.

(** ** Changing the modifications *)

Definition with_mods (st : IndexState) (version : Z) (m : ModificationsTable) : IndexState :=
  {| st_version := st_version st; st_meta := st_meta st; st_mods_version := version;
     st_mods := m; st_pages := st_pages st |}.

Lemma with_mods_wf st v m :
  state_wf st -> (1 <= v < 2 ^ 31)%Z -> mods_ok m -> state_wf (with_mods st v m).
Proof. intros [] ? ?. by split. Qed.

Lemma with_mods_cache_ok cache st m :
  cache_ok cache st -> cache_ok cache (with_mods st (st_mods_version st + 1) m).
Proof. clear IdSize_ok limit_ok.
  unfold cache_ok, with_mods. destruct (cached_metadata cache); [|done]. cbn.
  intros [?|(? & ? & Hc)]; [by left|right]. split; [done|]. split; [done|].
  intros c Hcc. left. destruct (Hc c Hcc); lia.
Qed.

Lemma update_mods_repr st db v m :
  state_wf st -> tags_distinct (st_version st) -> repr st db -> (1 <= v < 2 ^ 31)%Z ->
  exists db', update_tag MODIFICATIONS_TAG v
      (sealed_modifications m (vkey (st_version st)) (st_version st) v) db = Ok db' /\
    repr (with_mods st v m) db'.
Proof.
  intros Hwf Ht Hdb Hv. unfold update_tag, version_column_accepts.
  replace (negb _) with false by (symmetry; apply negb_false_iff, andb_true_iff; lia).
  eexists. split; [reflexivity|]. unfold repr in *. rewrite Hdb. cbn [fmap list_fmap].
  change (row_tag (meta_row st)) with METADATA_TAG.
  change (row_tag (mods_row st)) with MODIFICATIONS_TAG. tag_tests.
  do 2 apply perm_skip. cbn [st_version st_pages with_mods].
  apply reflexive_eq. rewrite <- list_fmap_compose. apply list_fmap_ext. intros i p Hp.
  apply list_elem_of_lookup_2 in Hp. destruct (page_row_tags st p Hwf Ht Hp) as [_ Hne].
  cbn [compose]. by rewrite bool_decide_false.
Qed.

(** [update_changeset] applies the modifier to the current table, under the next
    version, and leaves the pages alone. *)
Lemma update_changeset_ok st db cache f :
  state_wf st -> tags_distinct (st_version st) -> repr st db -> cache_ok cache st ->
  (st_mods_version st + 1 < 2 ^ 31)%Z -> mods_ok (f (st_mods st)) ->
  let st' := with_mods st (st_mods_version st + 1) (f (st_mods st)) in
  exists db' rebuild,
    update_changeset master_key indexed_table index_name f cache db
      = (fresh_cache st, Ok (db', rebuild)) /\
    repr st' db' /\ state_wf st' /\ cache_ok (fresh_cache st) st'.
Proof.
  intros Hwf Ht Hdb Hc Hv Hm. cbn zeta. unfold update_changeset.
  rewrite (load_metadata_ok st) by done. cbn [result_bind cached_metadata fresh_cache ok_or meta_version].
  destruct (select_fixed st db Hwf Ht Hdb) as [_ ->].
  rewrite decrypt_mods_row by done. cbn [result_bind modifications modifications_version].
  pose proof (wf_version _ Hwf). pose proof (wf_mods_version _ Hwf).
  rewrite wrap_u_id by (unfold fits_u; lia).
  rewrite modifications_encrypt_ok by (unfold fits_u; lia). cbn [result_bind].
  destruct (update_mods_repr st db (st_mods_version st + 1) (f (st_mods st)) Hwf Ht Hdb)
    as (db' & -> & Hdb'); [lia|]. cbn [result_bind].
  do 2 eexists. split; [reflexivity|]. split; [done|].
  split; [apply with_mods_wf; [done|lia|done]|]. apply with_mods_cache_ok, fresh_cache_ok.
Qed.

(** ** Modifications of a batch *)

Definition doc_ok (d : bytes) (terms : list bytes) : Prop :=
  length d = IdSize /\ Forall (fun t => resize_term t ∈ vocab) terms.

Lemma insert_term_ok d m t :
  length d = IdSize -> resize_term t ∈ vocab -> mods_ok m -> mods_ok (insert_term d m t).
Proof. clear IdSize_ok limit_ok.
  intros Hd Ht (Hwf & Hdom & Hids). split; [by apply insert_term_wf|]. split.
  - intros x Hx.
    assert (x = resize_term t \/ x ∈ dom (added_entries m)) as [->| ?]; [|done|by apply Hdom].
    unfold insert_term, move_document in Hx. cbn in Hx.
    destruct (added_entries m !! resize_term t), (removed_entries m !! resize_term t); cbn in Hx;
      set_solver.
  - intros x y. destruct (insert_term_spec d m t x) as [-> _]. case_bool_decide; [|by apply Hids].
    intros [?|?%elem_of_singleton]%elem_of_union; [by eapply Hids|by subst].
Qed.

Lemma remove_term_ok d m t : mods_ok m -> mods_ok (remove_term d m t).
Proof. clear IdSize_ok limit_ok.
  intros (Hwf & Hdom & Hids). split; [by apply remove_term_wf|]. split.
  - intros x Hx. apply Hdom. unfold remove_term, move_document in Hx. cbn in Hx.
    destruct (added_entries m !! resize_term t) eqn:E, (removed_entries m !! resize_term t);
      cbn in Hx; rewrite ?dom_insert_lookup_L in Hx by eauto; done.
  - intros x y. destruct (remove_term_spec d m t x) as [-> _].
    case_bool_decide; set_solver.
Qed.

Lemma insert_terms_ok d m ts : doc_ok d ts -> mods_ok m -> mods_ok (insert_terms m d ts).
Proof. clear IdSize_ok limit_ok.
  intros [Hd Hts]. revert m. unfold insert_terms.
  induction Hts; cbn [foldl]; eauto using insert_term_ok.
Qed.

Lemma remove_terms_ok d m ts : mods_ok m -> mods_ok (remove_terms m d ts).
Proof. clear IdSize_ok limit_ok. revert m. unfold remove_terms. induction ts; cbn [foldl]; eauto using remove_term_ok. Qed.

Lemma insert_many_mods_ok documents m :
  Forall (fun '(d, ts) => doc_ok d ts) documents -> mods_ok m ->
  mods_ok (insert_documents documents m).
Proof. clear IdSize_ok limit_ok.
  intros Hd. unfold insert_documents. revert m. induction Hd as [|[d ts] l Hd _ IH]; cbn [foldl]; eauto using insert_terms_ok.
Qed.

Lemma update_many_mods_ok documents m :
  Forall (fun '(d, (a, r)) => doc_ok d a) documents -> mods_ok m ->
  mods_ok (update_documents documents m).
Proof. clear IdSize_ok limit_ok.
  intros Hd. unfold update_documents. revert m. induction Hd as [|[d [a r]] l Hd _ IH]; cbn [foldl];
    eauto using insert_terms_ok, remove_terms_ok.
Qed.

(** ** Queries *)

Lemma elem_of_page_numbers n k : n ∈ page_numbers k <-> (0 <= n < k)%Z.
Proof.
  unfold page_numbers. rewrite list_elem_of_fmap. setoid_rewrite elem_of_seq. split.
  - intros (i & -> & Hi). lia.
  - intros Hn. exists (Z.to_nat n). lia.
Qed.

(** The tags wanted for a list of terms, with their terms. *)
Definition wanted (m : MetadataPage) (v : Z) (terms : list bytes) : list (bytes * bytes) :=
  terms ≫= fun kw => (fun n => (ptag v kw n, kw)) <$> page_numbers (get_num_pages m kw).

Lemma elem_of_wanted m v terms tag kw :
  (tag, kw) ∈ wanted m v terms <->
  kw ∈ terms /\ exists n, (0 <= n < get_num_pages m kw)%Z /\ tag = ptag v kw n.
Proof.
  unfold wanted. rewrite list_elem_of_bind. setoid_rewrite list_elem_of_fmap.
  setoid_rewrite elem_of_page_numbers. naive_solver.
Qed.

Definition add_tag (acc : gmap bytes bytes) (e : bytes * bytes) : gmap bytes bytes := <[e.1 := e.2]> acc.

Lemma plan_terms_spec m v terms :
  let '(tag_to_kw, output) := plan_terms master_key indexed_table index_name m v terms in
  tag_to_kw = foldl add_tag ∅ (wanted m v terms) /\
  forall kw, default [] (output !! kw) = [].
Proof.
  unfold plan_terms.
  enough (forall acc out, (forall kw, default [] (out !! kw) = []) ->
    let '(tag_to_kw, output) :=
      foldl (plan_term master_key indexed_table index_name m v) (acc, out) terms in
    tag_to_kw = foldl add_tag acc (wanted m v terms) /\
    forall kw, default [] (output !! kw) = []) as Hgen.
  { apply (Hgen ∅ ∅). intros kw. by rewrite lookup_empty. }
  induction terms as [|kw terms IH]; intros acc out Hout; cbn [foldl]; [done|].
  unfold plan_term at 2. unfold wanted. rewrite bind_cons, foldl_app. fold (wanted m v terms).
  case_bool_decide as Hn.
  - rewrite Hn. apply IH. intros kw'. rewrite lookup_insert. by case_decide.
  - replace (foldl add_tag acc _) with
      (foldl (fun acc page => <[ptag v kw page := kw]> acc) acc (page_numbers (get_num_pages m kw)));
      [by apply IH|].
    generalize (page_numbers (get_num_pages m kw)). clear. intros l. revert acc.
    induction l as [|n l IH]; intros acc; cbn; [done|]. apply IH.
Qed.

Lemma foldl_add_tag_Some l acc tag kw :
  foldl add_tag acc l !! tag = Some kw -> acc !! tag = Some kw \/ (tag, kw) ∈ l.
Proof.
  revert acc. induction l as [|[t' k'] l IH]; intros acc; cbn [foldl]; [by left|].
  intros [Ha|?]%IH; [|by right; right]. unfold add_tag in Ha. cbn in Ha.
  rewrite lookup_insert in Ha. case_decide; simplify_eq; [right; left|by left].
Qed.

Lemma foldl_add_tag_dom l acc tag kw :
  (tag, kw) ∈ l \/ is_Some (acc !! tag) -> is_Some (foldl add_tag acc l !! tag).
Proof.
  revert acc. induction l as [|[t' k'] l IH]; intros acc; cbn [foldl].
  - intros [H'|?]; [by apply not_elem_of_nil in H'|done].
  - intros H'. apply IH. unfold add_tag. cbn. rewrite lookup_insert. case_decide; [by right|].
    rewrite elem_of_cons in H'. naive_solver.
Qed.

Lemma get_num_pages_le m t : metadata_le m -> (get_num_pages m t <= limit)%Z.
Proof. clear IdSize_ok limit_ok.
  intros [Hd Hm]. unfold get_num_pages. destruct (num_pages m !! t) eqn:E; cbn; [by eapply Hm|done].
Qed.

(** The map from tags to terms is exact on the pages in range. *)
Lemma wanted_lookup m v terms kw n :
  metadata_le m -> tags_distinct v -> Forall (fun t => t ∈ vocab) terms ->
  kw ∈ vocab -> (0 <= n < limit)%Z ->
  foldl add_tag ∅ (wanted m v terms) !! ptag v kw n =
  if bool_decide (kw ∈ terms /\ (n < get_num_pages m kw)%Z) then Some kw else None.
Proof.
  intros Hm Ht Hterms Hkw Hn.
  assert (forall kw', foldl add_tag ∅ (wanted m v terms) !! ptag v kw n = Some kw' ->
    kw' = kw /\ kw ∈ terms /\ (n < get_num_pages m kw)%Z) as Hsome.
  { intros kw' [Hl|Hl]%foldl_add_tag_Some; [by rewrite lookup_empty in Hl|].
    apply elem_of_wanted in Hl as (Hin & n' & Hn' & Htag).
    pose proof (get_num_pages_le m kw' Hm).
    destruct (Ht _ _ Hkw Hn) as (_ & _ & Hinj).
    destruct (Hinj kw' n') as [-> ->]; [by apply (proj1 (Forall_forall _ _) Hterms)|lia|done|]. split; [done|]. split; [done|lia]. }
  case_bool_decide as Hb.
  - destruct (foldl_add_tag_dom (wanted m v terms) ∅ (ptag v kw n) kw) as [kw' Hl].
    + left. apply elem_of_wanted. destruct Hb. split; [done|]. exists n. split; [lia|done].
    + rewrite Hl. apply Hsome in Hl as [-> _]. done.
  - apply eq_None_not_Some. intros [kw' Hl]. apply Hsome in Hl. tauto.
Qed.

Definition decrypted (v : Z) (p : Page) : bytes * TermPage :=
  (ptag v (pg_term p) (pg_number p), page_of IdSize (pg_term p) (pg_number p) (pg_docs p)).

Lemma decrypt_page_rows v ps :
  result_mapM (fun r => let? p := page_decrypt (row_tag r) (vkey v) v (row_page r) in
                        Ok (row_tag r, p)) (page_row v <$> ps) = Ok (decrypted v <$> ps).
Proof.
  induction ps as [|p ps IH]; [done|]. cbn [fmap list_fmap result_mapM].
  rewrite decrypt_page_row. cbn [result_bind]. rewrite IH. done.
Qed.

(** The rows fetched are those of the wanted tags. *)
Lemma query_pages_ok st db wanted_tags :
  state_wf st -> tags_distinct (st_version st) -> repr st db ->
  METADATA_TAG ∉ wanted_tags -> MODIFICATIONS_TAG ∉ wanted_tags ->
  exists ps, query_pages db wanted_tags (vkey (st_version st)) (st_version st)
             = Ok (decrypted (st_version st) <$> ps) /\
    ps ≡ₚ filter (fun p => ptag (st_version st) (pg_term p) (pg_number p) ∈ wanted_tags) (st_pages st).
Proof.
  intros Hwf Ht Hdb Hmeta Hmods. unfold query_pages.
  case_bool_decide as He.
  { exists []. split; [done|]. subst. rewrite filter_none; [done|]. set_solver. }
  rewrite list_filter_filter.
  match goal with |- context [filter ?P db] => set (Q := P) end.
  assert (filter Q db ≡ₚ page_row (st_version st) <$> filter (fun p => ptag (st_version st)
    (pg_term p) (pg_number p) ∈ wanted_tags) (st_pages st)) as (ps & -> & Hps)%permutation_fmap_inv.
  - rewrite Hdb, !filter_cons, decide_False, decide_False by (unfold Q; cbn; tauto).
    rewrite filter_fmap. apply fmap_Permutation, reflexive_eq, list_filter_iff. intros p.
    unfold Q. cbn. split; [tauto|]. intros Hp. split; [done|]. split; [|done].
    apply list_elem_of_fmap. exists (ptag (st_version st) (pg_term p) (pg_number p)).
    by rewrite elem_of_elements.
  - exists ps. by rewrite decrypt_page_rows.
Qed.

Lemma collect_pages_ok tag_to_kw v ps out :
  Forall (fun p => page_ids IdSize (pg_docs p) /\
                   tag_to_kw !! ptag v (pg_term p) (pg_number p) = Some (pg_term p)) ps ->
  exists out', result_foldl (collect_page IdSize tag_to_kw) out (decrypted v <$> ps) = Ok out' /\
    forall kw, list_to_set (default [] (out' !! kw))
               = (list_to_set (default [] (out !! kw)) : gset bytes) ∪ base_docs ps kw.
Proof.
  intros Hps. revert out. induction Hps as [|p ps [Hids Htag] _ IH]; intros out;
    cbn [fmap list_fmap result_foldl].
  { exists out. split; [done|]. intros kw. rewrite base_docs_nil. set_solver. }
  unfold collect_page at 1. cbn [fst snd decrypted].
  rewrite Htag. cbn [ok_or result_bind]. rewrite items_page_of by (lia || done). cbn [result_bind].
  destruct (IH (<[pg_term p := default [] (out !! pg_term p) ++ pg_docs p]> out)) as (out' & -> & Hout).
  exists out'. split; [done|]. intros kw. rewrite Hout, base_docs_cons, lookup_insert.
  case_decide; [rewrite bool_decide_true by done|rewrite bool_decide_false by done]; subst; cbn;
    rewrite ?list_to_set_app_L; set_solver.
Qed.

(** For every wanted term the answer holds the documents of its pages. *)
Lemma query_terms_ok st db cache terms :
  state_wf st -> tags_distinct (st_version st) -> repr st db -> cache_ok cache st ->
  Forall (fun t => t ∈ vocab) terms ->
  exists out, query_terms master_key indexed_table index_name IdSize terms cache db
              = (fresh_cache st, Ok out) /\
    forall kw, kw ∈ terms -> list_to_set (default [] (out !! kw)) = base_docs (st_pages st) kw.
Proof.
  intros Hwf Ht Hdb Hc Hterms. unfold query_terms. rewrite (load_metadata_ok st) by done.
  cbn [result_bind cached_metadata fresh_cache ok_or meta_version metadata].
  pose proof (plan_terms_spec (st_meta st) (st_version st) terms) as Hplan.
  destruct (plan_terms _ _ _ _ _ _) as [tag_to_kw out]. destruct Hplan as [Hmap Hout].
  assert (forall kw n, kw ∈ vocab -> (0 <= n < limit)%Z -> tag_to_kw !! ptag (st_version st) kw n =
    if bool_decide (kw ∈ terms /\ (n < get_num_pages (st_meta st) kw)%Z) then Some kw else None) as Hlook.
  { intros. subst. apply wanted_lookup; try done. apply (wf_limit _ Hwf). }
  assert (forall tag, is_Some (tag_to_kw !! tag) -> tag <> METADATA_TAG /\ tag <> MODIFICATIONS_TAG) as Hfix.
  { intros tag [kw Hk]. subst. apply foldl_add_tag_Some in Hk as [Hk|Hk]; [by rewrite lookup_empty in Hk|].
    apply elem_of_wanted in Hk as (Hkw & n & Hn & ->).
    pose proof (get_num_pages_le _ kw (wf_limit _ Hwf)).
    destruct (Ht kw n) as (? & ? & _); [by apply (proj1 (Forall_forall _ _) Hterms)|lia|done]. }
  destruct (query_pages_ok st db (dom tag_to_kw) Hwf Ht Hdb) as (ps & -> & Hps);
    [rewrite elem_of_dom; intros []%Hfix; done..|]. cbn [result_bind].
  destruct (collect_pages_ok tag_to_kw (st_version st) ps out) as (out' & -> & Hout').
  - apply Forall_forall. intros p. rewrite Hps, list_elem_of_filter, elem_of_dom. intros [Hs Hp].
    destruct (page_in_range st p Hwf Hp) as [Hv Hn].
    split; [apply (proj1 (Forall_forall _ _) (wf_pages _ Hwf) p Hp)|].
    rewrite (Hlook _ _ Hv Hn) in *. case_bool_decide; [done|]. by destruct Hs.
  - eexists. split; [done|]. intros kw Hkw. rewrite Hout', Hout, Hps. cbn. rewrite union_empty_l_L.
    apply set_eq. intros d. rewrite !elem_of_base_docs. setoid_rewrite list_elem_of_filter.
    split; [naive_solver|]. intros (p & Hp & <- & Hd). exists p. repeat split; try done.
    destruct (page_in_range st p Hwf Hp) as [Hv Hn].
    rewrite elem_of_dom, (Hlook _ _ Hv Hn), bool_decide_true; [done|]. split; [done|].
    apply (proj1 (Forall_forall _ _) (wf_pages _ Hwf) p Hp).
Qed.

(** Every query of a batch gets the documents it denotes. *)
Lemma query_ok st db cache queries :
  state_wf st -> tags_distinct (st_version st) -> repr st db -> cache_ok cache st ->
  Forall (fun t => t ∈ vocab) (queries ≫= query_vocab) ->
  query master_key indexed_table index_name IdSize queries cache db
  = (fresh_cache st, Ok ((fun q => denote q (contents st)) <$> queries)).
Proof.
  intros Hwf Ht Hdb Hc Hv. unfold query. cbn zeta.
  destruct (query_terms_ok st db cache
    (elements (foldl (fun out q => collect_terms q out) ∅ (check_max_lengths <$> queries))) Hwf Ht Hdb Hc)
    as (out & -> & Hout).
  { apply Forall_forall. intros t. rewrite elem_of_elements, elem_of_all_terms.
    by apply (proj1 (Forall_forall _ _) Hv). }
  cbn [result_bind cached_changes fresh_cache ok_or modifications]. do 2 f_equal.
  rewrite <- list_fmap_compose. apply list_fmap_ext. intros i q Hq%list_elem_of_lookup_2. cbn [compose].
  apply evaluate_denote. intros t Htq. apply Hout.
  rewrite elem_of_elements, elem_of_all_terms, list_elem_of_bind. eauto.
Qed.
End Spec.
