(* ===== verification/NextVersion.v ===== *)
(** * Rebuilding an encrypted inverted index

    The lemmas on [do_next_version] and [do_initial_provisioning] of
    [metadata/indices/inverted_index/db_inverted_index.rs] (modelled in
    [RawIndex]): the pages that are kept, the entries that are merged, the pages
    that are written, and the table that results, in terms of the abstract states
    of [IndexSpec]. *)
From S2P Require Import Prelude Sql Crypto TermPage IndexMetadata RawIndex IndexSpec.
From stdpp Require Import sorting.

(** ** Chunks *)

Section Chunks.
Variable n : nat.
Hypothesis n_pos : 0 < n.

Lemma chunks_fuel_spec fuel (l : list bytes) :
  length l <= fuel ->
  concat (chunks_fuel fuel n l) = l /\ length (chunks_fuel fuel n l) <= length l /\
  Forall (fun c => length c <= n) (chunks_fuel fuel n l).
Proof.
  revert l. induction fuel as [|fuel IH]; intros [|x l] Hl; try (cbn in Hl; lia); try by repeat constructor.
  cbn [chunks_fuel concat]. destruct (IH (drop n (x :: l))) as (Hc & Hn & Hf).
  { rewrite length_drop. cbn in *. lia. }
  rewrite Hc, take_drop. split; [done|]. split.
  - rewrite length_drop in Hn. cbn [length] in *. lia.
  - constructor; [rewrite length_take; lia|done].
Qed.

Lemma chunks_spec (l : list bytes) :
  concat (chunks n l) = l /\ length (chunks n l) <= length l /\
  Forall (fun c => length c <= n) (chunks n l).
Proof. by apply chunks_fuel_spec. Qed.
End Chunks.

Lemma elem_of_sorted_entries s d : d ∈ sorted_entries s <-> d ∈ s.
Proof. unfold sorted_entries. by rewrite merge_sort_Permutation, elem_of_elements. Qed.

Lemma length_sorted_entries s : length (sorted_entries s) = size s.
Proof. unfold sorted_entries. by rewrite merge_sort_Permutation. Qed.

(** ** Numbered pages *)

Fixpoint number_pages (kw : bytes) (start : Z) (l : list (list bytes)) : list Page :=
  match l with
  | [] => []
  | docs :: l => mk_page kw start docs :: number_pages kw (start + 1) l
  end.

Definition page_key (p : Page) : bytes * Z := (pg_term p, pg_number p).

Lemma elem_of_number_pages kw start l p :
  p ∈ number_pages kw start l ->
  pg_term p = kw /\ (start <= pg_number p < start + Z.of_nat (length l))%Z /\ pg_docs p ∈ l.
Proof.
  revert start. induction l as [|docs l IH]; intros start; cbn [number_pages].
  - by intros ?%not_elem_of_nil.
  - rewrite elem_of_cons. intros [->|Hp]; cbn [pg_term pg_number pg_docs length].
    + split; [done|]. split; [lia|left].
    + destruct (IH _ Hp) as (? & ? & ?). split; [done|]. split; [lia|by right].
Qed.

Lemma number_pages_nodup kw start l : NoDup (page_key <$> number_pages kw start l).
Proof.
  revert start. induction l as [|docs l IH]; intros start; cbn; constructor; [|apply IH].
  intros (p & Hk & Hp)%list_elem_of_fmap. apply elem_of_number_pages in Hp as (_ & ? & _).
  unfold page_key in Hk. injection Hk as _ Hk. cbn in Hk. lia.
Qed.

Lemma base_docs_number_pages kw start l t :
  base_docs (number_pages kw start l) t = if bool_decide (kw = t) then list_to_set (concat l) else ∅.
Proof.
  revert start. induction l as [|docs l IH]; intros start; cbn [number_pages concat].
  - by case_bool_decide.
  - rewrite base_docs_cons, IH. cbn. case_bool_decide; rewrite ?list_to_set_app_L; set_solver.
Qed.

(** ** Merging the changes *)

Lemma lookup_extend_entry m k docs t :
  extend_entry m k docs !! t = if bool_decide (t = k) then Some (default ∅ (m !! k) ∪ docs) else m !! t.
Proof.
  unfold extend_entry. case_bool_decide; subst; [by rewrite lookup_insert_eq|].
  by rewrite lookup_insert_ne.
Qed.

Lemma lookup_incorporate_deletions removed partial t :
  incorporate_deletions removed partial !! t
  = (fun s => s ∖ default ∅ (removed !! t)) <$> partial !! t.
Proof.
  unfold incorporate_deletions.
  apply (map_fold_weak_ind (fun r m => r !! t = (fun s => s ∖ default ∅ (m !! t)) <$> partial !! t)).
  - rewrite lookup_empty. destruct (partial !! t); cbn; f_equal. set_solver.
  - intros w rm m r Hw IH. destruct (decide (w = t)) as [->|Hne].
    + rewrite lookup_alter_eq, lookup_insert_eq, IH, Hw. destruct (partial !! t); cbn; f_equal. set_solver.
    + by rewrite lookup_alter_ne, lookup_insert_ne.
Qed.

Lemma lookup_incorporate_additions added partial t :
  incorporate_additions added partial !! t
  = match added !! t with
    | Some a => Some (default ∅ (partial !! t) ∪ a)
    | None => partial !! t
    end.
Proof.
  unfold incorporate_additions.
  apply (map_fold_weak_ind (fun r m => r !! t = match m !! t with
    | Some a => Some (default ∅ (partial !! t) ∪ a) | None => partial !! t end)).
  - by rewrite lookup_empty.
  - intros w a m r Hw IH. rewrite lookup_extend_entry. case_bool_decide as Ht.
    + subst. rewrite lookup_insert_eq, IH, Hw. done.
    + by rewrite lookup_insert_ne.
Qed.

Lemma merge_subset (kept merged removed added : gset bytes) :
  added ## removed -> merged ∖ removed ∪ added ⊆ (kept ∪ merged ∪ added) ∖ removed.
Proof. set_solver. Qed.

Lemma merge_equal (kept merged removed added : gset bytes) :
  added ## removed -> kept ## removed ->
  kept ∪ (merged ∖ removed ∪ added) = (kept ∪ merged ∪ added) ∖ removed.
Proof. set_solver. Qed.

(** The documents collected from the rows of a table. *)
Lemma lookup_add_document acc d t :
  default ∅ (add_document acc d !! t)
  = default ∅ (acc !! t) ∪ (if bool_decide (t ∈ resize_term <$> d.2) then {[d.1]} else ∅).
Proof.
  unfold add_document. generalize (d.2) as ts. intros ts. revert acc.
  induction ts as [|x ts IH]; intros acc; cbn [foldl fmap list_fmap].
  - rewrite bool_decide_false by apply not_elem_of_nil. set_solver.
  - rewrite IH, lookup_extend_entry.
    rewrite (bool_decide_ext (t ∈ _ :: _) (t = resize_term x \/ t ∈ resize_term <$> ts)) by apply elem_of_cons.
    rewrite bool_decide_or. do 2 case_bool_decide; cbn; subst; set_solver.
Qed.

Lemma lookup_add_documents documents t :
  default ∅ (foldl add_document ∅ documents !! t) = docs_with_term documents t.
Proof.
  enough (forall acc, default ∅ (foldl add_document acc documents !! t)
    = default ∅ (acc !! t) ∪ docs_with_term documents t) as Hgen
    by (rewrite Hgen, lookup_empty; cbn; set_solver).
  induction documents as [|d l IH]; intros acc; cbn [foldl]; [set_solver|].
  rewrite IH, lookup_add_document, docs_with_term_cons. set_solver.
Qed.

Lemma dom_add_documents documents t :
  is_Some (foldl add_document ∅ documents !! t) ->
  exists d, d ∈ documents /\ t ∈ resize_term <$> d.2.
Proof.
  enough (forall acc, is_Some (foldl add_document acc documents !! t) ->
    is_Some (acc !! t) \/ exists d, d ∈ documents /\ t ∈ resize_term <$> d.2) as Hgen.
  { intros [Hs|?]%Hgen; [|done]. rewrite lookup_empty in Hs. by destruct Hs. }
  induction documents as [|d l IH]; intros acc; cbn [foldl]; [by left|].
  intros [Hs|(d' & ? & ?)]%IH; [|right; exists d'; split; [by right|done]].
  assert (is_Some (acc !! t) \/ t ∈ resize_term <$> d.2) as [?|?];
    [|by left|right; exists d; split; [left|done]].
  revert Hs. unfold add_document. generalize (d.2) as ts. intros ts. revert acc.
  induction ts as [|x ts IHt]; intros acc; cbn [foldl fmap list_fmap]; [by left|].
  intros [Hs|?]%IHt; [|right; by right]. rewrite lookup_extend_entry in Hs.
  case_bool_decide; [right; subst; left|by left].
Qed.

(** ** Classifying the pages *)

Section Classify.
Variable IdSize : nat.
Variable changes : ModificationsTable.

(** A page that goes to the next version as it is. *)
Definition keeps (p : Page) : bool :=
  negb (bool_decide (pg_term p ∈ dom (removed_entries changes))) &&
  (negb (bool_decide (pg_term p ∈ dom (added_entries changes)))
   || bool_decide (max_entries IdSize <= length (pg_docs p))).

Record Classified := { kept : list Page; partial : gmap bytes (gset bytes); last_full : gmap bytes Z }.

Definition classify_page (acc : Classified) (p : Page) : Classified :=
  if keeps p then
    {| kept := kept acc ++ [p]; partial := partial acc;
       last_full := if bool_decide (pg_term p ∈ dom (added_entries changes))
                    then <[pg_term p := Z.max (default 0%Z (last_full acc !! pg_term p)) (pg_number p)]>
                           (last_full acc)
                    else last_full acc |}
  else
    {| kept := kept acc; partial := extend_entry (partial acc) (pg_term p) (list_to_set (pg_docs p));
       last_full := last_full acc |}.

Definition classify (pages : list Page) : Classified :=
  foldl classify_page {| kept := []; partial := ∅; last_full := ∅ |} pages.

Lemma classify_snoc l p : classify (l ++ [p]) = classify_page (classify l) p.
Proof. unfold classify. by rewrite foldl_snoc. Qed.

Lemma kept_classify pages : kept (classify pages) = filter (fun p => keeps p = true) pages.
Proof.
  induction pages as [|p l IH] using rev_ind; [done|].
  rewrite classify_snoc, filter_app, filter_cons, filter_nil. unfold classify_page.
  destruct (keeps p) eqn:E; cbn [kept]; rewrite IH.
  - by rewrite decide_True.
  - rewrite decide_False by done. by rewrite app_nil_r.
Qed.

Lemma partial_classify pages t :
  default ∅ (partial (classify pages) !! t) = base_docs (filter (fun p => keeps p = false) pages) t /\
  (is_Some (partial (classify pages) !! t) -> exists p, p ∈ pages /\ keeps p = false /\ pg_term p = t).
Proof.
  induction pages as [|p l [IHb IHs]] using rev_ind; [cbn; rewrite lookup_empty; split; [done|by intros []]|].
  rewrite classify_snoc, filter_app, filter_cons, filter_nil, base_docs_app. unfold classify_page.
  setoid_rewrite elem_of_app. destruct (keeps p) eqn:E; cbn [partial].
  - rewrite decide_False by done. rewrite base_docs_nil, IHb. split; [set_solver|naive_solver].
  - rewrite decide_True by done. rewrite base_docs_cons, base_docs_nil, lookup_extend_entry.
    split.
    + rewrite <- IHb. do 2 case_bool_decide; simplify_eq; cbn; set_solver.
    + case_bool_decide; [|naive_solver]. intros _. exists p. split; [right; left|done].
Qed.

Lemma last_full_classify pages t :
  (forall p, p ∈ pages -> (0 <= pg_number p)%Z) ->
  match last_full (classify pages) !! t with
  | Some m => t ∈ dom (added_entries changes) /\
              (forall p, p ∈ pages -> keeps p = true -> pg_term p = t -> (pg_number p <= m)%Z) /\
              exists p, p ∈ pages /\ pg_term p = t /\ pg_number p = m
  | None => t ∈ dom (added_entries changes) -> forall p, p ∈ pages -> keeps p = true -> pg_term p <> t
  end.
Proof.
  induction pages as [|p l IH] using rev_ind; intros Hpos.
  { cbn. rewrite lookup_empty. intros _ p Hp. by apply not_elem_of_nil in Hp. }
  rewrite classify_snoc.
  assert (forall q, q ∈ l ++ [p] <-> q ∈ l \/ q = p) as Hsn
    by (intros; by rewrite elem_of_app, list_elem_of_singleton).
  assert (0 <= pg_number p)%Z as Hp0 by (apply Hpos, Hsn; by right).
  assert (forall p, p ∈ l -> (0 <= pg_number p)%Z) as Hl by (intros; apply Hpos, Hsn; by left).
  specialize (IH Hl). unfold classify_page.
  destruct (keeps p) eqn:Ek; [case_bool_decide as Ea|]; cbn [last_full].
  - destruct (decide (pg_term p = t)) as [<-|Hne].
    + rewrite lookup_insert_eq. destruct (last_full (classify l) !! pg_term p) as [m|] eqn:Em; cbn [from_option]; unfold id.
      * destruct IH as (Ht & Hub & p0 & Hp0' & Hpt & Hpn). split; [done|]. split.
        -- intros q [Hq| ->]%Hsn Hk Hqt; [specialize (Hub q Hq Hk Hqt)|]; lia.
        -- destruct (Z.max_spec m (pg_number p)) as [[? ->]|[? ->]]; [exists p|exists p0]; rewrite Hsn; auto.
      * rewrite Z.max_r by lia. split; [done|]. split; [|exists p; rewrite Hsn; auto].
        intros q [Hq| ->]%Hsn Hk Hqt; [|lia]. by destruct (IH Ea q Hq Hk).
    + rewrite lookup_insert_ne by done. destruct (last_full (classify l) !! t).
      * destruct IH as (? & Hub & p0 & ?). split; [done|]. split; [|exists p0; rewrite Hsn; naive_solver].
        intros q [Hq| ->]%Hsn; [by apply Hub|done].
      * intros Ht q [Hq| ->]%Hsn; [by apply IH|done].
  - destruct (last_full (classify l) !! t).
    + destruct IH as (Ht & Hub & p0 & ?). split; [done|]. split; [|exists p0; rewrite Hsn; naive_solver].
      intros q [Hq| ->]%Hsn; [by apply Hub|congruence].
    + intros Ht q [Hq| ->]%Hsn Hk; [by apply IH|congruence].
  - destruct (last_full (classify l) !! t).
    + destruct IH as (Ht & Hub & p0 & ?). split; [done|]. split; [|exists p0; rewrite Hsn; naive_solver].
      intros q [Hq| ->]%Hsn; [by apply Hub|congruence].
    + intros Ht q [Hq| ->]%Hsn Hk; [by apply IH|congruence].
Qed.
End Classify.

Section Rebuild.
Context `{Aead} `{!AeadLaws} `{Hkdf} `{!HkdfLaws}.
Context `{!Codec MetadataPage} `{!Codec ModificationsTable} `{!Codec TermPage}.
Variable master_key : bytes.
Variable indexed_table : TableRef.
Variable index_name : string.
Variable IdSize : nat.
Hypothesis IdSize_ok : 0 < IdSize <= ENTRIES_DATA_SIZE.
Variable vocab : gset bytes.
Variable limit : Z.
Hypothesis limit_ok : (0 <= limit <= 2 ^ 40)%Z.
Hypothesis vocab_ok : set_Forall (fun t : bytes => length t <= MAX_TERM_SIZE) vocab.
Hypothesis metadata_fits : empty_fits.
Variable shuffle : Db -> Db.
Hypothesis shuffle_ok : forall l, shuffle l ≡ₚ l.

Local Abbreviation vkey := (get_version_cipher master_key indexed_table index_name).
Local Abbreviation mkey := (get_metadata_cipher master_key indexed_table index_name).
Local Abbreviation ptag := (page_tag master_key indexed_table index_name).
Local Abbreviation prow := (page_row master_key indexed_table index_name IdSize).
Local Abbreviation distinct := (tags_distinct master_key indexed_table index_name vocab limit).
Local Abbreviation repr := (repr master_key indexed_table index_name IdSize).
Local Abbreviation wf := (state_wf IdSize vocab limit).

Lemma max_entries_pos : 0 < max_entries IdSize.
Proof. clear - IdSize_ok. unfold max_entries. apply Nat.div_str_pos. fold ENTRIES_DATA_SIZE. lia. Qed.

(** ** Inserting rows *)

Definition row_key (r : IndexTableRow) : Z * bytes := (row_version r, row_tag r).

Lemma sql_insert_ok db r :
  version_column_accepts (row_version r) = true -> row_key r ∉ row_key <$> db ->
  sql_insert db r = Ok (db ++ [r]).
Proof.
  intros Hv Hk. unfold sql_insert. rewrite Hv. cbn [negb].
  destruct (existsb _ db) eqn:E; [|done]. destruct Hk.
  apply existsb_exists in E as (r' & Hin & Heq).
  apply andb_true_iff in Heq as [E1%bool_decide_eq_true E2%bool_decide_eq_true].
  apply list_elem_of_fmap. exists r'. unfold row_key. rewrite E1, E2. split; [done|].
  by apply list_elem_of_In.
Qed.

Lemma insert_rows_ok rows db :
  Forall (fun r => version_column_accepts (row_version r) = true) rows ->
  NoDup (row_key <$> rows) -> (forall r, r ∈ rows -> row_key r ∉ row_key <$> db) ->
  insert_rows db rows = Ok (db ++ rows).
Proof.
  intros Hv. unfold insert_rows. revert db.
  induction Hv as [|r rows Hr _ IH]; intros db Hnd Hd; cbn [result_foldl]; [by rewrite app_nil_r|].
  cbn [fmap list_fmap] in Hnd. apply NoDup_cons in Hnd as [Hne Hnd].
  rewrite sql_insert_ok by (done || apply Hd; left). cbn [result_bind].
  rewrite IH; [by rewrite <- app_assoc|done|].
  intros r' Hr'. rewrite fmap_app, elem_of_app. intros [Hin|Hin].
  - apply (Hd r'); [by right|done].
  - apply list_elem_of_singleton in Hin. apply Hne. rewrite <- Hin. by apply list_elem_of_fmap_2.
Qed.

(** Pages in range have rows with distinct keys, none of them a fixed row. *)
Definition in_range (p : Page) : Prop := pg_term p ∈ vocab /\ (0 <= pg_number p < limit)%Z.

Lemma rows_nodup v pages :
  distinct v -> Forall in_range pages -> NoDup (page_key <$> pages) ->
  NoDup (row_key <$> (prow v <$> pages)).
Proof.
  intros Hd Hr Hnd. rewrite <- list_fmap_compose.
  induction pages as [|p l IH]; cbn [fmap list_fmap]; [constructor|].
  apply NoDup_cons in Hnd as [Hne Hnd]. apply Forall_cons in Hr as [[Hv Hn] Hr].
  constructor; [|by apply IH].
  intros (q & Hk & Hq)%list_elem_of_fmap. apply Hne, list_elem_of_fmap. exists q. split; [|done].
  destruct (proj1 (Forall_forall _ _) Hr q Hq) as [Hqv Hqn].
  destruct (Hd _ _ Hv Hn) as (_ & _ & Hinj). injection Hk as Hk.
  destruct (Hinj _ _ Hqv Hqn Hk) as [E1 E2]. unfold page_key. by rewrite E1, E2.
Qed.

Lemma rows_not_fixed v pages r :
  distinct v -> Forall in_range pages -> r ∈ prow v <$> pages ->
  row_version r = v /\ row_tag r <> METADATA_TAG /\ row_tag r <> MODIFICATIONS_TAG.
Proof.
  intros Hd Hr (p & -> & Hp)%list_elem_of_fmap.
  destruct (proj1 (Forall_forall _ _) Hr p Hp) as [Hv Hn].
  destruct (Hd _ _ Hv Hn) as (? & ? & _). done.
Qed.

(** ** Classification, on encrypted pages *)

Definition to_next_state (v : Z) (c : Classified) : NextVersionState :=
  {| new_pages := prow v <$> kept c; partial_pages := partial c; last_full_page := last_full c |}.

Definition page_fits (p : Page) : Prop :=
  length (pg_term p) <= MAX_TERM_SIZE /\ fits_u 40 (pg_number p) /\ page_ids IdSize (pg_docs p).

Lemma next_version_page_ok v changes acc p :
  page_fits p ->
  next_version_page master_key indexed_table index_name IdSize v changes (to_next_state (v + 1) acc)
    (prow v p) = Ok (to_next_state (v + 1) (classify_page IdSize changes acc p)).
Proof.
  intros (Ht & Hn & Hd). unfold next_version_page. rewrite decrypt_page_row by done.
  cbn [result_bind].
  rewrite header_term_page_of, page_number_page_of, items_page_of, free_space_page_of by (done || lia).
  rewrite encrypt_page_row by done. cbn [result_bind].
  unfold classify_page, keeps, to_next_state.
  destruct (bool_decide (pg_term p ∈ dom (removed_entries changes))); cbn [negb andb]; [done|].
  destruct (bool_decide (pg_term p ∈ dom (added_entries changes))); cbn [negb orb].
  - destruct (Nat.le_gt_cases (max_entries IdSize) (length (pg_docs p))).
    + rewrite bool_decide_false, bool_decide_true by lia. cbn [kept partial last_full].
      by rewrite fmap_app.
    + rewrite bool_decide_true, bool_decide_false by lia. done.
  - cbn [kept partial last_full]. by rewrite fmap_app.
Qed.

Lemma classify_rows v changes pages :
  Forall page_fits pages ->
  result_foldl (next_version_page master_key indexed_table index_name IdSize v changes)
    {| new_pages := []; partial_pages := ∅; last_full_page := ∅ |} (prow v <$> pages)
  = Ok (to_next_state (v + 1) (classify IdSize changes pages)).
Proof.
  intros Hp. unfold classify.
  change {| new_pages := []; partial_pages := ∅; last_full_page := ∅ |} with
    (to_next_state (v + 1) {| kept := []; partial := ∅; last_full := ∅ |}).
  generalize {| kept := []; partial := ∅; last_full := ∅ |} as acc.
  induction Hp as [|p l Hp _ IH]; intros acc; cbn [fmap list_fmap result_foldl foldl]; [done|].
  rewrite next_version_page_ok by done. cbn [result_bind]. apply IH.
Qed.

(** ** Writing pages *)

Definition ids_ok (entries : gset bytes) : Prop := forall d, d ∈ entries -> length d = IdSize.

Lemma chunks_ids entries :
  ids_ok entries -> Forall (page_ids IdSize) (chunks (max_entries IdSize) (sorted_entries entries)).
Proof. clear - IdSize_ok.
  intros Hids. destruct (chunks_spec _ max_entries_pos (sorted_entries entries)) as (Hc & _ & Hf).
  apply Forall_forall. intros c Hcin. split; [|by apply (proj1 (Forall_forall _ _) Hf)].
  apply Forall_forall. intros d Hd. apply Hids. rewrite <- elem_of_sorted_entries, <- Hc.
  apply list_elem_of_In, in_concat. exists c. by rewrite <- !list_elem_of_In.
Qed.

Lemma write_chunks_ok v kw start l :
  Forall (page_ids IdSize) l ->
  write_chunks master_key indexed_table index_name IdSize v kw start l
  = Ok (prow v <$> number_pages kw start l, (start + Z.of_nat (length l))%Z).
Proof.
  intros Hl. revert start. induction Hl as [|docs l Hd _ IH]; intros start; cbn [write_chunks].
  - cbn. by rewrite Z.add_0_r.
  - rewrite from_iterator_page_of by (done || lia). cbn [result_bind].
    rewrite (encrypt_page_row master_key indexed_table index_name IdSize v (mk_page kw start docs)).
    cbn [result_bind]. rewrite IH. cbn [result_bind number_pages fmap list_fmap length].
    do 2 f_equal. lia.
Qed.

(** The pages a term gets, and how many numbers it then uses. *)
Definition term_pages (start : bytes -> Z) (e : bytes * gset bytes) : list Page :=
  number_pages e.1 (start e.1) (chunks (max_entries IdSize) (sorted_entries e.2)).

Definition term_count (start : bytes -> Z) (e : bytes * gset bytes) : Z :=
  (start e.1 + Z.of_nat (length (chunks (max_entries IdSize) (sorted_entries e.2))))%Z.

Definition start_of (last : gmap bytes Z) (kw : bytes) : Z :=
  match last !! kw with Some v => (v + 1)%Z | None => 0%Z end.

Definition add_entry_meta (start : bytes -> Z) (m : MetadataPage) (e : bytes * gset bytes) :
    MetadataPage := insert_entry m e.1 (term_count start e).

Lemma write_entries_ok v last pages m es :
  Forall (fun e => ids_ok e.2) es ->
  result_foldl (write_entry master_key indexed_table index_name IdSize v last) (prow v <$> pages, m) es
  = Ok (prow v <$> pages ++ (es ≫= term_pages (start_of last)),
        foldl (add_entry_meta (start_of last)) m es).
Proof.
  intros Hes. revert pages m. induction Hes as [|[kw docs] es Hids _ IH]; intros pages m;
    cbn [result_foldl foldl].
  - by rewrite app_nil_r.
  - unfold write_entry at 1. unfold write_term.
    rewrite write_chunks_ok by (by apply chunks_ids). cbn [result_bind].
    rewrite <- fmap_app, IH, bind_cons, app_assoc. done.
Qed.

(** ** The written pages *)

Section Written.
Variable start : bytes -> Z.
Variable m : gmap bytes (gset bytes).

Lemma term_count_bound e :
  (start e.1 <= term_count start e <= start e.1 + Z.of_nat (size e.2))%Z.
Proof. clear - IdSize_ok.
  unfold term_count. destruct (chunks_spec _ max_entries_pos (sorted_entries e.2)) as (_ & Hl & _).
  rewrite length_sorted_entries in Hl. lia.
Qed.

Lemma elem_of_term_pages e p :
  p ∈ term_pages start e ->
  pg_term p = e.1 /\ (start e.1 <= pg_number p < term_count start e)%Z /\
  pg_docs p ∈ chunks (max_entries IdSize) (sorted_entries e.2).
Proof. clear - IdSize_ok. apply elem_of_number_pages. Qed.

Lemma base_docs_written t :
  base_docs (map_to_list m ≫= term_pages start) t = default ∅ (m !! t).
Proof. clear - IdSize_ok.
  assert (forall e, base_docs (term_pages start e) t = if bool_decide (e.1 = t) then e.2 else ∅) as Hone.
  { intros e. unfold term_pages. rewrite base_docs_number_pages. case_bool_decide; [|done].
    destruct (chunks_spec _ max_entries_pos (sorted_entries e.2)) as (-> & _ & _).
    apply set_eq. intros d. by rewrite elem_of_list_to_set, elem_of_sorted_entries. }
  apply set_eq. intros d. transitivity (exists e, e ∈ map_to_list m /\ d ∈ base_docs (term_pages start e) t).
  { setoid_rewrite elem_of_base_docs. setoid_rewrite list_elem_of_bind. naive_solver. }
  setoid_rewrite Hone. split.
  - intros ([k s] & Hk%elem_of_map_to_list & Hd). cbn in Hd. case_bool_decide; [|set_solver].
    subst. by rewrite Hk.
  - destruct (m !! t) as [s|] eqn:E; cbn; [|set_solver]. intros Hd.
    exists (t, s). rewrite elem_of_map_to_list. cbn. by rewrite bool_decide_true.
Qed.

Lemma written_nodup : NoDup (page_key <$> (map_to_list m ≫= term_pages start)).
Proof. clear - IdSize_ok.
  pose proof (NoDup_fst_map_to_list m) as Hnd.
  induction (map_to_list m) as [|e es IH]; [constructor|].
  apply NoDup_cons in Hnd as [Hne Hnd]. rewrite bind_cons, fmap_app. apply NoDup_app.
  split; [apply number_pages_nodup|]. split; [|by apply IH].
  intros k (p & -> & Hp)%list_elem_of_fmap (q & Hk & Hq)%list_elem_of_fmap.
  apply elem_of_term_pages in Hp as (Hpt & _). apply list_elem_of_bind in Hq as (e' & Hq & He').
  apply elem_of_term_pages in Hq as (Hqt & _). apply Hne. apply list_elem_of_fmap. exists e'.
  split; [|done]. unfold page_key in Hk. congruence.
Qed.

Lemma add_entries_meta es meta :
  NoDup es.*1 ->
  let meta' := foldl (add_entry_meta start) meta es in
  (forall e, e ∈ es -> (term_count start e <= get_num_pages meta' e.1)%Z) /\
  (forall t, t ∉ es.*1 -> get_num_pages meta' t = get_num_pages meta t).
Proof. clear - IdSize_ok.
  cbn zeta. revert meta. induction es as [|e es IH]; intros meta Hnd; cbn [foldl].
  { split; [intros e He; by apply not_elem_of_nil in He|done]. }
  cbn [fmap list_fmap] in *. apply NoDup_cons in Hnd as [Hne Hnd].
  destruct (IH (add_entry_meta start meta e) Hnd) as [Hin Hout].
  pose proof (get_num_pages_insert meta e.1 (term_count start e)) as Hins. split.
  - intros e' [->|He']%elem_of_cons; [|by apply Hin]. rewrite Hout by done.
    apply (Hins e.1).
  - intros t [Ht Hts]%not_elem_of_cons. rewrite Hout by done. by apply Hins.
Qed.

Lemma add_entries_meta_le es meta :
  Forall (fun e => term_count start e <= limit)%Z es -> metadata_wf meta -> metadata_le limit meta ->
  metadata_wf (foldl (add_entry_meta start) meta es) /\
  metadata_le limit (foldl (add_entry_meta start) meta es).
Proof. clear - IdSize_ok limit_ok.
  intros Hes. revert meta. induction Hes as [|e es He _ IH]; intros meta Hwf [Hd Hle]; cbn [foldl]; [done|].
  apply IH; [apply insert_entry_wf; [lia|done]|].
  unfold add_entry_meta, insert_entry. case_bool_decide; split; cbn; try done; intros t v.
  - rewrite lookup_insert. case_decide; [intros [= <-]; done|]. apply Hle.
  - rewrite lookup_delete_Some. intros [_ ?]. by eapply Hle.
Qed.

Lemma written_meta_spec (meta : MetadataPage) :
  let meta' := foldl (add_entry_meta start) meta (map_to_list m) in
  (forall k s, m !! k = Some s -> (term_count start (k, s) <= get_num_pages meta' k)%Z) /\
  (forall t, m !! t = None -> get_num_pages meta' t = get_num_pages meta t) /\
  (metadata_wf meta -> metadata_le limit meta ->
   (forall k s, m !! k = Some s -> (term_count start (k, s) <= limit)%Z) ->
   metadata_wf meta' /\ metadata_le limit meta').
Proof.
  cbn zeta. destruct (add_entries_meta (map_to_list m) meta (NoDup_fst_map_to_list m)) as [Hin Hout].
  split; [|split].
  - intros k s Hk%elem_of_map_to_list. apply (Hin (k, s) Hk).
  - intros t Ht. apply Hout. intros ([k s] & -> & Hk%elem_of_map_to_list)%list_elem_of_fmap. cbn in Ht.
    congruence.
  - intros Hwf Hle Hc. apply add_entries_meta_le; [|done..]. apply Forall_forall.
    intros [k s] Hk%elem_of_map_to_list. by apply Hc.
Qed.
End Written.

(** Shrinking the metadata keeps it under the limit. *)
Lemma shrink_le fuel meta meta' :
  metadata_wf meta -> metadata_le limit meta -> shrink_to_fit fuel meta = Some meta' ->
  metadata_le limit meta'.
Proof.
  revert meta. induction fuel as [|fuel IH]; intros meta Hwf Hle; cbn [shrink_to_fit];
    case_bool_decide as Hfit; try by intros [= <-].
  destruct (too_big_entry meta metadata_fits Hwf Hfit) as (t & v & Ht).
  apply IH; [by eapply raise_default_wf|]. destruct Hle as [Hd Hle]. split.
  - cbn. destruct Hwf as (_ & _ & Hlt). specialize (Hlt _ _ Ht). specialize (Hle _ _ Ht). lia.
  - intros t' v'. cbn. rewrite map_lookup_filter_Some. intros [? _]. by eapply Hle.
Qed.

Lemma shrunk_le meta :
  metadata_wf meta -> metadata_le limit meta -> metadata_le limit (shrunk meta).
Proof.
  intros Hwf Hle. destruct (shrunk_spec meta metadata_fits Hwf) as (Hs & _). by eapply shrink_le.
Qed.

(** ** The next state *)

Definition merged (changes : ModificationsTable) (pages : list Page) : gmap bytes (gset bytes) :=
  incorporate_additions (added_entries changes)
    (incorporate_deletions (removed_entries changes) (partial (classify IdSize changes pages))).

Definition next_start (changes : ModificationsTable) (pages : list Page) : bytes -> Z :=
  start_of (last_full (classify IdSize changes pages)).

Definition next_pages (changes : ModificationsTable) (pages : list Page) : list Page :=
  kept (classify IdSize changes pages)
    ++ (map_to_list (merged changes pages) ≫= term_pages (next_start changes pages)).

Definition next_meta (st : IndexState) : MetadataPage :=
  foldl (add_entry_meta (next_start (st_mods st) (st_pages st))) (st_meta st)
    (map_to_list (merged (st_mods st) (st_pages st))).

Definition next_state (st : IndexState) (m2 : ModificationsTable) : IndexState :=
  {| st_version := st_version st + 1; st_meta := shrunk (next_meta st); st_mods_version := 1;
     st_mods := forget_merged (st_mods st) m2; st_pages := next_pages (st_mods st) (st_pages st) |}.

Lemma lookup_merged changes pages t :
  merged changes pages !! t =
  match added_entries changes !! t with
  | Some a => Some (default ∅ (partial (classify IdSize changes pages) !! t) ∖ removed_of changes t ∪ a)
  | None => (fun s => s ∖ removed_of changes t) <$> partial (classify IdSize changes pages) !! t
  end.
Proof. clear.
  unfold merged. rewrite lookup_incorporate_additions, lookup_incorporate_deletions.
  destruct (added_entries changes !! t); [|done]. do 2 f_equal.
  destruct (partial _ !! t); cbn; [done|]. set_solver.
Qed.

(** The entries to write for a term, whether it has any or not. *)
Lemma merged_docs changes pages t :
  default ∅ (merged changes pages !! t) =
  base_docs (filter (fun p => keeps IdSize changes p = false) pages) t ∖ removed_of changes t
    ∪ added_of changes t.
Proof. clear.
  rewrite lookup_merged. destruct (partial_classify IdSize changes pages t) as [<- _].
  unfold added_of. destruct (added_entries changes !! t); cbn; [done|].
  destruct (partial _ !! t); cbn; set_solver.
Qed.

Lemma base_docs_split changes pages t :
  base_docs pages t = base_docs (filter (fun p => keeps IdSize changes p = true) pages) t
    ∪ base_docs (filter (fun p => keeps IdSize changes p = false) pages) t.
Proof. clear.
  apply set_eq. intros d. rewrite elem_of_union, !elem_of_base_docs.
  setoid_rewrite list_elem_of_filter. split; [|naive_solver].
  intros (p & Hp & ? & ?). destruct (keeps IdSize changes p) eqn:E; [left|right]; eauto.
Qed.

(** The pages of the next version hold what the terms denote. *)
Lemma base_docs_next changes pages t :
  modifications_wf changes ->
  base_docs (next_pages changes pages) t = apply_modifications changes t (base_docs pages t).
Proof. clear - IdSize_ok.
  intros [Hdis _]. specialize (Hdis t). unfold next_pages, apply_modifications.
  rewrite base_docs_app, base_docs_written, merged_docs, kept_classify, (base_docs_split changes pages).
  assert (base_docs (filter (fun p => keeps IdSize changes p = true) pages) t ## removed_of changes t) as Hk.
  { intros d. rewrite elem_of_base_docs. intros (p & Hp & <- & _). unfold removed_of.
    apply list_elem_of_filter in Hp as [Hkeep _]. unfold keeps in Hkeep.
    apply andb_true_iff in Hkeep as [Hr%negb_true_iff%bool_decide_eq_false _].
    rewrite not_elem_of_dom in Hr. rewrite Hr. set_solver. }
  by apply merge_equal.
Qed.

Definition room (st : IndexState) : Prop :=
  forall t, t ∈ vocab -> (get_num_pages (st_meta st) t + Z.of_nat (size (contents st t)) <= limit)%Z.

(** ** The modifications that remain *)

Lemma forget_merged_of changes m t :
  added_of (forget_merged changes m) t
    = (if bool_decide (t ∈ dom (added_entries changes)) then ∅ else added_of m t) /\
  removed_of (forget_merged changes m) t
    = (if bool_decide (t ∈ dom (removed_entries changes)) then ∅ else removed_of m t).
Proof.
  unfold added_of, removed_of, forget_merged. cbn [added_entries removed_entries].
  rewrite !map_lookup_filter. split.
  - destruct (added_entries m !! t); cbn; case_bool_decide; repeat case_guard; done.
  - destruct (removed_entries m !! t); cbn; case_bool_decide; repeat case_guard; done.
Qed.

Lemma forget_merged_ok changes m : mods_ok IdSize vocab m -> mods_ok IdSize vocab (forget_merged changes m).
Proof. clear.
  intros ([Hdis Hlen] & Hdom & Hids). split; [split|split].
  - intros t. destruct (forget_merged_of changes m t) as [-> ->]. specialize (Hdis t).
    do 2 case_bool_decide; set_solver.
  - intros t Ht. apply Hlen. revert Ht. rewrite !elem_of_dom. unfold forget_merged.
    cbn [added_entries removed_entries]. intros [[s Hs]|[s Hs]]; apply map_lookup_filter_Some in Hs as [? _]; eauto.
  - intros t [s Hs]%elem_of_dom. apply map_lookup_filter_Some in Hs as [? _]. apply Hdom, elem_of_dom. eauto.
  - intros t d. destruct (forget_merged_of changes m t) as [-> _]. case_bool_decide; [set_solver|apply Hids].
Qed.

Section Next.
Variable st : IndexState.
Hypothesis st_wf : wf st.
Hypothesis st_room : room st.
Let changes := st_mods st.
Let pages := st_pages st.

Lemma page_of_wf p : p ∈ pages -> page_wf IdSize vocab (st_meta st) p.
Proof. apply (proj1 (Forall_forall _ _) (wf_pages _ _ _ _ st_wf)). Qed.

Lemma merged_subset t s : merged changes pages !! t = Some s ->
  s ⊆ contents st t /\ t ∈ vocab /\ ids_ok s /\
  (t ∈ dom (added_entries changes) \/ t ∈ dom (removed_entries changes)).
Proof.
  intros Hs. destruct (wf_mods _ _ _ _ st_wf) as ([Hdis _] & Hdom & Hids).
  assert (s = base_docs (filter (fun p => keeps IdSize changes p = false) pages) t
    ∖ removed_of changes t ∪ added_of changes t) as -> by (rewrite <- merged_docs, Hs; done).
  split; [|split; [|split]].
  - unfold contents, apply_modifications. rewrite (base_docs_split changes (st_pages st)).
    apply merge_subset, Hdis.
  - rewrite lookup_merged in Hs. destruct (added_entries changes !! t) eqn:Ea.
    + apply Hdom, elem_of_dom. eauto.
    + destruct (partial_classify IdSize changes pages t) as [_ Hp].
      destruct (partial _ !! t) eqn:Ep; [|done]. destruct Hp as (p & Hin & _ & <-); [eauto|].
      apply (page_of_wf p Hin).
  - intros d [[Hd _]%elem_of_difference|Hd]%elem_of_union; [|by eapply Hids].
    apply elem_of_base_docs in Hd as (p & [_ Hp]%list_elem_of_filter & _ & Hd).
    destruct (page_of_wf p Hp) as (_ & _ & [Hl _]). by apply (proj1 (Forall_forall _ _) Hl).
  - rewrite !elem_of_dom. rewrite lookup_merged in Hs.
    destruct (added_entries changes !! t) eqn:Ea; [eauto|].
    destruct (partial_classify IdSize changes pages t) as [_ Hp].
    destruct (partial _ !! t) eqn:Ep; [|done]. destruct Hp as (p & _ & Hk & <-); [eauto|].
    unfold keeps in Hk. apply andb_false_iff in Hk as [Hk|Hk].
    + apply negb_false_iff, bool_decide_eq_true, elem_of_dom in Hk. by right.
    + apply orb_false_iff in Hk as [Hk%negb_false_iff%bool_decide_eq_true%elem_of_dom _]. rewrite Ea in Hk. by destruct Hk.
Qed.

(** New pages are numbered after the pages that are kept. *)
Lemma next_start_spec t :
  (0 <= next_start changes pages t <= get_num_pages (st_meta st) t)%Z /\
  forall p, p ∈ pages -> keeps IdSize changes p = true -> pg_term p = t ->
    t ∈ dom (merged changes pages) -> (pg_number p < next_start changes pages t)%Z.
Proof.
  pose proof (last_full_classify IdSize changes pages t) as Hl. unfold next_start, start_of.
  destruct (last_full _ !! t) as [v|]; cbn in Hl.
  - destruct Hl as (Ht & Hub & p & Hp & <- & <-); [intros p Hp; by destruct (page_of_wf p Hp) as (_ & ? & _); lia|].
    destruct (page_of_wf p Hp) as (_ & ? & _). split; [lia|].
    intros q Hq Hk Hqt _. specialize (Hub q Hq Hk Hqt). lia.
  - split.
    + destruct (wf_meta _ _ _ _ st_wf) as ([? _] & _ & Hm). unfold get_num_pages.
      destruct (num_pages _ !! t) eqn:E; cbn; [apply Hm in E|]; lia.
    + intros p Hp Hk Hpt [s Hs]%elem_of_dom. apply merged_subset in Hs as (_ & _ & _ & [Ha|Hr]).
      * by destruct (Hl ltac:(intros q Hq; by destruct (page_of_wf q Hq) as (_ & ? & _); lia) Ha p Hp Hk).
      * unfold keeps in Hk. rewrite <- Hpt in Hr. rewrite bool_decide_true in Hk by done. done.
Qed.

Lemma term_count_limit t s : merged changes pages !! t = Some s ->
  (term_count (next_start changes pages) (t, s) <= limit)%Z.
Proof.
  intros Hs. destruct (merged_subset t s Hs) as (Hsub & Hv & _).
  pose proof (term_count_bound (next_start changes pages) (t, s)) as Hc. cbn in Hc.
  destruct (next_start_spec t) as [? _]. pose proof (st_room t Hv).
  assert (size s <= size (contents st t)) by (by apply subseteq_size). lia.
Qed.

Lemma next_pages_nodup : NoDup (page_key <$> next_pages changes pages).
Proof.
  unfold next_pages. rewrite fmap_app, kept_classify. apply NoDup_app. split; [|split].
  - eapply (sublist_NoDup _ (page_key <$> pages)); [apply (wf_nodup _ _ _ _ st_wf)|].
    apply fmap_sublist, sublist_filter.
  - intros k (p & -> & [Hk Hp]%list_elem_of_filter)%list_elem_of_fmap (q & Hkey & Hq)%list_elem_of_fmap.
    apply list_elem_of_bind in Hq as ([t s] & Hq & Hs%elem_of_map_to_list).
    apply elem_of_term_pages in Hq as (Hqt & Hqn & _). cbn in Hqt, Hqn.
    injection Hkey as Ht Hn. destruct (next_start_spec t) as [_ Hlt].
    specialize (Hlt p Hp Hk ltac:(congruence) ltac:(by eapply elem_of_dom_2)). lia.
  - apply written_nodup.
Qed.

Lemma next_meta_spec :
  metadata_wf (next_meta st) /\ metadata_le limit (next_meta st) /\
  (forall t, merged changes pages !! t = None ->
     get_num_pages (next_meta st) t = get_num_pages (st_meta st) t) /\
  (forall t s, merged changes pages !! t = Some s ->
     (term_count (next_start changes pages) (t, s) <= get_num_pages (next_meta st) t)%Z).
Proof.
  destruct (written_meta_spec (next_start changes pages) (merged changes pages) (st_meta st))
    as (Hin & Hout & Hw).
  destruct Hw as [? ?]; [apply (wf_meta _ _ _ _ st_wf)|apply (wf_limit _ _ _ _ st_wf)| |done].
  intros k s. apply term_count_limit.
Qed.

Lemma next_pages_wf : Forall (page_wf IdSize vocab (shrunk (next_meta st))) (next_pages changes pages).
Proof.
  destruct next_meta_spec as (Hw & _ & Hout & Hin).
  destruct (shrunk_spec _ metadata_fits Hw) as (_ & _ & _ & Hsh).
  apply Forall_forall. intros p. unfold next_pages. rewrite elem_of_app, kept_classify.
  intros [[Hk Hp]%list_elem_of_filter|([t s] & Hp & Hs%elem_of_map_to_list)%list_elem_of_bind].
  - destruct (page_of_wf p Hp) as (Hv & Hn & Hids). split; [done|]. split; [|done].
    specialize (Hsh (pg_term p)). destruct (merged changes pages !! pg_term p) as [s|] eqn:E.
    + destruct (next_start_spec (pg_term p)) as [_ Hlt].
      specialize (Hlt p Hp Hk eq_refl ltac:(by eapply elem_of_dom_2)). specialize (Hin _ _ E).
      pose proof (term_count_bound (next_start changes pages) (pg_term p, s)) as Hc. cbn in Hc. lia.
    + rewrite (Hout _ E) in Hsh. lia.
  - apply elem_of_term_pages in Hp as (Ht & Hn & Hd). cbn in Ht, Hn, Hd.
    destruct (merged_subset t s Hs) as (_ & Hv & Hids & _).
    specialize (Hin _ _ Hs). specialize (Hsh t). destruct (next_start_spec t) as [? _]. rewrite <- Ht in *.
    split; [done|]. split; [lia|]. by apply (proj1 (Forall_forall _ _) (chunks_ids s Hids)).
Qed.

Lemma next_state_wf m2 :
  (st_version st + 1 < 2 ^ 31)%Z -> mods_ok IdSize vocab m2 -> wf (next_state st m2).
Proof.
  intros Hv Hm2. pose proof (wf_version _ _ _ _ st_wf). destruct next_meta_spec as (Hw & Hle & _).
  destruct (shrunk_spec _ metadata_fits Hw) as (_ & Hsw & _).
  split; cbn [next_state st_version st_meta st_mods_version st_mods st_pages].
  - lia.
  - lia.
  - done.
  - by apply shrunk_le.
  - by apply forget_merged_ok.
  - apply next_pages_wf.
  - apply next_pages_nodup.
  - done.
Qed.

(** ** The task *)

Lemma pages_in_range : Forall in_range pages.
Proof. apply Forall_forall. intros p Hp. by eapply page_in_range. Qed.

Lemma pages_fit : Forall page_fits pages.
Proof.
  apply Forall_forall. intros p Hp. destruct (proj1 (Forall_forall _ _) pages_in_range p Hp) as [Hv Hn].
  split; [by apply vocab_ok|]. split; [unfold fits_u; lia|]. apply (page_of_wf p Hp).
Qed.

Lemma next_pages_in_range m2 :
  (st_version st + 1 < 2 ^ 31)%Z -> mods_ok IdSize vocab m2 -> Forall in_range (next_pages changes pages).
Proof.
  intros Hv Hm2. apply Forall_forall. intros p Hp.
  eapply (page_in_range IdSize); [done..|by apply (next_state_wf m2)|done].
Qed.

(** The pages read by the task, in the order of the table. *)
Lemma read_pages db :
  distinct (st_version st) -> repr st db ->
  exists ps, filter (fun r => row_version r = st_version st
                     /\ row_tag r ∉ [METADATA_TAG; MODIFICATIONS_TAG]) db = prow (st_version st) <$> ps /\
    ps ≡ₚ pages.
Proof.
  intros Hd Hdb. apply permutation_fmap_inv. rewrite Hdb, !filter_cons.
  rewrite decide_False by (cbn; set_solver). rewrite decide_False by (cbn; set_solver).
  rewrite filter_all; [done|]. intros r Hr.
  destruct (rows_not_fixed _ _ _ Hd pages_in_range Hr) as (? & ? & ?). split; [done|]. set_solver.
Qed.
End Next.

(** A state with the pages in another order. *)
Definition with_pages (st : IndexState) (ps : list Page) : IndexState :=
  {| st_version := st_version st; st_meta := st_meta st; st_mods_version := st_mods_version st;
     st_mods := st_mods st; st_pages := ps |}.

Lemma with_pages_wf st ps : ps ≡ₚ st_pages st -> wf st -> wf (with_pages st ps).
Proof. intros Hp []. split; try done; cbn; by rewrite Hp. Qed.

Lemma with_pages_contents st ps t : ps ≡ₚ st_pages st -> contents (with_pages st ps) t = contents st t.
Proof. intros Hp. unfold contents. cbn. by rewrite Hp. Qed.

Lemma with_pages_repr st ps db : ps ≡ₚ st_pages st -> repr st db -> repr (with_pages st ps) db.
Proof.
  intros Hp Hdb. unfold IndexSpec.repr in *. rewrite Hdb. do 2 apply perm_skip.
  symmetry. by apply fmap_Permutation.
Qed.

(** The table after the old rows are deleted and the new ones inserted. *)
Lemma replace_rows st mv2 m2 db rows :
  wf st -> distinct (st_version st) -> distinct (st_version st + 1) ->
  (st_version st + 1 < 2 ^ 31)%Z -> room st -> mods_ok IdSize vocab m2 ->
  repr (with_mods st mv2 m2) db ->
  rows ≡ₚ prow (st_version st + 1) <$> next_pages (st_mods st) (st_pages st) ->
  insert_rows db rows = Ok (db ++ rows) /\
  filter (fun r => ~ (row_version r = st_version st \/ row_tag r = MODIFICATIONS_TAG)) (db ++ rows) = rows.
Proof.
  intros Hwf Hd Hd' Hv Hroom Hm2 Hdb Hrows.
  pose proof (next_pages_in_range st Hwf Hroom m2 Hv Hm2) as Hnr.
  assert (forall r, r ∈ rows -> row_version r = (st_version st + 1)%Z /\ row_tag r <> METADATA_TAG
    /\ row_tag r <> MODIFICATIONS_TAG) as Hnew.
  { intros r. rewrite Hrows. by apply rows_not_fixed. }
  assert (forall r, r ∈ db -> row_version r = st_version st \/ row_tag r = MODIFICATIONS_TAG) as Hold.
  { intros r. rewrite Hdb, !elem_of_cons. intros [->|[->|Hr]]; [by left|by right|].
    left. by apply (rows_not_fixed _ _ _ Hd (pages_in_range st Hwf) Hr). }
  pose proof (wf_version _ _ _ _ Hwf). split.
  - apply insert_rows_ok.
    + apply Forall_forall. intros r Hr. destruct (Hnew r Hr) as (-> & _).
      unfold version_column_accepts. apply andb_true_iff. lia.
    + rewrite Hrows. apply rows_nodup; [done..|]. by apply next_pages_nodup.
    + intros r Hr (r' & Hk & Hr')%list_elem_of_fmap. injection Hk as Hk1 Hk2.
      destruct (Hnew r Hr) as (Hrv & _ & Hrt). destruct (Hold r' Hr'); [lia|congruence].
  - rewrite filter_app, filter_none, filter_all; [done| |].
    + intros r Hr. destruct (Hnew r Hr) as (-> & _ & ?). intros [?|?]; [lia|done].
    + intros r Hr. specialize (Hold r Hr). tauto.
Qed.

Lemma sql_insert_fixed db r :
  (0 <= row_version r < 2 ^ 31)%Z -> (forall r', r' ∈ db -> row_tag r' <> row_tag r) ->
  sql_insert db r = Ok (db ++ [r]).
Proof.
  intros Hv Hr. apply sql_insert_ok.
  - unfold version_column_accepts. apply andb_true_iff. lia.
  - intros (r' & Hk & Hr')%list_elem_of_fmap. injection Hk as _ Hk. by destruct (Hr r' Hr').
Qed.

Lemma task_load_metadata_ok st db :
  wf st -> distinct (st_version st) -> repr st db ->
  task_load_metadata master_key indexed_table index_name (st_version st) db
  = Ok (Some {| metadata := st_meta st; meta_version := st_version st |}).
Proof.
  intros Hwf Hd Hdb. unfold task_load_metadata. 
  destruct (select_fixed master_key indexed_table index_name IdSize vocab limit st db Hwf Hd Hdb)
    as [-> _].
  rewrite bool_decide_false by (cbn; lia). by rewrite decrypt_meta_row.
Qed.

Lemma task_load_modifications_ok st db :
  wf st -> distinct (st_version st) -> repr st db ->
  task_load_modifications master_key indexed_table index_name (st_version st) db
  = Ok {| modifications := st_mods st; modifications_version := st_mods_version st |}.
Proof.
  intros Hwf Hd Hdb. unfold task_load_modifications.
  destruct (select_fixed master_key indexed_table index_name IdSize vocab limit st db Hwf Hd Hdb)
    as [_ ->].
  by eapply decrypt_mods_row.
Qed.

(** The task, when the table lists the pages in the order of the state. *)
Lemma do_next_version_ordered st mv2 m2 db_read db :
  wf st -> room st -> mods_ok IdSize vocab m2 -> (1 <= mv2 < 2 ^ 31)%Z ->
  distinct (st_version st) -> distinct (st_version st + 1) -> (st_version st + 1 < 2 ^ 31)%Z ->
  repr st db_read -> repr (with_mods st mv2 m2) db ->
  filter (fun r => row_version r = st_version st
            /\ row_tag r ∉ [METADATA_TAG; MODIFICATIONS_TAG]) db_read = prow (st_version st) <$> st_pages st ->
  do_next_version master_key indexed_table index_name IdSize shuffle (st_version st) db_read db
  = Ok (shuffle (prow (st_version st + 1) <$> next_pages (st_mods st) (st_pages st))
        ++ [meta_row master_key indexed_table index_name (next_state st m2)]
        ++ [mods_row master_key indexed_table index_name (next_state st m2)]).
Proof.
  intros Hwf Hroom Hm2 Hmv2 Hd Hd' Hv Hread Hdb Hpages. unfold do_next_version, commit_next_version.
  pose proof (wf_version _ _ _ _ Hwf) as Hv1.
  rewrite (task_load_metadata_ok st) by done. cbn [result_bind meta_version metadata].
  rewrite (task_load_modifications_ok st) by done. cbn [result_bind modifications].
  rewrite Hpages, classify_rows by (by apply pages_fit). cbn [result_bind].
  unfold to_next_state at 1 2 3. cbn [new_pages partial_pages last_full_page].
  fold (merged (st_mods st) (st_pages st)).
  rewrite write_entries_ok.
  2:{ apply Forall_forall. intros [t s] Hs%elem_of_map_to_list.
      by destruct (merged_subset st Hwf t s Hs) as (_ & _ & ? & _). }
  cbn [result_bind].
  fold (next_start (st_mods st) (st_pages st)) (next_pages (st_mods st) (st_pages st)).
  fold (next_meta st).
  set (rows := shuffle _).
  destruct (replace_rows st mv2 m2 db rows Hwf Hd Hd' Hv Hroom Hm2 Hdb (shuffle_ok _)) as [-> Hdel].
  cbn [result_bind].
  assert (forall r, r ∈ rows -> row_tag r <> METADATA_TAG /\ row_tag r <> MODIFICATIONS_TAG) as Hrows.
  { intros r. unfold rows. rewrite shuffle_ok. intros Hr.
    by apply (rows_not_fixed _ _ _ Hd' (next_pages_in_range st Hwf Hroom m2 Hv Hm2) Hr). }
  pose proof (with_mods_wf _ _ _ st mv2 m2 Hwf Hmv2 Hm2) as Hwf2.
  assert (select_tag MODIFICATIONS_TAG (db ++ rows)
          = [mods_row master_key indexed_table index_name (with_mods st mv2 m2)]) as ->.
  { unfold select_tag. rewrite filter_app, (filter_none _ rows), app_nil_r by (intros r Hr; by apply Hrows).
    by apply (select_fixed master_key indexed_table index_name IdSize vocab limit
      (with_mods st mv2 m2) db Hwf2 Hd Hdb). }
  rewrite (decrypt_mods_row master_key indexed_table index_name IdSize vocab limit (with_mods st mv2 m2))
    by done.
  cbn [result_bind modifications st_mods with_mods].
  rewrite modifications_encrypt_ok by (unfold fits_u; lia). cbn [result_bind].
  destruct (next_meta_spec st Hwf Hroom) as (Hmw & _).
  rewrite metadata_encrypt_ok by done. cbn [result_bind]. rewrite Hdel.
  rewrite sql_insert_fixed; cbn [row_version row_tag]; [|lia|intros r Hr; by apply Hrows].
  cbn [result_bind]. rewrite sql_insert_fixed; cbn [row_version row_tag]; [by rewrite <- app_assoc|lia|].
  intros r [Hr| ->%list_elem_of_singleton]%elem_of_app; [by apply Hrows|]. apply fixed_tags_differ.
Qed.

(** The task leaves a table that represents the next state. *)
Lemma do_next_version_ok st mv2 m2 db_read db :
  wf st -> room st -> mods_ok IdSize vocab m2 -> (1 <= mv2 < 2 ^ 31)%Z ->
  distinct (st_version st) -> distinct (st_version st + 1) -> (st_version st + 1 < 2 ^ 31)%Z ->
  repr st db_read -> repr (with_mods st mv2 m2) db ->
  exists db' ps, ps ≡ₚ st_pages st /\
    do_next_version master_key indexed_table index_name IdSize shuffle (st_version st) db_read db = Ok db' /\
    repr (next_state (with_pages st ps) m2) db' /\ wf (next_state (with_pages st ps) m2).
Proof.
  intros Hwf Hroom Hm2 Hmv2 Hd Hd' Hv Hread Hdb.
  destruct (read_pages st Hwf Hroom db_read Hd Hread) as (ps & Hps & Hperm).
  pose proof (with_pages_wf st ps Hperm Hwf) as Hwf'.
  assert (room (with_pages st ps)) as Hroom'
    by (intros t Ht; rewrite with_pages_contents by done; by apply Hroom).
  do 2 eexists. split; [done|]. split; [|split].
  - apply (do_next_version_ordered (with_pages st ps) mv2); try done; [by apply with_pages_repr|].
    by apply (with_pages_repr (with_mods st mv2 m2)).
  - unfold IndexSpec.repr. rewrite shuffle_ok, Permutation_app_comm. done.
  - by apply next_state_wf.
Qed.

(** A term whose recorded changes were not touched while the task ran. *)
Definition stable (m1 m2 : ModificationsTable) (t : bytes) : Prop :=
  (t ∈ dom (added_entries m1) -> added_of m2 t = added_of m1 t) /\
  (t ∈ dom (removed_entries m1) -> removed_of m2 t = removed_of m1 t).

Lemma not_in_dom_of (m : gmap bytes (gset bytes)) t : t ∉ dom m -> default ∅ (m !! t) = ∅.
Proof. rewrite not_elem_of_dom. by intros ->. Qed.

Lemma next_state_contents st mv2 m2 t :
  modifications_wf (st_mods st) -> modifications_wf m2 -> stable (st_mods st) m2 t ->
  contents (next_state st m2) t = contents (with_mods st mv2 m2) t.
Proof. clear - IdSize_ok.
  intros Hm1 [Hm2 _] [Hsa Hsr]. unfold contents at 1. cbn [st_mods st_pages next_state].
  rewrite base_docs_next by done. destruct Hm1 as [Hm1 _]. specialize (Hm1 t). specialize (Hm2 t).
  unfold contents, apply_modifications. cbn [st_mods st_pages with_mods].
  destruct (forget_merged_of (st_mods st) m2 t) as [-> ->].
  generalize (base_docs (st_pages st) t) as b. intros b.
  case_bool_decide as Ha; [rewrite (Hsa Ha) in *|rewrite (not_in_dom_of _ _ Ha : added_of (st_mods st) t = ∅) in *];
  (case_bool_decide as Hr; [rewrite (Hsr Hr) in *|rewrite (not_in_dom_of _ _ Hr : removed_of (st_mods st) t = ∅) in *]);
  apply set_eq; intros d; set_solver.
Qed.

(** ** Initial provisioning *)

Definition first_start : bytes -> Z := start_of ∅.

Lemma first_start_0 t : first_start t = 0%Z.
Proof. unfold first_start, start_of. by rewrite lookup_empty. Qed.

Definition first_meta (docs : gmap bytes (gset bytes)) : MetadataPage :=
  foldl (add_entry_meta first_start) (metadata_new (Z.of_nat IdSize)) (map_to_list docs).

Definition first_state (docs : gmap bytes (gset bytes)) : IndexState :=
  {| st_version := 1; st_meta := shrunk (first_meta docs); st_mods_version := 1;
     st_mods := no_modifications; st_pages := map_to_list docs ≫= term_pages first_start |}.

(** Documents that can be indexed: known terms, identifiers of the right size,
    few enough for the page numbers. *)
Definition indexable (docs : gmap bytes (gset bytes)) : Prop :=
  forall t s, docs !! t = Some s -> t ∈ vocab /\ ids_ok s /\ (Z.of_nat (size s) <= limit)%Z.

Section First.
Variable docs : gmap bytes (gset bytes).
Hypothesis docs_ok : indexable docs.

Lemma first_meta_spec :
  metadata_wf (first_meta docs) /\ metadata_le limit (first_meta docs) /\
  (forall t s, docs !! t = Some s ->
     (term_count first_start (t, s) <= get_num_pages (first_meta docs) t)%Z).
Proof.
  destruct (written_meta_spec first_start docs (metadata_new (Z.of_nat IdSize))) as (Hin & _ & Hw).
  destruct Hw as [? ?]; [| | |done].
  - apply metadata_new_wf. unfold fits_u. assert (ENTRIES_DATA_SIZE = 4008) by reflexivity. lia.
  - split; cbn; [lia|]. intros t v. by rewrite lookup_empty.
  - intros t s Hs. destruct (docs_ok t s Hs) as (_ & _ & Hl).
    pose proof (term_count_bound first_start (t, s)) as Hb. rewrite first_start_0 in Hb. cbn in Hb. lia.
Qed.

Lemma first_state_wf : wf (first_state docs).
Proof.
  destruct first_meta_spec as (Hw & Hle & Hin).
  destruct (shrunk_spec _ metadata_fits Hw) as (_ & Hsw & _ & Hsh).
  split; cbn [first_state st_version st_meta st_mods_version st_mods st_pages]; try done.
  - by apply shrunk_le.
  - split; [apply no_modifications_wf|]. split; [set_solver|]. intros t d. unfold added_of. cbn. rewrite lookup_empty. cbn. set_solver.
  - apply Forall_forall. intros p ([t s] & Hp & Hs%elem_of_map_to_list)%list_elem_of_bind.
    apply elem_of_term_pages in Hp as (Ht & Hn & Hd). cbn in Ht, Hn, Hd. rewrite first_start_0 in Hn.
    destruct (docs_ok t s Hs) as (Hv & Hids & _). specialize (Hin _ _ Hs). specialize (Hsh t).
    rewrite <- Ht in *. split; [done|]. split; [lia|].
    by apply (proj1 (Forall_forall _ _) (chunks_ids s Hids)).
  - apply written_nodup.
Qed.

Lemma do_initial_provisioning_ok :
  distinct 1 ->
  exists db, do_initial_provisioning master_key indexed_table index_name IdSize shuffle docs [] = Ok db /\
    repr (first_state docs) db.
Proof.
  intros Hd. unfold do_initial_provisioning.
  change ([] : Db) with (prow 1 <$> []) at 1. rewrite write_entries_ok.
  2:{ apply Forall_forall. intros [t s] Hs%elem_of_map_to_list. by apply (docs_ok t s). }
  cbn [app result_bind]. fold first_start. fold (first_meta docs).
  rewrite modifications_encrypt_ok by (unfold fits_u; lia). cbn [result_bind].
  destruct first_meta_spec as (Hw & _). rewrite metadata_encrypt_ok by done. cbn [result_bind].
  eexists. rewrite insert_rows_ok; [split; [reflexivity|]|..].
  - unfold IndexSpec.repr. cbn [app]. rewrite shuffle_ok, Permutation_app_comm. done.
  - apply Forall_app. split; [|by repeat constructor]. rewrite shuffle_ok. by apply Forall_fmap, Forall_true.
  - assert (Forall in_range (map_to_list docs ≫= term_pages first_start)) as Hr.
    { apply Forall_forall. intros p Hp. by apply (page_in_range _ _ _ _ _ first_state_wf). }
    rewrite fmap_app. apply NoDup_app. split; [rewrite shuffle_ok; by apply rows_nodup, written_nodup|].
    split.
    + intros k (r & -> & Hk)%list_elem_of_fmap. rewrite shuffle_ok in Hk.
      destruct (rows_not_fixed _ _ _ Hd Hr Hk) as (_ & ? & ?).
      unfold row_key. cbn. rewrite !elem_of_cons. intros [E|[E|E]]; [simplify_eq..|by apply not_elem_of_nil in E].
    + cbn. repeat constructor; [|by apply not_elem_of_nil].
      intros E%list_elem_of_singleton. injection E. done.
  - intros r _. apply not_elem_of_nil.
Qed.

Lemma first_state_contents t : contents (first_state docs) t = default ∅ (docs !! t).
Proof. clear - IdSize_ok.
  unfold contents, apply_modifications, first_state. cbn [st_mods st_pages].
  rewrite base_docs_written. unfold added_of, removed_of, no_modifications.
  cbn [added_entries removed_entries]. rewrite !lookup_empty. set_solver.
Qed.
End First.
End Rebuild.
