(* ===== verification/IndexTheorems.v ===== *)
(** * Correctness of the encrypted inverted index

    The properties of [metadata/indices/inverted_index/db_inverted_index.rs]: what
    a node reads, changes and rebuilds, and that any sequence of operations of
    several nodes on one index behaves like operations on plain sets. *)
From S2P Require Import Prelude Sql Crypto TermPage IndexMetadata RawIndex IndexSpec NextVersion.

(** ** Nodes working on one index *)

Inductive IndexOp :=
  | OInsert (documents : list (bytes * list bytes))
  | OUpdate (documents : list (bytes * (list bytes * list bytes)))
  | ODelete (document : bytes) (terms : list bytes)
  | OQuery (queries : list RawIndexQuery)
  | ONextVersion (current_version : Z).

(** The server table and the cache of every node. *)
Record System := { sys_db : Db; sys_caches : list CachedIndexState }.

(** The same operations on plain sets: what each term denotes. *)
Definition spec_apply (c : bytes -> gset bytes) (op : IndexOp) (t : bytes) : gset bytes :=
  match op with
  | OInsert documents => c t ∪ docs_with_term documents t
  | OUpdate documents => foldl (updated t) (c t) documents
  | ODelete d ts => c t ∖ (if bool_decide (t ∈ resize_term <$> ts) then {[d]} else ∅)
  | OQuery _ | ONextVersion _ => c t
  end.

Definition spec_answer (c : bytes -> gset bytes) (op : IndexOp) : list (gset bytes) :=
  match op with
  | OQuery queries => (fun q => denote q c) <$> queries
  | _ => []
  end.

Fixpoint spec_run (c : bytes -> gset bytes) (ops : list (nat * IndexOp)) : list (list (gset bytes)) :=
  match ops with
  | [] => []
  | (_, op) :: ops => spec_answer c op :: spec_run (spec_apply c op) ops
  end.

Definition is_rebuild (op : IndexOp) : nat := match op with ONextVersion _ => 1 | _ => 0 end.
Definition rebuilds (ops : list (nat * IndexOp)) : nat := sum_list ((fun o => is_rebuild o.2) <$> ops).

Lemma denote_ext q c c' : (forall t, c t = c' t) -> denote q c = denote q c'.
Proof. intros Hc. induction q; cbn; congruence. Qed.

Lemma spec_answer_ext op c c' : (forall t, c t = c' t) -> spec_answer c op = spec_answer c' op.
Proof.
  intros Hc. destruct op; cbn; try done. apply list_fmap_ext. intros. by apply denote_ext.
Qed.

Lemma next_state_cache_ok `{!Codec MetadataPage} IdSize cache st ps m2 :
  cache_ok cache st -> cache_ok cache (next_state IdSize (with_pages st ps) m2).
Proof.
  unfold cache_ok. destruct (cached_metadata cache); [|done]. cbn. intros [?|[? _]]; left; lia.
Qed.

Section Theorems.
Context `{Aead} `{!AeadLaws} `{Hkdf} `{!HkdfLaws}.
Context `{!Codec MetadataPage} `{!Codec ModificationsTable} `{!Codec TermPage}.
Variable master_key : bytes.
Variable indexed_table : TableRef.
Variable index_name : string.
Variable IdSize : nat.
Hypothesis IdSize_ok : 0 < IdSize <= ENTRIES_DATA_SIZE.
Variable vocab : gset bytes.
Variable limit : Z.
Hypothesis limit_ok : (0 <= limit <= 2 ^ 40)%Z.
Hypothesis vocab_ok : set_Forall (fun t : bytes => length t <= MAX_TERM_SIZE) vocab.
Hypothesis metadata_fits : empty_fits.
Variable shuffle : Db -> Db.
Hypothesis shuffle_ok : forall l, shuffle l ≡ₚ l.

Local Abbreviation distinct := (tags_distinct master_key indexed_table index_name vocab limit).
Local Abbreviation repr := (repr master_key indexed_table index_name IdSize).
Local Abbreviation wf := (state_wf IdSize vocab limit).

(** What every operation relies on: the table represents a well-formed state
    whose tags do not collide. *)
Definition serves (st : IndexState) (db : Db) : Prop :=
  wf st /\ distinct (st_version st) /\ repr st db.

Lemma changeset_step st db cache f :
  serves st db -> cache_ok cache st -> (st_mods_version st + 1 < 2 ^ 31)%Z ->
  mods_ok IdSize vocab (f (st_mods st)) ->
  let st' := with_mods st (st_mods_version st + 1) (f (st_mods st)) in
  exists db' rebuild,
    update_changeset master_key indexed_table index_name f cache db
      = (fresh_cache st, Ok (db', rebuild)) /\
    serves st' db' /\ forall cache, cache_ok cache st -> cache_ok cache st'.
Proof.
  intros (Hwf & Hd & Hdb) Hc Hv Hm. cbn zeta.
  edestruct (update_changeset_ok master_key indexed_table index_name IdSize IdSize_ok vocab limit
    limit_ok st db cache f Hwf Hd Hdb Hc Hv Hm) as (db' & rebuild & Hup & Hdb' & Hwf' & _).
  do 2 eexists. split; [exact Hup|]. split; [done|]. intros. by eapply with_mods_cache_ok.
Qed.

Lemma next_step st mv2 m2 db_read db :
  serves st db_read -> room vocab limit st -> (st_version st + 1 < 2 ^ 31)%Z ->
  distinct (st_version st + 1) -> (1 <= mv2 < 2 ^ 31)%Z -> mods_ok IdSize vocab m2 ->
  repr (with_mods st mv2 m2) db ->
  exists db' ps, ps ≡ₚ st_pages st /\
    do_next_version master_key indexed_table index_name IdSize shuffle (st_version st) db_read db = Ok db' /\
    serves (next_state IdSize (with_pages st ps) m2) db'.
Proof.
  intros (Hwf & Hd & Hread) Hroom Hv Hd' Hmv Hm2 Hdb.
  edestruct (do_next_version_ok master_key indexed_table index_name IdSize IdSize_ok vocab limit
    limit_ok vocab_ok metadata_fits shuffle shuffle_ok st mv2 m2 db_read db)
    as (db' & ps & ? & ? & ? & ?); [done..|].
  by exists db', ps.
Qed.

Lemma documents_indexable documents b :
  Forall (fun '(d, ts) => doc_ok IdSize vocab d ts) documents ->
  (forall t, (Z.of_nat (size (docs_with_term documents t)) <= b)%Z) ->
  indexable IdSize vocab b (foldl add_document ∅ documents).
Proof.
  intros Hdocs Hsize t s Hs.
  assert (s = docs_with_term documents t) as -> by (by rewrite <- lookup_add_documents, Hs).
  split; [|split; [|apply Hsize]].
  - destruct (dom_add_documents documents t) as ([d ts] & Hd' & Ht); [by rewrite Hs|].
    destruct (proj1 (Forall_forall _ _) Hdocs _ Hd') as [_ Hts].
    apply list_elem_of_fmap in Ht as (x & -> & Hx). by apply (proj1 (Forall_forall _ _) Hts).
  - intros d (x & -> & [_ Hx]%list_elem_of_filter)%elem_of_list_to_set%list_elem_of_fmap.
    destruct x as [x ts]. by destruct (proj1 (Forall_forall _ _) Hdocs (x, ts) Hx).
Qed.

Lemma provision documents :
  distinct 1 ->
  Forall (fun '(d, ts) => doc_ok IdSize vocab d ts) documents ->
  (forall t, (Z.of_nat (size (docs_with_term documents t)) <= limit)%Z) ->
  exists st db,
    do_initial_provisioning_from_iterator master_key indexed_table index_name IdSize shuffle documents []
      = Ok db /\
    serves st db /\ st_version st = 1%Z /\ st_mods_version st = 1%Z /\
    (forall t, contents st t = docs_with_term documents t) /\
    st_meta st = shrunk (first_meta IdSize (foldl add_document ∅ documents)).
Proof.
  intros Hd Hdocs Hsize. unfold do_initial_provisioning_from_iterator.
  pose proof (documents_indexable documents limit Hdocs Hsize) as Hix.
  edestruct (do_initial_provisioning_ok master_key indexed_table index_name IdSize IdSize_ok vocab limit)
    as (db & Hdo & Hdb); [done..|].
  exists (first_state IdSize (foldl add_document ∅ documents)), db. split; [done|]. split.
  - split; [by eapply first_state_wf|done].
  - split; [done|]. split; [done|]. split; [|done]. intros t.
    erewrite first_state_contents, lookup_add_documents by done. done.
Qed.

(** The first metadata page assumes at most as many pages as documents. *)
Lemma first_meta_le documents b :
  Forall (fun '(d, ts) => doc_ok IdSize vocab d ts) documents -> (0 <= b <= limit)%Z ->
  (forall t, (Z.of_nat (size (docs_with_term documents t)) <= b)%Z) ->
  metadata_le b (shrunk (first_meta IdSize (foldl add_document ∅ documents))).
Proof.
  intros Hdocs Hb Hsize. assert (0 <= b <= 2 ^ 40)%Z as Hb' by lia.
  destruct (first_meta_spec IdSize IdSize_ok vocab b Hb' (foldl add_document ∅ documents)) as (Hw & Hl & _);
    [by apply documents_indexable|]. by apply (shrunk_le IdSize IdSize_ok).
Qed.

(** C25: [load_metadata] brings every coherent cache up to date (the metadata and
    the changes of the current version) with at most one recursive call: fuel 1
    is enough. *)
Theorem load_metadata_fresh st db cache :
  serves st db -> cache_ok cache st ->
  load_metadata master_key indexed_table index_name load_fuel cache db = (fresh_cache st, Ok tt).
Proof. intros (Hwf & Hd & Hdb). by eapply load_metadata_ok. Qed.

(** a batch of queries is answered with exactly the documents the queries
    denote, pending changes included, whatever the node had cached. *)
Theorem query_correct st db cache queries :
  serves st db -> cache_ok cache st ->
  Forall (fun t => t ∈ vocab) (queries ≫= query_vocab) ->
  query master_key indexed_table index_name IdSize queries cache db
  = (fresh_cache st, Ok ((fun q => denote q (contents st)) <$> queries)).
Proof. intros (Hwf & Hd & Hdb). by eapply query_ok. Qed.

(** inserting documents adds each of them to exactly the terms it comes with;
    the table stays well formed and every coherent cache stays coherent. *)
Theorem insert_many_correct st db cache documents :
  serves st db -> cache_ok cache st -> (st_mods_version st + 1 < 2 ^ 31)%Z ->
  Forall (fun '(d, ts) => doc_ok IdSize vocab d ts) documents ->
  exists st' db' rebuild,
    insert_many master_key indexed_table index_name documents cache db
      = (fresh_cache st, Ok (db', rebuild)) /\
    serves st' db' /\ (forall cache, cache_ok cache st -> cache_ok cache st') /\
    forall t, contents st' t = contents st t ∪ docs_with_term documents t.
Proof.
  intros Hs Hc Hv Hdocs. pose proof Hs as (Hwf & _).
  destruct (changeset_step st db cache _ Hs Hc Hv
    (insert_many_mods_ok IdSize vocab documents _ Hdocs (wf_mods _ _ _ _ Hwf)))
    as (db' & rebuild & Hup & Hs' & Hc').
  do 3 eexists. split; [exact Hup|]. split; [exact Hs'|]. split; [exact Hc'|].
  intros t. apply insert_many_contents.
Qed.

(** updating documents applies, document by document, its additions and then
    its removals. *)
Theorem update_many_correct st db cache documents :
  serves st db -> cache_ok cache st -> (st_mods_version st + 1 < 2 ^ 31)%Z ->
  Forall (fun '(d, (added, removed)) => doc_ok IdSize vocab d added) documents ->
  exists st' db' rebuild,
    update_many master_key indexed_table index_name documents cache db
      = (fresh_cache st, Ok (db', rebuild)) /\
    serves st' db' /\ (forall cache, cache_ok cache st -> cache_ok cache st') /\
    forall t, contents st' t = foldl (updated t) (contents st t) documents.
Proof.
  intros Hs Hc Hv Hdocs. pose proof Hs as (Hwf & _).
  destruct (changeset_step st db cache _ Hs Hc Hv
    (update_many_mods_ok IdSize vocab documents _ Hdocs (wf_mods _ _ _ _ Hwf)))
    as (db' & rebuild & Hup & Hs' & Hc').
  do 3 eexists. split; [exact Hup|]. split; [exact Hs'|]. split; [exact Hc'|].
  intros t. apply update_many_contents.
Qed.

(** the next-version task leaves a well-formed table of the next version,
    with no page number or tag clash; every term that has no new change recorded
    since the task read the changes denotes the same documents as before. [st] is
    the state the task reads, [m2] the changes other nodes have recorded when it
    writes. *)
Theorem next_version_preserves st mv2 m2 db_read db :
  serves st db_read -> room vocab limit st -> (st_version st + 1 < 2 ^ 31)%Z ->
  distinct (st_version st + 1) ->
  (1 <= mv2 < 2 ^ 31)%Z -> mods_ok IdSize vocab m2 -> repr (with_mods st mv2 m2) db ->
  exists st' db',
    do_next_version master_key indexed_table index_name IdSize shuffle (st_version st) db_read db = Ok db' /\
    serves st' db' /\ st_version st' = (st_version st + 1)%Z /\
    st_mods st' = forget_merged (st_mods st) m2 /\
    forall t, stable (st_mods st) m2 t -> contents st' t = contents (with_mods st mv2 m2) t.
Proof.
  intros (Hwf & Hd & Hread) Hroom Hv Hd' Hmv Hm2 Hdb.
  destruct (next_step st mv2 m2 db_read db) as (db' & ps & Hps & Hdo & Hs'); [done..|].
  do 2 eexists. split; [exact Hdo|]. split; [exact Hs'|]. split; [done|]. split; [done|].
  intros t Ht. rewrite (next_state_contents _ IdSize_ok (with_pages st ps) mv2 m2 t); [| |apply Hm2|done].
  - by apply (with_pages_contents (with_mods st mv2 m2)).
  - apply (wf_mods _ _ _ _ Hwf).
Qed.

(** a document that another node adds to a term with pending additions, after
    the task has read the changes and before it writes, is lost: the task forgets
    all pending additions of the term, not only those it has merged. *)
Theorem next_version_loses_addition st db_read db t d :
  let m2 := insert_term d (st_mods st) t in
  let st2 := with_mods st (st_mods_version st + 1) m2 in
  serves st db_read -> room vocab limit st -> (st_version st + 1 < 2 ^ 31)%Z ->
  distinct (st_version st + 1) -> (st_mods_version st + 1 < 2 ^ 31)%Z ->
  length d = IdSize -> resize_term t ∈ dom (added_entries (st_mods st)) ->
  d ∉ contents st (resize_term t) -> repr st2 db ->
  exists st' db',
    do_next_version master_key indexed_table index_name IdSize shuffle (st_version st) db_read db = Ok db' /\
    serves st' db' /\ d ∈ contents st2 (resize_term t) /\ d ∉ contents st' (resize_term t).
Proof.
  cbn zeta. intros (Hwf & Hd & Hread) Hroom Hv Hd' Hmv Hid Ht Hnew Hdb.
  pose proof (wf_mods _ _ _ _ Hwf) as Hm. pose proof Hm as (Hmw & Hdom & _).
  pose proof (wf_mods_version _ _ _ _ Hwf).
  destruct (next_step st (st_mods_version st + 1) (insert_term d (st_mods st) t) db_read db)
    as (db' & ps & Hps & Hdo & Hs'); [done..| |lia| |done|].
  { done. }
  { apply insert_term_ok; [done| |done]. by apply Hdom. }
  do 2 eexists. split; [exact Hdo|]. split; [exact Hs'|]. split.
  - unfold contents. cbn [with_mods st_mods st_pages]. rewrite apply_insert_term, bool_decide_true by done.
    set_solver.
  - unfold contents. cbn [next_state st_mods st_pages with_pages].
    rewrite (base_docs_next _ IdSize_ok) by done.
    destruct (forget_merged_of (st_mods st) (insert_term d (st_mods st) t) (resize_term t)) as [Ha _].
    unfold apply_modifications at 1. rewrite Ha, bool_decide_true, Hps by done.
    unfold contents in Hnew. set_solver.
Qed.

(** provisioning a new index from a table's documents gives a well-formed
    index in which each term denotes exactly the documents that contain it. *)
Theorem initial_provisioning_correct documents :
  distinct 1 ->
  Forall (fun '(d, ts) => doc_ok IdSize vocab d ts) documents ->
  (forall t, (Z.of_nat (size (docs_with_term documents t)) <= limit)%Z) ->
  exists st db,
    do_initial_provisioning_from_iterator master_key indexed_table index_name IdSize shuffle documents []
      = Ok db /\
    serves st db /\ st_version st = 1%Z /\
    forall t, contents st t = docs_with_term documents t.
Proof.
  intros Hd Hdocs Hsize. destruct (provision documents Hd Hdocs Hsize) as (st & db & ? & ? & ? & ? & ? & ?).
  eauto 6.
Qed.

(** ** Runs of several nodes *)

Definition sys_step (sys : System) (node : nat) (op : IndexOp) : result (System * list (gset bytes)) :=
  let? cache := ok_or (sys_caches sys !! node) (Panic "no such node") in
  let write (r : CachedIndexState * result (Db * bool)) :=
    let? (db, _) := r.2 in
    Ok ({| sys_db := db; sys_caches := <[node := r.1]> (sys_caches sys) |}, []) in
  match op with
  | OInsert documents =>
      write (insert_many master_key indexed_table index_name documents cache (sys_db sys))
  | OUpdate documents =>
      write (update_many master_key indexed_table index_name documents cache (sys_db sys))
  | ODelete d ts =>
      write (delete_document master_key indexed_table index_name d ts cache (sys_db sys))
  | OQuery queries =>
      let '(cache, r) := query master_key indexed_table index_name IdSize queries cache (sys_db sys) in
      let? answers := r in
      Ok ({| sys_db := sys_db sys; sys_caches := <[node := cache]> (sys_caches sys) |}, answers)
  | ONextVersion v =>
      let? db := do_next_version master_key indexed_table index_name IdSize shuffle v
                   (sys_db sys) (sys_db sys) in
      Ok ({| sys_db := db; sys_caches := sys_caches sys |}, [])
  end.

Fixpoint sys_run (sys : System) (ops : list (nat * IndexOp)) :
    result (System * list (list (gset bytes))) :=
  match ops with
  | [] => Ok (sys, [])
  | (node, op) :: ops =>
      let? (sys, a) := sys_step sys node op in
      let? (sys, rest) := sys_run sys ops in
      Ok (sys, a :: rest)
  end.

(** The documents that can ever be indexed. *)
Variable universe : gset bytes.
Hypothesis universe_ok : ids_ok IdSize universe.

Definition known (d : bytes) (ts : list bytes) : Prop :=
  d ∈ universe /\ Forall (fun t => resize_term t ∈ vocab) ts.

Definition op_ok (op : IndexOp) : Prop :=
  match op with
  | OInsert documents => Forall (fun '(d, ts) => known d ts) documents
  | OUpdate documents => Forall (fun '(d, (added, removed)) => known d added) documents
  | ODelete _ _ | ONextVersion _ => True
  | OQuery queries => Forall (fun t => t ∈ vocab) (queries ≫= query_vocab)
  end.

Definition doc_count : Z := Z.of_nat (size universe).

(** After [n] operations, [k] of them rebuilds: the table represents a state that
    denotes [c], and the caches are coherent. *)
Definition sys_inv (n k : nat) (sys : System) (c : bytes -> gset bytes) : Prop :=
  exists st, serves st (sys_db sys) /\ Forall (fun cache => cache_ok cache st) (sys_caches sys) /\
    (forall t, contents st t = c t) /\ (forall t, c t ⊆ universe) /\
    (st_version st <= Z.of_nat n + 1)%Z /\ (st_mods_version st <= Z.of_nat n + 1)%Z /\
    metadata_le (doc_count * (Z.of_nat k + 1)) (st_meta st).

Lemma known_doc_ok d ts : known d ts -> doc_ok IdSize vocab d ts.
Proof. intros [Hd Hts]. split; [by apply universe_ok|done]. Qed.

Lemma docs_with_term_known documents t :
  Forall (fun '(d, ts) => known d ts) documents -> docs_with_term documents t ⊆ universe.
Proof.
  intros Hd d ([x ts] & -> & [_ Hx]%list_elem_of_filter)%elem_of_list_to_set%list_elem_of_fmap.
  by destruct (proj1 (Forall_forall _ _) Hd _ Hx).
Qed.

Lemma updated_known documents t s :
  Forall (fun '(d, (added, removed)) => known d added) documents -> s ⊆ universe ->
  foldl (updated t) s documents ⊆ universe.
Proof.
  intros Hd. revert s. induction Hd as [|[d [a r]] l [Hd _] _ IH]; intros s Hs; cbn [foldl]; [done|].
  apply IH. unfold updated. do 2 case_bool_decide; set_solver.
Qed.

(** An operation that changes the modifications. *)
Lemma changeset_inv n k sys c node cache f op :
  sys_inv n k sys c -> sys_caches sys !! node = Some cache -> (Z.of_nat n + 2 < 2 ^ 31)%Z ->
  (forall m, mods_ok IdSize vocab m -> mods_ok IdSize vocab (f m)) ->
  (forall m t b, apply_modifications (f m) t b = spec_apply (fun t => apply_modifications m t b) op t) ->
  (forall t, spec_apply c op t ⊆ universe) ->
  exists db rebuild cache',
    update_changeset master_key indexed_table index_name f cache (sys_db sys) = (cache', Ok (db, rebuild)) /\
    sys_inv (S n) k {| sys_db := db; sys_caches := <[node := cache']> (sys_caches sys) |} (spec_apply c op).
Proof.
  intros (st & Hs & Hcs & Hc & Hu & Hv & Hmv & Hle) Hnode Hn Hf Hspec Hu'.
  pose proof Hs as (Hwf & _). pose proof (wf_mods _ _ _ _ Hwf) as Hm.
  destruct (changeset_step st (sys_db sys) cache f Hs) as (db & rebuild & Hup & Hs' & Hc');
    [by apply (proj1 (Forall_forall _ _) Hcs), (list_elem_of_lookup_2 _ node)|lia|by apply Hf|].
  exists db, rebuild, (fresh_cache st). split; [done|]. eexists. split; [exact Hs'|].
  cbn [sys_caches sys_db with_mods st_version st_mods_version st_meta].
  split; [|split; [|split; [done|split; [lia|split; [lia|done]]]]].
  - apply Forall_insert; [|by apply Hc', fresh_cache_ok].
    eapply Forall_impl; [exact Hcs|]. exact Hc'.
  - intros t. unfold contents. cbn [with_mods st_mods st_pages]. rewrite Hspec.
    specialize (Hc t). unfold contents in Hc. destruct op; cbn; by rewrite Hc.
Qed.

(** A rebuild adds at most one number per document to a term's pages. *)
Lemma next_meta_bound st b :
  wf st -> metadata_le b (st_meta st) -> (0 <= b)%Z -> (b + doc_count <= limit)%Z ->
  (forall t, contents st t ⊆ universe) ->
  room vocab limit st /\ metadata_le (b + doc_count) (shrunk (next_meta IdSize st)).
Proof.
  intros Hwf Hle Hb0 Hb Hu. unfold doc_count in *.
  assert (forall t, Z.of_nat (size (contents st t)) <= Z.of_nat (size universe))%Z as Hsize
    by (intros t; apply inj_le, subseteq_size, Hu).
  assert (forall t, get_num_pages (st_meta st) t <= b)%Z as Hn by (intros t; by apply get_num_pages_le).
  split; [intros t _; specialize (Hsize t); specialize (Hn t); lia|].
  assert (0 <= b + Z.of_nat (size universe) <= 2 ^ 40)%Z as Hb2 by lia.
  destruct (written_meta_spec IdSize IdSize_ok (b + Z.of_nat (size universe)) Hb2
    (next_start IdSize (st_mods st) (st_pages st)) (merged IdSize (st_mods st) (st_pages st)) (st_meta st))
    as (_ & _ & Hw).
  destruct Hw as [Hw Hl].
  - apply (wf_meta _ _ _ _ Hwf).
  - destruct Hle as [Hd Hm]. split; [lia|]. intros t v Hv. specialize (Hm t v Hv). lia.
  - intros t s Hs. destruct (merged_subset IdSize vocab limit st Hwf t s Hs) as (Hsub & _).
    pose proof (term_count_bound IdSize IdSize_ok (next_start IdSize (st_mods st) (st_pages st)) (t, s)) as Hc.
    destruct (next_start_spec IdSize IdSize_ok vocab limit st Hwf t) as [Hstart _].
    apply subseteq_size in Hsub. specialize (Hsize t). specialize (Hn t). cbn in Hc. lia.
  - by apply (shrunk_le IdSize IdSize_ok).
Qed.

Lemma next_version_inv n k sys c v :
  sys_inv n k sys c -> (Z.of_nat n + 2 < 2 ^ 31)%Z -> (doc_count * (Z.of_nat k + 2) <= limit)%Z ->
  (forall v, (1 <= v <= Z.of_nat n + 2)%Z -> distinct v) ->
  exists db, do_next_version master_key indexed_table index_name IdSize shuffle v (sys_db sys) (sys_db sys)
             = Ok db /\
    sys_inv (S n) (S k) {| sys_db := db; sys_caches := sys_caches sys |} c.
Proof.
  intros (st & Hs & Hcs & Hc & Hu & Hv & Hmv & Hle) Hn Hk Hd. pose proof Hs as (Hwf & Hds & Hdb).
  assert (0 <= doc_count)%Z as Hdc by (unfold doc_count; lia).
  assert (doc_count * (Z.of_nat (S k) + 1) = doc_count * (Z.of_nat k + 1) + doc_count)%Z as Hk' by lia.
  assert (0 <= doc_count * (Z.of_nat k + 1))%Z as Hk0 by (apply Z.mul_nonneg_nonneg; lia).
  destruct (decide (v = st_version st)) as [->|Hne].
  - assert (forall t, contents st t ⊆ universe) as Hcu by (intros t; by rewrite Hc).
    destruct (next_meta_bound st (doc_count * (Z.of_nat k + 1))) as [Hroom _]; [done|done|done|lia|done|].
    pose proof (wf_version _ _ _ _ Hwf). pose proof (wf_mods _ _ _ _ Hwf) as Hm.
    destruct (next_step st (st_mods_version st) (st_mods st) (sys_db sys) (sys_db sys))
      as (db & ps & Hps & Hdo & Hs'); [done|done|lia|apply Hd; lia|apply (wf_mods_version _ _ _ _ Hwf)
      |done|by destruct st|].
    destruct (next_meta_bound (with_pages st ps) (doc_count * (Z.of_nat k + 1))) as [_ Hle'];
      [by apply with_pages_wf|done|done|lia|intros t; by rewrite with_pages_contents|].
    exists db. split; [done|]. eexists. split; [exact Hs'|].
    cbn [sys_db sys_caches next_state with_pages st_version st_mods_version st_meta].
    split; [|split; [|split; [done|split; [lia|split; [lia|by rewrite Hk']]]]].
    + eapply Forall_impl; [exact Hcs|]. intros cache. apply next_state_cache_ok.
    + intros t. rewrite <- Hc. 
      rewrite (next_state_contents IdSize IdSize_ok (with_pages st ps) (st_mods_version st)); try apply Hm; [|done].
      apply (with_pages_contents st ps t Hps).
  - exists (sys_db sys). split.
    + unfold do_next_version, task_load_metadata.
      destruct (select_fixed master_key indexed_table index_name IdSize vocab limit st (sys_db sys)
        Hwf Hds Hdb) as [-> _]. cbn [row_version meta_row]. by rewrite bool_decide_true by congruence.
    + exists st. split; [done|]. split; [done|]. split; [done|]. split; [done|].
      split; [lia|]. split; [lia|]. rewrite Hk'. destruct Hle as [Hdef Hm]. split; [lia|].
      intros t x Hx. specialize (Hm t x Hx). lia.
Qed.

Lemma query_inv n k sys c node cache queries :
  sys_inv n k sys c -> sys_caches sys !! node = Some cache ->
  Forall (fun t => t ∈ vocab) (queries ≫= query_vocab) ->
  exists cache',
    query master_key indexed_table index_name IdSize queries cache (sys_db sys)
      = (cache', Ok ((fun q => denote q c) <$> queries)) /\
    sys_inv (S n) k {| sys_db := sys_db sys; sys_caches := <[node := cache']> (sys_caches sys) |} c.
Proof.
  intros (st & Hs & Hcs & Hc & Hu & Hv & Hmv & Hle) Hnode Hq. pose proof Hs as (Hwf & Hds & Hdb).
  exists (fresh_cache st). split.
  - rewrite (query_ok master_key indexed_table index_name IdSize IdSize_ok vocab limit limit_ok st); try done.
    + do 2 f_equal. apply list_fmap_ext. intros. by apply denote_ext.
    + by apply (proj1 (Forall_forall _ _) Hcs), (list_elem_of_lookup_2 _ node).
  - exists st. cbn [sys_db sys_caches]. split; [done|]. split; [by apply Forall_insert; [|apply fresh_cache_ok]|].
    do 2 (split; [done|]). split; [lia|]. split; [lia|done].
Qed.

(** One operation of one node. *)
Lemma sys_step_inv n k sys c node op :
  sys_inv n k sys c -> node < length (sys_caches sys) -> op_ok op -> (Z.of_nat n + 2 < 2 ^ 31)%Z ->
  (doc_count * (Z.of_nat (is_rebuild op + k) + 1) <= limit)%Z ->
  (forall v, (1 <= v <= Z.of_nat n + 2)%Z -> distinct v) ->
  exists sys', sys_step sys node op = Ok (sys', spec_answer c op) /\
    sys_inv (S n) (is_rebuild op + k) sys' (spec_apply c op) /\
    length (sys_caches sys') = length (sys_caches sys).
Proof.
  intros Hinv Hnode Hop Hn Hk Hd. apply lookup_lt_is_Some in Hnode as [cache Hnode].
  assert (forall t, c t ⊆ universe) as Hu by (by destruct Hinv as (? & _ & _ & _ & ? & _)).
  unfold sys_step. rewrite Hnode. cbn [ok_or result_bind].
  destruct op as [docs|docs|d ts|qs|v]; cbn [op_ok is_rebuild Nat.add] in *.
  - edestruct (changeset_inv n k sys c node cache (insert_documents docs) (OInsert docs))
      as (db & rb & cache' & Hup & Hi); [done..| | | |].
    + intros m. apply insert_many_mods_ok. eapply Forall_impl; [exact Hop|]. intros []. apply known_doc_ok.
    + intros. apply insert_many_contents.
    + intros t. cbn. specialize (Hu t). pose proof (docs_with_term_known docs t Hop). set_solver.
    + unfold insert_many. rewrite Hup. eexists. split; [done|]. split; [done|]. apply length_insert.
  - edestruct (changeset_inv n k sys c node cache (update_documents docs) (OUpdate docs))
      as (db & rb & cache' & Hup & Hi); [done..| | | |].
    + intros m. apply update_many_mods_ok. eapply Forall_impl; [exact Hop|]. intros [? []]. apply known_doc_ok.
    + intros. apply update_many_contents.
    + intros t. by apply updated_known.
    + unfold update_many. rewrite Hup. eexists. split; [done|]. split; [done|]. apply length_insert.
  - edestruct (changeset_inv n k sys c node cache (fun m => remove_terms m d ts) (ODelete d ts))
      as (db & rb & cache' & Hup & Hi); [done..| | | |].
    + intros m. apply remove_terms_ok.
    + intros. apply apply_remove_terms.
    + intros t. cbn. specialize (Hu t). set_solver.
    + unfold delete_document. rewrite Hup. eexists. split; [done|]. split; [done|]. apply length_insert.
  - destruct (query_inv n k sys c node cache qs) as (cache' & -> & Hi); [done..|].
    eexists. split; [done|]. split; [done|]. apply length_insert.
  - destruct (next_version_inv n k sys c v) as (db & -> & Hi); [done..|lia|done|].
    eexists. split; [done|]. done.
Qed.

Lemma sys_run_inv ops n k sys c :
  sys_inv n k sys c ->
  Forall (fun '(node, op) => node < length (sys_caches sys) /\ op_ok op) ops ->
  (Z.of_nat (n + length ops) + 1 < 2 ^ 31)%Z ->
  (doc_count * (Z.of_nat (rebuilds ops + k) + 1) <= limit)%Z ->
  (forall v, (1 <= v <= Z.of_nat (n + length ops) + 1)%Z -> distinct v) ->
  exists sys', sys_run sys ops = Ok (sys', spec_run c ops).
Proof.
  revert n k sys c. induction ops as [|[node op] ops IH]; intros n k sys c Hinv Hops Hn Hk Hd;
    cbn [sys_run spec_run]; [by exists sys|].
  apply Forall_cons in Hops as [[Hnode Hop] Hops]. cbn [length] in *.
  assert (rebuilds ((node, op) :: ops) = is_rebuild op + rebuilds ops) as Hr by done.
  assert (0 <= doc_count)%Z by (unfold doc_count; lia).
  destruct (sys_step_inv n k sys c node op Hinv Hnode Hop) as (sys' & -> & Hinv' & Hl).
  - lia.
  - rewrite Hr in Hk. nia.
  - intros v Hv. apply Hd. lia.
  - cbn [result_bind]. destruct (IH (S n) (is_rebuild op + k) sys' (spec_apply c op) Hinv') as (sys2 & ->).
    + by rewrite Hl.
    + lia.
    + rewrite Hr in Hk. by replace (rebuilds ops + (is_rebuild op + k))
        with (is_rebuild op + rebuilds ops + k) by lia.
    + intros v Hv. apply Hd. lia.
    + cbn [result_bind]. eauto.
Qed.

(** C1: refinement. An index provisioned from a set of documents and then used by
    any number of nodes, in any order (insertions, updates, deletions, batches of
    queries, rebuilds under the current or an outdated version), never fails, and
    every query is answered exactly as by plain sets of documents. The versions
    stay below the limit of the version column, and page numbers below [limit],
    because each rebuild adds at most one page per document. *)
Theorem index_refines_sets nodes documents ops :
  Forall (fun '(d, ts) => known d ts) documents ->
  Forall (fun '(node, op) => node < nodes /\ op_ok op) ops ->
  (Z.of_nat (length ops) + 1 < 2 ^ 31)%Z ->
  (doc_count * (Z.of_nat (rebuilds ops) + 1) <= limit)%Z ->
  (forall v, (1 <= v <= Z.of_nat (length ops) + 1)%Z -> distinct v) ->
  exists db sys,
    do_initial_provisioning_from_iterator master_key indexed_table index_name IdSize shuffle documents []
      = Ok db /\
    sys_run {| sys_db := db; sys_caches := replicate nodes empty_cache |} ops
      = Ok (sys, spec_run (docs_with_term documents) ops).
Proof.
  intros Hdocs Hops Hn Hk Hd. assert (0 <= doc_count)%Z as Hdc by (unfold doc_count; lia).
  assert (forall t, Z.of_nat (size (docs_with_term documents t)) <= doc_count)%Z as Hsize
    by (intros t; apply inj_le, subseteq_size; by apply docs_with_term_known).
  assert (doc_count <= limit)%Z as Hdl by nia.
  assert (Forall (fun '(d, ts) => doc_ok IdSize vocab d ts) documents) as Hok
    by (eapply Forall_impl; [exact Hdocs|]; intros []; apply known_doc_ok).
  destruct (provision documents) as (st & db & Hdo & Hs & Hv & Hmv & Hc & Hmeta).
  { apply Hd. lia. }
  { exact Hok. }
  { intros t. specialize (Hsize t). lia. }
  exists db. destruct (sys_run_inv ops 0 0 {| sys_db := db; sys_caches := replicate nodes empty_cache |}
    (docs_with_term documents)) as (sys & Hrun); [| |lia|by rewrite Nat.add_0_r|by intros v Hv'; apply Hd; lia|].
  - exists st. split; [done|]. cbn [sys_caches]. split; [by apply Forall_replicate|]. split; [done|].
    split; [by intros; apply docs_with_term_known|]. split; [lia|]. split; [lia|].
    replace (doc_count * (Z.of_nat 0 + 1))%Z with doc_count by lia. rewrite Hmeta.
    apply first_meta_le; [done|lia|done].
  - cbn [sys_caches]. by rewrite length_replicate.
  - eauto.
Qed.
End Theorems.
