(* ===== verification/IndexWitness.v ===== *)
(** * A concrete index

    Instances of the interfaces of the inverted index (an HKDF that pads its
    input, an AEAD that appends a tag, codecs for countable types) for which every
    assumption of [IndexTheorems] holds, and its theorems applied to them. *)
From S2P Require Import Prelude Sql Crypto TermPage IndexMetadata RawIndex IndexSpec NextVersion IndexTheorems.

Definition demo_hkdf : Hkdf := {| hkdf_expand _ _ info n := take n (info ++ replicate n Byte.x00) |}.

Lemma demo_hkdf_laws : @HkdfLaws demo_hkdf.
Proof.
  split. intros salt ikm info n. cbn. rewrite length_take, length_app, length_replicate. lia.
Qed.

#[export] Instance TermPageHeader_eq_dec : EqDecision TermPageHeader.
Proof. solve_decision. Defined.

#[export] Instance TermPage_eq_dec : EqDecision TermPage.
Proof. solve_decision. Defined.

#[export] Program Instance TermPage_countable : Countable TermPage :=
  inj_countable' (fun p => (num_present (header p), term_len (header p), header_term_array (header p),
                            header_page_number (header p), entries_data p))
    (fun '(a, b, c, d, e) =>
       {| header := {| num_present := a; term_len := b; header_term_array := c; header_page_number := d |};
          entries_data := e |}) _.
Next Obligation. by intros [[] ?]. Qed.

Definition demo_page_codec : Codec TermPage := countable_codec.

#[local] Existing Instances demo_aead demo_aead_laws demo_hkdf demo_hkdf_laws demo_metadata_codec
  demo_modifications_codec demo_page_codec.

Definition demo_table : TableRef := {| catalog := "secure"; schema := "shop"; table := "items" |}.
Definition term_red : bytes := string_bytes "red ".
Definition term_blue : bytes := string_bytes "blue".
Definition demo_vocab : gset bytes := {[ term_red; term_blue ]}.
Definition demo_limit : Z := 2 ^ 40.
Definition demo_shuffle (l : Db) : Db := reverse l.

Lemma demo_shuffle_ok l : demo_shuffle l ≡ₚ l.
Proof. apply reverse_Permutation. Qed.

Lemma demo_vocab_elem t : t ∈ demo_vocab -> t = term_red \/ t = term_blue.
Proof. unfold demo_vocab. set_solver. Qed.

Lemma demo_vocab_ok : set_Forall (fun t : bytes => length t <= MAX_TERM_SIZE) demo_vocab.
Proof. intros t [->| ->]%demo_vocab_elem; vm_compute; lia. Qed.

Lemma demo_page_tag v t n : length t = 4 -> page_tag [] demo_table "ix" v t n = t ++ to_le_bytes 8 n.
Proof.
  intros Ht. unfold page_tag, get_version_tag_derivator, get_identifier_generator. cbn [hkdf_expand demo_hkdf].
  replace TAG_SIZE with (length (t ++ to_le_bytes 8 n)) at 1
    by (rewrite length_app, length_to_le_bytes, Ht; done).
  apply take_app_length.
Qed.

Lemma demo_tags_for (vocab : gset bytes) v :
  (forall t, t ∈ vocab -> length t = 4 /\ t <> take 4 METADATA_TAG /\ t <> take 4 MODIFICATIONS_TAG) ->
  tags_distinct [] demo_table "ix" vocab demo_limit v.
Proof.
  intros Hv t n Ht Hn. destruct (Hv t Ht) as (Hl & Hm & Hc). rewrite demo_page_tag by done.
  assert (forall tag, t ++ to_le_bytes 8 n = tag -> t = take 4 tag) as Hpre.
  { intros tag <-. by rewrite <- Hl, take_app_length. }
  split; [by intros ?%Hpre|]. split; [by intros ?%Hpre|].
  intros t' n' Ht' Hn'. destruct (Hv t' Ht') as (Hl' & _). rewrite demo_page_tag by done.
  intros [-> E]%app_inj_len; [|lia]. split; [done|].
  unfold demo_limit in *. apply to_le_bytes_inj in E; [done|unfold fits_u; lia..].
Qed.

Lemma demo_tags v : tags_distinct [] demo_table "ix" demo_vocab demo_limit v.
Proof. apply demo_tags_for. intros t [->| ->]%demo_vocab_elem; split; by vm_compute. Qed.

Lemma demo_limit_ok : (0 <= demo_limit <= 2 ^ 40)%Z.
Proof. unfold demo_limit. lia. Qed.

Lemma demo_size_ok : 0 < 4 <= ENTRIES_DATA_SIZE.
Proof. vm_compute. lia. Qed.

(** ** A state and its table *)

Definition demo_universe : gset bytes := list_to_set (demo_id <$> [7; 9; 11; 13]%Z).
Definition demo_documents : list (bytes * list bytes) := [(demo_id 7, [term_red]); (demo_id 9, [term_red])].
Definition demo_state : IndexState := first_state 4 (foldl add_document ∅ demo_documents).

(** The same with a pending addition. *)
Definition demo_pending : IndexState :=
  with_mods demo_state 2 (insert_term (demo_id 11) no_modifications term_red).

Definition demo_db (st : IndexState) : Db :=
  meta_row [] demo_table "ix" st :: mods_row [] demo_table "ix" st
    :: (page_row [] demo_table "ix" 4 (st_version st) <$> st_pages st).

Lemma demo_universe_ok : ids_ok 4 demo_universe.
Proof.
  intros d. unfold demo_universe. rewrite elem_of_list_to_set, list_elem_of_fmap.
  by intros (z & -> & _).
Qed.

Lemma demo_documents_known : Forall (fun '(d, ts) => known demo_vocab demo_universe d ts) demo_documents.
Proof. repeat constructor; by vm_compute. Qed.

Lemma demo_documents_ok : Forall (fun '(d, ts) => doc_ok 4 demo_vocab d ts) demo_documents.
Proof. repeat constructor; by vm_compute. Qed.

Lemma demo_documents_size t : (Z.of_nat (size (docs_with_term demo_documents t)) <= 4)%Z.
Proof.
  change 4%Z with (Z.of_nat (size demo_universe)). apply inj_le, subseteq_size.
  apply (docs_with_term_known demo_vocab), demo_documents_known.
Qed.

Lemma demo_state_wf : state_wf 4 demo_vocab demo_limit demo_state.
Proof.
  apply (first_state_wf 4 demo_size_ok demo_vocab demo_limit demo_limit_ok demo_vocab_ok demo_empty_fits
    demo_shuffle demo_shuffle_ok).
  apply documents_indexable; [apply demo_documents_ok|]. intros t. pose proof (demo_documents_size t).
  unfold demo_limit. lia.
Qed.

Lemma demo_state_contents t : contents demo_state t = docs_with_term demo_documents t.
Proof. unfold demo_state. by rewrite (first_state_contents 4 demo_size_ok), lookup_add_documents. Qed.

Lemma demo_mods_ok d : length d = 4 -> mods_ok 4 demo_vocab (insert_term d no_modifications term_red).
Proof.
  intros Hd. apply insert_term_ok; [done|unfold demo_vocab; set_solver|].
  apply (wf_mods _ _ _ _ demo_state_wf).
Qed.

Lemma demo_pending_wf : state_wf 4 demo_vocab demo_limit demo_pending.
Proof. apply with_mods_wf; [apply demo_state_wf|lia|by apply demo_mods_ok]. Qed.

Lemma demo_serves st :
  state_wf 4 demo_vocab demo_limit st ->
  serves [] demo_table "ix" 4 demo_vocab demo_limit st (demo_db st).
Proof. intros Hwf. split; [done|]. split; [apply demo_tags|]. unfold repr. reflexivity. Qed.

Abbreviation demo_load := (load_metadata [] demo_table "ix" load_fuel).
Abbreviation demo_query := (query [] demo_table "ix" 4).

(** ** Witnesses *)

Lemma load_metadata_fresh_witness :
  demo_load empty_cache (demo_db demo_state) = (fresh_cache demo_state, Ok tt).
Proof.
  apply (load_metadata_fresh [] demo_table "ix" 4 demo_size_ok demo_vocab demo_limit demo_limit_ok demo_state).
  - apply demo_serves, demo_state_wf.
  - apply empty_cache_ok.
Defined.

Lemma query_correct_witness :
  demo_query [QTerm term_red] empty_cache (demo_db demo_state)
  = (fresh_cache demo_state, Ok ((fun q => denote q (contents demo_state)) <$> [QTerm term_red])).
Proof.
  apply (query_correct [] demo_table "ix" 4 demo_size_ok demo_vocab demo_limit demo_limit_ok demo_state).
  - apply demo_serves, demo_state_wf.
  - apply empty_cache_ok.
  - apply Forall_singleton. by vm_compute.
Defined.

Lemma insert_many_correct_witness :
  exists st' db' rebuild,
    insert_many [] demo_table "ix" [(demo_id 13, [term_red; term_blue])] empty_cache (demo_db demo_state)
      = (fresh_cache demo_state, Ok (db', rebuild)) /\
    serves [] demo_table "ix" 4 demo_vocab demo_limit st' db' /\
    (forall cache, cache_ok cache demo_state -> cache_ok cache st') /\
    forall t, contents st' t
              = contents demo_state t ∪ docs_with_term [(demo_id 13, [term_red; term_blue])] t.
Proof.
  apply (insert_many_correct [] demo_table "ix" 4 demo_size_ok demo_vocab demo_limit demo_limit_ok demo_state).
  - apply demo_serves, demo_state_wf.
  - apply empty_cache_ok.
  - by vm_compute.
  - repeat constructor; by vm_compute.
Defined.

Lemma update_many_correct_witness :
  exists st' db' rebuild,
    update_many [] demo_table "ix" [(demo_id 7, ([term_blue], [term_red]))] empty_cache (demo_db demo_state)
      = (fresh_cache demo_state, Ok (db', rebuild)) /\
    serves [] demo_table "ix" 4 demo_vocab demo_limit st' db' /\
    (forall cache, cache_ok cache demo_state -> cache_ok cache st') /\
    forall t, contents st' t
              = foldl (updated t) (contents demo_state t) [(demo_id 7, ([term_blue], [term_red]))].
Proof.
  apply (update_many_correct [] demo_table "ix" 4 demo_size_ok demo_vocab demo_limit demo_limit_ok demo_state).
  - apply demo_serves, demo_state_wf.
  - apply empty_cache_ok.
  - by vm_compute.
  - repeat constructor; by vm_compute.
Defined.

Lemma demo_pending_contents t :
  contents demo_pending t = docs_with_term demo_documents t
    ∪ (if bool_decide (t = resize_term term_red) then {[demo_id 11]} else ∅).
Proof.
  rewrite <- demo_state_contents. unfold demo_pending, contents at 1. cbn [with_mods st_mods st_pages].
  by rewrite apply_insert_term.
Qed.

Lemma demo_room : room demo_vocab demo_limit demo_pending.
Proof.
  apply (next_meta_bound 4 demo_size_ok demo_vocab demo_limit demo_limit_ok demo_empty_fits demo_universe
    demo_pending 4).
  - apply demo_pending_wf.
  - apply (first_meta_le 4 demo_size_ok demo_vocab demo_limit demo_limit_ok demo_empty_fits).
    + apply demo_documents_ok.
    + unfold demo_limit. lia.
    + apply demo_documents_size.
  - lia.
  - by vm_compute.
  - intros t. rewrite demo_pending_contents.
    pose proof (docs_with_term_known demo_vocab demo_universe demo_documents t demo_documents_known).
    assert (demo_id 11 ∈ demo_universe) by (by vm_compute). case_bool_decide; set_solver.
Qed.

Lemma next_version_preserves_witness :
  exists st' db',
    do_next_version [] demo_table "ix" 4 demo_shuffle 1 (demo_db demo_pending) (demo_db demo_pending)
      = Ok db' /\
    serves [] demo_table "ix" 4 demo_vocab demo_limit st' db' /\ st_version st' = 2%Z /\
    st_mods st' = forget_merged (st_mods demo_pending) (st_mods demo_pending) /\
    forall t, stable (st_mods demo_pending) (st_mods demo_pending) t ->
      contents st' t = contents (with_mods demo_pending 2 (st_mods demo_pending)) t.
Proof.
  apply (next_version_preserves [] demo_table "ix" 4 demo_size_ok demo_vocab demo_limit demo_limit_ok
    demo_vocab_ok demo_empty_fits demo_shuffle demo_shuffle_ok demo_pending 2 (st_mods demo_pending)).
  - apply demo_serves, demo_pending_wf.
  - apply demo_room.
  - by vm_compute.
  - apply demo_tags.
  - lia.
  - by apply demo_mods_ok.
  - unfold repr, demo_db. reflexivity.
Defined.

(** The table after another node has added a document to the same term. *)
Definition demo_raced : IndexState :=
  with_mods demo_pending 3 (insert_term (demo_id 13) (st_mods demo_pending) term_red).

Lemma next_version_loses_addition_witness :
  exists st' db',
    do_next_version [] demo_table "ix" 4 demo_shuffle 1 (demo_db demo_pending) (demo_db demo_raced) = Ok db' /\
    serves [] demo_table "ix" 4 demo_vocab demo_limit st' db' /\
    demo_id 13 ∈ contents demo_raced (resize_term term_red) /\
    demo_id 13 ∉ contents st' (resize_term term_red).
Proof.
  apply (next_version_loses_addition [] demo_table "ix" 4 demo_size_ok demo_vocab demo_limit demo_limit_ok
    demo_vocab_ok demo_empty_fits demo_shuffle demo_shuffle_ok demo_pending (demo_db demo_pending)
    (demo_db demo_raced) term_red (demo_id 13)).
  - apply demo_serves, demo_pending_wf.
  - apply demo_room.
  - by vm_compute.
  - apply demo_tags.
  - by vm_compute.
  - by vm_compute.
  - by vm_compute.
  - rewrite demo_pending_contents. by vm_compute.
  - unfold repr, demo_db. reflexivity.
Defined.

Lemma initial_provisioning_correct_witness :
  exists st db,
    do_initial_provisioning_from_iterator [] demo_table "ix" 4 demo_shuffle demo_documents [] = Ok db /\
    serves [] demo_table "ix" 4 demo_vocab demo_limit st db /\ st_version st = 1%Z /\
    forall t, contents st t = docs_with_term demo_documents t.
Proof.
  apply (initial_provisioning_correct [] demo_table "ix" 4 demo_size_ok demo_vocab demo_limit demo_limit_ok
    demo_vocab_ok demo_empty_fits demo_shuffle demo_shuffle_ok).
  - apply demo_tags.
  - apply demo_documents_ok.
  - intros t. pose proof (demo_documents_size t). unfold demo_limit. lia.
Defined.

(** Two nodes: an insertion and a query on one, a rebuild, a deletion and queries
    on the other. *)
Definition demo_ops : list (nat * IndexOp) :=
  [(0, OInsert [(demo_id 11, [term_red; term_blue])]);
   (1, OQuery [QTerm term_red; QTerm term_blue]);
   (1, ONextVersion 1);
   (0, ODelete (demo_id 7) [term_red]);
   (1, OQuery [QDifference (QTerm term_red) (QTerm term_blue)])].

Lemma index_refines_sets_witness :
  exists db sys,
    do_initial_provisioning_from_iterator [] demo_table "ix" 4 demo_shuffle demo_documents [] = Ok db /\
    sys_run [] demo_table "ix" 4 demo_shuffle {| sys_db := db; sys_caches := replicate 2 empty_cache |} demo_ops
      = Ok (sys, spec_run (docs_with_term demo_documents) demo_ops).
Proof.
  apply (index_refines_sets [] demo_table "ix" 4 demo_size_ok demo_vocab demo_limit demo_limit_ok
    demo_vocab_ok demo_empty_fits demo_shuffle demo_shuffle_ok demo_universe demo_universe_ok).
  - apply demo_documents_known.
  - repeat constructor; by vm_compute.
  - by vm_compute.
  - by vm_compute.
  - intros v _. apply demo_tags.
Defined.

(** The answers of that run. *)
Example demo_answers :
  bool_decide (spec_run (docs_with_term demo_documents) demo_ops
    = [[]; [{[demo_id 7; demo_id 9; demo_id 11]}; {[demo_id 11]}]; []; []; [{[demo_id 9]}]]) = true.
Proof. vm_compute. reflexivity. Qed.
