(* ===== verification/InvertedIndex.v ===== *)
(** * The keyword index

    Models [metadata/indices/inverted_index/inverted_index.rs]: how filters
    become queries of the encrypted index, how their answers become a filter on
    the row identifiers, and how the rows of an insertion or an update become
    terms. The encrypted index behind it is the interface [RawIndexContract],
    which [IndexTheorems] implements. *)
From S2P Require Import Prelude Values Filters Sql Text Crypto TermPage IndexMetadata RawIndex IndexSpec NextVersion IndexTheorems IndexWitness.
From stdpp Require Import sorting.

(** ** The interface of the encrypted index *)

(** An index that answers every query over known terms with the documents it
    denotes. *)
Class RawIndexContract (Index : Type) := {
  raw_query : Index -> list RawIndexQuery -> result (list (gset bytes));
  raw_contents : Index -> bytes -> gset bytes;
  raw_vocab : gset bytes;
  raw_query_ok s queries :
    Forall (fun t => t ∈ raw_vocab) (queries ≫= query_vocab) ->
    raw_query s queries = Ok ((fun q => denote q (raw_contents s)) <$> queries)
}.

(** ** Configuration *)

Record Collation := {
  CASE_INSENSITIVE : bool;
  LENGTH_UNLIMITED : bool;
  ALLOW_ALPHANUMERIC : bool
}.

Record InvertedIndex := {
  watched_string_columns : list string;
  watched_boolean_columns : list (string * (bytes * bytes));
  collation : Collation
}.

(** The string columns, then the boolean ones. *)
Definition ordered_tracked_columns (ix : InvertedIndex) : list string :=
  watched_string_columns ix ++ (fst <$> watched_boolean_columns ix).

Definition tracked (ix : InvertedIndex) (column : string) : bool :=
  bool_decide (column ∈ ordered_tracked_columns ix).

Definition MAX_KW_LEN : nat := 32.
Definition TERM_PREFIX_KEYWORD : byte := Byte.x30.
Definition TERM_PREFIX_BOOLEAN_FALSE : byte := Byte.x10.
Definition TERM_PREFIX_BOOLEAN_TRUE : byte := Byte.x11.

(** ** Keywords *)

Definition keyword_to_term (word : text) : bytes := TERM_PREFIX_KEYWORD :: utf8_encode word.

Section Keywords.
Context `{Unicode}.

Definition is_separator (c : Z) : bool :=
  is_ascii_punctuation c || is_ascii_control c || is_whitespace c.

Definition accepted_word (c : Collation) (word : text) : bool :=
  negb (bool_decide (word = []))
  && (LENGTH_UNLIMITED c || bool_decide (length (utf8_encode word) <= MAX_KW_LEN))
  && (ALLOW_ALPHANUMERIC c || forallb is_alphabetic word).

Definition parse_like_string (ix : InvertedIndex) (string : text) : list bytes :=
  let string := trim string in
  let string := if CASE_INSENSITIVE (collation ix) then to_lowercase string else string in
  keyword_to_term <$> filter (fun w => accepted_word (collation ix) w = true) (split_by is_separator string).

(** ** From filters to queries *)

(** [Iterator::reduce] with [Intersect]. *)
Definition intersect_all (terms : list bytes) : option RawIndexQuery :=
  match terms with
  | [] => None
  | t :: ts => Some (foldl (fun l r => QIntersect l (QTerm r)) (QTerm t) ts)
  end.

(** [if let Some(initial) = acc.take() { op(initial, term) } else { term }]. *)
Definition combine (op : RawIndexQuery -> RawIndexQuery -> RawIndexQuery)
    (acc : option RawIndexQuery) (term : RawIndexQuery) : option RawIndexQuery :=
  match acc with
  | Some initial => Some (op initial term)
  | None => Some term
  end.

(** The terms that are excluded, mandatory and optional. *)
Record MatchTerms := {
  excluded : option RawIndexQuery;
  must_be_included : option RawIndexQuery;
  can_be_included : option RawIndexQuery
}.

Definition match_keyword (m : MatchTerms) (keyword : text) : MatchTerms :=
  match keyword with
  | 45%Z :: str =>
      {| excluded := combine QIntersect (excluded m) (QTerm (keyword_to_term str));
         must_be_included := must_be_included m; can_be_included := can_be_included m |}
  | 43%Z :: str =>
      {| excluded := excluded m;
         must_be_included := combine QIntersect (must_be_included m) (QTerm (keyword_to_term str));
         can_be_included := can_be_included m |}
  | _ =>
      {| excluded := excluded m; must_be_included := must_be_included m;
         can_be_included := combine QUnion (can_be_included m) (QTerm (keyword_to_term keyword)) |}
  end.

Definition match_terms (search_string : text) : MatchTerms :=
  foldl match_keyword {| excluded := None; must_be_included := None; can_be_included := None |}
    (split_by (fun c => c =? 32)%Z (trim search_string)).

Definition match_base (m : MatchTerms) : result RawIndexQuery :=
  match must_be_included m, can_be_included m with
  | Some must, Some can => Ok (QIntersect must can)
  | Some must, None => Ok must
  | None, Some can => Ok can
  | None, None => Err (PlanError "MATCH ... AGAINST ... must have at least one keyword")
  end.

Definition match_query (m : MatchTerms) : result RawIndexQuery :=
  let? base := match_base m in
  Ok (match excluded m with Some e => QDifference base e | None => base end).

Inductive ExecutableFilterTree :=
  | XAnd (a b : ExecutableFilterTree)
  | XOr (a b : ExecutableFilterTree)
  | XNot (a : ExecutableFilterTree)
  | XFilterExpr (q : RawIndexQuery).

Fixpoint parse_filter_tree {E} (ix : InvertedIndex) (tree : IndexableFilterExpr E) :
    result ExecutableFilterTree :=
  match tree with
  | And a b =>
      let? a := parse_filter_tree ix a in
      let? b := parse_filter_tree ix b in Ok (XAnd a b)
  | Or a b =>
      let? a := parse_filter_tree ix a in
      let? b := parse_filter_tree ix b in Ok (XOr a b)
  | Not other => let? other := parse_filter_tree ix other in Ok (XNot other)
  | KwSearchLike c pattern =>
      if negb (tracked ix (name (column c))) then
        Err (PlanError "unsupported column for inverted index")
      else
        let pattern := (fun c => if (c =? 37)%Z then 32%Z else c) <$> chars pattern in
        let? q := ok_or (intersect_all (parse_like_string ix pattern))
                    (PlanError "invalid LIKE expression with no keyword") in
        Ok (XFilterExpr q)
  | KwMatch columns search_string =>
      if existsb (fun c => negb (tracked ix (name c))) columns then
        Err (PlanError "unsupported column for inverted index")
      else
        let search_string := if CASE_INSENSITIVE (collation ix) then to_lowercase (chars search_string)
                             else chars search_string in
        let? q := match_query (match_terms search_string) in
        Ok (XFilterExpr q)
  | _ => Err (PlanError "unsupported plan node for inverted index")
  end.
End Keywords.

(** [is_supported]: the leaves this index can answer, with no selectivity. *)
Definition inverted_is_supported {E} (ix : InvertedIndex) (tree : IndexableFilterExpr E) :
    option Precision :=
  match tree with
  | KwSearchLike c _ => if tracked ix (name (column c)) then Some Absent else None
  | KwMatch columns _ => if forallb (fun c => tracked ix (name c)) columns then Some Absent else None
  | _ => None
  end.

Definition inverted_support_options {E} (ix : InvertedIndex) : SupportOptions E :=
  {| supports_not := true; supports_or := true; is_supported v _ := inverted_is_supported ix v |}.

(** ** Simplification *)

Definition simplify_and (a b : ExecutableFilterTree) : ExecutableFilterTree :=
  match a, b with
  | XFilterExpr a, XFilterExpr b => XFilterExpr (QIntersect a b)
  | XNot (XFilterExpr a), XFilterExpr b => XFilterExpr (QDifference b a)
  | XFilterExpr a, XNot (XFilterExpr b) => XFilterExpr (QDifference a b)
  | XNot (XFilterExpr a), XNot (XFilterExpr b) => XNot (XFilterExpr (QUnion a b))
  | a, b => XAnd a b
  end.

Fixpoint simplify (t : ExecutableFilterTree) : ExecutableFilterTree :=
  match t with
  | XAnd a b => simplify_and (simplify a) (simplify b)
  | XOr a b => XOr (simplify a) (simplify b)
  | XNot a => match simplify a with XNot a => a | a => XNot a end
  | XFilterExpr q => XFilterExpr q
  end.

(** ** Execution *)

Fixpoint extract_queries (t : ExecutableFilterTree) : list RawIndexQuery :=
  match t with
  | XAnd a b | XOr a b => extract_queries a ++ extract_queries b
  | XNot a => extract_queries a
  | XFilterExpr f => [f]
  end.

(** [Vec::pop]: the last element. *)
Definition pop {A} (l : list A) : option (A * list A) :=
  match reverse l with
  | [] => None
  | x :: r => Some (x, reverse r)
  end.

Definition as_u64 (KS : nat) (v : bytes) : option Z :=
  if bool_decide (KS <= 8) then Some (from_le_bytes (v ++ replicate (8 - KS) Byte.x00)) else None.

(** The row identifier column: its name and whether it is a number. *)
Record IdColumn := { id_name : string; id_is_number : bool }.

Definition id_value (c : IdColumn) (KS : nat) (v : bytes) : result SqlExpr :=
  if id_is_number c then
    let? n := ok_or (as_u64 KS v) (Panic "called `Option::unwrap()` on a `None` value") in
    Ok (Value (Number n))
  else Ok (Value (HexStringLiteral (hex_encode v))).

Definition leaf_expr (c : IdColumn) (KS : nat) (query_result : gset bytes) : result SqlExpr :=
  let? values := result_mapM (id_value c KS) (elements query_result) in
  match values with
  | [] => Ok (Value (Boolean false))
  | [v] => Ok (BinaryOp (Identifier (id_name c)) BinEq v)
  | _ => Ok (SqlInList (Identifier (id_name c)) values)
  end.

Fixpoint to_expr (c : IdColumn) (KS : nat) (t : ExecutableFilterTree)
    (queries_results : list (gset bytes)) : result (SqlExpr * list (gset bytes)) :=
  match t with
  | XAnd a b =>
      let? (a, rest) := to_expr c KS a queries_results in
      let? (b, rest) := to_expr c KS b rest in Ok (sql_and a b, rest)
  | XOr a b =>
      let? (a, rest) := to_expr c KS a queries_results in
      let? (b, rest) := to_expr c KS b rest in Ok (sql_or a b, rest)
  | XNot a =>
      let? (a, rest) := to_expr c KS a queries_results in Ok (sql_not a, rest)
  | XFilterExpr _ =>
      let? (r, rest) := ok_or (pop queries_results)
                          (ExecError "not enough queries results in Inverted Index!") in
      let? e := leaf_expr c KS r in Ok (e, rest)
  end.

Definition execute_filter {Index} `{!RawIndexContract Index} (s : Index) (c : IdColumn) (KS : nat)
    (query : ExecutableFilterTree) : result SqlExpr :=
  let? results := raw_query s (extract_queries query) in
  let? (e, _) := to_expr c KS query results in Ok e.

(** [InvertedIndex::query]: the tree that is executed later. *)
Definition inverted_query `{Unicode} {E : Type} (ix : InvertedIndex) (supported_filter : IndexableFilterExpr E) :
    result ExecutableFilterTree :=
  let? t := parse_filter_tree ix supported_filter in Ok (simplify t).

Definition inverted_logical_query `{Unicode} {E : Type} (ix : InvertedIndex) (indexable_column : option IdColumn)
    (filter : IndexableFilterExpr E) : result (IdColumn * ExecutableFilterTree) :=
  let? c := ok_or indexable_column
              (PlanError "missing indexable column on table (required by inverted index query)") in
  let? t := inverted_query ix filter in Ok (c, t).

(** ** Configuring an index *)

(** [copy_from_slice] panics unless the lengths agree. *)
Definition copy_from_slice (dst src : bytes) : result bytes :=
  if bool_decide (length dst = length src) then Ok src
  else Err (Panic "copy_from_slice: source slice length does not match destination slice length").

(** The two terms of a boolean column. *)
Definition boolean_terms (field_name : string) : result (bytes * bytes) :=
  let? if_tru := copy_from_slice [TERM_PREFIX_BOOLEAN_TRUE] (string_bytes field_name) in
  let? if_fls := copy_from_slice [TERM_PREFIX_BOOLEAN_FALSE] (string_bytes field_name) in
  Ok (if_tru, if_fls).

(** [BTreeSet] of names: sorted, without duplicates. *)
Definition name_le (a b : string) : Prop := String.leb a b = true.
#[export] Instance name_le_dec : RelDecision name_le := fun a b => bool_eq_dec (String.leb a b) true.
Definition name_set (l : list string) : list string := merge_sort name_le (remove_dups l).

(** [BTreeMap]: sorted by name, the last entry of a name counts. *)
Definition by_name {A} (l : list (string * A)) : list (string * A) :=
  omap (fun n => (fun e => (n, (e.2).2)) <$> list_find (fun e => e.1 = n) (reverse l))
    (name_set (fst <$> l)).

(** [schema]: the columns of the table with their types. *)
Definition initialize_for_columns (schema : list (string * DataType)) (columns : list string) :
    result InvertedIndex :=
  let? fields := result_mapM
    (fun col => ok_or (list_find (fun f => f.1 = col) schema) (PlanError "field not found")) columns in
  let fields := snd <$> fields in
  let boolean := filter (fun f => f.2 = DtBoolean) fields in
  let other := filter (fun f => f.2 <> DtBoolean) fields in
  let? boolean_columns := result_mapM
    (fun f => let? terms := boolean_terms f.1 in Ok (f.1, terms)) boolean in
  Ok {| watched_boolean_columns := by_name boolean_columns;
        watched_string_columns := name_set (fst <$> other);
        collation := {| CASE_INSENSITIVE := true; LENGTH_UNLIMITED := false;
                        ALLOW_ALPHANUMERIC := false |} |}.

(** ** The terms of a row *)

Section Terms.
Context `{Unicode}.
(** [arrow::compute::cast] to text and to booleans. *)
Variable cast_utf8 : ScalarValue -> option string.
Variable cast_boolean : ScalarValue -> option bool.

Definition process_boolean_column (v : ScalarValue) (terms : bytes * bytes) : list bytes :=
  let v := match v with SBoolean b => b | v => cast_boolean v end in
  match v with
  | Some true => [terms.1]
  | Some false => [terms.2]
  | None => []
  end.

Definition process_string_column (ix : InvertedIndex) (v : ScalarValue) : list bytes :=
  let v := match v with SUtf8 s => s | v => cast_utf8 v end in
  match v with
  | Some v => parse_like_string ix (chars v)
  | None => []
  end.

(** A row by column name; a column that is not in the input is skipped.
    [prefix] selects the old values of an update. *)
Definition transform_into_terms (ix : InvertedIndex) (prefix : string)
    (row : string -> option ScalarValue) : list bytes :=
  ordered_tracked_columns ix ≫= fun column_name =>
    match row (prefix +:+ column_name) with
    | None => []
    | Some v =>
        match list_find (fun c => c.1 = column_name) (watched_boolean_columns ix) with
        | Some (_, (_, terms)) => process_boolean_column v terms
        | None =>
            if bool_decide (column_name ∈ watched_string_columns ix) then process_string_column ix v
            else []
        end
    end.
End Terms.

(** ** Sinks *)

Section Sinks.
Variable N : nat.

(** Both columns drop their null (and the identifiers of the wrong size), each on
    its own. *)
Definition extract_id_column (ids : list (option bytes)) : list bytes :=
  omap (fun value => match value with
                     | Some v => if bool_decide (length v = N) then Some v else None
                     | None => None
                     end) ids.

Definition extract_terms_column (terms : list (option (list (option bytes)))) : list (gset bytes) :=
  omap (fun arr => (fun l => list_to_set (omap (fun v => v) l)) <$> arr) terms.

(** The documents handed to [insert_many] for one batch. *)
Definition insert_batch (ids : list (option bytes)) (terms : list (option (list (option bytes)))) :
    list (bytes * list bytes) :=
  zip (extract_id_column ids) (elements <$> extract_terms_column terms).

(** The documents handed to [update_many]: terms added and terms removed. *)
Definition diff_terms (new old : gset bytes) : list bytes * list bytes :=
  (elements (new ∖ old), elements (old ∖ new)).

Definition update_batch (ids : list (option bytes)) (terms old_terms : list (option (list (option bytes)))) :
    list (bytes * (list bytes * list bytes)) :=
  zip (extract_id_column ids)
    (zip_with diff_terms (extract_terms_column terms) (extract_terms_column old_terms)).
End Sinks.

(** ** Lemmas: answers *)

(** The truth of a tree, given that of its leaves. *)
Fixpoint tree_holds (f : RawIndexQuery -> bool) (t : ExecutableFilterTree) : bool :=
  match t with
  | XAnd a b => tree_holds f a && tree_holds f b
  | XOr a b => tree_holds f a || tree_holds f b
  | XNot a => negb (tree_holds f a)
  | XFilterExpr q => f q
  end.

Definition matches (c : bytes -> gset bytes) (d : bytes) (q : RawIndexQuery) : bool :=
  bool_decide (d ∈ denote q c).

Lemma matches_intersect c d a b : matches c d (QIntersect a b) = matches c d a && matches c d b.
Proof. unfold matches. cbn. rewrite <- bool_decide_and. apply bool_decide_ext, elem_of_intersection. Qed.

Lemma matches_union c d a b : matches c d (QUnion a b) = matches c d a || matches c d b.
Proof. unfold matches. cbn. rewrite <- bool_decide_or. apply bool_decide_ext, elem_of_union. Qed.

Lemma matches_difference c d a b : matches c d (QDifference a b) = matches c d a && negb (matches c d b).
Proof.
  unfold matches. cbn. rewrite <- bool_decide_not, <- bool_decide_and.
  apply bool_decide_ext, elem_of_difference.
Qed.

Create Rewrite HintDb index_rw.
#[export] Hint Rewrite matches_intersect matches_union matches_difference : index_rw.

Lemma simplify_and_holds c d a b :
  tree_holds (matches c d) (simplify_and a b)
  = tree_holds (matches c d) a && tree_holds (matches c d) b.
Proof.
  destruct a as [| |[]|], b as [| |[]|]; cbn; autorewrite with index_rw; try done.
  - by rewrite negb_orb.
  - apply andb_comm.
Qed.

(** Answers to the leaves are taken from the end: the order of the mirrored tree. *)
Fixpoint mirror (t : ExecutableFilterTree) : ExecutableFilterTree :=
  match t with
  | XAnd a b => XAnd (mirror b) (mirror a)
  | XOr a b => XOr (mirror b) (mirror a)
  | XNot a => XNot (mirror a)
  | XFilterExpr q => XFilterExpr q
  end.

Lemma pop_snoc {A} (l : list A) x : pop (l ++ [x]) = Some (x, l).
Proof. unfold pop. by rewrite reverse_snoc, reverse_involutive. Qed.

(** ** Lemmas: the filter on the identifiers *)

Lemma hex_digit_inj a b :
  (0 <= a < 16)%Z -> (0 <= b < 16)%Z -> hex_digit a = hex_digit b -> a = b.
Proof.
  intros Ha Hb. unfold hex_digit. intros E.
  assert (forall z, (0 <= z < 16)%Z -> In z [0;1;2;3;4;5;6;7;8;9;10;11;12;13;14;15]%Z) as Henum
    by (intros z Hz; cbn; lia).
  apply Henum in Ha, Hb. cbn in Ha, Hb.
  repeat destruct Ha as [<-|Ha]; try done; repeat destruct Hb as [<-|Hb]; done.
Qed.

Lemma hex_encode_inj a b : hex_encode a = hex_encode b -> a = b.
Proof.
  revert b. induction a as [|x a IH]; intros [|y b]; cbn; try done.
  intros E. injection E as E1 E2 E3. apply IH in E3 as ->. f_equal.
  pose proof (byte.unsigned_range x). pose proof (byte.unsigned_range y).
  rewrite !Z.shiftr_div_pow2 in E1 by lia. change (2 ^ 4)%Z with 16%Z in E1.
  change 15%Z with (Z.ones 4) in E2. rewrite !Z.land_ones in E2 by lia. change (2 ^ 4)%Z with 16%Z in E2.
  apply hex_digit_inj in E1; [|split; [apply Z.div_pos; lia|apply Z.div_lt_upper_bound; lia]..].
  apply hex_digit_inj in E2; [|apply Z.mod_pos_bound; lia..].
  rewrite <- (byte.of_Z_unsigned x), <- (byte.of_Z_unsigned y). f_equal.
  rewrite (Z.div_mod (byte.unsigned x) 16), (Z.div_mod (byte.unsigned y) 16) by lia. lia.
Qed.

(** How an identifier is stored in the row: a number, or its bytes in hex. *)
Definition id_cell (c : IdColumn) (d : bytes) : Cell :=
  if id_is_number c then CNum (from_le_bytes d) else CStr (hex_encode d).

Definition ids_fit (c : IdColumn) (KS : nat) : Prop := id_is_number c = true -> KS <= 8.

Lemma from_le_bytes_pad d n : from_le_bytes (d ++ replicate n Byte.x00) = from_le_bytes d.
Proof.
  unfold from_le_bytes. replace (replicate n Byte.x00) with (List.repeat Byte.x00 n); [apply le_combine_app_0|].
  induction n; cbn; congruence.
Qed.

Lemma id_value_ok c KS d :
  ids_fit c KS -> exists e, id_value c KS d = Ok e /\
    forall r, operand r e = Some (id_cell c d).
Proof.
  intros Hf. unfold id_value, id_cell, as_u64. destruct (id_is_number c) eqn:E; [|eauto].
  rewrite bool_decide_true by (by apply Hf). cbn. rewrite from_le_bytes_pad. eauto.
Qed.

Lemma id_cell_inj c d d' : length d = length d' -> id_cell c d = id_cell c d' -> d = d'.
Proof.
  intros Hl. unfold id_cell. destruct (id_is_number c); intros [= E].
  - rewrite <- (to_from_le_bytes d), <- (to_from_le_bytes d'), Hl. by rewrite E.
  - by apply hex_encode_inj.
Qed.

Lemma cell_eq_ids c d d' :
  length d = length d' ->
  cell_eq (Some (id_cell c d)) (Some (id_cell c d')) = Some (bool_decide (d = d')).
Proof.
  intros Hl. pose proof (id_cell_inj c d d' Hl) as Hinj. unfold cell_eq, id_cell in *.
  destruct (id_is_number c); cbn; f_equal.
  - destruct (Z.compare_spec (from_le_bytes d) (from_le_bytes d')) as [E|E|E];
      case_bool_decide as Hd; subst; try done; try lia. by rewrite Hinj in Hd by (by rewrite E).
  - destruct (String.compare _ _) eqn:E; case_bool_decide as Hd; subst; try done;
      rewrite ?string_compare_refl in E; try done.
    apply String.compare_eq_iff in E. by rewrite Hinj in Hd by (by rewrite E).
Qed.

Lemma id_values_ok (c : IdColumn) (KS : nat) (l : list bytes) :
  ids_fit c KS -> exists es, result_mapM (id_value c KS) l = Ok es /\
    Forall2 (fun e d => forall r, operand r e = Some (id_cell c d)) es l.
Proof.
  intros Hf. induction l as [|d l (es & IH & Hes)]; cbn; [by eauto using Forall2_nil|].
  destruct (id_value_ok c KS d Hf) as (e & -> & He). cbn. rewrite IH. cbn. eauto using Forall2_cons.
Qed.

(** A leaf selects exactly the rows whose identifier is in the answer. *)
Lemma leaf_expr_ok (c : IdColumn) (KS : nat) (answer : gset bytes) :
  ids_fit c KS -> (forall d, d ∈ answer -> length d = KS) ->
  exists e, leaf_expr c KS answer = Ok e /\
    forall r d, length d = KS -> r (id_name c) = Some (id_cell c d) ->
      eval_sql r e = Some (bool_decide (d ∈ answer)).
Proof.
  intros Hf Hlen. unfold leaf_expr.
  destruct (id_values_ok c KS (elements answer) Hf) as (es & -> & Hes). cbn [result_bind].
  assert (forall r d, length d = KS -> r (id_name c) = Some (id_cell c d) ->
    foldr (fun v acc => kor (cell_eq (r (id_name c)) (operand r v)) acc) (Some false) es
    = Some (bool_decide (d ∈ answer))) as Hin.
  { intros r d Hd Hr. rewrite Hr.
    assert (forall l, (forall d, d ∈ l -> length d = KS) ->
      Forall2 (fun e d => forall r, operand r e = Some (id_cell c d)) es l ->
      foldr (fun v acc => kor (cell_eq (Some (id_cell c d)) (operand r v)) acc) (Some false) es
      = Some (bool_decide (d ∈ l))) as Hgen.
    { clear Hes. intros l Hl Hes. induction Hes as [|e d' es l He Hes IH]; cbn [foldr].
      - by rewrite bool_decide_false by apply not_elem_of_nil.
      - rewrite IH, He by (intros; apply Hl; by right).
        rewrite cell_eq_ids by (rewrite Hd; symmetry; apply Hl; left).
        rewrite (bool_decide_ext (d ∈ d' :: l) (d = d' \/ d ∈ l)) by apply elem_of_cons.
        rewrite bool_decide_or. by do 2 case_bool_decide. }
    rewrite (Hgen (elements answer)); [f_equal; apply bool_decide_ext, elem_of_elements| |done].
    intros d' ?%elem_of_elements. by apply Hlen. }
  destruct es as [|e [|e' es]]; eexists; (split; [reflexivity|]); intros r d Hd Hr;
    rewrite <- (Hin r d Hd Hr); try done.
  cbn. unfold cell_eq. destruct (cell_compare _ _) as [[]|]; done.
Qed.

(** The filter of a tree, when the answers come in the order they are taken. *)
Lemma to_expr_ok (c : IdColumn) (KS : nat) cts t rest :
  ids_fit c KS ->
  (forall q d, q ∈ extract_queries (mirror t) -> d ∈ denote q cts -> length d = KS) ->
  exists e, to_expr c KS t (rest ++ ((fun q => denote q cts) <$> extract_queries (mirror t))) = Ok (e, rest) /\
    forall r d, length d = KS -> r (id_name c) = Some (id_cell c d) ->
      eval_sql r e = Some (tree_holds (matches cts d) t).
Proof.
  intros Hf. revert rest. induction t as [a IHa b IHb|a IHa b IHb|a IHa|q]; intros rest Hlen;
    cbn [mirror extract_queries to_expr tree_holds] in *.
  - rewrite fmap_app, app_assoc.
    destruct (IHa (rest ++ ((fun q => denote q cts) <$> extract_queries (mirror b)))) as (ea & -> & Ha);
      [intros; eapply Hlen; [|done]; apply elem_of_app; by right|]. cbn [result_bind].
    destruct (IHb rest) as (eb & -> & Hb); [intros; eapply Hlen; [|done]; apply elem_of_app; by left|].
    eexists. split; [reflexivity|]. intros r d Hd Hr. cbn. rewrite (Ha r d Hd Hr), (Hb r d Hd Hr).
    by destruct (tree_holds _ a), (tree_holds _ b).
  - rewrite fmap_app, app_assoc.
    destruct (IHa (rest ++ ((fun q => denote q cts) <$> extract_queries (mirror b)))) as (ea & -> & Ha);
      [intros; eapply Hlen; [|done]; apply elem_of_app; by right|]. cbn [result_bind].
    destruct (IHb rest) as (eb & -> & Hb); [intros; eapply Hlen; [|done]; apply elem_of_app; by left|].
    eexists. split; [reflexivity|]. intros r d Hd Hr. cbn. rewrite (Ha r d Hd Hr), (Hb r d Hd Hr).
    by destruct (tree_holds _ a), (tree_holds _ b).
  - destruct (IHa rest) as (ea & -> & Ha); [done|]. eexists. split; [reflexivity|].
    intros r d Hd Hr. cbn. by rewrite (Ha r d Hd Hr).
  - cbn [fmap list_fmap]. rewrite pop_snoc. cbn [ok_or result_bind].
    destruct (leaf_expr_ok c KS (denote q cts) Hf) as (e & -> & He);
      [intros; by eapply Hlen; [left|]|].
    eexists. split; [reflexivity|]. intros r d Hd Hr. by apply He.
Qed.

(** The tree whose answers are aligned with what [to_expr] takes. *)
Definition aligned (t : ExecutableFilterTree) : Prop := extract_queries (mirror t) = extract_queries t.

Fixpoint conjunctive (t : ExecutableFilterTree) : bool :=
  match t with
  | XFilterExpr _ => true
  | XAnd a b => conjunctive a && conjunctive b
  | _ => false
  end.

Lemma conjunctive_leaf t : conjunctive t = true -> exists q, simplify t = XFilterExpr q.
Proof.
  induction t as [a IHa b IHb| | |q]; cbn; try done; [|eauto].
  intros [Ha Hb]%andb_true_iff. destruct (IHa Ha) as [qa ->], (IHb Hb) as [qb ->]. cbn. eauto.
Qed.

(** ** The encrypted index implements the interface *)

Section Contract.
Context `{Aead} `{!AeadLaws} `{Hkdf} `{!HkdfLaws}.
Context `{!Codec MetadataPage} `{!Codec ModificationsTable} `{!Codec TermPage}.
Variable master_key : bytes.
Variable indexed_table : TableRef.
Variable index_name : string.
Variable IdSize : nat.
Hypothesis IdSize_ok : 0 < IdSize <= ENTRIES_DATA_SIZE.
Variable vocab : gset bytes.
Variable limit : Z.
Hypothesis limit_ok : (0 <= limit <= 2 ^ 40)%Z.

(** A node: the server table, the state it represents, and a coherent cache. *)
Record NodeView := {
  nv_state : IndexState;
  nv_db : Db;
  nv_cache : CachedIndexState;
  nv_serves : serves master_key indexed_table index_name IdSize vocab limit nv_state nv_db;
  nv_coherent : cache_ok nv_cache nv_state
}.

Lemma node_query_ok (nv : NodeView) queries :
  Forall (fun t => t ∈ vocab) (queries ≫= query_vocab) ->
  (query master_key indexed_table index_name IdSize queries (nv_cache nv) (nv_db nv)).2
  = Ok ((fun q => denote q (contents (nv_state nv))) <$> queries).
Proof.
  intros Hv. destruct (nv_serves nv) as (Hwf & Hd & Hdb).
  by rewrite (query_ok master_key indexed_table index_name IdSize IdSize_ok vocab limit limit_ok
    (nv_state nv) _ _ _ Hwf Hd Hdb (nv_coherent nv) Hv).
Qed.

Definition node_contract : RawIndexContract NodeView := {|
  raw_query nv queries := (query master_key indexed_table index_name IdSize queries (nv_cache nv) (nv_db nv)).2;
  raw_contents nv := contents (nv_state nv);
  raw_vocab := vocab;
  raw_query_ok := node_query_ok
|}.
End Contract.

(** ** Theorems *)

(** simplification keeps the meaning of a tree: a document satisfies the
    simplified tree exactly when it satisfies the tree, whatever the terms denote. *)
Theorem simplify_correct c d t :
  tree_holds (matches c d) (simplify t) = tree_holds (matches c d) t.
Proof.
  induction t as [a IHa b IHb|a IHa b IHb|a IHa|q]; cbn [simplify tree_holds].
  - by rewrite simplify_and_holds, IHa, IHb.
  - by rewrite IHa, IHb.
  - rewrite <- IHa. destruct (simplify a); cbn; by rewrite ?negb_involutive.
  - done.
Qed.

Section Execute.
Context {Index : Type} `{!RawIndexContract Index}.
Variable s : Index.
Variable c : IdColumn.
Variable KS : nat.
Hypothesis fit : ids_fit c KS.
Hypothesis stored_ids : forall t d, d ∈ raw_contents s t -> length d = KS.

Lemma denote_ids q d : d ∈ denote q (raw_contents s) -> length d = KS.
Proof. induction q; cbn; [set_solver..|apply stored_ids]. Qed.

Lemma execute_aligned t :
  aligned t -> Forall (fun x => x ∈ raw_vocab) (extract_queries t ≫= query_vocab) ->
  exists e, execute_filter s c KS t = Ok e /\
    forall r d, length d = KS -> r (id_name c) = Some (id_cell c d) ->
      eval_sql r e = Some (tree_holds (matches (raw_contents s) d) t).
Proof.
  intros Ha Hv. unfold execute_filter. rewrite raw_query_ok by done. cbn [result_bind].
  destruct (to_expr_ok c KS (raw_contents s) t [] fit) as (e & Ht & He);
    [intros q d _; apply denote_ids|].
  rewrite Ha in Ht. cbn [app] in Ht. rewrite Ht. cbn. eauto.
Qed.

(** a conjunction of keyword filters, once simplified, is executed exactly:
    the filter sent to the server selects a row when and only when its
    identifier satisfies every keyword filter. *)
Theorem conjunctive_filter_exact t :
  conjunctive t = true ->
  Forall (fun x => x ∈ raw_vocab) (extract_queries (simplify t) ≫= query_vocab) ->
  exists e, execute_filter s c KS (simplify t) = Ok e /\
    forall r d, length d = KS -> r (id_name c) = Some (id_cell c d) ->
      eval_sql r e = Some (tree_holds (matches (raw_contents s) d) (simplify t)).
Proof.
  intros Ht Hv. apply execute_aligned; [|done]. destruct (conjunctive_leaf t Ht) as [q ->]. done.
Qed.

(** the answers are handed back in reverse: for [A OR NOT B] the server is
    sent [B OR NOT A], so a row that satisfies A and not B, which the filter
    selects, is dropped. *)
Theorem disjunction_swaps_answers a b d :
  Forall (fun x => x ∈ raw_vocab) (query_vocab a ++ query_vocab b) ->
  d ∈ denote a (raw_contents s) -> d ∉ denote b (raw_contents s) ->
  let t := XOr (XFilterExpr a) (XNot (XFilterExpr b)) in
  tree_holds (matches (raw_contents s) d) t = true /\
  exists e, execute_filter s c KS t = Ok e /\
    forall r, r (id_name c) = Some (id_cell c d) -> eval_sql r e = Some false.
Proof.
  intros Hv Ha Hb. cbn zeta. split.
  - cbn. unfold matches. by rewrite bool_decide_true.
  - unfold execute_filter. cbn [extract_queries app]. rewrite raw_query_ok by (by cbn; rewrite app_nil_r).
    cbn [result_bind].
    destruct (to_expr_ok c KS (raw_contents s) (XOr (XFilterExpr b) (XNot (XFilterExpr a))) [] fit)
      as (e & Ht & He); [intros q d' _; apply denote_ids|].
    cbn [mirror extract_queries app to_expr] in *. cbn [fmap list_fmap] in *. rewrite Ht. cbn [result_bind].
    exists e. split; [done|]. intros r Hr. rewrite (He r d); [|by eapply denote_ids|done].
    cbn. unfold matches. by rewrite bool_decide_false, bool_decide_true.
Qed.
End Execute.

(** ** LIKE *)

Lemma denote_intersect_all t ts c d :
  d ∈ denote (foldl (fun l r => QIntersect l (QTerm r)) (QTerm t) ts) c
  <-> Forall (fun t => d ∈ c (resize_term t)) (t :: ts).
Proof.
  rewrite Forall_cons. enough (forall q, d ∈ denote (foldl (fun l r => QIntersect l (QTerm r)) q ts) c
    <-> d ∈ denote q c /\ Forall (fun t => d ∈ c (resize_term t)) ts) as Hgen by apply Hgen.
  induction ts as [|x ts IH]; intros q; cbn [foldl]; [rewrite Forall_nil; tauto|].
  rewrite IH, Forall_cons. cbn. rewrite elem_of_intersection. tauto.
Qed.

(** The words of a LIKE pattern: its wildcards are separators. *)
Definition like_words `{Unicode} (ix : InvertedIndex) (pattern : string) : list bytes :=
  parse_like_string ix ((fun c => if (c =? 37)%Z then 32%Z else c) <$> chars pattern).

(** a LIKE filter on a watched column is rejected when its pattern has no
    keyword, and otherwise selects exactly the documents that hold every keyword
    of the pattern. *)
Theorem like_query_exact `{Unicode} {E : Type} (ix : InvertedIndex) (col : ColumnWithCast) (pattern : string) :
  tracked ix (name (column col)) = true ->
  match like_words ix pattern with
  | [] => exists msg, @inverted_query _ E ix (KwSearchLike col pattern) = Err (PlanError msg)
  | _ => exists q, @inverted_query _ E ix (KwSearchLike col pattern) = Ok (XFilterExpr q) /\
           forall c d, d ∈ denote q c <-> Forall (fun t => d ∈ c (resize_term t)) (like_words ix pattern)
  end.
Proof.
  intros Ht. unfold inverted_query. cbn [parse_filter_tree]. rewrite Ht. cbn [negb].
  fold (like_words ix pattern). destruct (like_words ix pattern) as [|t ts]; cbn; [eauto|].
  eexists. split; [done|]. intros c d. apply denote_intersect_all.
Qed.

(** a document inserted with the text of a watched column is found by every
    LIKE filter all of whose keywords occur in that text. *)
Theorem like_finds_inserted `{Unicode} {E : Type} (cast_utf8 : ScalarValue -> option string) (cast_boolean : ScalarValue -> option bool) (ix : InvertedIndex) (col : ColumnWithCast) (pattern : string)
    (row : string -> option ScalarValue) (v : string) (d : bytes) (c c' : bytes -> gset bytes) :
  name (column col) ∈ watched_string_columns ix ->
  list_find (fun b => b.1 = name (column col)) (watched_boolean_columns ix) = None ->
  row (name (column col)) = Some (SUtf8 (Some v)) ->
  like_words ix pattern <> [] -> like_words ix pattern ⊆ parse_like_string ix (chars v) ->
  (forall t, c' t = c t ∪ docs_with_term [(d, transform_into_terms cast_utf8 cast_boolean ix "" row)] t) ->
  exists q, @inverted_query _ E ix (KwSearchLike col pattern) = Ok (XFilterExpr q) /\ d ∈ denote q c'.
Proof.
  intros Hcol Hbool Hrow Hne Hsub Hc.
  assert (tracked ix (name (column col)) = true) as Ht
    by (apply bool_decide_eq_true, elem_of_app; by left).
  assert (forall t, t ∈ like_words ix pattern -> d ∈ c' (resize_term t)) as Hin.
  { intros t Ht'. rewrite Hc, docs_with_term_cons. cbn [fst snd]. rewrite bool_decide_true; [set_solver|].
    apply list_elem_of_fmap_2. unfold transform_into_terms. apply list_elem_of_bind.
    exists (name (column col)). split; [|apply elem_of_app; by left].
    cbv beta. change ("" +:+ name (column col)) with (name (column col)). rewrite Hrow, Hbool, bool_decide_true by done. by apply Hsub. }
  unfold inverted_query. cbn [parse_filter_tree]. rewrite Ht. cbn [negb].
  fold (like_words ix pattern). destruct (like_words ix pattern) as [|t ts]; [done|]. cbn.
  eexists. split; [done|]. apply denote_intersect_all, Forall_forall. by intros x Hx; apply Hin.
Qed.

(** ** MATCH *)

Definition minus_words (ws : list text) : list text :=
  omap (fun w => match w with 45%Z :: str => Some str | _ => None end) ws.
Definition plus_words (ws : list text) : list text :=
  omap (fun w => match w with 43%Z :: str => Some str | _ => None end) ws.
Definition plain_words (ws : list text) : list text :=
  omap (fun w => match w with 45%Z :: _ | 43%Z :: _ => None | _ => Some w end) ws.

Definition has_word (c : bytes -> gset bytes) (d : bytes) (w : text) : Prop :=
  d ∈ c (resize_term (keyword_to_term w)).

(** What an optional query built by [combine] denotes. *)
Definition all_of (c : bytes -> gset bytes) (d : bytes) (q : option RawIndexQuery) (ws : list text) : Prop :=
  match q with Some q => ws <> [] /\ (d ∈ denote q c <-> Forall (has_word c d) ws) | None => ws = [] end.
Definition one_of (c : bytes -> gset bytes) (d : bytes) (q : option RawIndexQuery) (ws : list text) : Prop :=
  match q with Some q => ws <> [] /\ (d ∈ denote q c <-> Exists (has_word c d) ws) | None => ws = [] end.

Lemma all_of_snoc c d q ws w :
  all_of c d q ws -> all_of c d (combine QIntersect q (QTerm (keyword_to_term w))) (ws ++ [w]).
Proof.
  destruct q as [q|]; cbn.
  - intros [_ Hq]. split; [by destruct ws|]. rewrite elem_of_intersection, Hq, Forall_app, Forall_singleton. done.
  - intros ->. split; [done|]. cbn. by rewrite Forall_singleton.
Qed.

Lemma one_of_snoc c d q ws w :
  one_of c d q ws -> one_of c d (combine QUnion q (QTerm (keyword_to_term w))) (ws ++ [w]).
Proof.
  destruct q as [q|]; cbn.
  - intros [_ Hq]. split; [by destruct ws|]. rewrite elem_of_union, Hq, Exists_app, Exists_cons, Exists_nil.
    unfold has_word. tauto.
  - intros ->. split; [done|]. cbn. rewrite Exists_cons, Exists_nil. unfold has_word. tauto.
Qed.

Lemma match_keywords_spec c d ws :
  let m := foldl match_keyword {| excluded := None; must_be_included := None; can_be_included := None |} ws in
  all_of c d (excluded m) (minus_words ws) /\ all_of c d (must_be_included m) (plus_words ws) /\
  one_of c d (can_be_included m) (plain_words ws).
Proof.
  cbn zeta. induction ws as [|w ws (IHe & IHm & IHc)] using rev_ind; [done|].
  rewrite foldl_snoc. unfold minus_words, plus_words, plain_words in *. rewrite !omap_app.
  set (m := foldl _ _ ws) in *.
  assert (w = [] \/ (exists r, w = 45%Z :: r) \/ (exists r, w = 43%Z :: r) \/
    (match_keyword m w = {| excluded := excluded m; must_be_included := must_be_included m;
       can_be_included := combine QUnion (can_be_included m) (QTerm (keyword_to_term w)) |} /\
     match w with 45%Z :: str => Some str | _ => None end = None /\
     match w with 43%Z :: str => Some str | _ => None end = None /\
     match w with 45%Z :: _ | 43%Z :: _ => None | _ => Some w end = Some w)) as Hw.
  { destruct w as [|x r]; [by left|]. right.
    destruct (decide (x = 45%Z)) as [->|]; [eauto|]. destruct (decide (x = 43%Z)) as [->|]; [eauto|].
    right. right. cbn [match_keyword]. repeat (case_match; try done). }
  destruct Hw as [->|[(r & ->)|[(r & ->)|(-> & E1 & E2 & E3)]]];
    cbn [match_keyword omap list_omap excluded must_be_included can_be_included];
    rewrite ?E1, ?E2, ?E3, ?app_nil_r; auto using all_of_snoc, one_of_snoc.
Qed.

Lemma match_base_spec m plus plain :
  (forall c d, all_of c d (must_be_included m) plus) -> (forall c d, one_of c d (can_be_included m) plain) ->
  if bool_decide (plus = [] /\ plain = []) then exists msg, match_base m = Err (PlanError msg)
  else exists q, match_base m = Ok q /\
    forall c d, d ∈ denote q c <-> Forall (has_word c d) plus /\ (plain = [] \/ Exists (has_word c d) plain).
Proof.
  intros Hm Hc. unfold match_base, all_of, one_of in *.
  pose proof (Hm (fun _ => ∅) []) as Hm0. pose proof (Hc (fun _ => ∅) []) as Hc0.
  destruct (must_be_included m) as [qm|], (can_be_included m) as [qc|].
  - rewrite bool_decide_false by tauto. eexists. split; [reflexivity|]. intros c d. cbn [denote].
    specialize (Hm c d). specialize (Hc c d). rewrite elem_of_intersection. tauto.
  - rewrite bool_decide_false by tauto. eexists. split; [reflexivity|]. intros c d.
    specialize (Hm c d). specialize (Hc c d). tauto.
  - rewrite bool_decide_false by tauto. subst. eexists. split; [reflexivity|]. intros c d.
    specialize (Hc c d). rewrite Forall_nil. tauto.
  - rewrite bool_decide_true by tauto. eauto.
Qed.

(** what a MATCH filter selects, for every search string: the documents with
    all the [+] words and, when there are words without a sign, at least one of
    them, except those that hold every one of the [-] words; a search string with
    neither kind of positive word is rejected. *)
Theorem match_query_exact search_string :
  let ws := split_by (fun c => c =? 32)%Z (trim search_string) in
  if bool_decide (plus_words ws = [] /\ plain_words ws = []) then
    exists msg, match_query (match_terms search_string) = Err (PlanError msg)
  else
    exists q, match_query (match_terms search_string) = Ok q /\
      forall c d, d ∈ denote q c <->
        Forall (has_word c d) (plus_words ws) /\
        (plain_words ws = [] \/ Exists (has_word c d) (plain_words ws)) /\
        ~ (minus_words ws <> [] /\ Forall (has_word c d) (minus_words ws)).
Proof.
  cbn zeta. set (ws := split_by _ _). pose proof (fun c d => match_keywords_spec c d ws) as Hspec.
  cbn zeta in Hspec. fold (match_terms search_string) in Hspec. unfold match_query.
  pose proof (match_base_spec (match_terms search_string) (plus_words ws) (plain_words ws)
    ltac:(intros; apply Hspec) ltac:(intros; apply Hspec)) as Hbase.
  case_bool_decide; [by destruct Hbase as (msg & ->); eauto|].
  destruct Hbase as (q & -> & Hq). cbn [result_bind]. eexists. split; [reflexivity|]. intros c d.
  destruct (Hspec c d) as (He & _). unfold all_of in He. specialize (Hq c d).
  destruct (excluded _) as [qe|]; cbn [denote]; [rewrite elem_of_difference|]; tauto.
Qed.

(** with two [-] words, a document that holds one of them and not the other is
    still selected: the exclusions are intersected, while the search asks for
    documents that hold none of them. *)
Theorem match_exclusions_intersected :
  exists q, match_query (match_terms (chars "red -box -toy")) = Ok q /\
    forall c d, has_word c d (chars "red") -> has_word c d (chars "box") -> ~ has_word c d (chars "toy") ->
      d ∈ denote q c.
Proof.
  exists (QDifference (QTerm (keyword_to_term (chars "red")))
    (QIntersect (QTerm (keyword_to_term (chars "box"))) (QTerm (keyword_to_term (chars "toy"))))).
  split; [vm_compute; reflexivity|]. intros c d Hr Hb Ht. unfold has_word in *.
  cbn [denote]. rewrite elem_of_difference, elem_of_intersection. tauto.
Qed.

(** ** Updates *)

Definition short_terms (s : gset bytes) : Prop := set_Forall (fun t : bytes => length t <= MAX_TERM_SIZE) s.

Lemma resize_elements s t :
  short_terms s -> t ∈ resize_term <$> elements s <-> t ∈ s.
Proof.
  intros Hs. rewrite list_elem_of_fmap. setoid_rewrite elem_of_elements. split.
  - intros (x & -> & Hx). by rewrite resize_term_id by (by apply Hs).
  - intros Ht. exists t. by rewrite resize_term_id by (by apply Hs).
Qed.

(** an update leaves a document under exactly the terms of its new values,
    when it was under exactly those of its old values, and touches no other
    document. *)
Theorem update_diff_exact (d : bytes) (new old : gset bytes) (c : bytes -> gset bytes) :
  short_terms new -> short_terms old -> (forall t, d ∈ c t <-> t ∈ old) ->
  forall t d', d' ∈ updated t (c t) (d, diff_terms new old) <->
    (if bool_decide (d' = d) then t ∈ new else d' ∈ c t).
Proof.
  intros Hn Ho Hd t d'. unfold updated, diff_terms.
  assert (short_terms (new ∖ old)) as Hno by (intros x [Hx _]%elem_of_difference; by apply (Hn x)).
  assert (short_terms (old ∖ new)) as Hon by (intros x [Hx _]%elem_of_difference; by apply (Ho x)).
  rewrite (bool_decide_ext _ _ (resize_elements (new ∖ old) t Hno)).
  rewrite (bool_decide_ext _ _ (resize_elements (old ∖ new) t Hon)).
  specialize (Hd t). destruct (decide (t ∈ new)), (decide (t ∈ old));
    repeat case_bool_decide; subst; set_solver.
Qed.

(** ** Batches *)

Lemma extract_id_column_valid N ids :
  Forall (fun v => length v = N) ids -> extract_id_column N (Some <$> ids) = ids.
Proof.
  unfold extract_id_column. induction 1 as [|v ids Hv _ IH]; cbn; [done|].
  rewrite bool_decide_true by done. by rewrite IH.
Qed.

(** A column of terms with no null. *)
Definition full_terms (terms : list (list bytes)) : list (option (list (option bytes))) :=
  map (fun l => Some (map Some l)) terms.

Definition term_set (l : list bytes) : gset bytes := list_to_set l.

Lemma extract_terms_column_valid terms : extract_terms_column (full_terms terms) = map term_set terms.
Proof.
  unfold extract_terms_column, full_terms, term_set. induction terms as [|l terms IH]; cbn; [done|].
  f_equal; [|apply IH]. f_equal. induction l as [|x l IHl]; cbn; [done|]. by rewrite IHl.
Qed.

(** a batch whose identifiers are all present and of the right size gives
    each row its own terms. *)
Theorem insert_batch_rows N ids terms :
  Forall (fun v => length v = N) ids ->
  insert_batch N (Some <$> ids) (full_terms terms)
  = zip ids (map (fun l => elements (term_set l)) terms).
Proof.
  intros Hids. unfold insert_batch. rewrite extract_id_column_valid, extract_terms_column_valid by done.
  f_equal. apply map_map.
Qed.

(** a row without a usable identifier shifts the rest of its batch: the
    identifiers that are dropped are not dropped together with their terms, so
    the next row is indexed under the terms of the dropped one. *)
Theorem insert_batch_shifts N (d : bytes) (t t' : bytes) :
  length d = N ->
  insert_batch N [None; Some d] [Some [Some t]; Some [Some t']] = [(d, [t])].
Proof.
  intros Hd. unfold insert_batch, extract_id_column, extract_terms_column. cbn.
  rewrite bool_decide_true by done. rewrite union_empty_r_L. by rewrite elements_singleton.
Qed.

(** ** Boolean columns *)

(** boolean columns cannot be configured: the terms are copied into buffers
    that hold one byte, which panics for every column name that is not of length
    one, and for those gives one and the same term for both values. *)
Theorem boolean_terms_broken field_name :
  boolean_terms field_name =
  if bool_decide (length (string_bytes field_name) = 1)
  then Ok (string_bytes field_name, string_bytes field_name)
  else Err (Panic "copy_from_slice: source slice length does not match destination slice length").
Proof.
  unfold boolean_terms, copy_from_slice. cbn [length].
  rewrite (bool_decide_ext (1 = length (string_bytes field_name)) (length (string_bytes field_name) = 1))
    by naive_solver.
  case_bool_decide; done.
Qed.

(** ** Witnesses *)

Section Witnesses.
#[local] Existing Instances demo_aead demo_aead_laws demo_hkdf demo_hkdf_laws demo_metadata_codec
  demo_modifications_codec demo_page_codec ascii_unicode.

Definition demo_view : NodeView [] demo_table "ix" 4 demo_vocab demo_limit :=
  {| nv_state := demo_state; nv_db := demo_db demo_state; nv_cache := empty_cache;
     nv_serves := demo_serves demo_state demo_state_wf; nv_coherent := empty_cache_ok demo_state |}.

Definition demo_contract := node_contract [] demo_table "ix" 4 demo_size_ok demo_vocab demo_limit demo_limit_ok.
#[local] Existing Instance demo_contract.

Definition demo_id_column : IdColumn := {| id_name := "id"; id_is_number := true |}.

Lemma demo_fit : ids_fit demo_id_column 4.
Proof. intros _. lia. Qed.

Lemma demo_stored_ids t d : d ∈ raw_contents demo_view t -> length d = 4.
Proof.
  intros Hd. apply demo_universe_ok.
  apply (docs_with_term_known demo_vocab demo_universe demo_documents t demo_documents_known).
  by rewrite <- demo_state_contents.
Qed.

Definition demo_tree : ExecutableFilterTree :=
  XAnd (XFilterExpr (QTerm term_red)) (XFilterExpr (QTerm term_blue)).

Lemma conjunctive_filter_exact_witness :
  exists e, execute_filter demo_view demo_id_column 4 (simplify demo_tree) = Ok e /\
    forall r d, length d = 4 -> r "id" = Some (id_cell demo_id_column d) ->
      eval_sql r e = Some (tree_holds (matches (raw_contents demo_view) d) (simplify demo_tree)).
Proof.
  apply (conjunctive_filter_exact demo_view demo_id_column 4 demo_fit demo_stored_ids demo_tree).
  - reflexivity.
  - repeat constructor; by vm_compute.
Defined.

Lemma disjunction_swaps_answers_witness :
  tree_holds (matches (raw_contents demo_view) (demo_id 7))
    (XOr (XFilterExpr (QTerm term_red)) (XNot (XFilterExpr (QTerm term_blue)))) = true /\
  exists e, execute_filter demo_view demo_id_column 4
      (XOr (XFilterExpr (QTerm term_red)) (XNot (XFilterExpr (QTerm term_blue)))) = Ok e /\
    forall r, r "id" = Some (id_cell demo_id_column (demo_id 7)) -> eval_sql r e = Some false.
Proof.
  apply (disjunction_swaps_answers demo_view demo_id_column 4 demo_fit demo_stored_ids
    (QTerm term_red) (QTerm term_blue) (demo_id 7)).
  - repeat constructor; by vm_compute.
  - cbn [denote raw_contents demo_contract node_contract nv_state demo_view]. rewrite demo_state_contents.
    by vm_compute.
  - cbn [denote raw_contents demo_contract node_contract nv_state demo_view]. rewrite demo_state_contents.
    by vm_compute.
Defined.

Definition demo_index : InvertedIndex :=
  {| watched_string_columns := ["body"]; watched_boolean_columns := [];
     collation := {| CASE_INSENSITIVE := true; LENGTH_UNLIMITED := false; ALLOW_ALPHANUMERIC := false |} |}.

Lemma like_query_exact_witness :
  exists q, @inverted_query _ unit demo_index (KwSearchLike (cwc_raw "body") "%Red%box%") = Ok (XFilterExpr q) /\
    forall c d, d ∈ denote q c <->
      Forall (fun t => d ∈ c (resize_term t)) (like_words demo_index "%Red%box%").
Proof. exact (like_query_exact (E := unit) demo_index (cwc_raw "body") "%Red%box%" eq_refl). Defined.

Definition demo_row : string -> option ScalarValue :=
  fun c => if String.eqb c "body" then Some (SUtf8 (Some "A small, red BOX!")) else None.

Lemma like_finds_inserted_witness :
  exists q, @inverted_query _ unit demo_index (KwSearchLike (cwc_raw "body") "%Red%box%") = Ok (XFilterExpr q) /\
    demo_id 7 ∈ denote q (fun t => ∅ ∪ docs_with_term
      [(demo_id 7, transform_into_terms (fun _ => None) (fun _ => None) demo_index "" demo_row)] t).
Proof.
  apply (like_finds_inserted (E := unit) (fun _ => None) (fun _ => None) demo_index (cwc_raw "body") "%Red%box%" demo_row
    "A small, red BOX!" (demo_id 7) (fun _ => ∅)).
  - vm_compute. left.
  - reflexivity.
  - reflexivity.
  - by vm_compute.
  - by apply (bool_decide_unpack _); vm_compute.
  - reflexivity.
Defined.

Definition demo_before (t : bytes) : gset bytes := if bool_decide (t = term_red) then {[demo_id 7]} else ∅.

Lemma update_diff_exact_witness :
  demo_id 7 ∈ updated term_blue (demo_before term_blue) (demo_id 7, diff_terms {[term_blue]} {[term_red]})
  <-> (if bool_decide (demo_id 7 = demo_id 7) then term_blue ∈ ({[term_blue]} : gset bytes)
       else demo_id 7 ∈ demo_before term_blue).
Proof.
  refine (update_diff_exact (demo_id 7) {[term_blue]} {[term_red]} demo_before _ _ _ term_blue (demo_id 7)).
  - intros t ->%elem_of_singleton. vm_compute. lia.
  - intros t ->%elem_of_singleton. vm_compute. lia.
  - intros t. unfold demo_before. case_bool_decide; set_solver.
Defined.

Lemma insert_batch_rows_witness :
  insert_batch 4 (Some <$> [demo_id 7; demo_id 9]) (full_terms [[term_red]; [term_blue]])
  = [(demo_id 7, [term_red]); (demo_id 9, [term_blue])].
Proof.
  rewrite (insert_batch_rows 4 [demo_id 7; demo_id 9] [[term_red]; [term_blue]]); [by vm_compute|].
  repeat constructor.
Defined.

Lemma insert_batch_shifts_witness :
  insert_batch 4 [None; Some (demo_id 9)] [Some [Some term_red]; Some [Some term_blue]]
  = [(demo_id 9, [term_red])].
Proof. apply (insert_batch_shifts 4 (demo_id 9) term_red term_blue). reflexivity. Defined.
End Witnesses.
