(* ===== verification/Transactions.v ===== *)
(** * Transaction control of a session

    Models [backends/mysql/src/transaction_control.rs]. The proxy wraps its own
    multi-statement operations (an insertion and the update of its indices) in
    "weak" transactions that nest, and steps aside when the client has opened a
    transaction itself. The connection is the list of the statements sent so far;
    a statement the server refuses makes the code panic ([unwrap]). What the
    statements mean on the server is the specification [replay], with the
    statements that commit implicitly (definitions of data, LOCK TABLES), which the
    plans of the proxy send on the same connection without telling the
    transaction control. *)
From S2P Require Import Prelude.

(** ** State *)

Inductive IsolationLevel := ReadUncommitted | ReadCommitted | RepeatableRead | Serializable.

Inductive TransactionStatus := Forced | Weak (depth : Z).

Record TransactionControlInner := {
  autocommit : bool;
  current_transaction : option TransactionStatus;
  isolation_level : IsolationLevel
}.

Definition transaction_control_default : TransactionControlInner := {|
  autocommit := true; current_transaction := None; isolation_level := RepeatableRead
|}.

Section Control.
(** [W] is a statement that writes data, or one that commits implicitly. *)
Context {W : Type}.

Inductive Stmt :=
  | Commit | Rollback | StartTransaction
  | SetAutocommit (b : bool) | SetIsolation (l : IsolationLevel)
  | Write (w : W)
  | Implicit (w : W).

(** Whether the server accepts a statement after those sent before. *)
Variable accepts : list Stmt -> Stmt -> bool.

Definition query_drop (conn : list Stmt) (s : Stmt) : result (list Stmt) :=
  if accepts conn s then Ok (conn ++ [s]) else Err (Panic "called unwrap on an Err value").

Definition with_transaction (st : TransactionControlInner) (t : option TransactionStatus) :
    TransactionControlInner :=
  {| autocommit := autocommit st; current_transaction := t; isolation_level := isolation_level st |}.

Abbreviation State := (TransactionControlInner * list Stmt)%type.

(** ** Operations *)

Definition commit (s : State) : result State :=
  let? conn := query_drop s.2 Commit in
  Ok (with_transaction s.1 None, conn).

Definition rollback (s : State) : result State :=
  let? conn := query_drop s.2 Rollback in
  Ok (with_transaction s.1 None, conn).

Definition start_transaction (s : State) : result State :=
  let? s := commit s in
  let? conn := query_drop s.2 StartTransaction in
  Ok (with_transaction s.1 (Some Forced), conn).

Definition set_autocommit (b : bool) (s : State) : result State :=
  let? s := if b then commit s else Ok s in
  let st := {| autocommit := b; current_transaction := None; isolation_level := isolation_level s.1 |} in
  let? conn := query_drop s.2 (SetAutocommit b) in
  Ok (st, conn).

Definition weak_commit (s : State) : result State :=
  match autocommit s.1, current_transaction s.1 with
  | true, Some (Weak depth) =>
      if (0 <? depth)%Z then
        let depth := (depth - 1)%Z in
        if (depth =? 0)%Z then
          let? conn := query_drop s.2 Commit in
          Ok (with_transaction s.1 None, conn)
        else Ok (with_transaction s.1 (Some (Weak depth)), s.2)
      else Ok s
  | _, _ => Ok s
  end.

Definition weak_rollback (s : State) : result State :=
  match autocommit s.1, current_transaction s.1 with
  | true, Some (Weak _) =>
      let? conn := query_drop s.2 Rollback in
      Ok (with_transaction s.1 None, conn)
  | _, _ => Ok s
  end.

Definition weak_start_transaction (s : State) : result State :=
  match autocommit s.1, current_transaction s.1 with
  | true, Some (Weak depth) => Ok (with_transaction s.1 (Some (Weak (wrap_u 32 (depth + 1)))), s.2)
  | true, None =>
      let? conn := query_drop s.2 StartTransaction in
      Ok (with_transaction s.1 (Some (Weak 1)), conn)
  | _, _ => Ok s
  end.

Definition set_isolation_level (l : IsolationLevel) (s : State) : result State :=
  let st := {| autocommit := autocommit s.1; current_transaction := current_transaction s.1;
               isolation_level := l |} in
  let? conn := query_drop s.2 (SetIsolation l) in
  Ok (st, conn).

(** What a session does: the operations above, and the writes and the statements with
    an implicit commit that plans send on the connection. *)
Inductive Op :=
  | OCommit | ORollback | OStart | OSetAutocommit (b : bool) | OSetIsolation (l : IsolationLevel)
  | OWeakStart | OWeakCommit | OWeakRollback
  | OWrite (w : W)
  | OImplicit (w : W).

Definition step (s : State) (op : Op) : result State :=
  match op with
  | OCommit => commit s
  | ORollback => rollback s
  | OStart => start_transaction s
  | OSetAutocommit b => set_autocommit b s
  | OSetIsolation l => set_isolation_level l s
  | OWeakStart => weak_start_transaction s
  | OWeakCommit => weak_commit s
  | OWeakRollback => weak_rollback s
  | OWrite w => let? conn := query_drop s.2 (Write w) in Ok (s.1, conn)
  | OImplicit w => let? conn := query_drop s.2 (Implicit w) in Ok (s.1, conn)
  end.

Definition run (s : State) (ops : list Op) : result State := result_foldl step s ops.

(** ** The server's view

    A session of the server: whether each write commits by itself, whether a
    transaction is open, the writes committed and those that are not yet. *)
Record Session := {
  s_autocommit : bool; s_in_transaction : bool;
  committed : list W; pending : list W
}.

Definition session_new : Session :=
  {| s_autocommit := true; s_in_transaction := false; committed := []; pending := [] |}.

Definition apply_stmt (x : Session) (s : Stmt) : Session :=
  match s with
  | Commit => {| s_autocommit := s_autocommit x; s_in_transaction := false;
                 committed := committed x ++ pending x; pending := [] |}
  | Rollback => {| s_autocommit := s_autocommit x; s_in_transaction := false;
                   committed := committed x; pending := [] |}
  | StartTransaction => {| s_autocommit := s_autocommit x; s_in_transaction := true;
                           committed := committed x ++ pending x; pending := [] |}
  | SetAutocommit b =>
      if b && negb (s_autocommit x) then
        {| s_autocommit := true; s_in_transaction := false;
           committed := committed x ++ pending x; pending := [] |}
      else {| s_autocommit := b; s_in_transaction := s_in_transaction x;
              committed := committed x; pending := pending x |}
  | SetIsolation _ => x
  | Write w =>
      if s_in_transaction x || negb (s_autocommit x) then
        {| s_autocommit := s_autocommit x; s_in_transaction := s_in_transaction x;
           committed := committed x; pending := pending x ++ [w] |}
      else {| s_autocommit := s_autocommit x; s_in_transaction := s_in_transaction x;
              committed := committed x ++ [w]; pending := pending x |}
  | Implicit w => {| s_autocommit := s_autocommit x; s_in_transaction := false;
                     committed := committed x ++ pending x ++ [w]; pending := [] |}
  end.

Definition replay (conn : list Stmt) : Session := foldl apply_stmt session_new conn.
Arguments replay : simpl never.

(** ** The proxy knows the state of the server *)

(** A transaction that a statement with an implicit commit has ended, with no
    statement on transactions after it. *)
Definition keeps_transaction (s : Stmt) : Prop :=
  match s with SetIsolation _ | Write _ | Implicit _ => True | _ => False end.

Definition ended_implicitly (conn : list Stmt) : Prop :=
  exists before w after, conn = before ++ Implicit w :: after /\
    s_in_transaction (replay before) = true /\ Forall keeps_transaction after.

(** With autocommit on, a transaction of the server is recorded, and a recorded one
    is open unless it was ended by an implicit commit; nothing is pending outside of
    one; a weak transaction has a positive depth and only exists with autocommit on. *)
Record in_sync (s : State) : Prop := {
  sync_autocommit : s_autocommit (replay s.2) = autocommit s.1;
  sync_open : autocommit s.1 = true -> s_in_transaction (replay s.2) = true ->
    is_Some (current_transaction s.1);
  sync_recorded : autocommit s.1 = true -> is_Some (current_transaction s.1) ->
    s_in_transaction (replay s.2) = true \/ ended_implicitly s.2;
  sync_pending : autocommit s.1 = true -> s_in_transaction (replay s.2) = false -> pending (replay s.2) = [];
  sync_weak : forall d, current_transaction s.1 = Some (Weak d) ->
    autocommit s.1 = true /\ (0 < d < 2 ^ 32)%Z
}.

Lemma replay_snoc conn s : replay (conn ++ [s]) = apply_stmt (replay conn) s.
Proof. unfold replay. by rewrite foldl_app. Qed.

Lemma query_drop_inv conn s conn' : query_drop conn s = Ok conn' -> conn' = conn ++ [s].
Proof. unfold query_drop. case_match; [by intros [= <-]|done]. Qed.

(** The nesting depth stays below [u32::MAX]. *)
Definition depth_ok (s : State) : Prop :=
  forall d, current_transaction s.1 = Some (Weak d) -> (d < 2 ^ 32 - 1)%Z.

Ltac inv_query := repeat match goal with
  | H : query_drop _ _ = Ok _ |- _ => apply query_drop_inv in H as ->
  end.

Lemma ended_snoc conn s : keeps_transaction s -> ended_implicitly conn -> ended_implicitly (conn ++ [s]).
Proof.
  intros Hs (before & w & after & -> & Hb & Ha). exists before, w, (after ++ [s]).
  split; [by rewrite <- app_assoc|]. split; [done|]. apply Forall_app. by split; [|constructor].
Qed.

Lemma in_sync_committed (s : State) conn :
  in_sync s -> query_drop s.2 Commit = Ok conn -> in_sync (with_transaction s.1 None, conn).
Proof.
  intros [Ha _ _ _ _] Hq. inv_query. split; cbn; rewrite ?replay_snoc; cbn; try done; by intros _ [].
Qed.

Lemma in_sync_rolled_back (s : State) conn :
  in_sync s -> query_drop s.2 Rollback = Ok conn -> in_sync (with_transaction s.1 None, conn).
Proof.
  intros [Ha _ _ _ _] Hq. inv_query. split; cbn; rewrite ?replay_snoc; cbn; try done; by intros _ [].
Qed.

(** A statement that the transaction control does not see. *)
Lemma in_sync_sent (s : State) st conn :
  keeps_transaction st -> in_sync s -> query_drop s.2 st = Ok conn -> in_sync (s.1, conn).
Proof.
  intros Hk [Ha Ho Hr Hp Hw] Hq. inv_query. destruct st; try done; split; cbn; rewrite ?replay_snoc; cbn; try done.
  - intros Hac Hx. destruct (Hr Hac Hx) as [->|?]; [by left|right; by apply ended_snoc].
  - by case_match.
  - case_match; cbn; [done|]. intros Hac. by apply Ho.
  - intros Hac Hx. destruct (Hr Hac Hx) as [Ht|?]; [left|right; by apply ended_snoc].
    rewrite Ht. by cbn.
  - intros Hac. rewrite Ha, Hac, orb_false_r. destruct (s_in_transaction (replay s.2)) eqn:Ht; cbn; [congruence|].
    intros _. by apply Hp.
  - intros Hac Hx. destruct (Hr Hac Hx) as [Ht|?]; right; [|by apply ended_snoc].
    by exists s.2, w, [].
Qed.

Lemma in_sync_step (s s' : State) op : in_sync s -> depth_ok s -> step s op = Ok s' -> in_sync s'.
Proof.
  intros Hs Hd. pose proof Hs as [Ha Ho Hr Hp Hw]. destruct s as [[ac tx iso] conn]. cbn in *.
  destruct op; cbn; intros Hstep.
  - unfold commit in Hstep. inv_ok. by eapply (in_sync_committed (_, conn)).
  - unfold rollback in Hstep. inv_ok. by eapply (in_sync_rolled_back (_, conn)).
  - unfold start_transaction, commit in Hstep. inv_ok. cbn in *. inv_query.
    split; cbn; rewrite ?replay_snoc; cbn; try done; by left.
  - unfold set_autocommit in Hstep. inv_ok. destruct b; unfold commit in *; inv_ok; cbn in *; inv_query.
    + split; cbn; rewrite ?replay_snoc; cbn; try done; try (by intros _ []); by destruct (s_autocommit _).
    + split; cbn; rewrite ?replay_snoc; cbn; done.
  - unfold set_isolation_level in Hstep. inv_ok.
    destruct (in_sync_sent _ (SetIsolation l) _ I Hs E) as [Ha' Ho' Hr' Hp' Hw']. by split.
  - unfold weak_start_transaction in Hstep. cbn in Hstep.
    destruct ac; [|by inv_ok]. destruct tx as [[|d]|]; inv_ok; [done| |].
    + destruct (Hw d eq_refl) as [_ Hd1]. pose proof (Hd d eq_refl) as Hd2.
      split; cbn; try done; [by intros _ _; apply Hr; [|eexists]|]. intros ? [= <-]. rewrite wrap_u_id by (unfold fits_u; lia). split; [done|lia].
    + inv_query. split; cbn; rewrite ?replay_snoc; cbn; try done; [by left|].
      intros ? [= <-]. split; [done|lia].
  - unfold weak_commit in Hstep. cbn in Hstep.
    destruct ac; [|by inv_ok]. destruct tx as [[|d]|]; try by inv_ok.
    destruct (Hw d eq_refl) as [_ Hd1]. destruct (Z.ltb_spec 0 d); [|by inv_ok].
    destruct (Z.eqb_spec (d - 1) 0).
    + inv_ok. by eapply (in_sync_committed (_, conn)).
    + inv_ok. split; cbn; try done; [by intros _ _; apply Hr; [|eexists]|]. intros ? [= <-]. split; [done|lia].
  - unfold weak_rollback in Hstep. cbn in Hstep.
    destruct ac; [|by inv_ok]. destruct tx as [[|d]|]; try by inv_ok.
    inv_ok. by eapply (in_sync_rolled_back (_, conn)).
  - inv_ok. by apply (in_sync_sent _ (Write w) _ I Hs).
  - inv_ok. by apply (in_sync_sent _ (Implicit w) _ I Hs).
Qed.

(** A session that records no transaction has none open, and nothing pending. *)
Lemma in_sync_idle (s : State) :
  in_sync s -> autocommit s.1 = true -> current_transaction s.1 = None ->
  s_in_transaction (replay s.2) = false /\ pending (replay s.2) = [].
Proof.
  intros [_ Ho _ Hp _] Hac Htx. assert (s_in_transaction (replay s.2) = false) as Ht.
  { destruct (s_in_transaction (replay s.2)); [|done]. destruct (Ho Hac eq_refl) as [x Hx]. congruence. }
  split; [done|by apply Hp].
Qed.

(** States reached from a new session in a number of operations. *)
Inductive reachable : nat -> State -> Prop :=
  | reach_new : reachable 0 (transaction_control_default, [])
  | reach_step n s op s' : reachable n s -> step s op = Ok s' -> reachable (S n) s'.

Lemma step_depth (s s' : State) op n :
  (forall d, current_transaction s.1 = Some (Weak d) -> 0 < d <= n)%Z -> (0 <= n < 2 ^ 32 - 1)%Z ->
  step s op = Ok s' ->
  (forall d, current_transaction s'.1 = Some (Weak d) -> d <= n + 1)%Z.
Proof.
  intros Hd Hn. destruct s as [[ac tx iso] conn]. cbn in Hd.
  destruct op; cbn;
    unfold commit, rollback, start_transaction, set_autocommit, set_isolation_level,
      weak_start_transaction, weak_commit, weak_rollback, commit; cbn; intros Hs d Hd';
    repeat (case_match; simplify_eq/=); inv_ok; cbn in *; simplify_eq;
    try (specialize (Hd _ eq_refl)); try lia.
  rewrite wrap_u_id by (unfold fits_u; lia). lia.
Qed.

Lemma reachable_inv n s :
  reachable n s -> (Z.of_nat n < 2 ^ 32 - 1)%Z ->
  in_sync s /\ forall d, current_transaction s.1 = Some (Weak d) -> (d <= Z.of_nat n)%Z.
Proof.
  induction 1 as [|n s op s' Hr IH Hs]; intros Hn.
  - split; [split|]; try done. by intros _ [].
  - destruct IH as [Hsync Hd]; [lia|]. split.
    + eapply in_sync_step; [done| |done]. intros d Hd'. specialize (Hd d Hd'). lia.
    + intros d Hd'. replace (Z.of_nat (S n)) with (Z.of_nat n + 1)%Z by lia.
      eapply (step_depth s s' op); [|lia|done|done]. intros e He.
      split; [by apply (sync_weak s Hsync)|by apply Hd].
Qed.

(** ** Weak transactions are atomic *)

(** Writes and nested weak transactions that are all committed. *)
Inductive balanced : list Op -> Prop :=
  | bal_nil : balanced []
  | bal_write w l : balanced l -> balanced (OWrite w :: l)
  | bal_nest l1 l2 : balanced l1 -> balanced l2 -> balanced (OWeakStart :: l1 ++ OWeakCommit :: l2).

Definition writes (l : list Op) : list W := omap (fun op => match op with OWrite w => Some w | _ => None end) l.

Lemma run_app s l1 l2 : run s (l1 ++ l2) = (let? s := run s l1 in run s l2).
Proof.
  unfold run. revert s. induction l1 as [|op l1 IH]; intros s; [done|]. cbn.
  destruct (step s op); [apply IH|done].
Qed.

(** Inside a weak transaction of depth [d], balanced operations only add to what
    is pending, and leave the depth as it is. *)
Definition weak_state (iso : IsolationLevel) (d : Z) (conn : list Stmt) : State :=
  ({| autocommit := true; current_transaction := Some (Weak d); isolation_level := iso |}, conn).

Lemma balanced_run l :
  balanced l -> forall iso d conn s',
  (0 < d)%Z -> (d + Z.of_nat (length l) < 2 ^ 32)%Z -> s_in_transaction (replay conn) = true ->
  run (weak_state iso d conn) l = Ok s' ->
  s' = weak_state iso d (conn ++ map Write (writes l)).
Proof.
  induction 1 as [|w l _ IH|l1 l2 _ IH1 _ IH2]; intros iso d conn s' Hd Hl Ht Hr.
  - cbn in Hr. inv_ok. by rewrite app_nil_r.
  - cbn in Hr. inv_ok. inv_query. cbn [length] in Hl.
    apply IH in Hr as ->; [|done|lia|by rewrite replay_snoc; cbn; rewrite Ht].
    by rewrite <- app_assoc.
  - change (OWeakStart :: l1 ++ OWeakCommit :: l2) with ([OWeakStart] ++ l1 ++ [OWeakCommit] ++ l2) in *.
    rewrite !length_app in Hl. cbn [length] in Hl.
    rewrite run_app in Hr. cbn in Hr. rewrite wrap_u_id in Hr by (unfold fits_u; lia).
    change (_, conn) with (weak_state iso (d + 1) conn) in Hr.
    rewrite (run_app _ l1 (OWeakCommit :: l2)) in Hr. inv_ok.
    apply IH1 in E as ->; [|lia|lia|done]. cbn in Hr.
    rewrite (proj2 (Z.ltb_lt 0 (d + 1))) in Hr by lia. cbn in Hr.
    replace (d + 1 - 1)%Z with d in Hr by lia. rewrite (proj2 (Z.eqb_neq d 0)) in Hr by lia.
    cbn in Hr. change (_, conn ++ _) with (weak_state iso d (conn ++ map Write (writes l1))) in Hr.
    apply IH2 in Hr as ->; [|done|lia|].
    + f_equal. unfold writes. rewrite !omap_app. cbn. by rewrite map_app, <- app_assoc.
    + clear -Ht. induction (writes l1) as [|w ws IH] using rev_ind; [by rewrite app_nil_r|].
      rewrite map_app, app_assoc. cbn. rewrite replay_snoc. cbn. by rewrite IH.
Qed.

Lemma replay_writes conn ws :
  s_in_transaction (replay conn) = true ->
  replay (conn ++ map Write ws)
  = {| s_autocommit := s_autocommit (replay conn); s_in_transaction := true;
       committed := committed (replay conn); pending := pending (replay conn) ++ ws |}.
Proof.
  intros Ht. induction ws as [|w ws IH] using rev_ind.
  - rewrite app_nil_r, app_nil_r. destruct (replay conn). cbn in *. by subst.
  - rewrite map_app, app_assoc. cbn. rewrite replay_snoc, IH. cbn. by rewrite app_assoc.
Qed.

(** C15: In every state that a session can reach the record of the proxy is safe to
    rely on: autocommit is the server's; with autocommit on, an open transaction of
    the server is recorded and nothing is pending outside of one; a recorded
    transaction is open, unless a statement with an implicit commit was sent within
    it and nothing on transactions since; and a weak transaction has a depth of at
    least one. *)
Theorem transactions_in_sync n (s : State) :
  reachable n s -> (Z.of_nat n < 2 ^ 32 - 1)%Z -> in_sync s.
Proof. intros Hr Hn. by apply (reachable_inv n s Hr). Qed.

(** Operations in a weak transaction that stop within [k] nested ones. *)
Inductive unfinished : nat -> list Op -> Prop :=
  | unf_balanced l : balanced l -> unfinished 0 l
  | unf_nested k l1 l2 : balanced l1 -> unfinished k l2 -> unfinished (Datatypes.S k) (l1 ++ OWeakStart :: l2).

Lemma in_transaction_writes conn ws :
  s_in_transaction (replay conn) = true -> s_in_transaction (replay (conn ++ map Write ws)) = true.
Proof. intros Ht. by rewrite replay_writes. Qed.

Lemma unfinished_run k l :
  unfinished k l -> forall iso d conn s',
  (0 < d)%Z -> (d + Z.of_nat (length l) < 2 ^ 32)%Z -> s_in_transaction (replay conn) = true ->
  run (weak_state iso d conn) l = Ok s' ->
  s' = weak_state iso (d + Z.of_nat k) (conn ++ map Write (writes l)).
Proof.
  induction 1 as [l Hb|k l1 l2 Hb _ IH]; intros iso d conn s' Hd Hl Ht Hr.
  - rewrite Z.add_0_r. by apply balanced_run.
  - rewrite length_app in Hl. cbn [length] in Hl. rewrite run_app in Hr.
    apply result_bind_ok in Hr as (s1 & H1 & Hr). apply (balanced_run l1 Hb) in H1 as ->; [|lia|lia|done].
    cbn in Hr. rewrite wrap_u_id in Hr by (unfold fits_u; lia).
    change (_, conn ++ _) with (weak_state iso (d + 1) (conn ++ map Write (writes l1))) in Hr.
    apply IH in Hr as ->; [|lia|lia|by apply in_transaction_writes].
    unfold writes. rewrite omap_app. cbn. rewrite map_app, <- app_assoc. f_equal. lia.
Qed.

(** Rollbacks without a transaction do nothing. *)
Lemma rollbacks_idle j (s : State) :
  current_transaction s.1 = None -> run s (replicate j OWeakRollback) = Ok s.
Proof.
  intros Hs. induction j as [|j IH]; [done|]. cbn. unfold weak_rollback. rewrite Hs.
  by destruct (autocommit s.1).
Qed.

(** What a weak transaction does when the server accepts its statements; a refused
    statement makes [run] fail. *)
Lemma weak_transaction_effect n k (s s1 : State) (body : list Op) :
  reachable n s -> (Z.of_nat n < 2 ^ 32 - 1)%Z -> autocommit s.1 = true ->
  current_transaction s.1 = None ->
  unfinished k body -> (1 + Z.of_nat (length body) < 2 ^ 32)%Z ->
  run s (OWeakStart :: body) = Ok s1 ->
  committed (replay s1.2) = committed (replay s.2) /\
  (k = 0 -> forall s2, run s1 [OWeakCommit] = Ok s2 ->
     committed (replay s2.2) = committed (replay s.2) ++ writes body /\
     pending (replay s2.2) = [] /\ current_transaction s2.1 = None) /\
  (forall j s2, run s1 (OWeakRollback :: replicate j OWeakRollback) = Ok s2 ->
     committed (replay s2.2) = committed (replay s.2) /\
     pending (replay s2.2) = [] /\ current_transaction s2.1 = None).
Proof.
  intros Hr Hn Hac Htx Hb Hl Hrun. destruct (reachable_inv n s Hr Hn) as [Hsync _].
  destruct (in_sync_idle s Hsync Hac Htx) as [_ Hp].
  destruct s as [[ac tx iso] conn]. cbn in *. subst. cbn in Hrun. inv_ok. inv_query.
  set (conn1 := conn ++ [StartTransaction]) in *.
  assert (s_in_transaction (replay conn1) = true) as Ht by (unfold conn1; by rewrite replay_snoc).
  change (with_transaction _ _, conn1) with (weak_state iso 1 conn1) in Hrun.
  apply (unfinished_run k body Hb) in Hrun as ->; [|lia|lia|done].
  assert (committed (replay conn1) = committed (replay conn) /\ pending (replay conn1) = []) as [Hc Hp1].
  { unfold conn1. rewrite replay_snoc. cbn. by rewrite Hp, app_nil_r. }
  split; [cbn; by rewrite replay_writes|]. split.
  - intros -> s2 Hend. change (1 + Z.of_nat 0)%Z with 1%Z in Hend. cbn in Hend.
    change (1 - 1 =? 0)%Z with true in Hend. cbn in Hend. inv_ok. inv_query. cbn.
    rewrite replay_snoc, replay_writes by done. cbn. by rewrite Hc, Hp1.
  - intros j s2 Hend. pose proof (eq_trans (eq_sym (run_app _ [OWeakRollback] (replicate j OWeakRollback))) Hend) as Hend'. clear Hend.
    apply result_bind_ok in Hend' as (s3 & H3 & Hend). cbn in H3. inv_ok. inv_query.
    rewrite rollbacks_idle in Hend by done. injection Hend as <-. cbn.
    rewrite replay_snoc, replay_writes by done. cbn. by rewrite Hc.
Qed.

(** While the server accepts statements the operations return. *)
Lemma step_returns (s : State) op : (forall conn st, accepts conn st = true) -> exists s', step s op = Ok s'.
Proof.
  intros Ha. destruct op; cbn; unfold commit, rollback, start_transaction, set_autocommit, set_isolation_level,
    weak_start_transaction, weak_commit, weak_rollback, commit, query_drop; cbn; rewrite ?Ha; cbn;
    rewrite ?Ha; repeat (case_match; cbn; rewrite ?Ha); eauto.
Qed.

Lemma run_returns (s : State) ops : (forall conn st, accepts conn st = true) -> exists s', run s ops = Ok s'.
Proof.
  intros Ha. unfold run. revert s. induction ops as [|op ops IH]; intros s; [by eexists|]. cbn.
  destruct (step_returns s op Ha) as [s1 ->]. apply IH.
Qed.

(** C16: With autocommit on and no transaction open, a weak transaction returns while
    the server accepts statements, and is atomic: until its end nothing of it is
    committed; when all nested transactions are committed its commit commits exactly
    its writes, in order; and when it stops anywhere, within any number of nested
    transactions, a rollback followed by the rollbacks of the enclosing ones leaves
    the committed writes as they were. No transaction is left open either way. *)
Theorem weak_transaction_atomic n k (s : State) (body : list Op) :
  (forall conn st, accepts conn st = true) ->
  reachable n s -> (Z.of_nat n < 2 ^ 32 - 1)%Z -> autocommit s.1 = true ->
  current_transaction s.1 = None ->
  unfinished k body -> (1 + Z.of_nat (length body) < 2 ^ 32)%Z ->
  exists s1, run s (OWeakStart :: body) = Ok s1 /\ committed (replay s1.2) = committed (replay s.2) /\
    (k = 0 -> exists s2, run s1 [OWeakCommit] = Ok s2 /\
       committed (replay s2.2) = committed (replay s.2) ++ writes body /\
       pending (replay s2.2) = [] /\ current_transaction s2.1 = None) /\
    (forall j, exists s3, run s1 (OWeakRollback :: replicate j OWeakRollback) = Ok s3 /\
       committed (replay s3.2) = committed (replay s.2) /\
       pending (replay s3.2) = [] /\ current_transaction s3.1 = None).
Proof.
  intros Ha Hr Hn Hac Htx Hb Hl. destruct (run_returns s (OWeakStart :: body) Ha) as [s1 H1].
  destruct (weak_transaction_effect n k s s1 body) as (Hc & Hcommit & Hroll); try done.
  exists s1. split; [done|]. split; [done|]. split.
  - intros Hk. destruct (run_returns s1 [OWeakCommit] Ha) as [s2 H2]. exists s2. by split; [|apply Hcommit].
  - intros j. destruct (run_returns s1 (OWeakRollback :: replicate j OWeakRollback) Ha) as [s3 H3].
    exists s3. by split; [|apply (Hroll j)].
Qed.
End Control.

(** ** Concrete sessions *)

Definition demo_run (ops : list (Op (W := nat))) : result (TransactionControlInner * list (Stmt (W := nat))) :=
  run (fun _ _ => true) (transaction_control_default, []) ops.

Lemma demo_run_reachable ops s : demo_run ops = Ok s -> reachable (fun _ _ => true) (length ops) s.
Proof.
  revert s. induction ops as [|op ops IH] using rev_ind; intros s Hs.
  - injection Hs as <-. apply reach_new.
  - unfold demo_run in *. rewrite run_app in Hs. apply result_bind_ok in Hs as (s1 & H1 & Hs).
    rewrite length_app, Nat.add_1_r. apply (reach_step _ _ s1 op); [by apply IH|].
    cbn in Hs. by destruct (step _ s1 op).
Qed.

(** A transaction of the client, with a definition of data in it. *)
Lemma transactions_in_sync_witness :
  exists s, demo_run [OStart; OWrite 7; OImplicit 8] = Ok s /\ in_sync s /\
    current_transaction s.1 = Some Forced /\ s_in_transaction (replay s.2) = false.
Proof.
  eexists. split; [reflexivity|]. split; [|by split].
  apply (transactions_in_sync (fun _ _ => true) 3); [|lia]. by apply (demo_run_reachable [OStart; OWrite 7; OImplicit 8]).
Defined.

Lemma weak_transaction_atomic_witness :
  exists s1 s3 : TransactionControlInner * list (Stmt (W := nat)),
    demo_run [OWeakStart; OWrite 7; OWeakStart; OWrite 8] = Ok s1 /\
    run (fun _ _ => true) s1 [OWeakRollback; OWeakRollback] = Ok s3 /\ committed (replay s3.2) = [].
Proof.
  destruct (weak_transaction_atomic (fun _ _ => true) 0 1 (transaction_control_default, [])
    [OWrite 7; OWeakStart; OWrite 8]) as (s1 & H1 & _ & _ & Hroll); try reflexivity; try lia.
  - apply reach_new.
  - apply (unf_nested 0 [OWrite 7] [OWrite 8]); repeat constructor.
  - destruct (Hroll 1) as (s3 & H3 & Hc & _). by exists s1, s3.
Defined.

(** After an implicit commit in a transaction of the client, the proxy still records
    the transaction and does not open one for a statement of several writes: when the
    second write fails, its rollback does nothing and the first one stays. *)
Theorem implicit_commit_breaks_atomicity :
  exists s, demo_run [OStart; OImplicit 1; OWeakStart; OWrite 2; OWeakRollback] = Ok s /\
    committed (replay s.2) = [1; 2].
Proof. eexists. split; reflexivity. Qed.

(** A nested transaction that is rolled back rolls back the enclosing one and forgets
    it: an operation that goes on writes outside of any transaction, and its commit
    does nothing. *)
Theorem inner_rollback_ends_outer :
  exists s, demo_run [OWeakStart; OWrite 1; OWeakStart; OWrite 2; OWeakRollback; OWrite 3; OWeakCommit] = Ok s /\
    committed (replay s.2) = [3] /\ pending (replay s.2) = [].
Proof. eexists. split; [reflexivity|by split]. Qed.
