(* ===== verification/PlanCache.v ===== *)
(** * Sessions and their plan cache

    Models [proxy/src/cache.rs] and [proxy/src/session.rs]. The logical plans of
    statements are kept, least recently used first out, within an approximate
    memory budget; a session holds such a cache and its prepared statements. The
    cache is the list of its entries in iteration order; the clock is an argument
    of the operations; planning ([statement_to_plan], [optimize]), execution and
    the sizes of the nodes of statements and plans belong to DataFusion and are
    parameters. The state of a session is what planning reads: its configuration
    and the catalog, which it shares with the other connections; executing a plan
    (to the end of its stream) may change it, as DDL does, and so may another
    connection. A session serves one connection, so its locks are never held when
    it takes them. *)
From S2P Require Import Prelude.

Definition MAX_CACHEABLE_STATEMENT_SIZE : Z := 16 * 1024.
Definition QUERY_CACHE_SIZE : Z := 1048576.

Section PlanCache.
Context {Statement LogicalPlan SessionState : Type} `{!EqDecision Statement}.
Context {ExecutionPlan Stream DataType Fields ParamValues : Type}.
(** [size_of_val] of the visited nodes, in the order of the visit. *)
Variable statement_sizes : Statement -> list Z.
Variable plan_sizes : LogicalPlan -> list Z.

(** [common/src/statement.rs] *)
Inductive ParsedStatement := PStatement (s : Statement) | Placeholder.

(** The planner, the optimizer and the execution of plans. *)
Variable statement_to_plan : SessionState -> ParsedStatement -> result LogicalPlan.
Variable optimize : SessionState -> LogicalPlan -> result LogicalPlan.
Variable create_physical_plan : SessionState -> LogicalPlan -> result ExecutionPlan.
Variable execute_stream : SessionState -> ExecutionPlan -> SessionState * result Stream.
Variable get_parameter_types : LogicalPlan -> result (list (string * option DataType)).
Variable plan_fields : LogicalPlan -> Fields.
Variable with_param_values : LogicalPlan -> ParamValues -> result LogicalPlan.
(** The session state with another default schema, and whether the server takes
    the [USE] statement. *)
Variable set_default_schema : string -> SessionState -> SessionState.
Variable use_accepted : SessionState -> string -> bool.

(** ** Entries *)

Record CacheEntry := { plan : LogicalPlan; last_used : Z; memory_size : Z }.

(** [StatementSizeVisitor::add] stops the visit at a node of at least the limit. *)
Fixpoint visit_statement (acc : Z) (sizes : list Z) : Z :=
  match sizes with
  | [] => acc
  | size :: sizes =>
      let acc := (acc + size)%Z in
      if (MAX_CACHEABLE_STATEMENT_SIZE <=? size)%Z then acc else visit_statement acc sizes
  end.

(** The visit of the plan stops when the sum reaches the limit. *)
Fixpoint visit_plan (acc : Z) (sizes : list Z) : Z :=
  match sizes with
  | [] => acc
  | size :: sizes =>
      let acc := (acc + size)%Z in
      if (MAX_CACHEABLE_STATEMENT_SIZE <=? acc)%Z then acc else visit_plan acc sizes
  end.

Definition cache_entry_new (statement : Statement) (p : LogicalPlan) (now : Z) : option CacheEntry :=
  let memory_size := visit_plan (visit_statement 0 (statement_sizes statement)) (plan_sizes p) in
  if (MAX_CACHEABLE_STATEMENT_SIZE <=? memory_size)%Z then None
  else Some {| plan := p; last_used := now; memory_size := memory_size |}.

(** ** The cache *)

Record Cache := { cache : list (Statement * CacheEntry); used_memory : Z }.

Definition cache_default : Cache := {| cache := []; used_memory := 0 |}.

(** [HashMap]'s [get_mut], [insert] and [remove]. *)
Fixpoint map_get (k : Statement) (m : list (Statement * CacheEntry)) : option CacheEntry :=
  match m with
  | [] => None
  | (k', e) :: m => if decide (k' = k) then Some e else map_get k m
  end.

Fixpoint map_insert (k : Statement) (e : CacheEntry) (m : list (Statement * CacheEntry)) :
    list (Statement * CacheEntry) :=
  match m with
  | [] => [(k, e)]
  | (k', e') :: m => if decide (k' = k) then (k, e) :: m else (k', e') :: map_insert k e m
  end.

Definition map_remove (k : Statement) (m : list (Statement * CacheEntry)) : list (Statement * CacheEntry) :=
  filter (fun p => p.1 <> k) m.

(** [min_by_key]: the first entry with the least time. *)
Fixpoint least_recent (m : list (Statement * CacheEntry)) : option (Statement * CacheEntry) :=
  match m with
  | [] => None
  | p :: m =>
      match least_recent m with
      | Some q => if (last_used q.2 <? last_used p.2)%Z then Some q else Some p
      | None => Some p
      end
  end.

(** One entry is evicted in each turn, so as many turns as entries are enough. *)
Fixpoint free_space (fuel : nat) (c : Cache) : Cache :=
  if (used_memory c <? QUERY_CACHE_SIZE)%Z then c
  else
    match least_recent (cache c), fuel with
    | None, _ => {| cache := cache c; used_memory := 0 |}
    | Some _, O => c
    | Some (k, value), S fuel =>
        free_space fuel {| cache := map_remove k (cache c);
                           used_memory := Z.max 0 (used_memory c - memory_size value) |}
    end.

Definition cache_insert (now : Z) (statement : Statement) (p : LogicalPlan) (c : Cache) : Cache :=
  match cache_entry_new statement p now with
  | None => c
  | Some entry =>
      let m := map_insert statement entry (cache c) in
      free_space (length m) {| cache := m; used_memory := used_memory c + memory_size entry |}
  end.

Definition cache_get (now : Z) (statement : Statement) (c : Cache) : Cache * option LogicalPlan :=
  match map_get statement (cache c) with
  | None => (c, None)
  | Some e =>
      let e := {| plan := plan e; last_used := now; memory_size := memory_size e |} in
      ({| cache := map_insert statement e (cache c); used_memory := used_memory c |}, Some (plan e))
  end.

(** ** The planner *)

Definition prepare_optimize_plan (session : SessionState) (statement : ParsedStatement) :
    result LogicalPlan :=
  let? p := statement_to_plan session statement in
  optimize session p.

Definition prepare_logical_or_get_cached (now : Z) (session : SessionState) (query : Statement)
    (c : Cache) : Cache * result LogicalPlan :=
  match cache_get now query c with
  | (c, Some found) => (c, Ok found)
  | (c, None) =>
      match prepare_optimize_plan session (PStatement query) with
      | Ok p => (cache_insert now query p c, Ok p)
      | Err e => (c, Err e)
      end
  end.

Definition get_logical_statement (now : Z) (session : SessionState) (query : ParsedStatement)
    (c : Cache) : Cache * result LogicalPlan :=
  match query with
  | PStatement statement => prepare_logical_or_get_cached now session statement c
  | _ => (c, let? p := statement_to_plan session query in optimize session p)
  end.

Definition prepare_query_with_cache (now : Z) (session : SessionState) (query : ParsedStatement)
    (c : Cache) : Cache * result ExecutionPlan :=
  let '(c, p) := get_logical_statement now session query c in
  (c, let? p := p in create_physical_plan session p).

(** ** The session *)

Record DataFusionSession := {
  session : SessionState;
  pre_planner : Cache;
  prepared_queries : gmap Z LogicalPlan;
  current_plan_id : Z
}.

Definition session_new (state : SessionState) : DataFusionSession :=
  {| session := state; pre_planner := cache_default; prepared_queries := ∅; current_plan_id := 0 |}.

Record StatementResponse := {
  statement_id : Z; columns : Fields; parameters : list (string * DataType)
}.

Definition switch_database (database : string) (s : DataFusionSession) : DataFusionSession * result unit :=
  ({| session := set_default_schema database (session s); pre_planner := pre_planner s;
      prepared_queries := prepared_queries s; current_plan_id := current_plan_id s |},
   if use_accepted (session s) database then Ok tt else Err (Panic "called unwrap on an Err value")).

Definition with_session (st : SessionState) (s : DataFusionSession) : DataFusionSession :=
  {| session := st; pre_planner := pre_planner s;
     prepared_queries := prepared_queries s; current_plan_id := current_plan_id s |}.

(** Executes a plan, if there is one. *)
Definition execute_plan (p : result ExecutionPlan) (s : DataFusionSession) : DataFusionSession * result Stream :=
  match p with
  | Ok p => let '(st, r) := execute_stream (session s) p in (with_session st s, r)
  | Err e => (s, Err e)
  end.

Definition query_immediate (now : Z) (query : ParsedStatement) (s : DataFusionSession) :
    DataFusionSession * result Stream :=
  let '(c, p) := prepare_query_with_cache now (session s) query (pre_planner s) in
  execute_plan p {| session := session s; pre_planner := c;
                    prepared_queries := prepared_queries s; current_plan_id := current_plan_id s |}.

(** The physical plan of a prepared statement. *)
Definition statement_plan (id : Z) (params : ParamValues) (s : DataFusionSession) : result ExecutionPlan :=
  let? p := ok_or (prepared_queries s !! id) (ExecError "Statement not found") in
  let? p := with_param_values p params in
  create_physical_plan (session s) p.

Definition statement_execute (id : Z) (params : ParamValues) (s : DataFusionSession) :
    DataFusionSession * result Stream :=
  execute_plan (statement_plan id params s) s.

(** [value.expect("placeholder with no type encountered")] *)
Definition expect_types (types : list (string * option DataType)) : result (list (string * DataType)) :=
  result_mapM (fun '(key, value) =>
    let? value := ok_or value (Panic "placeholder with no type encountered") in Ok (key, value)) types.

Definition statement_open (query : ParsedStatement) (s : DataFusionSession) :
    DataFusionSession * result StatementResponse :=
  let opened :=
    let? p := prepare_optimize_plan (session s) query in
    let? types := get_parameter_types p in
    let? types := expect_types types in
    Ok (p, types) in
  match opened with
  | Err e => (s, Err e)
  | Ok (p, param_types) =>
      let id := current_plan_id s in
      ({| session := session s; pre_planner := pre_planner s;
          prepared_queries := <[id := p]> (prepared_queries s);
          current_plan_id := wrap_u 64 (id + 1) |},
       Ok {| statement_id := id; columns := plan_fields p; parameters := param_types |})
  end.

Definition statement_close (id : Z) (s : DataFusionSession) : DataFusionSession :=
  {| session := session s; pre_planner := pre_planner s;
     prepared_queries := delete id (prepared_queries s); current_plan_id := current_plan_id s |}.

(** What a connection asks of its session, and what the other connections do to the
    catalog. *)
Inductive SessionOp :=
  | OQuery (now : Z) (query : ParsedStatement)
  | OOpen (query : ParsedStatement)
  | OExecute (id : Z) (params : ParamValues)
  | OClose (id : Z)
  | OSwitch (database : string)
  | OShared (change : SessionState -> SessionState).

Inductive Answer :=
  | AStream (r : result Stream)
  | AOpened (r : result StatementResponse)
  | ADone (r : result unit).

Definition session_step (s : DataFusionSession) (op : SessionOp) : DataFusionSession * Answer :=
  match op with
  | OQuery now query => let '(s, r) := query_immediate now query s in (s, AStream r)
  | OOpen query => let '(s, r) := statement_open query s in (s, AOpened r)
  | OExecute id params => let '(s, r) := statement_execute id params s in (s, AStream r)
  | OClose id => (statement_close id s, ADone (Ok tt))
  | OSwitch database => let '(s, r) := switch_database database s in (s, ADone r)
  | OShared change => (with_session (change (session s)) s, ADone (Ok tt))
  end.

(** ** Specification: a session that plans every query anew *)

Definition uncached_step (s : DataFusionSession) (op : SessionOp) : DataFusionSession * Answer :=
  match op with
  | OQuery _ query =>
      let '(s, r) := execute_plan (let? p := prepare_optimize_plan (session s) query in
                                   create_physical_plan (session s) p) s in
      (s, AStream r)
  | _ => session_step s op
  end.

Fixpoint run_ops (step : DataFusionSession -> SessionOp -> DataFusionSession * Answer)
    (s : DataFusionSession) (ops : list SessionOp) : DataFusionSession * list Answer :=
  match ops with
  | [] => (s, [])
  | op :: ops =>
      let '(s, a) := step s op in
      let '(s, answers) := run_ops step s ops in
      (s, a :: answers)
  end.

(** What planning reads before operation [i]. *)
Definition state_before (st : SessionState) (ops : list SessionOp) (i : nat) : SessionState :=
  session (run_ops uncached_step (session_new st) (take i ops)).1.

Definition queries_at (ops : list SessionOp) (i : nat) (q : Statement) : Prop :=
  exists now, ops !! i = Some (OQuery now (PStatement q)).

(** A statement that was planned and is queried again would be planned the same. *)
Definition plans_last (st : SessionState) (ops : list SessionOp) : Prop :=
  forall i j q p, i < j -> queries_at ops i q -> queries_at ops j q ->
    prepare_optimize_plan (state_before st ops i) (PStatement q) = Ok p ->
    prepare_optimize_plan (state_before st ops j) (PStatement q) = Ok p.

Definition keeps_statement (id : Z) (op : SessionOp) : bool :=
  match op with OClose id' => negb (id' =? id)%Z | _ => true end.

(** ** Invariant *)

Definition total_size (m : list (Statement * CacheEntry)) : Z :=
  foldr (fun p acc => memory_size p.2 + acc)%Z 0%Z m.

Definition sizes_ok (m : list (Statement * CacheEntry)) : Prop :=
  Forall (fun p => 0 <= memory_size p.2 < MAX_CACHEABLE_STATEMENT_SIZE)%Z m.

(** The memory accounted for is that of the entries, within the budget. *)
Record cache_ok (c : Cache) : Prop := {
  co_keys : NoDup (cache c).*1;
  co_sizes : sizes_ok (cache c);
  co_total : used_memory c = total_size (cache c);
  co_budget : (used_memory c < QUERY_CACHE_SIZE)%Z
}.

Lemma total_size_cons p m : total_size (p :: m) = (memory_size p.2 + total_size m)%Z.
Proof. done. Qed.
Arguments total_size : simpl never.

Lemma total_size_nonneg m : sizes_ok m -> (0 <= total_size m)%Z.
Proof. induction 1 as [|p m [Hp _] _ IH]; [done|]. rewrite total_size_cons. lia. Qed.

Lemma map_get_elem k e m : map_get k m = Some e -> (k, e) ∈ m.
Proof.
  induction m as [|[k' e'] m IH]; cbn; [done|]. case_decide as Hk.
  - intros [= ->]. subst. left.
  - intros Hm. right. by apply IH.
Qed.

Lemma map_get_unique k e m : NoDup m.*1 -> (k, e) ∈ m -> map_get k m = Some e.
Proof.
  induction m as [|[k' e'] m IH]; cbn; [by intros _ ?%not_elem_of_nil|].
  rewrite NoDup_cons. intros [Hk Hn] Hin. apply elem_of_cons in Hin as [[= -> ->]|Hin].
  - by rewrite decide_True.
  - rewrite decide_False; [by apply IH|]. intros ->. apply Hk. apply list_elem_of_fmap. by exists (k, e).
Qed.

Lemma map_get_None k m : map_get k m = None -> k ∉ m.*1.
Proof.
  induction m as [|[k' e'] m IH]; cbn; [by intros _ ?%not_elem_of_nil|].
  case_decide as Hk; [done|]. intros Hm Hin. apply elem_of_cons in Hin as [->|Hin]; [done|].
  by apply IH.
Qed.

Lemma map_insert_fresh k e m : k ∉ m.*1 -> map_insert k e m = m ++ [(k, e)].
Proof.
  induction m as [|[k' e'] m IH]; cbn; [done|]. rewrite not_elem_of_cons. intros [Hk Hm].
  rewrite decide_False by done. by rewrite IH.
Qed.

Lemma total_size_app m m' : total_size (m ++ m') = (total_size m + total_size m')%Z.
Proof. induction m as [|p m IH]; [done|]. cbn [app]. rewrite !total_size_cons, IH. lia. Qed.

Lemma least_recent_spec m q :
  least_recent m = Some q -> q ∈ m /\ forall p, p ∈ m -> (last_used q.2 <= last_used p.2)%Z.
Proof.
  revert q. induction m as [|p m IH]; intros q; cbn; [done|].
  destruct (least_recent m) as [q'|] eqn:Hq.
  - destruct (IH q' eq_refl) as [Hin Hmin]. destruct (Z.ltb_spec (last_used q'.2) (last_used p.2));
      intros [= <-]; (split; [by constructor|]); intros p' Hp'; apply elem_of_cons in Hp' as [->|Hp'];
      try specialize (Hmin _ Hp'); lia.
  - destruct m as [|p' m]; [|cbn in Hq; by repeat case_match]. intros [= <-].
    split; [left|]. intros p' Hp'. apply list_elem_of_singleton in Hp' as ->. lia.
Qed.

Lemma least_recent_None m : least_recent m = None -> m = [].
Proof. destruct m; cbn; [done|]. by repeat case_match. Qed.

Lemma map_remove_total k e m :
  NoDup m.*1 -> (k, e) ∈ m -> total_size (map_remove k m) = (total_size m - memory_size e)%Z.
Proof.
  unfold map_remove. induction m as [|[k' e'] m IH]; [by intros _ ?%not_elem_of_nil|].
  cbn [fmap list_fmap fst]. rewrite NoDup_cons. intros [Hk Hn] Hin. apply elem_of_cons in Hin as [[= -> ->]|Hin].
  - rewrite filter_cons_False by (by intros []). rewrite filter_all; [rewrite total_size_cons; cbn; lia|].
    intros p Hp Heq. apply Hk. rewrite <- Heq. apply list_elem_of_fmap. by exists p.
  - rewrite filter_cons_True; [rewrite !total_size_cons, IH by done; lia|].
    cbn. intros ->. apply Hk, list_elem_of_fmap. by exists (k, e).
Qed.

Lemma map_remove_elem k p m : p ∈ map_remove k m <-> p ∈ m /\ p.1 <> k.
Proof. unfold map_remove. rewrite list_elem_of_filter. tauto. Qed.

Lemma map_remove_keys k m : NoDup m.*1 -> NoDup (map_remove k m).*1.
Proof. intros Hn. eapply sublist_NoDup; [exact Hn|]. apply fmap_sublist, sublist_filter. Qed.

Lemma map_remove_sizes k m : sizes_ok m -> sizes_ok (map_remove k m).
Proof. unfold sizes_ok. rewrite !Forall_forall. intros Hm p [Hp _]%map_remove_elem. by apply Hm. Qed.

Lemma map_remove_length k e m : (k, e) ∈ m -> length (map_remove k m) < length m.
Proof. intros Hin. apply (length_filter_lt _ _ (k, e)); [done|]. cbn. tauto. Qed.

Lemma only_entry (p : Statement * CacheEntry) m : NoDup m.*1 -> p ∈ m -> (forall q, q ∈ m -> q = p) -> m = [p].
Proof.
  intros Hn Hp Hall. destruct m as [|a [|b m]]; [by apply not_elem_of_nil in Hp| |].
  - by rewrite (Hall a) by left.
  - rewrite (Hall a), (Hall b) in Hn by (left || (right; left)). cbn in Hn.
    apply NoDup_cons in Hn as [Hn _]. exfalso. apply Hn. left.
Qed.

(** The newest entry is not the least recent, unless it is alone. *)
Definition newest (p : Statement * CacheEntry) (m : list (Statement * CacheEntry)) : Prop :=
  forall q, q ∈ m -> q.1 <> p.1 -> (last_used q.2 < last_used p.2)%Z.

Lemma key_unique (p q : Statement * CacheEntry) m : NoDup m.*1 -> p ∈ m -> q ∈ m -> p.1 = q.1 -> p = q.
Proof.
  destruct p as [k e], q as [k' e']. cbn. intros Hn Hp Hq <-.
  pose proof (map_get_unique _ _ _ Hn Hp). pose proof (map_get_unique _ _ _ Hn Hq). congruence.
Qed.

Lemma newest_not_least m p q :
  NoDup m.*1 -> sizes_ok m -> (QUERY_CACHE_SIZE <= total_size m)%Z ->
  p ∈ m -> newest p m -> least_recent m = Some q -> q.1 <> p.1.
Proof.
  intros Hn Hs Ht Hp Hnew Hq Heq. apply least_recent_spec in Hq as [Hin Hmin].
  pose proof (key_unique _ _ _ Hn Hin Hp Heq) as ->.
  assert (m = [p]) as ->.
  { apply only_entry; [done|done|]. intros r Hr. apply (key_unique r p m); [done..|].
    destruct (decide (r.1 = p.1)) as [Hk|Hk]; [done|].
    specialize (Hnew r Hr Hk). specialize (Hmin r Hr). lia. }
  apply Forall_cons in Hs as [Hs _]. rewrite total_size_cons in Ht. unfold total_size in Ht. cbn in Ht.
  unfold MAX_CACHEABLE_STATEMENT_SIZE, QUERY_CACHE_SIZE in *. lia.
Qed.

Lemma free_space_spec fuel c :
  NoDup (cache c).*1 -> sizes_ok (cache c) -> used_memory c = total_size (cache c) ->
  length (cache c) <= fuel ->
  cache_ok (free_space fuel c) /\
  (forall p, p ∈ cache (free_space fuel c) -> p ∈ cache c) /\
  (forall p, p ∈ cache c -> newest p (cache c) -> p ∈ cache (free_space fuel c)).
Proof.
  revert c. induction fuel as [|fuel IH]; intros c Hn Hs Ht Hl; cbn [free_space];
    destruct (Z.ltb_spec (used_memory c) QUERY_CACHE_SIZE) as [Hlt|Hge]; try by (split; [by constructor|]).
  - destruct (cache c) eqn:Hc; [|cbn in Hl; lia]. rewrite Ht in Hge. by unfold QUERY_CACHE_SIZE in Hge.
  - destruct (least_recent (cache c)) as [[k e]|] eqn:Hq.
    2:{ apply least_recent_None in Hq. rewrite Hq in Ht. rewrite Ht in Hge. by unfold QUERY_CACHE_SIZE in Hge. }
    pose proof (least_recent_spec _ _ Hq) as [Hin _].
    pose proof (map_remove_total k e (cache c) Hn Hin) as Hrt.
    pose proof (total_size_nonneg _ (map_remove_sizes k _ Hs)) as Hnn.
    edestruct (IH {| cache := map_remove k (cache c); used_memory := Z.max 0 (used_memory c - memory_size e) |})
      as (Hok & Hsub & Hnew); cbn;
      [by apply map_remove_keys|by apply map_remove_sizes|lia
      |pose proof (map_remove_length k e _ Hin); lia|].
    split; [done|]. split.
    + intros p Hp. by apply Hsub, map_remove_elem in Hp as [? _].
    + intros p Hp Hpn. apply Hnew.
      * apply map_remove_elem. split; [done|]. rewrite Ht in Hge.
        pose proof (newest_not_least _ p _ Hn Hs Hge Hp Hpn Hq). cbn in *. congruence.
      * intros q [Hq' _]%map_remove_elem Hne. by apply Hpn.
Qed.

(** ** The cache keeps its invariant *)

Hypothesis statement_sizes_nonneg : forall s, Forall (fun z => 0 <= z)%Z (statement_sizes s).
Hypothesis plan_sizes_nonneg : forall p, Forall (fun z => 0 <= z)%Z (plan_sizes p).

Lemma visit_statement_nonneg acc sizes :
  (0 <= acc)%Z -> Forall (fun z => 0 <= z)%Z sizes -> (0 <= visit_statement acc sizes)%Z.
Proof.
  intros Ha Hs. revert acc Ha. induction Hs as [|z sizes Hz _ IH]; intros acc Ha; cbn; [done|].
  case_match; [lia|]. apply IH. lia.
Qed.

Lemma visit_plan_nonneg acc sizes :
  (0 <= acc)%Z -> Forall (fun z => 0 <= z)%Z sizes -> (0 <= visit_plan acc sizes)%Z.
Proof.
  intros Ha Hs. revert acc Ha. induction Hs as [|z sizes Hz _ IH]; intros acc Ha; cbn; [done|].
  case_match; [lia|]. apply IH. lia.
Qed.

Lemma cache_entry_new_spec st p now e :
  cache_entry_new st p now = Some e ->
  plan e = p /\ last_used e = now /\ (0 <= memory_size e < MAX_CACHEABLE_STATEMENT_SIZE)%Z.
Proof.
  unfold cache_entry_new. destruct (Z.leb_spec MAX_CACHEABLE_STATEMENT_SIZE
    (visit_plan (visit_statement 0 (statement_sizes st)) (plan_sizes p))); [done|].
  intros [= <-]. cbn. split_and!; try done. by apply visit_plan_nonneg, plan_sizes_nonneg; apply visit_statement_nonneg.
Qed.

Lemma cache_insert_spec now st p c :
  cache_ok c -> st ∉ (cache c).*1 ->
  cache_ok (cache_insert now st p c) /\
  (forall q, q ∈ cache (cache_insert now st p c) -> q ∈ cache c \/ q.1 = st /\ plan q.2 = p) /\
  (forall e, cache_entry_new st p now = Some e ->
   (forall q, q ∈ cache c -> last_used q.2 < now)%Z ->
   map_get st (cache (cache_insert now st p c)) = Some e).
Proof.
  intros Hc Hst. unfold cache_insert. destruct (cache_entry_new st p now) as [e|] eqn:He.
  2:{ split; [done|]. split; [by left|done]. }
  apply cache_entry_new_spec in He as (Hp & Hu & Hm). rewrite map_insert_fresh by done.
  destruct (free_space_spec (length (cache c ++ [(st, e)]))
    {| cache := cache c ++ [(st, e)]; used_memory := used_memory c + memory_size e |}) as (Hok & Hsub & Hnew); cbn.
  - rewrite fmap_app. apply NoDup_app. split; [apply Hc|]. split; [|apply NoDup_singleton].
    intros k Hk ->%list_elem_of_singleton. by apply Hst.
  - apply Forall_app. split; [apply Hc|]. by constructor.
  - rewrite total_size_app, total_size_cons, (co_total _ Hc). unfold total_size at 3. cbn. lia.
  - done.
  - split; [done|]. split.
    + intros q [Hq| ->%list_elem_of_singleton]%Hsub%elem_of_app; [by left|by right].
    + intros e' [= <-] Hlt. apply map_get_unique; [apply Hok|]. apply Hnew; cbn.
      * apply elem_of_app. right. by apply list_elem_of_singleton.
      * intros q [Hq| ->%list_elem_of_singleton]%elem_of_app Hne; [|done]. cbn. rewrite Hu. by apply Hlt.
Qed.

(** A hit only changes the time of its entry. *)
Lemma map_insert_touch k e e' m :
  map_get k m = Some e -> memory_size e' = memory_size e ->
  (map_insert k e' m).*1 = m.*1 /\ total_size (map_insert k e' m) = total_size m /\
  map_get k (map_insert k e' m) = Some e' /\
  forall q, q ∈ map_insert k e' m -> q ∈ m \/ q = (k, e').
Proof.
  intros Hg Hm. induction m as [|[k' e''] m IH]; cbn in *; [done|]. case_decide as Hk.
  - injection Hg as ->. subst k'. cbn. rewrite decide_True by done. rewrite !total_size_cons. cbn.
    split_and!; [done|lia|done|]. intros q [->|Hq]%elem_of_cons; [by right|left; by right].
  - destruct (IH Hg) as (Hk1 & Ht & Hg' & Hin). cbn. rewrite decide_False by done.
    rewrite !total_size_cons, Ht. split_and!; [by f_equal|done|done|].
    intros q [->|Hq]%elem_of_cons; [left; by left|]. apply Hin in Hq as [Hq| ->]; [left; by right|by right].
Qed.

Lemma cache_get_spec now st c :
  cache_ok c ->
  cache_ok (cache_get now st c).1 /\
  (cache_get now st c).2 = plan <$> map_get st (cache c) /\
  (forall q, q ∈ cache (cache_get now st c).1 -> exists q', q' ∈ cache c /\ q.1 = q'.1 /\ plan q.2 = plan q'.2).
Proof.
  intros Hc. unfold cache_get. destruct (map_get st (cache c)) as [e|] eqn:Hg; cbn.
  2:{ split; [done|]. split; [done|]. by intros q Hq; exists q. }
  pose proof (map_get_elem _ _ _ Hg) as Hin.
  destruct (map_insert_touch st e {| plan := plan e; last_used := now; memory_size := memory_size e |} _ Hg eq_refl)
    as (Hk & Ht & _ & Hq).
  pose proof (co_sizes _ Hc) as Hs. unfold sizes_ok in Hs. rewrite Forall_forall in Hs.
  split; [|split; [done|]].
  - constructor; cbn; [rewrite Hk; apply Hc| |rewrite Ht; apply Hc|apply Hc].
    apply Forall_forall. intros q [Hq'| ->]%Hq; [by apply Hs|]. apply (Hs _ Hin).
  - intros q [Hq'| ->]%Hq; [by exists q|]. by exists (st, e).
Qed.

(** ** Plans of the cache are the plans of the planner *)

Section Planned.
(** The plans that were made for a statement. *)
Variable planned : Statement -> LogicalPlan -> Prop.

Definition consistent (c : Cache) : Prop := forall q, q ∈ cache c -> planned q.1 (plan q.2).

Lemma get_logical_statement_spec st now query c :
  cache_ok c -> consistent c ->
  (forall q p, query = PStatement q -> planned q p -> prepare_optimize_plan st query = Ok p) ->
  (forall q p, query = PStatement q -> prepare_optimize_plan st query = Ok p -> planned q p) ->
  cache_ok (get_logical_statement now st query c).1 /\
  consistent (get_logical_statement now st query c).1 /\
  (get_logical_statement now st query c).2 = prepare_optimize_plan st query.
Proof.
  intros Hc Hcons Hsame Hnew. destruct query as [q|]; [|done]. cbn. unfold prepare_logical_or_get_cached.
  destruct (cache_get_spec now q c Hc) as (Hok & Hres & Hsub).
  destruct (cache_get now q c) as [c' [found|]] eqn:Hg; cbn in *.
  - destruct (map_get q (cache c)) as [e|] eqn:He; [|done]. injection Hres as ->.
    split; [done|]. split; [|symmetry; apply (Hsame q); [done|]; by apply (Hcons (q, e)), map_get_elem].
    intros r (r' & Hr & Hk & Hp)%Hsub. rewrite Hk, Hp. by apply Hcons.
  - destruct (map_get q (cache c)) as [e|] eqn:He; [done|].
    assert (c' = c) as -> by (revert Hg; unfold cache_get; rewrite He; congruence).
    destruct (prepare_optimize_plan st (PStatement q)) as [p|e] eqn:Hplan; [|done].
    destruct (cache_insert_spec now q p c Hc (map_get_None _ _ He)) as (Hok' & Hsub' & _).
    split; [done|]. split; [|done]. intros r [Hr|[Hk Hp]]%Hsub'; [by apply Hcons|]. rewrite Hk, Hp. by apply Hnew.
Qed.

(** Two sessions that agree but for their caches, the first with a sound cache. *)
Record same_session (s u : DataFusionSession) : Prop := {
  ss_state : session s = session u;
  ss_prepared : prepared_queries s = prepared_queries u;
  ss_next : current_plan_id s = current_plan_id u;
  ss_cache : cache_ok (pre_planner s);
  ss_consistent : consistent (pre_planner s)
}.

Lemma execute_plan_same s u p :
  same_session s u ->
  same_session (execute_plan p s).1 (execute_plan p u).1 /\ (execute_plan p s).2 = (execute_plan p u).2.
Proof.
  intros Hs. destruct p as [p|e]; [|done]. cbn. rewrite (ss_state _ _ Hs).
  destruct (execute_stream (session u) p) as [st r]. split; [|done]. destruct Hs. by constructor.
Qed.

(** The query of a statement that was planned would give the same plan; the plan it
    gets counts as planned. *)
Lemma uncached_simulates s u op :
  same_session s u ->
  (forall now q p, op = OQuery now (PStatement q) -> planned q p -> prepare_optimize_plan (session u) (PStatement q) = Ok p) ->
  (forall now q p, op = OQuery now (PStatement q) -> prepare_optimize_plan (session u) (PStatement q) = Ok p -> planned q p) ->
  same_session (session_step s op).1 (uncached_step u op).1 /\
  (session_step s op).2 = (uncached_step u op).2.
Proof.
  intros Hs Hsame Hnew. pose proof Hs as Hs'. destruct s as [s c m n], u as [u c' m' n'], Hs as [Es Em En Hc Hcons].
  cbn in *. subst. destruct op as [now query|query|id params|id|db|change].
  - cbn. unfold query_immediate, prepare_query_with_cache. cbn.
    destruct (get_logical_statement_spec u now query c Hc Hcons) as (H1 & H2 & H3);
      [by intros q p ->; apply (Hsame now)|by intros q p ->; apply (Hnew now)|].
    destruct (get_logical_statement now u query c) as [c1 r]. cbn in *. subst r.
    match goal with |- context [execute_plan ?p {| session := u; pre_planner := c1; prepared_queries := _; current_plan_id := _ |}] =>
      edestruct (execute_plan_same {| session := u; pre_planner := c1; prepared_queries := m'; current_plan_id := n' |}
        {| session := u; pre_planner := c'; prepared_queries := m'; current_plan_id := n' |} p) as [H4 H5]; [by constructor|] end.
    destruct (execute_plan _ _), (execute_plan _ _). cbn in *. by subst.
  - cbn. unfold statement_open. cbn. by repeat case_match; simplify_eq; (split; [by constructor|]).
  - cbn. unfold statement_execute.
    change (statement_plan id params {| session := u; pre_planner := c; prepared_queries := m'; current_plan_id := n' |})
      with (statement_plan id params {| session := u; pre_planner := c'; prepared_queries := m'; current_plan_id := n' |}).
    destruct (execute_plan_same _ _ (statement_plan id params
      {| session := u; pre_planner := c'; prepared_queries := m'; current_plan_id := n' |}) Hs') as [H4 H5].
    destruct (execute_plan _ _), (execute_plan _ _). cbn in *. by subst.
  - by split; [constructor|].
  - by split; [constructor|].
  - by split; [constructor|].
Qed.
End Planned.

Lemma same_session_new planned st : same_session planned (session_new st) (session_new st).
Proof.
  constructor; try done; cbn.
  - constructor; cbn; try done; [constructor|constructor].
  - by intros q ?%not_elem_of_nil.
Qed.

Lemma same_session_mono (planned planned' : Statement -> LogicalPlan -> Prop) s u :
  (forall q p, planned q p -> planned' q p) -> same_session planned s u -> same_session planned' s u.
Proof. intros Hp []. constructor; try done. intros q Hq. by apply Hp, ss_consistent0. Qed.

Lemma run_ops_snoc step s ops op :
  run_ops step s (ops ++ [op]) =
  ((step (run_ops step s ops).1 op).1, (run_ops step s ops).2 ++ [(step (run_ops step s ops).1 op).2]).
Proof.
  revert s. induction ops as [|o ops IH]; intros s; cbn; [by destruct (step s op)|].
  destruct (step s o) as [s1 a]. rewrite IH. by destruct (run_ops step s1 ops).
Qed.

(** The plans that the operations made. *)
Definition made (st : SessionState) (ops : list SessionOp) (q : Statement) (p : LogicalPlan) : Prop :=
  exists i, queries_at ops i q /\ prepare_optimize_plan (state_before st ops i) (PStatement q) = Ok p.

Lemma state_before_snoc st ops op i : i <= length ops -> state_before st (ops ++ [op]) i = state_before st ops i.
Proof. intros Hi. unfold state_before. by rewrite take_app_le. Qed.

Lemma queries_at_snoc ops op i q : queries_at ops i q -> queries_at (ops ++ [op]) i q.
Proof. intros [now Hi]. exists now. by apply lookup_app_l_Some. Qed.

Lemma queries_at_lt ops i q : queries_at ops i q -> i < length ops.
Proof. intros [now Hi]. by eapply lookup_lt_Some. Qed.

Lemma plans_last_snoc st ops op : plans_last st (ops ++ [op]) -> plans_last st ops.
Proof.
  intros Hl i j q p Hij Hi Hj Hp. pose proof (queries_at_lt _ _ _ Hi). pose proof (queries_at_lt _ _ _ Hj).
  rewrite <- (state_before_snoc st ops op) by lia. apply (Hl i j); [done|by apply queries_at_snoc..|].
  by rewrite state_before_snoc by lia.
Qed.

Lemma run_ops_simulates st ops :
  plans_last st ops ->
  same_session (made st ops) (run_ops session_step (session_new st) ops).1 (run_ops uncached_step (session_new st) ops).1 /\
  (run_ops session_step (session_new st) ops).2 = (run_ops uncached_step (session_new st) ops).2.
Proof.
  induction ops as [|op ops IH] using rev_ind; intros Hl; [split; [apply same_session_new|done]|].
  destruct (IH (plans_last_snoc _ _ _ Hl)) as [Hs Ha]. rewrite !run_ops_snoc. cbn [fst snd].
  assert (state_before st (ops ++ [op]) (length ops) = session (run_ops uncached_step (session_new st) ops).1) as Hstate
    by (unfold state_before; by rewrite take_app_length).
  assert (forall q p, made st ops q p -> made st (ops ++ [op]) q p) as Hmono.
  { intros q p (i & Hi & Hp). exists i. pose proof (queries_at_lt _ _ _ Hi). split; [by apply queries_at_snoc|].
    by rewrite state_before_snoc by lia. }
  assert (forall now q, op = OQuery now (PStatement q) -> queries_at (ops ++ [op]) (length ops) q) as Hlast.
  { intros now q ->. exists now. by rewrite lookup_app_r, Nat.sub_diag. }
  destruct (uncached_simulates (made st (ops ++ [op])) _ _ op (same_session_mono _ _ _ _ Hmono Hs)) as [H1 H2].
  - intros now q p Hop (i & Hi & Hp). rewrite <- Hstate. pose proof (queries_at_lt _ _ _ Hi) as Hlt.
    rewrite length_app in Hlt. cbn in Hlt. destruct (decide (i = length ops)) as [->|Hne]; [done|].
    apply (Hl i); [lia|done|by eapply Hlast|done].
  - intros now q p Hop Hp. exists (length ops). split; [by eapply Hlast|]. by rewrite Hstate.
  - split; [done|]. by rewrite Ha, H2.
Qed.

(** C17: as long as the statements that are queried again would be planned as before
    (nothing they read was changed: by [switch_database], by DDL that this session
    executes, or by another connection), every answer is the one a session gives
    that plans each query anew (errors included), and so are the state of the
    session and its prepared statements; and the memory accounted for by the plan
    cache is that of its entries and stays below the budget. Otherwise the old plan
    is executed ([stale_plan_executed]). *)
Theorem plan_cache_transparent st ops :
  plans_last st ops ->
  let cached := run_ops session_step (session_new st) ops in
  let uncached := run_ops uncached_step (session_new st) ops in
  cached.2 = uncached.2 /\ session cached.1 = session uncached.1 /\
  prepared_queries cached.1 = prepared_queries uncached.1 /\ cache_ok (pre_planner cached.1).
Proof. intros Hl cached uncached. destruct (run_ops_simulates st ops Hl) as [[] H2]. by split_and!. Qed.

(** ** Stale plans *)

Definition no_answer (op : SessionOp) : bool :=
  match op with OClose _ | OSwitch _ | OShared _ | OOpen _ => true | OQuery _ _ | OExecute _ _ => false end.

(** Nothing invalidates the cache: a query that is repeated after the state was
    changed, by this session or by another one, is executed with the plan that was
    made for the old state. *)
Theorem stale_plan_executed st change q p e t1 t2 :
  prepare_optimize_plan st (PStatement q) = Ok p -> cache_entry_new q p t1 = Some e ->
  no_answer change = true ->
  let s1 := (session_step (session_new st) (OQuery t1 (PStatement q))).1 in
  let s2 := (session_step s1 change).1 in
  (session_step s2 (OQuery t2 (PStatement q))).2 =
  AStream (match create_physical_plan (session s2) p with
           | Ok p => (execute_stream (session s2) p).2
           | Err e => Err e
           end).
Proof.
  intros Hp He Hch s1 s2. pose proof (cache_entry_new_spec _ _ _ _ He) as (Hpl & _ & _).
  destruct (cache_insert_spec t1 q p cache_default) as (_ & _ & Hget);
    [apply (ss_cache _ _ _ (same_session_new (fun _ _ => True) st))|apply not_elem_of_nil|].
  specialize (Hget e He (fun q Hq => False_ind _ (not_elem_of_nil _ Hq))).
  assert (pre_planner s1 = cache_insert t1 q p cache_default) as Hc1.
  { unfold s1. cbn. unfold query_immediate, prepare_query_with_cache, get_logical_statement, prepare_logical_or_get_cached.
    cbn. rewrite Hp. cbn. unfold execute_plan. destruct (create_physical_plan st p); [|done]. cbn.
    by destruct (execute_stream st _). }
  assert (pre_planner s2 = pre_planner s1) as Hc2.
  { unfold s2. destruct change; try done. cbn. unfold statement_open. by repeat case_match; simplify_eq. }
  clearbody s1 s2. destruct s2 as [st2 c m n]. cbn in Hc2. subst c. rewrite Hc1.
  cbn. unfold query_immediate, prepare_query_with_cache, get_logical_statement, prepare_logical_or_get_cached.
  cbn. unfold cache_get. rewrite Hget. cbn. rewrite Hpl. destruct (create_physical_plan st2 p); [|done]. cbn.
  by destruct (execute_stream st2 _).
Qed.

(** ** Prepared statements *)

Lemma execute_plan_keeps p s :
  prepared_queries (execute_plan p s).1 = prepared_queries s /\ current_plan_id (execute_plan p s).1 = current_plan_id s.
Proof. destruct p as [p|]; [|done]. cbn. by destruct (execute_stream (session s) p). Qed.

Lemma session_step_prepared s op id :
  keeps_statement id op = true -> (0 <= id < current_plan_id s)%Z -> (current_plan_id s < 2 ^ 64 - 1)%Z ->
  prepared_queries (session_step s op).1 !! id = prepared_queries s !! id /\
  (current_plan_id s <= current_plan_id (session_step s op).1 <= current_plan_id s + 1)%Z.
Proof.
  intros Hop Hid Hmax. destruct op as [now query|query|id' params|id'|db|change]; cbn.
  - unfold query_immediate. destruct (prepare_query_with_cache _ _ _ _) as [c p].
    match goal with |- context [execute_plan p ?s'] => pose proof (execute_plan_keeps p s') as [H1 H2] end.
    destruct (execute_plan _ _). cbn in *. rewrite H1, H2. split; [done|lia].
  - unfold statement_open. cbn. repeat case_match; simplify_eq; cbn; [|split; [done|lia]].
    rewrite lookup_insert_ne by lia. split; [done|]. rewrite wrap_u_id by (unfold fits_u; lia). lia.
  - unfold statement_execute. pose proof (execute_plan_keeps (statement_plan id' params s) s) as [H1 H2].
    destruct (execute_plan _ _). cbn in *. rewrite H1, H2. split; [done|lia].
  - cbn in Hop. rewrite lookup_delete_ne by lia. split; [done|lia].
  - split; [done|lia].
  - split; [done|lia].
Qed.

Lemma run_ops_prepared ops s id :
  Forall (fun op => keeps_statement id op = true) ops -> (0 <= id < current_plan_id s)%Z ->
  (current_plan_id s + Z.of_nat (length ops) < 2 ^ 64)%Z ->
  prepared_queries (run_ops session_step s ops).1 !! id = prepared_queries s !! id.
Proof.
  intros Hops. revert s. induction Hops as [|op ops Hop _ IH]; intros s Hid Hmax; [done|].
  cbn in *. destruct (session_step_prepared s op id Hop) as [H1 H2]; [lia..|].
  destruct (session_step s op) as [s1 a]. cbn in *. rewrite <- H1, <- (IH s1) by lia.
  by destruct (run_ops session_step s1 ops).
Qed.

(** a statement that was opened keeps its plan: whatever else the session does
    short of closing it (fewer than 2^64 operations in all), executing its identifier
    binds the parameters in the plan it was opened with; once closed it is unknown. *)
Theorem prepared_statement_stable s s' query response ops params :
  statement_open query s = (s', Ok response) ->
  Forall (fun op => keeps_statement (statement_id response) op = true) ops ->
  (0 <= current_plan_id s)%Z -> (current_plan_id s + Z.of_nat (length ops) + 1 < 2 ^ 64)%Z ->
  let id := statement_id response in
  let s1 := (run_ops session_step s' ops).1 in
  statement_execute id params s1 =
    execute_plan (let? p := prepare_optimize_plan (session s) query in
                  let? p := with_param_values p params in
                  create_physical_plan (session s1) p) s1 /\
  (statement_execute id params (statement_close id s1)).2 = Err (ExecError "Statement not found").
Proof.
  intros Hopen Hops Hpos Hmax id s1. split.
  2:{ unfold statement_execute, statement_plan. cbn. by rewrite lookup_delete_eq. }
  unfold statement_execute, statement_plan. subst id s1. unfold statement_open in Hopen.
  destruct (prepare_optimize_plan (session s) query) as [p|]; [|done]. cbn in Hopen.
  destruct (get_parameter_types p) as [types|]; [|done]. cbn in Hopen.
  destruct (expect_types types) as [types'|]; [|done]. cbn in Hopen.
  injection Hopen as <- <-. cbn in *. rewrite wrap_u_id by (unfold fits_u; lia).
  rewrite run_ops_prepared; cbn; [|done|lia|lia]. by rewrite lookup_insert_eq.
Qed.
End PlanCache.

(** ** A concrete planner

    The state is a database and the version of its schema. Statements name a table, a
    plan is a table of a database for a version of the schema with its parameters, and
    the stream of a plan is the plan; the statement [ALTER] makes a new version. *)
Module Sample.
Definition State : Type := string * Z.
Definition LPlan : Type := State * string * list Z.

Definition to_plan (state : State) (query : ParsedStatement (Statement := string)) : result LPlan :=
  match query with
  | PStatement table => if String.eqb table "" then Err (PlanError "no table") else Ok (state, table, [])
  | Placeholder => Err (PlanError "placeholder")
  end.

Definition bind_values (p : LPlan) (params : list Z) : result LPlan := Ok (p.1, params).

Definition run (state : State) (p : LPlan) : State * result LPlan :=
  (if String.eqb p.1.2 "ALTER" then (state.1, state.2 + 1)%Z else state, Ok p).

Definition step : DataFusionSession -> SessionOp -> DataFusionSession * Answer :=
  session_step (fun _ : string => [500]%Z) (fun _ : LPlan => [300]%Z) to_plan
    (fun _ p => Ok p) (fun _ p => Ok p) run (fun _ => Ok [("1", Some tt)])
    (fun _ => tt) bind_values (fun db st => (db, st.2)) (fun _ _ => true).

Definition start : State := ("clinic", 0%Z).

Definition queries : list (SessionOp (Statement := string) (SessionState := State) (ParamValues := list Z)) :=
  [OQuery 1 (PStatement "patients"); OOpen (PStatement "visits"); OQuery 2 (PStatement "");
   OExecute 0 [7]%Z; OQuery 3 (PStatement "patients"); OClose 0; OExecute 0 [7]%Z; OQuery 4 (PStatement "ALTER")].
End Sample.

Lemma plan_cache_transparent_witness :
  (run_ops Sample.step (session_new Sample.start) Sample.queries).2 !! 4 =
    Some (AStream (Ok (Sample.start, "patients", []))) /\
  cache_ok (pre_planner (run_ops Sample.step (session_new Sample.start) Sample.queries).1).
Proof.
  destruct (plan_cache_transparent (fun _ : string => [500]%Z) (fun _ : Sample.LPlan => [300]%Z) Sample.to_plan
    (fun _ p => Ok p) (fun _ p => Ok p) Sample.run (fun _ => Ok [("1", Some tt)])
    (fun _ => tt) Sample.bind_values (fun db st => (db, st.2)) (fun _ _ => true)
    (fun _ => ltac:(by repeat constructor)) (fun _ => ltac:(by repeat constructor))
    Sample.start Sample.queries) as (H1 & _ & _ & H2).
  - intros i j q p Hij [t Hi] [t' Hj] Hp.
    destruct i as [|[|[|[|[|[|[|[|i]]]]]]]]; try discriminate Hi; injection Hi as _ <-;
      destruct j as [|[|[|[|[|[|[|[|j]]]]]]]]; try discriminate Hj; try (exfalso; lia); exact Hp.
  - split; [|exact H2]. unfold Sample.step. rewrite H1. vm_compute. reflexivity.
Defined.

(** After the schema was altered, in this session or in another one, or the database
    was switched, the query is still executed with the first plan. *)
Lemma ddl_leaves_stale_plan (change : SessionOp) (state : Sample.State) :
  (change = OQuery 2 (PStatement "ALTER") /\ state = ("clinic", 1%Z)) \/
  (change = OShared (fun st => (st.1, 5%Z)) /\ state = ("clinic", 5%Z)) \/
  (change = OSwitch "lab" /\ state = ("lab", 0%Z)) ->
  let r := run_ops Sample.step (session_new Sample.start)
             [OQuery 1 (PStatement "patients"); change; OQuery 3 (PStatement "patients")] in
  session r.1 = state /\ Sample.to_plan state (PStatement "patients") = Ok (state, "patients", []) /\
  r.2 !! 2 = Some (AStream (Ok (Sample.start, "patients", []))).
Proof. intros [[-> ->]|[[-> ->]|[-> ->]]]; split_and!; by vm_compute. Qed.

Lemma prepared_statement_stable_witness :
  let s := session_new Sample.start in
  let s' := (Sample.step s (OOpen (PStatement "visits"))).1 in
  let s1 := (run_ops Sample.step s' [OSwitch "lab"; OOpen (PStatement "beds"); OClose 1]).1 in
  (statement_execute (fun _ p => Ok p) Sample.run Sample.bind_values 0 [7]%Z s1).2 =
    Ok (Sample.start, "visits", [7]%Z).
Proof.
  destruct (prepared_statement_stable (fun _ : string => [500]%Z) (fun _ : Sample.LPlan => [300]%Z) Sample.to_plan
    (fun _ p => Ok p) (fun _ p => Ok p) Sample.run (fun _ => Ok [("1", Some tt)])
    (fun _ => tt) Sample.bind_values (fun db st => (db, st.2)) (fun _ _ => true)
    (session_new Sample.start) (Sample.step (session_new Sample.start) (OOpen (PStatement "visits"))).1
    (PStatement "visits") {| statement_id := 0; columns := tt; parameters := [("1", tt)] |}
    [OSwitch "lab"; OOpen (PStatement "beds"); OClose 1] [7]%Z) as [H _];
    [reflexivity|by repeat constructor|done|done|].
  intros s s' s1. etransitivity; [exact (f_equal snd H)|]. vm_compute. reflexivity.
Defined.
