(* ===== verification/SqlSchema.v ===== *)
(** * Column definitions and their Arrow types

    Models [common/src/conversions/datatypes.rs] and [column_def_ext.rs], the
    column modifiers of [common/src/parser.rs] and the field metadata of
    [common/src/metadata.rs]: how a column of a CREATE TABLE statement becomes a
    field of the schema that the planner works with. SQL types are those of the
    parser, one constructor each; the texts of types and expressions are the
    parser's [Display], the class [SqlDisplay]. *)
From S2P Require Import Prelude Values Sql Text ArrowCodec RangeIndex.

(** ** Prefixes of names *)

(** [str::strip_prefix] and [str::starts_with]. *)
Fixpoint strip_prefix (prefix s : string) : option string :=
  match prefix, s with
  | EmptyString, s => Some s
  | String a prefix, String b s => if bool_decide (a = b) then strip_prefix prefix s else None
  | String _ _, EmptyString => None
  end.

Definition starts_with (prefix s : string) : bool := bool_decide (is_Some (strip_prefix prefix s)).

Lemma strip_prefix_app prefix s : strip_prefix prefix (prefix +:+ s) = Some s.
Proof.
  induction prefix as [|a prefix IH]; [done|]. change (String a prefix +:+ s) with (String a (prefix +:+ s)).
  cbn. by rewrite bool_decide_true.
Qed.

Lemma strip_prefix_Some prefix s r : strip_prefix prefix s = Some r -> s = prefix +:+ r.
Proof.
  revert s. induction prefix as [|a prefix IH]; intros s; cbn; [by intros [= ->]|].
  destruct s as [|b s]; [done|]. case_bool_decide; [|done]. subst. by intros ->%IH.
Qed.

Lemma starts_with_app prefix s : starts_with prefix (prefix +:+ s) = true.
Proof. unfold starts_with. rewrite strip_prefix_app. by apply bool_decide_true. Qed.

(** ** SQL types *)

Inductive ExactNumberInfo := NumNone | NumPrecision (p : Z) | NumPrecisionAndScale (p s : Z).

Inductive TimezoneInfo := TzNone | TzWithTimeZone | TzWithoutTimeZone | Tz.

Inductive BinaryLength := IntegerLength (length : Z) | BinaryMax.

(** [sqlparser::ast::DataType]; arguments the code ignores are lengths or left out. *)
Inductive SqlType :=
  | TCharacter (l : option Z) | TChar (l : option Z) | TCharacterVarying (l : option Z)
  | TCharVarying (l : option Z) | TVarchar (l : option Z) | TNvarchar (l : option Z)
  | TUuid | TCharacterLargeObject (l : option Z) | TCharLargeObject (l : option Z)
  | TClob (l : option Z) | TBinary (l : option Z) | TVarbinary (l : option BinaryLength)
  | TBlob (l : option Z) | TTinyBlob | TMediumBlob | TLongBlob | TBytes (l : option Z)
  | TNumeric (i : ExactNumberInfo) | TDecimal (i : ExactNumberInfo) | TDec (i : ExactNumberInfo)
  | TBigNumeric (i : ExactNumberInfo) | TBigDecimal (i : ExactNumberInfo)
  | TFloat (i : ExactNumberInfo)
  | TTinyInt (l : option Z) | TTinyIntUnsigned (l : option Z) | TUTinyInt
  | TInt2 (l : option Z) | TInt2Unsigned (l : option Z)
  | TSmallInt (l : option Z) | TSmallIntUnsigned (l : option Z) | TUSmallInt
  | TMediumInt (l : option Z) | TMediumIntUnsigned (l : option Z)
  | TInt (l : option Z) | TInt4 (l : option Z) | TInt8 (l : option Z)
  | TInt16 | TInt32 | TInt64 | TInt128 | TInt256
  | TInteger (l : option Z) | TIntUnsigned (l : option Z) | TInt4Unsigned (l : option Z)
  | TIntegerUnsigned (l : option Z) | THugeInt | TUHugeInt
  | TUInt8 | TUInt16 | TUInt32 | TUInt64 | TUInt128 | TUInt256
  | TBigInt (l : option Z) | TBigIntUnsigned (l : option Z) | TUBigInt | TInt8Unsigned (l : option Z)
  | TSigned | TSignedInteger | TUnsigned | TUnsignedInteger
  | TFloat4 | TFloat32 | TFloat64 | TReal | TRealUnsigned | TFloatUnsigned (i : ExactNumberInfo)
  | TFloat8 | TDouble (i : ExactNumberInfo) | TDoubleUnsigned (i : ExactNumberInfo)
  | TDoublePrecision | TDoublePrecisionUnsigned
  | TDecimalUnsigned (i : ExactNumberInfo) | TDecUnsigned (i : ExactNumberInfo)
  | TBool | TBoolean | TDate | TDate32 | TTime (p : option Z) (tz : TimezoneInfo)
  | TDatetime (p : option Z) | TDatetime64 | TTimestamp (p : option Z) (tz : TimezoneInfo) | TTimestampNtz
  | TInterval | TJSON | TJSONB | TRegclass | TText | TTinyText | TMediumText | TLongText
  | TString (l : option Z) | TFixedString (l : Z) | TBytea | TBit (l : option Z) | TBitVarying (l : option Z)
  | TVarBit (l : option Z)
  | TCustom (name : list (option string)) (args : list string)
  | TArrayAngle (item : SqlType) | TArrayOther
  | TMap | TTuple | TNested | TEnum (members : list string) | TSet (members : list string) | TStruct | TUnion
  | TNullable | TLowCardinality | TUnspecified | TTrigger | TAnyType | TTable | TNamedTable
  | TGeometricType | TTsVector | TTsQuery.

(** [Display] of the parser's types and expressions. *)
Class SqlDisplay := { type_text : SqlType -> string; expr_text : SqlExpr -> string }.

Definition DECIMAL128_MAX_PRECISION : Z := 38.
Definition DECIMAL128_MAX_SCALE : Z := 38.
Definition DECIMAL256_MAX_PRECISION : Z := 76.
Definition DECIMAL256_MAX_SCALE : Z := 76.

(** Precision and scale, [as u8] and [as i8]. *)
Definition decimal_info (max_precision max_scale : Z) (i : ExactNumberInfo) : Z * Z :=
  match i with
  | NumNone => (max_precision, max_scale)
  | NumPrecision p => (wrap_u 8 p, max_scale)
  | NumPrecisionAndScale p s => (wrap_u 8 p, wrap_s 8 s)
  end.

(** [i32::from_str] and the types it builds. *)
Definition parse_i32 (s : string) : option Z :=
  match parse_i64 s with
  | Some z => if bool_decide (- 2 ^ 31 <= z < 2 ^ 31)%Z then Some z else None
  | None => None
  end.

Definition not_impl {A} : result A := Err (NotImplemented "Unsupported SQL type").

Section Convert.
Context `{Unicode}.

Definition lowercase_is (s : string) (keyword : string) : bool :=
  bool_decide (to_lowercase (chars s) = chars keyword).

Definition convert_custom (name : list (option string)) (args : list string) : result DataType :=
  match name with
  | [] => Err (Panic "index out of bounds")
  | None :: _ => not_impl
  | Some name :: _ =>
      if lowercase_is name "f32_vector" then
        match args with
        | len :: _ =>
            let? len := ok_or (parse_i32 len)
                          (NotImplemented "f32_vector argument must be an integer if present") in
            Ok (DtFixedSizeListFloat32 len)
        | [] => Ok (DtList DtFloat32)
        end
      else not_impl
  end.

Fixpoint convert_data_type (sql_type : SqlType) : result DataType :=
  match sql_type with
  | TCharacter _ | TChar _ | TCharacterVarying _ | TCharVarying _ | TVarchar _ | TNvarchar _
  | TClob _ | TJSON | TCharacterLargeObject _ | TCharLargeObject _ | TUuid
  | TText | TTinyText | TMediumText | TLongText | TString _ => Ok DtUtf8
  | TBlob (Some len) | TBytes (Some len) | TBinary (Some len) | TVarbinary (Some (IntegerLength len)) =>
      if bool_decide (len < 2 ^ 31)%Z then Ok DtBinary else Ok DtLargeBinary
  | TBlob _ | TBytes _ | TBytea | TBinary _ | TVarbinary _ | TTinyBlob | TJSONB | TMediumBlob => Ok DtBinary
  | TLongBlob => Ok DtLargeBinary
  | TBoolean | TBool => Ok DtBoolean
  | TTinyInt _ => Ok DtInt8
  | TSmallInt _ | TInt2 _ | TInt16 => Ok DtInt16
  | TInt _ | TMediumInt _ | TInteger _ | TSignedInteger | TSigned | TInt32 | TInt4 _ => Ok DtInt32
  | TBigInt _ | TInt8 _ | TInt64 => Ok DtInt64
  | TTinyIntUnsigned _ | TUTinyInt | TUInt8 => Ok DtUInt8
  | TSmallIntUnsigned _ | TUSmallInt | TInt2Unsigned _ | TUInt16 => Ok DtUInt16
  | TBigIntUnsigned _ | TUBigInt | TInt8Unsigned _ | TUInt64 => Ok DtUInt64
  | TFloat _ => Ok DtFloat32
  | TReal | TFloat4 => Ok DtFloat32
  | TDouble _ | TDoublePrecision | TFloat8 => Ok DtFloat64
  | TIntUnsigned _ | TIntegerUnsigned _ | TUnsigned | TUnsignedInteger | TMediumIntUnsigned _
  | TUInt32 | TInt4Unsigned _ => Ok DtUInt32
  | TTimestamp _ _ | TDatetime _ => Ok (DtTimestamp Microsecond (Some "+00"))
  | TDate => Ok DtDate32
  | TTime None tz =>
      match tz with
      | TzNone | TzWithoutTimeZone => Ok (DtTime64 Nanosecond)
      | _ => not_impl
      end
  | TTime (Some _) _ => Ok (DtTime64 Nanosecond)
  | TNumeric i | TDec i | TDecimal i =>
      let (precision, scale) := decimal_info DECIMAL128_MAX_PRECISION DECIMAL128_MAX_SCALE i in
      Ok (DtDecimal128 precision scale)
  | TBigNumeric i | TBigDecimal i =>
      let (precision, scale) := decimal_info DECIMAL256_MAX_PRECISION DECIMAL256_MAX_SCALE i in
      Ok (DtDecimal256 precision scale)
  | TInterval => Ok (DtInterval MonthDayNano)
  | TEnum _ | TSet _ => Ok (DtDictionary DtUInt16 DtUtf8)
  | TArrayAngle dt => let? underlying := convert_data_type dt in Ok (DtList underlying)
  | TCustom on args => convert_custom on args
  | TRegclass | TArrayOther | TUnspecified | TDatetime64 | TFixedString _ | TMap | TTuple | TNested
  | TUnion | TNullable | TLowCardinality | TTrigger | TBit _ | TBitVarying _ | TAnyType | TTable
  | TVarBit _ | TInt128 | TInt256 | TUInt128 | TTimestampNtz | TTsVector | TTsQuery | THugeInt
  | TUHugeInt | TUInt256 | TFloat32 | TDate32 | TFloat64 | TNamedTable | TDoublePrecisionUnsigned
  | TDecimalUnsigned _ | TDecUnsigned _ | TFloatUnsigned _ | TRealUnsigned | TDoubleUnsigned _
  | TStruct | TGeometricType => not_impl
  end.
End Convert.

(** ** Column definitions *)

(** Keywords are recognised by the tokenizer. *)
Inductive Keyword := KwAutoIncrement | KwOther.

Inductive Token := TokWord (value : string) (keyword : Keyword) | TokOther (text : string).

Inductive ColumnOption :=
  | OptPrimaryKey | OptNotNull | OptNull
  | OptDefault (e : SqlExpr)
  | OptCollation (n : string)
  | OptDialectSpecific (tokens : list Token)
  | OptOther (text : string).

Record ColumnDef := { cd_name : string; cd_type : SqlType; cd_options : list ColumnOption }.

Definition ENCRYPTED_KW : string := "encrypted".
Definition DECRYPTED_KW : string := "decrypted".

(** [find_map] and [any] over the options. *)
Fixpoint find_map {A B} (f : A -> option B) (l : list A) : option B :=
  match l with
  | [] => None
  | a :: l => match f a with Some b => Some b | None => find_map f l end
  end.

Definition is_primary_key (c : ColumnDef) : bool :=
  existsb (fun o => match o with OptPrimaryKey => true | _ => false end) (cd_options c).

Definition is_nullable (c : ColumnDef) : bool :=
  negb (existsb (fun o => match o with OptNotNull => true | _ => false end) (cd_options c)).

Definition get_default_value (c : ColumnDef) : option SqlExpr :=
  find_map (fun o => match o with OptDefault e => Some e | _ => None end) (cd_options c).

Definition get_collation (c : ColumnDef) : option string :=
  find_map (fun o => match o with OptCollation n => Some n | _ => None end) (cd_options c).

Definition is_auto_increment (c : ColumnDef) : bool :=
  existsb (fun o => match o with
                    | OptDialectSpecific tokens =>
                        existsb (fun t => match t with TokWord _ KwAutoIncrement => true | _ => false end) tokens
                    | _ => false
                    end) (cd_options c).

(** [extract_if] is lazy: only the first default is taken out. *)
Fixpoint pop_default (options : list ColumnOption) : option SqlExpr * list ColumnOption :=
  match options with
  | [] => (None, [])
  | OptDefault e :: options => (Some e, options)
  | o :: options => let '(e, options) := pop_default options in (e, o :: options)
  end.

Definition pop_default_value (c : ColumnDef) : option SqlExpr * ColumnDef :=
  let '(e, options) := pop_default (cd_options c) in
  (e, {| cd_name := cd_name c; cd_type := cd_type c; cd_options := options |}).

Section Modifiers.
Context `{Unicode}.

Definition is_token_kw (keyword : string) (t : Token) : bool :=
  match t with TokWord value _ => lowercase_is value keyword | TokOther _ => false end.

Definition is_token_encrypted_kw (t : Token) : bool := is_token_kw ENCRYPTED_KW t.
Definition is_token_decrypted_kw (t : Token) : bool := is_token_kw DECRYPTED_KW t.

Definition is_encrypted_option (o : ColumnOption) : bool :=
  match o with OptDialectSpecific tokens => existsb is_token_encrypted_kw tokens | _ => false end.

Definition is_decrypted_option (o : ColumnOption) : bool :=
  match o with OptDialectSpecific tokens => existsb is_token_decrypted_kw tokens | _ => false end.

Definition is_encrypted_column (c : ColumnDef) : bool := existsb is_encrypted_option (cd_options c).
Definition is_decrypted_column (c : ColumnDef) : bool := existsb is_decrypted_option (cd_options c).

Definition clear_encryption_flag (c : ColumnDef) : ColumnDef :=
  {| cd_name := cd_name c; cd_type := cd_type c;
     cd_options := List.filter (fun o => negb (is_encrypted_option o) && negb (is_decrypted_option o))
                     (cd_options c) |}.
End Modifiers.

(** ** Fields and their metadata *)

Record Field := {
  field_name : string; field_type : DataType; field_nullable : bool;
  field_metadata : gmap string string
}.

#[export] Instance Field_eq_dec : EqDecision Field.
Proof. solve_decision. Defined.

Definition field_new (n : string) (dt : DataType) (nullable : bool) : Field :=
  {| field_name := n; field_type := dt; field_nullable := nullable; field_metadata := ∅ |}.

Definition KEY_TABLE : string := "proxy_table".
Definition KEY_ENCRYPTED : string := "proxy_column_encrypted".
Definition KEY_DEFAULT_VALUE : string := "proxy_column_default".
Definition KEY_RAW_SOURCE_TYPE : string := "proxy_raw_source_type".
Definition KEY_RAW_COLLATION : string := "proxy_raw_collation".

Definition metadata_set (key value : string) (f : Field) : Field :=
  {| field_name := field_name f; field_type := field_type f; field_nullable := field_nullable f;
     field_metadata := <[key := value]> (field_metadata f) |}.

Definition metadata_unset (key : string) (f : Field) : Field :=
  {| field_name := field_name f; field_type := field_type f; field_nullable := field_nullable f;
     field_metadata := delete key (field_metadata f) |}.

Definition metadata_get (key : string) (f : Field) : option string := field_metadata f !! key.

Definition default_value : Field -> option string := metadata_get KEY_DEFAULT_VALUE.
Definition raw_source_type : Field -> option string := metadata_get KEY_RAW_SOURCE_TYPE.
Definition field_encrypted (f : Field) : bool := bool_decide (metadata_get KEY_ENCRYPTED f = Some "1").

Definition set_encrypted (original_table : string) (f : Field) : Field :=
  metadata_set KEY_TABLE original_table (metadata_set KEY_ENCRYPTED "1" f).
Definition clear_encrypted : Field -> Field := metadata_unset KEY_ENCRYPTED.
Definition set_default_value : string -> Field -> Field := metadata_set KEY_DEFAULT_VALUE.
Definition set_raw_source_type : string -> Field -> Field := metadata_set KEY_RAW_SOURCE_TYPE.
Definition set_raw_collation : string -> Field -> Field := metadata_set KEY_RAW_COLLATION.

(** Sets an optional entry. *)
Definition set_if (set : string -> Field -> Field) (v : option string) (f : Field) : Field :=
  match v with Some v => set v f | None => f end.

Section Fields.
Context `{Unicode} `{SqlDisplay}.

Definition column_to_field (c : ColumnDef) : result Field :=
  let? dt := convert_data_type (cd_type c) in
  let field := field_new (cd_name c) dt (is_nullable c) in
  let field := set_raw_source_type (type_text (cd_type c)) field in
  let field := set_if set_default_value (expr_text <$> get_default_value c) field in
  Ok (set_if set_raw_collation (get_collation c) field).

Definition table_to_schema (columns : list ColumnDef) : result (list Field) :=
  result_mapM column_to_field columns.

Definition column_to_datatype (c : ColumnDef) : result DataType := convert_data_type (cd_type c).
End Fields.

(** ** Types of the server and their Arrow types *)

(** The least and greatest value of the server's integer types. *)
Definition server_int_range (t : SqlType) : option (Z * Z) :=
  match t with
  | TTinyInt _ => Some (-128, 127)%Z
  | TTinyIntUnsigned _ => Some (0, 255)%Z
  | TSmallInt _ | TInt2 _ => Some (-32768, 32767)%Z
  | TSmallIntUnsigned _ | TInt2Unsigned _ => Some (0, 65535)%Z
  | TMediumInt _ => Some (-8388608, 8388607)%Z
  | TMediumIntUnsigned _ => Some (0, 16777215)%Z
  | TInt _ | TInteger _ | TInt4 _ => Some (-2147483648, 2147483647)%Z
  | TIntUnsigned _ | TIntegerUnsigned _ | TInt4Unsigned _ => Some (0, 4294967295)%Z
  | TBigInt _ | TInt8 _ => Some (-9223372036854775808, 9223372036854775807)%Z
  | TBigIntUnsigned _ | TInt8Unsigned _ => Some (0, 18446744073709551615)%Z
  | _ => None
  end.

(** An integer fits a decimal type when its digits with the scale's zeros do not
    exceed the precision. *)
Definition decimal_holds (precision scale n : Z) : bool := (Z.abs (n * 10 ^ scale) <? 10 ^ precision)%Z.

(** C40: Every value of an integer column of the server is a value of the Arrow type
    the column is converted to. *)
Theorem integer_columns_fit `{Unicode} (t : SqlType) lo hi :
  server_int_range t = Some (lo, hi) ->
  exists dt w signed,
    convert_data_type t = Ok dt /\ native dt = Some (w, signed) /\
    forall z, (lo <= z <= hi)%Z -> fits_native w signed z.
Proof.
  intros Ht. destruct t; try discriminate Ht; injection Ht as <- <-;
    (do 3 eexists; split; [reflexivity|split; [reflexivity|]]; intros z Hz; cbv [fits_native fits_s fits_u]; cbn; lia).
Qed.

Lemma integer_columns_fit_witness :
  exists dt w signed,
    @convert_data_type ascii_unicode (TMediumInt None) = Ok dt /\ native dt = Some (w, signed) /\
    forall z, (-8388608 <= z <= 8388607)%Z -> fits_native w signed z.
Proof. apply (@integer_columns_fit ascii_unicode (TMediumInt None)). reflexivity. Defined.

(** A decimal column declared without a scale gets the largest scale, 38, in place
    of the server's 0: its type holds no integer but 0. *)
Theorem decimal_scale_excludes_integers `{Unicode} (i : ExactNumberInfo) n :
  match i with NumPrecision p => (0 <= p <= 38)%Z | NumNone => True | _ => False end ->
  n <> 0%Z ->
  exists precision, convert_data_type (TDecimal i) = Ok (DtDecimal128 precision 38) /\
    decimal_holds precision 38 n = false.
Proof.
  intros Hi Hn.
  assert (forall p, (0 <= p <= 38)%Z -> decimal_holds p 38 n = false) as Hh.
  { intros p Hp. apply Z.ltb_ge. etransitivity; [apply (Z.pow_le_mono_r 10 p 38); lia|].
    rewrite Z.abs_mul. change (Z.abs (10 ^ 38)) with (10 ^ 38)%Z.
    rewrite <- (Z.mul_1_l (10 ^ 38)) at 1. apply Z.mul_le_mono_nonneg_r; lia. }
  destruct i as [|p|p s]; [| |done]; cbn; eexists; (split; [reflexivity|]); apply Hh; [done|].
  by rewrite wrap_u_id by (unfold fits_u; lia).
Qed.

Lemma decimal_scale_excludes_integers_witness :
  exists precision, @convert_data_type ascii_unicode (TDecimal (NumPrecision 10)) = Ok (DtDecimal128 precision 38) /\
    decimal_holds precision 38 3 = false.
Proof. apply (@decimal_scale_excludes_integers ascii_unicode (NumPrecision 10) 3); lia. Defined.

(** ** Column modifiers *)

Lemma clear_encryption_flag_clears `{Unicode} c :
  is_encrypted_column (clear_encryption_flag c) = false /\
  is_decrypted_column (clear_encryption_flag c) = false.
Proof.
  unfold is_encrypted_column, is_decrypted_column, clear_encryption_flag. cbn.
  split; apply not_true_is_false; rewrite existsb_exists; intros (o & [Ho Hf]%filter_In & Hx);
    rewrite Hx in Hf; by rewrite ?andb_false_r in Hf.
Qed.

Lemma clear_encryption_flag_same `{Unicode} c :
  is_encrypted_column c = false -> is_decrypted_column c = false -> clear_encryption_flag c = c.
Proof.
  unfold is_encrypted_column, is_decrypted_column, clear_encryption_flag. destruct c as [n t opts]. cbn.
  intros He Hd. f_equal. induction opts as [|o opts IH]; [done|]. cbn in *.
  apply orb_false_iff in He as [-> He], Hd as [-> Hd]. cbn. by rewrite IH.
Qed.
