(* ===== verification/Statements.v ===== *)
(** * Statements as syntax trees

    Models what is done to a parsed statement before it is planned: the rewrites of the
    front end ([frontends/mysql/src/command_phase/rewrites] and [placeholders.rs]), the
    normalization of names ([backends/mysql/src/planning/logical/normalize_ident.rs]),
    the values of an INSERT ... ON DUPLICATE KEY UPDATE ([insert.rs]) and the statements
    that are forwarded with their parameters ([custom_forward_statement.rs]). All are
    visitors of the parser's trees. *)
From S2P Require Import Prelude Values SqlSchema PlanCache.
From stdpp Require Import pretty.

(** ** Trees *)

Inductive AstValue :=
  | VNumber (v : string) | VBoolean (v : bool) | VString (s : string) | VNullValue
  | VPlaceholder (n : string).

#[export] Instance AstValue_eq_dec : EqDecision AstValue.
Proof. solve_decision. Defined.

Inductive UnaryOperator := BitwiseNot | OtherUnary (op : string).

(** The arguments of a call, and the clauses after them. *)
Inductive FunctionArg (E : Type) := UnnamedArg (e : E) | NamedArg (n : string) (e : E) | WildcardArg.
Arguments UnnamedArg {E} e.
Arguments NamedArg {E} n e.
Arguments WildcardArg {E}.

Inductive FunctionArgumentClause := Separator (v : AstValue) | OtherClause (text : string).

Inductive AstExpr :=
  | AIdentifier (n : string)
  | ACompoundIdentifier (parts : list string)
  | AValue (v : AstValue)
  | ABinaryOp (left : AstExpr) (op : string) (right : AstExpr)
  | AUnaryOp (op : UnaryOperator) (e : AstExpr)
  | AFunction (n : list string) (args : list (FunctionArg AstExpr)) (clauses : list FunctionArgumentClause)
  | AFunctionNoArgs (n : list string)      (* no list of arguments *)
  | ADictionary (fields : list (string * AstExpr))
  | AExists (children : list AstExpr)      (* the expressions of the subquery *)
  | AOther (kind : string) (children : list AstExpr).

Definition arg_exprs {E} (a : FunctionArg E) : list E :=
  match a with UnnamedArg e | NamedArg _ e => [e] | WildcardArg => [] end.

Section AstInduction.
Variable P : AstExpr -> Prop.
Hypothesis HIdentifier : forall n, P (AIdentifier n).
Hypothesis HCompound : forall parts, P (ACompoundIdentifier parts).
Hypothesis HValue : forall v, P (AValue v).
Hypothesis HBinary : forall l op r, P l -> P r -> P (ABinaryOp l op r).
Hypothesis HUnary : forall op e, P e -> P (AUnaryOp op e).
Hypothesis HFunction : forall n args cs, Forall (fun a => Forall P (arg_exprs a)) args -> P (AFunction n args cs).
Hypothesis HNoArgs : forall n, P (AFunctionNoArgs n).
Hypothesis HDictionary : forall fs, Forall (fun f => P f.2) fs -> P (ADictionary fs).
Hypothesis HExists : forall es, Forall P es -> P (AExists es).
Hypothesis HOther : forall k es, Forall P es -> P (AOther k es).

Fixpoint ast_ind (e : AstExpr) : P e :=
  let all := list_rect (Forall P) (Forall_nil_2 _) (fun e es IH => Forall_cons_2 _ e es (ast_ind e) IH) in
  match e with
  | AIdentifier n => HIdentifier n
  | ACompoundIdentifier parts => HCompound parts
  | AValue v => HValue v
  | ABinaryOp l op r => HBinary l op r (ast_ind l) (ast_ind r)
  | AUnaryOp op e => HUnary op e (ast_ind e)
  | AFunction n args cs =>
      HFunction n args cs
        (list_rect (Forall (fun a => Forall P (arg_exprs a))) (Forall_nil_2 _)
           (fun a l IH => Forall_cons_2 (fun a => Forall P (arg_exprs a)) a l
              match a return Forall P (arg_exprs a) with
              | UnnamedArg e | NamedArg _ e => Forall_cons_2 _ e [] (ast_ind e) (Forall_nil_2 _)
              | WildcardArg => Forall_nil_2 _
              end IH) args)
  | AFunctionNoArgs n => HNoArgs n
  | ADictionary fs =>
      HDictionary fs (list_rect (Forall (fun f => P f.2)) (Forall_nil_2 _)
                        (fun f l IH => Forall_cons_2 (fun f => P f.2) f l (ast_ind f.2) IH) fs)
  | AExists es => HExists es (all es)
  | AOther k es => HOther k es (all es)
  end.
End AstInduction.

(** ** Visitors *)

(** [VisitMut]: [leaf] is what is done before a name or a value is visited, where all the
    visitors of the code that work before their children act, and [post] what is done
    after an expression was visited. An error is a [Break]. *)
Section Visit.
Context {S : Type}.
Variable leaf : S -> AstExpr -> result (S * AstExpr).
Variable post : S -> AstExpr -> result (S * AstExpr).

Definition visit_list {A} (f : S -> A -> result (S * A)) : S -> list A -> result (S * list A) :=
  fix go s l :=
    match l with
    | [] => Ok (s, [])
    | x :: l => let? (s, x) := f s x in let? (s, l) := go s l in Ok (s, x :: l)
    end.

Fixpoint visit (s : S) (e : AstExpr) : result (S * AstExpr) :=
  match e with
  | AIdentifier _ | ACompoundIdentifier _ | AValue _ => let? (s, e) := leaf s e in post s e
  | ABinaryOp l op r => let? (s, l) := visit s l in let? (s, r) := visit s r in post s (ABinaryOp l op r)
  | AUnaryOp op e => let? (s, e) := visit s e in post s (AUnaryOp op e)
  | AFunction n args cs =>
      let? (s, args) := visit_list (fun s a => match a with
                                               | UnnamedArg e => let? (s, e) := visit s e in Ok (s, UnnamedArg e)
                                               | NamedArg n e => let? (s, e) := visit s e in Ok (s, NamedArg n e)
                                               | WildcardArg => Ok (s, WildcardArg)
                                               end) s args in
      post s (AFunction n args cs)
  | AFunctionNoArgs _ => post s e
  | ADictionary fs => let? (s, fs) := visit_list (fun s '(k, e) => let? (s, e) := visit s e in Ok (s, (k, e))) s fs in post s (ADictionary fs)
  | AExists es => let? (s, es) := visit_list visit s es in post s (AExists es)
  | AOther k es => let? (s, es) := visit_list visit s es in post s (AOther k es)
  end.
End Visit.

Definition no_change {S} (s : S) (e : AstExpr) : result (S * AstExpr) := Ok (s, e).

(** ** Parameters of a prepared statement ([placeholders.rs]) *)

Definition POSITIONAL_PLACEHOLDER_PREFIX : string := "$".

Definition number_placeholder (n : nat) (e : AstExpr) : result (nat * AstExpr) :=
  match e with
  | AValue (VPlaceholder _) => Ok (S n, AValue (VPlaceholder (POSITIONAL_PLACEHOLDER_PREFIX +:+ pretty (S n))))
  | _ => Ok (n, e)
  end.

(** [ParametersToDatafusionVisitor] on the expressions of a statement. *)
Definition parameters_to_datafusion (es : list AstExpr) : result (nat * list AstExpr) :=
  visit_list (visit number_placeholder no_change) 0 es.

(** ** Rewrites of the front end *)

Inductive AstSelectItem := UnnamedExpr (e : AstExpr) | ExprWithAlias (e : AstExpr) (alias : string) | OtherItem (text : string).

Definition needs_aliasing (e : AstExpr) : bool := match e with AExists _ | AValue _ => true | _ => false end.

(** [Display] of an expression. *)
Definition rewrite_projection (display : AstExpr -> string) (projection : list AstSelectItem) : list AstSelectItem :=
  (fun item => match item with
               | UnnamedExpr e => if needs_aliasing e then ExprWithAlias e (display e) else item
               | _ => item
               end) <$> projection.

(** The separator of GROUP_CONCAT becomes one more argument. *)
Definition separator_arg (c : FunctionArgumentClause) : list (FunctionArg AstExpr) :=
  match c with Separator v => [UnnamedArg (ADictionary [("separator", AValue v)])] | OtherClause _ => [] end.

Definition is_separator_clause (c : FunctionArgumentClause) : bool := match c with Separator _ => true | OtherClause _ => false end.

Definition rewrite_args (s : unit) (e : AstExpr) : result (unit * AstExpr) :=
  Ok (s, match e with
         | AFunction n args clauses => AFunction n (args ++ flat_map separator_arg clauses) (List.filter (fun c => negb (is_separator_clause c)) clauses)
         | _ => e
         end).

Definition make_function (n : string) (arg : AstExpr) : AstExpr := AFunction [n] [UnnamedArg arg] [].

Definition rewrite_ops (s : unit) (e : AstExpr) : result (unit * AstExpr) :=
  Ok (s, match e with AUnaryOp BitwiseNot e => make_function "bitwise_not" e | _ => e end).

(** [rewrite_statement] on an expression of a statement. *)
Definition rewrite_expr (e : AstExpr) : result AstExpr :=
  let? (_, e) := visit no_change rewrite_args tt e in
  let? (_, e) := visit no_change rewrite_ops tt e in Ok e.

(** ** Names ([normalize_ident.rs]) *)

Definition normalize_expr (s : unit) (e : AstExpr) : result (unit * AstExpr) :=
  Ok (s, match e with
         | AIdentifier n => AIdentifier (to_ascii_lowercase n)
         | ACompoundIdentifier parts => ACompoundIdentifier (to_ascii_lowercase <$> parts)
         | _ => e
         end).

Definition normalize_ast (e : AstExpr) : result AstExpr := let? (_, e) := visit normalize_expr no_change tt e in Ok e.

(** ** Values of ON DUPLICATE KEY UPDATE ([insert.rs]) *)

(** [VALUES(column)] is the expression it is called with. *)
Definition rewrite_function (e : AstExpr) : result AstExpr :=
  match e with
  | AFunction [] _ _ | AFunctionNoArgs [] => Err (Panic "index out of bounds")
  | AFunction (n :: _) args _ =>
      if bool_decide (n = "values") then
        match args with
        | [] => Err (PlanError "Invalid VALUES function call in ON DUPLICATE KEY CLAUSE: empty arguments list")
        | UnnamedArg e :: _ => Ok e
        | _ => Err (PlanError "Invalid VALUES function call in ON DUPLICATE KEY CLAUSE: invalid argument found")
        end
      else Ok e
  | AFunctionNoArgs (n :: _) =>
      if bool_decide (n = "values") then Err (PlanError "Invalid VALUES function call in ON DUPLICATE KEY CLAUSE: no arguments found")
      else Ok e
  | _ => Ok e
  end.

(** Whether the expression is a column of the table that is inserted into. *)
Definition is_bad_identifier (table : string) (e : AstExpr) : result bool :=
  match e with
  | ACompoundIdentifier parts =>
      match rev parts with
      | _ :: t :: _ => Ok (bool_decide (t = table))
      | _ => Err (Panic "assertion failed: len >= 2")
      end
  | _ => Ok false
  end.

(** An operand that is such a column is left out, and the operator with it. *)
Definition rewrite_bad_identifier (table : string) (e : AstExpr) : result AstExpr :=
  match e with
  | ABinaryOp l _ r =>
      let? bad_left := is_bad_identifier table l in
      if bad_left then Ok r
      else
        let? bad_right := is_bad_identifier table r in
        Ok (if bad_right then l else e)
  | _ => Ok e
  end.

Definition values_post (table : string) (s : unit) (e : AstExpr) : result (unit * AstExpr) :=
  let? e := rewrite_function e in
  let? e := rewrite_bad_identifier table e in Ok (s, e).

(** [ValuesRewriter]. *)
Definition rewrite_values (table : string) (e : AstExpr) : result AstExpr :=
  let? (_, e) := visit no_change (values_post table) tt e in Ok e.

(** [parse_assignments]: the first name of a target. *)
Inductive AssignmentTarget := ColumnName (parts : list (option string)) | Tuple (columns : list (list (option string))).

Definition parse_assignments (assignments : list (AssignmentTarget * AstExpr)) : result (list string * list AstExpr) :=
  let? l := result_mapM (fun '(target, value) =>
              match target with
              | Tuple _ => Err (PlanError "invalid SET expression")
              | ColumnName [] => Err (PlanError "invalid empty target for SET expression")
              | ColumnName (None :: _) => Err (PlanError "invalid target for SET expression")
              | ColumnName (Some cn :: _) => Ok (cn, value)
              end) assignments in
  Ok (l.*1, l.*2).

(** ** Forwarded statements ([custom_forward_statement.rs]) *)

(** The expression of a placeholder: its name and its type, and [Placeholder::new(name,
    None)], which has none. *)
Abbreviation PlaceholderExpr := (string * option DataType)%type.
Definition untyped (n : string) : PlaceholderExpr := (n, None).

(** The placeholders of an expression, in the order of the visit. *)
Definition find_placeholder (found : list PlaceholderExpr) (e : AstExpr) : result (list PlaceholderExpr * AstExpr) :=
  match e with
  | AValue (VPlaceholder n) => Ok (found ++ [untyped n], e)
  | _ => Ok (found, e)
  end.

Definition find_placeholders (es : list AstExpr) : result (list PlaceholderExpr) :=
  let? (found, _) := visit_list (visit find_placeholder no_change) [] es in Ok found.

Section Forward.
(** A value that was bound, as DataFusion has it, and its text: a value, or an
    expression that is not one. *)
Context {V : Type}.
Variable expr_to_sql : V -> result AstExpr.

Definition replace_placeholder (s : list V * list PlaceholderExpr) (e : AstExpr) : result (list V * list PlaceholderExpr * AstExpr) :=
  match e with
  | AValue (VPlaceholder n) =>
      let? (values, v) :=
        match s.1 with
        | [] => Ok ([], VPlaceholder n)
        | next_value :: values =>
            let? unparsed := unwrap_ok (expr_to_sql next_value) in
            Ok (values, match unparsed with AValue v => v | _ => VPlaceholder n end)
        end in
      Ok (values, s.2 ++ (untyped <$> match v with VPlaceholder n => [n] | _ => [] end), AValue v)
  | _ => Ok (s, e)
  end.

Record ForwardStatement := { fs_inner : list AstExpr; found_placeholders : list PlaceholderExpr }.

Definition forward_new (es : list AstExpr) : result ForwardStatement :=
  let? found := find_placeholders es in Ok {| fs_inner := es; found_placeholders := found |}.

(** [with_exprs_and_inputs]. *)
Definition with_exprs (f : ForwardStatement) (exprs : list V) : result ForwardStatement :=
  let? (s, es) := visit_list (visit replace_placeholder no_change) (exprs, []) (fs_inner f) in
  Ok {| fs_inner := es; found_placeholders := s.2 |}.
End Forward.

(** ** Holes

    What the visitors of placeholders do, without their state: the placeholders of an
    expression in the order of the visit, and the expression with values in their place. *)
Fixpoint holes (e : AstExpr) : list string :=
  match e with
  | AValue (VPlaceholder n) => [n]
  | AIdentifier _ | ACompoundIdentifier _ | AValue _ | AFunctionNoArgs _ => []
  | ABinaryOp l _ r => holes l ++ holes r
  | AUnaryOp _ e => holes e
  | AFunction _ args _ => flat_map (fun a => match a with UnnamedArg e | NamedArg _ e => holes e | WildcardArg => [] end) args
  | ADictionary fs => flat_map (fun f => holes f.2) fs
  | AExists es | AOther _ es => flat_map holes es
  end.

Definition arg_holes (a : FunctionArg AstExpr) : list string :=
  match a with UnnamedArg e | NamedArg _ e => holes e | WildcardArg => [] end.

Definition plug_list {A} (holes : A -> list string) (plug : list AstValue -> A -> A) : list AstValue -> list A -> list A :=
  fix go vs l :=
    match l with
    | [] => []
    | x :: l => plug (take (length (holes x)) vs) x :: go (drop (length (holes x)) vs) l
    end.

Fixpoint plug (vs : list AstValue) (e : AstExpr) : AstExpr :=
  match e with
  | AValue (VPlaceholder _) => match vs with v :: _ => AValue v | [] => e end
  | AIdentifier _ | ACompoundIdentifier _ | AValue _ | AFunctionNoArgs _ => e
  | ABinaryOp l op r => ABinaryOp (plug (take (length (holes l)) vs) l) op (plug (drop (length (holes l)) vs) r)
  | AUnaryOp op e => AUnaryOp op (plug vs e)
  | AFunction n args cs =>
      AFunction n (plug_list arg_holes (fun vs a => match a with
                                                    | UnnamedArg e => UnnamedArg (plug vs e)
                                                    | NamedArg n e => NamedArg n (plug vs e)
                                                    | WildcardArg => WildcardArg
                                                    end) vs args) cs
  | ADictionary fs => ADictionary (plug_list (fun f => holes f.2) (fun vs f => (f.1, plug vs f.2)) vs fs)
  | AExists es => AExists (plug_list holes plug vs es)
  | AOther k es => AOther k (plug_list holes plug vs es)
  end.

Section Thread.
Context {S : Type}.
Variable step : S -> string -> result (S * AstValue).

(** The step on a list of placeholders. *)
Fixpoint thread (s : S) (names : list string) : result (S * list AstValue) :=
  match names with
  | [] => Ok (s, [])
  | n :: names => let? (s, v) := step s n in let? (s, vs) := thread s names in Ok (s, v :: vs)
  end.

Lemma thread_app s l k s' vs : thread s (l ++ k) = Ok (s', vs) ->
  exists s1 v1 v2, thread s l = Ok (s1, v1) /\ thread s1 k = Ok (s', v2) /\ vs = v1 ++ v2 /\ length v1 = length l.
Proof.
  revert s vs. induction l as [|n l IH]; intros s vs Ht; cbn in Ht; [by exists s, [], vs|].
  apply result_bind_ok in Ht as ([s0 v] & Hs & Ht). apply result_bind_ok in Ht as ([s1 vs'] & Hl & Ht). inv_ok.
  destruct (IH _ _ Hl) as (s2 & v1 & v2 & H1 & H2 & -> & Hn). exists s2, (v :: v1), v2. cbn. rewrite Hs. cbn. rewrite H1. cbn.
  split_and!; [done..|]. by rewrite Hn.
Qed.

(** A visitor of placeholders. *)
Variable leaf : S -> AstExpr -> result (S * AstExpr).
Hypothesis leaf_placeholder : forall s n, leaf s (AValue (VPlaceholder n)) = let? (s, v) := step s n in Ok (s, AValue v).
Hypothesis leaf_other : forall s e, holes e = [] -> leaf s e = Ok (s, e).

Definition plugs {A} (holes : A -> list string) (plug : list AstValue -> A -> A) (f : S -> A -> result (S * A)) (x : A) : Prop :=
  forall s s' vs, thread s (holes x) = Ok (s', vs) -> f s x = Ok (s', plug vs x).

Lemma plugs_list {A} (holes : A -> list string) plug f l : Forall (plugs holes plug f) l ->
  forall s s' vs, thread s (flat_map holes l) = Ok (s', vs) -> visit_list f s l = Ok (s', plug_list holes plug vs l).
Proof.
  induction 1 as [|x l Hx _ IH]; intros s s' vs Ht; cbn in Ht; [by inv_ok|].
  apply thread_app in Ht as (s1 & v1 & v2 & H1 & H2 & -> & Hn). cbn. rewrite (Hx _ _ _ H1). cbn. rewrite (IH _ _ _ H2). cbn.
  by rewrite <- Hn, take_app_length, drop_app_length.
Qed.

Lemma visit_plugs e : plugs holes plug (visit leaf no_change) e.
Proof.
  induction e as [n|parts|v|l op r IHl IHr|op e IH|n args cs IH|n|fs IH|es IH|k es IH] using ast_ind; intros s s' vs Ht; cbn in Ht |- *.
  - inv_ok. by rewrite leaf_other.
  - inv_ok. by rewrite leaf_other.
  - destruct v; cbn in Ht; try (inv_ok; by rewrite leaf_other). rewrite leaf_placeholder. apply result_bind_ok in Ht as ([s1 v] & -> & Ht). cbn in *.
    by inv_ok.
  - apply thread_app in Ht as (s1 & v1 & v2 & H1 & H2 & -> & Hn). rewrite (IHl _ _ _ H1). cbn. rewrite (IHr _ _ _ H2). cbn.
    by rewrite <- Hn, take_app_length, drop_app_length.
  - by rewrite (IH _ _ _ Ht).
  - erewrite (plugs_list arg_holes); [done| |exact Ht]. eapply Forall_impl; [exact IH|]. intros [e|k e|] Ha s1 s1' vs1 H1; cbn in H1 |- *.
    + apply Forall_inv in Ha. by rewrite (Ha _ _ _ H1).
    + apply Forall_inv in Ha. by rewrite (Ha _ _ _ H1).
    + by inv_ok.
  - by inv_ok.
  - erewrite (plugs_list (fun f => holes f.2)); [done| |exact Ht]. eapply Forall_impl; [exact IH|]. intros [k e] Ha s1 s1' vs1 H1. cbn in *.
    by rewrite (Ha _ _ _ H1).
  - by erewrite (plugs_list holes); [|exact IH|exact Ht].
  - by erewrite (plugs_list holes); [|exact IH|exact Ht].
Qed.

Lemma visit_list_plugs es s s' vs : thread s (flat_map holes es) = Ok (s', vs) ->
  visit_list (visit leaf no_change) s es = Ok (s', plug_list holes plug vs es).
Proof. apply plugs_list. apply Forall_forall. intros e _. apply visit_plugs. Qed.
End Thread.

(** ** Laws of holes *)

Definition value_holes (v : AstValue) : list string := match v with VPlaceholder n => [n] | _ => [] end.

(** The holes of an expression whose holes were filled, and its holes filled again. *)
Definition refills {A} (holes : A -> list string) (plug : list AstValue -> A -> A) (x : A) : Prop :=
  (forall vs, length vs = length (holes x) -> holes (plug vs x) = flat_map value_holes vs) /\
  (forall ns vs, length ns = length (holes x) -> length vs = length (holes x) -> plug vs (plug (VPlaceholder <$> ns) x) = plug vs x).

Lemma flat_map_placeholders ns : flat_map value_holes (VPlaceholder <$> ns) = ns.
Proof. induction ns as [|n ns IH]; [done|]. cbn. by rewrite IH. Qed.

Lemma refills_list {A} (holes : A -> list string) plug l : Forall (refills holes plug) l ->
  (forall vs, length vs = length (flat_map holes l) -> flat_map holes (plug_list holes plug vs l) = flat_map value_holes vs) /\
  (forall ns vs, length ns = length (flat_map holes l) -> length vs = length (flat_map holes l) ->
     plug_list holes plug vs (plug_list holes plug (VPlaceholder <$> ns) l) = plug_list holes plug vs l).
Proof.
  induction 1 as [|x l [Hh Hp] _ [IHh IHp]]; split; cbn.
  - by intros [].
  - by intros [].
  - intros vs Hl. rewrite length_app in Hl. rewrite Hh by (rewrite length_take; lia). rewrite IHh by (rewrite length_drop; lia).
    rewrite <- flat_map_app. by rewrite take_drop.
  - intros ns vs Hl Hv. rewrite length_app in Hl, Hv. rewrite <- fmap_take, <- fmap_drop.
    rewrite Hh by (rewrite length_fmap, length_take; lia). rewrite flat_map_placeholders, length_take.
    replace (length (holes x) `min` length ns) with (length (holes x)) by lia.
    rewrite Hp by (rewrite length_take; lia). rewrite IHp by (rewrite length_drop; lia). done.
Qed.

Lemma refills_expr e : refills holes plug e.
Proof.
  induction e as [n|parts|v|l op r [IHl1 IHl2] [IHr1 IHr2]|op e [IH1 IH2]|n args cs IH|n|fs IH|es IH|k es IH] using ast_ind.
  - split; [by intros []|by intros []].
  - split; [by intros []|by intros []].
  - destruct v; split; try (by intros []).
    + intros [|v [|]] Hl; try done. cbn. by destruct v.
    + intros [|m [|]] [|w [|]] Hl Hv; done.
  - split; cbn.
    + intros vs Hl. rewrite length_app in Hl. rewrite IHl1 by (rewrite length_take; lia). rewrite IHr1 by (rewrite length_drop; lia).
      rewrite <- flat_map_app. by rewrite take_drop.
    + intros ns vs Hl Hv. rewrite length_app in Hl, Hv. rewrite <- fmap_take, <- fmap_drop.
      rewrite IHl1 by (rewrite length_fmap, length_take; lia). rewrite flat_map_placeholders, length_take.
      replace (length (holes l) `min` length ns) with (length (holes l)) by lia.
      rewrite IHl2 by (rewrite length_take; lia). by rewrite IHr2 by (rewrite length_drop; lia).
  - split; cbn; [done|]. intros ns vs Hl Hv. by rewrite IH2.
  - assert (Forall (refills arg_holes (fun vs a => match a with
      | UnnamedArg e => UnnamedArg (plug vs e) | NamedArg n e => NamedArg n (plug vs e) | WildcardArg => WildcardArg end)) args) as Ha.
    { eapply Forall_impl; [exact IH|]. intros [e|k e|] He; [apply Forall_inv in He as [H1 H2]..|by split; [intros []|]];
        (split; [exact H1|]); intros ns vs Hl Hv; cbn in *; by rewrite H2. }
    destruct (refills_list _ _ _ Ha) as [H1 H2]. split; [exact H1|]. intros ns vs Hl Hv. cbn. by rewrite H2.
  - split; [by intros []|by intros []].
  - assert (Forall (refills (fun f : string * AstExpr => holes f.2) (fun vs f => (f.1, plug vs f.2))) fs) as Hf.
    { eapply Forall_impl; [exact IH|]. intros [k e] [H1 H2]. split; [exact H1|]. intros ns vs Hl Hv. cbn in *. by rewrite H2. }
    destruct (refills_list _ _ _ Hf) as [H1 H2]. split; [exact H1|]. intros ns vs Hl Hv. cbn. by rewrite H2.
  - destruct (refills_list _ _ _ IH) as [H1 H2]. split; [exact H1|]. intros ns vs Hl Hv. cbn. by rewrite H2.
  - destruct (refills_list _ _ _ IH) as [H1 H2]. split; [exact H1|]. intros ns vs Hl Hv. cbn. by rewrite H2.
Qed.

Lemma refills_exprs es :
  (forall vs, length vs = length (flat_map holes es) -> flat_map holes (plug_list holes plug vs es) = flat_map value_holes vs) /\
  (forall ns vs, length ns = length (flat_map holes es) -> length vs = length (flat_map holes es) ->
     plug_list holes plug vs (plug_list holes plug (VPlaceholder <$> ns) es) = plug_list holes plug vs es).
Proof. apply refills_list. apply Forall_forall. intros e _. apply refills_expr. Qed.

(** ** From the client's statement to the forwarded one *)

(** The names that the front end gives to [n] placeholders. *)
Definition positional (n : nat) : list string := (fun i => POSITIONAL_PLACEHOLDER_PREFIX +:+ pretty (S i)) <$> seq 0 n.

Definition number_step (n : nat) (_ : string) : result (nat * AstValue) :=
  Ok (S n, VPlaceholder (POSITIONAL_PLACEHOLDER_PREFIX +:+ pretty (S n))).

Definition find_step (found : list PlaceholderExpr) (n : string) : result (list PlaceholderExpr * AstValue) :=
  Ok (found ++ [untyped n], VPlaceholder n).

Lemma number_thread k names :
  thread number_step k names =
  Ok (k + length names, (fun i => VPlaceholder (POSITIONAL_PLACEHOLDER_PREFIX +:+ pretty (S i))) <$> seq k (length names)).
Proof.
  revert k. induction names as [|n names IH]; intros k; cbn; [by rewrite Nat.add_0_r|]. rewrite IH. cbn.
  by rewrite Nat.add_succ_r.
Qed.

Lemma find_thread found names :
  thread find_step found names = Ok (found ++ (untyped <$> names), VPlaceholder <$> names).
Proof.
  revert found. induction names as [|n names IH]; intros found; cbn; [by rewrite app_nil_r|]. rewrite IH. cbn. by rewrite <- app_assoc.
Qed.


Section Bind.
Context {V : Type}.
Variable expr_to_sql : V -> result AstExpr.

(** The replacement of placeholders, one at a time. *)
Definition replace_step (s : list V * list PlaceholderExpr) (n : string) : result (list V * list PlaceholderExpr * AstValue) :=
  let? (values, v) :=
    match s.1 with
    | [] => Ok ([], VPlaceholder n)
    | next_value :: values =>
        let? unparsed := unwrap_ok (expr_to_sql next_value) in
        Ok (values, match unparsed with AValue v => v | _ => VPlaceholder n end)
    end in
  Ok (values, s.2 ++ (untyped <$> value_holes v), v).

Lemma replace_thread values literals names acc :
  Forall2 (fun v l => expr_to_sql v = Ok (AValue l) /\ value_holes l = []) values literals -> length names = length values ->
  thread replace_step (values, acc) names = Ok (([], acc), literals).
Proof.
  intros HF. revert names. induction HF as [|v l values literals [Hs Hl] _ IH]; intros [|n names] Hn; cbn; try done.
  unfold replace_step at 1. cbn. rewrite Hs. cbn. rewrite Hl, app_nil_r. rewrite IH by (cbn in Hn; lia). done.
Qed.

(** The forwarded statement with its parameters, as far as the visitors go: the front end
    numbers the placeholders in the order of the text, the statement reports them in that
    order, and the statement with the values that are looked up by these names has, for
    the i-th question mark of the client's text, the i-th parameter; everything else is
    unchanged and no placeholder is left. No client gets there: the placeholders that are
    reported have no type, and preparing such a statement panics
    ([forwarded_parameter_panics]). *)
Theorem prepared_parameters_bound es params literals lookup :
  length params = length (flat_map holes es) ->
  (forall i v, params !! i = Some v -> lookup (POSITIONAL_PLACEHOLDER_PREFIX +:+ pretty (S i)) = v) ->
  Forall2 (fun v l => expr_to_sql v = Ok (AValue l) /\ value_holes l = []) params literals ->
  exists es1 f f', parameters_to_datafusion es = Ok (length params, es1) /\ forward_new es1 = Ok f /\
    found_placeholders f = untyped <$> positional (length params) /\
    with_exprs expr_to_sql f ((fun p => lookup p.1) <$> found_placeholders f) = Ok f' /\
    fs_inner f' = plug_list holes plug literals es /\ found_placeholders f' = [].
Proof.
  intros Hn Hlookup Hlit. destruct (refills_exprs es) as [Hholes Hplug].
  assert ((fun i => VPlaceholder (POSITIONAL_PLACEHOLDER_PREFIX +:+ pretty (S i))) <$> seq 0 (length params) =
          VPlaceholder <$> positional (length params)) as Hpos.
  { unfold positional. by rewrite <- list_fmap_compose. }
  assert (length (positional (length params)) = length (flat_map holes es)) as Hlp.
  { unfold positional. by rewrite length_fmap, length_seq. }
  set (es1 := plug_list holes plug (VPlaceholder <$> positional (length params)) es).
  assert (flat_map holes es1 = positional (length params)) as Hes1.
  { unfold es1. rewrite Hholes by by rewrite length_fmap. apply flat_map_placeholders. }
  exists es1, {| fs_inner := es1; found_placeholders := untyped <$> positional (length params) |}, {| fs_inner := plug_list holes plug literals es; found_placeholders := [] |}.
  assert (lookup <$> positional (length params) = params) as Hval.
  { apply list_eq. intros i. unfold positional. rewrite !list_lookup_fmap. destruct (params !! i) as [v|] eqn:Hi.
    - rewrite lookup_seq_lt by by eapply lookup_lt_Some. cbn. f_equal. by apply Hlookup.
    - apply lookup_ge_None in Hi. by rewrite lookup_seq_ge. }
  split_and!; try done.
  - unfold parameters_to_datafusion. erewrite (visit_list_plugs number_step number_placeholder);
      [|by intros s n|by intros s []; try done; destruct v|apply number_thread]. cbn [plus Nat.add]. rewrite <- Hn, Hpos. done.
  - unfold forward_new, find_placeholders. erewrite (visit_list_plugs find_step find_placeholder);
      [|by intros s n|by intros s []; try done; destruct v|apply find_thread]. cbn. by rewrite Hes1.
  - unfold with_exprs. cbn [fs_inner found_placeholders]. rewrite <- list_fmap_compose.
    change ((fun p : PlaceholderExpr => lookup p.1) ∘ untyped) with lookup. rewrite Hval.
    erewrite (visit_list_plugs replace_step (replace_placeholder expr_to_sql)); [| | |by apply replace_thread; [exact Hlit|rewrite Hes1, Hlp]].
    + cbn. unfold es1. rewrite Hplug; [done|done|]. by rewrite <- (Forall2_length _ _ _ Hlit).
    + intros s n. unfold replace_placeholder, replace_step. destruct s.1 as [|v l]; [done|]. by destruct (unwrap_ok _) as [[]|].
    + intros s []; try done. by destruct v.
Qed.
End Bind.

Definition demo_forwarded : list AstExpr :=
  [ABinaryOp (ABinaryOp (AIdentifier "a") "=" (AValue (VPlaceholder "?"))) "AND"
     (AFunction ["f"] [UnnamedArg (AValue (VPlaceholder "?")); NamedArg "k" (AValue (VString "?"))] [])].

Lemma prepared_parameters_bound_witness :
  exists es1 (f f' : ForwardStatement),
    parameters_to_datafusion demo_forwarded = Ok (2, es1) /\ forward_new es1 = Ok f /\ found_placeholders f = [("$1", None); ("$2", None)] /\
    with_exprs (fun v : string => Ok (AValue (VNumber v))) f
      ((fun p => if bool_decide (p.1 = "$1") then "7" else "8") <$> found_placeholders f) = Ok f' /\
    fs_inner f' = [ABinaryOp (ABinaryOp (AIdentifier "a") "=" (AValue (VNumber "7"))) "AND"
                     (AFunction ["f"] [UnnamedArg (AValue (VNumber "8")); NamedArg "k" (AValue (VString "?"))] [])].
Proof.
  destruct (prepared_parameters_bound (fun v : string => Ok (AValue (VNumber v))) demo_forwarded ["7"; "8"] [VNumber "7"; VNumber "8"]
    (fun n => if bool_decide (n = "$1") then "7" else "8")) as (es1 & f & f' & H1 & H2 & H3 & H4 & H5 & _).
  - reflexivity.
  - intros [|[|i]] v [= <-]; reflexivity.
  - repeat constructor.
  - exists es1, f, f'. split_and!; [exact H1|exact H2|exact H3|exact H4|]. rewrite H5. reflexivity.
Defined.

(** Finding: a statement that is forwarded cannot be prepared when it has a parameter. The
    session asks for the types of the parameters, the placeholders of the statement have
    none, and [statement_open] panics; queries with literals that are not UTF-8 are opened
    in the same way. *)
Lemma expect_types_untyped (n : string) (ns : list string) :
  PlanCache.expect_types (DataType := DataType) (untyped <$> n :: ns) = Err (Panic "placeholder with no type encountered").
Proof. reflexivity. Qed.

Lemma forwarded_parameter_panics {Statement LogicalPlan SessionState Fields : Type} `{!EqDecision Statement}
    statement_to_plan optimize get_parameter_types (plan_fields : LogicalPlan -> Fields)
    (query : PlanCache.ParsedStatement (Statement := Statement)) (s : PlanCache.DataFusionSession (SessionState := SessionState)) es f p :
  forward_new es = Ok f -> flat_map holes es <> [] ->
  PlanCache.prepare_optimize_plan statement_to_plan optimize (PlanCache.session s) query = Ok p ->
  get_parameter_types p = Ok (found_placeholders f) ->
  PlanCache.statement_open statement_to_plan optimize get_parameter_types plan_fields query s =
    (s, Err (Panic "placeholder with no type encountered")).
Proof.
  intros Hf Hes Hp Ht. unfold PlanCache.statement_open. rewrite Hp. cbn. rewrite Ht. cbn.
  assert (found_placeholders f = untyped <$> flat_map holes es) as ->.
  { unfold forward_new, find_placeholders in Hf. erewrite (visit_list_plugs find_step find_placeholder) in Hf;
      [|by intros s' n|by intros s' []; try done; destruct v|apply find_thread]. by injection Hf as <-. }
  destruct (flat_map holes es) as [|n ns]; [done|]. by rewrite expect_types_untyped.
Qed.

(** ** The meaning of ON DUPLICATE KEY UPDATE *)

Section Meaning.
Context {D : Type}.
(** The meaning of values, operators and calls. *)
Variable const : AstValue -> D.
Variable binary : string -> D -> D -> D.
Variable unary : UnaryOperator -> D -> D.
Variable call : list string -> list D -> D.
Variable other : string -> list D -> D.

(** The column of a call of [VALUES]. *)
Definition values_column (n : list string) (args : list (FunctionArg AstExpr)) : option string :=
  if bool_decide (n = ["values"]) then match args with [UnnamedArg (AIdentifier c)] => Some c | _ => None end else None.

(** The value of an expression when names stand for the columns of [column], and
    [VALUES(c)] for those of [inserted]. *)
Fixpoint eval_values (column inserted : string -> D) (e : AstExpr) : D :=
  match e with
  | AIdentifier n => column n
  | ACompoundIdentifier parts => column (default "" (last parts))
  | AValue v => const v
  | ABinaryOp l op r => binary op (eval_values column inserted l) (eval_values column inserted r)
  | AUnaryOp op e => unary op (eval_values column inserted e)
  | AFunction n args _ =>
      match values_column n args with
      | Some c => inserted c
      | None => call n (flat_map (fun a => match a with UnnamedArg e | NamedArg _ e => [eval_values column inserted e] | WildcardArg => [] end) args)
      end
  | AFunctionNoArgs n => call n []
  | ADictionary fs => other "dictionary" ((fun f => eval_values column inserted f.2) <$> fs)
  | AExists es => other "exists" (eval_values column inserted <$> es)
  | AOther k es => other k (eval_values column inserted <$> es)
  end.

(** Columns are named only as the argument of [VALUES]. *)
Fixpoint only_values (e : AstExpr) : bool :=
  match e with
  | AIdentifier _ | ACompoundIdentifier _ => false
  | AValue _ => true
  | ABinaryOp l _ r => only_values l && only_values r
  | AUnaryOp _ e => only_values e
  | AFunction n args _ =>
      match values_column n args with
      | Some c => true
      | None => match n with [] => false | m :: _ => negb (bool_decide (m = "values")) end &&
                forallb (fun a => match a with UnnamedArg e | NamedArg _ e => only_values e | WildcardArg => true end) args
      end
  | AFunctionNoArgs n => match n with [] => false | m :: _ => negb (bool_decide (m = "values")) end
  | ADictionary fs => forallb (fun f => only_values f.2) fs
  | AExists es | AOther _ es => forallb only_values es
  end.

Definition not_compound (e : AstExpr) : bool := match e with ACompoundIdentifier _ => false | _ => true end.

(** What the rewriting of an expression promises. *)
Definition rewritten (table : string) (e : AstExpr) : Prop :=
  only_values e = true -> exists e', visit no_change (values_post table) tt e = Ok (tt, e') /\ not_compound e' = true /\
    forall existing inserted, eval_values inserted inserted e' = eval_values existing inserted e.

Lemma rewritten_list table es : Forall (rewritten table) es -> forallb only_values es = true ->
  exists es', visit_list (visit no_change (values_post table)) tt es = Ok (tt, es') /\
    forall existing inserted, eval_values inserted inserted <$> es' = eval_values existing inserted <$> es.
Proof.
  induction 1 as [|e es He _ IH]; intros Ho; [by exists []|]. cbn in Ho. apply andb_true_iff in Ho as [H1 H2].
  destruct (He H1) as (e' & Hv & _ & Hm). destruct (IH H2) as (es' & Hvs & Hms). exists (e' :: es'). cbn. rewrite Hv. cbn. rewrite Hvs.
  split; [done|]. intros ex ins. cbn. by rewrite (Hm ex), (Hms ex).
Qed.

Definition arg_only_values (a : FunctionArg AstExpr) : bool := match a with UnnamedArg e | NamedArg _ e => only_values e | WildcardArg => true end.

Lemma rewritten_args table (args : list (FunctionArg AstExpr)) : Forall (fun a => Forall (rewritten table) (arg_exprs a)) args ->
  forallb arg_only_values args = true ->
  exists args', visit_list (fun s a => match a with
                                       | UnnamedArg e => let? (s, e) := visit no_change (values_post table) s e in Ok (s, UnnamedArg e)
                                       | NamedArg n e => let? (s, e) := visit no_change (values_post table) s e in Ok (s, NamedArg n e)
                                       | WildcardArg => Ok (s, WildcardArg)
                                       end) tt args = Ok (tt, args') /\
    forall existing inserted,
      flat_map (fun a => match a with UnnamedArg e | NamedArg _ e => [eval_values inserted inserted e] | WildcardArg => [] end) args' =
      flat_map (fun a => match a with UnnamedArg e | NamedArg _ e => [eval_values existing inserted e] | WildcardArg => [] end) args.
Proof.
  induction 1 as [|a args Ha _ IH]; intros Ho; [by exists []|]. cbn in Ho. apply andb_true_iff in Ho as [H1 H2].
  destruct (IH H2) as (args' & Hvs & Hms). destruct a as [e|k e|]; cbn in H1 |- *.
  - apply Forall_inv in Ha. destruct (Ha H1) as (e' & -> & _ & Hm). cbn. rewrite Hvs. exists (UnnamedArg e' :: args'). split; [done|].
    intros ex ins. cbn. by rewrite (Hm ex), (Hms ex).
  - apply Forall_inv in Ha. destruct (Ha H1) as (e' & -> & _ & Hm). cbn. rewrite Hvs. exists (NamedArg k e' :: args'). split; [done|].
    intros ex ins. cbn. by rewrite (Hm ex), (Hms ex).
  - rewrite Hvs. by exists (WildcardArg :: args').
Qed.

Lemma rewritten_fields table (fs : list (string * AstExpr)) : Forall (fun f => rewritten table f.2) fs ->
  forallb (fun f => only_values f.2) fs = true ->
  exists fs', visit_list (fun s '(k, e) => let? (s, e) := visit no_change (values_post table) s e in Ok (s, (k, e))) tt fs = Ok (tt, fs') /\
    forall existing inserted,
      (fun f => eval_values inserted inserted f.2) <$> fs' = (fun f => eval_values existing inserted f.2) <$> fs.
Proof.
  induction 1 as [|[k e] fs He _ IH]; intros Ho; [by exists []|]. cbn in Ho. apply andb_true_iff in Ho as [H1 H2].
  destruct (He H1) as (e' & Hv & _ & Hm). cbn in Hv. destruct (IH H2) as (fs' & Hvs & Hms). exists ((k, e') :: fs'). cbn. rewrite Hv. cbn. rewrite Hvs.
  split; [done|]. intros ex ins. cbn. by rewrite (Hm ex), (Hms ex).
Qed.

Lemma values_rewritten table e : rewritten table e.
Proof.
  induction e as [n|parts|v|l op r IHl IHr|op e IH|n args cs IH|n|fs IH|es IH|k es IH] using ast_ind; intros Ho; cbn in Ho; try done.
  - by eexists.
  - apply andb_true_iff in Ho as [H1 H2]. destruct (IHl H1) as (l' & Hl & Hcl & Hml). destruct (IHr H2) as (r' & Hr & Hcr & Hmr).
    exists (ABinaryOp l' op r'). cbn. rewrite Hl. cbn. rewrite Hr. cbn. unfold values_post. cbn.
    destruct l'; try done; destruct r'; try done; (split; [reflexivity|split; [reflexivity|]]); intros ex ins; cbn in *;
      by rewrite <- (Hml ex), <- (Hmr ex).
  - destruct (IH Ho) as (e' & He & _ & Hm). exists (AUnaryOp op e'). cbn. rewrite He. split; [done|]. split; [done|].
    intros ex ins. cbn. by rewrite (Hm ex).
  - unfold values_column in Ho. case_bool_decide as Hn.
    + subst n. destruct args as [|[[]| |] []]; try done. eexists. split; [reflexivity|]. split; [done|]. intros ex ins. done.
    + destruct n as [|m n]; [done|]. apply andb_true_iff in Ho as [Hm Ho]. destruct (rewritten_args table args IH Ho) as (args' & Hv & Hev).
      exists (AFunction (m :: n) args' cs). cbn. rewrite Hv. cbn. unfold values_post. cbn. apply negb_true_iff in Hm. rewrite Hm.
      split; [done|]. split; [done|]. intros ex ins. unfold values_column. rewrite !bool_decide_false by done. by rewrite (Hev ex).
  - destruct n as [|m n]; [done|]. exists (AFunctionNoArgs (m :: n)). cbn. unfold values_post. cbn. apply negb_true_iff in Ho. rewrite Ho.
    by split_and!.
  - destruct (rewritten_fields table fs IH Ho) as (fs' & Hv & Hm). exists (ADictionary fs'). cbn. rewrite Hv. split; [done|]. split; [done|].
    intros ex ins. cbn. by rewrite (Hm ex).
  - destruct (rewritten_list table es IH Ho) as (es' & Hv & Hm). exists (AExists es'). cbn. rewrite Hv. split; [done|]. split; [done|].
    intros ex ins. cbn. by rewrite (Hm ex).
  - destruct (rewritten_list table es IH Ho) as (es' & Hv & Hm). exists (AOther k es'). cbn. rewrite Hv. split; [done|]. split; [done|].
    intros ex ins. cbn. by rewrite (Hm ex).
Qed.

(** the values of ON DUPLICATE KEY UPDATE are those of the statement: an expression
    that names columns only in calls of [values] is rewritten, without error, to one
    that has on the row to insert alone the value that the statement gives it, where
    [values(c)] is the column of the row to insert. *)
Theorem on_duplicate_values table e : only_values e = true ->
  exists e', rewrite_values table e = Ok e' /\
    forall existing inserted, eval_values inserted inserted e' = eval_values existing inserted e.
Proof.
  intros Ho. destruct (values_rewritten table e Ho) as (e' & Hv & _ & Hm). exists e'. unfold rewrite_values. by rewrite Hv.
Qed.

(** A column named outside of [values] is its value in the row that exists; it is read
    from the row to insert. *)
Lemma bare_column_reads_inserted table c existing inserted : existing c <> inserted c ->
  exists e', rewrite_values table (AIdentifier c) = Ok e' /\ eval_values inserted inserted e' <> eval_values existing inserted (AIdentifier c).
Proof. intros Hc. exists (AIdentifier c). split; [done|]. cbn. congruence. Qed.

(** A column of the table that is an operand is left out. *)
Lemma qualified_operand_dropped table c op e : not_compound e = true ->
  rewrite_bad_identifier table (ABinaryOp (ACompoundIdentifier [table; c]) op e) = Ok e.
Proof. intros _. cbn. by rewrite bool_decide_true. Qed.

(** Only the lower case name is recognised. *)
Lemma upper_case_values_kept table c :
  rewrite_values table (AFunction ["VALUES"] [UnnamedArg (AIdentifier c)] []) = Ok (AFunction ["VALUES"] [UnnamedArg (AIdentifier c)] []).
Proof. reflexivity. Qed.
End Meaning.

Lemma on_duplicate_values_witness :
  exists e', rewrite_values "t" (ABinaryOp (AFunction ["values"] [UnnamedArg (AIdentifier "n")] []) "+" (AValue (VNumber "1"))) = Ok e' /\
    eval_values (fun _ => 1%Z) (fun _ => Z.add) (fun _ z => z) (fun _ _ => 0%Z) (fun _ _ => 0%Z) (fun _ => 5%Z) (fun _ => 5%Z) e' = 6%Z.
Proof.
  destruct (on_duplicate_values (fun _ => 1%Z) (fun _ => Z.add) (fun _ z => z) (fun _ _ => 0%Z) (fun _ _ => 0%Z) "t"
    (ABinaryOp (AFunction ["values"] [UnnamedArg (AIdentifier "n")] []) "+" (AValue (VNumber "1"))) eq_refl) as (e' & Hr & Hm).
  exists e'. split; [exact Hr|]. rewrite (Hm (fun _ => 40%Z) (fun _ => 5%Z)). reflexivity.
Defined.

(** ** The rewrites of the front end *)

(** Clauses that are not separators stay, and the arguments of a call come first. *)
Lemma rewrite_args_call n args clauses :
  exists extra, rewrite_args tt (AFunction n args clauses) =
    Ok (tt, AFunction n (args ++ extra) (List.filter (fun c => negb (is_separator_clause c)) clauses)) /\
    length extra = length (List.filter is_separator_clause clauses).
Proof.
  eexists. split; [reflexivity|]. induction clauses as [|[] clauses IH]; cbn; [done| |done]. by rewrite IH.
Qed.

(** Every item that MySQL names after its text is given that name. *)
Lemma rewrite_projection_names display items i e : items !! i = Some (UnnamedExpr e) -> needs_aliasing e = true ->
  rewrite_projection display items !! i = Some (ExprWithAlias e (display e)).
Proof. intros Hi He. unfold rewrite_projection. rewrite list_lookup_fmap, Hi. cbn. by rewrite He. Qed.
