(* ===== verification/Names.v ===== *)
(** * Names in statements

    Models [planning/logical/normalize_ident.rs], the normalisation of the names of a
    statement before it is planned. Expressions are those of Statements.v. *)
From S2P Require Import Prelude Values Filters Sql Text Crypto SqlSchema Statements.

(** ** Names of a statement *)

(** The parts of a name, identifiers and functions alike. *)
Abbreviation ObjectName := (list string).

Definition normalize_object_name (n : ObjectName) : ObjectName := to_ascii_lowercase <$> n.
Definition normalize_identifier (n : string) : string := to_ascii_lowercase n.

Inductive TableConstraint :=
  | KeyConstraint (index_name : option string) (columns : list AstExpr)   (* full text, index, primary key, unique *)
  | ForeignKeyConstraint (index_name : option string) (columns referred_columns : list string) (foreign_table : ObjectName)
  | CheckConstraint (expr : AstExpr).

(** The parts of an operation of ALTER TABLE: relations, expressions, and the identifiers
    of its columns. *)
Record AlterOperation := { op_relations : list ObjectName; op_exprs : list AstExpr; op_identifiers : list string }.

(** The names that a statement holds outside of its relations and expressions. *)
Inductive StatementNames :=
  | NUpdate (targets : list (list ObjectName))
  | NAlterTable (name : ObjectName) (operations : list AlterOperation)
  | NCreateIndex (table_name : ObjectName) (name : option ObjectName) (columns : list AstExpr)
  | NDrop (table : option ObjectName) (names : list ObjectName)
  | NCreateDatabase (db_name : ObjectName) (clone : option ObjectName)
  | NCreateTable (name : ObjectName) (clone : option ObjectName) (columns : list string) (primary_key : option AstExpr)
      (constraints : list TableConstraint)
  | NOther.

(** A statement as the visitor sees it: the relations and expressions that it reaches on
    its own, and the rest. *)
Record NamedStatement := { st_relations : list ObjectName; st_exprs : list AstExpr; st_names : StatementNames }.

Definition normalize_constraint (c : TableConstraint) : result TableConstraint :=
  match c with
  | KeyConstraint n columns =>
      let? columns := result_mapM normalize_ast columns in Ok (KeyConstraint (normalize_identifier <$> n) columns)
  | ForeignKeyConstraint n columns referred foreign_table =>
      Ok (ForeignKeyConstraint (normalize_identifier <$> n) (normalize_identifier <$> columns) (normalize_identifier <$> referred)
            (normalize_object_name foreign_table))
  | CheckConstraint e => let? e := normalize_ast e in Ok (CheckConstraint e)
  end.

(** [op.visit(self)]: what the visitor reaches of an operation. *)
Definition normalize_operation (op : AlterOperation) : result AlterOperation :=
  let? exprs := result_mapM normalize_ast (op_exprs op) in
  Ok {| op_relations := normalize_object_name <$> op_relations op; op_exprs := exprs; op_identifiers := op_identifiers op |}.

(** [post_visit_statement]. *)
Definition normalize_names (n : StatementNames) : result StatementNames :=
  match n with
  | NUpdate targets => Ok (NUpdate ((fun t : list ObjectName => normalize_object_name <$> t) <$> targets))
  | NAlterTable name operations =>
      let? operations := result_mapM normalize_operation operations in Ok (NAlterTable (normalize_object_name name) operations)
  | NCreateIndex table_name name columns =>
      let? columns := result_mapM normalize_ast columns in
      Ok (NCreateIndex (normalize_object_name table_name) (normalize_object_name <$> name) columns)
  | NDrop table names => Ok (NDrop (normalize_object_name <$> table) (normalize_object_name <$> names))
  | NCreateDatabase db_name clone => Ok (NCreateDatabase (normalize_object_name db_name) (normalize_object_name <$> clone))
  | NCreateTable name clone columns primary_key constraints =>
      let? primary_key := match primary_key with Some e => let? e := normalize_ast e in Ok (Some e) | None => Ok None end in
      let? constraints := result_mapM normalize_constraint constraints in
      Ok (NCreateTable (normalize_object_name name) (normalize_object_name <$> clone) (normalize_identifier <$> columns) primary_key constraints)
  | NOther => Ok NOther
  end.

(** The whole visit of a statement. *)
Definition normalize_statement (s : NamedStatement) : result NamedStatement :=
  let? exprs := result_mapM normalize_ast (st_exprs s) in
  let? names := normalize_names (st_names s) in
  Ok {| st_relations := normalize_object_name <$> st_relations s; st_exprs := exprs; st_names := names |}.

(** ** What is normalised *)

(** The tables and databases that a statement names. *)
Definition statement_tables (s : NamedStatement) : list ObjectName :=
  st_relations s ++
  match st_names s with
  | NAlterTable name _ => [name]
  | NCreateIndex t _ _ => [t]
  | NDrop t names => option_list t ++ names
  | NCreateDatabase n clone => n :: option_list clone
  | NCreateTable n clone _ _ _ => n :: option_list clone
  | NUpdate _ | NOther => []
  end.

(** The columns that CREATE TABLE defines and that UPDATE sets. *)
Definition statement_columns (s : NamedStatement) : list string :=
  match st_names s with
  | NCreateTable _ _ columns _ _ => columns
  | NUpdate targets => concat (concat targets)
  | _ => []
  end.

Lemma lower_ascii_idem c : lower_ascii (lower_ascii c) = lower_ascii c.
Proof. by destruct c as [[] [] [] [] [] [] [] []]. Qed.

Lemma to_ascii_lowercase_idem n : to_ascii_lowercase (to_ascii_lowercase n) = to_ascii_lowercase n.
Proof. induction n as [|c n IH]; [done|]. cbn. by rewrite lower_ascii_idem, IH. Qed.

Lemma normalize_object_name_idem n : normalize_object_name (normalize_object_name n) = normalize_object_name n.
Proof.
  unfold normalize_object_name. rewrite <- list_fmap_compose. apply list_fmap_ext. intros _ x _. apply to_ascii_lowercase_idem.
Qed.

(** A visit that succeeds, and changes nothing the second time. *)
Definition settles {A} (f : A -> result A) (a : A) : Prop := exists b, f a = Ok b /\ f b = Ok b.

Lemma settles_list {A} (f : A -> result A) l : Forall (settles f) l -> settles (result_mapM f) l.
Proof.
  induction 1 as [|a l (b & Hb & Hb') _ (k & Hk & Hk')]; [by exists []|]. exists (b :: k). cbn. rewrite Hb, Hk, Hb'. cbn. by rewrite Hk'.
Qed.

Definition visit_names (e : AstExpr) : result (unit * AstExpr) := visit normalize_expr no_change tt e.

Lemma visit_list_settles {A} (f : unit -> A -> result (unit * A)) l :
  Forall (fun a => exists b, f tt a = Ok (tt, b) /\ f tt b = Ok (tt, b)) l ->
  exists k, visit_list f tt l = Ok (tt, k) /\ visit_list f tt k = Ok (tt, k).
Proof.
  induction 1 as [|a l (b & Hb & Hb') _ (k & Hk & Hk')]; [by exists []|]. exists (b :: k). cbn. rewrite Hb, Hb'. cbn. by rewrite Hk, Hk'.
Qed.

Lemma visit_names_settles e : exists e', visit_names e = Ok (tt, e') /\ visit_names e' = Ok (tt, e').
Proof.
  induction e as [n|parts|v|l op r (l' & Hl & Hl') (r' & Hr & Hr')|op e (e' & He & He')|n args cs IH|n|fs IH|es IH|k es IH] using ast_ind;
    unfold visit_names in *.
  - exists (AIdentifier (to_ascii_lowercase n)). cbn. by rewrite to_ascii_lowercase_idem.
  - exists (ACompoundIdentifier (normalize_object_name parts)). cbn. fold (normalize_object_name parts).
    fold (normalize_object_name (normalize_object_name parts)). by rewrite normalize_object_name_idem.
  - by exists (AValue v).
  - exists (ABinaryOp l' op r'). cbn. rewrite Hl, Hl'. cbn. by rewrite Hr, Hr'.
  - exists (AUnaryOp op e'). cbn. by rewrite He, He'.
  - edestruct (visit_list_settles (fun s a => match a with
                                              | UnnamedArg e => let? (s, e) := visit normalize_expr no_change s e in Ok (s, UnnamedArg e)
                                              | NamedArg n e => let? (s, e) := visit normalize_expr no_change s e in Ok (s, NamedArg n e)
                                              | WildcardArg => Ok (s, WildcardArg)
                                              end) args) as (k & Hk & Hk').
    { eapply Forall_impl; [exact IH|]. intros [e|m e|]; cbn.
      - intros [(e' & He & He') _]%Forall_cons. exists (UnnamedArg e'). by rewrite He, He'.
      - intros [(e' & He & He') _]%Forall_cons. exists (NamedArg m e'). by rewrite He, He'.
      - by exists WildcardArg. }
    exists (AFunction n k cs). cbn. by rewrite Hk, Hk'.
  - by exists (AFunctionNoArgs n).
  - edestruct (visit_list_settles (fun s '(k, e) => let? (s, e) := visit normalize_expr no_change s e in Ok (s, (k, e))) fs) as (k & Hk & Hk').
    { eapply Forall_impl; [exact IH|]. intros [m e] (e' & He & He'). cbn in He. exists (m, e'). by rewrite He, He'. }
    exists (ADictionary k). cbn. by rewrite Hk, Hk'.
  - destruct (visit_list_settles _ es IH) as (k & Hk & Hk'). exists (AExists k). cbn. by rewrite Hk, Hk'.
  - destruct (visit_list_settles _ es IH) as (k' & Hk & Hk'). exists (AOther k k'). cbn. by rewrite Hk, Hk'.
Qed.

Lemma normalize_ast_settles e : settles normalize_ast e.
Proof. destruct (visit_names_settles e) as (e' & He & He'). exists e'. unfold normalize_ast, visit_names in *. by rewrite He, He'. Qed.

Lemma normalize_exprs_settles es : settles (result_mapM normalize_ast) es.
Proof. apply settles_list, Forall_forall. intros e _. apply normalize_ast_settles. Qed.

Lemma normalize_option_idem (n : option ObjectName) : normalize_object_name <$> (normalize_object_name <$> n) = normalize_object_name <$> n.
Proof. destruct n; [|done]. cbn. by rewrite normalize_object_name_idem. Qed.

Lemma normalize_list_idem (l : list ObjectName) : normalize_object_name <$> (normalize_object_name <$> l) = normalize_object_name <$> l.
Proof. rewrite <- list_fmap_compose. apply list_fmap_ext. intros _ n _. apply normalize_object_name_idem. Qed.

Lemma normalize_constraint_settles c : settles normalize_constraint c.
Proof.
  destruct c as [n columns|n columns referred t|e].
  - destruct (normalize_exprs_settles columns) as (k & Hk & Hk'). exists (KeyConstraint (normalize_identifier <$> n) k). cbn. rewrite Hk, Hk'.
    cbn. split; [done|]. destruct n as [n|]; [|done]. cbn. unfold normalize_identifier. by rewrite to_ascii_lowercase_idem.
  - eexists. split; [done|]. cbn. fold (normalize_object_name columns) (normalize_object_name referred).
    fold (normalize_object_name (normalize_object_name columns)) (normalize_object_name (normalize_object_name referred)).
    rewrite !normalize_object_name_idem. destruct n as [n|]; [|done]. cbn. unfold normalize_identifier. by rewrite to_ascii_lowercase_idem.
  - destruct (normalize_ast_settles e) as (e' & He & He'). exists (CheckConstraint e'). cbn. by rewrite He, He'.
Qed.

Lemma normalize_operation_settles op : settles normalize_operation op.
Proof.
  destruct (normalize_exprs_settles (op_exprs op)) as (k & Hk & Hk'). eexists. unfold normalize_operation. rewrite Hk. cbn. split; [done|].
  cbn. rewrite Hk'. cbn. by rewrite normalize_list_idem.
Qed.

Lemma normalize_names_settles n : settles normalize_names n.
Proof.
  destruct n as [targets|name ops|t n columns|t names|n clone|n clone columns pk constraints|].
  - eexists. split; [done|]. cbn. do 2 f_equal. rewrite <- list_fmap_compose. apply list_fmap_ext. intros _ l _. cbn. apply normalize_list_idem.
  - destruct (settles_list normalize_operation ops) as (k & Hk & Hk'); [apply Forall_forall; intros op _; apply normalize_operation_settles|].
    eexists. cbn. rewrite Hk. cbn. split; [done|]. cbn. rewrite Hk'. cbn. by rewrite normalize_object_name_idem.
  - destruct (normalize_exprs_settles columns) as (k & Hk & Hk'). eexists. cbn. rewrite Hk. cbn. split; [done|]. cbn. rewrite Hk'. cbn.
    by rewrite normalize_object_name_idem, normalize_option_idem.
  - eexists. split; [done|]. cbn. by rewrite normalize_option_idem, normalize_list_idem.
  - eexists. split; [done|]. cbn. by rewrite normalize_option_idem, normalize_object_name_idem.
  - assert (exists pk', match pk with Some e => let? e := normalize_ast e in Ok (Some e) | None => Ok None end = Ok pk' /\
              match pk' with Some e => let? e := normalize_ast e in Ok (Some e) | None => Ok None end = Ok pk') as (pk' & Hpk & Hpk').
    { destruct pk as [e|]; [|by exists None]. destruct (normalize_ast_settles e) as (e' & He & He'). exists (Some e'). by rewrite He, He'. }
    destruct (settles_list normalize_constraint constraints) as (k & Hk & Hk'); [apply Forall_forall; intros c _; apply normalize_constraint_settles|].
    eexists. cbn. rewrite Hpk. cbn. rewrite Hk. cbn. split; [done|]. cbn. rewrite Hpk'. cbn. rewrite Hk'. cbn.
    rewrite normalize_object_name_idem, normalize_option_idem. fold (normalize_object_name columns).
    fold (normalize_object_name (normalize_object_name columns)). by rewrite normalize_object_name_idem.
  - by exists NOther.
Qed.

Lemma normalize_names_tables r es n r' es' n' :
  normalize_names n = Ok n' -> r' = normalize_object_name <$> r ->
  statement_tables {| st_relations := r'; st_exprs := es'; st_names := n' |} =
    normalize_object_name <$> statement_tables {| st_relations := r; st_exprs := es; st_names := n |}.
Proof.
  intros Hn ->. unfold statement_tables. cbn. rewrite fmap_app. f_equal.
  destruct n as [targets|name ops|t k columns|t names|k clone|k clone columns pk constraints|]; cbn in Hn.
  - by injection Hn as <-.
  - destruct (result_mapM _ ops) as [ops'|] eqn:E; cbn in Hn; by simplify_eq.
  - destruct (result_mapM _ columns) as [columns'|] eqn:E; cbn in Hn; by simplify_eq.
  - injection Hn as <-. rewrite fmap_app. by destruct t.
  - injection Hn as <-. by destruct clone.
  - destruct (match pk with Some _ => _ | None => _ end) as [pk'|]; cbn in Hn; [|done].
    destruct (result_mapM _ constraints) as [constraints'|]; cbn in Hn; [|done]. injection Hn as <-. by destruct clone.
  - by injection Hn as <-.
Qed.

Lemma normalize_names_columns r es n r' es' n' :
  normalize_names n = Ok n' ->
  statement_columns {| st_relations := r'; st_exprs := es'; st_names := n' |} =
    normalize_identifier <$> statement_columns {| st_relations := r; st_exprs := es; st_names := n |}.
Proof.
  intros Hn. unfold statement_columns. cbn.
  destruct n as [targets|name ops|t k columns|t names|k clone|k clone columns pk constraints|]; cbn in Hn.
  - injection Hn as <-. clear. induction targets as [|t targets IH]; [done|]. cbn. rewrite !concat_app, fmap_app, IH. f_equal.
    clear IH. induction t as [|o t IH]; [done|]. cbn. by rewrite fmap_app, IH.
  - destruct (result_mapM _ ops) as [ops'|] eqn:E; cbn in Hn; by simplify_eq.
  - destruct (result_mapM _ columns) as [columns'|] eqn:E; cbn in Hn; by simplify_eq.
  - by injection Hn as <-.
  - by injection Hn as <-.
  - destruct (match pk with Some _ => _ | None => _ end) as [pk'|]; cbn in Hn; [|done].
    destruct (result_mapM _ constraints) as [constraints'|]; cbn in Hn; [|done]. by injection Hn as <-.
  - by injection Hn as <-.
Qed.

(** Normalisation succeeds on every statement, puts every table and every column that the
    statement names in lower case, and changes nothing when it is done again. *)
Theorem normalize_statement_lowers s :
  exists s', normalize_statement s = Ok s' /\
    statement_tables s' = normalize_object_name <$> statement_tables s /\
    statement_columns s' = normalize_identifier <$> statement_columns s /\
    normalize_statement s' = Ok s'.
Proof.
  destruct s as [r es n]. destruct (normalize_exprs_settles es) as (es' & He & He').
  destruct (normalize_names_settles n) as (n' & Hn & Hn').
  eexists. unfold normalize_statement. cbn. rewrite He. cbn. rewrite Hn. cbn. split; [done|].
  split; [by apply (normalize_names_tables r es n)|]. split; [by apply (normalize_names_columns r es n)|].
  cbn. rewrite He'. cbn. rewrite Hn'. cbn. by rewrite normalize_list_idem.
Qed.

(** ALTER TABLE: the names of the columns that an operation adds, drops or renames are
    neither relations nor expressions, and keep their case. *)
Lemma alter_columns_keep_case :
  normalize_statement {| st_relations := [["T"]]; st_exprs := [];
                         st_names := NAlterTable ["T"] [{| op_relations := []; op_exprs := []; op_identifiers := ["Email"] |}] |} =
    Ok {| st_relations := [["t"]]; st_exprs := [];
          st_names := NAlterTable ["t"] [{| op_relations := []; op_exprs := []; op_identifiers := ["Email"] |}] |}.
Proof. by vm_compute. Qed.
