(* ===== verification/KwSearch.v ===== *)
(** * MATCH ... AGAINST

    Models the rewriting of [metadata/kw_search_func.rs]: a MATCH ... AGAINST of a query
    becomes a call of the function KW_SEARCH with the columns, the text and the mode as
    arguments, which Logical.v takes apart again. How DataFusion resolves the name of a
    column is a parameter. *)
From S2P Require Import Prelude Values Filters Logical Statements.

(** ** Modes *)

(** [sqlparser::ast::SearchModifier]. *)
Inductive SearchModifier :=
  | InNaturalLanguageMode | InNaturalLanguageModeWithQueryExpansion | InBooleanMode | WithQueryExpansion.

Definition search_mode_of_modifier (value : SearchModifier) : result SearchMode :=
  match value with
  | InBooleanMode => Ok Boolean
  | _ => Err (NotImplemented "KW search not implemented for mode")
  end.

Definition search_mode_string (value : SearchMode) : string := match value with Boolean => "BOOLEAN" end.

(** ** The visitor *)

(** The expressions of a query as the visitor meets them: MATCH, or another expression
    with the ones below it. *)
Inductive MatchExpr :=
  | MatchAgainst (columns : list (list string)) (match_value : AstValue) (opt_search_modifier : option SearchModifier)
  | MatchCall (call : AstExpr)
  | MatchOther (kind : string) (children : list MatchExpr).

(** One part is an identifier, several are a compound one. *)
Definition match_column (on : list string) : AstExpr :=
  match on with [n] => AIdentifier n | parts => ACompoundIdentifier parts end.

Definition kw_search_call (columns : list (list string)) (match_value : AstValue) (mode : SearchMode) : AstExpr :=
  AFunction [KW_SEARCH_UDF_NAME]
    ((UnnamedArg ∘ match_column <$> columns) ++ [UnnamedArg (AValue match_value); UnnamedArg (AValue (VString (search_mode_string mode)))]) [].

(** [KwSearchReplacer]: [false] is a [Break], after which nothing is visited. *)
Fixpoint replace_kw_search (e : MatchExpr) : MatchExpr * bool :=
  match e with
  | MatchAgainst columns match_value opt_search_modifier =>
      match search_mode_of_modifier (default InBooleanMode opt_search_modifier) with
      | Ok mode => (MatchCall (kw_search_call columns match_value mode), true)
      | Err _ => (e, false)
      end
  | MatchCall _ => (e, true)
  | MatchOther kind children =>
      let (children, continue) :=
        (fix go (l : list MatchExpr) : list MatchExpr * bool :=
           match l with
           | [] => ([], true)
           | x :: l =>
               let (x, continue) := replace_kw_search x in
               if continue then let (l, continue) := go l in (x :: l, continue) else (x :: l, false)
           end) children in
      (MatchOther kind children, continue)
  end.

(** [rewrite_kw_search]: whether the visit was broken off is not looked at. *)
Definition rewrite_kw_search (query : list MatchExpr) : list MatchExpr :=
  match replace_kw_search (MatchOther "query" query) with
  | (MatchOther _ query, _) => query
  | _ => query
  end.

(** [invoke_with_args]: a call that is still there when the plan runs is true. *)
Definition kw_search_invoke (args : list ScalarValue) : ScalarValue := SBoolean (Some true).

(** ** The arguments are read back *)

(** What planning makes of the arguments. *)
Definition planned_arg (resolve : list string -> Column) (a : FunctionArg AstExpr) : option Expr :=
  match a with
  | UnnamedArg (AIdentifier n) => Some (EColumn (resolve [n]))
  | UnnamedArg (ACompoundIdentifier parts) => Some (EColumn (resolve parts))
  | UnnamedArg (AValue (VString s)) => Some (ELiteral (SUtf8 (Some s)))
  | _ => None
  end.

Lemma planned_columns resolve columns :
  mapM (planned_arg resolve) (UnnamedArg ∘ match_column <$> columns) = Some (EColumn ∘ resolve <$> columns).
Proof.
  apply mapM_Some, Forall2_fmap_l, Forall2_fmap_r, Forall_Forall2_diag, Forall_forall. intros on _. by destruct on as [|? [|? ?]].
Qed.

Lemma one_table acc (cs : list Column) t : (acc = None \/ acc = t) -> Forall (fun c => relation c = t) cs ->
  exists acc', result_foldl same_table_step acc cs = Ok acc'.
Proof.
  intros Ha Hc. revert acc Ha. induction Hc as [|c cs Hc _ IH]; intros acc Ha; [by exists acc|]. cbn.
  destruct acc as [a|]; cbn; rewrite Hc.
  - destruct Ha as [?|<-]; [done|]. rewrite bool_decide_true by done. cbn. apply IH. by right.
  - apply IH. by right.
Qed.

Lemma search_columns_read (cs : list Column) : result_mapM search_column (EColumn <$> cs) = Ok cs.
Proof. induction cs as [|c cs IH]; [done|]. cbn. by rewrite IH. Qed.

(** A MATCH on columns of one table with a text, in boolean mode or without a mode, is
    rewritten to a call whose planned arguments the conversion of conditions reads as the
    same columns and the same text. *)
Theorem match_read_back cast_scalar resolve columns s modifier t :
  columns <> [] -> modifier = None \/ modifier = Some InBooleanMode -> Forall (fun on => relation (resolve on) = t) columns ->
  exists name args planned,
    rewrite_kw_search [MatchAgainst columns (VString s) modifier] = [MatchCall (AFunction [name] args [])] /\
    mapM (planned_arg resolve) args = Some planned /\
    from_logical cast_scalar (EScalarFunction name planned) = Ok (KwMatch (resolve <$> columns) s).
Proof.
  intros Hc Hm Ht. eexists _, _, _. split_and!.
  - by destruct Hm as [-> | ->].
  - apply mapM_Some, Forall2_app; [apply mapM_Some, planned_columns|]. repeat constructor.
  - unfold from_logical. cbn [from_logical_expr]. rewrite bool_decide_false by done. cbn [andb negb]. rewrite bool_decide_true by done.
    unfold split_args. rewrite rev_app_distr. cbn [rev app]. rewrite rev_involutive.
    rewrite bool_decide_false by (by destruct columns). cbn [literal_str ok_or result_bind search_mode_string].
    unfold search_mode_try_from. rewrite bool_decide_true by done. cbn [result_bind].
    rewrite list_fmap_compose, search_columns_read. cbn [result_bind].
    destruct (one_table None (resolve <$> columns) t) as (acc & ->); [by left|by apply Forall_fmap|]. done.
Qed.

(** ** What is left *)

Fixpoint matches (e : MatchExpr) : list (option SearchModifier) :=
  match e with
  | MatchAgainst _ _ modifier => [modifier]
  | MatchCall _ => []
  | MatchOther _ children => flat_map matches children
  end.

(** Where every mode is the boolean one no MATCH is left. *)
Lemma all_replaced e : Forall (fun m => default InBooleanMode m = InBooleanMode) (matches e) ->
  exists e', replace_kw_search e = (e', true) /\ matches e' = [].
Proof.
  revert e. fix IH 1. intros [columns v m|c|kind children]; cbn [matches].
  - intros [Hm _]%Forall_cons. eexists. cbn. rewrite Hm. done.
  - by eexists.
  - intros Hm. cbn [replace_kw_search].
    set (go := fix go (l : list MatchExpr) : list MatchExpr * bool := _).
    assert (exists l', go children = (l', true) /\ flat_map matches l' = []) as (l' & Hl & Hl').
    { revert children Hm. fix IHl 1. intros [|x l] Hm; [by exists []|]. cbn in Hm. apply Forall_app in Hm as [Hx Hl].
      destruct (IH x Hx) as (x' & Hx' & Ex). destruct (IHl l Hl) as (l' & Hl' & El).
      exists (x' :: l'). cbn. fold go. rewrite Hx', Hl'. cbn. by rewrite Ex, El. }
    rewrite Hl. by exists (MatchOther kind l').
Qed.

(** A MATCH in another mode ends the visit without an error: the ones after it are left. *)
Lemma other_mode_stops columns v s cs :
  rewrite_kw_search [MatchAgainst columns v (Some InNaturalLanguageMode); MatchAgainst cs (VString s) None] =
    [MatchAgainst columns v (Some InNaturalLanguageMode); MatchAgainst cs (VString s) None].
Proof. done. Qed.
