(* ===== verification/TableStats.v ===== *)
(** * Statistics of a table

    Models [TableStatistics] of [backends/mysql/src/providers/table_provider.rs]: what is
    asked from the server about a table, and when it is asked again. The entry is shared
    by the tasks that plan queries on the table, so that the refresh is a sequence of
    steps that interleave. *)
From S2P Require Import Prelude Values SqlSchema.
From stdpp Require Import relations.

Section Stats.
(** The answers of the server to the two queries: the cardinality of the columns of the
    indices, and the numbers of rows. *)
Record ServerStats := { index_stats : result (list (string * Z)); table_stats : result (list Z) }.

(** [build_for_table]. *)
Definition build_for_table (s : ServerStats) : result TableStatistics :=
  let? index_stats := match index_stats s with Ok l => Ok l | Err _ => Err (PlanError "failed to retrieve index statistics from server") end in
  let? table_stats := match table_stats s with Ok l => Ok l | Err _ => Err (PlanError "failed to retrieve tables statistics from server") end in
  if 1 <? length table_stats then Err (PlanError "failed to retrieve statistics from server")
  else Ok {| num_rows := Inexact (default 0%Z (head table_stats));
             (* the last of the rows of a column stays *)
             indexing_columns := list_to_map (rev ((fun '(c, n) => (c, Inexact n)) <$> index_stats)) |}.

Definition for_empty_table : TableStatistics := {| num_rows := Absent; indexing_columns := ∅ |}.

(** [to_df_stats]: the number of rows, and the distinct values of each column. *)
Definition to_df_stats (s : TableStatistics) (fields : list Field) : Precision * list Precision :=
  (num_rows s, (fun f => default Absent (indexing_columns s !! field_name f)) <$> fields).

(** Four hours, in milliseconds. *)
Definition REFRESH_FREQ : Z := 4 * 3600 * 1000.

(** An entry: the statistics, when they were read, and the signal. *)
Record StatsEntry := { se_stats : TableStatistics; last_update : Z; update_signal : bool }.

(** ** The steps of [refresh_stats] *)

(** The first step: the entry is read, and where it is old the signal is swapped. The
    task goes on where the signal was set. *)
Definition begin_refresh (now : Z) (e : StatsEntry) : StatsEntry * bool :=
  if bool_decide (now - last_update e > REFRESH_FREQ)%Z then
    ({| se_stats := se_stats e; last_update := last_update e; update_signal := true |}, update_signal e)
  else (e, false).

(** The last: the new statistics replace the entry; an error resets its signal. *)
Definition end_refresh (now : Z) (answer : ServerStats) (e : StatsEntry) : StatsEntry * result unit :=
  match build_for_table answer with
  | Ok s => ({| se_stats := s; last_update := now; update_signal := false |}, Ok tt)
  | Err err => ({| se_stats := se_stats e; last_update := last_update e; update_signal := false |}, Err err)
  end.

(** [refresh_stats] of a task that runs alone. *)
Definition refresh_stats (now : Z) (answer : ServerStats) (e : StatsEntry) : StatsEntry * result unit :=
  let (e, goes_on) := begin_refresh now e in
  if goes_on then end_refresh now answer e else (e, Ok tt).

(** ** What is refreshed *)

(** A new entry that became old is not refreshed by the first query but by the second. *)
Lemma first_stale_query_skips now answer e : (now - last_update e > REFRESH_FREQ)%Z -> update_signal e = false ->
  refresh_stats now answer e = ({| se_stats := se_stats e; last_update := last_update e; update_signal := true |}, Ok tt).
Proof. intros Hn Hs. unfold refresh_stats, begin_refresh. rewrite bool_decide_true by done. by rewrite Hs. Qed.

Lemma second_stale_query_refreshes now now' answer answer' e s : (now - last_update e > REFRESH_FREQ)%Z -> (now <= now')%Z ->
  update_signal e = false -> build_for_table answer' = Ok s ->
  let e1 := (refresh_stats now answer e).1 in
  refresh_stats now' answer' e1 = ({| se_stats := s; last_update := now'; update_signal := false |}, Ok tt).
Proof.
  intros Hn Hle Hs Hb e1. unfold e1. rewrite (first_stale_query_skips now answer e Hn Hs). cbn [fst]. unfold refresh_stats, begin_refresh.
  cbn [last_update update_signal]. rewrite bool_decide_true by lia. unfold end_refresh. by rewrite Hb.
Qed.

(** An entry that is not old is left, and statistics that were read are not old. *)
Lemma fresh_not_refreshed now answer e : (now - last_update e <= REFRESH_FREQ)%Z -> refresh_stats now answer e = (e, Ok tt).
Proof. intros Hn. unfold refresh_stats, begin_refresh. by rewrite bool_decide_false by lia. Qed.

(** ** Tasks that interleave *)

(** How many tasks wait for the answer of the server. *)
Record Shared := { entry : StatsEntry; in_flight : nat }.

Inductive stats_step : Shared -> Shared -> Prop :=
  | step_begin now s e goes_on : begin_refresh now (entry s) = (e, goes_on) ->
      stats_step s {| entry := e; in_flight := if goes_on then S (in_flight s) else in_flight s |}
  | step_end now answer s n e r : in_flight s = S n -> end_refresh now answer (entry s) = (e, r) ->
      stats_step s {| entry := e; in_flight := n |}.

(** The signal is meant to say that a task is refreshing the entry; any number of tasks
    refresh it at once. *)
Lemma refreshes_pile_up n e : update_signal e = false ->
  exists s, rtc stats_step {| entry := e; in_flight := 0 |} s /\ in_flight s = n.
Proof.
  intros Hs. set (now := (last_update e + REFRESH_FREQ + 1)%Z).
  set (e' := {| se_stats := se_stats e; last_update := last_update e; update_signal := true |}).
  assert (stats_step {| entry := e; in_flight := 0 |} {| entry := e'; in_flight := 0 |}) as Hfirst.
  { apply (step_begin now {| entry := e; in_flight := 0 |} e' false). unfold begin_refresh. cbn [entry]. rewrite bool_decide_true by (unfold now; lia). by rewrite Hs. }
  assert (forall k, rtc stats_step {| entry := e'; in_flight := 0 |} {| entry := e'; in_flight := k |}) as Hmore.
  { intros k. induction k as [|k IH]; [done|]. eapply rtc_r; [exact IH|]. apply (step_begin now {| entry := e'; in_flight := k |} e' true). unfold begin_refresh.
    cbn [entry last_update e']. by rewrite bool_decide_true by (unfold now; lia). }
  exists {| entry := e'; in_flight := n |}. split; [|done]. eapply rtc_l; [exact Hfirst|apply Hmore].
Qed.
End Stats.
