(* ===== verification/LogicalRules.v ===== *)
(** * Rules on logical plans

    Models the analyzer rules that the proxy adds to DataFusion:
    [proxy/src/analyzer/add_decryption_rule.rs], which decrypts the columns of the
    tables as soon as they are read, and the rules of
    [backends/mysql/src/planning/logical/analyzers], with the locking scans of
    [planning/logical/mod.rs]. A plan is given a meaning on a database, and the rules
    are proved to keep it: the rest of a query never sees that its tables are
    encrypted. *)
From S2P Require Import Prelude Values Sql Text Crypto ArrowCodec ColumnCrypto SqlSchema Logical.

(** ** Plans *)

(** [TableReference], with the schema where the statement gives it. *)
Abbreviation Relation := (option string * string)%type.

(** What a rule uses of the [MySqlTableProvider] behind a scan. *)
Record MySqlSource := { ms_reference : TableRef; ms_row_binding_aad : bool; ms_primary_key : list string }.

Record LScan := {
  scan_table : Relation;
  scan_source : option MySqlSource;   (* [None]: not a table of the server *)
  projected_schema : list Field
}.

(** The functions of [crypto/src/planning/physical], and all others. *)
Inductive LFunc :=
  | FDecrypt (output_field : Field) (cipher_context : CipherContext)
  | FComputeAad (target_type : DataType)
  | FToBinary
  | FNamed (n : string).

Inductive LExpr :=
  | LColumn (c : Column)
  | LLiteral (v : ScalarValue)
  | LAlias (e : LExpr) (rel : option Relation) (n : string)
  | LFunction (f : LFunc) (args : list LExpr)
  | LAggregateFunction (func : string) (args : list LExpr)
  | LScalarSubquery (p : LPlan)
  | LOther (kind : string) (operands : list LExpr) (subqueries : list LPlan)
with LPlan :=
  | LTableScan (s : LScan)
  | LEmptyRelation (produce_one_row : bool)
  | LProjection (exprs : list LExpr) (input : LPlan)
  | LFilter (predicate : LExpr) (input : LPlan)
  | LAggregate (group_expr aggr_expr : list LExpr) (input : LPlan)
  | LLockingScan (input : LPlan)
  | LForwardStatement (query : LExpr) (output : string)
  | LNode (kind : string) (exprs : list LExpr) (inputs : list LPlan).

(** Induction over plans and the expressions in them. *)
Section Induction.
Variables (PE : LExpr -> Prop) (PP : LPlan -> Prop).
Hypothesis HColumn : forall c, PE (LColumn c).
Hypothesis HLiteral : forall v, PE (LLiteral v).
Hypothesis HAlias : forall e r n, PE e -> PE (LAlias e r n).
Hypothesis HFunction : forall f args, Forall PE args -> PE (LFunction f args).
Hypothesis HAggregateFunction : forall f args, Forall PE args -> PE (LAggregateFunction f args).
Hypothesis HScalarSubquery : forall p, PP p -> PE (LScalarSubquery p).
Hypothesis HOther : forall k es ps, Forall PE es -> Forall PP ps -> PE (LOther k es ps).
Hypothesis HTableScan : forall s, PP (LTableScan s).
Hypothesis HEmptyRelation : forall b, PP (LEmptyRelation b).
Hypothesis HProjection : forall es p, Forall PE es -> PP p -> PP (LProjection es p).
Hypothesis HFilter : forall e p, PE e -> PP p -> PP (LFilter e p).
Hypothesis HAggregate : forall gs es p, Forall PE gs -> Forall PE es -> PP p -> PP (LAggregate gs es p).
Hypothesis HLockingScan : forall p, PP p -> PP (LLockingScan p).
Hypothesis HForwardStatement : forall e n, PE e -> PP (LForwardStatement e n).
Hypothesis HNode : forall k es ps, Forall PE es -> Forall PP ps -> PP (LNode k es ps).

Fixpoint lexpr_ind' (e : LExpr) : PE e :=
  match e with
  | LColumn c => HColumn c
  | LLiteral v => HLiteral v
  | LAlias e r n => HAlias e r n (lexpr_ind' e)
  | LFunction f args => HFunction f args (list_rect _ (Forall_nil_2 _) (fun e es IH => Forall_cons_2 _ e es (lexpr_ind' e) IH) args)
  | LAggregateFunction f args =>
      HAggregateFunction f args (list_rect _ (Forall_nil_2 _) (fun e es IH => Forall_cons_2 _ e es (lexpr_ind' e) IH) args)
  | LScalarSubquery p => HScalarSubquery p (lplan_ind' p)
  | LOther k es ps =>
      HOther k es ps (list_rect _ (Forall_nil_2 _) (fun e es IH => Forall_cons_2 _ e es (lexpr_ind' e) IH) es)
        (list_rect _ (Forall_nil_2 _) (fun p ps IH => Forall_cons_2 _ p ps (lplan_ind' p) IH) ps)
  end
with lplan_ind' (p : LPlan) : PP p :=
  match p with
  | LTableScan s => HTableScan s
  | LEmptyRelation b => HEmptyRelation b
  | LProjection es p =>
      HProjection es p (list_rect _ (Forall_nil_2 _) (fun e es IH => Forall_cons_2 _ e es (lexpr_ind' e) IH) es) (lplan_ind' p)
  | LFilter e p => HFilter e p (lexpr_ind' e) (lplan_ind' p)
  | LAggregate gs es p =>
      HAggregate gs es p (list_rect _ (Forall_nil_2 _) (fun e es IH => Forall_cons_2 _ e es (lexpr_ind' e) IH) gs)
        (list_rect _ (Forall_nil_2 _) (fun e es IH => Forall_cons_2 _ e es (lexpr_ind' e) IH) es) (lplan_ind' p)
  | LLockingScan p => HLockingScan p (lplan_ind' p)
  | LForwardStatement e n => HForwardStatement e n (lexpr_ind' e)
  | LNode k es ps =>
      HNode k es ps (list_rect _ (Forall_nil_2 _) (fun e es IH => Forall_cons_2 _ e es (lexpr_ind' e) IH) es)
        (list_rect _ (Forall_nil_2 _) (fun p ps IH => Forall_cons_2 _ p ps (lplan_ind' p) IH) ps)
  end.

Lemma lplan_lexpr_ind : (forall e, PE e) /\ (forall p, PP p).
Proof. split; [exact lexpr_ind'|exact lplan_ind']. Qed.
End Induction.

(** ** Names of columns *)

(** How DataFusion prints literals and calls in the names of columns. *)
Class Names := { print_literal : ScalarValue -> string; print_call : string -> list string -> string }.

Definition fn_name (f : LFunc) : string :=
  match f with
  | FDecrypt _ _ => DECRYPT_UDF_NAME
  | FComputeAad _ => "__internal__aad__"
  | FToBinary => "__internal__to_binary__"
  | FNamed n => n
  end.

(** [Expr::schema_name]: the text of a subquery is not part of it. *)
Fixpoint schema_name `{!Names} (e : LExpr) : string :=
  match e with
  | LColumn c => match relation c with Some (_, t) => t +:+ "." +:+ name c | None => name c end
  | LLiteral v => print_literal v
  | LAlias _ (Some (_, t)) n => t +:+ "." +:+ n
  | LAlias _ None n => n
  | LFunction f args => print_call (fn_name f) (schema_name <$> args)
  | LAggregateFunction f args => print_call f (schema_name <$> args)
  | LScalarSubquery _ => "(<subquery>)"
  | LOther k es _ => print_call k (schema_name <$> es)
  end.

(** ** Traversals of DataFusion *)

(** [LogicalPlan::transform_up]: the inputs first, then the node; the plans of
    subqueries are left. *)
Fixpoint transform_up (f : LPlan -> LPlan) (p : LPlan) : LPlan :=
  f match p with
    | LTableScan _ | LEmptyRelation _ | LForwardStatement _ _ => p
    | LProjection es p => LProjection es (transform_up f p)
    | LFilter e p => LFilter e (transform_up f p)
    | LAggregate gs es p => LAggregate gs es (transform_up f p)
    | LLockingScan p => LLockingScan (transform_up f p)
    | LNode k es ps => LNode k es (transform_up f <$> ps)
    end.

(** [LogicalPlan::transform_up_with_subqueries]. *)
Fixpoint subqueries_up (f : LPlan -> LPlan) (e : LExpr) : LExpr :=
  match e with
  | LColumn _ | LLiteral _ => e
  | LAlias e r n => LAlias (subqueries_up f e) r n
  | LFunction g args => LFunction g (subqueries_up f <$> args)
  | LAggregateFunction g args => LAggregateFunction g (subqueries_up f <$> args)
  | LScalarSubquery p => LScalarSubquery (transform_up_with_subqueries f p)
  | LOther k es ps => LOther k (subqueries_up f <$> es) (transform_up_with_subqueries f <$> ps)
  end
with transform_up_with_subqueries (f : LPlan -> LPlan) (p : LPlan) : LPlan :=
  f match p with
    | LTableScan _ | LEmptyRelation _ | LForwardStatement _ _ => p
    | LProjection es p => LProjection (subqueries_up f <$> es) (transform_up_with_subqueries f p)
    | LFilter e p => LFilter (subqueries_up f e) (transform_up_with_subqueries f p)
    | LAggregate gs es p => LAggregate (subqueries_up f <$> gs) (subqueries_up f <$> es) (transform_up_with_subqueries f p)
    | LLockingScan p => LLockingScan (transform_up_with_subqueries f p)
    | LNode k es ps => LNode k (subqueries_up f <$> es) (transform_up_with_subqueries f <$> ps)
    end.

(** [Expr::transform], which works bottom-up and leaves the plans of subqueries. *)
Fixpoint expr_transform (f : LExpr -> LExpr) (e : LExpr) : LExpr :=
  f match e with
    | LColumn _ | LLiteral _ | LScalarSubquery _ => e
    | LAlias e r n => LAlias (expr_transform f e) r n
    | LFunction g args => LFunction g (expr_transform f <$> args)
    | LAggregateFunction g args => LAggregateFunction g (expr_transform f <$> args)
    | LOther k es ps => LOther k (expr_transform f <$> es) ps
    end.

(** The same traversals with a function that may fail. *)
Fixpoint try_expr_transform (f : LExpr -> result LExpr) (e : LExpr) : result LExpr :=
  let? e :=
    match e with
    | LColumn _ | LLiteral _ | LScalarSubquery _ => Ok e
    | LAlias e r n => let? e := try_expr_transform f e in Ok (LAlias e r n)
    | LFunction g args => let? args := result_mapM (try_expr_transform f) args in Ok (LFunction g args)
    | LAggregateFunction g args => let? args := result_mapM (try_expr_transform f) args in Ok (LAggregateFunction g args)
    | LOther k es ps => let? es := result_mapM (try_expr_transform f) es in Ok (LOther k es ps)
    end in
  f e.

(** [LogicalPlan::map_expressions]. *)
Definition try_map_expressions (f : LExpr -> result LExpr) (p : LPlan) : result LPlan :=
  match p with
  | LTableScan _ | LEmptyRelation _ | LForwardStatement _ _ | LLockingScan _ => Ok p
  | LProjection es p => let? es := result_mapM f es in Ok (LProjection es p)
  | LFilter e p => let? e := f e in Ok (LFilter e p)
  | LAggregate gs es p => let? gs := result_mapM f gs in let? es := result_mapM f es in Ok (LAggregate gs es p)
  | LNode k es ps => let? es := result_mapM f es in Ok (LNode k es ps)
  end.

Fixpoint try_transform_up (f : LPlan -> result LPlan) (p : LPlan) : result LPlan :=
  let? p :=
    match p with
    | LTableScan _ | LEmptyRelation _ | LForwardStatement _ _ => Ok p
    | LProjection es p => let? p := try_transform_up f p in Ok (LProjection es p)
    | LFilter e p => let? p := try_transform_up f p in Ok (LFilter e p)
    | LAggregate gs es p => let? p := try_transform_up f p in Ok (LAggregate gs es p)
    | LLockingScan p => let? p := try_transform_up f p in Ok (LLockingScan p)
    | LNode k es ps => let? ps := result_mapM (try_transform_up f) ps in Ok (LNode k es ps)
    end in
  f p.

(** ** The rule that adds decryption *)

(** [MySqlTableProvider::get_aad_source]. *)
Definition get_aad_source (t : MySqlSource) : list LExpr :=
  if negb (ms_row_binding_aad t) then []
  else (fun n => LColumn {| relation := None; name := n |}) <$> ms_primary_key t.

(** [ComputeAadUdf::invoke]. *)
Definition compute_aad_invoke (target : DataType) (aad_columns : list LExpr) : LExpr :=
  LFunction (FComputeAad target) ((fun c => LFunction FToBinary [c]) <$> aad_columns).

(** [DecryptUdf::invoke]. *)
Definition decrypt_invoke (output_field : Field) (ctx : CipherContext) (encrypted_column computed_aad : LExpr) : LExpr :=
  LFunction (FDecrypt output_field ctx) [encrypted_column; computed_aad].

(** The names of the encrypted fields of a scan. *)
Definition encrypted_outputs (s : LScan) : list string :=
  field_name <$> List.filter field_encrypted (projected_schema s).

Definition decryption_column (s : LScan) (table_provider : MySqlSource) (decrypt_columns : list string) (f : Field) : LExpr :=
  let base := LColumn {| relation := Some (scan_table s); name := field_name f |} in
  if field_encrypted f && bool_decide (field_name f ∈ decrypt_columns) then
    let new_field := clear_encrypted f in
    let aad := compute_aad_invoke (field_type new_field) (get_aad_source table_provider) in
    LAlias (decrypt_invoke new_field
              (TableColumn (ms_reference table_provider) (field_name f)) base aad)
           (Some (scan_table s)) (field_name f)
  else base.

Definition build_decryption_projection (s : LScan) (decrypt_columns : list string) : LPlan :=
  match scan_source s with
  | None => LTableScan s
  | Some table_provider =>
      LProjection (decryption_column s table_provider decrypt_columns <$> projected_schema s) (LTableScan s)
  end.

(** [AddDecryptionRule::rewrite_plan]: encrypted columns that come from anything but
    the scan of a table are only logged. *)
Definition rewrite_plan (plan : LPlan) : LPlan :=
  match plan with
  | LTableScan s =>
      let outputs := encrypted_outputs s in
      if bool_decide (outputs = []) then plan else build_decryption_projection s outputs
  | _ => plan
  end.

Definition add_decryption (plan : LPlan) : LPlan := transform_up_with_subqueries rewrite_plan plan.

(** ** The rules of the backend *)

(** [EliminateDummyTable]. *)
Definition eliminate_dummy_table (plan : LPlan) : LPlan :=
  transform_up (fun p =>
    match p with
    | LTableScan s => if bool_decide ((scan_table s).2 = "dual") then LEmptyRelation true else p
    | _ => p
    end) plan.

(** [SELECT ... FOR UPDATE]: every scan of the plan takes locks. *)
Definition lock_scans (plan : LPlan) : LPlan :=
  transform_up (fun p => match p with LTableScan _ => LLockingScan p | _ => p end) plan.

Definition FORWARDED_FUNCTIONS_NAMES : list string := ["last_insert_id"].

(** [RewriteForwardedFunctions]: a call that only the server can answer becomes a query
    that is sent to it. *)
Section Forwarded.
Context `{!Names}.

Definition forward_function (e : LExpr) : LExpr :=
  match e with
  | LFunction (FNamed n) args =>
      if bool_decide (to_ascii_lowercase n ∈ FORWARDED_FUNCTIONS_NAMES) then
        let field_name := schema_name e in
        LScalarSubquery (LProjection [LColumn {| relation := None; name := field_name |}] (LForwardStatement e field_name))
      else e
  | _ => e
  end.

Definition rewrite_forwarded_functions (plan : LPlan) : LPlan :=
  transform_up (fun p => match p with LProjection es input => LProjection (expr_transform forward_function <$> es) input | _ => p end) plan.
End Forwarded.

(** [RewriteSubqueryArguments]: a subquery that may have several rows is an argument of
    [coalesce] through its first row without NULLs. *)
Section Subqueries.
(** [LogicalPlan::max_rows] and the output columns of a plan. *)
Variables (max_rows : LPlan -> option nat) (output_columns : LPlan -> list Column).

Definition is_not_null (e : LExpr) : LExpr := LOther "IS NOT NULL" [e] [].
Definition first_value (e : LExpr) : LExpr := LAggregateFunction "first_value" [e].

Definition conjunction (l : list LExpr) : option LExpr :=
  match l with
  | [] => None
  | e :: l => Some (foldl (fun a b => LOther "AND" [a; b] []) e l)
  end.

Definition is_aggregation (p : LPlan) : bool :=
  match p with LAggregate _ (_ :: _) _ => true | _ => false end.

Definition transform_coalesce (arg : LExpr) : result LExpr :=
  match arg with
  | LScalarSubquery subquery =>
      if (match max_rows subquery with Some n => bool_decide (n <= 1) | None => false end)
         || is_aggregation subquery
         || (match subquery with LFilter _ input => is_aggregation input | _ => false end)
      then Ok arg
      else
        let columns := LColumn <$> output_columns subquery in
        let? predicate := ok_or (conjunction (is_not_null <$> columns)) (PlanError "no columns in scalar subquery") in
        Ok (LScalarSubquery (LAggregate [] (first_value <$> columns) (LFilter predicate subquery)))
  | _ => Ok arg
  end.

Definition transform_coalesce_call (e : LExpr) : result LExpr :=
  match e with
  | LFunction (FNamed n) args =>
      if bool_decide (n = "coalesce") then let? args := result_mapM transform_coalesce args in Ok (LFunction (FNamed n) args)
      else Ok e
  | _ => Ok e
  end.

Definition rewrite_subquery_arguments (plan : LPlan) : result LPlan :=
  try_transform_up (try_map_expressions (try_expr_transform transform_coalesce_call)) plan.
End Subqueries.

(** ** Meaning of a plan *)

Definition Scope : Type := list Column * list ScalarValue.

(** A column named with its table, or by its name alone. *)
Definition column_matches_ref (c target : Column) : bool :=
  bool_decide (name c = name target) &&
  match relation c with None => true | Some r => bool_decide (relation target = Some r) end.

Fixpoint scope_lookup (c : Column) (columns : list Column) (values : list ScalarValue) : option ScalarValue :=
  match columns, values with
  | target :: columns, v :: values => if column_matches_ref c target then Some v else scope_lookup c columns values
  | _, _ => None
  end.

Record Rel := { rel_columns : list Column; rel_rows : list (list ScalarValue) }.

Definition is_null (v : ScalarValue) : bool := match v with SNull => true | _ => false end.

(** What a query gives as a value: at most one row of one column. *)
Definition scalar_of (r : Rel) : result ScalarValue :=
  match rel_columns r, rel_rows r with
  | [_], [] => Ok SNull
  | [_], [[v]] => Ok v
  | [_], _ => Err (ExecError "scalar subquery returned more than one row")
  | _, _ => Err (PlanError "scalar subquery should have a single column")
  end.

(** The parts of the evaluation that are DataFusion's and the server's. *)
Class PlanSem := {
  fn_sem : LFunc -> list ScalarValue -> result ScalarValue;
  agg_sem : string -> list (list ScalarValue) -> result ScalarValue;
  other_sem : string -> list ScalarValue -> list Rel -> result ScalarValue;
  node_sem : string -> list (Scope -> result ScalarValue) -> list Rel -> result Rel;
  group_sem : list (Scope -> result ScalarValue) -> list (string * list (Scope -> result ScalarValue)) -> Rel ->
              result (list (list ScalarValue))
}.

Section Meaning.
Context `{!Names} `{!PlanSem}.
(** The rows of a scan, and the server's answer to a forwarded call. *)
Variable scan_sem : LScan -> result (list (list ScalarValue)).
Variable server_call : LExpr -> result ScalarValue.

Definition scan_columns (s : LScan) : list Column :=
  (fun f => {| relation := Some (scan_table s); name := field_name f |}) <$> projected_schema s.

Definition output_column (e : LExpr) : Column :=
  match e with
  | LColumn c => c
  | LAlias _ r n => {| relation := r; name := n |}
  | _ => {| relation := None; name := schema_name e |}
  end.

Fixpoint result_filter {A} (f : A -> result bool) (l : list A) : result (list A) :=
  match l with
  | [] => Ok []
  | a :: l => let? b := f a in let? l := result_filter f l in Ok (if b then a :: l else l)
  end.

Definition is_true_value (v : ScalarValue) : bool := match v with SBoolean (Some true) => true | _ => false end.

(** The scopes of the enclosing queries are those of the columns that are not found. *)
Fixpoint lookup_scopes (c : Column) (scopes : list Scope) : result ScalarValue :=
  match scopes with
  | [] => Err (PlanError "no field with that name")
  | (columns, values) :: scopes =>
      match scope_lookup c columns values with Some v => Ok v | None => lookup_scopes c scopes end
  end.

Fixpoint eval_expr (scopes : list Scope) (e : LExpr) : result ScalarValue :=
  match e with
  | LColumn c => lookup_scopes c scopes
  | LLiteral v => Ok v
  | LAlias e _ _ => eval_expr scopes e
  | LFunction f args => let? vs := result_mapM (eval_expr scopes) args in fn_sem f vs
  | LAggregateFunction _ _ => Err (PlanError "aggregate function outside of an aggregation")
  | LScalarSubquery p => let? r := eval_plan scopes p in scalar_of r
  | LOther k es ps =>
      let? vs := result_mapM (eval_expr scopes) es in
      let? rs := result_mapM (eval_plan scopes) ps in other_sem k vs rs
  end
with eval_plan (scopes : list Scope) (p : LPlan) : result Rel :=
  match p with
  | LTableScan s => let? rows := scan_sem s in Ok {| rel_columns := scan_columns s; rel_rows := rows |}
  | LEmptyRelation one => Ok {| rel_columns := []; rel_rows := if one then [[]] else [] |}
  | LProjection es p =>
      let? r := eval_plan scopes p in
      let? rows := result_mapM (fun row => result_mapM (eval_expr ((rel_columns r, row) :: scopes)) es) (rel_rows r) in
      Ok {| rel_columns := output_column <$> es; rel_rows := rows |}
  | LFilter e p =>
      let? r := eval_plan scopes p in
      let? rows := result_filter (fun row => result_map is_true_value (eval_expr ((rel_columns r, row) :: scopes) e)) (rel_rows r) in
      Ok {| rel_columns := rel_columns r; rel_rows := rows |}
  | LAggregate [] es p =>
      let? r := eval_plan scopes p in
      let? vs := result_mapM (fun e =>
        match e with
        | LAggregateFunction f args =>
            let? columns := result_mapM (fun row => result_mapM (eval_expr ((rel_columns r, row) :: scopes)) args) (rel_rows r) in
            agg_sem f columns
        | _ => Err (PlanError "not an aggregate function")
        end) es in
      Ok {| rel_columns := output_column <$> es; rel_rows := [vs] |}
  | LAggregate gs es p =>
      let? r := eval_plan scopes p in
      let? rows :=
        group_sem ((fun e scope => eval_expr (scope :: scopes) e) <$> gs)
          ((fun e => match e with
                     | LAggregateFunction f args => (f, (fun a scope => eval_expr (scope :: scopes) a) <$> args)
                     | _ => (EmptyString, [fun scope => eval_expr (scope :: scopes) e])
                     end) <$> es) r in
      Ok {| rel_columns := output_column <$> (gs ++ es); rel_rows := rows |}
  | LLockingScan p => eval_plan scopes p
  | LForwardStatement query output =>
      let? v := server_call query in Ok {| rel_columns := [{| relation := None; name := output |}]; rel_rows := [[v]] |}
  | LNode k es ps =>
      let? rs := result_mapM (eval_plan scopes) ps in
      node_sem k ((fun e scope => eval_expr (scope :: scopes) e) <$> es) rs
  end.
End Meaning.

Lemma eval_plan_grouped `{!Names} `{!PlanSem} scans server_call scopes gs es p : gs <> [] ->
  eval_plan scans server_call scopes (LAggregate gs es p) =
  let? r := eval_plan scans server_call scopes p in
  let? rows :=
    group_sem ((fun e scope => eval_expr scans server_call (scope :: scopes) e) <$> gs)
      ((fun e => match e with
                 | LAggregateFunction f args => (f, (fun a scope => eval_expr scans server_call (scope :: scopes) a) <$> args)
                 | _ => (EmptyString, [fun scope => eval_expr scans server_call (scope :: scopes) e])
                 end) <$> es) r in
  Ok {| rel_columns := output_column <$> (gs ++ es); rel_rows := rows |}.
Proof. by destruct gs. Qed.

(** Operators only use the values of their expressions. *)
Class PlanSemExt `{!PlanSem} : Prop := {
  node_sem_ext k es es' rs :
    Forall2 (fun f g => forall scope, f scope = g scope) es es' -> node_sem k es rs = node_sem k es' rs;
  group_sem_ext gs gs' es es' r :
    Forall2 (fun f g => forall scope, f scope = g scope) gs gs' ->
    Forall2 (fun a b => a.1 = b.1 /\ Forall2 (fun f g => forall scope, f scope = g scope) a.2 b.2) es es' ->
    group_sem gs es r = group_sem gs' es' r
}.

(** ** Rewriting with subqueries *)

Lemma result_mapM_ext {A B} (f g : A -> result B) l :
  Forall (fun a => f a = g a) l -> result_mapM f l = result_mapM g l.
Proof. induction 1 as [|a l Ha _ IH]; cbn; [done|]. by rewrite Ha, IH. Qed.

Lemma result_mapM_fmap_in {A B C} (h : A -> B) (f : B -> result C) l :
  result_mapM f (h <$> l) = result_mapM (fun a => f (h a)) l.
Proof. induction l as [|a l IH]; cbn; [done|]. by rewrite IH. Qed.

Lemma result_filter_ext {A} (f g : A -> result bool) l :
  (forall a, f a = g a) -> result_filter f l = result_filter g l.
Proof. intros H. induction l as [|a l IH]; cbn; [done|]. by rewrite H, IH. Qed.

Section Rewriting.
Context `{!Names} `{!PlanSem} `{!PlanSemExt}.
Variables (scans scans' : LScan -> result (list (list ScalarValue))) (server_call : LExpr -> result ScalarValue).
Variable f : LPlan -> LPlan.
(** On the new rows, a rewritten scan gives what the scan gave on the old ones, and
    other nodes are not changed by the rule. *)
Hypothesis f_scan : forall scopes s,
  eval_plan scans' server_call scopes (f (LTableScan s)) = eval_plan scans server_call scopes (LTableScan s).
Hypothesis f_node : forall p, (forall s, p <> LTableScan s) -> f p = p.
Abbreviation rw_e := (subqueries_up f).
Abbreviation rw_p := (transform_up_with_subqueries f).

Definition same_expr (e : LExpr) : Prop :=
  forall scopes, eval_expr scans' server_call scopes (rw_e e) = eval_expr scans server_call scopes e.
Definition same_plan (p : LPlan) : Prop :=
  forall scopes, eval_plan scans' server_call scopes (rw_p p) = eval_plan scans server_call scopes p.

Lemma schema_name_rewritten e : schema_name (rw_e e) = schema_name e.
Proof.
  revert e. apply (lexpr_ind' (fun e => schema_name (rw_e e) = schema_name e) (fun _ => True)); try done.
  all: intros; cbn; f_equal; rewrite <- list_fmap_compose; by apply Forall_fmap_ext_1.
Qed.

Lemma output_column_rewritten (es : list LExpr) : output_column <$> (rw_e <$> es) = output_column <$> es.
Proof.
  rewrite <- list_fmap_compose. apply list_fmap_ext. intros i e _. unfold compose.
  destruct e; cbn; try done; f_equal; f_equal; rewrite <- list_fmap_compose; apply list_fmap_ext; intros;
    apply schema_name_rewritten.
Qed.

Lemma eval_rewritten scopes es : Forall same_expr es ->
  result_mapM (eval_expr scans' server_call scopes) (rw_e <$> es) = result_mapM (eval_expr scans server_call scopes) es.
Proof.
  intros Hes. rewrite result_mapM_fmap_in. apply result_mapM_ext. eapply Forall_impl; [exact Hes|]. intros e He. apply He.
Qed.

Lemma eval_plans_rewritten scopes ps : Forall same_plan ps ->
  result_mapM (eval_plan scans' server_call scopes) (rw_p <$> ps) = result_mapM (eval_plan scans server_call scopes) ps.
Proof.
  intros Hps. rewrite result_mapM_fmap_in. apply result_mapM_ext. eapply Forall_impl; [exact Hps|]. intros p Hp. apply Hp.
Qed.

Lemma closures_rewritten scopes es : Forall same_expr es ->
  Forall2 (fun f g => forall scope : Scope, f scope = g scope)
    ((fun e scope => eval_expr scans' server_call (scope :: scopes) e) <$> (rw_e <$> es))
    ((fun e scope => eval_expr scans server_call (scope :: scopes) e) <$> es).
Proof.
  intros Hes. rewrite <- list_fmap_compose. apply Forall2_fmap, Forall_Forall2_diag.
  eapply Forall_impl; [exact Hes|]. intros e He scope. apply He.
Qed.

(** With the arguments of an aggregate function, which has no value of its own. *)
Definition same_expr_args (e : LExpr) : Prop :=
  same_expr e /\ match e with LAggregateFunction _ args => Forall same_expr args | _ => True end.

Lemma same_expr_args_weaken es : Forall same_expr_args es -> Forall same_expr es.
Proof. intros Hes. eapply Forall_impl; [exact Hes|]. by intros e []. Qed.

Lemma aggregates_rewritten scopes (rows : list (list ScalarValue)) columns es : Forall same_expr_args es ->
  result_mapM (fun e => match e with
    | LAggregateFunction f args =>
        let? vs := result_mapM (fun row => result_mapM (eval_expr scans' server_call ((columns, row) :: scopes)) args) rows in agg_sem f vs
    | _ => Err (PlanError "not an aggregate function") end) (rw_e <$> es) =
  result_mapM (fun e => match e with
    | LAggregateFunction f args =>
        let? vs := result_mapM (fun row => result_mapM (eval_expr scans server_call ((columns, row) :: scopes)) args) rows in agg_sem f vs
    | _ => Err (PlanError "not an aggregate function") end) es.
Proof.
  intros Hes. rewrite result_mapM_fmap_in. apply result_mapM_ext. eapply Forall_impl; [exact Hes|].
  intros e [_ Hargs]. destruct e; try done. cbn. f_equal. apply result_mapM_ext, Forall_true. intros row. by apply eval_rewritten.
Qed.

Lemma grouped_rewritten scopes es : Forall same_expr_args es ->
  Forall2 (fun a b => a.1 = b.1 /\ Forall2 (fun f g => forall scope : Scope, f scope = g scope) a.2 b.2)
    ((fun e => match e with
               | LAggregateFunction f args => (f, (fun a scope => eval_expr scans' server_call (scope :: scopes) a) <$> args)
               | _ => (EmptyString, [fun scope => eval_expr scans' server_call (scope :: scopes) e]) end) <$> (rw_e <$> es))
    ((fun e => match e with
               | LAggregateFunction f args => (f, (fun a scope => eval_expr scans server_call (scope :: scopes) a) <$> args)
               | _ => (EmptyString, [fun scope => eval_expr scans server_call (scope :: scopes) e]) end) <$> es).
Proof.
  intros Hes. rewrite <- list_fmap_compose. apply Forall2_fmap, Forall_Forall2_diag.
  eapply Forall_impl; [exact Hes|]. intros e [He Hargs]. unfold compose.
  destruct e; try (split; [done|]; constructor; [intros scope; apply (He (scope :: scopes))|constructor]).
  split; [done|]. by apply closures_rewritten.
Qed.

Lemma rewriting_keeps_meaning : (forall e, same_expr_args e) /\ (forall p, same_plan p).
Proof.
  apply lplan_lexpr_ind; try done.
  - intros e r n [IH _]. split; [|done]. intros scopes. apply IH.
  - intros g args IH. split; [|done]. intros scopes. cbn. by rewrite eval_rewritten by by apply same_expr_args_weaken.
  - intros g args IH. split; [done|]. by apply same_expr_args_weaken.
  - intros p IH. split; [|done]. intros scopes. cbn. by rewrite IH.
  - intros k es ps IHe IHp. split; [|done]. intros scopes. cbn. rewrite eval_rewritten by by apply same_expr_args_weaken.
    by rewrite eval_plans_rewritten.
  - intros s scopes. apply f_scan.
  - intros b scopes. cbn. by rewrite f_node.
  - intros es p IHe IHp scopes. cbn [transform_up_with_subqueries]. rewrite f_node by done. cbn [eval_plan]. rewrite IHp.
    destruct (eval_plan scans server_call scopes p) as [r|]; cbn; [|done]. rewrite output_column_rewritten. f_equal.
    apply result_mapM_ext, Forall_true. intros row. by apply eval_rewritten, same_expr_args_weaken.
  - intros e p [IHe _] IHp scopes. cbn [transform_up_with_subqueries]. rewrite f_node by done. cbn [eval_plan]. rewrite IHp.
    destruct (eval_plan scans server_call scopes p) as [r|]; cbn; [|done]. f_equal.
    apply result_filter_ext. intros row. by rewrite IHe.
  - intros gs es p IHg IHe IHp scopes. cbn [transform_up_with_subqueries]. rewrite f_node by done.
    destruct (decide (gs = [])) as [->|Hgs].
    + cbn [fmap list_fmap eval_plan]. rewrite IHp.
      destruct (eval_plan scans server_call scopes p) as [r|]; cbn [result_bind]; [|done].
      by rewrite output_column_rewritten, aggregates_rewritten.
    + rewrite !eval_plan_grouped, IHp by (done || by destruct gs).
      destruct (eval_plan scans server_call scopes p) as [r|]; cbn [result_bind]; [|done].
      rewrite <- fmap_app, output_column_rewritten. f_equal. apply group_sem_ext; [|by apply grouped_rewritten].
      by apply closures_rewritten, same_expr_args_weaken.
  - intros p IH scopes. cbn [transform_up_with_subqueries]. rewrite f_node by done. apply IH.
  - intros e n _ scopes. cbn. by rewrite f_node.
  - intros k es ps IHe IHp scopes. cbn [transform_up_with_subqueries]. rewrite f_node by done. cbn [eval_plan].
    rewrite eval_plans_rewritten by done. destruct (result_mapM _ ps) as [rs|]; cbn [result_bind]; [|done].
    by apply node_sem_ext, closures_rewritten, same_expr_args_weaken.
Qed.
End Rewriting.

(** ** Decryption is transparent *)

Section Decryption.
Context `{!Names} `{!PlanSem} `{!PlanSemExt}.
(** The rows of the tables as the server keeps them, and in clear. *)
Variables (stored plain : LScan -> result (list (list ScalarValue))) (server_call : LExpr -> result ScalarValue).

(** The associated data of a row: the bytes of its key columns, after the type. *)
Definition row_aad (s : LScan) (t : MySqlSource) (f : Field) (row : list ScalarValue) : result ScalarValue :=
  let? keys :=
    if ms_row_binding_aad t then
      result_mapM (fun n =>
        let? v := ok_or (scope_lookup {| relation := None; name := n |} (scan_columns s) row) (PlanError "no field with that name") in
        fn_sem FToBinary [v]) (ms_primary_key t)
    else Ok [] in
  fn_sem (FComputeAad (field_type f)) keys.

(** A cell of an encrypted column is decrypted, with the key of the column and the
    associated data of its row, to the cell in clear; other cells are in clear. *)
Definition cell_stored (s : LScan) (t : MySqlSource) (row : list ScalarValue) (f : Field) (c v : ScalarValue) : Prop :=
  if field_encrypted f then
    exists aad, row_aad s t f row = Ok aad /\
      fn_sem (FDecrypt (clear_encrypted f) (TableColumn (ms_reference t) (field_name f))) [c; aad] = Ok v
  else v = c.

(** The tables of the server, whose columns have distinct names, hold the rows in clear,
    encrypted; the other tables have no encrypted column. *)
Definition stored_encrypted : Prop :=
  forall s,
    match scan_source s with
    | None => stored s = plain s
    | Some t =>
        match stored s, plain s with
        | Ok rows, Ok rows' =>
            NoDup (field_name <$> projected_schema s) /\
            Forall2 (fun row row' => Forall3 (cell_stored s t row) (projected_schema s) row row') rows rows'
        | Err e, Err e' => e = e'
        | _, _ => False
        end
    end.

Lemma scope_lookup_position fields rel (row : list ScalarValue) i f v :
  NoDup (field_name <$> fields) -> fields !! i = Some f -> row !! i = Some v ->
  scope_lookup {| relation := Some rel; name := field_name f |}
    ((fun f => {| relation := Some rel; name := field_name f |}) <$> fields) row = Some v.
Proof.
  revert row i. induction fields as [|g fields IH]; intros [|w row] [|i] Hnd Hf Hv; try done; cbn in *; simplify_eq.
  - unfold column_matches_ref. cbn. by rewrite !bool_decide_true.
  - apply NoDup_cons in Hnd as [Hg Hnd]. unfold column_matches_ref at 1. cbn. rewrite bool_decide_false; [by eapply IH|].
    intros Heq. apply Hg. rewrite <- Heq. eapply list_elem_of_fmap_2, list_elem_of_lookup_2. done.
Qed.

Lemma lookup_scopes_head c columns (row : list ScalarValue) scopes :
  is_Some (scope_lookup c columns row) ->
  lookup_scopes c ((columns, row) :: scopes) = ok_or (scope_lookup c columns row) (PlanError "no field with that name").
Proof. intros [v Hv]. cbn. by rewrite Hv. Qed.

Lemma eval_key_columns scopes columns row ns keys :
  result_mapM (fun n =>
    let? v := ok_or (scope_lookup {| relation := None; name := n |} columns row) (PlanError "no field with that name") in
    fn_sem FToBinary [v]) ns = Ok keys ->
  result_mapM (eval_expr stored server_call ((columns, row) :: scopes))
    ((fun c => LFunction FToBinary [c]) <$> ((fun n => LColumn {| relation := None; name := n |}) <$> ns)) = Ok keys.
Proof.
  revert keys. induction ns as [|n ns IH]; intros keys Hk; cbn [result_mapM fmap list_fmap] in *; [done|]. inv_ok.
  change (list_fmap _ _ ?g ?l) with (g <$> l). rewrite (IH _ eq_refl). cbn [eval_expr result_mapM result_bind lookup_scopes].
  rewrite E2. cbn [result_bind]. by rewrite E.
Qed.

Lemma decryption_column_value s t scopes row i f c v :
  NoDup (field_name <$> projected_schema s) -> projected_schema s !! i = Some f -> row !! i = Some c ->
  cell_stored s t row f c v ->
  eval_expr stored server_call ((scan_columns s, row) :: scopes) (decryption_column s t (encrypted_outputs s) f) = Ok v.
Proof.
  intros Hnd Hf Hc Hcell. unfold decryption_column, cell_stored in *.
  assert (lookup_scopes {| relation := Some (scan_table s); name := field_name f |} ((scan_columns s, row) :: scopes) = Ok c) as Hcol.
  { cbn. unfold scan_columns. by rewrite (scope_lookup_position _ _ _ _ _ _ Hnd Hf Hc). }
  destruct (field_encrypted f) eqn:Henc; cbn [andb]; [|by subst].
  rewrite bool_decide_true.
  2: { unfold encrypted_outputs. apply list_elem_of_fmap_2, list_elem_of_In, filter_In. split; [|done].
       apply list_elem_of_In. by eapply list_elem_of_lookup_2. }
  destruct Hcell as (aad & Haad & Hdec). unfold row_aad in Haad. destruct (if ms_row_binding_aad t then _ else _) as [keys|] eqn:Hkeys in Haad; [|done]. cbn [result_bind] in Haad.
  cbn [eval_expr decrypt_invoke compute_aad_invoke result_mapM]. rewrite Hcol. cbn [result_bind].
  unfold get_aad_source. destruct (ms_row_binding_aad t); cbn [negb].
  - rewrite (eval_key_columns _ _ _ _ _ Hkeys). cbn [result_bind]. change (field_type (clear_encrypted f)) with (field_type f).
    rewrite Haad. cbn [result_bind]. by rewrite Hdec.
  - injection Hkeys as <-. cbn [result_mapM fmap list_fmap result_bind].
    change (field_type (clear_encrypted f)) with (field_type f). rewrite Haad. cbn [result_bind]. by rewrite Hdec.
Qed.

Lemma clear_row s t l fields row row' :
  (forall f, f ∈ fields -> field_encrypted f = false) -> Forall3 (cell_stored s t l) fields row row' -> row = row'.
Proof.
  intros Hclear Hrow. induction Hrow as [|f c v fields row row' Hcell _ IH]; [done|]. unfold cell_stored in Hcell.
  rewrite Hclear in Hcell by left. subst. f_equal. apply IH. intros f' Hf'. apply Hclear. by right.
Qed.

Lemma no_encrypted_output s f : encrypted_outputs s = [] -> f ∈ projected_schema s -> field_encrypted f = false.
Proof.
  intros Hout Hf. destruct (field_encrypted f) eqn:He; [|done]. exfalso. apply (not_elem_of_nil (field_name f)).
  rewrite <- Hout. unfold encrypted_outputs. apply list_elem_of_fmap_2, list_elem_of_In, filter_In.
  split; [by apply list_elem_of_In|done].
Qed.

Lemma decrypted_row s t scopes row row' :
  NoDup (field_name <$> projected_schema s) -> Forall3 (cell_stored s t row) (projected_schema s) row row' ->
  result_mapM (eval_expr stored server_call ((scan_columns s, row) :: scopes))
    (decryption_column s t (encrypted_outputs s) <$> projected_schema s) = Ok row'.
Proof.
  intros Hnd Hrow. pose proof (Forall3_length_lm _ _ _ _ Hrow). pose proof (Forall3_length_lr _ _ _ _ Hrow).
  apply result_mapM_fmap; [rewrite length_fmap; lia|].
  intros i e v He Hv. rewrite list_lookup_fmap in He. destruct (projected_schema s !! i) as [f|] eqn:Hf; [|done].
  injection He as <-. destruct (lookup_lt_is_Some_2 row i) as [c Hc]; [apply lookup_lt_Some in Hf; lia|].
  eapply decryption_column_value; eauto. by eapply Forall3_lookup_lmr.
Qed.

Lemma decryption_columns s t :
  output_column <$> (decryption_column s t (encrypted_outputs s) <$> projected_schema s) = scan_columns s.
Proof.
  unfold scan_columns. rewrite <- list_fmap_compose. apply list_fmap_ext. intros i f _. unfold compose, decryption_column.
  by destruct (field_encrypted f && _).
Qed.

Lemma rewritten_scan_meaning scopes s : stored_encrypted ->
  eval_plan stored server_call scopes (rewrite_plan (LTableScan s)) = eval_plan plain server_call scopes (LTableScan s).
Proof.
  intros Hst. specialize (Hst s) as Hs. unfold rewrite_plan. case_bool_decide as Hout.
  - destruct (scan_source s) as [t|]; [|cbn; by rewrite Hs]. cbn.
    destruct (stored s) as [rows|e], (plain s) as [rows'|e']; cbn; try done; [|by rewrite Hs].
    destruct Hs as [_ Hs]. do 2 f_equal. induction Hs as [|row row' rows rows' Hrow _ IH]; [done|]. f_equal; [|done].
    eapply clear_row, Hrow. intros f. by apply no_encrypted_output.
  - unfold build_decryption_projection. destruct (scan_source s) as [t|]; [|cbn; by rewrite Hs].
    cbn [eval_plan]. rewrite decryption_columns.
    destruct (stored s) as [rows|e], (plain s) as [rows'|e']; cbn [result_bind rel_columns rel_rows]; try done; [|by rewrite Hs].
    destruct Hs as [Hnd Hs]. erewrite (result_mapM_fmap _ rows rows'); [done|symmetry; by eapply Forall2_length|].
    intros i row row' Hrow Hrow'. apply decrypted_row; [done|]. exact (Forall2_lookup_lr _ _ _ _ _ _ Hs Hrow Hrow').
Qed.

(** C7: Adding decryption makes encryption transparent: on the rows that the server
    keeps, every plan, its subqueries included, gives after the analysis the answer
    that it gives without the analysis on the rows in clear. *)
Theorem add_decryption_transparent p scopes :
  stored_encrypted ->
  eval_plan stored server_call scopes (add_decryption p) = eval_plan plain server_call scopes p.
Proof.
  intros Hst. apply (rewriting_keeps_meaning plain stored server_call rewrite_plan).
  - intros scopes' s. by apply rewritten_scan_meaning.
  - intros q Hq. destruct q; try done. by destruct (Hq s).
Qed.
End Decryption.

(** ** Rules that leave subqueries *)

Section Nodes.
Context `{!Names} `{!PlanSem}.
Variables (scans : LScan -> result (list (list ScalarValue))) (server_call : LExpr -> result ScalarValue).
Abbreviation value := (eval_plan scans server_call).

Lemma transform_up_meaning f p scopes :
  (forall q scopes, value scopes (f q) = value scopes q) -> value scopes (transform_up f p) = value scopes p.
Proof.
  intros Hf. revert p scopes.
  apply (lplan_ind' (fun _ => True) (fun p => forall scopes, value scopes (transform_up f p) = value scopes p)); try done;
    try (intros; cbn [transform_up]; by rewrite Hf).
  - intros es p _ IH scopes. cbn [transform_up]. rewrite Hf. cbn [eval_plan]. by rewrite IH.
  - intros e p _ IH scopes. cbn [transform_up]. rewrite Hf. cbn [eval_plan]. by rewrite IH.
  - intros gs es p _ _ IH scopes. cbn [transform_up]. rewrite Hf.
    destruct (decide (gs = [])) as [->|Hgs]; [cbn [eval_plan]; by rewrite IH|]. by rewrite !eval_plan_grouped, IH.
  - intros p IH scopes. cbn [transform_up]. rewrite Hf. cbn [eval_plan]. by rewrite IH.
  - intros k es ps _ IH scopes. cbn [transform_up]. rewrite Hf. cbn [eval_plan].
    rewrite result_mapM_fmap_in, (result_mapM_ext _ (value scopes)); [done|].
    eapply Forall_impl; [exact IH|]. auto.
Qed.

(** Every scan of the plan, outside of subqueries, takes locks. *)
Fixpoint scans_locked (p : LPlan) : bool :=
  match p with
  | LTableScan _ => false
  | LLockingScan (LTableScan _) => true
  | LEmptyRelation _ | LForwardStatement _ _ => true
  | LProjection _ p | LFilter _ p | LAggregate _ _ p | LLockingScan p => scans_locked p
  | LNode _ _ ps => forallb scans_locked ps
  end.

Lemma lock_scans_locked p : scans_locked (lock_scans p) = true.
Proof.
  revert p. apply (lplan_ind' (fun _ => True) (fun p => scans_locked (lock_scans p) = true)); try done.
  - intros p IH. unfold lock_scans in *. cbn [transform_up scans_locked].
    by destruct (transform_up _ p) eqn:Hp.
  - intros k es ps _ IH. unfold lock_scans in *. cbn. induction IH as [|p ps Hp _ IH]; [done|]. cbn. by rewrite Hp.
Qed.
Lemma lock_scans_meaning p scopes : value scopes (lock_scans p) = value scopes p.
Proof. apply transform_up_meaning. by intros []. Qed.

(** Where every table called [dual] has one row without columns, it can be removed. *)
Lemma eliminate_dummy_meaning p scopes :
  (forall s, (scan_table s).2 = "dual" -> projected_schema s = [] /\ scans s = Ok [[]]) ->
  value scopes (eliminate_dummy_table p) = value scopes p.
Proof.
  intros Hd. apply transform_up_meaning. intros [] scopes'; try done. case_bool_decide as Hn; [|done].
  destruct (Hd s Hn) as [Hp Hs]. cbn. unfold scan_columns. by rewrite Hs, Hp.
Qed.

(** A call that the server answers has the value that the server gives. *)
Lemma forwarded_call_value e scopes n args :
  e = LFunction (FNamed n) args -> to_ascii_lowercase n ∈ FORWARDED_FUNCTIONS_NAMES ->
  eval_expr scans server_call scopes (forward_function e) = server_call e.
Proof.
  intros -> Hn. cbn [forward_function]. rewrite bool_decide_true by done.
  cbn [eval_expr eval_plan]. destruct (server_call _) as [v|]; [|done].
  cbn [result_bind result_mapM rel_columns rel_rows eval_expr lookup_scopes scope_lookup]. unfold column_matches_ref.
  cbn [relation name]. by rewrite bool_decide_true.
Qed.
End Nodes.

(** ** Subqueries as arguments of [coalesce] *)

(** The second computation has the result of the first where this one succeeds. *)
Definition improves {A} (m m' : result A) : Prop := forall a, m = Ok a -> m' = Ok a.

Lemma improves_refl {A} (m : result A) : improves m m.
Proof. by intros a. Qed.

Lemma improves_bind {A B} (m m' : result A) (k k' : A -> result B) :
  improves m m' -> (forall a, improves (k a) (k' a)) -> improves (let? a := m in k a) (let? a := m' in k' a).
Proof. intros Hm Hk b Hb. inv_ok. rewrite (Hm _ eq_refl). by apply Hk. Qed.

Lemma improves_mapM {A A' B} (f : A -> result B) (g : A' -> result B) l l' :
  Forall2 (fun a b => improves (f a) (g b)) l l' -> improves (result_mapM f l) (result_mapM g l').
Proof.
  induction 1 as [|a b l l' Hab _ IH]; cbn; [apply improves_refl|].
  apply improves_bind; [done|]. intros x. apply improves_bind; [done|]. intros xs. apply improves_refl.
Qed.

Lemma improves_filter {A} (f g : A -> result bool) l :
  (forall a, improves (f a) (g a)) -> improves (result_filter f l) (result_filter g l).
Proof.
  intros Hfg. induction l as [|a l IH]; cbn; [apply improves_refl|].
  apply improves_bind; [done|]. intros b. apply improves_bind; [done|]. intros xs. apply improves_refl.
Qed.

#[local] Hint Resolve improves_refl : core.

(** An operator with better expressions has a better answer; NULL and [first_value] are
    SQL's. The values of a plan have their type apart, so that NULL is one value. *)
Class PlanSemMono `{!PlanSem} : Prop := {
  node_sem_mono k es es' rs :
    Forall2 (fun f g => forall scope, improves (f scope) (g scope)) es es' -> improves (node_sem k es rs) (node_sem k es' rs);
  group_sem_mono gs gs' es es' r :
    Forall2 (fun f g => forall scope, improves (f scope) (g scope)) gs gs' ->
    Forall2 (fun a b => a.1 = b.1 /\ Forall2 (fun f g => forall scope, improves (f scope) (g scope)) a.2 b.2) es es' ->
    improves (group_sem gs es r) (group_sem gs' es' r);
  is_not_null_sem v : other_sem "IS NOT NULL" [v] [] = Ok (SBoolean (Some (negb (is_null v))));
  first_value_sem vs : agg_sem "first_value" ((fun v => [v]) <$> vs) = Ok (default SNull (head vs))
}.

Section Coalesce.
Context `{!Names} `{!PlanSem} `{!PlanSemMono}.
Variables (scans : LScan -> result (list (list ScalarValue))) (server_call : LExpr -> result ScalarValue).
Variables (max_rows : LPlan -> option nat) (output_columns : LPlan -> list Column).
Hypothesis output_columns_ok : forall scopes p r, eval_plan scans server_call scopes p = Ok r -> output_columns p = rel_columns r.
Abbreviation value_e := (eval_expr scans server_call).
Abbreviation value_p := (eval_plan scans server_call).

Lemma column_matches_itself c : column_matches_ref c c = true.
Proof. unfold column_matches_ref. destruct (relation c); by rewrite !bool_decide_true. Qed.

Lemma not_null_filter scopes c vs :
  result_filter (fun row => result_map is_true_value (value_e (([c], row) :: scopes) (is_not_null (LColumn c)))) ((fun v => [v]) <$> vs)
  = Ok ((fun v => [v]) <$> List.filter (fun v => negb (is_null v)) vs).
Proof.
  induction vs as [|v vs IH]; [done|]. cbn [fmap list_fmap result_filter].
  change (list_fmap _ _ ?g ?l) with (g <$> l). rewrite IH.
  cbn [is_not_null eval_expr result_mapM lookup_scopes scope_lookup]. rewrite column_matches_itself. cbn [result_bind].
  rewrite is_not_null_sem. cbn. by destruct v.
Qed.

Lemma eval_first_value scopes c p :
  value_e scopes (LScalarSubquery (LAggregate [] [first_value (LColumn c)] p)) =
  let? r := value_p scopes p in
  let? vs := result_mapM (fun row => result_mapM (value_e ((rel_columns r, row) :: scopes)) [LColumn c]) (rel_rows r) in
  agg_sem "first_value" vs.
Proof.
  change (value_e scopes (LScalarSubquery (LAggregate [] [first_value (LColumn c)] p))) with
    (let? r' := (let? r := value_p scopes p in
       let? vs := result_mapM (fun e => match e with
         | LAggregateFunction f args =>
             let? columns := result_mapM (fun row => result_mapM (value_e ((rel_columns r, row) :: scopes)) args) (rel_rows r) in agg_sem f columns
         | _ => Err (PlanError "not an aggregate function") end) [first_value (LColumn c)] in
       Ok {| rel_columns := output_column <$> [first_value (LColumn c)]; rel_rows := [vs] |}) in scalar_of r').
  destruct (value_p scopes p) as [r|]; [|done]. cbn [result_bind result_mapM first_value].
  destruct (result_mapM _ (rel_rows r)) as [vs|]; [|done]. cbn [result_bind]. by destruct (agg_sem _ vs).
Qed.

(** A subquery of one column, as a rewritten argument, is the first of its values that
    is not NULL, and NULL when there is none. *)
Lemma coalesce_argument_value scopes p c vs :
  value_p scopes p = Ok {| rel_columns := [c]; rel_rows := (fun v => [v]) <$> vs |} ->
  value_e scopes (LScalarSubquery (LAggregate [] [first_value (LColumn c)] (LFilter (is_not_null (LColumn c)) p))) =
  Ok (default SNull (head (List.filter (fun v => negb (is_null v)) vs))).
Proof.
  intros Hp.
  assert (value_p scopes (LFilter (is_not_null (LColumn c)) p) =
          Ok {| rel_columns := [c]; rel_rows := (fun v => [v]) <$> List.filter (fun v => negb (is_null v)) vs |}) as Hf.
  { change (value_p scopes (LFilter (is_not_null (LColumn c)) p)) with
      (let? r := value_p scopes p in
       let? rows := result_filter (fun row => result_map is_true_value (value_e ((rel_columns r, row) :: scopes) (is_not_null (LColumn c)))) (rel_rows r) in
       Ok {| rel_columns := rel_columns r; rel_rows := rows |}).
    rewrite Hp. cbn [result_bind rel_columns rel_rows]. by rewrite not_null_filter. }
  rewrite eval_first_value, Hf. cbn [result_bind rel_columns rel_rows].
  rewrite result_mapM_fmap_in, (result_mapM_ext _ (fun v => Ok [v])).
  2: { apply Forall_true. intros v. cbn. by rewrite column_matches_itself. }
  erewrite (result_mapM_fmap _ _ ((fun v => [v]) <$> List.filter (fun v => negb (is_null v)) vs));
    [|by rewrite length_fmap|intros i v w Hv Hw; rewrite list_lookup_fmap, Hv in Hw; by simplify_eq/=].
  cbn [result_bind]. by rewrite first_value_sem.
Qed.

Lemma transform_coalesce_improves scopes arg arg' :
  transform_coalesce max_rows output_columns arg = Ok arg' ->
  improves (value_e scopes arg) (value_e scopes arg') /\ schema_name arg' = schema_name arg.
Proof.
  intros Ht. destruct arg as [| | | | |p|]; cbn in Ht; try (by inv_ok). destruct (_ || _); [by inv_ok|].
  apply result_bind_ok in Ht as (pred & Hpred & [= <-]). split; [|done]. intros v Hv.
  change (value_e scopes (LScalarSubquery p)) with (let? r := value_p scopes p in scalar_of r) in Hv.
  destruct (value_p scopes p) as [r|] eqn:Hp; [|done]. cbn [result_bind] in Hv.
  rewrite (output_columns_ok _ _ _ Hp) in Hpred |- *. destruct r as [cs rows]. cbn [rel_columns] in *.
  destruct cs as [|c [|? ?]]; try done. cbn in Hpred. injection Hpred as <-.
  destruct rows as [|[|w [|? ?]] [|? ?]]; try done; cbn in Hv; injection Hv as <-.
  - exact (coalesce_argument_value scopes p c [] Hp).
  - pose proof (coalesce_argument_value scopes p c [w] Hp) as Hc. by destruct w.
Qed.

(** What the rule keeps of an expression: its value where it has one, its name and the
    arguments of an aggregate function. *)
Definition improved (e e' : LExpr) : Prop :=
  (forall scopes, improves (value_e scopes e) (value_e scopes e')) /\
  schema_name e' = schema_name e /\ output_column e' = output_column e.

Definition improved_args (e e' : LExpr) : Prop :=
  improved e e' /\
  match e with
  | LAggregateFunction g args => exists args', e' = LAggregateFunction g args' /\ Forall2 improved args args'
  | _ => match e' with LAggregateFunction _ _ => False | _ => True end
  end.

Lemma improved_names es es' : Forall2 improved es es' -> schema_name <$> es' = schema_name <$> es.
Proof. induction 1 as [|e e' es es' (_ & Hn & _) _ IH]; cbn; [done|]. by rewrite Hn, IH. Qed.

Lemma improved_columns es es' : Forall2 improved es es' -> output_column <$> es' = output_column <$> es.
Proof. induction 1 as [|e e' es es' (_ & _ & Hn) _ IH]; cbn; [done|]. by rewrite Hn, IH. Qed.

Lemma improved_values scopes es es' : Forall2 improved es es' -> improves (result_mapM (value_e scopes) es) (result_mapM (value_e scopes) es').
Proof. intros Hes. apply improves_mapM. eapply Forall2_impl; [exact Hes|]. intros e e' [He _]. apply He. Qed.

Lemma improved_refl e : improved e e.
Proof. by repeat split. Qed.

Lemma improved_trans e e' e'' : improved e e' -> improved e' e'' -> improved e e''.
Proof.
  intros (Hv & Hn & Hc) (Hv' & Hn' & Hc'). split; [|split; congruence]. intros scopes a Ha. by apply Hv', Hv.
Qed.

Lemma improved_function g args args' : Forall2 improved args args' -> improved (LFunction g args) (LFunction g args').
Proof.
  intros Hargs. pose proof (improved_names _ _ Hargs) as Hn. split; [|cbn; by rewrite Hn]. intros scopes. cbn.
  apply improves_bind; [by apply improved_values|done].
Qed.

Lemma coalesce_call_improves e e' : transform_coalesce_call max_rows output_columns e = Ok e' -> improved e e'.
Proof.
  intros Ht. destruct e as [| | |[| | |n] args| | |]; cbn in Ht; inv_ok; try apply improved_refl.
  case_bool_decide; inv_ok; [|apply improved_refl]. apply improved_function. revert a E.
  induction args as [|arg args IH]; intros args' Ha; cbn in Ha; inv_ok; [constructor|]. constructor; [|by apply IH].
  split; [intros scopes; by apply transform_coalesce_improves|].
  destruct (transform_coalesce_improves [] _ _ E) as [_ Hn]. split; [done|].
  destruct arg; cbn in E; try (by inv_ok). destruct (_ || _); inv_ok; done.
Qed.

Lemma try_transform_improves e e' :
  try_expr_transform (transform_coalesce_call max_rows output_columns) e = Ok e' -> improved_args e e'.
Proof.
  set (f := transform_coalesce_call max_rows output_columns).
  assert (forall es es', Forall (fun e => forall e', try_expr_transform f e = Ok e' -> improved_args e e') es ->
            result_mapM (try_expr_transform f) es = Ok es' -> Forall2 improved es es') as Hlist.
  { induction es as [|a es IH]; intros es' Hf Hes; cbn in Hes; inv_ok; [constructor|].
    apply Forall_cons in Hf as [Ha Hf]. constructor; [by apply Ha|by apply IH]. }
  revert e'. revert e. apply (lexpr_ind' (fun e => forall e', try_expr_transform f e = Ok e' -> improved_args e e') (fun _ => True)); try done;
    try (intros; cbn in *; inv_ok; split; [apply improved_refl|done]).
  - intros e r n IH e' He. cbn in He. inv_ok. cbn in He. inv_ok. split; [|done]. destruct (IH _ eq_refl) as [(Hv & Hn & Hc) _]. split; [exact Hv|done].
  - intros g args IH e' He. cbn [try_expr_transform] in He. apply result_bind_ok in He as (e1 & He1 & He). inv_ok.
    pose proof (improved_function g _ _ (Hlist _ _ IH E)) as Hfirst. pose proof (coalesce_call_improves _ _ He) as Hsecond.
    split; [by eapply improved_trans|]. destruct g as [| | |n]; cbn in He; inv_ok; try done. case_bool_decide; by inv_ok.
  - intros g args IH e' He. cbn [try_expr_transform] in He. apply result_bind_ok in He as (e1 & He1 & He). inv_ok. cbn in He. inv_ok.
    pose proof (Hlist _ _ IH E) as Ha. pose proof (improved_names _ _ Ha) as Hn. split; [|by eexists].
    split; [done|]. cbn. by rewrite Hn.
  - intros k es ps IH _ e' He. cbn [try_expr_transform] in He. apply result_bind_ok in He as (e1 & He1 & He). inv_ok. cbn in He. inv_ok.
    pose proof (Hlist _ _ IH E) as Ha. pose proof (improved_names _ _ Ha) as Hn. split; [|done].
    split; [|cbn; by rewrite Hn]. intros scopes. cbn. apply improves_bind; [by apply improved_values|done].
Qed.

Lemma transform_list_improves es es' :
  result_mapM (try_expr_transform (transform_coalesce_call max_rows output_columns)) es = Ok es' -> Forall2 improved_args es es'.
Proof.
  revert es'. induction es as [|e es IH]; intros es' Hes; cbn in Hes; inv_ok; [constructor|].
  constructor; [by apply try_transform_improves|by apply IH].
Qed.

Lemma improved_args_weaken es es' : Forall2 improved_args es es' -> Forall2 improved es es'.
Proof. intros Hes. eapply Forall2_impl; [exact Hes|]. by intros e e' []. Qed.

Lemma improved_closures scopes es es' : Forall2 improved es es' ->
  Forall2 (fun f g => forall scope : Scope, improves (f scope) (g scope))
    ((fun e scope => value_e (scope :: scopes) e) <$> es) ((fun e scope => value_e (scope :: scopes) e) <$> es').
Proof.
  intros Hes. apply Forall2_fmap. eapply Forall2_impl; [exact Hes|]. intros e e' [He _] scope. apply He.
Qed.

Lemma improved_grouped scopes es es' : Forall2 improved_args es es' ->
  Forall2 (fun a b => a.1 = b.1 /\ Forall2 (fun f g => forall scope : Scope, improves (f scope) (g scope)) a.2 b.2)
    ((fun e => match e with
               | LAggregateFunction f args => (f, (fun a scope => value_e (scope :: scopes) a) <$> args)
               | _ => (EmptyString, [fun scope => value_e (scope :: scopes) e]) end) <$> es)
    ((fun e => match e with
               | LAggregateFunction f args => (f, (fun a scope => value_e (scope :: scopes) a) <$> args)
               | _ => (EmptyString, [fun scope => value_e (scope :: scopes) e]) end) <$> es').
Proof.
  intros Hes. apply Forall2_fmap. eapply Forall2_impl; [exact Hes|]. intros e e' [[He _] Hargs].
  destruct e; try (destruct e'; try done; (split; [done|]); (constructor; [intros scope; exact (He (scope :: scopes))|constructor])).
  destruct Hargs as (args' & -> & Hargs). split; [done|]. by apply improved_closures.
Qed.

Lemma improved_aggregates scopes columns rows es es' : Forall2 improved_args es es' ->
  improves
    (result_mapM (fun e => match e with
      | LAggregateFunction f args =>
          let? vs := result_mapM (fun row => result_mapM (value_e ((columns, row) :: scopes)) args) rows in agg_sem f vs
      | _ => Err (PlanError "not an aggregate function") end) es)
    (result_mapM (fun e => match e with
      | LAggregateFunction f args =>
          let? vs := result_mapM (fun row => result_mapM (value_e ((columns, row) :: scopes)) args) rows in agg_sem f vs
      | _ => Err (PlanError "not an aggregate function") end) es').
Proof.
  intros Hes. apply improves_mapM. eapply Forall2_impl; [exact Hes|]. intros e e' [_ Hargs].
  destruct e; try (by intros a). destruct Hargs as (args' & -> & Hargs). apply improves_bind; [|done].
  apply improves_mapM, Forall_Forall2_diag, Forall_true. intros row. by apply improved_values.
Qed.

(** Better inputs and better expressions give better answers. *)
Lemma projection_improves es es' p p' scopes : Forall2 improved_args es es' ->
  improves (value_p scopes p) (value_p scopes p') -> improves (value_p scopes (LProjection es p)) (value_p scopes (LProjection es' p')).
Proof.
  intros Hes%improved_args_weaken Hp. cbn [eval_plan]. apply improves_bind; [done|]. intros r. apply improves_bind.
  - apply improves_mapM, Forall_Forall2_diag, Forall_true. intros row. by apply improved_values.
  - intros rows. by rewrite (improved_columns _ _ Hes).
Qed.

Lemma filter_improves e e' p p' scopes : improved_args e e' ->
  improves (value_p scopes p) (value_p scopes p') -> improves (value_p scopes (LFilter e p)) (value_p scopes (LFilter e' p')).
Proof.
  intros [[He _] _] Hp. cbn [eval_plan]. apply improves_bind; [done|]. intros r. apply improves_bind; [|done].
  apply improves_filter. intros row. by apply improves_bind.
Qed.

Lemma aggregate_improves gs gs' es es' p p' scopes : Forall2 improved_args gs gs' -> Forall2 improved_args es es' ->
  improves (value_p scopes p) (value_p scopes p') ->
  improves (value_p scopes (LAggregate gs es p)) (value_p scopes (LAggregate gs' es' p')).
Proof.
  intros Hgs Hes Hp. pose proof (improved_columns _ _ (improved_args_weaken _ _ Hes)) as Hce.
  pose proof (improved_columns _ _ (improved_args_weaken _ _ Hgs)) as Hcg.
  destruct Hgs as [|g g' gs gs' Hg Hgs].
  - cbn [eval_plan]. apply improves_bind; [done|]. intros r. rewrite Hce. apply improves_bind; [by apply improved_aggregates|done].
  - rewrite !eval_plan_grouped by done. apply improves_bind; [done|]. intros r. rewrite !fmap_app, Hce, Hcg.
    apply improves_bind; [|done]. apply group_sem_mono; [|by apply improved_grouped].
    apply improved_closures, improved_args_weaken. by constructor.
Qed.

Lemma node_improves k es es' ps ps' scopes : Forall2 improved_args es es' ->
  Forall2 (fun p p' => improves (value_p scopes p) (value_p scopes p')) ps ps' ->
  improves (value_p scopes (LNode k es ps)) (value_p scopes (LNode k es' ps')).
Proof.
  intros Hes Hps. cbn [eval_plan]. apply improves_bind; [by apply improves_mapM|]. intros rs.
  by apply node_sem_mono, improved_closures, improved_args_weaken.
Qed.

Lemma improved_args_refl e : improved_args e e.
Proof.
  split; [apply improved_refl|]. destruct e; try done. eexists. split; [done|].
  apply Forall_Forall2_diag, Forall_true, improved_refl.
Qed.

Lemma map_expressions_improves p p' scopes :
  try_map_expressions (try_expr_transform (transform_coalesce_call max_rows output_columns)) p = Ok p' ->
  improves (value_p scopes p) (value_p scopes p').
Proof.
  destruct p; cbn [try_map_expressions]; intros Hm; inv_ok; try done.
  - apply projection_improves; [by apply transform_list_improves|done].
  - apply filter_improves; [by apply try_transform_improves|done].
  - apply aggregate_improves; [by apply transform_list_improves|by apply transform_list_improves|done].
  - apply node_improves; [by apply transform_list_improves|]. by apply Forall_Forall2_diag, Forall_true.
Qed.

Lemma improved_exprs_refl es : Forall2 improved_args es es.
Proof. apply Forall_Forall2_diag, Forall_true, improved_args_refl. Qed.

(** C23: Rewriting the subqueries in the arguments of [coalesce] keeps every answer: a
    query that had one has the same one afterwards. (A query that failed because such a
    subquery has several rows has one only afterwards.) *)
Theorem subquery_rule_keeps_answers p p' scopes r :
  rewrite_subquery_arguments max_rows output_columns p = Ok p' ->
  eval_plan scans server_call scopes p = Ok r -> eval_plan scans server_call scopes p' = Ok r.
Proof.
  intros Hp'. revert r. change (improves (value_p scopes p) (value_p scopes p')). revert p' scopes Hp'. revert p.
  apply (lplan_ind' (fun _ => True) (fun p => forall p' scopes, rewrite_subquery_arguments max_rows output_columns p = Ok p' ->
           improves (value_p scopes p) (value_p scopes p'))); try done; unfold rewrite_subquery_arguments;
    intros *; try (intros; cbn [try_transform_up] in *; inv_ok; by apply map_expressions_improves).
  - intros _ IH p' scopes Hp. cbn [try_transform_up] in Hp. inv_ok. intros a Ha. eapply map_expressions_improves; [exact Hp|].
    eapply projection_improves; [apply improved_exprs_refl|by apply IH|exact Ha].
  - intros _ IH p' scopes Hp. cbn [try_transform_up] in Hp. inv_ok. intros a Ha. eapply map_expressions_improves; [exact Hp|].
    eapply filter_improves; [apply improved_args_refl|by apply IH|exact Ha].
  - intros _ _ IH p' scopes Hp. cbn [try_transform_up] in Hp. inv_ok. intros a Ha. eapply map_expressions_improves; [exact Hp|].
    eapply aggregate_improves; [apply improved_exprs_refl|apply improved_exprs_refl|by apply IH|exact Ha].
  - intros IH p' scopes Hp. cbn [try_transform_up] in Hp. inv_ok. intros a Ha. eapply map_expressions_improves; [exact Hp|].
    by apply (IH _ scopes eq_refl).
  - intros _ IH p' scopes Hp. cbn [try_transform_up] in Hp. inv_ok. intros a Ha. eapply map_expressions_improves; [exact Hp|].
    eapply node_improves; [apply improved_exprs_refl| |exact Ha]. clear -E0 IH. revert a0 E0.
    induction IH as [|p ps Hp _ IH]; intros ps' Hps; cbn in Hps; inv_ok; constructor; [by apply Hp|by apply IH].
Qed.
End Coalesce.

(** ** Examples *)

(** Encryption adds the key of the row, [coalesce] is SQL's, and the operators that the
    rules do not tell apart return their first input. *)
#[export] Instance demo_plan_names : Names := {| print_literal _ := "literal"; print_call f _ := f |}.

Definition demo_fn (f : LFunc) (vs : list ScalarValue) : result ScalarValue :=
  match f, vs with
  | FToBinary, [v] => Ok v
  | FComputeAad _, k :: _ => Ok k
  | FDecrypt _ _, [SInt32 (Some c); SInt32 (Some k)] => Ok (SInt32 (Some (c - k)%Z))
  | FNamed n, vs => Ok (default SNull (head (List.filter (fun v => negb (is_null v)) vs)))
  | _, _ => Err (ExecError "invalid arguments")
  end.

#[export] Instance demo_plan_sem : PlanSem := {|
  fn_sem := demo_fn;
  agg_sem _ rows := Ok (default SNull (head (mjoin rows)));
  other_sem _ vs _ := Ok (SBoolean (Some (match vs with [v] => negb (is_null v) | _ => true end)));
  node_sem _ _ rs := match rs with r :: _ => Ok r | [] => Err (PlanError "no input") end;
  group_sem _ _ r := Ok (rel_rows r)
|}.

#[export] Instance demo_plan_sem_ext : PlanSemExt.
Proof. by split. Qed.

#[export] Instance demo_plan_sem_mono : PlanSemMono.
Proof.
  split; try done. intros vs. cbn. do 2 f_equal. by destruct vs.
Qed.

Definition demo_source : MySqlSource :=
  {| ms_reference := {| catalog := "def"; schema := "shop"; table := "users" |}; ms_row_binding_aad := true; ms_primary_key := ["id"] |}.

Definition demo_scan : LScan := {|
  scan_table := (Some "shop", "users"); scan_source := Some demo_source;
  projected_schema := [field_new "id" DtInt32 false; set_encrypted "users" (field_new "age" DtInt32 true)]
|}.

#[local] Instance MySqlSource_eq_dec : EqDecision MySqlSource.
Proof. solve_decision. Defined.
#[local] Instance LScan_eq_dec : EqDecision LScan.
Proof. solve_decision. Defined.

Definition demo_int_row (l : list Z) : list ScalarValue := (fun z => SInt32 (Some z)) <$> l.

Definition demo_rows (rows : list (list Z)) (s : LScan) : result (list (list ScalarValue)) :=
  if bool_decide (s = demo_scan) then Ok (demo_int_row <$> rows) else Err (PlanError "no such table").

(** [SELECT (SELECT age FROM users) FROM users] *)
Definition demo_plan : LPlan :=
  LProjection [LAlias (LScalarSubquery (LProjection [LColumn {| relation := None; name := "age" |}] (LTableScan demo_scan))) None "a"]
    (LTableScan demo_scan).

Lemma add_decryption_transparent_witness :
  eval_plan (demo_rows [[1; 31]]%Z) (fun _ => Ok SNull) [] (add_decryption demo_plan) =
  eval_plan (demo_rows [[1; 30]]%Z) (fun _ => Ok SNull) [] demo_plan /\
  eval_plan (demo_rows [[1; 30]]%Z) (fun _ => Ok SNull) [] demo_plan =
  Ok {| rel_columns := [{| relation := None; name := "a" |}]; rel_rows := [[SInt32 (Some 30%Z)]] |}.
Proof.
  split; [|vm_compute; reflexivity].
  apply (add_decryption_transparent (demo_rows [[1; 31]]%Z) (demo_rows [[1; 30]]%Z) (fun _ => Ok SNull) demo_plan []).
  intros s. unfold demo_rows. destruct (decide (s = demo_scan)) as [->|Hs].
  - rewrite !bool_decide_true by reflexivity. split; [apply (bool_decide_unpack _); vm_compute; exact I|].
    constructor; [|constructor]. repeat constructor. exists (SInt32 (Some 1%Z)). split; reflexivity.
  - rewrite !bool_decide_false by exact Hs. by destruct (scan_source s).
Defined.

(** [SELECT coalesce((SELECT age FROM users)) FROM users], with one row *)
Definition demo_coalesce : LPlan :=
  LProjection [LFunction (FNamed "coalesce") [LScalarSubquery
    (LProjection [LColumn {| relation := None; name := "age" |}] (LTableScan demo_scan))]] (LEmptyRelation true).

(** The columns that a plan has, when the other operators keep those of their first
    input. *)
Fixpoint demo_columns (p : LPlan) : list Column :=
  match p with
  | LTableScan s => scan_columns s
  | LEmptyRelation _ => []
  | LProjection es _ => output_column <$> es
  | LAggregate gs es _ => output_column <$> (gs ++ es)
  | LFilter _ p | LLockingScan p => demo_columns p
  | LForwardStatement _ output => [{| relation := None; name := output |}]
  | LNode _ _ ps => match ps with p :: _ => demo_columns p | [] => [] end
  end.

Lemma demo_columns_ok scans server_call scopes p r :
  eval_plan scans server_call scopes p = Ok r -> demo_columns p = rel_columns r.
Proof.
  revert p r. apply (lplan_ind' (fun _ => True) (fun p => forall r, eval_plan scans server_call scopes p = Ok r -> demo_columns p = rel_columns r));
    try done.
  - intros s r Hr. cbn in Hr. by inv_ok.
  - intros b r [= <-]. done.
  - intros es p _ IH r Hr. cbn [eval_plan] in Hr. by inv_ok.
  - intros e p _ IH r Hr. cbn [eval_plan] in Hr. inv_ok. exact (IH _ eq_refl).
  - intros gs es p _ _ IH r Hr. destruct (decide (gs = [])) as [->|Hgs].
    + cbn [eval_plan] in Hr. by inv_ok.
    + rewrite eval_plan_grouped in Hr by done. by inv_ok.
  - intros e n _ r Hr. cbn [eval_plan] in Hr. by inv_ok.
  - intros k es [|p ps] _ IH r Hr; [done|]. apply Forall_cons in IH as [IH _]. cbn [eval_plan result_mapM] in Hr. inv_ok.
    cbn in Hr. injection Hr as <-. exact (IH _ eq_refl).
Qed.

Lemma subquery_rule_keeps_answers_witness :
  exists p', rewrite_subquery_arguments (fun _ => None) demo_columns demo_coalesce = Ok p' /\ p' <> demo_coalesce /\
    eval_plan (demo_rows [[1; 30]]%Z) (fun _ => Ok SNull) [] p' =
    Ok {| rel_columns := [{| relation := None; name := "coalesce" |}]; rel_rows := [[SInt32 (Some 30%Z)]] |}.
Proof.
  eexists. split; [reflexivity|]. split; [discriminate|].
  apply (subquery_rule_keeps_answers (demo_rows [[1; 30]]%Z) (fun _ => Ok SNull) (fun _ => None) demo_columns
           (demo_columns_ok (demo_rows [[1; 30]]%Z) (fun _ => Ok SNull)) demo_coalesce); [reflexivity|vm_compute; reflexivity].
Defined.

Definition demo_dual (s : string) : LScan := {| scan_table := (Some s, "dual"); scan_source := None; projected_schema := [] |}.

(** Finding: the rule that removes [dual] does not visit subqueries, and it removes the
    tables of that name in every database. *)
Lemma dual_in_subquery_kept :
  let q := LProjection [LLiteral SNull] (LTableScan (demo_dual "shop")) in
  eliminate_dummy_table q = LProjection [LLiteral SNull] (LEmptyRelation true) /\
  eliminate_dummy_table (LProjection [LScalarSubquery q] (LEmptyRelation true)) = LProjection [LScalarSubquery q] (LEmptyRelation true).
Proof. split; reflexivity. Qed.
