(* ===== verification/PhysicalExprs.v ===== *)
(** * Physical expressions over batches

    The expressions the proxy adds to DataFusion's execution plans, over batches
    of columns: encryption, decryption, associated data and row identifiers
    ([crypto/src/planning/physical], [crypto/src/row_id.rs]). Each evaluates as
    the column operations of ColumnCrypto.v on the values of its children; the
    expressions of the indices are a parameter. A projection evaluates its
    expressions one by one and checks the columns against its schema, as Arrow
    documents for [RecordBatch::try_new]. *)
From S2P Require Import Prelude Values Sql Text Crypto ArrowCodec ColumnCrypto SqlSchema.

(** ** Row identifiers: sizes *)

Inductive RowIdColumnSize := Size4Bytes | Size8Bytes | Size12Bytes | Size16Bytes.

Definition size_bytes (s : RowIdColumnSize) : nat :=
  match s with Size4Bytes => 4 | Size8Bytes => 8 | Size12Bytes => 12 | Size16Bytes => 16 end.

(** ** Batches *)

Record RecordBatch := { batch_schema : list Field; batch_columns : list Array; batch_rows : nat }.

(** A column of the batch, or one value for all rows. *)
Inductive PVal := PArray (a : Array) | PScalar (dt : DataType) (v : option ArrowValue).

Definition into_array (n : nat) (v : PVal) : Array :=
  match v with
  | PArray a => a
  | PScalar dt v => {| data_type := dt; values := replicate n v |}
  end.

Definition binary_array (b : BinaryArray) : Array :=
  {| data_type := DtBinary; values := map (option_map VBytes) b |}.

(** [as_binary]: the downcast panics on another type. *)
Definition as_binary_array (a : Array) : result BinaryArray :=
  if bool_decide (data_type a = DtBinary) then map_slots as_binary (values a)
  else Err (Panic "byte array").

(** [try_from_array] at index 0. *)
Definition first_value (a : Array) : result PVal :=
  match values a with
  | v :: _ => Ok (PScalar (data_type a) v)
  | [] => Err (ExecError "index out of bounds")
  end.

(** An array operation on a columnar value; a scalar is an array of one row. *)
Definition on_columnar (f : Array -> result Array) (v : PVal) : result PVal :=
  match v with
  | PArray a => let? a := f a in Ok (PArray a)
  | PScalar dt v => let? a := f {| data_type := dt; values := [v] |} in first_value a
  end.

Definition pval_type (v : PVal) : DataType :=
  match v with PArray a => data_type a | PScalar dt _ => dt end.

Definition as_columnar (v : PVal) : result (ColumnarValue bytes) :=
  match v with
  | PArray a => let? b := as_binary_array a in Ok (CvArray b)
  | PScalar dt v =>
      let? b := as_binary_array {| data_type := dt; values := [v] |} in
      Ok (CvScalar (default None (head b)))
  end.

Definition of_columnar (v : ColumnarValue bytes) : PVal :=
  match v with
  | CvArray b => PArray (binary_array b)
  | CvScalar v => PScalar DtBinary (VBytes <$> v)
  end.

(** [Schema::index_of], [Column::new_with_schema] and [col]. *)
Definition index_of (n : string) (fields : list Field) : option nat :=
  fst <$> list_find (fun f => field_name f = n) fields.

(** ** Expressions *)

Section Exprs.
(** Expressions of the indices. *)
Context {X : Type}.

Inductive PhysExpr :=
  | PColumn (name : string) (index : nat)
  | PCast (e : PhysExpr) (dt : DataType)
  | PToBinary (e : PhysExpr)
  | PFromBinary (dt : DataType) (nullable : bool) (e : PhysExpr)
  | PComputeAad (children : list PhysExpr) (target : DataType)
  | PEncrypt (child aad : PhysExpr) (context : CipherContext)
  | PDecrypt (child aad : PhysExpr) (context : CipherContext)
  | PComputeRowId (children : list PhysExpr) (size : RowIdColumnSize) (context : IdentifierContext)
  | PGenRandomRowId (size : RowIdColumnSize)
  | PIndexExpr (x : X).

Record ProjectionExpr := { pe_expr : PhysExpr; pe_alias : string }.

Definition col (n : string) (fields : list Field) : result PhysExpr :=
  match index_of n fields with
  | Some i => Ok (PColumn n i)
  | None => Err (PlanError "Unable to get field named")
  end.

Context `{ArrowCast} `{Aead} `{Hkdf}.
Variable master_key : bytes.
Variable tag_size : nat.
(** Arrow's cast kernel, and the displayed name of a type. *)
Variable cast_array : Array -> DataType -> result Array.
Variable type_name : DataType -> bytes.
(** [get_buffer_memory_size] of a column. *)
Variable buffer_memory : BinaryArray -> nat.
(** The random bytes: the nonce of each row, and the identifiers of a batch. *)
Variable nonces : nat -> bytes.
Variable fill_bytes : nat -> bytes.
(** Evaluation, type and nullability of the expressions of the indices. *)
Variable index_evaluate : X -> RecordBatch -> result PVal.
Variable index_type : X -> list Field -> result DataType.
Variable index_nullable : X -> list Field -> result bool.

Definition aad_impl (target : DataType) : ComputeAadImpl := {| base_aad := type_name target |}.

(** [ColumnarValue::cast_to] [Binary]. *)
Definition cast_columnar_binary (v : PVal) : result (ColumnarValue bytes) :=
  let cast a := if can_cast_to_binary (data_type a) then let? b := cast_to_binary a in Ok (binary_array b)
                else Err (ExecError "cast not supported") in
  let? v := on_columnar cast v in as_columnar v.

(** [GenRandomRowId::gen_arr]. *)
Definition gen_arr (size : RowIdColumnSize) (num_rows : nat) : PVal :=
  if bool_decide (num_rows = 0) then PScalar DtBinary (Some (VBytes (fill_bytes (size_bytes size))))
  else
    let output_vec := fill_bytes (num_rows * size_bytes size) in
    PArray (binary_array
      ((fun i => Some (take (size_bytes size) (drop (i * size_bytes size) output_vec))) <$> seq 0 num_rows)).

Fixpoint evaluate (e : PhysExpr) (batch : RecordBatch) : result PVal :=
  match e with
  | PColumn _ index =>
      match batch_columns batch !! index with
      | Some a => Ok (PArray a)
      | None => Err (ExecError "PhysicalExpr Column references column out of bounds")
      end
  | PCast e dt => let? v := evaluate e batch in on_columnar (fun a => cast_array a dt) v
  | PToBinary e =>
      let? v := evaluate e batch in
      if bool_decide (pval_type v = DtBinary) then Ok v
      else on_columnar (fun a => let? b := encode_array_to_binary a in Ok (binary_array b)) v
  | PFromBinary dt _ e =>
      let? v := evaluate e batch in
      if bool_decide (pval_type v = dt) then Ok v
      else on_columnar (fun a => let? b := as_binary_array a in decode_array_from_binary b dt) v
  | PComputeAad children target =>
      let? vs := result_mapM (fun c => evaluate c batch) children in
      if bool_decide (255 < length vs) then Err (ExecError "too many values used for AAD computation")
      else
        let? vs := result_mapM cast_columnar_binary vs in
        let? v := evaluate_aad (aad_impl target) (batch_rows batch) vs in
        Ok (of_columnar v)
  | PEncrypt child aad context =>
      let? parent := evaluate child batch in
      let? aad := evaluate aad batch in
      let? aad := as_binary_array (into_array (batch_rows batch) aad) in
      let? parent := as_columnar parent in
      let? v := encrypt_evaluate (get_cipher master_key context) nonces (batch_rows batch) parent (CvArray aad) in
      Ok (of_columnar v)
  | PDecrypt child aad context =>
      let? v := evaluate child batch in
      let? aad := evaluate aad batch in
      let? aad := as_columnar aad in
      on_columnar (fun a => let? b := as_binary_array a in
                            let? b := decrypt_array tag_size (get_cipher master_key context)
                                        (buffer_memory b) b aad in
                            Ok (binary_array b)) v
  | PComputeRowId children size context =>
      let? vs := result_mapM (fun c => evaluate c batch) children in
      let? arrays := result_mapM (fun v => as_binary_array (into_array (batch_rows batch) v)) vs in
      let? v := compute_rowid (get_identifier_generator master_key context) (size_bytes size) arrays
                  (batch_rows batch) in
      Ok (of_columnar v)
  | PGenRandomRowId size => Ok (gen_arr size (batch_rows batch))
  | PIndexExpr x => index_evaluate x batch
  end.

(** [data_type] and [nullable] of the expressions. *)
Fixpoint expr_type (e : PhysExpr) (fields : list Field) : result DataType :=
  match e with
  | PColumn _ index =>
      match fields !! index with
      | Some f => Ok (field_type f)
      | None => Err (PlanError "PhysicalExpr Column references column out of bounds")
      end
  | PCast _ dt => Ok dt
  | PFromBinary dt _ e =>
      let? parent := expr_type e fields in
      if bool_decide (parent = DtBinary) then Ok dt else Err (ExecError "from_binary: expected binary input")
  | PIndexExpr x => index_type x fields
  | _ => Ok DtBinary
  end.

Fixpoint expr_nullable (e : PhysExpr) (fields : list Field) : result bool :=
  match e with
  | PColumn _ index =>
      match fields !! index with
      | Some f => Ok (field_nullable f)
      | None => Err (PlanError "PhysicalExpr Column references column out of bounds")
      end
  | PCast e _ | PToBinary e | PEncrypt e _ _ | PDecrypt e _ _ => expr_nullable e fields
  | PFromBinary _ nullable _ => Ok nullable
  | PComputeAad _ _ | PComputeRowId _ _ _ | PGenRandomRowId _ => Ok false
  | PIndexExpr x => index_nullable x fields
  end.

Definition expr_metadata (e : PhysExpr) (fields : list Field) : gmap string string :=
  match e with
  | PColumn _ index => match fields !! index with Some f => field_metadata f | None => ∅ end
  | _ => ∅
  end.

(** The schema of a projection. *)
Definition projection_field (fields : list Field) (p : ProjectionExpr) : result Field :=
  let? dt := expr_type (pe_expr p) fields in
  let? nullable := expr_nullable (pe_expr p) fields in
  Ok {| field_name := pe_alias p; field_type := dt; field_nullable := nullable;
        field_metadata := expr_metadata (pe_expr p) fields |}.

Definition projection_schema (ps : list ProjectionExpr) (fields : list Field) : result (list Field) :=
  result_mapM (projection_field fields) ps.
End Exprs.

(** [RecordBatch::try_new]: the types and lengths match the schema and a column
    that is not nullable has no NULL. *)
Definition column_matches (rows : nat) (f : Field) (a : Array) : bool :=
  bool_decide (data_type a = field_type f) && bool_decide (length (values a) = rows)
  && (field_nullable f || forallb (fun v => bool_decide (is_Some v)) (values a)).

Definition record_batch_try_new (fields : list Field) (columns : list Array) (rows : nat) : result RecordBatch :=
  if bool_decide (length fields = length columns) && forallb id (zip_with (column_matches rows) fields columns)
  then Ok {| batch_schema := fields; batch_columns := columns; batch_rows := rows |}
  else Err (ExecError "column types must match schema types").

(** A well-formed batch. *)
Definition batch_ok (b : RecordBatch) : Prop :=
  record_batch_try_new (batch_schema b) (batch_columns b) (batch_rows b) = Ok b.

Section Project.
Context {X : Type}.
(** The value of an expression; random bytes are drawn anew for each item. *)
Variable eval : nat -> PhysExpr (X := X) -> RecordBatch -> result PVal.

(** The columns of a projection on a batch. *)
Fixpoint project_columns (i : nat) (ps : list (ProjectionExpr (X := X))) (b : RecordBatch) : result (list Array) :=
  match ps with
  | [] => Ok []
  | p :: ps =>
      let? v := eval i (pe_expr p) b in
      let? rest := project_columns (S i) ps b in
      Ok (into_array (batch_rows b) v :: rest)
  end.

Definition project (fields : list Field) (ps : list (ProjectionExpr (X := X))) (b : RecordBatch) : result RecordBatch :=
  let? columns := project_columns 0 ps b in
  record_batch_try_new fields columns (batch_rows b).
End Project.

(** ** Encryption and decryption of a column of a batch *)

Lemma as_binary_binary_array b : as_binary_array (binary_array b) = Ok b.
Proof.
  unfold as_binary_array. cbn [data_type binary_array]. rewrite bool_decide_true by done.
  unfold map_slots. cbn [values binary_array]. induction b as [|[v|] b IH]; [done|..]; cbn; by rewrite IH.
Qed.

Lemma binary_array_values vs bin : map_slots as_binary vs = Ok bin -> map (option_map VBytes) bin = vs.
Proof.
  unfold map_slots. revert bin. induction vs as [|v vs IH]; intros bin Hb; cbn in Hb; inv_ok; [done|].
  cbn. rewrite (IH _ eq_refl). f_equal. destruct v as [v|]; [|by inv_ok]. destruct v; cbn in E; by inv_ok.
Qed.

Lemma length_binary_array b : length (values (binary_array b)) = length b.
Proof. cbn. by rewrite length_map. Qed.

Lemma same_nulls_trans {A B C} (l : list (option A)) (k : list (option B)) (m : list (option C)) :
  same_nulls l k -> same_nulls k m -> same_nulls l m.
Proof.
  intros Hlk. revert m. induction Hlk as [|x y l k Hxy _ IH]; intros m Hkm; inversion Hkm; subst; constructor;
    [naive_solver|by apply IH].
Qed.

(** Associated data for each of the rows. *)
Definition aad_ok (rows : nat) (v : PVal) : Prop :=
  (exists l, v = of_columnar (CvArray l) /\ length l = rows /\ Forall (fun a => is_Some a) l)
  \/ (exists a, v = of_columnar (CvScalar (Some a))).

Section EncryptDecrypt.
Context {X : Type} `{ArrowCastLaws} `{AeadLaws} `{Hkdf} {tag_size : nat} `{!AeadTag tag_size}.
Variable master_key : bytes.
Variable cast_array : Array -> DataType -> result Array.
Variable type_name : DataType -> bytes.
Variable buffer_memory : BinaryArray -> nat.
Variable nonces : nat -> bytes.
Variable fill_bytes : nat -> bytes.
Variable index_evaluate : X -> RecordBatch -> result PVal.
Hypothesis buffer_memory_enough : forall b, length (plain_bytes b) <= buffer_memory b.
Hypothesis nonces_length : forall i, length (nonces i) = NONCE_LEN.

Let eval := evaluate (X := X) master_key tag_size cast_array type_name buffer_memory nonces fill_bytes
  index_evaluate.

Lemma cast_ok (a : Array) :
  can_cast_to_binary (data_type a) = true -> array_ok a ->
  exists b, cast_to_binary a = Ok b /\ length b = length (values a).
Proof.
  intros Hc Ha. destruct (can_cast_from_binary (data_type a)) eqn:Hf.
  - destruct (cast_inverse a Hf Ha) as (b & Hb & Hl & _). eauto.
  - destruct (cast_integer_only _ Hc Hf) as [[w signed] Hn]. rewrite (cast_integer a w signed Hc Hf Hn).
    destruct (prim_array_roundtrip a w signed Hn Ha) as (b & Hb & _). exists b. split; [done|].
    by eapply map_slots_length.
Qed.

Lemma values_at_ok (cols : list BinaryArray) rows i :
  Forall (fun c => length c = rows) cols -> i < rows ->
  exists vs, result_mapM (fun c => value_at c i) cols = Ok vs.
Proof.
  intros Hc Hi. induction Hc as [|c cols Hl _ [vs IH]]; cbn; [by eexists|].
  unfold value_at at 1. destruct (lookup_lt_is_Some_2 c i) as [v Hv]; [lia|]. rewrite Hv. cbn. rewrite IH. by eexists.
Qed.

Lemma aad_rows_ok me (cols : list BinaryArray) rows :
  Forall (fun c => length c = rows) cols ->
  exists l, result_mapM (aad_row me cols) (seq 0 rows) = Ok l /\ length l = rows.
Proof.
  intros Hc.
  assert (forall idx, Forall (fun i => i < rows) idx -> exists l, result_mapM (aad_row me cols) idx = Ok l) as Hm.
  { induction 1 as [|i l0 Hi _ [l IH]]; [by exists []|]. cbn. unfold aad_row at 1.
    destruct (values_at_ok cols rows i Hc Hi) as [vs ->]. cbn. rewrite IH. by eexists. }
  destruct (Hm (seq 0 rows)) as [l Hl].
  - apply Forall_forall. intros i Hi%list_elem_of_In%in_seq. lia.
  - exists l. split; [done|]. apply result_mapM_length in Hl. by rewrite Hl, length_seq.
Qed.

(** A column of the batch that Arrow casts to binary. *)
Definition aad_source (rows : nat) (a : Array) : Prop :=
  can_cast_to_binary (data_type a) = true /\ array_ok a /\ length (values a) = rows.

Lemma cast_columns_ok rows (as_ : list Array) :
  Forall (aad_source rows) as_ ->
  exists cs, result_mapM cast_columnar_binary (PArray <$> as_) = Ok (CvArray <$> cs) /\
    length cs = length as_ /\ Forall (fun c => length c = rows) cs.
Proof.
  induction 1 as [|a as_ (Hc & Ha & Hl) _ (cs & Hcs & Hlen & HF)]; cbn; [by exists []|].
  unfold cast_columnar_binary at 1. cbn. rewrite Hc. destruct (cast_ok a Hc Ha) as (b & Hb & Hbl).
  rewrite Hb. cbn [result_bind as_columnar]. rewrite as_binary_binary_array. cbn [result_bind].
  rewrite Hcs. cbn. exists (b :: cs). split; [done|]. cbn. rewrite Hlen. split; [done|]. constructor; [lia|done].
Qed.

(** The associated data of a batch, from the columns they are computed from. *)
Definition aad_value (me : ComputeAadImpl) (rows : nat) (as_ : list Array) : result PVal :=
  let? vs := result_mapM cast_columnar_binary (PArray <$> as_) in
  let? v := evaluate_aad me rows vs in Ok (of_columnar v).

Lemma evaluate_aad_ok rows me (as_ : list Array) :
  Forall (aad_source rows) as_ -> length as_ <= 255 ->
  exists v, aad_value me rows as_ = Ok v /\ aad_ok rows v.
Proof.
  intros HF Hl. unfold aad_value. destruct (cast_columns_ok rows as_ HF) as (cs & Hcs & Hlen & Hr). rewrite Hcs. cbn.
  unfold evaluate_aad. rewrite length_fmap, bool_decide_false by lia.
  case_bool_decide as Hnil.
  - cbn. eexists. split; [done|]. right. by eexists.
  - assert ((fun c => into_array_of_size c rows) <$> (CvArray <$> cs) = cs) as ->
      by (rewrite <- list_fmap_compose; apply list_fmap_id).
    destruct (aad_rows_ok me cs rows Hr) as (l & Hal & Hll). rewrite Hal. cbn [result_bind].
    eexists. split; [done|]. left. exists (Some <$> l). rewrite length_fmap. split_and!; [done|done|].
    apply Forall_fmap, Forall_true. intros x. by eexists.
Qed.

(** Expressions that are columns of the batch. *)
Definition columns_are (es : list (PhysExpr (X := X))) (b : RecordBatch) (as_ : list Array) : Prop :=
  Forall2 (fun e a => exists n i, e = PColumn n i /\ batch_columns b !! i = Some a) es as_.

Lemma evaluate_compute_aad es b as_ target :
  columns_are es b as_ -> length as_ <= 255 ->
  eval (PComputeAad es target) b = aad_value (aad_impl type_name target) (batch_rows b) as_.
Proof.
  intros Hc Hl. unfold eval. cbn [evaluate].
  assert (result_mapM (fun c => evaluate master_key tag_size cast_array type_name buffer_memory nonces fill_bytes
    index_evaluate c b) es = Ok (PArray <$> as_)) as Hm.
  { clear Hl. induction Hc as [|e a es as_ (n & i & -> & Hi) _ IH]; [done|].
    cbn [result_mapM evaluate fmap list_fmap]. rewrite Hi. cbn [result_bind]. by rewrite IH. }
  rewrite Hm. cbn [result_bind]. rewrite bool_decide_false by (rewrite length_fmap; lia). done.
Qed.

Lemma aad_ok_array rows v :
  aad_ok rows v ->
  exists l, as_binary_array (into_array rows v) = Ok l /\ length l = rows /\ Forall (fun a => is_Some a) l /\
    forall column : BinaryArray, length column = rows ->
      exists c, as_columnar v = Ok c /\
        forall key memory, decrypt_array tag_size key memory column c = decrypt_array tag_size key memory column (CvArray l).
Proof.
  intros [(l & -> & Hl & HF)|(a & ->)]; cbn [into_array of_columnar].
  - exists l. rewrite as_binary_binary_array. split_and!; [done..|]. intros column _. cbn.
    rewrite as_binary_binary_array. cbn. by eexists.
  - exists (replicate rows (Some a)). cbn.
    replace {| data_type := DtBinary; values := replicate rows (Some (VBytes a)) |}
      with (binary_array (replicate rows (Some a)))
      by (unfold binary_array; f_equal; induction rows; cbn; by f_equal).
    rewrite as_binary_binary_array, length_replicate. split_and!; [done|done|apply Forall_replicate; by eexists|].
    intros column Hc. eexists. split; [done|]. intros key memory. cbn. unfold decrypt_array. by rewrite Hc.
Qed.

Lemma column_to_binary b a n i :
  batch_columns b !! i = Some a -> encodable (data_type a) = true -> array_ok a ->
  exists bin, to_binary_evaluate a = Ok bin /\ length bin = length (values a) /\ same_nulls (values a) bin /\
    decode_array_from_binary bin (data_type a) = Ok a /\
    (let? v := eval (PToBinary (PColumn n i)) b in as_columnar v) = Ok (CvArray bin).
Proof.
  intros Hi He Ha. destruct (encode_decode a He Ha) as (bin & Hb & Hl & Hd).
  exists bin. rewrite to_binary_encode by done. split_and!; try done; [by apply encode_nulls|].
  unfold eval. cbn. rewrite Hi. cbn. case_bool_decide as Hbin; cbn [result_bind as_columnar].
  - pose proof (to_binary_encode a He) as Hto. unfold to_binary_evaluate in Hto.
    rewrite bool_decide_true in Hto by done. unfold as_binary_array. rewrite bool_decide_true by done.
    by rewrite Hto, Hb.
  - rewrite Hb. cbn [result_bind as_columnar]. by rewrite as_binary_binary_array.
Qed.

Lemma encrypt_array_from_length key (bin l : BinaryArray) i :
  length l = length bin -> length (encrypt_array_from key nonces i bin l) = length bin.
Proof.
  revert l i. induction bin as [|x bin IH]; intros [|y l] i [=]; [done|]. cbn. f_equal. by apply IH.
Qed.

Lemma encrypt_array_nulls key bin l :
  length l = length bin -> Forall (fun a => is_Some a) l ->
  same_nulls bin (encrypt_array key nonces bin l).
Proof.
  intros Hl HF. destruct (encrypt_array_rows key nonces bin l nonces_length Hl HF 0) as (HR & _ & _).
  unfold encrypt_array. set (enc := encrypt_array_from key nonces 0 bin l) in *.
  assert (length enc = length bin) as Hen by by apply encrypt_array_from_length.
  clearbody enc. revert l bin Hl HF HR Hen. induction enc as [|e enc IH]; intros [|y l] [|x bin] [=] HF HR [=];
    [constructor|]. apply Forall2_cons in HR as [Hr HR]. apply Forall_cons in HF as [_ HF].
  constructor; [|by apply (IH l)]. inversion Hr; subst; split; intros []; by eexists || done.
Qed.

(** On every batch that holds the column [enc], decrypting it under the associated
    data [va] gives the column [a]. *)
Definition decrypts_to (context : CipherContext) (va : PVal) (enc : BinaryArray) (a : Array) : Prop :=
  forall nonces fill_bytes b j n aad nullable,
    let eval := evaluate (X := X) master_key tag_size cast_array type_name buffer_memory nonces fill_bytes
                  index_evaluate in
    batch_columns b !! j = Some (binary_array enc) -> eval aad b = Ok va ->
    eval (PFromBinary (data_type a) nullable (PDecrypt (PColumn n j) aad context)) b = Ok (PArray a).

(** A column that the write path encrypts is decrypted by the read path, when the
    associated data have the same value. *)
Lemma encrypt_decrypt_column b a n i aad va context :
  batch_columns b !! i = Some a -> encodable (data_type a) = true -> array_ok a ->
  length (values a) = batch_rows b -> eval aad b = Ok va -> aad_ok (batch_rows b) va ->
  exists enc, eval (PEncrypt (PToBinary (PColumn n i)) aad context) b = Ok (PArray (binary_array enc)) /\
    length enc = batch_rows b /\ same_nulls (values a) enc /\
    decrypts_to context va enc a.
Proof.
  intros Hi He Ha Hrows Haad Hok. destruct (column_to_binary b a n i Hi He Ha) as (bin & Hbin & Hbl & Hnull & Hdec & Hto).
  destruct (aad_ok_array (batch_rows b) va Hok) as (l & Hla & Hll & HF & Hcol).
  set (key := get_cipher master_key context). set (enc := encrypt_array key nonces bin l).
  destruct (encrypt_array_rows key nonces bin l nonces_length ltac:(lia) HF 0) as (HR & Hnn & Hlen).
  pose proof (encrypt_array_nulls key bin l ltac:(lia) HF) as Hn2. fold enc in Hn2.
  assert (length enc = batch_rows b) as Hel by (apply Forall2_length in Hn2; lia).
  exists enc. split_and!; [|done| |].
  - unfold eval in *. cbn [evaluate] in *.
    destruct (result_bind (match batch_columns b !! i with Some a => _ | None => _ end) _) as [v|] eqn:Hv;
      cbn [result_bind] in Hto; [|done].
    cbn [result_bind]. rewrite Haad. cbn [result_bind]. rewrite Hla. cbn [result_bind]. rewrite Hto. cbn. done.
  - by eapply same_nulls_trans.
  - intros nonces2 fill2 b2 j n2 aad2 nullable eval2 Hj Haad2. subst eval2. cbn [evaluate]. rewrite Hj. cbn [result_bind].
    rewrite Haad2. cbn [result_bind]. destruct (Hcol enc Hel) as (c & Hc & Hdc). rewrite Hc. cbn [result_bind on_columnar].
    rewrite as_binary_binary_array. cbn [result_bind]. rewrite Hdc.
    rewrite (decrypt_array_rows tag_size key _ enc l bin); [|done|].
    2:{ pose proof (buffer_memory_enough enc). unfold enc, encrypt_array in *. rewrite Hnn. lia. }
    cbn [result_bind pval_type binary_array data_type]. case_bool_decide as Hb.
    + unfold to_binary_evaluate in Hbin. rewrite bool_decide_true in Hbin by done. do 2 f_equal.
      unfold binary_array. destruct a as [dt vs]. cbn in *. subst dt. f_equal.
      by apply binary_array_values.
    + cbn [on_columnar]. rewrite as_binary_binary_array. cbn [result_bind]. by rewrite Hdec.
Qed.
End EncryptDecrypt.
