(* ===== verification/RowId.v ===== *)
(** * Row identifiers

    Models [crypto/src/row_id.rs]: the column that identifies a row to the
    encrypted indices is the primary key itself when it is one plain column of a
    small fixed size, and otherwise a hidden column that is derived from the
    primary key or drawn at random. *)
From S2P Require Import Prelude Values Sql Text Crypto ArrowCodec ColumnCrypto SqlSchema PhysicalExprs.

Definition DEFAULT_ROWID_COLUMN_NAME : string := "__sf_rowid".

Inductive RowIdColumnSource :=
  | DirectPrimaryKey (dt : DataType)
  | DerivedFromPrimaryColumns (columns : list string)
  | RandomGenerated.

Record RowIdColumn := {
  rowid_name : string; rowid_size : RowIdColumnSize; rowid_source : RowIdColumnSource
}.

Definition primary (n : string) (size : RowIdColumnSize) (dt : DataType) : RowIdColumn :=
  {| rowid_name := n; rowid_size := size; rowid_source := DirectPrimaryKey dt |}.

(** The size of the identifiers of a primary key of type [dt]. *)
Definition natural_size (dt : DataType) : option RowIdColumnSize :=
  match dt with
  | DtInt8 | DtInt16 | DtInt32 | DtUInt8 | DtUInt16 | DtUInt32 => Some Size4Bytes
  | DtInt64 | DtUInt64 => Some Size8Bytes
  | DtFixedSizeBinary sz =>
      if (sz <=? 4)%Z then Some Size4Bytes
      else if (sz <=? 8)%Z then Some Size8Bytes
      else if (sz <=? 12)%Z then Some Size12Bytes
      else if (sz <=? 16)%Z then Some Size16Bytes
      else None
  | _ => None
  end.

(** A value of the column is generated when the row is inserted. *)
Definition is_generated (c : ColumnDef) : bool :=
  is_auto_increment c || bool_decide (is_Some (get_default_value c)).

Definition get_natural_if_any `{Unicode} (primary_key : list ColumnDef) : option RowIdColumn :=
  match primary_key with
  | [k] =>
      if is_nullable k || is_generated k then None
      else
        match convert_data_type (cd_type k) with
        | Ok dt => (fun size => primary (cd_name k) size dt) <$> natural_size dt
        | Err _ => None
        end
  | _ => None
  end.

Definition is_hidden (r : RowIdColumn) : bool := bool_decide (rowid_name r = DEFAULT_ROWID_COLUMN_NAME).

Definition rowid_column_def (r : RowIdColumn) : ColumnDef :=
  {| cd_name := rowid_name r; cd_type := TBinary (Some (Z.of_nat (size_bytes (rowid_size r)))); cd_options := [] |}.

Definition rowid_random : RowIdColumn * option ColumnDef :=
  let me := {| rowid_name := DEFAULT_ROWID_COLUMN_NAME; rowid_size := Size12Bytes;
               rowid_source := RandomGenerated |} in
  (me, Some (rowid_column_def me)).

Definition rowid_computed (columns : list string) : RowIdColumn * option ColumnDef :=
  let me := {| rowid_name := DEFAULT_ROWID_COLUMN_NAME; rowid_size := Size8Bytes;
               rowid_source := DerivedFromPrimaryColumns columns |} in
  (me, Some (rowid_column_def me)).

Definition create_for_table `{Unicode} (primary_key : list ColumnDef) : RowIdColumn * option ColumnDef :=
  match get_natural_if_any primary_key with
  | Some natural => (natural, None)
  | None =>
      if bool_decide (primary_key = []) || existsb is_generated primary_key then rowid_random
      else rowid_computed (cd_name <$> primary_key)
  end.

Definition rowid_data_type (r : RowIdColumn) : DataType :=
  match rowid_source r with DirectPrimaryKey dt => dt | _ => DtBinary end.

Definition rowid_field (r : RowIdColumn) : Field := field_new (rowid_name r) (rowid_data_type r) false.

Section Exprs.
Context {X : Type}.

(** [RowIdColumn::compute_rowid], with [ComputeRowIdExpr::new]. *)
Definition compute_rowid_expr (r : RowIdColumn) (context : IdentifierContext) (fields : list Field) :
    result (option (ProjectionExpr (X := X))) :=
  match rowid_source r with
  | DirectPrimaryKey _ => Ok None
  | DerivedFromPrimaryColumns cols =>
      let? children := result_mapM (fun cn => let? c := col cn fields in Ok (PToBinary c)) cols in
      Ok (Some {| pe_expr := PComputeRowId children (rowid_size r) context; pe_alias := rowid_name r |})
  | RandomGenerated =>
      Ok (Some {| pe_expr := PGenRandomRowId (rowid_size r); pe_alias := rowid_name r |})
  end.

Definition get_rowid_physical (r : RowIdColumn) (fields : list Field) : result (PhysExpr (X := X)) :=
  col (rowid_name r) fields.

Definition rowid_physical_prefixed (r : RowIdColumn) (prefix : string) (fields : list Field) :
    result (PhysExpr (X := X)) :=
  col (prefix +:+ rowid_name r) fields.

Definition rowid_bin_physical (r : RowIdColumn) (fields : list Field) : result (PhysExpr (X := X)) :=
  let? base := get_rowid_physical r fields in
  match rowid_source r with
  | DirectPrimaryKey dt => Ok (PCast base dt)
  | _ => Ok base
  end.

Definition rowid_bin_physical_prefixed (r : RowIdColumn) (prefix : string) (fields : list Field) :
    result (PhysExpr (X := X)) :=
  let? base := rowid_physical_prefixed r prefix fields in
  match rowid_source r with
  | DirectPrimaryKey _ => Ok (PToBinary base)
  | _ => Ok base
  end.
End Exprs.

(** ** Properties *)

(** Bytes of a value of the type. *)
Definition type_width (dt : DataType) : option nat :=
  match dt with
  | DtFixedSizeBinary n => Some (Z.to_nat n)
  | _ => fst <$> native dt
  end.

Section Properties.
Context `{Unicode}.

Lemma get_natural_inv pk r :
  get_natural_if_any pk = Some r ->
  exists k dt, pk = [k] /\ is_nullable k = false /\ is_generated k = false /\
    convert_data_type (cd_type k) = Ok dt /\ natural_size dt = Some (rowid_size r) /\
    rowid_name r = cd_name k /\ rowid_source r = DirectPrimaryKey dt.
Proof.
  unfold get_natural_if_any. destruct pk as [|k [|]]; try done.
  destruct (is_nullable k) eqn:Hn, (is_generated k) eqn:Hg; cbn; try done.
  destruct (convert_data_type (cd_type k)) as [dt|] eqn:Hd; [|done].
  intros (size & Hs & ->)%fmap_Some. exists k, dt. cbn. by rewrite Hs.
Qed.

Lemma natural_size_width dt size :
  natural_size dt = Some size -> exists w, type_width dt = Some w /\ w <= size_bytes size.
Proof.
  destruct dt; try discriminate; cbn; intros Hs; try (injection Hs as <-; eexists; split; [reflexivity|cbn; lia]).
  eexists. split; [reflexivity|].
  destruct (Z.leb_spec n 4); [injection Hs as <-; cbn; lia|].
  destruct (Z.leb_spec n 8); [injection Hs as <-; cbn; lia|].
  destruct (Z.leb_spec n 12); [injection Hs as <-; cbn; lia|].
  destruct (Z.leb_spec n 16); [injection Hs as <-; cbn; lia|done].
Qed.

(** The row identifier of a table always exists. It is the primary key exactly
    when no column has to be added, and then the key is one column, not nullable
    and not generated by the server, whose values fit the identifiers of the
    index; otherwise a hidden binary column of the size of the identifiers is
    added, derived from all columns of the key when none of them is generated. *)
Theorem rowid_choice (pk : list ColumnDef) :
  Forall (fun k => cd_name k <> DEFAULT_ROWID_COLUMN_NAME) pk ->
  match create_for_table pk with
  | (r, None) =>
      is_hidden r = false /\
      exists k dt w, pk = [k] /\ is_nullable k = false /\ is_generated k = false /\
        rowid_name r = cd_name k /\ rowid_data_type r = dt /\
        convert_data_type (cd_type k) = Ok dt /\ type_width dt = Some w /\ w <= size_bytes (rowid_size r)
  | (r, Some cd) =>
      is_hidden r = true /\ cd_name cd = rowid_name r /\ rowid_data_type r = DtBinary /\
      cd_type cd = TBinary (Some (Z.of_nat (size_bytes (rowid_size r)))) /\
      (rowid_source r = DerivedFromPrimaryColumns (cd_name <$> pk) /\ pk <> [] /\
         Forall (fun k => is_generated k = false) pk
       \/ rowid_source r = RandomGenerated /\ (pk = [] \/ Exists (fun k => is_generated k = true) pk))
  end.
Proof.
  intros Hpk. unfold create_for_table. destruct (get_natural_if_any pk) as [r|] eqn:Hr.
  - apply get_natural_inv in Hr as (k & dt & -> & Hn & Hg & Hd & Hs & Hname & Hsrc).
    destruct (natural_size_width _ _ Hs) as (w & Hw & Hle). apply Forall_cons in Hpk as [Hk _].
    split; [unfold is_hidden; rewrite Hname; by apply bool_decide_false|].
    exists k, dt, w. unfold rowid_data_type. by rewrite Hsrc.
  - destruct (bool_decide (pk = []) || existsb is_generated pk) eqn:Hg; cbn.
    + split_and!; try done. right. split; [done|]. apply orb_true_iff in Hg as [Hg|Hg].
      * left. by apply bool_decide_eq_true in Hg.
      * right. apply existsb_exists in Hg as (k & Hk & Hg). apply Exists_exists. exists k.
        by rewrite list_elem_of_In.
    + apply orb_false_iff in Hg as [Hg1 Hg2]. apply bool_decide_eq_false in Hg1.
      split_and!; try done. left. split_and!; try done. apply Forall_forall. intros k Hk.
      apply not_true_is_false. intros Hkg. apply not_true_iff_false in Hg2. apply Hg2.
      apply existsb_exists. exists k. by rewrite <- list_elem_of_In.
Qed.
End Properties.

Lemma rowid_choice_witness :
  match @create_for_table ascii_unicode [{| cd_name := "id"; cd_type := TBigInt None; cd_options := [OptNotNull] |}] with
  | (r, None) => is_hidden r = false
  | (_, Some _) => False
  end.
Proof.
  pose proof (@rowid_choice ascii_unicode
    [{| cd_name := "id"; cd_type := TBigInt None; cd_options := [OptNotNull] |}]
    ltac:(repeat constructor; discriminate)) as Hc.
  exact (proj1 Hc).
Defined.
