(* ===== verification/TableMeta.v ===== *)
(** * Metadata of encrypted tables

    Models [backends/mysql/src/metadata/mod.rs] and [expr_util.rs]: which columns
    of a new table are encrypted, how the CREATE TABLE statement that is sent to
    the server changes for them, and the metadata kept about the table. *)
From S2P Require Import Prelude Values Sql Text Crypto ArrowCodec RangeIndex BlindIndex InvertedIndex SqlSchema PhysicalExprs RowId.
From Stdlib Require Import Ascii.

(** ** Columns *)

Record EncryptedColumnMeta := {
  original_type : DataType;
  original_type_raw : string;
  default_value_raw : option string;
  meta_nullable : bool;
  collation : option string
}.

Record BackendConfig := { encrypt_by_default : bool; config_row_binding_aad : bool }.

(** [DataType::is_integer]. *)
Definition is_integer (dt : DataType) : bool :=
  match dt with
  | DtInt8 | DtInt16 | DtInt32 | DtInt64 | DtUInt8 | DtUInt16 | DtUInt32 | DtUInt64 => true
  | _ => false
  end.

Section Columns.
Context `{Unicode} `{SqlDisplay}.

Definition in_primary_key (c : ColumnDef) (primary_key : list string) : bool :=
  is_primary_key c || bool_decide (cd_name c ∈ primary_key).

(** The type kept for the column: timestamps always have a time zone. *)
Definition kept_type (dt : DataType) : DataType :=
  match dt with DtTimestamp unit None => DtTimestamp unit (Some "+00") | dt => dt end.

(** Whether a column without flag is encrypted. *)
Definition encrypt_unflagged (c : ColumnDef) (primary_key : list string) (config : BackendConfig) : result bool :=
  if negb (encrypt_by_default config) then Ok false
  else if in_primary_key c primary_key then Ok false
  else let? dt := convert_data_type (cd_type c) in Ok (negb (is_integer dt)).

(** The metadata of a column that is encrypted, and its new definition. *)
Definition encrypt_column (c : ColumnDef) : result (EncryptedColumnMeta * ColumnDef) :=
  let? dt := unwrap_ok (column_to_datatype c) in
  let (default, c') := pop_default_value c in
  let meta := {| original_type := kept_type dt; original_type_raw := type_text (cd_type c);
                 default_value_raw := expr_text <$> default; meta_nullable := is_nullable c';
                 collation := get_collation c |} in
  let c' := {| cd_name := cd_name c'; cd_type := TMediumBlob; cd_options := cd_options c' |} in
  Ok (meta, clear_encryption_flag c').

Definition try_from_column (c : ColumnDef) (primary_key : list string) (config : BackendConfig) :
    result (option EncryptedColumnMeta * ColumnDef) :=
  if is_encrypted_column c && is_decrypted_column c then
    Err (PlanError "Ambiguous column with both ENCRYPTED and DECRYPTED flags")
  else if is_decrypted_column c then Ok (None, clear_encryption_flag c)
  else
    let? encrypt := if is_encrypted_column c then Ok true else encrypt_unflagged c primary_key config in
    if negb encrypt then Ok (None, c)
    else if in_primary_key c primary_key then
      Err (ExecError "Invalid column definition: both in primary key and encrypted")
    else let? (meta, c') := encrypt_column c in Ok (Some meta, c').
End Columns.

(** ** Constraints *)

(** [identifiers_in_expr]: the names of columns, qualified or not. *)
Fixpoint identifiers_in_expr (e : SqlExpr) : list string :=
  match e with
  | Identifier s => [s]
  | CompoundIdentifier path => match last path with Some s => [s] | None => [] end
  | Value _ => []
  | BinaryOp l _ r => identifiers_in_expr l ++ identifiers_in_expr r
  | UnaryNot e => identifiers_in_expr e
  | SqlBetween e low high => identifiers_in_expr e ++ identifiers_in_expr low ++ identifiers_in_expr high
  | SqlInList e l => identifiers_in_expr e ++ flat_map identifiers_in_expr l
  | SqlLike e p => identifiers_in_expr e ++ identifiers_in_expr p
  | SqlCast e _ _ => identifiers_in_expr e
  | SqlTuple es => flat_map identifiers_in_expr es
  end.

Inductive TableConstraint :=
  | CtPrimaryKey (columns : list SqlExpr)
  | CtUnique (columns : list SqlExpr) | CtIndex (columns : list SqlExpr)
  | CtFulltextOrSpatial (columns : list SqlExpr)
  | CtCheck (e : SqlExpr)
  | CtForeignKey (columns : list string).

(** The columns of the table that a constraint other than the primary key reads. *)
Definition constraint_columns (c : TableConstraint) : list string :=
  match c with
  | CtPrimaryKey _ => []
  | CtUnique columns | CtIndex columns | CtFulltextOrSpatial columns => flat_map identifiers_in_expr columns
  | CtCheck e => identifiers_in_expr e
  | CtForeignKey columns => columns
  end.

(** ** Tables *)

Inductive IndexConfiguration :=
  | CfgBlind (index_name column : string) (size_bits : nat)
  | CfgRange (ix : RangeIndex)
  | CfgInverted (ix : InvertedIndex).

(** [I] is the type of the table's indices. *)
Record TableMeta (I : Type) := {
  encrypted_columns : gmap string EncryptedColumnMeta;
  tm_indices : list I;
  row_id_column : option RowIdColumn;
  row_binding_aad : bool
}.
Arguments encrypted_columns {I}.
Arguments tm_indices {I}.
Arguments row_id_column {I}.
Arguments row_binding_aad {I}.

Definition table_meta_new {I} : TableMeta I :=
  {| encrypted_columns := ∅; tm_indices := []; row_id_column := None; row_binding_aad := false |}.

Definition remove_column {I} (column : string) (m : TableMeta I) : TableMeta I :=
  {| encrypted_columns := delete column (encrypted_columns m); tm_indices := tm_indices m;
     row_id_column := row_id_column m; row_binding_aad := row_binding_aad m |}.

Definition add_column {I} (column : string) (meta : EncryptedColumnMeta) (m : TableMeta I) : TableMeta I :=
  {| encrypted_columns := <[column := meta]> (encrypted_columns m); tm_indices := tm_indices m;
     row_id_column := row_id_column m; row_binding_aad := row_binding_aad m |}.

Definition add_index {I} (index : I) (m : TableMeta I) : TableMeta I :=
  {| encrypted_columns := encrypted_columns m; tm_indices := tm_indices m ++ [index];
     row_id_column := row_id_column m; row_binding_aad := row_binding_aad m |}.

Definition column_meta {I} (m : TableMeta I) (n : string) : option EncryptedColumnMeta := encrypted_columns m !! n.

Definition has_encrypted_column {I} (m : TableMeta I) : bool := negb (bool_decide (encrypted_columns m = ∅)).

(** [hidden] tells the columns the indices hide. *)
Definition is_column_hidden {I} (hidden : I -> string -> bool) (m : TableMeta I) (n : string) : bool :=
  match row_id_column m with
  | Some row_id => bool_decide (n = rowid_name row_id) && is_hidden row_id
  | None => false
  end || existsb (fun index => hidden index n) (tm_indices m).

Record PrimaryKeyColumnDef := { pk_column_name : string; pk_column_type : DataType; pk_has_default : bool }.

Definition supports_aad_binding (primary_key : list PrimaryKeyColumnDef) : bool :=
  negb (bool_decide (primary_key = [])) && forallb (fun c => negb (pk_has_default c)) primary_key.

Record CreateTable := { ct_columns : list ColumnDef; ct_constraints : list TableConstraint }.

Section Build.
Context `{Unicode} `{SqlDisplay} {I : Type}.

(** The definitions of the columns of the primary key. *)
Definition project_primary_key (primary_key : list string) (columns : list ColumnDef) : list ColumnDef :=
  omap (fun n => snd <$> list_find (fun c => cd_name c = n) columns) primary_key.

Fixpoint build_columns (columns : list ColumnDef) (primary_key : list string) (config : BackendConfig)
    (m : TableMeta I) : result (list ColumnDef * TableMeta I) :=
  match columns with
  | [] => Ok ([], m)
  | c :: columns =>
      let? (meta, c') := try_from_column c primary_key config in
      let m := match meta with Some meta => add_column (cd_name c') meta m | None => m end in
      let? (columns, m) := build_columns columns primary_key config m in
      Ok (c' :: columns, m)
  end.

Definition build_from_statement (statement : CreateTable) (primary_key : list string) (config : BackendConfig) :
    result (CreateTable * TableMeta I) :=
  let row_id := get_natural_if_any (project_primary_key primary_key (ct_columns statement)) in
  let m := {| encrypted_columns := ∅; tm_indices := []; row_id_column := row_id; row_binding_aad := false |} in
  let? (columns, m) := build_columns (ct_columns statement) primary_key config m in
  if has_encrypted_column m then
    let m := {| encrypted_columns := encrypted_columns m; tm_indices := tm_indices m;
                row_id_column := row_id_column m; row_binding_aad := config_row_binding_aad config |} in
    let dropped c := existsb (fun n => bool_decide (is_Some (column_meta m n))) (constraint_columns c) in
    Ok ({| ct_columns := columns;
           ct_constraints := List.filter (fun c => negb (dropped c)) (ct_constraints statement) |}, m)
  else Ok ({| ct_columns := columns; ct_constraints := ct_constraints statement |}, m).
End Build.

(** ** Declaring an index *)

Definition BLIND_INDEX_PFX : string := "blind_bits_".
Definition RANGE_INDEX_PFX : string := "range_".
Definition INVERTED_INDEX_NAME : string := "inverted_index".

Definition requires_rowid (c : IndexConfiguration) : bool :=
  match c with CfgBlind _ _ _ | CfgRange _ => false | CfgInverted _ => true end.

(** [cast_scalar] is DataFusion's cast of scalars. *)
Definition parse_from_sql (cast_scalar : ScalarValue -> DataType -> result ScalarValue)
    (name : string) (columns : list string) (fields : list Field) (sql : string) : result IndexConfiguration :=
  match strip_prefix BLIND_INDEX_PFX sql with
  | Some rest =>
      let? size_bits := ok_or (parse_u64 rest)
                          (PlanError "Cannot create blind index: invalid bit size provided") in
      match columns with
      | [c] => Ok (CfgBlind name c (Z.to_nat size_bits))
      | _ => Err (PlanError "Cannot create blind index: exactly one column is required")
      end
  | None =>
      match strip_prefix RANGE_INDEX_PFX sql with
      | Some rest =>
          match columns with
          | [c] =>
              let? f := ok_or (snd <$> list_find (fun f => field_name f = c) fields)
                          (PlanError "Unable to get field named") in
              let? vd := distribution_parse cast_scalar (field_type f) rest in
              let? ix := range_index_new name (field_name f) vd NoObfuscation in
              Ok (CfgRange ix)
          | _ => Err (PlanError "Cannot create blind index: exactly one column is required")
          end
      | None =>
          if bool_decide (sql = INVERTED_INDEX_NAME) then
            let? ix := initialize_for_columns ((fun f => (field_name f, field_type f)) <$> fields) columns in
            Ok (CfgInverted ix)
          else Err (PlanError "Unknown index variant")
      end
  end.

(** ** What a CREATE TABLE statement becomes *)

Section Properties.
Context `{Unicode} `{SqlDisplay} {I : Type}.
Variable primary_key : list string.
Variable config : BackendConfig.

(** The columns to encrypt: those flagged, and by default all that are neither in
    the primary key nor integers. *)
Definition should_encrypt (c : ColumnDef) : bool :=
  negb (is_decrypted_column c) &&
  (is_encrypted_column c
   || encrypt_by_default config && negb (in_primary_key c primary_key)
      && match convert_data_type (cd_type c) with Ok dt => negb (is_integer dt) | Err _ => false end).

(** What the statement and the metadata say about a column. *)
Definition column_built (m : TableMeta I) (c c' : ColumnDef) : Prop :=
  cd_name c' = cd_name c /\ is_encrypted_column c' = false /\ is_decrypted_column c' = false /\
  if should_encrypt c then
    in_primary_key c primary_key = false /\ cd_type c' = TMediumBlob /\
    exists dt meta, convert_data_type (cd_type c) = Ok dt /\ column_meta m (cd_name c) = Some meta /\
      original_type meta = kept_type dt /\ meta_nullable meta = is_nullable c
  else column_meta m (cd_name c) = None /\ cd_type c' = cd_type c.

Lemma is_nullable_pop c : is_nullable (pop_default_value c).2 = is_nullable c.
Proof.
  unfold is_nullable, pop_default_value. destruct c as [n t opts]. cbn. f_equal.
  destruct (pop_default opts) as [e opts'] eqn:He. cbn. revert e opts' He.
  induction opts as [|o opts IH]; cbn; intros e opts' He; [by injection He as <- <-|].
  destruct (pop_default opts) as [e0 opts0]. specialize (IH e0 opts0 eq_refl).
  destruct o; injection He as <- <-; cbn; try done; by rewrite IH.
Qed.

Lemma try_from_column_encrypted c meta c' :
  try_from_column c primary_key config = Ok (Some meta, c') ->
  should_encrypt c = true /\ in_primary_key c primary_key = false /\ cd_name c' = cd_name c /\
  cd_type c' = TMediumBlob /\ is_encrypted_column c' = false /\ is_decrypted_column c' = false /\
  exists dt, convert_data_type (cd_type c) = Ok dt /\ original_type meta = kept_type dt /\
    meta_nullable meta = is_nullable c.
Proof.
  unfold try_from_column, should_encrypt, encrypt_unflagged.
  destruct (is_decrypted_column c); [by destruct (is_encrypted_column c)|]. rewrite andb_false_r. cbn.
  intros Hb. inv_ok. destruct a; [|done]. cbn in Hb. destruct (in_primary_key c primary_key) eqn:Hpk; [done|].
  assert (is_encrypted_column c || encrypt_by_default config && true
     && match convert_data_type (cd_type c) with Ok dt => negb (is_integer dt) | Err _ => false end = true) as Hse.
  { destruct (is_encrypted_column c); [done|]. destruct (encrypt_by_default config); [|done]. cbn in *.
    destruct (convert_data_type (cd_type c)); [|done]. cbn in E. by injection E as ->. }
  inv_ok. destruct a as [meta' c1]. inv_ok. unfold encrypt_column, column_to_datatype in E0.
  destruct (convert_data_type (cd_type c)) as [dt|[]] eqn:Hdt; try done. cbn [unwrap_ok result_bind] in E0.
  pose proof (is_nullable_pop c) as Hnull. destruct (pop_default_value c) as [d c2] eqn:Hpop. injection E0 as <- <-.
  split_and!; try done; try apply clear_encryption_flag_clears; [|by exists dt].
  cbn. unfold pop_default_value in Hpop. destruct (pop_default (cd_options c)). by injection Hpop as <- <-.
Qed.

Lemma try_from_column_plain c c' :
  try_from_column c primary_key config = Ok (None, c') ->
  should_encrypt c = false /\ c' = clear_encryption_flag c.
Proof.
  unfold try_from_column, should_encrypt, encrypt_unflagged.
  destruct (is_decrypted_column c) eqn:Hd.
  { destruct (is_encrypted_column c); [done|]. cbn. by intros [= <-]. }
  rewrite andb_false_r. cbn. intros Hb. inv_ok.
  destruct a; cbn in Hb; [destruct (in_primary_key c primary_key); [done|]; inv_ok; by destruct a|].
  injection Hb as <-. destruct (is_encrypted_column c) eqn:He; [done|]. cbn.
  split; [|by rewrite clear_encryption_flag_same].
  destruct (encrypt_by_default config); [|done]. cbn in *.
  destruct (in_primary_key c primary_key); [done|]. cbn.
  destruct (convert_data_type (cd_type c)); [|done]. cbn in E. by injection E as ->.
Qed.

Lemma build_columns_other columns (m m' : TableMeta I) columns' n :
  build_columns columns primary_key config m = Ok (columns', m') ->
  n ∉ cd_name <$> columns -> column_meta m' n = column_meta m n.
Proof.
  revert m columns'. induction columns as [|c columns IH]; cbn; intros m columns' Hb Hn; [by injection Hb as <- <-|].
  inv_ok. destruct a as [meta c']. cbn in Hb. inv_ok. destruct a as [columns1 m1]. injection Hb as <- <-.
  apply not_elem_of_cons in Hn as [Hn1 Hn2]. rewrite (IH _ _ E0 Hn2). destruct meta as [meta|]; [|done].
  apply try_from_column_encrypted in E as (_ & _ & -> & _). by apply lookup_insert_ne.
Qed.

Lemma build_columns_spec columns (m m' : TableMeta I) columns' :
  build_columns columns primary_key config m = Ok (columns', m') ->
  NoDup (cd_name <$> columns) -> (forall c, c ∈ columns -> column_meta m (cd_name c) = None) ->
  Forall2 (column_built m') columns columns'.
Proof.
  revert m columns'. induction columns as [|c columns IH]; cbn; intros m columns' Hb Hnd Hm;
    [by injection Hb as <- <-|].
  inv_ok. destruct a as [meta c']. cbn in Hb. inv_ok. destruct a as [columns1 m1]. injection Hb as <- <-.
  apply NoDup_cons in Hnd as [Hc Hnd].
  pose proof (build_columns_other _ _ _ _ _ E0 Hc) as Hkeep. constructor.
  - destruct meta as [meta|].
    + apply try_from_column_encrypted in E as (Hse & Hpk & Hn & Ht & He & Hd & dt & Hdt & Ho & Hnl).
      unfold column_built. rewrite Hse. split_and!; try done. exists dt, meta. split_and!; try done.
      rewrite Hkeep, Hn. apply lookup_insert_eq.
    + apply try_from_column_plain in E as [Hse ->]. unfold column_built. rewrite Hse.
      split_and!; try done; try apply clear_encryption_flag_clears. rewrite Hkeep. apply Hm. left.
  - apply (IH _ _ E0 Hnd). intros c2 Hc2. destruct meta as [meta|]; [|apply Hm; by right].
    apply try_from_column_encrypted in E as (_ & _ & -> & _). unfold column_meta, add_column. cbn.
    rewrite lookup_insert_ne; [apply Hm; by right|]. intros Heq. apply Hc. rewrite Heq.
    apply list_elem_of_fmap. by exists c2.
Qed.

(** C19: Creating a table encrypts exactly the columns it should: a flagged column, or
    any column that is not an integer and not in the primary key when columns are
    encrypted by default. On the server such a column is a blob without flag, and
    the metadata keep its type; the other columns keep theirs and have no
    metadata. No encrypted column is in the primary key and no constraint that is
    sent reads one. *)
Theorem create_table_encrypts statement statement' (m : TableMeta I) :
  build_from_statement statement primary_key config = Ok (statement', m) ->
  NoDup (cd_name <$> ct_columns statement) ->
  Forall2 (column_built m) (ct_columns statement) (ct_columns statement') /\
  Forall (fun ct => Forall (fun n => column_meta m n = None) (constraint_columns ct)) (ct_constraints statement').
Proof.
  unfold build_from_statement. intros Hb Hnd. inv_ok. destruct a as [columns m1]. cbn in Hb.
  assert (Forall2 (column_built m1) (ct_columns statement) columns) as HF.
  { eapply build_columns_spec; [done|done|]. intros c _. apply lookup_empty. }
  destruct (has_encrypted_column m1) eqn:Hen; injection Hb as <- <-; cbn; (split; [exact HF|]).
  - apply Forall_forall. intros ct [_ Hct]%list_elem_of_In%filter_In. apply negb_true_iff in Hct.
    apply Forall_forall. intros n Hn. apply eq_None_not_Some. intros HS. apply not_true_iff_false in Hct.
    apply Hct. apply existsb_exists. exists n. rewrite <- list_elem_of_In. split; [done|]. by apply bool_decide_true.
  - apply Forall_forall. intros ct _. apply Forall_forall. intros n _.
    unfold has_encrypted_column in Hen. apply negb_false_iff, bool_decide_eq_true in Hen.
    unfold column_meta. rewrite Hen. apply lookup_empty.
Qed.
End Properties.

(** A range index declared without an interval makes the proxy panic. *)
Lemma range_declaration_panics cast_scalar name fields c f rest :
  list_find (fun f => field_name f = c) fields = Some f -> split_once "_"%char rest = None ->
  parse_from_sql cast_scalar name [c] fields (RANGE_INDEX_PFX +:+ rest) =
    Err (Panic "called `Result::unwrap()` on an `Err` value").
Proof.
  intros Hf Hr. unfold parse_from_sql. rewrite strip_prefix_app. cbn [strip_prefix BLIND_INDEX_PFX].
  change (strip_prefix BLIND_INDEX_PFX (RANGE_INDEX_PFX +:+ rest)) with (@None string). rewrite Hf. cbn.
  unfold distribution_parse. by rewrite Hr.
Qed.

(** ** A concrete table *)

Definition demo_sql_display : SqlDisplay := {| type_text _ := "type"; expr_text _ := "expr" |}.

Definition demo_statement : CreateTable := {|
  ct_columns :=
    [{| cd_name := "id"; cd_type := TInt None; cd_options := [OptPrimaryKey; OptNotNull] |};
     {| cd_name := "name"; cd_type := TVarchar (Some 20%Z); cd_options := [OptDefault (Value (SingleQuotedString "x"))] |};
     {| cd_name := "age"; cd_type := TInt None;
        cd_options := [OptDialectSpecific [TokWord "ENCRYPTED" KwOther]] |};
     {| cd_name := "note"; cd_type := TText;
        cd_options := [OptDialectSpecific [TokWord "decrypted" KwOther]] |}];
  ct_constraints := [CtUnique [Identifier "name"]; CtIndex [Identifier "note"]]
|}.

Definition demo_config : BackendConfig := {| encrypt_by_default := true; config_row_binding_aad := true |}.

Lemma create_table_encrypts_witness :
  exists statement' (m : TableMeta unit),
    @build_from_statement ascii_unicode demo_sql_display unit demo_statement ["id"] demo_config = Ok (statement', m) /\
    cd_type <$> ct_columns statement' = [TInt None; TMediumBlob; TMediumBlob; TText] /\
    ct_constraints statement' = [CtIndex [Identifier "note"]] /\
    Forall2 (@column_built ascii_unicode unit ["id"] demo_config m) (ct_columns demo_statement) (ct_columns statement').
Proof.
  destruct (@build_from_statement ascii_unicode demo_sql_display unit demo_statement ["id"] demo_config)
    as [[statement' m]|] eqn:Hb; [|vm_compute in Hb; discriminate Hb].
  exists statement', m. split; [done|].
  pose proof (@create_table_encrypts ascii_unicode demo_sql_display unit ["id"] demo_config demo_statement
    statement' m Hb (bool_decide_unpack (NoDup (cd_name <$> ct_columns demo_statement)) ltac:(vm_compute; exact I))) as [HF _].
  revert HF. vm_compute in Hb. injection Hb as <- <-. done.
Defined.
