(* ===== verification/WritePath.v ===== *)
(** * The write path

    Models the insertion and update of rows: the projections of
    [backends/mysql/src/providers/table_provider.rs] that encrypt columns and
    compute index entries, the split of a batch between the table and its indices
    ([sinks/multiplex_sink.rs]), and [crypto/src/planning/decrypt_planner.rs] that
    reads the rows back. An execution plan is the list of its projections. *)
From S2P Require Import Prelude Values Sql Text Crypto ArrowCodec ColumnCrypto SqlSchema PhysicalExprs RowId TableMeta.

Definition FILTER_PREFIX : string := "__pr_flt__".
Definition CURRENT_VALUE_PREFIX : string := "__pr_cur__".
Definition DUPLICATE_VALUE_PFX : string := "__pr_dup__".

Section WritePath.
(** Expressions of the indices, and their sinks. *)
Context {X S : Type}.
Abbreviation PhysExpr := (PhysExpr (X := X)).
Abbreviation ProjectionExpr := (ProjectionExpr (X := X)).

(** ** Indices of a table *)

Inductive IndexInsertStrategy :=
  | AddColumns (projections : list ProjectionExpr)
  | IndexSink (input : list ProjectionExpr) (sink : S).

(** What the write path uses of an index. *)
Record WriteIndex := {
  tracked_columns : list string;
  wi_insert : list Field -> result IndexInsertStrategy;
  wi_update : list Field -> result IndexInsertStrategy;
  requires_external_storage : bool;
  wi_column_hidden : string -> bool
}.

Record MySqlTableProvider := {
  table_reference : TableRef;
  table_schema : list Field;
  encryption_metadata : TableMeta WriteIndex;
  primary_key : list string
}.

Definition get_column_metadata (t : MySqlTableProvider) (n : string) : option EncryptedColumnMeta :=
  column_meta (encryption_metadata t) n.

Definition has_index_storage (t : MySqlTableProvider) : bool :=
  existsb requires_external_storage (tm_indices (encryption_metadata t)).

(** ** Associated data *)

Definition get_aad_source_physical (t : MySqlTableProvider) (fields : list Field) (prefix : option string) :
    result (list PhysExpr) :=
  if negb (row_binding_aad (encryption_metadata t)) then Ok []
  else
    match prefix with
    | Some prefix => result_mapM (fun n => col (prefix +:+ n) fields) (primary_key t)
    | None => result_mapM (fun n => col n fields) (primary_key t)
    end.

(** ** Projections *)

(** The columns the indices read in clear. *)
Definition requested_cleartext_columns (t : MySqlTableProvider) : list string :=
  tm_indices (encryption_metadata t) ≫= tracked_columns.

(** The column a field of the input is written to. *)
Definition target_column (n : string) : string := default n (strip_prefix DUPLICATE_VALUE_PFX n).

(** Cipher and type of each field that is written to an encrypted column. *)
Definition encrypted_columns_of (t : MySqlTableProvider) (fields : list Field) :
    list (option (CipherContext * DataType)) :=
  (fun f => let n := target_column (field_name f) in
            (fun meta => (TableColumn (table_reference t) n, original_type meta)) <$> get_column_metadata t n)
  <$> fields.

Definition encrypt_field (aad_source : list PhysExpr) (n : string) (idx : nat)
    (cipher : CipherContext) (source_type : DataType) : PhysExpr :=
  PEncrypt (PToBinary (PColumn n idx)) (PComputeAad aad_source source_type) cipher.

(** Layer 1 encrypts the columns that no index reads, layer 2 the others. *)
Definition layer_1_expr (requested : list string) (aad_source : list PhysExpr)
    (idx : nat) (n : string) (column_meta : option (CipherContext * DataType)) : PhysExpr :=
  match column_meta with
  | None => PColumn n idx
  | Some (cipher, source_type) =>
      if bool_decide (n ∈ requested) then PColumn n idx else encrypt_field aad_source n idx cipher source_type
  end.

Definition layer_2_expr (requested : list string) (aad_source : list PhysExpr)
    (idx : nat) (n : string) (column_meta : option (CipherContext * DataType)) : PhysExpr :=
  match column_meta with
  | Some (cipher, source_type) =>
      if bool_decide (n ∈ requested) then encrypt_field aad_source n idx cipher source_type else PColumn n idx
  | None => PColumn n idx
  end.

(** [enumerate] and [zip] over the fields. *)
Definition layer (expr : nat -> string -> option (CipherContext * DataType) -> PhysExpr)
    (fields : list Field) (metas : list (option (CipherContext * DataType))) : list ProjectionExpr :=
  imap (fun idx '(f, meta) => {| pe_expr := expr idx (field_name f) meta; pe_alias := field_name f |})
    (zip fields metas).

(** A plan: its projections with their schemas, first to last. *)
Definition Plan : Type := list (list Field * list ProjectionExpr).

Definition strategy_projections (s : IndexInsertStrategy) : list ProjectionExpr :=
  match s with AddColumns ps => ps | IndexSink _ _ => [] end.

Definition strategy_sink (s : IndexInsertStrategy) : option (list ProjectionExpr * S) :=
  match s with AddColumns _ => None | IndexSink input sink => Some (input, sink) end.

Variable index_type : X -> list Field -> result DataType.
Variable index_nullable : X -> list Field -> result bool.

Definition project_insert_update (t : MySqlTableProvider) (input : list Field) (is_update : bool) :
    result (Plan * list Field * list S) :=
  let requested := requested_cleartext_columns t in
  let? strategies := result_mapM (fun index => if is_update then wi_update index input else wi_insert index input)
                       (tm_indices (encryption_metadata t)) in
  let forward_projections := strategies ≫= strategy_projections in
  let separate := omap strategy_sink strategies in
  let additional_projections := separate.*1 in
  let additional_sinks := separate.*2 in
  let encrypted_columns := encrypted_columns_of t input in
  let? aad_source := get_aad_source_physical t input (if is_update then Some FILTER_PREFIX else None) in
  let layer_1 := layer (layer_1_expr requested aad_source) input encrypted_columns in
  let? schema_1 := projection_schema index_type index_nullable layer_1 input in
  if bool_decide (requested = []) && bool_decide (forward_projections = []) && bool_decide (additional_projections = [])
  then Ok ([(schema_1, layer_1)], schema_1, additional_sinks)
  else
    let layer_2 := layer (layer_2_expr requested aad_source) input encrypted_columns
                   ++ forward_projections ++ mjoin additional_projections in
    let keep_columns := length schema_1 + length forward_projections in
    let? schema_2 := projection_schema index_type index_nullable layer_2 schema_1 in
    Ok ([(schema_1, layer_1); (schema_2, layer_2)], take keep_columns schema_2, additional_sinks).

(** [insert_into]: a hidden row identifier is computed first. *)
Definition insert_into (t : MySqlTableProvider) (input : list Field) : result (Plan * list Field * list S) :=
  match row_id_column (encryption_metadata t) with
  | Some row_id =>
      if is_hidden row_id then
        let? gen_rowid := compute_rowid_expr row_id (RowIdColumnCtx (table_reference t)) input in
        let? gen_rowid := ok_or gen_rowid (PlanError "failed to generate row_id") in
        let add := imap (fun idx f => {| pe_expr := PColumn (field_name f) idx; pe_alias := field_name f |}) input
                   ++ [gen_rowid] in
        let? schema_0 := projection_schema index_type index_nullable add input in
        let? (plan, insert_schema, sinks) := project_insert_update t schema_0 false in
        Ok ((schema_0, add) :: plan, insert_schema, sinks)
      else project_insert_update t input false
  | None => project_insert_update t input false
  end.

(** ** Reading back *)

(** [project_decrypt]. *)
Definition project_decrypt (table_ref : TableRef) (fields : list Field)
    (decrypt_columns : list (option (string * DataType))) (associated_data_columns : list PhysExpr) :
    list ProjectionExpr :=
  imap (fun idx '(f, cfg) =>
    let column_source := PColumn (field_name f) idx in
    {| pe_expr := match cfg with
                  | None => column_source
                  | Some (c, dt) =>
                      PFromBinary dt (field_nullable f)
                        (PDecrypt column_source (PComputeAad associated_data_columns dt) (TableColumn table_ref c))
                  end;
       pe_alias := field_name f |}) (zip fields decrypt_columns).

(** The projection of [scan_and_decrypt_all]. *)
Definition decrypt_projection (t : MySqlTableProvider) (projection : list Field) : result (list ProjectionExpr) :=
  let metas := (fun f => (fun meta => (field_name f, original_type meta))
                         <$> get_column_metadata t (field_name f)) <$> projection in
  let? aad := get_aad_source_physical t projection None in
  Ok (project_decrypt (table_reference t) projection metas aad).

Definition is_encrypted (t : MySqlTableProvider) (n : string) : bool :=
  bool_decide (is_Some (get_column_metadata t n)).

(** The types of the columns as the server returns them. *)
Definition transform_encrypted_fields (t : MySqlTableProvider) (fields : list Field) : list Field :=
  (fun f => if is_encrypted t (field_name f) then
              {| field_name := field_name f; field_type := DtBinary; field_nullable := field_nullable f;
                 field_metadata := field_metadata f |}
            else f) <$> fields.
End WritePath.
