(* ===== verification/WriteRead.v ===== *)
(** * Writing rows and reading them back

    Runs the plans of WritePath.v on batches: an insertion encrypts exactly the
    columns that have metadata and leaves the others as they are, and the
    decryption of a scan gives back the columns that were inserted. *)
From S2P Require Import Prelude Values Sql Text Crypto ArrowCodec ColumnCrypto BlindIndex SqlSchema PhysicalExprs RowId TableMeta WritePath.

(** ** Projections that succeed *)

Section ProjectOk.
Context {X : Type}.
Variable eval : nat -> PhysExpr (X := X) -> RecordBatch -> result PVal.

Lemma project_columns_ok ps b i :
  (forall j p, ps !! j = Some p -> exists v, eval (i + j) (pe_expr p) b = Ok v) ->
  exists cs, project_columns eval i ps b = Ok cs /\ length cs = length ps /\
    forall j p v, ps !! j = Some p -> eval (i + j) (pe_expr p) b = Ok v ->
      cs !! j = Some (into_array (batch_rows b) v).
Proof.
  revert i. induction ps as [|p ps IH]; intros i Hp; [by exists []|]. cbn [project_columns].
  destruct (Hp 0 p eq_refl) as [v Hv]. rewrite Nat.add_0_r in Hv. rewrite Hv. cbn [result_bind].
  destruct (IH (S i)) as (cs & Hcs & Hl & HF).
  { intros j q Hq. destruct (Hp (S j) q Hq) as [w Hw]. exists w. by rewrite <- Nat.add_succ_comm in Hw. }
  rewrite Hcs. cbn [result_bind]. eexists. split; [done|]. cbn. split; [lia|].
  intros [|j] q w [=] Hw; subst; cbn.
  - rewrite Nat.add_0_r in Hw. congruence.
  - rewrite <- Nat.add_succ_comm in Hw. by apply (HF j q).
Qed.

Lemma try_new_ok fields columns rows :
  length fields = length columns ->
  (forall i f a, fields !! i = Some f -> columns !! i = Some a -> column_matches rows f a = true) ->
  record_batch_try_new fields columns rows =
    Ok {| batch_schema := fields; batch_columns := columns; batch_rows := rows |}.
Proof.
  intros Hl HF. unfold record_batch_try_new. rewrite bool_decide_true by done.
  replace (forallb id (zip_with (column_matches rows) fields columns)) with true; [done|]. symmetry.
  apply forallb_forall. intros x Hx%list_elem_of_In%list_elem_of_lookup. destruct Hx as [i Hi].
  apply lookup_zip_with_Some in Hi as (f & a & -> & Hf & Ha). by apply (HF i).
Qed.

Lemma batch_ok_lookup b i f :
  batch_ok b -> batch_schema b !! i = Some f ->
  exists a, batch_columns b !! i = Some a /\ column_matches (batch_rows b) f a = true.
Proof.
  unfold batch_ok, record_batch_try_new. intros Hb Hf.
  destruct (bool_decide _ && _) eqn:Hc; [|done]. clear Hb. apply andb_true_iff in Hc as [Hl Hc].
  apply bool_decide_eq_true in Hl. destruct (lookup_lt_is_Some_2 (batch_columns b) i) as [a Ha].
  { rewrite <- Hl. by eapply lookup_lt_Some. }
  exists a. split; [done|]. rewrite forallb_forall in Hc. change (id (column_matches (batch_rows b) f a) = true).
  apply Hc, list_elem_of_In, list_elem_of_lookup. exists i. rewrite lookup_zip_with, Hf, Ha. done.
Qed.

Lemma batch_ok_length b : batch_ok b -> length (batch_schema b) = length (batch_columns b).
Proof.
  unfold batch_ok, record_batch_try_new. destruct (bool_decide _ && _) eqn:Hc; [|done].
  apply andb_true_iff in Hc as [Hl _]. by apply bool_decide_eq_true in Hl.
Qed.

(** A projection whose items all evaluate to columns of their declared types gives
    a well-formed batch that has these columns. *)
Lemma project_ok ps fields b :
  length fields = length ps ->
  (forall i p f, ps !! i = Some p -> fields !! i = Some f ->
    exists v, eval i (pe_expr p) b = Ok v /\ column_matches (batch_rows b) f (into_array (batch_rows b) v) = true) ->
  exists out, project eval fields ps b = Ok out /\ batch_ok out /\ batch_schema out = fields /\
    batch_rows out = batch_rows b /\
    forall i p v, ps !! i = Some p -> eval i (pe_expr p) b = Ok v ->
      batch_columns out !! i = Some (into_array (batch_rows b) v).
Proof.
  intros Hl HF. destruct (project_columns_ok ps b 0) as (cs & Hcs & Hlc & Hlk).
  { intros j p Hp. destruct (lookup_lt_is_Some_2 fields j) as [f Hf]; [rewrite Hl; by eapply lookup_lt_Some|].
    destruct (HF j p f Hp Hf) as (v & Hv & _). by exists v. }
  assert (record_batch_try_new fields cs (batch_rows b) =
    Ok {| batch_schema := fields; batch_columns := cs; batch_rows := batch_rows b |}) as Hnew.
  { apply try_new_ok; [lia|]. intros i f a Hf Ha.
    destruct (lookup_lt_is_Some_2 ps i) as [p Hp]; [rewrite <- Hl; by eapply lookup_lt_Some|].
    destruct (HF i p f Hp Hf) as (v & Hv & Hm). rewrite (Hlk i p v Hp Hv) in Ha. by injection Ha as <-. }
  unfold project. rewrite Hcs. cbn [result_bind]. rewrite Hnew. eexists. split; [done|]. by split_and!.
Qed.
End ProjectOk.

(** ** Running a plan *)

Section RunPlan.
Context {X : Type}.
(** The value of an expression; random bytes are drawn anew for each layer and item. *)
Variable eval : nat -> nat -> PhysExpr (X := X) -> RecordBatch -> result PVal.

Fixpoint run_plan (l : nat) (plan : Plan (X := X)) (b : RecordBatch) : result RecordBatch :=
  match plan with
  | [] => Ok b
  | (fields, ps) :: plan => let? b := project (eval l) fields ps b in run_plan (S l) plan b
  end.
End RunPlan.

(** ** Layers of a write *)

Section Layers.
Context {X S : Type}.
Implicit Type t : MySqlTableProvider (X := X) (S := S).
Implicit Type e : nat -> string -> option (CipherContext * DataType) -> PhysExpr (X := X).

Definition meta_of t (f : Field) : option (CipherContext * DataType) :=
  let n := target_column (field_name f) in
  (fun meta => (TableColumn (table_reference t) n, original_type meta)) <$> get_column_metadata t n.

(** A layer encrypts the columns it selects among those that have metadata. *)
Definition layer_expr (sel : string -> bool) (aad : list (PhysExpr (X := X))) (idx : nat) (n : string)
    (m : option (CipherContext * DataType)) : PhysExpr (X := X) :=
  match m with
  | Some (cipher, dt) => if sel n then encrypt_field aad n idx cipher dt else PColumn n idx
  | None => PColumn n idx
  end.

Definition layer_field (sel : string -> bool) t (f : Field) : Field :=
  match meta_of t f with
  | Some _ =>
      if sel (field_name f) then
        {| field_name := field_name f; field_type := DtBinary; field_nullable := field_nullable f; field_metadata := ∅ |}
      else f
  | None => f
  end.

Definition table_layer (sel : string -> bool) t aad (fs : list Field) : list (ProjectionExpr (X := X)) :=
  layer (layer_expr sel aad) fs (encrypted_columns_of t fs).

Lemma layer_field_name sel t f : field_name (layer_field sel t f) = field_name f.
Proof. unfold layer_field. by destruct (meta_of t f), (sel (field_name f)). Qed.

Lemma layer_field_names sel t (fs : list Field) : field_name <$> (layer_field sel t <$> fs) = field_name <$> fs.
Proof. rewrite <- list_fmap_compose. apply list_fmap_ext. intros i f _. apply layer_field_name. Qed.

Lemma meta_of_layer_field sel t f : meta_of t (layer_field sel t f) = meta_of t f.
Proof. unfold meta_of. by rewrite layer_field_name. Qed.

Lemma layer_lookup e t fs i :
  layer e fs (encrypted_columns_of t fs) !! i =
  (fun f => {| pe_expr := e i (field_name f) (meta_of t f); pe_alias := field_name f |}) <$> fs !! i.
Proof.
  unfold layer, encrypted_columns_of. rewrite list_lookup_imap, lookup_zip_with, list_lookup_fmap.
  by destruct (fs !! i).
Qed.

Lemma layer_length e t fs : length (layer e fs (encrypted_columns_of t fs)) = length fs.
Proof. unfold layer, encrypted_columns_of. rewrite length_imap, length_zip_with, length_fmap. lia. Qed.

(** A layer only depends on the names of the fields. *)
Lemma layer_names e t (fs gs : list Field) :
  field_name <$> fs = field_name <$> gs ->
  layer e fs (encrypted_columns_of t fs) = layer e gs (encrypted_columns_of t gs).
Proof.
  intros Hn. apply list_eq. intros i. rewrite !layer_lookup.
  assert (field_name <$> fs !! i = field_name <$> gs !! i) as Hi by (rewrite <- !list_lookup_fmap; by rewrite Hn).
  destruct (fs !! i) as [f|], (gs !! i) as [g|]; cbn in *; try done. injection Hi as Hi. unfold meta_of. by rewrite Hi.
Qed.

Lemma layer_1_table requested t aad fs :
  layer (layer_1_expr requested aad) fs (encrypted_columns_of t fs) =
  table_layer (fun n => negb (bool_decide (n ∈ requested))) t aad fs.
Proof.
  apply list_eq. intros i. unfold table_layer. rewrite !layer_lookup. destruct (fs !! i) as [f|]; [|done]. cbn.
  unfold layer_1_expr, layer_expr. destruct (meta_of t f) as [[]|]; [|done]. by case_bool_decide.
Qed.

Lemma layer_2_table requested t aad fs :
  layer (layer_2_expr requested aad) fs (encrypted_columns_of t fs) =
  table_layer (fun n => bool_decide (n ∈ requested)) t aad fs.
Proof.
  apply list_eq. intros i. unfold table_layer. rewrite !layer_lookup. destruct (fs !! i) as [f|]; [|done]. cbn.
  unfold layer_2_expr, layer_expr. destruct (meta_of t f) as [[]|]; [|done]. by case_bool_decide.
Qed.

Lemma table_layer_schema index_type index_nullable sel t aad fs :
  projection_schema index_type index_nullable (table_layer sel t aad fs) fs = Ok (layer_field sel t <$> fs).
Proof.
  unfold table_layer. apply result_mapM_fmap; [by rewrite layer_length, length_fmap|].
  intros i p f. rewrite layer_lookup, list_lookup_fmap. destruct (fs !! i) as [g|] eqn:Hg; [|done]. cbn.
  intros [= <-] [= <-]. unfold projection_field, layer_expr, layer_field. cbn.
  destruct (meta_of t g) as [[c dt]|]; [destruct (sel (field_name g))|]; cbn; rewrite Hg; cbn; by destruct g.
Qed.
End Layers.

Section RoundTrip.
Context {X S : Type} `{ArrowCastLaws} `{AeadLaws} `{Hkdf} {tag_size : nat} `{!AeadTag tag_size}.
Variable master_key : bytes.
Variable cast_array : Array -> DataType -> result Array.
Variable type_name : DataType -> bytes.
Variable buffer_memory : BinaryArray -> nat.
(** The random bytes of each item of each layer. *)
Variable nonces : nat -> nat -> nat -> bytes.
Variable fill_bytes : nat -> nat -> nat -> bytes.
Variable index_evaluate : X -> RecordBatch -> result PVal.
Variable index_type : X -> list Field -> result DataType.
Variable index_nullable : X -> list Field -> result bool.
Hypothesis buffer_memory_enough : forall b, length (plain_bytes b) <= buffer_memory b.
Hypothesis nonces_length : forall l i k, length (nonces l i k) = NONCE_LEN.

Definition eval_at (l i : nat) : PhysExpr (X := X) -> RecordBatch -> result PVal :=
  evaluate master_key tag_size cast_array type_name buffer_memory (nonces l i) (fill_bytes l i) index_evaluate.

Implicit Type t : MySqlTableProvider (X := X) (S := S).

(** What became of the column [a] that is written for [f]. *)
Definition written (sel : string -> bool) t (va : DataType -> PVal) (f : Field) (a a' : Array) : Prop :=
  match meta_of t f with
  | Some (cipher, dt) =>
      if sel (field_name f) then
        exists enc, a' = binary_array enc /\ same_nulls (values a) enc /\
          decrypts_to (X := X) (tag_size := tag_size) master_key cast_array type_name buffer_memory index_evaluate
            cipher (va dt) enc a
      else a' = a
  | None => a' = a
  end.

(** Columns that are encrypted have the type of their metadata and can be encoded. *)
Definition column_ready t (f : Field) (a : Array) : Prop :=
  match meta_of t f with
  | Some (_, dt) => field_type f = dt /\ encodable dt = true /\ array_ok a
  | None => True
  end.

Lemma same_nulls_matches (l : list (option ArrowValue)) (enc : BinaryArray) :
  same_nulls l enc -> forallb (fun v => bool_decide (is_Some v)) l = true ->
  forallb (fun v => bool_decide (is_Some v)) (map (option_map VBytes) enc) = true.
Proof.
  induction 1 as [|x y l k Hxy _ IH]; [done|]. cbn. rewrite !andb_true_iff. intros [Hx Hl]. split; [|by apply IH].
  apply bool_decide_eq_true in Hx. apply Hxy in Hx as [z ->]. by apply bool_decide_eq_true.
Qed.

Lemma layer_item sel t aad fs b l i f a (va : DataType -> PVal) :
  batch_schema b = fs -> fs !! i = Some f -> batch_columns b !! i = Some a ->
  column_matches (batch_rows b) f a = true ->
  (sel (field_name f) = true -> column_ready t f a) ->
  (forall dt, eval_at l i (PComputeAad aad dt) b = Ok (va dt)) -> (forall dt, aad_ok (batch_rows b) (va dt)) ->
  exists v, eval_at l i (layer_expr sel aad i (field_name f) (meta_of t f)) b = Ok v /\
    column_matches (batch_rows b) (layer_field sel t f) (into_array (batch_rows b) v) = true /\
    written sel t va f a (into_array (batch_rows b) v).
Proof.
  intros Hs Hf Ha Hm Hr Hva Hok. unfold layer_expr, layer_field, written. unfold column_ready in Hr.
  assert (exists v, eval_at l i (PColumn (field_name f) i) b = Ok v /\
    column_matches (batch_rows b) f (into_array (batch_rows b) v) = true /\ into_array (batch_rows b) v = a) as Hcol.
  { exists (PArray a). unfold eval_at. cbn. by rewrite Ha. }
  destruct (meta_of t f) as [[c dt]|]; [|done]. destruct (sel (field_name f)); [|done]. clear Hcol.
  destruct (Hr eq_refl) as (Ht & He & Hao). unfold column_matches in *.
  apply andb_true_iff in Hm as [[Hty Hlen]%andb_true_iff Hnn]. apply bool_decide_eq_true in Hty, Hlen.
  destruct (encrypt_decrypt_column master_key cast_array type_name buffer_memory (nonces l i) (fill_bytes l i)
    index_evaluate buffer_memory_enough (nonces_length l i) b a (field_name f) i (PComputeAad aad dt) (va dt) c)
    as (enc & Henc & Hle & Hnulls & Hdec); try done; [congruence|by apply Hva|].
  exists (PArray (binary_array enc)). split; [done|]. split; [|by exists enc].
  cbn. rewrite length_map. rewrite !bool_decide_true by done. cbn. destruct (field_nullable f); [done|]. cbn in *.
  by eapply same_nulls_matches.
Qed.

(** A layer followed by the items of the indices. *)
Lemma layer_step sel t aad b l extra extra_fields (va : DataType -> PVal) :
  batch_ok b ->
  (forall i f a, batch_schema b !! i = Some f -> batch_columns b !! i = Some a -> sel (field_name f) = true ->
    column_ready t f a) ->
  (forall i dt, eval_at l i (PComputeAad aad dt) b = Ok (va dt)) -> (forall dt, aad_ok (batch_rows b) (va dt)) ->
  Forall2 (fun p f => forall i, exists v, eval_at l i (pe_expr p) b = Ok v /\
    column_matches (batch_rows b) f (into_array (batch_rows b) v) = true) extra extra_fields ->
  exists out,
    project (eval_at l) ((layer_field sel t <$> batch_schema b) ++ extra_fields)
      (table_layer sel t aad (batch_schema b) ++ extra) b = Ok out /\
    batch_ok out /\ batch_schema out = (layer_field sel t <$> batch_schema b) ++ extra_fields /\
    batch_rows out = batch_rows b /\
    (forall i f a, batch_schema b !! i = Some f -> batch_columns b !! i = Some a ->
      exists a', batch_columns out !! i = Some a' /\ written sel t va f a a') /\
    forall j p v, extra !! j = Some p -> eval_at l (length (batch_schema b) + j) (pe_expr p) b = Ok v ->
      batch_columns out !! (length (batch_schema b) + j) = Some (into_array (batch_rows b) v).
Proof.
  intros Hb Hready Hva Hok Hextra.
  assert (forall i f a, batch_schema b !! i = Some f -> batch_columns b !! i = Some a ->
    exists v, eval_at l i (layer_expr sel aad i (field_name f) (meta_of t f)) b = Ok v /\
    column_matches (batch_rows b) (layer_field sel t f) (into_array (batch_rows b) v) = true /\
    written sel t va f a (into_array (batch_rows b) v)) as Hitem.
  { intros i f a Hf Ha. apply (layer_item sel t aad (batch_schema b) b l i f a va); try done; [|by apply (Hready i)].
    destruct (batch_ok_lookup b i f Hb Hf) as (a' & Ha' & Hm). congruence. }
  destruct (project_ok (eval_at l) (table_layer sel t aad (batch_schema b) ++ extra)
    ((layer_field sel t <$> batch_schema b) ++ extra_fields) b) as (out & Hout & Hbo & Hso & Hro & Hlk).
  - rewrite !length_app, length_fmap. unfold table_layer. rewrite layer_length.
    apply Forall2_length in Hextra. lia.
  - intros i p f Hp Hf. apply lookup_app_Some in Hp as [Hp|[Hge Hp]].
    + unfold table_layer in Hp. rewrite layer_lookup in Hp. destruct (batch_schema b !! i) as [g|] eqn:Hg; [|done].
      injection Hp as <-. rewrite lookup_app_l in Hf by (rewrite length_fmap; by eapply lookup_lt_Some).
      rewrite list_lookup_fmap, Hg in Hf. injection Hf as <-.
      destruct (batch_ok_lookup b i g Hb Hg) as (a & Ha & _). destruct (Hitem i g a Hg Ha) as (v & Hv & Hm & _). eauto.
    + unfold table_layer in Hge, Hp. rewrite layer_length in Hge, Hp.
      rewrite lookup_app_r in Hf by (by rewrite length_fmap). rewrite length_fmap in Hf.
      by destruct (Forall2_lookup_lr _ _ _ _ _ _ Hextra Hp Hf i) as (v & Hv & Hm); eauto.
  - exists out. split_and!; try done.
    2:{ intros j p v Hp. apply Hlk. rewrite lookup_app_r; unfold table_layer; rewrite layer_length; [|lia].
        by replace (length (batch_schema b) + j - length (batch_schema b)) with j by lia. }
    intros i f a Hf Ha. destruct (Hitem i f a Hf Ha) as (v & Hv & _ & Hw).
    eexists. split; [|exact Hw]. apply (Hlk i {| pe_expr := layer_expr sel aad i (field_name f) (meta_of t f);
      pe_alias := field_name f |}); [|done].
    rewrite lookup_app_l by (unfold table_layer; rewrite layer_length; by eapply lookup_lt_Some).
    unfold table_layer. rewrite layer_lookup, Hf. done.
Qed.

(** ** Associated data of a batch *)

Definition aad_name (prefix : option string) (n : string) : string :=
  match prefix with Some p => p +:+ n | None => n end.

(** The columns that the associated data of the batch are computed from. *)
Definition aad_arrays t (prefix : option string) (b : RecordBatch) (as_ : list Array) : Prop :=
  if row_binding_aad (encryption_metadata t) then
    Forall2 (fun n a => exists i, index_of (aad_name prefix n) (batch_schema b) = Some i /\
                                  batch_columns b !! i = Some a) (primary_key t) as_
  else as_ = [].

Definition keeps_key t (prefix : option string) (b b1 : RecordBatch) : Prop :=
  row_binding_aad (encryption_metadata t) = true ->
  forall n i, n ∈ primary_key t -> index_of (aad_name prefix n) (batch_schema b) = Some i ->
    batch_columns b1 !! i = batch_columns b !! i.

(** The associated data of a row for a column of a type. *)
Definition aad_pval (rows : nat) (as_ : list Array) (dt : DataType) : PVal :=
  match aad_value (aad_impl type_name dt) rows as_ with Ok v => v | Err _ => PScalar DtBinary None end.

Lemma aad_exprs t prefix b as_ :
  aad_arrays t prefix b as_ ->
  exists es, get_aad_source_physical t (batch_schema b) prefix = Ok es /\
    forall b1, keeps_key t prefix b b1 -> columns_are es b1 as_.
Proof.
  unfold aad_arrays, get_aad_source_physical, keeps_key.
  destruct (row_binding_aad _); [|intros ->; exists []; split; [done|]; intros; constructor]. intros HF. cbn [negb].
  assert (exists es, result_mapM (fun n => col (aad_name prefix n) (batch_schema b)) (primary_key t) = Ok es /\
    forall b1, (true = true -> forall n i, n ∈ primary_key t ->
      index_of (aad_name prefix n) (batch_schema b) = Some i -> batch_columns b1 !! i = batch_columns b !! i) ->
    columns_are (X := X) es b1 as_) as (es & Hes & Hc).
  { induction HF as [|n a ns as_ (i & Hi & Ha) _ (es & Hes & IH)]; cbn [result_mapM].
    - exists []. split; [done|]. intros. constructor.
    - unfold col at 1. rewrite Hi. cbn. rewrite Hes. cbn. eexists. split; [done|]. intros b1 Hb1. constructor.
      + eexists _, i. split; [done|]. rewrite (Hb1 eq_refl n i); [done|left|done].
      + apply IH. intros _ m j Hm. apply (Hb1 eq_refl). by right. }
  exists es. split; [|done]. by destruct prefix.
Qed.

Lemma aad_pval_eval es b as_ l i dt rows :
  columns_are es b as_ -> length as_ <= 255 -> Forall (aad_source rows) as_ -> batch_rows b = rows ->
  eval_at l i (PComputeAad es dt) b = Ok (aad_pval rows as_ dt) /\ aad_ok rows (aad_pval rows as_ dt).
Proof.
  intros Hc Hl HF <-. unfold eval_at. rewrite (evaluate_compute_aad _ _ _ _ _ _ _ es b as_ dt Hc Hl).
  destruct (evaluate_aad_ok (batch_rows b) (aad_impl type_name dt) as_ HF Hl) as (v & Hv & Hok).
  unfold aad_pval. rewrite Hv. done.
Qed.

(** ** A write *)

Definition in_layer_1 t (n : string) : bool := negb (bool_decide (n ∈ requested_cleartext_columns t)).
Definition in_layer_2 t (n : string) : bool := bool_decide (n ∈ requested_cleartext_columns t).

Definition index_items (strategies : list (IndexInsertStrategy (X := X) (S := S))) : list (ProjectionExpr (X := X)) :=
  (strategies ≫= strategy_projections) ++ mjoin (omap strategy_sink strategies).*1.

(** The indices see the columns they track in clear. *)
Definition sees_clear t (b b1 : RecordBatch) : Prop :=
  batch_ok b1 /\ batch_rows b1 = batch_rows b /\ batch_schema b1 = layer_field (in_layer_1 t) t <$> batch_schema b /\
  forall i f, batch_schema b !! i = Some f -> in_layer_1 t (field_name f) = false \/ meta_of t f = None ->
    batch_columns b1 !! i = batch_columns b !! i.

(** The indices accept the batch: their items evaluate to columns of the types
    that they declare. *)
Definition indices_accept t (is_update : bool) (b : RecordBatch) : Prop :=
  exists strategies fields,
    result_mapM (fun index => if is_update then wi_update index (batch_schema b) else wi_insert index (batch_schema b))
      (tm_indices (encryption_metadata t)) = Ok strategies /\
    projection_schema index_type index_nullable (index_items strategies)
      (layer_field (in_layer_1 t) t <$> batch_schema b) = Ok fields /\
    forall b1, sees_clear t b b1 ->
      Forall2 (fun p f => forall i, exists v, eval_at 1 i (pe_expr p) b1 = Ok v /\
        column_matches (batch_rows b1) f (into_array (batch_rows b1) v) = true) (index_items strategies) fields.

Record writable t (prefix : option string) (b : RecordBatch) (as_ : list Array) : Prop := {
  w_batch : batch_ok b;
  w_ready i f a : batch_schema b !! i = Some f -> batch_columns b !! i = Some a -> column_ready t f a;
  (** the primary key is in the batch, in clear and castable to binary *)
  w_key : aad_arrays t prefix b as_;
  w_key_clear n : n ∈ primary_key t -> get_column_metadata t (target_column (aad_name prefix n)) = None;
  w_source : Forall (aad_source (batch_rows b)) as_;
  w_key_short : length as_ <= 255
}.

Lemma written_both t va f a a1 a' :
  written (in_layer_1 t) t va f a a1 -> written (in_layer_2 t) t va f a1 a' -> written (fun _ => true) t va f a a'.
Proof.
  unfold written, in_layer_1, in_layer_2. destruct (meta_of t f) as [[c dt]|]; [|congruence].
  case_bool_decide; cbn; [by intros ->|]. by intros ? ->.
Qed.

Lemma written_clear sel t va f a a' :
  sel (field_name f) = false \/ meta_of t f = None -> written sel t va f a a' -> a' = a.
Proof. unfold written. destruct (meta_of t f) as [[c dt]|]; [|done]. by intros [->|]. Qed.

Lemma layer_field_both t f : layer_field (in_layer_2 t) t (layer_field (in_layer_1 t) t f) = layer_field (fun _ => true) t f.
Proof.
  unfold layer_field at 1. rewrite meta_of_layer_field, layer_field_name. unfold layer_field, in_layer_1, in_layer_2.
  destruct (meta_of t f) as [m|]; [|done]. by case_bool_decide.
Qed.

Lemma index_of_field n fs i : index_of n fs = Some i -> exists f, fs !! i = Some f /\ field_name f = n.
Proof.
  unfold index_of. destruct (list_find _ fs) as [[j f]|] eqn:Hf; [|done]. intros [= <-].
  apply list_find_Some in Hf as (Hf & Hn & _). by exists f.
Qed.

Lemma written_keeps_key t prefix b b1 as_ sel va :
  writable t prefix b as_ ->
  (forall i f a, batch_schema b !! i = Some f -> batch_columns b !! i = Some a ->
    exists a', batch_columns b1 !! i = Some a' /\ written sel t va f a a') ->
  keeps_key t prefix b b1.
Proof.
  intros Hw Hwr Haad n i Hn Hi. destruct (index_of_field _ _ _ Hi) as (f & Hf & Hfn).
  destruct (batch_ok_lookup b i f (w_batch _ _ _ _ Hw) Hf) as (a & Ha & _). rewrite Ha.
  destruct (Hwr i f a Hf Ha) as (a' & -> & Hwf). f_equal. eapply written_clear; [|done]. right.
  unfold meta_of. by rewrite Hfn, (w_key_clear _ _ _ _ Hw n Hn).
Qed.

(** The first layer: the columns that no index reads. *)
Lemma first_layer t prefix b as_ es sel :
  writable t prefix b as_ -> (forall b1, keeps_key t prefix b b1 -> columns_are es b1 as_) ->
  exists b1, project (eval_at 0) (layer_field sel t <$> batch_schema b) (table_layer sel t es (batch_schema b)) b = Ok b1 /\
    batch_ok b1 /\ batch_schema b1 = layer_field sel t <$> batch_schema b /\ batch_rows b1 = batch_rows b /\
    forall i f a, batch_schema b !! i = Some f -> batch_columns b !! i = Some a ->
      exists a', batch_columns b1 !! i = Some a' /\ written sel t (aad_pval (batch_rows b) as_) f a a'.
Proof.
  intros Hw Hes. assert (columns_are es b as_) as Hc by (apply Hes; intros ? ? ? ?; done).
  pose proof (fun i dt => aad_pval_eval es b as_ 0 i dt _ Hc (w_key_short _ _ _ _ Hw) (w_source _ _ _ _ Hw) eq_refl) as Hva.
  destruct (layer_step sel t es b 0 [] [] (aad_pval (batch_rows b) as_) (w_batch _ _ _ _ Hw)) as (b1 & Hb1 & Hr);
    [by intros; eapply (w_ready _ _ _ _ Hw)|by intros; apply Hva|by intros; apply (Hva 0)|constructor|].
  rewrite !app_nil_r in *. destruct Hr as (? & ? & ? & ? & _). by exists b1.
Qed.

(** The second layer: the columns that an index reads, and the items of the indices. *)
Lemma second_layer t prefix b b1 as_ es items fields :
  writable t prefix b as_ -> (forall b1, keeps_key t prefix b b1 -> columns_are es b1 as_) ->
  batch_ok b1 -> batch_schema b1 = layer_field (in_layer_1 t) t <$> batch_schema b -> batch_rows b1 = batch_rows b ->
  (forall i f a, batch_schema b !! i = Some f -> batch_columns b !! i = Some a ->
    exists a', batch_columns b1 !! i = Some a' /\ written (in_layer_1 t) t (aad_pval (batch_rows b) as_) f a a') ->
  Forall2 (fun p f => forall i, exists v, eval_at 1 i (pe_expr p) b1 = Ok v /\
    column_matches (batch_rows b1) f (into_array (batch_rows b1) v) = true) items fields ->
  exists out,
    project (eval_at 1) ((layer_field (fun _ => true) t <$> batch_schema b) ++ fields)
      (table_layer (in_layer_2 t) t es (batch_schema b) ++ items) b1 = Ok out /\
    batch_ok out /\ batch_schema out = (layer_field (fun _ => true) t <$> batch_schema b) ++ fields /\
    batch_rows out = batch_rows b /\
    (forall i f a, batch_schema b !! i = Some f -> batch_columns b !! i = Some a ->
      exists a', batch_columns out !! i = Some a' /\ written (fun _ => true) t (aad_pval (batch_rows b) as_) f a a') /\
    forall j p v, items !! j = Some p -> eval_at 1 (length (batch_schema b) + j) (pe_expr p) b1 = Ok v ->
      batch_columns out !! (length (batch_schema b) + j) = Some (into_array (batch_rows b) v).
Proof.
  intros Hw Hes Hok1 Hs1 Hr1 Hw1 Hitems.
  assert (columns_are es b1 as_) as Hc by (apply Hes; by eapply written_keeps_key).
  pose proof (fun i dt => aad_pval_eval es b1 as_ 1 i dt _ Hc (w_key_short _ _ _ _ Hw) (w_source _ _ _ _ Hw) Hr1) as Hva.
  assert (forall i f1 a1, batch_schema b1 !! i = Some f1 -> batch_columns b1 !! i = Some a1 ->
    exists f a, f1 = layer_field (in_layer_1 t) t f /\ batch_schema b !! i = Some f /\ batch_columns b !! i = Some a /\
      written (in_layer_1 t) t (aad_pval (batch_rows b) as_) f a a1) as Hback.
  { intros i f1 a1 Hf1 Ha1. rewrite Hs1, list_lookup_fmap in Hf1.
    destruct (batch_schema b !! i) as [f|] eqn:Hf; [|done]. injection Hf1 as <-.
    destruct (batch_ok_lookup b i f (w_batch _ _ _ _ Hw) Hf) as (a & Ha & _).
    destruct (Hw1 i f a Hf Ha) as (a1' & Ha1' & Hwf). exists f, a. simplify_eq. done. }
  destruct (layer_step (in_layer_2 t) t es b1 1 items fields (aad_pval (batch_rows b) as_) Hok1)
    as (out & Hout & Hbo & Hso & Hro & Hlk & Hextra).
  - intros i f1 a1 Hf1 Ha1 Hsel. destruct (Hback i f1 a1 Hf1 Ha1) as (f & a & -> & Hf & Ha & Hwf).
    rewrite layer_field_name in Hsel.
    assert (in_layer_1 t (field_name f) = false) as Hno by (unfold in_layer_1, in_layer_2 in *; by rewrite Hsel).
    assert (layer_field (in_layer_1 t) t f = f) as -> by (unfold layer_field; rewrite Hno; by destruct (meta_of t f)).
    apply written_clear in Hwf as ->; [|by left]. by apply (w_ready _ _ _ _ Hw i).
  - intros i dt. apply Hva.
  - intros dt. rewrite Hr1. by apply (Hva 0).
  - done.
  - exists out. rewrite Hs1 in Hout, Hso.
    assert (layer_field (in_layer_2 t) t <$> (layer_field (in_layer_1 t) t <$> batch_schema b) =
      layer_field (fun _ => true) t <$> batch_schema b) as Hlf
      by (rewrite <- list_fmap_compose; apply list_fmap_ext; intros; apply layer_field_both).
    rewrite Hlf in Hout, Hso. unfold table_layer in Hout.
    rewrite (layer_names _ t _ (batch_schema b)) in Hout by apply layer_field_names.
    split_and!; try done; [congruence| |by rewrite Hs1, length_fmap, Hr1 in Hextra].
    intros i f a Hf Ha. destruct (Hw1 i f a Hf Ha) as (a1 & Ha1 & Hwf).
    destruct (Hlk i (layer_field (in_layer_1 t) t f) a1) as (a' & Ha' & Hwf2);
      [by rewrite Hs1, list_lookup_fmap, Hf|done|]. exists a'. split; [done|]. eapply written_both; [exact Hwf|].
    unfold written in *. by rewrite meta_of_layer_field, layer_field_name in Hwf2.
Qed.

(** The batch that a write sends: every column that has metadata is encrypted and
    can be decrypted to what was written, the others are as they were. *)
Definition encrypts_batch t (b out : RecordBatch) (as_ : list Array) : Prop :=
  batch_ok out /\ batch_rows out = batch_rows b /\
  (exists fields, batch_schema out = (layer_field (fun _ => true) t <$> batch_schema b) ++ fields) /\
  forall i f a, batch_schema b !! i = Some f -> batch_columns b !! i = Some a ->
    exists a', batch_columns out !! i = Some a' /\ written (fun _ => true) t (aad_pval (batch_rows b) as_) f a a'.

(** What the indices are asked to write. *)
Definition strategies_of t (is_update : bool) (fields : list Field) : result (list (IndexInsertStrategy (X := X) (S := S))) :=
  result_mapM (fun index => if is_update then wi_update index fields else wi_insert index fields)
    (tm_indices (encryption_metadata t)).

(** Each item of an index is sent as a column of its name, computed from a batch
    in which the columns that indices track are in clear. *)
Definition sends_items t (is_update : bool) (b out : RecordBatch) : Prop :=
  forall strategies j p, strategies_of t is_update (batch_schema b) = Ok strategies -> index_items strategies !! j = Some p ->
    exists b1 v f, sees_clear t b b1 /\
      eval_at 1 (length (batch_schema b) + j) (pe_expr p) b1 = Ok v /\
      batch_columns out !! (length (batch_schema b) + j) = Some (into_array (batch_rows b) v) /\
      batch_schema out !! (length (batch_schema b) + j) = Some f /\ field_name f = pe_alias p.

Lemma projection_schema_lookup ps (fs fields : list Field) j p :
  projection_schema index_type index_nullable ps fs = Ok fields -> ps !! j = Some p ->
  exists f, fields !! j = Some f /\ field_name f = pe_alias p.
Proof.
  intros Hf Hp. destruct (result_mapM_lookup _ _ _ _ _ Hf Hp) as (f & Hj & Hfp). exists f. split; [done|].
  unfold projection_field in Hfp. by inv_ok.
Qed.

Lemma project_insert_update_encrypts t (is_update : bool) b as_ :
  writable t (if is_update then Some FILTER_PREFIX else None) b as_ -> indices_accept t is_update b ->
  exists plan insert_schema sinks out,
    project_insert_update index_type index_nullable t (batch_schema b) is_update = Ok (plan, insert_schema, sinks) /\
    run_plan eval_at 0 plan b = Ok out /\ encrypts_batch t b out as_ /\ sends_items t is_update b out /\
    take (length insert_schema) (batch_schema out) = insert_schema.
Proof.
  intros Hw (strategies & fields & Hstr & Hfields & Hitems). unfold project_insert_update. rewrite Hstr. cbn [result_bind].
  destruct (aad_exprs t _ b as_ (w_key _ _ _ _ Hw)) as (es & Hes & Hcols). rewrite Hes. cbn [result_bind].
  rewrite layer_1_table, layer_2_table. fold (in_layer_1 t) (in_layer_2 t). rewrite table_layer_schema.
  cbn [result_bind].
  destruct (first_layer t _ b as_ es (in_layer_1 t) Hw Hcols) as (b1 & Hb1 & Hok1 & Hs1 & Hr1 & Hw1).
  destruct (bool_decide _ && bool_decide _ && bool_decide _) eqn:Hempty.
  - apply andb_true_iff in Hempty as [[Hreq%bool_decide_eq_true Hno1%bool_decide_eq_true]%andb_true_iff Hno2%bool_decide_eq_true].
    do 3 eexists. exists b1. split; [done|]. cbn [run_plan]. rewrite Hb1. cbn [result_bind]. split; [done|].
    assert (forall f, layer_field (in_layer_1 t) t f = layer_field (fun _ => true) t f) as Hlf.
    { intros f. unfold layer_field, in_layer_1. by rewrite Hreq, bool_decide_false by apply not_elem_of_nil. }
    split; [|split; [|by rewrite Hs1, firstn_all]].
    2:{ intros str j p Hstr' Hj. unfold strategies_of in Hstr'. rewrite Hstr in Hstr'. injection Hstr' as <-.
        unfold index_items in Hj. by rewrite Hno1, Hno2 in Hj. }
    split_and!; try done.
    + exists []. rewrite app_nil_r, Hs1. by apply list_fmap_ext; intros; apply Hlf.
    + intros i f a Hf Ha. destruct (Hw1 i f a Hf Ha) as (a' & Ha' & Hwf). exists a'. split; [done|].
      unfold written, in_layer_1 in *. rewrite Hreq in Hwf. destruct (meta_of t f) as [[]|]; [|done].
      by rewrite bool_decide_false in Hwf by apply not_elem_of_nil.
  - assert (sees_clear t b b1) as Hsee.
    { split_and!; try done. intros i f Hf Hclear.
      destruct (batch_ok_lookup b i f (w_batch _ _ _ _ Hw) Hf) as (a & Ha & _). rewrite Ha.
      destruct (Hw1 i f a Hf Ha) as (a' & -> & Hwf). f_equal. by eapply written_clear. }
    destruct (second_layer t _ b b1 as_ es _ fields Hw Hcols Hok1 Hs1 Hr1 Hw1 (Hitems b1 Hsee))
      as (out & Hout & Hbo & Hso & Hro & Hlk & Hextra).
    assert (projection_schema index_type index_nullable
      (table_layer (in_layer_2 t) t es (batch_schema b) ++ index_items strategies)
      (layer_field (in_layer_1 t) t <$> batch_schema b) =
      Ok ((layer_field (fun _ => true) t <$> batch_schema b) ++ fields)) as Hschema.
    { unfold projection_schema. rewrite result_mapM_app. unfold table_layer.
      rewrite (layer_names _ t (batch_schema b) (layer_field (in_layer_1 t) t <$> batch_schema b))
        by (symmetry; apply layer_field_names).
      pose proof (table_layer_schema index_type index_nullable (in_layer_2 t) t es
        (layer_field (in_layer_1 t) t <$> batch_schema b)) as Htl. unfold projection_schema, table_layer in Htl.
      rewrite Htl. cbn [result_bind]. unfold projection_schema in Hfields. rewrite Hfields. cbn [result_bind].
      do 2 f_equal. rewrite <- list_fmap_compose. apply list_fmap_ext. intros; apply layer_field_both. }
    unfold index_items in *. rewrite Hschema. cbn [result_bind].
    do 3 eexists. exists out. split; [done|]. cbn [run_plan]. rewrite Hb1. cbn [result_bind]. rewrite Hout.
    split; [done|]. split; [by split_and!; eauto|]. split; [|by rewrite Hso, length_take, <- take_take, firstn_all].
    intros str j p Hstr' Hj. unfold strategies_of in Hstr'. rewrite Hstr in Hstr'. injection Hstr' as <-.
    destruct (projection_schema_lookup _ _ _ j p Hfields Hj) as (f & Hf & Hfn).
    destruct (Forall2_lookup_lr _ _ _ _ _ _ (Hitems b1 Hsee) Hj Hf (length (batch_schema b) + j)) as (v & Hv & _).
    exists b1, v, f. split_and!; try done; [by apply Hextra with p|].
    rewrite Hso, lookup_app_r; rewrite length_fmap; [|lia].
    by replace (length (batch_schema b) + j - length (batch_schema b)) with j by lia.
Qed.

(** ** Reading the rows back *)

(** A scan of the rows that were written: each column it returns was sent under its
    name, or is a column in clear that the write does not send. *)
Record scan_of t (b out rb : RecordBatch) : Prop := {
  scan_batch : batch_ok rb;
  scan_rows : batch_rows rb = batch_rows b;
  scan_columns j g : batch_schema rb !! j = Some g ->
    (exists i f, batch_schema b !! i = Some f /\ field_name f = field_name g /\
      target_column (field_name f) = field_name f /\ batch_columns rb !! j = batch_columns out !! i) \/
    (get_column_metadata t (field_name g) = None /\ field_name g ∉ field_name <$> batch_schema b);
  scan_key n : row_binding_aad (encryption_metadata t) = true -> n ∈ primary_key t ->
    is_Some (index_of n (batch_schema rb))
}.

Lemma index_of_nodup n fs i f :
  NoDup (field_name <$> fs) -> fs !! i = Some f -> field_name f = n -> index_of n fs = Some i.
Proof.
  intros Hnd Hf Hn. unfold index_of. destruct (list_find (fun f => field_name f = n) fs) as [[j g]|] eqn:Hl.
  - apply list_find_Some in Hl as (Hg & Hgn & _). cbn. f_equal.
    eapply (NoDup_lookup _ _ _ n Hnd); rewrite list_lookup_fmap; [by rewrite Hg; cbn; f_equal|by rewrite Hf; cbn; f_equal].
  - apply list_find_None in Hl. rewrite Forall_forall in Hl. by apply (Hl f (list_elem_of_lookup_2 _ _ _ Hf)) in Hn.
Qed.

Lemma scan_aad t b out rb as_ :
  writable t None b as_ -> NoDup (field_name <$> batch_schema b) -> encrypts_batch t b out as_ -> scan_of t b out rb ->
  aad_arrays t None rb as_.
Proof.
  intros Hw Hnd (_ & _ & _ & Hout) Hs. pose proof (w_key _ _ _ _ Hw) as Hk. unfold aad_arrays in *.
  destruct (row_binding_aad _) eqn:Hrb; [|done]. apply (Forall2_impl_elem _ _ _ _ Hk).
  intros n a Hn (i & Hi & Ha). cbn in *. destruct (scan_key _ _ _ _ Hs n Hrb Hn) as [j Hj]. exists j. split; [done|].
  destruct (index_of_field _ _ _ Hj) as (g & Hg & Hgn).
  destruct (scan_columns _ _ _ _ Hs j g Hg) as [(i' & f & Hf & Hfn & _ & ->)|[_ Hno]].
  2:{ destruct (index_of_field _ _ _ Hi) as (f & Hf & Hfn). cbn in Hfn. contradict Hno. rewrite Hgn, <- Hfn.
      apply list_elem_of_fmap. eauto using list_elem_of_lookup_2. }
  assert (i' = i) as ->.
  { assert (index_of n (batch_schema b) = Some i') by (eapply index_of_nodup; [done|done|congruence]). congruence. }
  destruct (Hout i f a Hf Ha) as (a' & -> & Hwf). f_equal. eapply written_clear; [|done]. right. unfold meta_of.
  pose proof (w_key_clear _ _ _ _ Hw n Hn) as Hc. cbn [aad_name] in Hc. by rewrite Hfn, Hgn, Hc.
Qed.

Lemma project_decrypt_lookup t fs aad j :
  project_decrypt (table_reference t) fs
    ((fun f => (fun meta => (field_name f, original_type meta)) <$> get_column_metadata t (field_name f)) <$> fs) aad !! j =
  (fun f => {| pe_expr := match get_column_metadata t (field_name f) with
                          | None => PColumn (field_name f) j
                          | Some meta =>
                              PFromBinary (original_type meta) (field_nullable f)
                                (PDecrypt (PColumn (X := X) (field_name f) j) (PComputeAad aad (original_type meta))
                                   (TableColumn (table_reference t) (field_name f)))
                          end;
               pe_alias := field_name f |}) <$> fs !! j.
Proof.
  unfold project_decrypt. rewrite list_lookup_imap, lookup_zip_with, list_lookup_fmap.
  destruct (fs !! j) as [f|]; [|done]. cbn. by destruct (get_column_metadata t (field_name f)).
Qed.

(** The schema of the rows in clear. *)
Definition decrypted_field t (f : Field) : Field :=
  match get_column_metadata t (field_name f) with
  | Some meta => {| field_name := field_name f; field_type := original_type meta; field_nullable := field_nullable f;
                    field_metadata := ∅ |}
  | None => f
  end.

Lemma decrypt_projection_schema t fs ps :
  decrypt_projection t fs = Ok ps ->
  projection_schema index_type index_nullable ps fs = Ok (decrypted_field t <$> fs).
Proof.
  unfold decrypt_projection. intros Hp. inv_ok. apply result_mapM_fmap.
  - unfold project_decrypt. rewrite length_imap, length_zip_with, !length_fmap. lia.
  - intros j p f. rewrite project_decrypt_lookup, list_lookup_fmap. destruct (fs !! j) as [g|] eqn:Hg; [|done].
    cbn [fmap option_fmap option_map]. intros [= <-] [= <-]. unfold projection_field, decrypted_field. cbn [pe_expr pe_alias].
    destruct (get_column_metadata t (field_name g)); cbn; [done|]. rewrite Hg. cbn. by destruct g.
Qed.

Lemma decrypted_matches t b out rb j g a l as_ aad :
  batch_ok b -> encrypts_batch t b out as_ -> scan_of t b out rb -> batch_schema rb !! j = Some g ->
  (exists i f, batch_schema b !! i = Some f /\ field_name f = field_name g /\
    target_column (field_name f) = field_name f /\ batch_columns rb !! j = batch_columns out !! i /\
    batch_columns b !! i = Some a /\ column_ready t f a) ->
  (forall dt, eval_at l j (PComputeAad aad dt) rb = Ok (aad_pval (batch_rows b) as_ dt)) ->
  eval_at l j (match get_column_metadata t (field_name g) with
               | None => PColumn (field_name g) j
               | Some meta =>
                   PFromBinary (original_type meta) (field_nullable g)
                     (PDecrypt (PColumn (field_name g) j) (PComputeAad aad (original_type meta))
                        (TableColumn (table_reference t) (field_name g)))
               end) rb = Ok (PArray a) /\
  column_matches (batch_rows rb) (decrypted_field t g) a = true.
Proof.
  intros Hb (_ & _ & _ & Hout) Hs Hg (i & f & Hf & Hfn & Htc & Hcol & Ha & Hr) Haad.
  destruct (Hout i f a Hf Ha) as (a' & Ha' & Hwf). rewrite Ha' in Hcol.
  destruct (batch_ok_lookup rb j g (scan_batch _ _ _ _ Hs) Hg) as (a1 & Ha1 & Hm1).
  destruct (batch_ok_lookup b i f Hb Hf) as (a2 & Ha2 & Hm2).
  assert (a1 = a' /\ a2 = a) as [-> ->] by (split; congruence).
  unfold decrypted_field. unfold written, column_ready, meta_of in Hwf, Hr. rewrite Htc, Hfn in Hwf, Hr.
  destruct (get_column_metadata t (field_name g)) as [meta|]; cbn in Hwf, Hr.
  - destruct Hwf as (enc & -> & Hnulls & Hdec). destruct Hr as (Hty & _ & _).
    unfold column_matches in Hm1, Hm2 |- *. cbn [field_type field_nullable].
    apply andb_true_iff in Hm2 as [[Hdt%bool_decide_eq_true Hl%bool_decide_eq_true]%andb_true_iff _].
    apply andb_true_iff in Hm1 as [_ Hn1].
    assert (original_type meta = data_type a) as Hot by congruence. split.
    + rewrite Hot. unfold eval_at. apply Hdec; [done|]. rewrite <- Hot. apply Haad.
    + rewrite (scan_rows _ _ _ _ Hs), Hl, Hot, !bool_decide_true by done. cbn. destruct (field_nullable g); [done|].
      cbn in *. clear -Hnulls Hn1. induction Hnulls as [|x y vs enc Hxy _ IH]; [done|]. cbn in *.
      apply andb_true_iff in Hn1 as [Hy Hn1]. rewrite IH by done. rewrite andb_true_r. apply bool_decide_eq_true, Hxy.
      apply bool_decide_eq_true in Hy. by destruct y; [eexists|destruct Hy].
  - subst a'. split; [|done]. unfold eval_at. cbn. by rewrite Ha1.
Qed.

(** The rows of a scan, decrypted. *)
Definition reads_back t (b rb : RecordBatch) : Prop :=
  exists ps fields res,
    decrypt_projection t (batch_schema rb) = Ok ps /\
    projection_schema index_type index_nullable ps (batch_schema rb) = Ok fields /\
    project (eval_at 0) fields ps rb = Ok res /\ batch_rows res = batch_rows b /\
    forall j g i f, batch_schema rb !! j = Some g -> batch_schema b !! i = Some f -> field_name f = field_name g ->
      batch_columns res !! j = batch_columns b !! i.

Lemma scan_reads_back t prefix b out rb as_ :
  writable t prefix b as_ -> NoDup (field_name <$> batch_schema b) -> encrypts_batch t b out as_ -> scan_of t b out rb ->
  aad_arrays t None rb as_ -> reads_back t b rb.
Proof.
  intros Hw Hnd Henc Hs Hk. destruct (aad_exprs t None rb as_ Hk) as (es & Hes & Hc).
  assert (columns_are es rb as_) as Hcol by (apply Hc; intros ? ? ? ?; done).
  pose proof (fun j dt => aad_pval_eval es rb as_ 0 j dt _ Hcol (w_key_short _ _ _ _ Hw) (w_source _ _ _ _ Hw)
    (scan_rows _ _ _ _ Hs)) as Hva.
  assert (exists ps, decrypt_projection t (batch_schema rb) = Ok ps /\ ps = project_decrypt (table_reference t) (batch_schema rb)
    ((fun f => (fun meta => (field_name f, original_type meta)) <$> get_column_metadata t (field_name f)) <$> batch_schema rb) es)
    as (ps & Hps & Heq) by (unfold decrypt_projection; rewrite Hes; by eexists).
  assert (forall j g i f a, batch_schema rb !! j = Some g -> batch_schema b !! i = Some f -> field_name f = field_name g ->
    batch_columns b !! i = Some a ->
    exists p, ps !! j = Some p /\ eval_at 0 j (pe_expr p) rb = Ok (PArray a) /\
      column_matches (batch_rows rb) (decrypted_field t g) a = true) as Hitem.
  { intros j g i f a Hg Hf Hfn Ha. rewrite Heq. setoid_rewrite project_decrypt_lookup. rewrite Hg. eexists. split; [done|].
    apply (decrypted_matches t b out rb j g a 0 as_ es (w_batch _ _ _ _ Hw) Henc Hs Hg); [|by intros; apply Hva].
    destruct (scan_columns _ _ _ _ Hs j g Hg) as [(i' & f' & Hf' & Hfn' & Htc & Hcols)|[_ Hno]].
    2:{ contradict Hno. rewrite <- Hfn. apply list_elem_of_fmap. eauto using list_elem_of_lookup_2. }
    assert (i' = i) as ->.
    { eapply (NoDup_lookup _ _ _ (field_name g) Hnd); rewrite list_lookup_fmap; [rewrite Hf'|rewrite Hf]; cbn; congruence. }
    exists i, f'. split_and!; try done. by apply (w_ready _ _ _ _ Hw i). }
  destruct (project_ok (eval_at 0) ps (decrypted_field t <$> batch_schema rb) rb) as (res & Hres & _ & _ & Hrows & Hlk).
  - rewrite Heq. unfold project_decrypt. rewrite length_imap, length_zip_with, !length_fmap. lia.
  - intros j p f Hp Hf. rewrite list_lookup_fmap in Hf. destruct (batch_schema rb !! j) as [g|] eqn:Hg; [|done].
    injection Hf as <-. destruct (scan_columns _ _ _ _ Hs j g Hg) as [(i & f & Hf & Hfn & _ & _)|[Hno _]].
    2:{ rewrite Heq, project_decrypt_lookup, Hg in Hp. injection Hp as <-. unfold decrypted_field. cbn [pe_expr]. rewrite Hno.
        destruct (batch_ok_lookup rb j g (scan_batch _ _ _ _ Hs) Hg) as (a & Ha & Hm). exists (PArray a).
        unfold eval_at. cbn. by rewrite Ha. }
    destruct (batch_ok_lookup b i f (w_batch _ _ _ _ Hw) Hf) as (a & Ha & _).
    destruct (Hitem j g i f a Hg Hf Hfn Ha) as (p' & Hp' & Hv & Hm). exists (PArray a). by simplify_eq.
  - exists ps, (decrypted_field t <$> batch_schema rb), res.
    split_and!; [done|by apply decrypt_projection_schema|done|by rewrite Hrows; apply (scan_rows _ _ _ _ Hs)|].
    intros j g i f Hg Hf Hfn. destruct (batch_ok_lookup b i f (w_batch _ _ _ _ Hw) Hf) as (a & Ha & _).
    destruct (Hitem j g i f a Hg Hf Hfn Ha) as (p & Hp & Hv & _). rewrite Ha. apply (Hlk j p _ Hp Hv).
Qed.

(** C10: Updated rows are encrypted and read back, as long as the update keeps the
    primary key: the associated data are computed from the key columns that select
    the rows, and a scan computes them from the key columns of the rows. *)
Theorem update_then_read t b as_ :
  writable t (Some FILTER_PREFIX) b as_ -> indices_accept t true b -> NoDup (field_name <$> batch_schema b) ->
  exists plan insert_schema sinks out,
    project_insert_update index_type index_nullable t (batch_schema b) true = Ok (plan, insert_schema, sinks) /\
    run_plan eval_at 0 plan b = Ok out /\ encrypts_batch t b out as_ /\
    forall rb, scan_of t b out rb -> aad_arrays t None rb as_ -> reads_back t b rb.
Proof.
  intros Hw Hi Hnd. destruct (project_insert_update_encrypts t true b as_ Hw Hi) as (plan & sch & sinks & out & Hp & Hr & He & _ & _).
  exists plan, sch, sinks, out. split_and!; try done. intros rb Hs Hk. by eapply scan_reads_back.
Qed.
End RoundTrip.

(** ** Insertions, with the hidden row identifiers *)

Lemma run_plan_later {X} (eval : nat -> nat -> PhysExpr (X := X) -> RecordBatch -> result PVal) plan l b :
  run_plan eval (S l) plan b = run_plan (fun l => eval (S l)) l plan b.
Proof.
  revert l b. induction plan as [|[fields ps] plan IH]; intros l b; [done|]. cbn [run_plan].
  destruct (project _ _ _ _) as [b'|]; [|done]. cbn [result_bind]. apply IH.
Qed.

(** The layers of a plan after its first [k]. *)
Definition later {A} (k : nat) (draws : nat -> nat -> nat -> A) (l i n : nat) : A := draws (k + l) i n.

Section Insertion.
Context {X S : Type} `{ArrowCastLaws} `{AeadLaws} `{Hkdf} {tag_size : nat} `{!AeadTag tag_size}.
Variable master_key : bytes.
Variable cast_array : Array -> DataType -> result Array.
Variable type_name : DataType -> bytes.
Variable buffer_memory : BinaryArray -> nat.
Variable nonces : nat -> nat -> nat -> bytes.
Variable fill_bytes : nat -> nat -> nat -> bytes.
Variable index_evaluate : X -> RecordBatch -> result PVal.
Variable index_type : X -> list Field -> result DataType.
Variable index_nullable : X -> list Field -> result bool.
Hypothesis buffer_memory_enough : forall b, length (plain_bytes b) <= buffer_memory b.
Hypothesis nonces_length : forall l i k, length (nonces l i k) = NONCE_LEN.

Implicit Type t : MySqlTableProvider (X := X) (S := S).

Abbreviation eval_at := (eval_at (X := X) (tag_size := tag_size) master_key cast_array type_name buffer_memory
  nonces fill_bytes index_evaluate).

Definition hidden_row_id t : option RowIdColumn :=
  match row_id_column (encryption_metadata t) with
  | Some r => if is_hidden r then Some r else None
  | None => None
  end.

Definition row_id_field (r : RowIdColumn) : Field :=
  {| field_name := rowid_name r; field_type := DtBinary; field_nullable := false; field_metadata := ∅ |}.

(** The batch that the columns are encrypted in: with the identifiers of its rows,
    if the table hides them. *)
Definition with_row_ids t (b : RecordBatch) (ids : list bytes) : RecordBatch :=
  match hidden_row_id t with
  | Some r => {| batch_schema := batch_schema b ++ [row_id_field r];
                 batch_columns := batch_columns b ++ [binary_array (Some <$> ids)];
                 batch_rows := batch_rows b |}
  | None => b
  end.

(** The identifiers that are computed for the rows of the batch: derived from the
    bytes of the key columns in its row, or drawn at random for all rows at once. *)
Definition row_ids t (b : RecordBatch) (ids : list bytes) : Prop :=
  length ids = batch_rows b /\
  forall r, hidden_row_id t = Some r ->
    match rowid_source r with
    | DirectPrimaryKey _ => False
    | DerivedFromPrimaryColumns cols => exists arrays,
        Forall2 (fun c enc => exists i a, index_of c (batch_schema b) = Some i /\ batch_columns b !! i = Some a /\
                                to_binary_evaluate a = Ok enc) cols arrays /\
        forall j id, ids !! j = Some id -> exists input, rowid_input arrays j = Ok input /\
          id = get_identifier_generator master_key (RowIdColumnCtx (table_reference t)) input (size_bytes (rowid_size r))
    | RandomGenerated => 0 < batch_rows b ->
        ids = (fun j => take (size_bytes (rowid_size r)) (drop (j * size_bytes (rowid_size r))
                 (fill_bytes 0 (length (batch_schema b)) (batch_rows b * size_bytes (rowid_size r)))))
              <$> seq 0 (batch_rows b)
    end.

(** The hidden column is not given by the batch, and the key columns it is derived
    from are. *)
Definition row_ids_ready t (b : RecordBatch) : Prop :=
  forall r, hidden_row_id t = Some r ->
    get_column_metadata t (target_column (rowid_name r)) = None /\ (rowid_name r ∉ field_name <$> batch_schema b) /\
    match rowid_source r with
    | DirectPrimaryKey _ => False
    | DerivedFromPrimaryColumns cols =>
        Forall (fun c => exists i a, index_of c (batch_schema b) = Some i /\ batch_columns b !! i = Some a /\
                  encodable (data_type a) = true /\ array_ok a) cols
    | RandomGenerated => True
    end.

(** The layers before those that encrypt. *)
Definition row_id_layers t : nat := if hidden_row_id t is Some _ then 1 else 0.

Lemma with_row_ids_rows t b ids : batch_rows (with_row_ids t b ids) = batch_rows b.
Proof. unfold with_row_ids. by destruct (hidden_row_id t). Qed.

Lemma index_of_app n fs gs i : index_of n fs = Some i -> index_of n (fs ++ gs) = Some i.
Proof.
  unfold index_of. intros ([j f] & Hf & ->)%fmap_Some. by erewrite list_find_app_l.
Qed.

Lemma binary_ids_matches r rows (ids : list bytes) :
  length ids = rows -> column_matches rows (row_id_field r) (binary_array (Some <$> ids)) = true.
Proof.
  intros Hl. unfold column_matches. cbn. rewrite !length_map, !bool_decide_true by done. cbn.
  clear Hl. induction ids as [|id ids IH]; [done|]. cbn. by rewrite IH.
Qed.

(** The batch with the identifiers can be written when the batch can. *)
Lemma with_row_ids_writable t b as_ ids :
  writable t None b as_ -> row_ids_ready t b -> length ids = batch_rows b -> writable t None (with_row_ids t b ids) as_.
Proof.
  unfold with_row_ids, row_ids_ready. destruct (hidden_row_id t) as [r|]; [|done].
  intros Hw Hr Hl. destruct (Hr r eq_refl) as (Hclear & _ & _). destruct Hw as [Hb Hready Hkey Hkc Hsrc Hshort].
  pose proof (batch_ok_length b Hb) as Hlen. split; try done.
  - unfold batch_ok. apply try_new_ok; cbn; [rewrite !length_app, Hlen; cbn; lia|].
    intros i f a Hf Ha. apply lookup_app_Some in Hf as [Hf|[Hge Hf]].
    + rewrite lookup_app_l in Ha by (rewrite <- Hlen; by eapply lookup_lt_Some).
      destruct (batch_ok_lookup b i f Hb Hf) as (a' & Ha' & Hm). by simplify_eq.
    + rewrite lookup_app_r in Ha by lia. rewrite Hlen in Hf. apply list_lookup_singleton_Some in Hf as [Hi <-].
      rewrite Hi in Ha. injection Ha as <-. by apply binary_ids_matches.
  - cbn. intros i f a Hf Ha. apply lookup_app_Some in Hf as [Hf|[Hge Hf]].
    + rewrite lookup_app_l in Ha by (rewrite <- Hlen; by eapply lookup_lt_Some). by apply (Hready i).
    + apply list_lookup_singleton_Some in Hf as [_ <-]. unfold column_ready, meta_of. cbn [field_name row_id_field]. by rewrite Hclear.
  - unfold aad_arrays in *. destruct (row_binding_aad _); [|done]. apply (Forall2_impl _ _ _ _ Hkey).
    cbn. intros n a (i & Hi & Ha). exists i. split; [by apply index_of_app|].
    by rewrite lookup_app_l by by eapply lookup_lt_Some.
Qed.

Lemma with_row_ids_names t b ids :
  row_ids_ready t b -> NoDup (field_name <$> batch_schema b) ->
  NoDup (field_name <$> batch_schema (with_row_ids t b ids)).
Proof.
  unfold with_row_ids, row_ids_ready. destruct (hidden_row_id t) as [r|]; [|done].
  intros Hr Hnd. destruct (Hr r eq_refl) as (_ & Hno & _). cbn. rewrite fmap_app. apply NoDup_app.
  split_and!; [done| |apply NoDup_singleton]. intros n Hn ->%list_elem_of_singleton. done.
Qed.

Lemma rowid_input_ok (arrays : list BinaryArray) rows j :
  Forall (fun c => length c = rows) arrays -> j < rows -> exists input, rowid_input arrays j = Ok input.
Proof. intros Hl Hj. unfold rowid_input. destruct (values_at_ok arrays rows j Hl Hj) as [vs ->]. by eexists. Qed.

Lemma compute_rowid_rows gen size (arrays : list BinaryArray) rows :
  Forall (fun c => length c = rows) arrays ->
  exists ids, compute_rowid gen size arrays rows = Ok (CvArray (Some <$> ids)) /\ length ids = rows /\
    forall j id, ids !! j = Some id -> exists input, rowid_input arrays j = Ok input /\ id = gen input size.
Proof.
  intros Hl. unfold compute_rowid.
  assert (forall n s, s + n <= rows ->
    exists ids, result_mapM (fun i => let? buffer := rowid_input arrays i in Ok (Some (gen buffer size))) (seq s n)
      = Ok (Some <$> ids) /\ length ids = n /\
    forall j id, ids !! j = Some id -> exists input, rowid_input arrays (s + j) = Ok input /\ id = gen input size) as Hm.
  { induction n as [|n IH]; intros s Hs; [by exists []|]. cbn [seq result_mapM].
    destruct (rowid_input_ok arrays rows s Hl ltac:(lia)) as [input Hi]. rewrite Hi. cbn [result_bind].
    destruct (IH (Datatypes.S s) ltac:(lia)) as (ids & -> & Hn & Hids). cbn [result_bind].
    exists (gen input size :: ids). split; [done|]. split; [cbn; lia|].
    intros [|j] id Hj; cbn in Hj; [injection Hj as <-; rewrite Nat.add_0_r; eauto|].
    rewrite <- Nat.add_succ_comm. by apply Hids. }
  destruct (Hm rows 0 ltac:(lia)) as (ids & -> & Hn & Hids). by exists ids.
Qed.

Lemma as_columnar_array v bin :
  as_columnar v = Ok (CvArray bin) -> exists a, v = PArray a /\ as_binary_array a = Ok bin.
Proof. destruct v as [a|]; cbn [as_columnar]; intros Hv; inv_ok; [by exists a|done]. Qed.

(** The columns a row identifier is derived from, as bytes. *)
Lemma key_arrays b cols l i :
  batch_ok b ->
  Forall (fun c => exists i a, index_of c (batch_schema b) = Some i /\ batch_columns b !! i = Some a /\
            encodable (data_type a) = true /\ array_ok a) cols ->
  exists children arrays,
    result_mapM (fun cn => let? c := col cn (batch_schema b) in Ok (PToBinary (X := X) c)) cols = Ok children /\
    (let? vs := result_mapM (fun c => eval_at l i c b) children in
     result_mapM (fun v => as_binary_array (into_array (batch_rows b) v)) vs) = Ok arrays /\
    Forall2 (fun c enc => exists i a, index_of c (batch_schema b) = Some i /\ batch_columns b !! i = Some a /\
               to_binary_evaluate a = Ok enc) cols arrays /\
    Forall (fun c => length c = batch_rows b) arrays.
Proof.
  intros Hb. induction 1 as [|c cols (k & a & Hk & Ha & He & Hao) _ (children & arrays & Hch & Hev & HF & HL)].
  { exists [], []. by split_and!. }
  destruct (column_to_binary (tag_size := tag_size) master_key cast_array type_name buffer_memory (nonces l i) (fill_bytes l i) index_evaluate
    b a c k Ha He Hao) as (bin & Hbin & Hlen & _ & _ & Hto).
  assert (length bin = batch_rows b) as Hlb.
  { destruct (index_of_field _ _ _ Hk) as (f & Hf & _). destruct (batch_ok_lookup b k f Hb Hf) as (a' & Ha' & Hm).
    simplify_eq. unfold column_matches in Hm. apply andb_true_iff in Hm as [[_ Hm]%andb_true_iff _].
    apply bool_decide_eq_true in Hm. lia. }
  exists (PToBinary (PColumn c k) :: children), (bin :: arrays). cbn [result_mapM]. unfold col at 1. rewrite Hk.
  cbn [result_bind]. rewrite Hch. cbn [result_bind]. split; [done|].
  unfold WriteRead.eval_at in *.
  destruct (evaluate _ _ _ _ _ _ _ _ (PToBinary (PColumn c k)) b) as [v|] eqn:Hv; [|done].
  apply as_columnar_array in Hto as (a' & -> & Hbin').
  destruct (result_mapM _ children) as [vs|]; [|done]. cbn [result_bind result_mapM into_array] in Hev |- *.
  rewrite Hbin'. cbn [result_bind]. rewrite Hev. split; [done|]. split; constructor; eauto.
Qed.

(** The hidden column can be computed. *)
Lemma row_ids_computed t b r :
  batch_ok b -> hidden_row_id t = Some r -> row_ids_ready t b ->
  exists gen ids v,
    compute_rowid_expr r (RowIdColumnCtx (table_reference t)) (batch_schema b) = Ok (Some gen) /\
    projection_field index_type index_nullable (batch_schema b) gen = Ok (row_id_field r) /\ row_ids t b ids /\
    eval_at 0 (length (batch_schema b)) (pe_expr gen) b = Ok v /\
    into_array (batch_rows b) v = binary_array (Some <$> ids).
Proof.
  intros Hb Hr Hready. destruct (Hready r Hr) as (_ & _ & Hsrc). unfold compute_rowid_expr, row_ids. rewrite Hr.
  destruct (rowid_source r) as [dt|cols|] eqn:Hs; [done| |].
  - destruct (key_arrays b cols 0 (length (batch_schema b)) Hb Hsrc) as (children & arrays & -> & Hev & HF & HL).
    destruct (compute_rowid_rows (get_identifier_generator master_key (RowIdColumnCtx (table_reference t)))
      (size_bytes (rowid_size r)) arrays (batch_rows b) HL) as (ids & Hids & Hl & Hid).
    cbn [result_bind]. eexists _, ids, (of_columnar (CvArray (Some <$> ids))). split; [done|].
    unfold projection_field, row_id_field. cbn. split; [done|]. split.
    + split; [done|]. intros r' [= <-]. rewrite Hs. by exists arrays.
    + split; [|done]. unfold WriteRead.eval_at. cbn [evaluate].
      destruct (result_mapM (fun c => evaluate _ _ _ _ _ _ _ _ c b) children) as [vs|] eqn:Hvs;
        unfold WriteRead.eval_at in Hev; rewrite Hvs in Hev; [|done]. cbn [result_bind] in *. rewrite Hev.
      cbn [result_bind]. by rewrite Hids.
  - set (sz := size_bytes (rowid_size r)).
    exists {| pe_expr := PGenRandomRowId (rowid_size r); pe_alias := rowid_name r |},
      ((fun j => take sz (drop (j * sz) (fill_bytes 0 (length (batch_schema b)) (batch_rows b * sz))))
         <$> seq 0 (batch_rows b)),
      (gen_arr (fill_bytes 0 (length (batch_schema b))) (rowid_size r) (batch_rows b)).
    split_and!; try done.
    + by rewrite length_fmap, length_seq.
    + intros r' [= <-]. by rewrite Hs.
    + unfold gen_arr. case_bool_decide as Hz; [by rewrite Hz|]. cbn [into_array]. f_equal.
      by rewrite <- list_fmap_compose.
Qed.

Lemma columns_schema (fs : list Field) :
  projection_schema index_type index_nullable
    (imap (fun idx f => {| pe_expr := PColumn (field_name f) idx; pe_alias := field_name f |}) fs) fs = Ok fs.
Proof.
  unfold projection_schema. apply result_mapM_fmap; [by rewrite length_imap|].
  intros i p f. rewrite list_lookup_imap. intros Hp Hf. rewrite Hf in Hp. injection Hp as <-.
  unfold projection_field. cbn. rewrite Hf. cbn. by destruct f.
Qed.

(** The layer that adds the hidden column. *)
Lemma row_id_layer_runs t b r gen ids v :
  batch_ok b -> hidden_row_id t = Some r -> length ids = batch_rows b ->
  eval_at 0 (length (batch_schema b)) (pe_expr gen) b = Ok v ->
  into_array (batch_rows b) v = binary_array (Some <$> ids) ->
  project (eval_at 0) (batch_schema b ++ [row_id_field r])
    (imap (fun idx f => {| pe_expr := PColumn (field_name f) idx; pe_alias := field_name f |}) (batch_schema b) ++ [gen]) b
  = Ok (with_row_ids t b ids).
Proof.
  intros Hb Hr Hl Hv Hids. set (add := _ ++ [gen]).
  assert (forall i p, add !! i = Some p ->
    exists v, eval_at 0 i (pe_expr p) b = Ok v /\
      (batch_columns b ++ [binary_array (Some <$> ids)]) !! i = Some (into_array (batch_rows b) v)) as Hitem.
  { intros i p Hp. apply lookup_app_Some in Hp as [Hp|[Hge Hp]].
    - rewrite list_lookup_imap in Hp. destruct (batch_schema b !! i) as [f|] eqn:Hf; [|done]. injection Hp as <-.
      destruct (batch_ok_lookup b i f Hb Hf) as (a & Ha & _). exists (PArray a).
      unfold WriteRead.eval_at. cbn. rewrite Ha. split; [done|]. by apply lookup_app_l_Some.
    - rewrite length_imap in Hge, Hp. apply list_lookup_singleton_Some in Hp as [Hi <-].
      assert (i = length (batch_schema b)) as -> by lia. exists v. split; [done|].
      by rewrite (batch_ok_length b Hb), list_lookup_middle, Hids. }
  destruct (project_columns_ok (eval_at 0) add b 0) as (cs & Hcs & Hlc & Hlk).
  { intros j p Hp. destruct (Hitem j p Hp) as (w & Hw & _). by exists w. }
  assert (cs = batch_columns b ++ [binary_array (Some <$> ids)]) as ->.
  { apply list_eq. intros j. destruct (add !! j) as [p|] eqn:Hp.
    - destruct (Hitem j p Hp) as (w & Hw & ->). by apply (Hlk j p).
    - rewrite !(proj2 (lookup_ge_None _ _)); [done|..]; apply lookup_ge_None in Hp; [|lia].
      revert Hp. unfold add. rewrite !length_app, length_imap, (batch_ok_length b Hb). done. }
  unfold project. rewrite Hcs. cbn [result_bind]. unfold with_row_ids. rewrite Hr. apply try_new_ok.
  - rewrite !length_app, (batch_ok_length b Hb). done.
  - intros i f a Hf Ha. apply lookup_app_Some in Hf as [Hf|[Hge Hf]].
    + destruct (batch_ok_lookup b i f Hb Hf) as (a' & Ha' & Hm).
      rewrite lookup_app_l in Ha by by eapply lookup_lt_Some. by simplify_eq.
    + apply list_lookup_singleton_Some in Hf as [Hi <-].
      rewrite lookup_app_r in Ha by (rewrite <- (batch_ok_length b Hb); lia).
      rewrite <- (batch_ok_length b Hb), Hi in Ha. injection Ha as <-. by apply binary_ids_matches.
Qed.

(** [insert_into] adds the layer and plans the rest on its schema. *)
Lemma row_ids_step t b as_ :
  writable t None b as_ -> row_ids_ready t b ->
  exists ids, row_ids t b ids /\
    forall plan sch sinks out,
      project_insert_update index_type index_nullable t (batch_schema (with_row_ids t b ids)) false = Ok (plan, sch, sinks) ->
      run_plan (fun l => eval_at (row_id_layers t + l)) 0 plan (with_row_ids t b ids) = Ok out ->
      exists plan', insert_into index_type index_nullable t (batch_schema b) = Ok (plan', sch, sinks) /\
        run_plan eval_at 0 plan' b = Ok out.
Proof.
  intros Hw Hr. unfold insert_into. destruct (hidden_row_id t) as [r|] eqn:Hh.
  - destruct (row_ids_computed t b r (w_batch _ _ _ _ Hw) Hh Hr) as (gen & ids & v & Hgen & Hfield & Hids & Hv & Ha).
    pose proof (row_id_layer_runs t b r gen ids v (w_batch _ _ _ _ Hw) Hh (proj1 Hids) Hv Ha) as Hrun.
    exists ids. split; [done|]. intros plan sch sinks out Hp Ho.
    assert (batch_schema (with_row_ids t b ids) = batch_schema b ++ [row_id_field r]) as Hsc
      by (unfold with_row_ids; by rewrite Hh).
    unfold row_id_layers in Ho. rewrite Hh in Ho. unfold hidden_row_id in Hh.
    destruct (row_id_column _) as [r'|]; [|done]. destruct (is_hidden r') eqn:Hhid; [|done]. injection Hh as ->.
    rewrite Hgen. cbn [result_bind ok_or].
    assert (projection_schema index_type index_nullable
      (imap (fun idx f => {| pe_expr := PColumn (field_name f) idx; pe_alias := field_name f |}) (batch_schema b) ++ [gen])
      (batch_schema b) = Ok (batch_schema b ++ [row_id_field r])) as ->.
    { unfold projection_schema. rewrite result_mapM_app. pose proof (columns_schema (batch_schema b)) as Hcs.
      unfold projection_schema in Hcs. rewrite Hcs. cbn [result_bind result_mapM]. by rewrite Hfield. }
    cbn [result_bind]. rewrite <- Hsc, Hp. cbn [result_bind]. eexists. split; [done|]. cbn [run_plan].
    rewrite Hsc, Hrun. cbn [result_bind]. by rewrite run_plan_later.
  - exists (replicate (batch_rows b) []). split.
    { split; [by rewrite length_replicate|]. by rewrite Hh. }
    unfold with_row_ids, row_id_layers. rewrite Hh. unfold hidden_row_id in Hh. intros plan sch sinks out Hp Ho. exists plan.
    split; [|done]. destruct (row_id_column _) as [r|]; [|done]. by destruct (is_hidden r).
Qed.

(** C2: Inserted rows are encrypted and read back. When the batch holds the primary
    key in clear (if rows are bound to it), its columns have the types of the
    metadata and can be encoded, and the indices accept it (a blind index refuses a
    NULL, [null_not_inserted_with_blind_index]), [insert_into] gives a plan that
    runs to the end: the hidden identifiers are added if the table has them, each
    column that has metadata is sent encrypted and each other as it is; and the
    decryption of any scan of these rows gives the columns that were inserted. *)
Theorem insert_then_read t b as_ :
  writable t None b as_ -> row_ids_ready t b -> NoDup (field_name <$> batch_schema b) ->
  (forall ids, row_ids t b ids ->
    indices_accept (tag_size := tag_size) master_key cast_array type_name buffer_memory (later (row_id_layers t) nonces)
      (later (row_id_layers t) fill_bytes) index_evaluate index_type index_nullable t false (with_row_ids t b ids)) ->
  exists ids plan insert_schema sinks out,
    row_ids t b ids /\
    insert_into index_type index_nullable t (batch_schema b) = Ok (plan, insert_schema, sinks) /\
    run_plan eval_at 0 plan b = Ok out /\
    encrypts_batch (tag_size := tag_size) master_key cast_array type_name buffer_memory index_evaluate t
      (with_row_ids t b ids) out as_ /\
    take (length insert_schema) (batch_schema out) = insert_schema /\
    forall rb, scan_of t (with_row_ids t b ids) out rb ->
      reads_back (tag_size := tag_size) master_key cast_array type_name buffer_memory nonces fill_bytes index_evaluate
        index_type index_nullable t (with_row_ids t b ids) rb.
Proof.
  intros Hw Hr Hnd Hi. destruct (row_ids_step t b as_ Hw Hr) as (ids & Hids & Hplan).
  destruct (project_insert_update_encrypts master_key cast_array type_name buffer_memory (later (row_id_layers t) nonces)
    (later (row_id_layers t) fill_bytes) index_evaluate index_type index_nullable buffer_memory_enough
    ltac:(intros; apply nonces_length) t false (with_row_ids t b ids) as_)
    as (plan & sch & sinks & out & Hp & Hrun & He & _ & Ht);
    [by apply with_row_ids_writable; [| |apply Hids]|by apply Hi|].
  destruct (Hplan plan sch sinks out Hp Hrun) as (plan' & Hp' & Hrun').
  exists ids, plan', sch, sinks, out. split_and!; try done. intros rb Hs.
  assert (writable t None (with_row_ids t b ids) as_) as Hw' by (by apply with_row_ids_writable; [| |apply Hids]).
  pose proof (with_row_ids_names t b ids Hr Hnd) as Hnd'.
  eapply scan_reads_back; try done. by eapply scan_aad.
Qed.
End Insertion.

(** ** A concrete table *)

#[local] Existing Instances demo_aead demo_aead_laws demo_kdf.

(** An index that stores whether there is a value. *)
Definition demo_index : WriteIndex (X := unit) (S := unit) := {|
  tracked_columns := ["born"];
  wi_insert _ := Ok (AddColumns [{| pe_expr := PIndexExpr tt; pe_alias := "has_born" |}]);
  wi_update _ := Ok (AddColumns [{| pe_expr := PIndexExpr tt; pe_alias := "has_born" |}]);
  requires_external_storage := false;
  wi_column_hidden n := bool_decide (n = "has_born")
|}.

Definition demo_index_evaluate (x : unit) (b : RecordBatch) : result PVal :=
  match batch_columns b !! 1 with
  | Some a => Ok (PArray {| data_type := DtBoolean;
                            values := (fun v => Some (VBool (bool_decide (is_Some v)))) <$> values a |})
  | None => Err (ExecError "no column")
  end.

Definition demo_provider (row_id : option RowIdColumn) : MySqlTableProvider (X := unit) (S := unit) := {|
  table_reference := demo_table_ref;
  table_schema := [];
  encryption_metadata :=
    {| encrypted_columns := {[ "born" := {| original_type := DtDate32; original_type_raw := "DATE";
                                            default_value_raw := None; meta_nullable := true; collation := None |} ]};
       tm_indices := [demo_index]; row_id_column := row_id; row_binding_aad := true |};
  primary_key := ["id"]
|}.

Definition demo_field (n : string) (dt : DataType) (nullable : bool) : Field :=
  {| field_name := n; field_type := dt; field_nullable := nullable; field_metadata := ∅ |}.

Definition demo_ids : Array := {| data_type := DtInt32; values := [Some (VPrim 1); Some (VPrim 2)] |}.
Definition demo_dates : Array := {| data_type := DtDate32; values := [Some (VPrim (-3)); None] |}.

Definition demo_batch (key : string) : RecordBatch := {|
  batch_schema := [demo_field key DtInt32 false; demo_field "born" DtDate32 true];
  batch_columns := [demo_ids; demo_dates];
  batch_rows := 2
|}.

Definition demo_eval : nat -> nat -> PhysExpr (X := unit) -> RecordBatch -> result PVal :=
  eval_at (tag_size := 16) [] (fun a _ => Ok a) (fun _ => []) (fun b => length (plain_bytes b))
    (fun _ _ _ => replicate 12 Byte.x00) (fun _ _ n => replicate n Byte.x00) demo_index_evaluate.

Lemma demo_writable row_id prefix :
  (prefix = None \/ prefix = Some FILTER_PREFIX) ->
  writable (demo_provider row_id) prefix (demo_batch (aad_name prefix "id")) [demo_ids].
Proof.
  intros Hp. split.
  - destruct Hp as [-> | ->]; vm_compute; reflexivity.
  - intros i f a Hf Ha. destruct i as [|[|i]]; [| |done]; injection Hf as <-; injection Ha as <-.
    + by destruct Hp as [-> | ->].
    + split; [done|]. split; [done|]. repeat constructor; cbn; discriminate.
  - unfold aad_arrays. cbn [row_binding_aad encryption_metadata demo_provider primary_key].
    constructor; [|constructor]. exists 0. split; [|done]. by destruct Hp as [-> | ->].
  - intros n Hn. cbn in Hn. apply list_elem_of_singleton in Hn as ->. by destruct Hp as [-> | ->].
  - constructor; [|constructor]. split_and!; [done| |done]. repeat constructor; cbn; discriminate.
  - cbn. lia.
Qed.

Lemma demo_accept row_id is_update key ids :
  key = "id" \/ key = FILTER_PREFIX +:+ "id" -> (exists cols, row_id = Some (fst (rowid_computed cols))) \/ row_id = None ->
  indices_accept (tag_size := 16) [] (fun a _ => Ok a) (fun _ => []) (fun b => length (plain_bytes b))
    (fun _ _ _ => replicate 12 Byte.x00) (fun _ _ n => replicate n Byte.x00) demo_index_evaluate
    (fun _ _ => Ok DtBoolean) (fun _ _ => Ok false) (demo_provider row_id) is_update
    (with_row_ids (demo_provider row_id) (demo_batch key) ids).
Proof.
  intros Hkey Hid. eexists _, [demo_field "has_born" DtBoolean false].
  split; [by destruct is_update|]. split; [done|]. intros b1 (Hok & Hrows & Hs & Hclear).
  constructor; [|constructor]. intros i. unfold eval_at. cbn [pe_expr evaluate].
  assert (batch_columns b1 !! 1 = Some demo_dates) as Hc.
  { rewrite (Hclear 1 (demo_field "born" DtDate32 true)); [|by destruct Hid as [[cols ->] | ->]|by left].
    by destruct Hid as [[cols ->] | ->]. }
  unfold demo_index_evaluate. rewrite Hc. eexists. split; [done|]. rewrite Hrows.
  by destruct Hid as [[cols ->] | ->].
Qed.

(** A table whose hidden identifiers are derived from its key. *)
Definition demo_hidden : MySqlTableProvider (X := unit) (S := unit) := demo_provider (Some (fst (rowid_computed ["id"]))).

Lemma insert_then_read_witness :
  exists ids plan insert_schema sinks out,
    row_ids [] (fun _ _ n => replicate n Byte.x00) demo_hidden (demo_batch "id") ids /\
    insert_into (fun _ _ => Ok DtBoolean) (fun _ _ => Ok false) demo_hidden
      (batch_schema (demo_batch "id")) = Ok (plan, insert_schema, sinks) /\
    run_plan demo_eval 0 plan (demo_batch "id") = Ok out /\
    (field_name <$> insert_schema) = ["id"; "born"; "__sf_rowid"; "has_born"] /\
    reads_back (tag_size := 16) [] (fun a _ => Ok a) (fun _ => []) (fun b => length (plain_bytes b))
      (fun _ _ _ => replicate 12 Byte.x00) (fun _ _ n => replicate n Byte.x00) demo_index_evaluate
      (fun _ _ => Ok DtBoolean) (fun _ _ => Ok false) demo_hidden (with_row_ids demo_hidden (demo_batch "id") ids)
      {| batch_schema := take 2 (batch_schema out); batch_columns := take 2 (batch_columns out); batch_rows := 2 |}.
Proof.
  destruct (insert_then_read (tag_size := 16) [] (fun a _ => Ok a) (fun _ => []) (fun b => length (plain_bytes b))
      (fun _ _ _ => replicate 12 Byte.x00) (fun _ _ n => replicate n Byte.x00) demo_index_evaluate
      (fun _ _ => Ok DtBoolean) (fun _ _ => Ok false) ltac:(reflexivity) ltac:(reflexivity)
      demo_hidden (demo_batch "id") [demo_ids])
    as (ids & plan & sch & sinks & out & Hids & Hp & Hr & He & Ht & Hread).
  - apply (demo_writable _ None). by left.
  - intros r [= <-]. split; [reflexivity|]. split; [apply (bool_decide_unpack _); by vm_compute|].
    constructor; [|constructor]. exists 0, demo_ids. split_and!; [done..|]. repeat constructor; cbn; discriminate.
  - apply (bool_decide_unpack _). by vm_compute.
  - intros ids _. apply demo_accept; [by left|left; by eexists].
  - exists ids, plan, sch, sinks, out. split; [exact Hids|]. split; [exact Hp|]. split; [exact Hr|].
    assert (Hp' := Hp). vm_compute in Hp'. injection Hp' as <- <- <-. split; [reflexivity|].
    vm_compute in Hr. injection Hr as <-. apply Hread. split; [by vm_compute|reflexivity| |].
    + intros j g Hg. left. destruct j as [|[|j]]; [| |done]; injection Hg as <-.
      * by exists 0, (demo_field "id" DtInt32 false).
      * by exists 1, (demo_field "born" DtDate32 true).
    + intros n _ Hn. cbn in Hn. apply list_elem_of_singleton in Hn as ->. by exists 0.
Defined.

Lemma update_then_read_witness :
  exists plan insert_schema sinks out,
    project_insert_update (fun _ _ => Ok DtBoolean) (fun _ _ => Ok false) (demo_provider None)
      (batch_schema (demo_batch "__pr_flt__id")) true = Ok (plan, insert_schema, sinks) /\
    run_plan demo_eval 0 plan (demo_batch "__pr_flt__id") = Ok out /\
    reads_back (tag_size := 16) [] (fun a _ => Ok a) (fun _ => []) (fun b => length (plain_bytes b))
      (fun _ _ _ => replicate 12 Byte.x00) (fun _ _ n => replicate n Byte.x00) demo_index_evaluate
      (fun _ _ => Ok DtBoolean) (fun _ _ => Ok false) (demo_provider None) (demo_batch "__pr_flt__id")
      {| batch_schema := [demo_field "id" DtInt32 false; demo_field "born" DtBinary true];
         batch_columns := demo_ids :: take 1 (drop 1 (batch_columns out)); batch_rows := 2 |}.
Proof.
  destruct (update_then_read (tag_size := 16) [] (fun a _ => Ok a) (fun _ => []) (fun b => length (plain_bytes b))
      (fun _ _ _ => replicate 12 Byte.x00) (fun _ _ n => replicate n Byte.x00) demo_index_evaluate
      (fun _ _ => Ok DtBoolean) (fun _ _ => Ok false) ltac:(reflexivity) ltac:(reflexivity)
      (demo_provider None) (demo_batch "__pr_flt__id") [demo_ids])
    as (plan & sch & sinks & out & Hp & Hr & He & Hread).
  - apply (demo_writable None (Some FILTER_PREFIX)). by right.
  - apply (demo_accept None true _ []); [by right|by right].
  - apply (bool_decide_unpack _). by vm_compute.
  - exists plan, sch, sinks, out. split; [exact Hp|]. split; [exact Hr|].
    assert (Hp' := Hp). vm_compute in Hp'. injection Hp' as <- <- <-.
    vm_compute in Hr. injection Hr as <-. apply Hread.
    + split; [by vm_compute|reflexivity| |].
      * intros j g Hg. destruct j as [|[|j]]; [right|left|done]; injection Hg as <-.
        -- split; [done|]. apply (bool_decide_unpack _). by vm_compute.
        -- by exists 1, (demo_field "born" DtDate32 true).
      * intros n _ Hn. cbn in Hn. apply list_elem_of_singleton in Hn as ->. by exists 0.
    + constructor; [|constructor]. by exists 0.
Defined.
