(* ===== verification/ColumnarWrites.v ===== *)
(** * Writes to tables with blind and range indices

    The expressions that a blind and a range index add to the projections of a
    write ([backends/mysql/src/metadata/blind_index.rs],
    [metadata/indices/range_queries.rs]), as indices of WritePath.v. A write to a
    table with such indices sends, beside the encrypted columns, the identifiers
    and the bucket numbers that the filters of BlindIndex.v and RangeIndex.v
    look for. *)
From S2P Require Import Prelude Values Filters Sql Text Crypto ArrowCodec ColumnCrypto BlindIndex RangeIndex SqlSchema PhysicalExprs RowId TableMeta WritePath WriteRead Indices.

(** ** Expressions *)

(** The source of an index is an expression over the batch without indices. *)
Abbreviation SourceExpr := (PhysExpr (X := Empty_set)).

Record BlindIndexExpr := {
  generator : IdentifierContext;
  be_size_bits : nat;
  source_column : SourceExpr
}.

Record RangeIndexExpr := { re_cfg : RangeIndexValues; source_expr : SourceExpr }.

Inductive ColumnarExpr := BlindExpr (e : BlindIndexExpr) | RangeExpr (e : RangeIndexExpr).

(** [data_type], [nullable], [children] and [with_new_children] of the blind index. *)
Definition blind_data_type (_ : list Field) : result DataType := Ok DtBinary.

Definition blind_nullable (_ : list Field) : result bool := Ok false.

Definition blind_children (e : BlindIndexExpr) : list SourceExpr := [source_column e].

Definition blind_with_new_children (e : BlindIndexExpr) (children : list SourceExpr) : result BlindIndexExpr :=
  match children with
  | [c] => Ok {| generator := generator e; be_size_bits := be_size_bits e; source_column := c |}
  | _ => Err (PlanError "Invalid number of children")
  end.

(** Those of the range index; its nullability is the one of the first field of
    the input. *)
Definition range_data_type (_ : list Field) : result DataType := Ok DtUInt32.

Definition range_nullable (input : list Field) : result bool :=
  match input with
  | f :: _ => Ok (field_nullable f)
  | [] => Err (Panic "index out of bounds")
  end.

Definition range_children (e : RangeIndexExpr) : list SourceExpr := [source_expr e].

Definition range_with_new_children (e : RangeIndexExpr) (children : list SourceExpr) : result RangeIndexExpr :=
  match children with
  | [c] => Ok {| re_cfg := re_cfg e; source_expr := c |}
  | _ => Err (PlanError "invalid number of children for RangeIndexExpr")
  end.

Definition columnar_data_type (x : ColumnarExpr) (input_schema : list Field) : result DataType :=
  match x with BlindExpr _ => blind_data_type input_schema | RangeExpr _ => range_data_type input_schema end.

Definition columnar_nullable (x : ColumnarExpr) (input_schema : list Field) : result bool :=
  match x with BlindExpr _ => blind_nullable input_schema | RangeExpr _ => range_nullable input_schema end.

(** ** Evaluation *)

(** The primitive values of an array; the arrays of other types have none. *)
Definition prim_array (a : Array) : result PrimArray :=
  let? vs := match native (data_type a) with
             | Some _ => map_slots as_primitive (values a)
             | None => Ok ((fun _ => None) <$> values a)
             end in
  Ok {| arr_type := data_type a; arr_values := vs |}.

Definition of_prim_array (p : PrimArray) : Array :=
  {| data_type := arr_type p; values := (option_map VPrim) <$> arr_values p |}.

(** [RangeIndexExpr::for_array]. *)
Definition range_array (cfg : RangeIndexValues) (a : Array) : result Array :=
  let? p := prim_array a in
  let? out := range_for_array cfg p in
  Ok (of_prim_array out).

Section Evaluate.
Context `{ArrowCast} `{Aead} `{Hkdf}.
Variable master_key : bytes.
Variable tag_size : nat.
Variable cast_array : Array -> DataType -> result Array.
Variable type_name : DataType -> bytes.
Variable buffer_memory : BinaryArray -> nat.
Variable nonces : nat -> bytes.
Variable fill_bytes : nat -> bytes.

Definition identifier_hex (e : BlindIndexExpr) (v : bytes) : bytes :=
  string_bytes (get_opaque_stable_identifier_hex (get_identifier_generator master_key (generator e)) v (be_size_bits e)).

(** [BlindIndexExpr::for_array]. *)
Definition blind_array (e : BlindIndexExpr) (a : Array) : result Array :=
  let? arr := as_binary_array a in
  Ok (binary_array (map (option_map (identifier_hex e)) arr)).

Definition source_evaluate : SourceExpr -> RecordBatch -> result PVal :=
  evaluate master_key tag_size cast_array type_name buffer_memory nonces fill_bytes (fun x : Empty_set => match x with end).

(** [evaluate] of the two expressions. *)
Definition blind_expr_evaluate (e : BlindIndexExpr) (batch : RecordBatch) : result PVal :=
  let? parent := source_evaluate (source_column e) batch in
  on_columnar (blind_array e) parent.

Definition range_expr_evaluate (e : RangeIndexExpr) (batch : RecordBatch) : result PVal :=
  let? parent := source_evaluate (source_expr e) batch in
  on_columnar (range_array (re_cfg e)) parent.

Definition columnar_evaluate (x : ColumnarExpr) (batch : RecordBatch) : result PVal :=
  match x with
  | BlindExpr e => blind_expr_evaluate e batch
  | RangeExpr e => range_expr_evaluate e batch
  end.
End Evaluate.

(** ** The indices of a table *)

Inductive ColumnarIndex := CBlind (ix : BlindIndex) | CRange (ix : RangeIndex).

Definition ci_column (ix : ColumnarIndex) : string :=
  match ix with CBlind ix => BlindIndex.indexed_column ix | CRange ix => RangeIndex.indexed_column ix end.

Definition ci_index_column (ix : ColumnarIndex) : string :=
  match ix with CBlind ix => BlindIndex.index_column_name ix | CRange ix => RangeIndex.index_column_name ix end.

Section Indices.
Context {S : Type}.
Variable table : TableRef.

(** [insert]: nothing when the tracked column is absent. *)
Definition blind_index_insert (ix : BlindIndex) (schema : list Field) :
    result (IndexInsertStrategy (X := ColumnarExpr) (S := S)) :=
  match index_of (BlindIndex.indexed_column ix) schema with
  | None => Ok (AddColumns [])
  | Some i =>
      let sink := {| source_column := PToBinary (PColumn (BlindIndex.indexed_column ix) i);
                     be_size_bits := size_bits ix; generator := identifier_context ix table |} in
      Ok (AddColumns [{| pe_expr := PIndexExpr (BlindExpr sink); pe_alias := BlindIndex.index_column_name ix |}])
  end.

Definition range_index_insert (ix : RangeIndex) (schema : list Field) :
    result (IndexInsertStrategy (X := ColumnarExpr) (S := S)) :=
  match index_of (RangeIndex.indexed_column ix) schema with
  | None => Ok (AddColumns [])
  | Some i =>
      let sink := {| source_expr := PColumn (RangeIndex.indexed_column ix) i; re_cfg := cfg ix |} in
      Ok (AddColumns [{| pe_expr := PIndexExpr (RangeExpr sink); pe_alias := RangeIndex.index_column_name ix |}])
  end.

Definition columnar_insert (ix : ColumnarIndex) : list Field -> result (IndexInsertStrategy (X := ColumnarExpr) (S := S)) :=
  match ix with CBlind ix => blind_index_insert ix | CRange ix => range_index_insert ix end.

(** Both keep the [update] of the trait, which is [insert]. *)
Definition columnar_write_index (ix : ColumnarIndex) : WriteIndex (X := ColumnarExpr) (S := S) := {|
  tracked_columns := [ci_column ix];
  wi_insert := columnar_insert ix;
  wi_update := columnar_insert ix;
  requires_external_storage := false;
  wi_column_hidden column := bool_decide (column = ci_index_column ix)
|}.

(** The expression over the tracked column at a position, and its item. *)
Definition columnar_expr (ix : ColumnarIndex) (i : nat) : ColumnarExpr :=
  match ix with
  | CBlind ix =>
      BlindExpr {| generator := identifier_context ix table; be_size_bits := size_bits ix;
                   source_column := PToBinary (PColumn (BlindIndex.indexed_column ix) i) |}
  | CRange ix => RangeExpr {| re_cfg := cfg ix; source_expr := PColumn (RangeIndex.indexed_column ix) i |}
  end.

Definition columnar_item (schema : list Field) (ix : ColumnarIndex) : option (ProjectionExpr (X := ColumnarExpr)) :=
  (fun i => {| pe_expr := PIndexExpr (columnar_expr ix i); pe_alias := ci_index_column ix |})
  <$> index_of (ci_column ix) schema.

Lemma columnar_insert_item ix schema :
  columnar_insert ix schema = Ok (AddColumns (from_option (fun p => [p]) [] (columnar_item schema ix))).
Proof.
  unfold columnar_item. destruct ix as [ix|ix]; cbn; unfold blind_index_insert, range_index_insert;
    by destruct (index_of _ schema).
Qed.
End Indices.

(** ** Evaluating the items *)

(** The types that a range index accepts. *)
Definition range_supported (dt : DataType) : bool :=
  match dt with
  | DtInt8 | DtInt16 | DtInt32 | DtInt64 | DtUInt8 | DtUInt16 | DtUInt32 | DtUInt64
  | DtTimestamp _ _ | DtDate32 | DtDate64 | DtTime32 (Second | Millisecond) | DtTime64 (Microsecond | Nanosecond)
  | DtDecimal32 _ _ | DtDecimal64 _ _ => true
  | _ => false
  end.

Lemma range_supported_native dt : range_supported dt = true -> is_Some (native dt).
Proof. destruct dt; cbn; try done; try (by eexists); case_match; try done; by eexists. Qed.

Lemma range_for_array_conv cfg dt vs :
  range_supported dt = true ->
  range_for_array cfg {| arr_type := dt; arr_values := vs |} = range_eval_array cfg (conv dt) vs.
Proof. destruct dt; try done; cbn; case_match; done. Qed.

(** The buckets of values whose buckets can be computed. *)
Lemma range_eval_ok cfg f vs :
  (forall z, exists i, value_to_indexable cfg z = Ok i) ->
  exists out, range_eval_array cfg f vs = Ok {| arr_type := DtUInt32; arr_values := out |} /\
    Forall2 (fun v o => match v with
                        | Some z => exists i, o = Some i /\ value_to_indexable cfg (f z) = Ok i
                        | None => o = None
                        end) vs out.
Proof.
  intros Hv. unfold range_eval_array. induction vs as [|v vs (out & Hout & HF)]; [by exists []|]. cbn.
  apply result_bind_ok in Hout as (out' & Hout & [= ->]). rewrite Hout.
  destruct v as [z|]; cbn.
  - destruct (Hv (f z)) as [i Hi]. rewrite Hi. cbn. eexists. split; [done|]. constructor; [by exists i|done].
  - eexists. split; [done|]. by constructor.
Qed.

(** Values of a primitive type. *)
Lemma prim_slots `{ArrowCast} dt vs :
  is_Some (native dt) -> Forall (fun v => match v with Some v => value_ok dt v | None => True end) vs ->
  exists zs, map_slots as_primitive vs = Ok zs /\ vs = (option_map VPrim) <$> zs.
Proof.
  intros Hn. unfold map_slots. induction 1 as [|v vs Hv _ (zs & Hzs & ->)]; [by exists []|]. cbn. rewrite Hzs.
  destruct v as [v|]; [|by exists (None :: zs)].
  destruct v; [by exists (Some z :: zs)|..]; exfalso; destruct Hn as [n Hn]; unfold value_ok in Hv;
    destruct dt; try done; destruct Hv; congruence.
Qed.

(** A column of a batch as a range index stores it. *)
Definition bucket_values (cfg : RangeIndexValues) (a stored : Array) : Prop :=
  data_type stored = DtUInt32 /\
  Forall2 (fun v o => match v with
                      | Some v => exists z i, v = VPrim z /\ value_to_indexable cfg (conv (data_type a) z) = Ok i /\ o = Some (VPrim i)
                      | None => o = None
                      end) (values a) (values stored).

Lemma range_array_ok `{ArrowCast} cfg a :
  range_supported (data_type a) = true -> array_ok a -> (forall z, exists i, value_to_indexable cfg z = Ok i) ->
  exists stored, range_array cfg a = Ok stored /\ bucket_values cfg a stored.
Proof.
  intros Hs Ha Hv. pose proof (range_supported_native _ Hs) as Hn.
  destruct (prim_slots _ _ Hn Ha) as (zs & Hzs & Hvs).
  unfold range_array, prim_array. destruct Hn as [n Hn]. rewrite Hn, Hzs. cbn [result_bind].
  rewrite range_for_array_conv by done. destruct (range_eval_ok cfg (conv (data_type a)) zs Hv) as (out & Hout & HF).
  rewrite Hout. cbn [result_bind]. eexists. split; [done|]. split; [done|]. unfold of_prim_array. cbn [values arr_values].
  rewrite Hvs. apply Forall2_fmap. apply (Forall2_impl _ _ _ _ HF). intros [z|] o; cbn; [|by intros ->].
  intros (i & -> & Hi). by exists z, i.
Qed.

Lemma bucket_values_nulls cfg a stored : bucket_values cfg a stored -> same_nulls (values a) (values stored).
Proof.
  intros [_ HF]. apply (Forall2_impl _ _ _ _ HF). intros [v|] o; cbn.
  - intros (z & i & _ & _ & ->). split; by eexists.
  - intros ->. done.
Qed.

Lemma same_nulls_all {A B} (l : list (option A)) (k : list (option B)) :
  same_nulls l k -> forallb (fun v => bool_decide (is_Some v)) l = forallb (fun v => bool_decide (is_Some v)) k.
Proof.
  induction 1 as [|x y l k Hxy _ IH]; [done|]. cbn. rewrite IH. f_equal. by apply bool_decide_ext.
Qed.

(** ** Indices accept the batches of a write *)

Section Writes.
Context {S : Type} `{ArrowCastLaws} `{AeadLaws} `{Hkdf} {tag_size : nat} `{!AeadTag tag_size}.
Variable master_key : bytes.
Variable cast_array : Array -> DataType -> result Array.
Variable type_name : DataType -> bytes.
Variable buffer_memory : BinaryArray -> nat.
Variable nonces : nat -> nat -> nat -> bytes.
Variable fill_bytes : nat -> nat -> nat -> bytes.
(** Random bytes of the expressions that are sources of an index, which draw none. *)
Variable source_nonces : nat -> bytes.
Variable source_fill : nat -> bytes.
Hypothesis buffer_memory_enough : forall b, length (plain_bytes b) <= buffer_memory b.
Hypothesis nonces_length : forall l i k, length (nonces l i k) = NONCE_LEN.

Implicit Type t : MySqlTableProvider (X := ColumnarExpr) (S := S).

Definition index_evaluate : ColumnarExpr -> RecordBatch -> result PVal :=
  columnar_evaluate master_key tag_size cast_array type_name buffer_memory source_nonces source_fill.

Abbreviation eval_write :=
  (eval_at (tag_size := tag_size) master_key cast_array type_name buffer_memory nonces fill_bytes index_evaluate).
Abbreviation accepts :=
  (indices_accept (tag_size := tag_size) master_key cast_array type_name buffer_memory nonces fill_bytes index_evaluate
     columnar_data_type columnar_nullable).

(** All the indices of the table are blind and range indices. *)
Definition columnar_table t (ixs : list ColumnarIndex) : Prop :=
  tm_indices (encryption_metadata t) = columnar_write_index (table_reference t) <$> ixs.

Definition no_nulls (a : Array) : bool := forallb (fun v => bool_decide (is_Some v)) (values a).

(** What the index stores for a column. *)
Definition index_values (table : TableRef) (ix : ColumnarIndex) (a stored : Array) : Prop :=
  match ix with
  | CBlind ix =>
      exists bin, to_binary_evaluate a = Ok bin /\
        stored = binary_array (map (option_map (fun v => string_bytes (blind_identifier master_key ix table v))) bin)
  | CRange ix => bucket_values (cfg ix) a stored
  end.

(** A column that an index can store: a blind index hashes what can be encoded and
    takes no NULL; a range index needs buckets that can be computed, and takes
    NULLs when the first column of the batch is nullable. *)
Definition index_ready (ix : ColumnarIndex) (b : RecordBatch) (a : Array) : Prop :=
  array_ok a /\
  match ix with
  | CBlind _ => encodable (data_type a) = true /\ no_nulls a = true
  | CRange ix =>
      range_supported (data_type a) = true /\ (forall z, exists i, value_to_indexable (cfg ix) z = Ok i) /\
      (no_nulls a = true \/ exists f, batch_schema b !! 0 = Some f /\ field_nullable f = true)
  end.

Definition indices_ready (ixs : list ColumnarIndex) (b : RecordBatch) : Prop :=
  forall ix i a, ix ∈ ixs -> index_of (ci_column ix) (batch_schema b) = Some i -> batch_columns b !! i = Some a ->
    index_ready ix b a.

Lemma encode_length a bin : to_binary_evaluate a = Ok bin -> encodable (data_type a) = true -> length bin = length (values a).
Proof. intros Hb He. rewrite to_binary_encode in Hb by done. apply encode_nulls in Hb. by apply Forall2_length in Hb. Qed.

(** The item of an index evaluates to what the index stores, of the type that it declares. *)
Lemma columnar_item_evaluates t ix b b1 i j a f :
  index_ready ix b a -> batch_columns b1 !! i = Some a -> length (values a) = batch_rows b1 ->
  field_type f = match ix with CBlind _ => DtBinary | CRange _ => DtUInt32 end ->
  field_nullable f = match ix with CBlind _ => false
                     | CRange _ => match batch_schema b with g :: _ => field_nullable g | [] => false end end ->
  exists stored, eval_write 1 j (PIndexExpr (columnar_expr (table_reference t) ix i)) b1 = Ok (PArray stored) /\
    index_values (table_reference t) ix a stored /\ column_matches (batch_rows b1) f stored = true.
Proof.
  intros [Hok Hready] Ha Hl Hft Hfn. unfold eval_at. cbn [evaluate]. unfold index_evaluate.
  destruct ix as [ix|ix]; cbn [columnar_expr columnar_evaluate source_column source_expr]; unfold blind_expr_evaluate, range_expr_evaluate; cbn [source_column source_expr].
  - destruct Hready as [He Hnn].
    destruct (column_to_binary (tag_size := tag_size) master_key cast_array type_name buffer_memory source_nonces source_fill
      (fun x : Empty_set => match x with end) b1 a (BlindIndex.indexed_column ix) i Ha He Hok)
      as (bin & Hbin & Hlb & Hnulls & _ & Hev).
    assert (exists bin', source_evaluate master_key tag_size cast_array type_name buffer_memory source_nonces source_fill
      (PToBinary (PColumn (BlindIndex.indexed_column ix) i)) b1 = Ok bin' /\ as_columnar bin' = Ok (ArrowCodec.CvArray bin)) as (v & Hv & Hvc)
      by (by apply result_bind_ok in Hev).
    rewrite Hv. cbn [result_bind]. unfold as_columnar in Hvc. destruct v as [arr|dt v]; [|by inv_ok].
    apply result_bind_ok in Hvc as (bin' & Hbin' & [= ->]). cbn [on_columnar]. unfold blind_array. rewrite Hbin'.
    cbn [result_bind]. eexists. split; [done|]. split; [by exists bin|]. unfold column_matches.
    rewrite Hft, Hfn. cbn. rewrite !length_map, !bool_decide_true by (done || congruence). cbn.
    unfold no_nulls in Hnn. rewrite (same_nulls_all _ bin Hnulls) in Hnn. rewrite <- Hnn. clear.
    induction bin as [|[x|] bin IH]; cbn; [done|by rewrite IH|done].
  - destruct Hready as (Hs & Hv & Hnull). destruct (range_array_ok (cfg ix) a Hs Hok Hv) as (stored & Hst & Hbv).
    unfold source_evaluate. cbn [evaluate]. rewrite Ha. cbn [result_bind on_columnar re_cfg]. rewrite Hst. cbn [result_bind].
    exists stored. split; [done|]. split; [done|]. pose proof (bucket_values_nulls _ _ _ Hbv) as Hnulls.
    unfold column_matches. rewrite Hft, Hfn. destruct Hbv as [Hdt _].
    rewrite !bool_decide_true by (done || (apply Forall2_length in Hnulls; congruence)). cbn.
    rewrite <- (same_nulls_all _ _ Hnulls). unfold no_nulls in Hnull.
    destruct Hnull as [->|(g & Hg & Hgn)]; [apply orb_true_r|].
    destruct (batch_schema b); [done|]. injection Hg as ->. by rewrite Hgn.
Qed.

(** The items of the indices that track a column of the batch. *)
Definition columnar_items t (ixs : list ColumnarIndex) (fields : list Field) : list (ProjectionExpr (X := ColumnarExpr)) :=
  omap (columnar_item (table_reference t) fields) ixs.

Lemma columnar_strategies t ixs is_update fields :
  columnar_table t ixs ->
  exists strategies, strategies_of t is_update fields = Ok strategies /\
    index_items strategies = columnar_items t ixs fields.
Proof.
  unfold columnar_table, strategies_of. intros ->.
  exists ((fun ix => AddColumns (from_option (fun p => [p]) [] (columnar_item (table_reference t) fields ix))) <$> ixs). split.
  - apply result_mapM_fmap; [by rewrite !length_fmap|]. intros i w s. rewrite !list_lookup_fmap.
    destruct (ixs !! i) as [ix|]; [|done]. intros [= <-] [= <-]. destruct is_update; apply columnar_insert_item.
  - unfold index_items, columnar_items. induction ixs as [|ix ixs IH]; [done|]. cbn in *.
    destruct (columnar_item _ _ ix); cbn; by rewrite IH.
Qed.

Definition item_field (fields : list Field) (ix : ColumnarIndex) : Field :=
  {| field_name := ci_index_column ix;
     field_type := match ix with CBlind _ => DtBinary | CRange _ => DtUInt32 end;
     field_nullable := match ix with CBlind _ => false
                       | CRange _ => match fields with g :: _ => field_nullable g | [] => false end end;
     field_metadata := ∅ |}.

Lemma columnar_item_field t ix fields fields1 p :
  columnar_item (table_reference t) fields ix = Some p -> field_nullable <$> fields1 = field_nullable <$> fields ->
  projection_field columnar_data_type columnar_nullable fields1 p = Ok (item_field fields ix).
Proof.
  unfold columnar_item. destruct (index_of _ fields) as [i|] eqn:Hi; [|done]. intros [= <-] Hn.
  destruct (index_of_field _ _ _ Hi) as (f & Hf & _). unfold projection_field.
  destruct ix as [ix|ix]; [done|]. cbn. destruct fields as [|g fields]; [done|].
  destruct fields1 as [|g1 fields1]; [done|]. injection Hn as Hn _. cbn. by rewrite Hn.
Qed.

Lemma layer_field_nullable sel t (fields : list Field) :
  field_nullable <$> (layer_field sel t <$> fields) = field_nullable <$> fields.
Proof.
  rewrite <- list_fmap_compose. apply list_fmap_ext. intros i f _. cbn. unfold layer_field.
  by destruct (meta_of t f), (sel (field_name f)).
Qed.

(** The columns that the indices track are in clear when their items are evaluated. *)
Lemma tracked_in_clear t ixs ix b b1 i :
  columnar_table t ixs -> ix ∈ ixs -> index_of (ci_column ix) (batch_schema b) = Some i -> sees_clear t b b1 ->
  batch_columns b1 !! i = batch_columns b !! i.
Proof.
  intros Ht Hix Hi (_ & _ & _ & Hclear). destruct (index_of_field _ _ _ Hi) as (f & Hf & Hfn).
  apply (Hclear i f Hf). left. unfold in_layer_1. rewrite bool_decide_true; [done|].
  unfold requested_cleartext_columns. rewrite Ht. rewrite Hfn. apply list_elem_of_bind.
  exists (columnar_write_index (table_reference t) ix). split; [left|]. by apply list_elem_of_fmap_2.
Qed.

(** The item of an index whose column is in a batch that can be written. *)
Lemma columnar_item_stores t ixs ix b b1 i j a :
  columnar_table t ixs -> batch_ok b -> indices_ready ixs b -> sees_clear t b b1 -> ix ∈ ixs ->
  index_of (ci_column ix) (batch_schema b) = Some i -> batch_columns b !! i = Some a ->
  exists stored, eval_write 1 j (PIndexExpr (columnar_expr (table_reference t) ix i)) b1 = Ok (PArray stored) /\
    index_values (table_reference t) ix a stored /\
    column_matches (batch_rows b1) (item_field (batch_schema b) ix) stored = true.
Proof.
  intros Ht Hb Hready Hsee Hix Hi Ha. pose proof Hsee as (_ & Hrows & _ & _).
  destruct (index_of_field _ _ _ Hi) as (f & Hf & _). destruct (batch_ok_lookup b i f Hb Hf) as (a' & Ha' & Hm).
  assert (a' = a) as -> by congruence.
  apply (columnar_item_evaluates t ix b b1 i j a); [by eapply Hready|by rewrite (tracked_in_clear t ixs ix b b1)| |done|done].
  unfold column_matches in Hm. apply andb_true_iff in Hm as [[_ Hl%bool_decide_eq_true]%andb_true_iff _]. congruence.
Qed.

Lemma columnar_indices_accept t ixs is_update b :
  columnar_table t ixs -> batch_ok b -> indices_ready ixs b -> accepts t is_update b.
Proof.
  intros Ht Hb Hready. destruct (columnar_strategies t ixs is_update (batch_schema b) Ht) as (strategies & Hs & Hitems).
  exists strategies, (omap (fun ix => (fun _ => item_field (batch_schema b) ix) <$>
    columnar_item (table_reference t) (batch_schema b) ix) ixs).
  split; [exact Hs|]. rewrite Hitems. split.
  - unfold columnar_items, projection_schema. clear Ht Hready Hs Hitems. induction ixs as [|ix ixs IH]; [done|]. cbn.
    destruct (columnar_item _ _ ix) as [p|] eqn:Hp; cbn; [|done].
    rewrite (columnar_item_field t ix (batch_schema b) _ p Hp (layer_field_nullable _ t _)), IH. done.
  - intros b1 Hsee. assert (forall ix, ix ∈ ixs -> forall i, index_of (ci_column ix) (batch_schema b) = Some i ->
      forall j, exists v, eval_write 1 j (PIndexExpr (columnar_expr (table_reference t) ix i)) b1 = Ok v /\
      column_matches (batch_rows b1) (item_field (batch_schema b) ix) (into_array (batch_rows b1) v) = true) as Hitem.
    { intros ix Hix i Hi j. destruct (index_of_field _ _ _ Hi) as (f & Hf & _).
      destruct (batch_ok_lookup b i f Hb Hf) as (a & Ha & _).
      destruct (columnar_item_stores t ixs ix b b1 i j a) as (stored & Hv & _ & Hm); try done. by exists (PArray stored). }
    clear Ht Hready Hs Hitems. unfold columnar_items. induction ixs as [|ix ixs IH]; [constructor|]. cbn.
    destruct (columnar_item _ _ ix) as [p|] eqn:Hp; cbn.
    + unfold columnar_item in Hp. destruct (index_of (ci_column ix) (batch_schema b)) as [i|] eqn:Hi; [|done].
      injection Hp as <-. constructor; [by apply (Hitem ix ltac:(left))|].
      apply IH. intros ix' Hix'. apply Hitem. by right.
    + apply IH. intros ix' Hix'. apply Hitem. by right.
Qed.

(** What a write sends for the indices. *)
Definition stores_indices t (ixs : list ColumnarIndex) (b out : RecordBatch) : Prop :=
  forall ix i a, ix ∈ ixs -> index_of (ci_column ix) (batch_schema b) = Some i -> batch_columns b !! i = Some a ->
    exists k f stored, batch_schema out !! k = Some f /\ field_name f = ci_index_column ix /\
      batch_columns out !! k = Some stored /\ index_values (table_reference t) ix a stored.

Lemma sends_stores t ixs is_update b out :
  columnar_table t ixs -> batch_ok b -> indices_ready ixs b ->
  sends_items (tag_size := tag_size) master_key cast_array type_name buffer_memory nonces fill_bytes index_evaluate
    t is_update b out ->
  stores_indices t ixs b out.
Proof.
  intros Ht Hb Hready Hsend ix i a Hix Hi Ha.
  destruct (columnar_strategies t ixs is_update (batch_schema b) Ht) as (strategies & Hs & Hitems).
  assert (exists j, columnar_items t ixs (batch_schema b) !! j =
    Some {| pe_expr := PIndexExpr (columnar_expr (table_reference t) ix i); pe_alias := ci_index_column ix |}) as [j Hj].
  { apply list_elem_of_lookup, list_elem_of_omap. exists ix. split; [done|]. unfold columnar_item. by rewrite Hi. }
  rewrite <- Hitems in Hj. destruct (Hsend strategies j _ Hs Hj) as (b1 & v & f & Hsee & Hv & Hcol & Hf & Hfn).
  destruct (columnar_item_stores t ixs ix b b1 i (length (batch_schema b) + j) a) as (stored & Hv' & Hst & _); try done.
  cbn [pe_expr] in Hv. rewrite Hv' in Hv. injection Hv as <-. by exists (length (batch_schema b) + j), f, stored.
Qed.

(** ** Rows that are written are found *)

(** The value of a column as the server compares it. *)
Definition cell_of (v : ArrowValue) : option Cell :=
  match v with
  | VPrim z => Some (CNum z)
  | VBytes bs => Some (CStr (String.string_of_list_byte bs))
  | _ => None
  end.

(** The server holds row [k] of the batch that was sent. *)
Definition row_sent (out : RecordBatch) (k : nat) (srv : ServerRow) : Prop :=
  forall j f a v, batch_schema out !! j = Some f -> batch_columns out !! j = Some a -> values a !! k = Some (Some v) ->
    srv (field_name f) = cell_of v.

Section Found.
Context {E row : Type} `{!FilterSem E row} `{!PrecisionOps}.
Variable display : ScalarValue -> string.

(** The condition that an index forwards for a filter. *)
Definition index_query (table_ref : TableRef) (ix : ColumnarIndex) (f : IndexableFilterExpr E) : result SqlExpr :=
  match ix with
  | CBlind ix => BlindIndex.indexable_query_to_expr display master_key ix table_ref f
  | CRange ix => range_query ix (table table_ref) f
  end.

(** The filters that an index answers. *)
Definition index_options (ix : ColumnarIndex) : SupportOptions E :=
  match ix with
  | CBlind ix => BlindIndex.blind_support_options ix
  | CRange ix => RangeIndex.range_support_options ix
  end.

(** Row [k] of column [a] has the value that row [r] has for filters, and the
    scalars of the filter are compared the way the column is stored: for a blind
    index, a scalar that equals the value has the bytes of the value as its text;
    for a range index, the value and the bounds are in the range of the buckets. *)
Definition filter_of_row (ix : ColumnarIndex) (a : Array) (k : nat) (r : row) (f : IndexableFilterExpr E) : Prop :=
  match ix with
  | CBlind ix =>
      exists bin bs, to_binary_evaluate a = Ok bin /\ bin !! k = Some (Some bs) /\
        forall c v, name (column c) = BlindIndex.indexed_column ix -> v ∈ blind_scalars f ->
          sem_cmp r c v = Some Datatypes.Eq -> scalar_to_bytes display v = bs
  | CRange ix =>
      exists z min interval, values a !! k = Some (Some (VPrim z)) /\
        distribution (cfg ix) = Uniform min interval /\ (0 < interval)%Z /\
        (forall c, name (column c) = RangeIndex.indexed_column ix -> column_holds r c z) /\
        fits_dt (data_type a) z /\ in_domain min interval (conv (data_type a) z) /\
        scalars_ok (bound_ok min interval (data_type a)) (optimize_cmp f) /\ range_safe (optimize_cmp f) = true
  end.

Lemma stored_found t ixs b out ix i a k (r : row) srv f sql :
  stores_indices t ixs b out -> ix ∈ ixs -> index_of (ci_column ix) (batch_schema b) = Some i ->
  batch_columns b !! i = Some a -> row_sent out k srv -> filter_of_row ix a k r f ->
  index_query (table_reference t) ix f = Ok sql -> eval r f = Some true -> eval_sql srv sql = Some true.
Proof.
  intros Hst Hix Hi Ha Hsent Hf Hq Hev. destruct (Hst ix i a Hix Hi Ha) as (j & fl & stored & Hfl & Hn & Hcol & Hval).
  destruct ix as [ix|ix]; cbn in *.
  - destruct Hval as (bin & Hbin & ->), Hf as (bin' & bs & Hbin' & Hk & Hscal).
    rewrite Hbin in Hbin'. injection Hbin' as <-.
    eapply blind_query_superset; [|done|done]. exists bs. split; [|done].
    rewrite <- Hn, (Hsent j fl _ (VBytes (string_bytes (blind_identifier master_key ix (table_reference t) bs))) Hfl Hcol).
    + cbn. unfold string_bytes. by rewrite String.string_of_list_byte_of_string.
    + unfold binary_array. cbn. rewrite !list_lookup_fmap, Hk. done.
  - destruct Hf as (z & min & interval & Hk & Hd & Hpos & Hholds & Hfits & Hdom & Hok & Hsafe).
    destruct Hval as [_ HF]. destruct (Forall2_lookup_l _ _ _ _ _ HF Hk) as (o & Ho & z' & n & [= <-] & Hv & ->).
    unfold range_query in Hq.
    eapply (query_to_expr_superset ix (table (table_reference t)) min interval (data_type a) Hd Hpos r srv z);
      [|done|done|done|by apply optimize_cmp_sound].
    split; try done. exists n. split; [done|]. by rewrite <- Hn, (Hsent j fl stored (VPrim n)).
Qed.

(** The part of a filter that is left to an index has a condition. *)
Lemma index_query_total table_ref ix a k (r : row) stats f g :
  supp_of (split_into_supported_unsupported (index_options ix) stats f) = Some g -> filter_of_row ix a k r g ->
  exists sql, index_query table_ref ix g = Ok sql.
Proof.
  intros Hg%split_supported_gen Hf. destruct ix as [ix|ix]; cbn in *; [by eapply blind_query_total|].
  destruct Hf as (z & min & interval & _ & _ & _ & _ & _ & _ & _ & Hsafe). by eapply range_query_total.
Qed.

End Found.
End Writes.

(** ** NULLs *)

Lemma project_columns_nth {X} (eval : nat -> PhysExpr (X := X) -> RecordBatch -> result PVal) ps b i cs j p :
  project_columns eval i ps b = Ok cs -> ps !! j = Some p ->
  exists v, eval (i + j) (pe_expr p) b = Ok v /\ cs !! j = Some (into_array (batch_rows b) v).
Proof.
  revert i cs j. induction ps as [|q ps IH]; intros i cs j Hcs Hp; [done|]. cbn in Hcs. inv_ok.
  destruct j as [|j]; cbn in Hp.
  - injection Hp as ->. rewrite Nat.add_0_r. eauto.
  - replace (i + S j) with (S i + j) by lia. apply (IH _ _ _ E0 Hp).
Qed.

(** The columns of a projection that runs match its schema. *)
Lemma project_matches {X} (eval : nat -> PhysExpr (X := X) -> RecordBatch -> result PVal) fields ps b out j p f :
  project eval fields ps b = Ok out -> ps !! j = Some p -> fields !! j = Some f ->
  exists v, eval j (pe_expr p) b = Ok v /\ column_matches (batch_rows b) f (into_array (batch_rows b) v) = true.
Proof.
  unfold project. intros Hout Hp Hf. apply result_bind_ok in Hout as (cs & Hcs & Hnew).
  destruct (project_columns_nth eval ps b 0 cs j p Hcs Hp) as (v & Hv & Hc). exists v. split; [done|].
  unfold record_batch_try_new in Hnew. destruct (bool_decide _ && _) eqn:Hall; [|done].
  apply andb_true_iff in Hall as [_ Hall]. rewrite forallb_forall in Hall.
  apply (Hall (column_matches (batch_rows b) f (into_array (batch_rows b) v))).
  apply list_elem_of_In, list_elem_of_lookup. exists j. by rewrite lookup_zip_with, Hf, Hc.
Qed.

Section Nulls.
Context `{ArrowCast} `{Aead} `{Hkdf} {tag_size : nat}.
Variable master_key : bytes.
Variable cast_array : Array -> DataType -> result Array.
Variable type_name : DataType -> bytes.
Variable buffer_memory : BinaryArray -> nat.
Variable nonces : nat -> nat -> nat -> bytes.
Variable fill_bytes : nat -> nat -> nat -> bytes.
Variable source_nonces : nat -> bytes.
Variable source_fill : nat -> bytes.

(** A NULL stays NULL in the column of a blind index, which the index declares not
    to be nullable: a projection of a write with a NULL in the column of a blind
    index never runs to the end. *)
Theorem blind_null_refused (l : nat) ps (fs fields : list Field) b j e (a : Array) bin out :
  projection_schema columnar_data_type columnar_nullable ps fs = Ok fields ->
  (exists alias, ps !! j = Some {| pe_expr := PIndexExpr (BlindExpr e); pe_alias := alias |}) ->
  source_evaluate master_key tag_size cast_array type_name buffer_memory source_nonces source_fill (source_column e) b =
    Ok (PArray a) -> as_binary_array a = Ok bin -> None ∈ bin ->
  project (eval_at (tag_size := tag_size) master_key cast_array type_name buffer_memory nonces fill_bytes
    (index_evaluate (tag_size := tag_size) master_key cast_array type_name buffer_memory source_nonces source_fill) l)
    fields ps b <> Ok out.
Proof.
  intros Hs (alias & Hp) Hsrc Hbin Hnull Hout.
  destruct (result_mapM_lookup _ _ _ _ _ Hs Hp) as (f & Hf & Hpf).
  destruct (project_matches _ _ _ _ _ _ _ _ Hout Hp Hf) as (v & Hv & Hm).
  unfold eval_at in Hv. cbn [pe_expr evaluate] in Hv. unfold index_evaluate, columnar_evaluate, blind_expr_evaluate in Hv.
  rewrite Hsrc in Hv.
  cbn [result_bind on_columnar] in Hv. unfold blind_array in Hv. rewrite Hbin in Hv. cbn in Hv. injection Hv as <-.
  unfold projection_field in Hpf. cbn in Hpf. injection Hpf as <-. unfold column_matches in Hm.
  apply andb_true_iff in Hm as [_ Hm]. cbn in Hm. rewrite forallb_forall in Hm.
  assert (bool_decide (is_Some (None : option ArrowValue)) = true) as Habs; [|done]. apply Hm.
  rewrite map_map, in_map_iff. exists None. split; [done|]. by apply list_elem_of_In.
Qed.
End Nulls.

(** ** A concrete table *)

#[local] Existing Instances demo_aead demo_aead_laws demo_kdf.

Definition demo_blind_b : BlindIndex := {|
  name_ := "i"; BlindIndex.indexed_column := "b"; size_bits := 32; BlindIndex.index_column_name := "prox_blid_i_32"
|}.
Definition demo_columnar_indices : list ColumnarIndex := [CRange demo_range; CBlind demo_blind_b].

Definition demo_column_meta (dt : DataType) (raw : string) : EncryptedColumnMeta :=
  {| original_type := dt; original_type_raw := raw; default_value_raw := None; meta_nullable := true; collation := None |}.

Definition demo_columnar_table (binding : bool) : MySqlTableProvider (X := ColumnarExpr) (S := unit) := {|
  table_reference := demo_table_ref;
  table_schema := [];
  encryption_metadata :=
    {| encrypted_columns := {[ "a" := demo_column_meta DtInt32 "INT"; "b" := demo_column_meta DtBinary "BLOB" ]};
       tm_indices := columnar_write_index demo_table_ref <$> demo_columnar_indices;
       row_id_column := None; row_binding_aad := binding |};
  primary_key := ["id"]
|}.

Definition demo_field_id : Field * Array := (demo_field "id" DtInt32 false, demo_ids).
Definition demo_field_a (nullable : bool) (vs : list (option ArrowValue)) : Field * Array :=
  (demo_field "a" DtInt32 nullable, {| data_type := DtInt32; values := vs |}).
Definition demo_field_b (nullable : bool) (vs : list (option ArrowValue)) : Field * Array :=
  (demo_field "b" DtBinary nullable, {| data_type := DtBinary; values := vs |}).

Definition demo_rows (columns : list (Field * Array)) : RecordBatch :=
  {| batch_schema := columns.*1; batch_columns := columns.*2; batch_rows := 2 |}.

(** Rows (1, 25, "7") and (2, 3, "8"). *)
Definition demo_inserted : RecordBatch :=
  demo_rows [demo_field_id; demo_field_a true [Some (VPrim 25); Some (VPrim 3)];
             demo_field_b true [Some (VBytes (string_bytes "7")); Some (VBytes (string_bytes "8"))]].

(** The plan of an insertion of the batch, run. *)
Definition demo_columnar_insert (t : MySqlTableProvider (X := ColumnarExpr) (S := unit)) (b : RecordBatch) : result RecordBatch :=
  let? (plan, insert_schema, sinks) :=
    project_insert_update columnar_data_type columnar_nullable t (batch_schema b) false in
  run_plan (eval_at (tag_size := 16) [] (fun a _ => Ok a) (fun _ => []) (fun b => length (plain_bytes b))
    (fun _ _ _ => replicate 12 Byte.x00) (fun _ _ n => replicate n Byte.x00)
    (index_evaluate (tag_size := 16) [] (fun a _ => Ok a) (fun _ => []) (fun b => length (plain_bytes b))
       (fun _ => []) (fun _ => []))) 0 plan b.

Lemma demo_columnar_writable : writable (demo_columnar_table true) None demo_inserted [demo_ids].
Proof.
  split.
  - vm_compute. reflexivity.
  - intros i f a Hf Ha. destruct i as [|[|[|i]]]; [| | |done]; injection Hf as <-; injection Ha as <-.
    + done.
    + split; [done|]. split; [done|]. repeat constructor; cbn; discriminate.
    + split; [done|]. split; [done|]. by repeat constructor.
  - constructor; [|constructor]. exists 0. by split.
  - intros n Hn. cbn in Hn. by apply list_elem_of_singleton in Hn as ->.
  - constructor; [|constructor]. split_and!; [done| |done]. repeat constructor; cbn; discriminate.
  - cbn. lia.
Qed.

Lemma demo_columnar_ready : indices_ready demo_columnar_indices demo_inserted.
Proof.
  intros ix i a Hix Hi Ha. apply elem_of_cons in Hix as [-> | ->%list_elem_of_singleton];
    vm_compute in Hi; injection Hi as <-; injection Ha as <-.
  - split; [repeat constructor; cbn; discriminate|]. split; [done|]. split; [|by left].
    intros z. destruct (value_to_indexable_total 0 10 z) as (n & Hn & _); [lia|]. by exists n.
  - split; [by repeat constructor|]. by split.
Qed.


(** A NULL in the column of the blind index makes the insertion fail, though the
    column is nullable. *)
Theorem null_not_inserted_with_blind_index :
  demo_columnar_insert (demo_columnar_table true)
    (demo_rows [demo_field_id; demo_field_a true [Some (VPrim 25); Some (VPrim 3)];
                demo_field_b true [Some (VBytes (string_bytes "7")); None]])
  = Err (ExecError "column types must match schema types").
Proof. vm_compute. reflexivity. Qed.

(** Whether a NULL is accepted in the column of a range index depends on the first
    column of the batch: the same row is refused behind a primary key that is not
    nullable and accepted in front of it. *)
Theorem range_null_depends_on_first_column :
  let a := demo_field_a true [Some (VPrim 25); None] in
  let b := demo_field_b true [Some (VBytes (string_bytes "7")); Some (VBytes (string_bytes "8"))] in
  demo_columnar_insert (demo_columnar_table true) (demo_rows [demo_field_id; a; b])
    = Err (ExecError "column types must match schema types") /\
  exists out, demo_columnar_insert (demo_columnar_table true) (demo_rows [a; demo_field_id; b]) = Ok out.
Proof. split; [vm_compute; reflexivity|]. eexists. vm_compute. reflexivity. Qed.
