(* ===== verification/Sinks.v ===== *)
(** * Sinks: sending rows to the server

    Models [backends/mysql/src/sinks] and [common/src/dml.rs]: the statements that
    insert, update and delete rows with their positional parameters, the sink that
    splits a batch between the table and its indices, and the plan that runs a
    sink inside a weak transaction of Transactions.v. The connection is the list
    of statements sent so far, with the state of the transaction control. *)
From S2P Require Import Prelude Values Crypto ArrowCodec SqlSchema PhysicalExprs WritePath Transactions.


(** ** Results of DML statements *)

Record DmlResult := { num_rows : Z; last_insert_id : option Z }.

Definition dml_new (n : Z) : DmlResult := {| num_rows := n; last_insert_id := None |}.
Definition dml_empty : DmlResult := dml_new 0.

Definition with_last_insert_id (r : DmlResult) (id : Z) : DmlResult :=
  {| num_rows := num_rows r; last_insert_id := Some id |}.

(** The maximum of the row counts, and the first identifier if any. *)
Definition combine_max (a b : DmlResult) : DmlResult :=
  {| num_rows := Z.max (num_rows a) (num_rows b);
     last_insert_id := match last_insert_id a with Some id => Some id | None => last_insert_id b end |}.

Definition DML_FIELD_NUM_INSERTED_ROWS : string := "inserted".
Definition DML_FIELD_LAST_INSERT_ID : string := "last_insert_id".

Definition DML_SCHEMA : list Field :=
  [{| field_name := DML_FIELD_NUM_INSERTED_ROWS; field_type := DtUInt64; field_nullable := false; field_metadata := ∅ |};
   {| field_name := DML_FIELD_LAST_INSERT_ID; field_type := DtUInt64; field_nullable := true; field_metadata := ∅ |}].

(** [From<DmlResult> for RecordBatch]. *)
Definition dml_to_batch (r : DmlResult) : RecordBatch := {|
  batch_schema := DML_SCHEMA;
  batch_columns := [{| data_type := DtUInt64; values := [Some (VPrim (num_rows r))] |};
                    {| data_type := DtUInt64; values := [VPrim <$> last_insert_id r] |}];
  batch_rows := 1
|}.

(** [column_by_name(..).as_primitive()]: the first slot of the column. *)
Definition column_by_name (b : RecordBatch) (n : string) : option Array :=
  index_of n (batch_schema b) ≫= (batch_columns b !!.).

(** [Schema::contains] on names and types. *)
Definition schema_contains (fields expected : list Field) : bool :=
  bool_decide (length fields = length expected) &&
  forallb id (zip_with (fun f g => bool_decide (field_name f = field_name g)
                                   && bool_decide (field_type f = field_type g)
                                   && (field_nullable f || negb (field_nullable g))) fields expected).

Definition dml_try_from (b : RecordBatch) : result DmlResult :=
  if negb (schema_contains (batch_schema b) DML_SCHEMA) then Err (ExecError "Invalid schema for DML result!")
  else if negb (bool_decide (batch_rows b = 1)) then Err (ExecError "Invalid number of rows for DML result!")
  else
    match column_by_name b DML_FIELD_NUM_INSERTED_ROWS, column_by_name b DML_FIELD_LAST_INSERT_ID with
    | Some n, Some id =>
        Ok {| num_rows := match values n with Some (VPrim z) :: _ => z | _ => 0 end;
              last_insert_id := match values id with Some (VPrim z) :: _ => Some z | _ => None end |}
    | _, _ => Err (Panic "called `Option::unwrap()` on a `None` value")
    end.

(** ** Parameters of a statement *)

(** [mysql_common::Value]; floats are their bits. *)
Inductive MyValue :=
  | MyNULL
  | MyBytes (bs : bytes)
  | MyInt (z : Z)
  | MyUInt (z : Z)
  | MyFloat (bits : Z)
  | MyDouble (bits : Z)
  | MyDate (year month day hour minutes seconds micros : Z)
  | MyTime (neg : bool) (days hours minutes seconds micros : Z).

#[export] Instance MyValue_eq_dec : EqDecision MyValue.
Proof. solve_decision. Defined.

Section Params.
(** [rust_decimal]'s text of a decimal, which panics beyond its range, and
    [chrono]'s date of a number of nanoseconds. *)
Variable decimal_from_i128_with_scale : Z -> Z -> result bytes.
Variable from_timestamp_nanos : Z -> MyValue.

(** [downcast_to_value!]: NULL for a NULL, and for a column of another type. *)
Definition downcast_to_value (v : option ArrowValue) (f : ArrowValue -> option (result MyValue)) : result MyValue :=
  match v with
  | None => Ok MyNULL
  | Some v => default (Ok MyNULL) (f v)
  end.

Definition on_prim (f : Z -> MyValue) (v : ArrowValue) : option (result MyValue) :=
  match v with VPrim z => Some (Ok (f z)) | _ => None end.
Definition on_bytes (v : ArrowValue) : option (result MyValue) :=
  match v with VBytes bs => Some (Ok (MyBytes bs)) | _ => None end.
Definition on_decimal (scale : Z) (v : ArrowValue) : option (result MyValue) :=
  match v with
  | VPrim z => Some (let? text := decimal_from_i128_with_scale z (wrap_u 32 scale) in Ok (MyBytes text))
  | _ => None
  end.

Definition nanos_per (u : TimeUnit) : Z :=
  match u with Second => 1000000000 | Millisecond => 1000000 | Microsecond => 1000 | Nanosecond => 1 end.

(** One slot of [map_rows_to_params_reordered]. *)
Definition param_of (dt : DataType) (v : option ArrowValue) : result MyValue :=
  match dt with
  | DtNull => Ok MyNULL
  | DtBoolean =>
      downcast_to_value v (fun v => match v with VBool b => Some (Ok (MyInt (Z.b2z b))) | _ => None end)
  | DtInt8 | DtInt16 | DtInt32 | DtInt64 => downcast_to_value v (on_prim MyInt)
  | DtUInt8 | DtUInt16 | DtUInt32 | DtUInt64 => downcast_to_value v (on_prim MyUInt)
  | DtFloat16 => Err (Panic "cannot convert float16 to mysql value")
  | DtFloat32 => downcast_to_value v (on_prim MyFloat)
  | DtFloat64 => downcast_to_value v (on_prim MyDouble)
  | DtDecimal32 _ scale | DtDecimal64 _ scale | DtDecimal128 _ scale => downcast_to_value v (on_decimal scale)
  | DtDecimal256 _ _ => Err (Panic "cannot convert decimal256 to mysql value")
  | DtTimestamp u _ => downcast_to_value v (on_prim (fun z => from_timestamp_nanos (wrap_s 64 (z * nanos_per u))))
  | DtDate32 | DtDate64 => downcast_to_value v (on_prim MyInt)
  | DtTime32 (Second | Millisecond) => downcast_to_value v (on_prim MyInt)
  | DtTime32 _ => Err (Panic "Unsupported time32")
  | DtTime64 (Microsecond | Nanosecond) => downcast_to_value v (on_prim MyInt)
  | DtTime64 _ => Err (Panic "Unsupported time64")
  | DtDuration _ => downcast_to_value v (on_prim MyInt)
  | DtInterval YearMonth => downcast_to_value v (on_prim MyInt)
  | DtInterval MonthDayNano => Ok MyNULL
  | DtInterval DayTime => Err (Panic "unsupported interval type for sink: DayTime")
  | DtBinary | DtFixedSizeBinary _ | DtLargeBinary | DtBinaryView
  | DtUtf8 | DtLargeUtf8 | DtUtf8View => downcast_to_value v on_bytes
  | _ => Err (Panic "unsupported type for sink")
  end.

(** The parameters of each row, computed when the row is sent; an index out of
    range panics. *)
Definition row_params (columns : list Array) (index : nat) : result (list MyValue) :=
  result_mapM (fun col => match values col !! index with
                          | Some v => param_of (data_type col) v
                          | None => Err (Panic "index out of bounds")
                          end) columns.

Definition map_rows_to_params_reordered (b : RecordBatch) (project : option (list nat)) :
    result (list (result (list MyValue))) :=
  let? columns := match project with
                  | Some order => result_mapM (fun i => match batch_columns b !! i with
                                                        | Some a => Ok a
                                                        | None => Err (Panic "index out of bounds")
                                                        end) order
                  | None => Ok (batch_columns b)
                  end in
  Ok (row_params columns <$> seq 0 (batch_rows b)).

Definition map_rows_to_params (b : RecordBatch) : result (list (result (list MyValue))) :=
  map_rows_to_params_reordered b None.

Definition project_to_schema (b : RecordBatch) (output_schema : list Field) : result (list nat) :=
  result_mapM (fun f => match index_of (field_name f) (batch_schema b) with
                        | Some i => Ok i
                        | None => Err (Panic "invalid output_schema provided: some columns don't appear in the input")
                        end) output_schema.
End Params.

(** ** Statements *)

Fixpoint join (sep : string) (l : list string) : string :=
  match l with
  | [] => ""
  | [s] => s
  | s :: l => s +:+ sep +:+ join sep l
  end.

Inductive WriteOp := OpInsert | OpUpdate.

Record MySqlDmlSink := {
  operation : WriteOp;
  expected_input_schema : list Field;
  columns_projection : list nat;
  query_string : string;
  report_last_insert : bool
}.

Definition numbered (fields : list Field) : list (string * nat) := imap (fun pos f => (field_name f, pos)) fields.

(** [MySqlDmlSink::insert]; [InsertOp::Append] is the only operation that is
    implemented. *)
Definition dml_insert (target : TableRef) (insert_schema : list Field) : MySqlDmlSink :=
  let is_duplicate (c : string * nat) := starts_with DUPLICATE_VALUE_PFX c.1 in
  let duplicate_updates := List.filter is_duplicate (numbered insert_schema) in
  let columns := List.filter (fun c => negb (is_duplicate c)) (numbered insert_schema) in
  let insert_set := join "," ((fun c => c.1 +:+ "=?") <$> columns) in
  let on_duplicate_set :=
    join "," ((fun c => default c.1 (strip_prefix DUPLICATE_VALUE_PFX c.1) +:+ "=?") <$> duplicate_updates) in
  let on_duplicate := if bool_decide (on_duplicate_set = "") then ""
                      else " ON DUPLICATE KEY UPDATE " +:+ on_duplicate_set in
  {| operation := OpInsert; expected_input_schema := insert_schema;
     columns_projection := columns.*2 ++ duplicate_updates.*2;
     query_string := "INSERT INTO " +:+ schema target +:+ "." +:+ table target +:+ " SET " +:+ insert_set +:+ on_duplicate;
     report_last_insert := true |}.

Definition build_query_string_and_projection (target : TableRef) (filters updates : list Field)
    (source_schema : list Field) : result (string * list nat) :=
  let update := join ", " ((fun f => field_name f +:+ " = ?") <$> updates) in
  let filter := join " AND "
    ((fun f => String.substring (String.length FILTER_PREFIX) (String.length (field_name f)) (field_name f) +:+ " = ?") <$> filters) in
  let query := "UPDATE " +:+ schema target +:+ "." +:+ table target +:+ " SET " +:+ update +:+ " WHERE " +:+ filter in
  let? projection := result_mapM (fun f => match index_of (field_name f) source_schema with
                                           | Some i => Ok i
                                           | None => Err (Panic "called `Result::unwrap()` on an `Err` value")
                                           end) (updates ++ filters) in
  Ok (query, projection).

(** [MySqlDmlSink::update]. *)
Definition dml_update (target : TableRef) (update_schema : list Field) : result MySqlDmlSink :=
  let sent := List.filter (fun f => negb (starts_with CURRENT_VALUE_PREFIX (field_name f))) update_schema in
  let filters := List.filter (fun f => starts_with FILTER_PREFIX (field_name f)) sent in
  let updates := List.filter (fun f => negb (starts_with FILTER_PREFIX (field_name f))) sent in
  let? (query, projection) := build_query_string_and_projection target filters updates update_schema in
  Ok {| operation := OpUpdate; query_string := query; columns_projection := projection;
        expected_input_schema := update_schema; report_last_insert := false |}.

Definition delete_query (target : TableRef) (primary_key_schema : list Field) : string :=
  "DELETE FROM " +:+ schema target +:+ "." +:+ table target +:+ " WHERE " +:+
  join " AND " ((fun f => field_name f +:+ " = ?") <$> primary_key_schema).

(** ** Sinks *)

(** A statement that writes: its text and parameters. *)
Definition WriteStmt : Type := string * list MyValue.
Abbreviation Connection := (TransactionControlInner * list (Stmt (W := WriteStmt)))%type.

(** [RecordBatchSink]: the connection after the batches were handled, also on an
    error. *)
Record RecordBatchSink := {
  input_schema : list Field;
  handle_batches : Connection -> list RecordBatch -> Connection * result DmlResult
}.

Section Sinks.
Variable decimal_from_i128_with_scale : Z -> Z -> result bytes.
Variable from_timestamp_nanos : Z -> MyValue.
(** What the server accepts: statements to prepare, and statements to run. *)
Variable prepares : string -> bool.
Variable accepts : list (Stmt (W := WriteStmt)) -> Stmt (W := WriteStmt) -> bool.
(** The last generated identifier that the server reports. *)
Variable server_last_insert_id : list (Stmt (W := WriteStmt)) -> option Z.

Let map_rows := map_rows_to_params_reordered decimal_from_i128_with_scale from_timestamp_nanos.

(** [exec_batch]: one statement per row, up to the first that fails. *)
Fixpoint exec_batch (query : string) (rows : list (result (list MyValue))) (conn : Connection) :
    Connection * result unit :=
  match rows with
  | [] => (conn, Ok tt)
  | row :: rows =>
      match row with
      | Err e => (conn, Err e)
      | Ok params =>
          if accepts conn.2 (Write (query, params)) then
            exec_batch query rows (conn.1, conn.2 ++ [Write (query, params)])
          else (conn, Err (SqlError "statement failed"))
      end
  end.

Fixpoint dml_loop (sink : MySqlDmlSink) (num_inserted : Z) (data : list RecordBatch) (conn : Connection) :
    Connection * result Z :=
  match data with
  | [] => (conn, Ok num_inserted)
  | b :: data =>
      if negb (bool_decide (batch_schema b = expected_input_schema sink)) then
        (conn, Err (ExecError "Batch schema differs from expected input schema"))
      else
        match map_rows b (Some (columns_projection sink)) with
        | Err e => (conn, Err e)
        | Ok rows =>
            match exec_batch (query_string sink) rows conn with
            | (conn, Err e) => (conn, Err e)
            | (conn, Ok _) =>
                dml_loop sink (wrap_u 64 (num_inserted + Z.of_nat (batch_rows b))) data conn
            end
        end
  end.

Definition dml_handle_batches (sink : MySqlDmlSink) (conn : Connection) (data : list RecordBatch) :
    Connection * result DmlResult :=
  if negb (prepares (query_string sink)) then (conn, Err (SqlError "cannot prepare"))
  else
    let (conn, n) := dml_loop sink 0 data conn in
    (conn,
     let? n := n in
     Ok (match (if report_last_insert sink then server_last_insert_id conn.2 else None) with
         | Some id => with_last_insert_id (dml_new n) id
         | None => dml_new n
         end)).

Definition dml_sink (sink : MySqlDmlSink) : RecordBatchSink :=
  {| input_schema := expected_input_schema sink; handle_batches := dml_handle_batches sink |}.

(** [MySqlDeleteSink]. *)
Fixpoint delete_loop (query : string) (num_deleted : Z) (data : list RecordBatch) (conn : Connection) :
    Connection * result Z :=
  match data with
  | [] => (conn, Ok num_deleted)
  | b :: data =>
      match map_rows b None with
      | Err e => (conn, Err e)
      | Ok rows =>
          match exec_batch query rows conn with
          | (conn, Err e) => (conn, Err e)
          | (conn, Ok _) => delete_loop query (wrap_u 64 (num_deleted + Z.of_nat (batch_rows b))) data conn
          end
      end
  end.

Definition delete_handle_batches (target : TableRef) (primary_key_schema : list Field) (conn : Connection)
    (data : list RecordBatch) : Connection * result DmlResult :=
  let query := delete_query target primary_key_schema in
  if negb (prepares query) then (conn, Err (SqlError "cannot prepare"))
  else
    let (conn, n) := delete_loop query 0 data conn in
    (conn, let? n := n in Ok (dml_new n)).

Definition delete_sink (target : TableRef) (primary_key_schema : list Field) : RecordBatchSink :=
  {| input_schema := primary_key_schema; handle_batches := delete_handle_batches target primary_key_schema |}.

(** ** Splitting a batch between sinks *)

Record MultiplexSink := { mx_schema : list Field; mx_sinks : list RecordBatchSink }.

Definition multiplex_empty : MultiplexSink := {| mx_schema := []; mx_sinks := [] |}.

Definition add_sink (m : MultiplexSink) (sink : RecordBatchSink) : MultiplexSink :=
  {| mx_schema := mx_schema m ++ input_schema sink; mx_sinks := mx_sinks m ++ [sink] |}.

Definition multiplex_one (sink : RecordBatchSink) : MultiplexSink := add_sink multiplex_empty sink.

(** [remove_column(0)], [n] times; it panics when no column is left. *)
Definition remove_columns (n : nat) (columns : list Array) : result (list Array * list Array) :=
  if bool_decide (n <= length columns) then Ok (take n columns, drop n columns)
  else Err (Panic "removal index (is 0) should be < len (is 0)").

(** The batches of one input batch, one per sink. *)
Fixpoint split_batch (sinks : list RecordBatchSink) (columns : list Array) (rows : nat) : result (list RecordBatch) :=
  match sinks with
  | [] => Ok []
  | sink :: sinks =>
      let? (new_batch, columns) := remove_columns (length (input_schema sink)) columns in
      let? b := record_batch_try_new (input_schema sink) new_batch rows in
      let? bs := split_batch sinks columns rows in
      Ok (b :: bs)
  end.

Fixpoint run_sinks (sinks : list (RecordBatchSink * list RecordBatch)) (acc : DmlResult) (conn : Connection) :
    Connection * result DmlResult :=
  match sinks with
  | [] => (conn, Ok acc)
  | (sink, batches) :: sinks =>
      match handle_batches sink conn batches with
      | (conn, Err e) => (conn, Err e)
      | (conn, Ok r) => run_sinks sinks (combine_max acc r) conn
      end
  end.

(** The batches of each sink, from those of each input batch. *)
Definition batches_of_sink (split : list (list RecordBatch)) (pos : nat) : list RecordBatch :=
  omap (fun bs => bs !! pos) split.

Definition multiplex_handle_batches (m : MultiplexSink) (conn : Connection) (data : list RecordBatch) :
    Connection * result DmlResult :=
  match result_mapM (fun b => split_batch (mx_sinks m) (batch_columns b) (batch_rows b)) data with
  | Err e => (conn, Err e)
  | Ok split =>
      run_sinks (imap (fun pos sink => (sink, batches_of_sink split pos)) (mx_sinks m)) dml_empty conn
  end.

Definition multiplex_sink (m : MultiplexSink) : RecordBatchSink :=
  {| input_schema := mx_schema m; handle_batches := multiplex_handle_batches m |}.

(** [chain_sink] of the table provider. *)
Definition chain_sink (sink : RecordBatchSink) (more_sinks : list RecordBatchSink) : RecordBatchSink :=
  match more_sinks with
  | [] => sink
  | _ => multiplex_sink (foldl add_sink (multiplex_one sink) more_sinks)
  end.

(** ** Running a sink in a transaction *)

(** [execute] of [RecordBatchSinkExec]: [input] is what collecting the input gives;
    a panic leaves at once, without rollback. *)
Definition sink_exec (sink : RecordBatchSink) (input : result (list RecordBatch)) (conn : Connection) :
    Connection * result RecordBatch :=
  let fail (conn : Connection) (e : error) : Connection * result RecordBatch :=
    match e with
    | Panic _ => (conn, Err e)
    | _ => match weak_rollback accepts conn with
           | Ok conn => (conn, Err e)
           | Err p => (conn, Err p)
           end
    end in
  match weak_start_transaction accepts conn with
  | Err p => (conn, Err p)
  | Ok conn =>
      match input with
      | Err e => fail conn e
      | Ok data =>
          match handle_batches sink conn data with
          | (conn, Err e) => fail conn e
          | (conn, Ok r) =>
              match weak_commit accepts conn with
              | Ok conn => (conn, Ok (dml_to_batch r))
              | Err p => (conn, Err p)
              end
          end
      end
  end.

(** ** All or nothing *)

(** What a sink promises to the plan that runs it: it only sends writes. *)
Definition sends (conn conn' : Connection) : Prop :=
  exists ws, conn' = (conn.1, conn.2 ++ (Write <$> ws)) /\
    run accepts conn (OWrite <$> ws) = Ok conn'.

Class OnlyWrites (sink : RecordBatchSink) : Prop :=
  only_writes conn data : sends conn (handle_batches sink conn data).1.

Lemma sends_refl conn : sends conn conn.
Proof. exists []. cbn. rewrite app_nil_r. by destruct conn. Qed.

Lemma sends_trans c1 c2 c3 : sends c1 c2 -> sends c2 c3 -> sends c1 c3.
Proof.
  intros (ws1 & H1 & R1) (ws2 & H2 & R2). exists (ws1 ++ ws2). subst. cbn in *. split; [by rewrite fmap_app, app_assoc|].
  rewrite fmap_app, run_app, R1. done.
Qed.

Lemma sends_one conn w : accepts conn.2 (Write w) = true -> sends conn (conn.1, conn.2 ++ [Write w]).
Proof. intros Ha. exists [w]. split; [done|]. cbn. unfold query_drop. by rewrite Ha. Qed.

Lemma exec_batch_sends query rows conn : sends conn (exec_batch query rows conn).1.
Proof.
  revert conn. induction rows as [|[params|e] rows IH]; intros conn; cbn; try apply sends_refl.
  destruct (accepts conn.2 (Write (query, params))) eqn:Ha; [|apply sends_refl].
  eapply sends_trans; [by apply sends_one|apply IH].
Qed.

Lemma dml_loop_sends sink n data conn : sends conn (dml_loop sink n data conn).1.
Proof.
  revert n conn. induction data as [|b data IH]; intros n conn; cbn; [apply sends_refl|].
  case_match; [apply sends_refl|]. case_match; [|apply sends_refl].
  pose proof (exec_batch_sends (query_string sink) a conn) as Hs.
  destruct (exec_batch (query_string sink) a conn) as [conn1 [u|e]]; [|done]. eapply sends_trans; [exact Hs|apply IH].
Qed.

Lemma delete_loop_sends query n data conn : sends conn (delete_loop query n data conn).1.
Proof.
  revert n conn. induction data as [|b data IH]; intros n conn; cbn; [apply sends_refl|].
  pose proof (fun rows => exec_batch_sends query rows conn) as Hs.
  specialize (Hs (row_params decimal_from_i128_with_scale from_timestamp_nanos (batch_columns b) <$> seq 0 (batch_rows b))).
  destruct (exec_batch query _ conn) as [conn1 [u|e]]; [|done]. eapply sends_trans; [exact Hs|apply IH].
Qed.

#[export] Instance dml_sink_only_writes sink : OnlyWrites (dml_sink sink).
Proof.
  intros conn data. cbn. unfold dml_handle_batches. case_match; [apply sends_refl|].
  pose proof (dml_loop_sends sink 0 data conn) as Hs. by destruct (dml_loop sink 0 data conn).
Qed.

#[export] Instance delete_sink_only_writes target pk : OnlyWrites (delete_sink target pk).
Proof.
  intros conn data. cbn. unfold delete_handle_batches. case_match; [apply sends_refl|].
  pose proof (delete_loop_sends (delete_query target pk) 0 data conn) as Hs.
  by destruct (delete_loop (delete_query target pk) 0 data conn).
Qed.

Lemma run_sinks_sends sinks acc conn :
  Forall (fun s => OnlyWrites s.1) sinks -> sends conn (run_sinks sinks acc conn).1.
Proof.
  intros HF. revert acc conn. induction HF as [|[sink batches] sinks Hs _ IH]; intros acc conn; cbn; [apply sends_refl|].
  pose proof (Hs conn batches) as H1. cbn in *. destruct (handle_batches sink conn batches) as [conn1 [r|e]]; [|done].
  eapply sends_trans; [exact H1|apply IH].
Qed.

Lemma multiplex_only_writes m : Forall OnlyWrites (mx_sinks m) -> OnlyWrites (multiplex_sink m).
Proof.
  intros HF conn data. cbn. unfold multiplex_handle_batches. case_match; [|apply sends_refl].
  apply run_sinks_sends, Forall_lookup. intros i [sink bs] Hi. rewrite list_lookup_imap in Hi.
  destruct (mx_sinks m !! i) as [s|] eqn:Hs; [|done]. injection Hi as <- _. cbn. by eapply Forall_lookup_1.
Qed.

Lemma add_sinks_sinks more m : mx_sinks (foldl add_sink m more) = mx_sinks m ++ more.
Proof.
  revert m. induction more as [|s more IH]; intros m; cbn; [by rewrite app_nil_r|]. rewrite IH. cbn.
  by rewrite <- app_assoc.
Qed.

Lemma add_sinks_schema more m : mx_schema (foldl add_sink m more) = mx_schema m ++ mjoin (input_schema <$> more).
Proof.
  revert m. induction more as [|s more IH]; intros m; cbn; [by rewrite app_nil_r|]. rewrite IH. cbn.
  by rewrite <- app_assoc.
Qed.

Lemma chain_sink_only_writes sink more : OnlyWrites sink -> Forall OnlyWrites more -> OnlyWrites (chain_sink sink more).
Proof.
  intros Hs Hm. unfold chain_sink. destruct more as [|s more]; [done|]. apply multiplex_only_writes.
  rewrite add_sinks_sinks. by constructor.
Qed.

Lemma balanced_writes (ws : list WriteStmt) : balanced (OWrite <$> ws).
Proof. induction ws; by constructor. Qed.

Lemma writes_of (ws : list WriteStmt) : writes (OWrite <$> ws) = ws.
Proof. induction ws as [|w ws IH]; [done|]. cbn. by f_equal. Qed.

Definition is_panic (e : error) : bool := match e with Panic _ => true | _ => false end.

#[local] Arguments replay : simpl never.

(** No transaction is open and nothing waits for a commit. *)
Definition idle (conn : Connection) : Prop := pending (replay conn.2) = [] /\ current_transaction conn.1 = None.

(** The connection after [START TRANSACTION]. *)
Definition started (conn : Connection) : Connection :=
  (with_transaction conn.1 (Some (Weak 1)), conn.2 ++ [StartTransaction]).

Lemma started_effect n conn ws :
  reachable accepts n conn -> (Z.of_nat n < 2 ^ 32 - 1)%Z -> autocommit conn.1 = true ->
  current_transaction conn.1 = None ->
  let conn1 : Connection := ((started conn).1, (started conn).2 ++ (Write <$> ws)) in
  committed (replay conn1.2) = committed (replay conn.2) /\
  (forall conn2, weak_commit accepts conn1 = Ok conn2 ->
     committed (replay conn2.2) = committed (replay conn.2) ++ ws /\ idle conn2) /\
  (forall conn2, weak_rollback accepts conn1 = Ok conn2 ->
     committed (replay conn2.2) = committed (replay conn.2) /\ idle conn2).
Proof.
  intros Hr Hn Hac Htx conn1. destruct (reachable_inv accepts n conn Hr Hn) as [Hsync _].
  destruct (in_sync_idle conn Hsync Hac Htx) as [_ Hp].
  assert (s_in_transaction (replay (started conn).2) = true) as Ht by (cbn; by rewrite replay_snoc).
  assert (committed (replay (started conn).2) = committed (replay conn.2) /\ pending (replay (started conn).2) = [])
    as [Hc Hp1] by (cbn; rewrite replay_snoc; cbn; by rewrite Hp, app_nil_r).
  destruct conn as [[ac tx iso] conn]. unfold conn1, idle. clear conn1. cbn in *. subst ac tx.
  split; [by rewrite replay_writes|]. split; intros conn2; unfold weak_commit, weak_rollback; cbn;
    change (1 - 1 =? 0)%Z with true; cbn; intros He; inv_ok; apply query_drop_inv in E as ->; cbn;
    rewrite replay_snoc, replay_writes by done; cbn; by rewrite ?Hc, ?Hp1.
Qed.

Lemma sink_exec_alone n sink input conn :
  OnlyWrites sink -> reachable accepts n conn -> (Z.of_nat n < 2 ^ 32 - 1)%Z ->
  autocommit conn.1 = true -> current_transaction conn.1 = None ->
  let (conn', out) := sink_exec sink input conn in
  match out with
  | Ok out => exists data r ws, input = Ok data /\ out = dml_to_batch r /\
      handle_batches sink (started conn) data = (((started conn).1, (started conn).2 ++ (Write <$> ws)), Ok r) /\
      committed (replay conn'.2) = committed (replay conn.2) ++ ws /\ idle conn'
  | Err e => committed (replay conn'.2) = committed (replay conn.2) /\ (is_panic e = false -> idle conn')
  end.
Proof.
  intros Ho Hr Hn Hac Htx. unfold sink_exec.
  assert (weak_start_transaction accepts conn = Ok (started conn) \/
          exists m, weak_start_transaction accepts conn = Err (Panic m)) as [Hs|[m Hs]].
  { unfold weak_start_transaction. rewrite Hac, Htx. unfold query_drop. case_match; cbn; [by left|right; by eexists]. }
  2:{ rewrite Hs. done. }
  rewrite Hs. pose proof (fun ws => started_effect n conn ws Hr Hn Hac Htx) as Heff. cbn zeta in Heff.
  assert (forall ws e, let fail (conn : Connection) (e : error) : Connection * result RecordBatch :=
      match e with
      | Panic _ => (conn, Err e)
      | _ => match weak_rollback accepts conn with Ok conn => (conn, Err e) | Err p => (conn, Err p) end
      end in
    let '(conn', out) := fail ((started conn).1, (started conn).2 ++ (Write <$> ws)) e in
    exists e', out = Err e' /\ committed (replay conn'.2) = committed (replay conn.2) /\ (is_panic e' = false -> idle conn'))
    as Hfail.
  { intros ws e. destruct (Heff ws) as (Hc & _ & Hroll). cbn zeta.
    assert (exists r, weak_rollback accepts ((started conn).1, (started conn).2 ++ (Write <$> ws)) = r /\
      match r with Ok _ => True | Err p => is_panic p = true end) as (r & Hr1 & Hr2).
    { eexists. split; [done|]. unfold weak_rollback. cbn. rewrite Hac. unfold query_drop. by destruct (accepts _ _). }
    rewrite Hr1. destruct e; destruct r as [conn2|p]; (eexists; split; [done|]); try (split; [done|cbn; congruence]);
      specialize (Hroll _ Hr1); (split; [apply Hroll|intros _; apply Hroll]). }
  destruct input as [data|e].
  - pose proof (Ho (started conn) data) as (ws & Hws & _).
    destruct (handle_batches sink (started conn) data) as [conn1 [r|e]] eqn:Hh; cbn [fst] in Hws; subst conn1.
    + destruct (weak_commit accepts _) as [conn2|p] eqn:Hcm.
      * destruct (Heff ws) as (_ & Hcommit & _). destruct (Hcommit _ Hcm). exists data, r, ws. split; [done|]. split; [done|]. split; [done|by split].
      * destruct (Heff ws) as (Hc & _). split; [done|]. unfold weak_commit in Hcm. cbn in Hcm. rewrite Hac in Hcm. cbn in Hcm.
        unfold query_drop in Hcm. destruct (accepts _ _); [done|]. cbn in Hcm. by injection Hcm as <-.
    + specialize (Hfail ws e). cbn zeta in Hfail. revert Hfail.
      match goal with |- context [let (_, _) := ?t in _] => destruct t as [conn' out] end. by intros (e' & -> & Hf).
  - specialize (Hfail [] e). cbn zeta in Hfail. rewrite fmap_nil, app_nil_r in Hfail.
    rewrite <- surjective_pairing in Hfail. revert Hfail.
      match goal with |- context [let (_, _) := ?t in _] => destruct t as [conn' out] end. by intros (e' & -> & Hf).
Qed.

(** The client is in a transaction of its own: it has turned autocommit off, or opened
    a transaction that is still open on the server. *)
Definition in_client_transaction (conn : Connection) : Prop :=
  autocommit conn.1 = false \/
  autocommit conn.1 = true /\ current_transaction conn.1 = Some Forced /\ s_in_transaction (replay conn.2) = true.

Lemma client_transaction_kept conn :
  in_client_transaction conn ->
  weak_start_transaction accepts conn = Ok conn /\
  forall conn', conn'.1 = conn.1 -> weak_commit accepts conn' = Ok conn' /\ weak_rollback accepts conn' = Ok conn'.
Proof.
  intros Hc. unfold weak_start_transaction, weak_commit, weak_rollback.
  destruct Hc as [Hac|(Hac & Htx & _)]; rewrite Hac, ?Htx; (split; [done|]); intros conn' ->; by rewrite Hac, ?Htx.
Qed.

(** Writes in an open transaction wait for its end. *)
Lemma client_transaction_pending conn ws :
  in_sync conn -> in_client_transaction conn ->
  let x := replay (conn.2 ++ (Write <$> ws)) in
  committed x = committed (replay conn.2) /\ pending x = pending (replay conn.2) ++ ws.
Proof.
  intros Hs Hc. cbv zeta.
  assert (s_in_transaction (replay conn.2) || negb (s_autocommit (replay conn.2)) = true) as Hopen.
  { rewrite (sync_autocommit conn Hs). destruct Hc as [-> | (_ & _ & ->)]; [apply orb_true_r|done]. }
  enough (committed (replay (conn.2 ++ (Write <$> ws))) = committed (replay conn.2) /\
    pending (replay (conn.2 ++ (Write <$> ws))) = pending (replay conn.2) ++ ws /\
    s_in_transaction (replay (conn.2 ++ (Write <$> ws))) || negb (s_autocommit (replay (conn.2 ++ (Write <$> ws)))) = true)
    as (? & ? & _) by done.
  induction ws as [|w ws IH] using rev_ind; [by rewrite !app_nil_r|].
  rewrite fmap_app, app_assoc. cbn. rewrite replay_snoc. destruct IH as (Hcm & Hp & Ho). cbn. rewrite Ho. cbn.
  by rewrite Hcm, Hp, app_assoc.
Qed.

Lemma sink_exec_joined sink input conn :
  OnlyWrites sink -> in_sync conn -> in_client_transaction conn ->
  let (conn', out) := sink_exec sink input conn in
  exists ws, conn' = (conn.1, conn.2 ++ (Write <$> ws)) /\
    committed (replay conn'.2) = committed (replay conn.2) /\
    pending (replay conn'.2) = pending (replay conn.2) ++ ws /\
    (forall b, out = Ok b -> exists data r, input = Ok data /\ b = dml_to_batch r /\
       handle_batches sink conn data = (conn', Ok r)).
Proof.
  intros Ho Hs Hc. destruct (client_transaction_kept conn Hc) as [Hstart Hend]. unfold sink_exec. rewrite Hstart.
  destruct input as [data|e].
  - pose proof (Ho conn data) as (ws & Hws & _). destruct (handle_batches sink conn data) as [conn1 r] eqn:Hh.
    cbn [fst] in Hws. subst conn1. destruct (Hend (conn.1, conn.2 ++ (Write <$> ws)) eq_refl) as [Hcm Hrb].
    destruct (client_transaction_pending conn ws Hs Hc) as [Hcom Hpen].
    destruct r as [r|e]; [rewrite Hcm|destruct e; rewrite ?Hrb]; exists ws; split_and!; try done.
    intros b [= <-]. by exists data, r.
  - destruct (Hend conn eq_refl) as [_ Hrb].
    destruct e; rewrite ?Hrb; exists []; rewrite fmap_nil, !app_nil_r; split_and!; try done; by destruct conn.
Qed.

(** C11: What a DML statement commits, whatever the sink of the table and the sinks of
    its indices do, as long as they only send writes. With autocommit on and no
    transaction open it is all or nothing: when the plan succeeds the server has
    committed exactly the writes that were sent, in order; when it fails (input,
    server or sink) nothing of it is committed, and unless the task panicked no
    transaction is left open. In a transaction of the client it commits nothing, and
    the writes that were sent, on a failure the ones before it, wait for the end of
    the transaction. *)
Theorem sink_exec_atomic n sink input conn :
  OnlyWrites sink -> reachable accepts n conn -> (Z.of_nat n < 2 ^ 32 - 1)%Z ->
  (autocommit conn.1 = true -> current_transaction conn.1 = None ->
   let (conn', out) := sink_exec sink input conn in
   match out with
   | Ok out => exists data r ws, input = Ok data /\ out = dml_to_batch r /\
       handle_batches sink (started conn) data = (((started conn).1, (started conn).2 ++ (Write <$> ws)), Ok r) /\
       committed (replay conn'.2) = committed (replay conn.2) ++ ws /\ idle conn'
   | Err e => committed (replay conn'.2) = committed (replay conn.2) /\ (is_panic e = false -> idle conn')
   end) /\
  (in_client_transaction conn ->
   let (conn', out) := sink_exec sink input conn in
   exists ws, conn' = (conn.1, conn.2 ++ (Write <$> ws)) /\
     committed (replay conn'.2) = committed (replay conn.2) /\
     pending (replay conn'.2) = pending (replay conn.2) ++ ws /\
     (forall b, out = Ok b -> exists data r, input = Ok data /\ b = dml_to_batch r /\
        handle_batches sink conn data = (conn', Ok r))).
Proof.
  intros Ho Hr Hn. split; [by apply sink_exec_alone with n|].
  apply sink_exec_joined; [done|by apply (reachable_inv accepts n conn Hr Hn)].
Qed.
End Sinks.
