(* ===== verification/SinkTheorems.v ===== *)
(** * What the sinks send

    Theorems on Sinks.v: the parameters of the statements go to the columns that
    the statements name, and a batch is split between the sinks of a table and its
    indices without mixing their columns. *)
From S2P Require Import Prelude Values Crypto ArrowCodec BlindIndex SqlSchema PhysicalExprs RowId WritePath WriteRead Transactions Sinks.
From Stdlib Require Import Ascii.

Lemma Ok_inj {A} (a b : A) : Ok a = Ok b -> a = b.
Proof. by intros [= ->]. Qed.

(** ** Placeholders of a statement *)

(** The columns that the placeholders of a statement stand for: each [?] belongs to
    the last name before it. *)
Definition is_separator (c : ascii) : bool :=
  bool_decide (c = " "%char) || bool_decide (c = ","%char) || bool_decide (c = "="%char).

Fixpoint scan (s : string) (name : string) (inside : bool) : list string * (string * bool) :=
  match s with
  | EmptyString => ([], (name, inside))
  | String c s =>
      if bool_decide (c = "?"%char) then let (names, st) := scan s name false in (name :: names, st)
      else if is_separator c then scan s name false
      else if inside then scan s (name +:+ String c "") true
      else scan s (String c "") true
  end.

Definition placeholders (query : string) : list string := (scan query "" false).1.

(** A name without separators. *)
Fixpoint plain_chars (s : string) : bool :=
  match s with
  | EmptyString => true
  | String c s => negb (bool_decide (c = "?"%char)) && negb (is_separator c) && plain_chars s
  end.

Definition plain (s : string) : bool := negb (bool_decide (s = "")) && plain_chars s.

Lemma scan_app a b name inside :
  scan (a +:+ b) name inside =
  let '(n1, (name1, in1)) := scan a name inside in
  let '(n2, st) := scan b name1 in1 in (n1 ++ n2, st).
Proof.
  revert name inside. induction a as [|c a IH]; intros name inside;
    [change ("" +:+ b) with b; cbn; by destruct (scan b name inside)|].
  rewrite string_app_cons. cbn.
  case_bool_decide; [|case_match; [apply IH|case_match; apply IH]].
  rewrite IH. destruct (scan a name false) as [n1 [name1 in1]]. by destruct (scan b name1 in1).
Qed.

Lemma string_app_snoc a c b : (a +:+ String c "") +:+ b = a +:+ String c b.
Proof. induction a as [|d a IH]; [done|]. by rewrite !string_app_cons, IH. Qed.

Lemma scan_inside n name : plain_chars n = true -> scan n name true = ([], (name +:+ n, true)).
Proof.
  revert name. induction n as [|c n IH]; intros name Hp; cbn.
  - do 2 f_equal. induction name as [|d name IH]; [done|]. by rewrite string_app_cons, <- IH.
  - cbn in Hp. apply andb_true_iff in Hp as [[Hq%negb_true_iff Hs%negb_true_iff]%andb_true_iff Hn].
    rewrite Hq, Hs, IH by done. by rewrite string_app_snoc.
Qed.

Lemma scan_plain n name : plain n = true -> scan n name false = ([], (n, true)).
Proof.
  unfold plain. destruct n as [|c n]; [done|]. rewrite bool_decide_false by done. cbn. intros [[Hq%negb_true_iff Hs%negb_true_iff]%andb_true_iff Hn]%andb_true_iff.
  by rewrite Hq, Hs, scan_inside.
Qed.

(** Assignments [n = ?] joined by separators. *)
Section Assignments.
Variable sep suffix : string.
Hypothesis scan_suffix : forall name, scan suffix name true = ([name], (name, false)).
Hypothesis scan_sep : forall name, exists name', scan sep name false = ([], (name', false)).

Lemma scan_join ns name :
  Forall (fun n => plain n = true) ns ->
  exists name', scan (join sep ((fun n => n +:+ suffix) <$> ns)) name false = (ns, (name', false)).
Proof.
  intros HF. revert name. induction HF as [|n ns Hn HF IH]; intros name; [by eexists|].
  assert (scan (n +:+ suffix) name false = ([n], (n, false))) as Hone.
  { rewrite scan_app, scan_plain, scan_suffix by done. done. }
  destruct ns as [|m ns]; [cbn [fmap list_fmap join]; rewrite Hone; by eexists|].
  change (join sep ((fun n => n +:+ suffix) <$> n :: m :: ns))
    with ((n +:+ suffix) +:+ sep +:+ join sep ((fun n => n +:+ suffix) <$> m :: ns)).
  rewrite scan_app, Hone, scan_app. destruct (scan_sep n) as [name1 ->].
  destruct (IH name1) as [name2 ->]. by eexists.
Qed.
End Assignments.


(** ** Insertions *)

Lemma filter_partition {A} (P : A -> bool) (l : list A) :
  List.filter (fun x => negb (P x)) l ++ List.filter P l ≡ₚ l.
Proof.
  induction l as [|x l IH]; [done|]. cbn. destruct (P x); cbn; [|by rewrite IH].
  rewrite <- Permutation_middle. by rewrite IH.
Qed.

Lemma numbered_positions fields : (numbered fields).*2 = seq 0 (length fields).
Proof.
  unfold numbered. apply list_eq. intros i. rewrite list_lookup_fmap, list_lookup_imap.
  destruct (fields !! i) eqn:Hf; cbn.
  - symmetry. apply lookup_seq. split; [done|]. by eapply lookup_lt_Some.
  - symmetry. apply lookup_seq_ge. by apply lookup_ge_None.
Qed.

Lemma numbered_elem fields c : c ∈ numbered fields -> exists f, fields !! c.2 = Some f /\ c.1 = field_name f.
Proof.
  unfold numbered. intros [i Hi]%list_elem_of_lookup. rewrite list_lookup_imap in Hi.
  destruct (fields !! i) as [f|] eqn:Hf; [|done]. injection Hi as <-. by exists f.
Qed.

(** Each placeholder is for the column of the parameter at its position. *)
Definition binds (fields : list Field) (target : string -> string) (sink : MySqlDmlSink) : Prop :=
  Forall2 (fun n pos => exists f, fields !! pos = Some f /\ n = target (field_name f))
    (placeholders (query_string sink)) (columns_projection sink).

Definition plain_table (t : TableRef) : Prop := plain_chars (schema t) = true /\ plain_chars (table t) = true.

Lemma scan_target t name : plain_table t ->
  exists name' inside, scan (schema t +:+ "." +:+ table t) name false = ([], (name', inside)).
Proof.
  intros [Hs Ht]. rewrite scan_app.
  assert (exists n1 i1, scan (schema t) name false = ([], (n1, i1))) as (n1 & i1 & ->).
  { destruct (schema t) as [|c s] eqn:Es; [by do 2 eexists|]. do 2 eexists. rewrite <- Es in *. apply scan_plain.
    unfold plain. rewrite Hs, Es. by rewrite bool_decide_false. }
  rewrite scan_app.
  assert (exists n2, scan "." n1 i1 = ([], (n2, true))) as (n2 & ->) by (destruct i1; by eexists).
  rewrite scan_inside by done. by do 2 eexists.
Qed.

Lemma strip_target n : starts_with DUPLICATE_VALUE_PFX n = false -> target_column n = n.
Proof.
  unfold starts_with, target_column. destruct (strip_prefix DUPLICATE_VALUE_PFX n); [|done].
  rewrite bool_decide_true; [done|by eexists].
Qed.

Lemma join_cons_nonempty sep (f : string * nat -> string) c l :
  (forall c, f c <> "") -> join sep (f <$> c :: l) <> "".
Proof.
  intros Hf. destruct l as [|d l]; [apply Hf|].
  change (join sep (f <$> c :: d :: l)) with (f c +:+ sep +:+ join sep (f <$> d :: l)).
  specialize (Hf c). by destruct (f c).
Qed.

Lemma scan_insert_sep name : exists name', scan "," name false = ([], (name', false)).
Proof. by eexists. Qed.

Lemma scan_assignments sep suffix {A} (f : A -> string) (l : list A) name :
  (forall name, scan suffix name true = ([name], (name, false))) ->
  (forall name, exists name', scan sep name false = ([], (name', false))) ->
  (forall c, c ∈ l -> plain (f c) = true) ->
  exists name', scan (join sep ((fun c => f c +:+ suffix) <$> l)) name false = (f <$> l, (name', false)).
Proof.
  intros Hsuf Hsep Hp. destruct (scan_join sep suffix Hsuf Hsep (f <$> l) name) as [name' Hn].
  - apply Forall_fmap, Forall_forall. exact Hp.
  - exists name'. by rewrite <- Hn, <- list_fmap_compose.
Qed.

Lemma scan_statement verb t keyword rest name i1 :
  plain_table t -> scan verb "" false = ([], (name, false)) ->
  (forall name i, scan keyword name i = ([], (i1, false))) ->
  placeholders (verb +:+ schema t +:+ "." +:+ table t +:+ keyword +:+ rest) = (scan rest i1 false).1.
Proof.
  intros Ht Hv Hk. unfold placeholders. rewrite scan_app, Hv.
  replace (schema t +:+ "." +:+ table t +:+ keyword +:+ rest)
    with ((schema t +:+ "." +:+ table t) +:+ keyword +:+ rest) by by rewrite !string_app_assoc.
  rewrite scan_app. destruct (scan_target t name Ht) as (n1 & i & ->). rewrite scan_app, Hk.
  by destruct (scan rest i1 false).
Qed.

Lemma insert_placeholders target fields :
  plain_table target -> (forall f, f ∈ fields -> plain (target_column (field_name f)) = true) ->
  let is_dup (c : string * nat) := starts_with DUPLICATE_VALUE_PFX c.1 in
  placeholders (query_string (dml_insert target fields)) =
  (fun c => target_column c.1) <$>
    (List.filter (fun c => negb (is_dup c)) (numbered fields) ++ List.filter is_dup (numbered fields)).
Proof.
  intros Ht Hp. cbv zeta. unfold dml_insert. cbn [query_string].
  set (columns := List.filter (fun c => negb (starts_with DUPLICATE_VALUE_PFX c.1)) (numbered fields)).
  set (dups := List.filter (fun c => starts_with DUPLICATE_VALUE_PFX c.1) (numbered fields)).
  assert (forall c, c ∈ numbered fields -> plain (target_column c.1) = true) as Hplain.
  { intros c (f & Hf & ->)%numbered_elem. apply Hp. by eapply list_elem_of_lookup_2. }
  assert (forall c, c ∈ columns -> c.1 = target_column c.1 /\ plain c.1 = true) as Hcols.
  { intros c [Hc Hd]%list_elem_of_In%filter_In. apply negb_true_iff in Hd. rewrite strip_target by done.
    split; [done|]. rewrite <- (strip_target c.1) by done. apply Hplain. by apply list_elem_of_In. }
  rewrite (scan_statement "INSERT INTO " target " SET " _ "INTO" "SET"); [|done|done|by intros ? []].
  destruct (scan_assignments "," "=?" fst columns "SET") as [name1 Hn1];
    [done|by eexists|by intros c Hc; apply Hcols|].
  rewrite scan_app, Hn1, fmap_app.
  assert (fst <$> columns = (fun c => target_column c.1) <$> columns) as ->.
  { apply list_fmap_ext. intros i c Hc%list_elem_of_lookup_2. by apply Hcols. }
  case_bool_decide as He.
  - assert (dups = []) as ->.
    { destruct dups as [|c l] eqn:Ed; [done|]. exfalso. revert He. apply join_cons_nonempty. intros d.
      by destruct (default d.1 (strip_prefix DUPLICATE_VALUE_PFX d.1)). }
    done.
  - rewrite scan_app. change (scan " ON DUPLICATE KEY UPDATE " name1 false) with (@nil string, ("UPDATE", false)).
    destruct (scan_assignments "," "=?" (fun c : string * nat => target_column c.1) dups "UPDATE") as [name2 Hn2];
      [done|by eexists| |].
    + intros c [Hc _]%list_elem_of_In%filter_In. apply Hplain. by apply list_elem_of_In.
    + unfold target_column in Hn2 at 1. rewrite Hn2. done.
Qed.

(** The parameters of an insertion go to the right columns: the statement has one
    placeholder per column of the batch, each column is sent exactly once, and the
    placeholder of a parameter is for the column that the parameter comes from
    (without the prefix that marks the values of ON DUPLICATE KEY UPDATE). *)
Theorem insert_binds_columns target fields :
  plain_table target -> (forall f, f ∈ fields -> plain (target_column (field_name f)) = true) ->
  binds fields target_column (dml_insert target fields) /\
  columns_projection (dml_insert target fields) ≡ₚ seq 0 (length fields).
Proof.
  intros Ht Hp. split.
  - unfold binds. rewrite insert_placeholders by done. cbn [columns_projection dml_insert]. rewrite <- fmap_app.
    apply Forall2_fmap_l, Forall2_fmap_r, Forall_Forall2_diag, Forall_forall. intros c Hc.
    assert (c ∈ numbered fields) as (f & Hf & Hn)%numbered_elem; [|exists f; by rewrite Hn].
    rewrite elem_of_app, !list_elem_of_In, !filter_In in Hc. apply list_elem_of_In. tauto.
  - cbn [columns_projection dml_insert]. rewrite <- fmap_app, <- numbered_positions. apply fmap_Permutation, filter_partition.
Qed.

(** ** Updates *)

Definition is_current (f : Field) : bool := starts_with CURRENT_VALUE_PREFIX (field_name f).
Definition is_filter (f : Field) : bool := starts_with FILTER_PREFIX (field_name f).

(** The column that a field of an update writes or selects on. *)
Definition update_target (n : string) : string := default n (strip_prefix FILTER_PREFIX n).

Lemma substring_all s m : String.length s <= m -> String.substring 0 m s = s.
Proof. revert m. induction s as [|c s IH]; intros [|m] Hm; cbn in *; try done; [lia|]. rewrite IH by lia. done. Qed.

Lemma substring_skip p s m : String.substring (String.length p) m (p +:+ s) = String.substring 0 m s.
Proof. induction p as [|c p IH]; [done|]. exact IH. Qed.

Lemma filter_suffix n : starts_with FILTER_PREFIX n = true ->
  String.substring (String.length FILTER_PREFIX) (String.length n) n = update_target n.
Proof.
  unfold starts_with, update_target. intros Hs%bool_decide_eq_true. destruct Hs as [r Hr]. rewrite Hr.
  apply strip_prefix_Some in Hr as ->. rewrite substring_skip, substring_all; [done|].
  rewrite string_length_app. lia.
Qed.

Lemma update_target_other n : starts_with FILTER_PREFIX n = false -> update_target n = n.
Proof.
  unfold starts_with, update_target. destruct (strip_prefix FILTER_PREFIX n); [|done].
  rewrite bool_decide_true; [done|by eexists].
Qed.

(** The fields an update sends, in the order of its placeholders. *)
Definition update_fields (fields : list Field) : list Field :=
  let sent := List.filter (fun f => negb (is_current f)) fields in
  List.filter (fun f => negb (is_filter f)) sent ++ List.filter is_filter sent.

Lemma update_placeholders target fields sink :
  plain_table target -> (forall f, f ∈ fields -> plain (update_target (field_name f)) = true) ->
  dml_update target fields = Ok sink ->
  placeholders (query_string sink) = (fun f => update_target (field_name f)) <$> update_fields fields.
Proof.
  intros Ht Hp. unfold dml_update, build_query_string_and_projection, update_fields. cbv zeta.
  change (fun f => negb (starts_with CURRENT_VALUE_PREFIX (field_name f))) with (fun f => negb (is_current f)).
  set (sent := List.filter (fun f => negb (is_current f)) fields).
  change (fun f => starts_with FILTER_PREFIX (field_name f)) with is_filter.
  change (fun f => negb (starts_with FILTER_PREFIX (field_name f))) with (fun f => negb (is_filter f)).
  set (filters := List.filter is_filter sent). set (updates := List.filter (fun f => negb (is_filter f)) sent).
  intros Hs. destruct (result_mapM _ _) as [proj|]; [|done]. cbn [result_bind] in Hs.
  apply Ok_inj in Hs as <-. cbn [query_string].
  assert (forall f, f ∈ sent -> plain (update_target (field_name f)) = true) as Hsent.
  { intros f [Hf _]%list_elem_of_In%filter_In. apply Hp. by apply list_elem_of_In. }
  assert (forall f, f ∈ updates -> f ∈ sent /\ field_name f = update_target (field_name f)) as Hup.
  { intros f [Hf Hn%negb_true_iff]%list_elem_of_In%filter_In. rewrite update_target_other by done.
    by rewrite list_elem_of_In. }
  assert (forall f, f ∈ filters -> f ∈ sent /\
    String.substring (String.length FILTER_PREFIX) (String.length (field_name f)) (field_name f) = update_target (field_name f)) as Hfi.
  { intros f [Hf Hn]%list_elem_of_In%filter_In. rewrite list_elem_of_In. split; [done|]. by apply filter_suffix. }
  rewrite (scan_statement "UPDATE " target " SET " _ "UPDATE" "SET"); [|done|done|by intros ? []].
  destruct (scan_assignments ", " " = ?" field_name updates "SET") as [n1 Hn1];
    [done|by eexists|by intros f Hf; destruct (Hup f Hf) as [? ->]; apply Hsent|].
  rewrite scan_app, Hn1, scan_app. change (scan " WHERE " n1 false) with (@nil string, ("WHERE", false)).
  destruct (scan_assignments " AND " " = ?"
    (fun f => String.substring (String.length FILTER_PREFIX) (String.length (field_name f)) (field_name f)) filters "WHERE")
    as [n2 Hn2]; [done|by eexists|by intros f Hf; destruct (Hfi f Hf) as [? ->]; apply Hsent|].
  rewrite Hn2, fmap_app. cbn [fst]. f_equal; apply list_fmap_ext; intros i f Hf%list_elem_of_lookup_2;
    [by apply Hup|by apply Hfi].
Qed.

Lemma update_projection target fields sink :
  dml_update target fields = Ok sink ->
  Forall2 (fun f pos => index_of (field_name f) fields = Some pos) (update_fields fields) (columns_projection sink).
Proof.
  unfold dml_update, build_query_string_and_projection, update_fields. cbv zeta.
  change (fun f => negb (starts_with CURRENT_VALUE_PREFIX (field_name f))) with (fun f => negb (is_current f)).
  set (sent := List.filter (fun f => negb (is_current f)) fields).
  change (fun f => starts_with FILTER_PREFIX (field_name f)) with is_filter.
  change (fun f => negb (starts_with FILTER_PREFIX (field_name f))) with (fun f => negb (is_filter f)).
  set (fs := List.filter (fun f => negb (is_filter f)) sent ++ List.filter is_filter sent).
  intros Hs. destruct (result_mapM _ fs) as [proj|] eqn:Hm; [|done]. cbn [result_bind] in Hs. apply Ok_inj in Hs as <-.
  cbn [columns_projection]. clearbody fs. revert proj Hm.
  induction fs as [|f fs IH]; intros proj Hm; cbn in Hm; inv_ok; constructor; [|by apply IH].
  destruct (index_of (field_name f) fields); by inv_ok.
Qed.

Lemma update_fields_elem fields f : f ∈ update_fields fields <-> f ∈ fields /\ is_current f = false.
Proof.
  unfold update_fields. rewrite elem_of_app, !list_elem_of_In, !filter_In, !negb_true_iff.
  destruct (is_filter f); naive_solver.
Qed.

Lemma index_of_elem fields f :
  NoDup (field_name <$> fields) -> f ∈ fields ->
  exists pos, index_of (field_name f) fields = Some pos /\ fields !! pos = Some f.
Proof. intros Hnd [pos Hf]%list_elem_of_lookup. exists pos. split; [by eapply index_of_nodup|done]. Qed.

Lemma dml_update_ok target fields :
  NoDup (field_name <$> fields) -> exists sink, dml_update target fields = Ok sink.
Proof.
  intros Hnd. unfold dml_update, build_query_string_and_projection. cbv zeta.
  match goal with |- context [result_mapM ?g ?l] =>
    assert (exists k, result_mapM g l = Ok k) as [k Hk]; [apply result_mapM_ok, Forall_forall; intros f Hf|] end.
  - destruct (index_of_elem fields f Hnd) as (pos & -> & _); [|by eexists].
    apply (update_fields_elem fields f). exact Hf.
  - rewrite Hk. by eexists.
Qed.

Lemma update_fields_nodup fields : NoDup (field_name <$> fields) -> NoDup (update_fields fields).
Proof.
  intros Hnd%NoDup_fmap_1. unfold update_fields. cbv zeta. rewrite filter_partition.
  by apply NoDup_ListNoDup, List.NoDup_filter, NoDup_ListNoDup.
Qed.

(** The parameters of an update go to the right columns: the columns to set come
    first and the key columns that select the row last, each placeholder is for
    the column that its parameter comes from, every column of the batch is sent,
    and the current values that were only read for the indices never are. *)
Theorem update_binds_columns target fields :
  plain_table target -> (forall f, f ∈ fields -> plain (update_target (field_name f)) = true) ->
  NoDup (field_name <$> fields) ->
  exists sink, dml_update target fields = Ok sink /\ binds fields update_target sink /\
    NoDup (columns_projection sink) /\
    forall pos f, fields !! pos = Some f -> (pos ∈ columns_projection sink <-> is_current f = false).
Proof.
  intros Ht Hp Hnd. destruct (dml_update_ok target fields Hnd) as [sink Hs].
  pose proof (update_projection target fields sink Hs) as Hproj.
  apply (Forall2_impl_elem _ (fun f pos => fields !! pos = Some f)) in Hproj.
  2:{ intros f pos Hf Hpos. apply update_fields_elem in Hf as [Hf _].
      destruct (index_of_elem fields f Hnd Hf) as (pos' & Hpos' & Hl). congruence. }
  exists sink. split_and!; [done| | |].
  - unfold binds. rewrite (update_placeholders target fields) by done. apply Forall2_fmap_l.
    apply (Forall2_impl _ _ _ _ Hproj). eauto.
  - apply NoDup_alt. intros i j pos Hi Hj.
    destruct (Forall2_lookup_r _ _ _ _ _ Hproj Hi) as (f & Hf & Hfp), (Forall2_lookup_r _ _ _ _ _ Hproj Hj) as (g & Hg & Hgp).
    assert (f = g) as -> by congruence. eapply (NoDup_lookup (update_fields fields)); try done.
    by apply update_fields_nodup.
  - intros pos f Hf. split.
    + intros [k Hk]%list_elem_of_lookup. destruct (Forall2_lookup_r _ _ _ _ _ Hproj Hk) as (g & Hg%list_elem_of_lookup_2 & Hgp).
      apply update_fields_elem in Hg as [_ Hc]. congruence.
    + intros Hc. assert (f ∈ update_fields fields) as [k Hk]%list_elem_of_lookup
        by (apply update_fields_elem; split; [by eapply list_elem_of_lookup_2|done]).
      destruct (Forall2_lookup_l _ _ _ _ _ Hproj Hk) as (pos' & Hpos' & Hl).
      assert (pos' = pos) as ->; [|by eapply list_elem_of_lookup_2].
      eapply (NoDup_lookup _ _ _ (field_name f) Hnd); rewrite list_lookup_fmap; [by rewrite Hl|by rewrite Hf].
Qed.

(** The placeholders of a deletion are the columns of its batches, in order. *)
Lemma delete_placeholders target fields :
  plain_table target -> (forall f, f ∈ fields -> plain (field_name f) = true) ->
  placeholders (delete_query target fields) = field_name <$> fields.
Proof.
  intros Ht Hp. unfold delete_query. rewrite (scan_statement "DELETE FROM " target " WHERE " _ "FROM" "WHERE");
    [|done|done|by intros ? []].
  destruct (scan_assignments " AND " " = ?" field_name fields "WHERE") as [n1 Hn1]; [done|by eexists|done|]. by rewrite Hn1.
Qed.

(** An update that assigns to each column its own value has nothing to set, and the
    statement is not valid SQL. *)
Lemma update_without_change target key :
  exists sink, dml_update target [{| field_name := FILTER_PREFIX +:+ key; field_type := DtInt32; field_nullable := false;
                                     field_metadata := ∅ |}] = Ok sink /\
    query_string sink = "UPDATE " +:+ schema target +:+ "." +:+ table target +:+ " SET  WHERE " +:+ key +:+ " = ?".
Proof.
  eexists. unfold dml_update. cbn [List.filter field_name]. 
  assert (starts_with CURRENT_VALUE_PREFIX (FILTER_PREFIX +:+ key) = false) as -> by done.
  cbn [negb List.filter field_name]. rewrite starts_with_app. cbn [negb List.filter field_name].
  unfold build_query_string_and_projection. cbn [fmap list_fmap join field_name app result_mapM].
  rewrite substring_skip, substring_all by (rewrite string_length_app; lia).
  unfold index_of. cbn [list_find field_name]. rewrite decide_True by done. cbn [fmap option_fmap option_map fst result_bind].
  split; [done|]. done.
Qed.

(** ** Splitting batches *)

(** The columns of the [pos]-th sink of a list. *)
Definition sink_offset (sinks : list RecordBatchSink) (pos : nat) : nat :=
  length (mjoin (input_schema <$> take pos sinks)).

Definition sink_slice (sinks : list RecordBatchSink) (pos : nat) (sink : RecordBatchSink) (b : RecordBatch) : RecordBatch :=
  {| batch_schema := input_schema sink;
     batch_columns := take (length (input_schema sink)) (drop (sink_offset sinks pos) (batch_columns b));
     batch_rows := batch_rows b |}.

Lemma batch_ok_columns b :
  batch_ok b <-> length (batch_schema b) = length (batch_columns b) /\
    forall i f a, batch_schema b !! i = Some f -> batch_columns b !! i = Some a ->
      column_matches (batch_rows b) f a = true.
Proof.
  split.
  - intros Hb. split; [by apply batch_ok_length|]. intros i f a Hf Ha.
    destruct (batch_ok_lookup b i f Hb Hf) as (a' & Ha' & Hm). congruence.
  - intros [Hl HF]. unfold batch_ok. rewrite try_new_ok by done. by destruct b.
Qed.

(** A batch that matches the schemas of the sinks side by side is split in batches
    that match each schema. *)
Lemma split_batch_ok sinks columns rows :
  record_batch_try_new (mjoin (input_schema <$> sinks)) columns rows =
    Ok {| batch_schema := mjoin (input_schema <$> sinks); batch_columns := columns; batch_rows := rows |} ->
  split_batch sinks columns rows =
    Ok (imap (fun pos sink => sink_slice sinks pos sink
          {| batch_schema := mjoin (input_schema <$> sinks); batch_columns := columns; batch_rows := rows |}) sinks).
Proof.
  intros Hb. apply (batch_ok_columns {| batch_schema := _; batch_columns := _; batch_rows := _ |}) in Hb as [Hl HF].
  cbn in Hl, HF. revert columns Hl HF. induction sinks as [|s sinks IH]; intros columns Hl HF; [done|].
  change (mjoin (input_schema <$> s :: sinks)) with (input_schema s ++ mjoin (input_schema <$> sinks)) in *.
  rewrite length_app in Hl. cbn [split_batch]. unfold remove_columns. rewrite bool_decide_true by lia.
  cbn [result_bind]. rewrite try_new_ok.
  - cbn [result_bind]. rewrite IH; [| |].
    + cbn [result_bind imap]. do 2 f_equal. apply imap_ext. intros i x _. unfold sink_slice, sink_offset. cbn.
      f_equal. rewrite drop_drop, length_app. done.
    + rewrite length_drop. lia.
    + intros i f a Hf Ha. rewrite lookup_drop in Ha. eapply HF; [|exact Ha]. rewrite lookup_app_r by lia.
      by replace (length (input_schema s) + i - length (input_schema s)) with i by lia.
  - rewrite length_take. lia.
  - intros i f a Hf Ha. apply lookup_take_Some in Ha as [Ha _]. eapply HF; [|exact Ha]. by apply lookup_app_l_Some.
Qed.

Lemma result_mapM_pure {A B} (f : A -> result B) (g : A -> B) l :
  (forall a, a ∈ l -> f a = Ok (g a)) -> result_mapM f l = Ok (g <$> l).
Proof.
  induction l as [|a l IH]; intros Hf; [done|]. cbn. rewrite Hf by left. cbn.
  rewrite IH; [done|]. intros b Hb. apply Hf. by right.
Qed.

Lemma batches_of_sink_imap (g : nat -> RecordBatchSink -> RecordBatch -> RecordBatch) sinks data pos s :
  sinks !! pos = Some s -> batches_of_sink ((fun b => imap (fun p s => g p s b) sinks) <$> data) pos = g pos s <$> data.
Proof.
  intros Hs. unfold batches_of_sink. induction data as [|b data IH]; [done|]. cbn.
  rewrite list_lookup_imap, Hs. cbn. by f_equal.
Qed.

(** Splitting a batch between the table and its indices: each sink gets, in the
    order of the sinks and for every batch, exactly the columns of its own schema;
    all sinks run in order and the largest row count is reported. *)
Theorem multiplex_splits sink more conn data :
  more <> [] -> let sinks := sink :: more in
  Forall (fun b => batch_ok b /\ batch_schema b = input_schema (chain_sink sink more)) data ->
  input_schema (chain_sink sink more) = mjoin (input_schema <$> sinks) /\
  handle_batches (chain_sink sink more) conn data =
    run_sinks (imap (fun pos s => (s, sink_slice sinks pos s <$> data)) sinks) dml_empty conn.
Proof.
  intros Hm sinks Hd. unfold chain_sink in *. destruct more as [|s1 more]; [done|]. clear Hm.
  set (m := foldl add_sink (multiplex_one sink) (s1 :: more)) in *.
  assert (mx_sinks m = sinks) as Hs by (unfold m; rewrite add_sinks_sinks; done).
  assert (mx_schema m = mjoin (input_schema <$> sinks)) as Hsch by (unfold m; rewrite add_sinks_schema; done).
  clearbody m sinks. split; [exact Hsch|]. cbn [handle_batches multiplex_sink]. unfold multiplex_handle_batches. rewrite Hs.
  rewrite (result_mapM_pure _ (fun b => imap (fun pos s => sink_slice sinks pos s b) sinks)).
  - f_equal. apply imap_ext. intros i s Hi. f_equal. by apply (batches_of_sink_imap (sink_slice sinks)).
  - intros b Hb. rewrite Forall_forall in Hd. destruct (Hd b Hb) as [Hok Heq].
    change (input_schema (multiplex_sink m)) with (mx_schema m) in Heq. rewrite Hsch in Heq.
    destruct b as [fs cs n]. cbn in Heq |- *. subst fs. by apply split_batch_ok.
Qed.

(** ** A column of another type *)

Lemma try_new_mismatch fields columns rows i f a :
  fields !! i = Some f -> columns !! i = Some a -> data_type a <> field_type f ->
  exists e, record_batch_try_new fields columns rows = Err (ExecError e).
Proof.
  intros Hf Ha Ht. unfold record_batch_try_new. destruct (bool_decide _ && _) eqn:Hc; [|by eexists].
  apply andb_true_iff in Hc as [_ Hc]. rewrite forallb_forall in Hc.
  assert (id (column_matches rows f a) = true) as Hm.
  { apply Hc, list_elem_of_In, list_elem_of_lookup. exists i. by rewrite lookup_zip_with, Hf, Ha. }
  unfold id, column_matches in Hm. by rewrite (bool_decide_false (data_type a = field_type f)) in Hm by done.
Qed.

(** The sink of the inverted index expects binary identifiers; when the row
    identifier is the primary key itself, the projection of an insertion gives the
    key with its own type, and the whole batch is refused before anything is sent. *)
Lemma natural_key_insert_refused {X} (r : RowIdColumn) dt fields (e : PhysExpr (X := X)) table_sink index_sink
    id_name terms_field conn b index_type :
  rowid_source r = DirectPrimaryKey dt -> rowid_bin_physical r fields = Ok e ->
  input_schema index_sink =
    [{| field_name := id_name; field_type := DtBinary; field_nullable := false; field_metadata := ∅ |}; terms_field] ->
  (exists id_column, batch_columns b !! length (input_schema table_sink) = Some id_column /\
     Ok (data_type id_column) = expr_type index_type e fields) ->
  dt <> DtBinary ->
  exists err, handle_batches (chain_sink table_sink [index_sink]) conn [b] = (conn, Err err).
Proof.
  intros Hr He Hi (a & Ha & Hty) Hdt. unfold rowid_bin_physical in He. rewrite Hr in He. inv_ok. cbn in Hty.
  injection Hty as Hty. cbn [chain_sink foldl handle_batches multiplex_sink]. unfold multiplex_handle_batches.
  cbn [mx_sinks add_sink multiplex_one multiplex_empty app result_mapM split_batch].
  unfold remove_columns at 1. case_bool_decide; [|by eexists]. cbn [result_bind].
  destruct (record_batch_try_new (input_schema table_sink) _ _); [|by eexists]. cbn [result_bind]. unfold remove_columns.
  case_bool_decide; [|by eexists]. cbn [result_bind].
  destruct (try_new_mismatch (input_schema index_sink)
    (take (length (input_schema index_sink)) (drop (length (input_schema table_sink)) (batch_columns b))) (batch_rows b)
    0 {| field_name := id_name; field_type := DtBinary; field_nullable := false; field_metadata := ∅ |} a) as [m ->];
    [by rewrite Hi| |cbn; congruence|by eexists].
  rewrite lookup_take_lt by (rewrite Hi; cbn; lia). rewrite lookup_drop, Nat.add_0_r. done.
Qed.

(** ** Sending rows *)

(** What a value means, for a column and for the server. Dates and times have a meaning
    of their own as columns; a number that is sent for one does not have it. *)
Inductive Meaning :=
  | MNull
  | MInteger (z : Z)
  | MFloat (bits : Z)
  | MDouble (bits : Z)
  | MText (bs : bytes)
  | MOther (dt : DataType) (z : Z).

Definition arrow_meaning (dt : DataType) (v : option ArrowValue) : option Meaning :=
  match v with
  | None => Some MNull
  | Some v =>
      match dt, v with
      | DtBoolean, VBool b => Some (MInteger (Z.b2z b))
      | (DtInt8 | DtInt16 | DtInt32 | DtInt64 | DtUInt8 | DtUInt16 | DtUInt32 | DtUInt64), VPrim z => Some (MInteger z)
      | DtFloat32, VPrim z => Some (MFloat z)
      | DtFloat64, VPrim z => Some (MDouble z)
      | (DtBinary | DtFixedSizeBinary _ | DtLargeBinary | DtBinaryView | DtUtf8 | DtLargeUtf8 | DtUtf8View), VBytes bs =>
          Some (MText bs)
      | dt, VPrim z => (fun _ => MOther dt z) <$> native dt
      | _, _ => None
      end
  end.

Definition my_meaning (v : MyValue) : option Meaning :=
  match v with
  | MyNULL => Some MNull
  | MyBytes bs => Some (MText bs)
  | MyInt z | MyUInt z => Some (MInteger z)
  | MyFloat bits => Some (MFloat bits)
  | MyDouble bits => Some (MDouble bits)
  | MyDate _ _ _ _ _ _ _ | MyTime _ _ _ _ _ _ => None
  end.

(** The types whose values are sent with their meaning. *)
Definition sendable (dt : DataType) : bool :=
  match dt with
  | DtBoolean | DtInt8 | DtInt16 | DtInt32 | DtInt64 | DtUInt8 | DtUInt16 | DtUInt32 | DtUInt64
  | DtFloat32 | DtFloat64
  | DtBinary | DtFixedSizeBinary _ | DtLargeBinary | DtBinaryView | DtUtf8 | DtLargeUtf8 | DtUtf8View => true
  | _ => false
  end.

(** The values of a column are of its type. *)
Definition meaningful (a : Array) : Prop := Forall (fun v => is_Some (arrow_meaning (data_type a) v)) (values a).

(** The values of row [i] of a batch in the columns at some positions. *)
Definition row_of (proj : list nat) (b : RecordBatch) (i : nat) (row : list MyValue) : Prop :=
  Forall2 (fun pos p => exists a v m, batch_columns b !! pos = Some a /\ values a !! i = Some v /\
    arrow_meaning (data_type a) v = Some m /\ my_meaning p = Some m) proj row.

(** The rows of the batches, in order. *)
Definition rows_of (proj : list nat) (data : list RecordBatch) (rows : list (list MyValue)) : Prop :=
  exists per_batch, rows = mjoin per_batch /\
    Forall2 (fun b rows => length rows = batch_rows b /\ forall i row, rows !! i = Some row -> row_of proj b i row)
      data per_batch.

(** Batches of a schema, whose columns at some positions can be sent. *)
Definition can_send (fields : list Field) (proj : list nat) (b : RecordBatch) : Prop :=
  batch_ok b /\ batch_schema b = fields /\ Forall meaningful (batch_columns b) /\
  Forall (fun pos => exists f, fields !! pos = Some f /\ sendable (field_type f) = true) proj.

Section SendRows.
Variable decimal_from_i128_with_scale : Z -> Z -> result bytes.
Variable from_timestamp_nanos : Z -> MyValue.
Variable prepares : string -> bool.
Variable accepts : list (Stmt (W := WriteStmt)) -> Stmt (W := WriteStmt) -> bool.
Variable server_last_insert_id : list (Stmt (W := WriteStmt)) -> option Z.

Let param := param_of decimal_from_i128_with_scale from_timestamp_nanos.

Lemma param_meaning dt v m :
  sendable dt = true -> arrow_meaning dt v = Some m -> exists p, param dt v = Ok p /\ my_meaning p = Some m.
Proof.
  unfold param. intros Hs Hm.
  destruct dt; try discriminate Hs; cbn; unfold downcast_to_value; destruct v as [[]|]; cbn in *; simplify_eq;
    by eexists.
Qed.

Lemma row_params_ok fields proj b columns i :
  can_send fields proj b -> Forall2 (fun pos a => batch_columns b !! pos = Some a) proj columns -> i < batch_rows b ->
  exists row, row_params decimal_from_i128_with_scale from_timestamp_nanos columns i = Ok row /\ row_of proj b i row.
Proof.
  intros (Hb & <- & Hm & HF) Hc Hi. unfold row_params.
  induction Hc as [|pos a proj columns Ha _ IH]; [exists []; split; [done|constructor]|].
  apply Forall_cons in HF as [(f & Hf & Hs) HF]. destruct (IH HF) as (row & Hrow & HR). cbn.
  apply batch_ok_columns in Hb as [_ Hcm]. specialize (Hcm pos f a Hf Ha). unfold column_matches in Hcm.
  apply andb_true_iff in Hcm as [[Hty%bool_decide_eq_true Hlen%bool_decide_eq_true]%andb_true_iff _].
  destruct (lookup_lt_is_Some_2 (values a) i) as [v Hv]; [lia|]. rewrite Hv.
  destruct (Forall_lookup_1 _ _ _ _ (Forall_lookup_1 _ _ _ _ Hm Ha) Hv) as [m Hmv].
  destruct (param_meaning (data_type a) v m) as (p & Hp & Hpm); [by rewrite Hty|done|]. unfold param in Hp. rewrite Hp.
  cbn. rewrite Hrow. exists (p :: row). split; [done|]. constructor; [|done]. by exists a, v, m.
Qed.

Lemma rows_ok fields proj b columns :
  can_send fields proj b -> Forall2 (fun pos a => batch_columns b !! pos = Some a) proj columns ->
  exists rows, row_params decimal_from_i128_with_scale from_timestamp_nanos columns <$> seq 0 (batch_rows b) = Ok <$> rows /\
    length rows = batch_rows b /\ forall i row, rows !! i = Some row -> row_of proj b i row.
Proof.
  intros Hb HC. assert (forall start n, start + n <= batch_rows b ->
    exists rows, row_params decimal_from_i128_with_scale from_timestamp_nanos columns <$> seq start n = Ok <$> rows /\
      length rows = n /\ forall i row, rows !! i = Some row -> row_of proj b (start + i) row) as Hrows.
  { intros start n. revert start. induction n as [|n IH]; intros start Hn; [by exists []|].
    destruct (row_params_ok fields proj b columns start Hb HC) as (row & Hrow & HR); [lia|].
    destruct (IH (S start)) as (rows & Hr & Hl & Hrr); [lia|]. exists (row :: rows). cbn. rewrite Hrow, Hr.
    split_and!; [done|by f_equal|]. intros [|i] r Hi; cbn in Hi; [injection Hi as <-; by rewrite Nat.add_0_r|].
    rewrite <- Nat.add_succ_comm. by apply Hrr. }
  destruct (Hrows 0 (batch_rows b) ltac:(lia)) as (rows & Hr & Hl & HR). by exists rows.
Qed.

Lemma map_rows_ok fields proj b :
  can_send fields proj b ->
  exists rows, map_rows_to_params_reordered decimal_from_i128_with_scale from_timestamp_nanos b (Some proj) = Ok (Ok <$> rows) /\
    length rows = batch_rows b /\ forall i row, rows !! i = Some row -> row_of proj b i row.
Proof.
  intros Hc. pose proof Hc as (Hb & <- & _ & HF). unfold map_rows_to_params_reordered.
  assert (exists columns, result_mapM (fun i => match batch_columns b !! i with
      | Some a => Ok a | None => Err (Panic "index out of bounds") end) proj = Ok columns /\
      Forall2 (fun pos a => batch_columns b !! pos = Some a) proj columns) as (columns & Hcol & HC).
  { clear -Hb HF. induction HF as [|pos proj (f & Hf & _) _ (columns & Hc & HC)]; [exists []; split; [done|constructor]|].
    destruct (batch_ok_lookup b pos f Hb Hf) as (a & Ha & _). cbn. rewrite Ha. cbn. rewrite Hc. cbn.
    exists (a :: columns). split; [done|]. by constructor. }
  rewrite Hcol. cbn [result_bind]. destruct (rows_ok _ proj b columns Hc HC) as (rows & -> & Hl & HR). by exists rows.
Qed.

(** Without a projection all columns are sent. *)
Lemma map_all_rows_ok fields b :
  can_send fields (seq 0 (length fields)) b ->
  exists rows, map_rows_to_params_reordered decimal_from_i128_with_scale from_timestamp_nanos b None = Ok (Ok <$> rows) /\
    length rows = batch_rows b /\ forall i row, rows !! i = Some row -> row_of (seq 0 (length fields)) b i row.
Proof.
  intros Hc. pose proof Hc as (Hb & Hs & _). unfold map_rows_to_params_reordered. cbn [result_bind].
  assert (Forall2 (fun pos a => batch_columns b !! pos = Some a) (seq 0 (length fields)) (batch_columns b)) as HC.
  { apply Forall2_same_length_lookup_2; [rewrite length_seq, <- Hs; by apply batch_ok_length|].
    intros i pos a Hp Ha. apply lookup_seq in Hp as [-> _]. done. }
  destruct (rows_ok _ _ b (batch_columns b) Hc HC) as (rows & -> & Hl & HR). by exists rows.
Qed.

Hypothesis accepts_writes : forall conn w, accepts conn (Write w) = true.

Lemma exec_batch_ok query rows (conn : Connection) :
  exec_batch accepts query (Ok <$> rows) conn = ((conn.1, conn.2 ++ ((fun r => Write (query, r)) <$> rows)), Ok tt).
Proof.
  revert conn. induction rows as [|r rows IH]; intros conn; cbn; [rewrite app_nil_r; by destruct conn|].
  rewrite accepts_writes, IH. cbn. by rewrite <- app_assoc.
Qed.

(** The parameters of the rows of the batches, in order. *)
Definition params_of (proj : list nat) (data : list RecordBatch) (rows : list (list MyValue)) : Prop :=
  exists per_batch, rows = mjoin per_batch /\
    Forall2 (fun b rows => length rows = batch_rows b /\
      map_rows_to_params_reordered decimal_from_i128_with_scale from_timestamp_nanos b (Some proj) = Ok (Ok <$> rows))
      data per_batch.

(** The types whose values are always converted, dates and times to numbers among them. *)
Definition convertible (dt : DataType) : bool :=
  match dt with
  | DtNull | DtTimestamp _ _ | DtDate32 | DtDate64 | DtTime32 (Second | Millisecond) | DtTime64 (Microsecond | Nanosecond)
  | DtDuration _ | DtInterval (YearMonth | MonthDayNano) => true
  | dt => sendable dt
  end.

Lemma param_total dt v : convertible dt = true -> exists p, param dt v = Ok p.
Proof.
  unfold param. intros Hc. destruct dt; try discriminate Hc; cbn in Hc; cbn; repeat case_match; try discriminate Hc;
    unfold downcast_to_value, on_prim, on_bytes; destruct v as [[]|]; cbn; by eexists.
Qed.

Lemma map_rows_total proj b :
  batch_ok b -> Forall (fun pos => exists f, batch_schema b !! pos = Some f /\ convertible (field_type f) = true) proj ->
  exists rows, length rows = batch_rows b /\
    map_rows_to_params_reordered decimal_from_i128_with_scale from_timestamp_nanos b (Some proj) = Ok (Ok <$> rows).
Proof.
  intros Hb HF. unfold map_rows_to_params_reordered.
  assert (exists columns, result_mapM (fun i => match batch_columns b !! i with
      | Some a => Ok a | None => Err (Panic "index out of bounds") end) proj = Ok columns /\
      Forall (fun a => convertible (data_type a) = true /\ length (values a) = batch_rows b) columns) as (columns & Hcol & HC).
  { induction HF as [|pos proj (f & Hf & Hc) _ (columns & Hcols & HC)]; [by exists []|].
    destruct (batch_ok_lookup b pos f Hb Hf) as (a & Ha & Hm). cbn. rewrite Ha. cbn. rewrite Hcols. cbn.
    exists (a :: columns). split; [done|]. constructor; [|done]. unfold column_matches in Hm.
    apply andb_true_iff in Hm as [[Hty%bool_decide_eq_true Hlen%bool_decide_eq_true]%andb_true_iff _]. by rewrite Hty. }
  rewrite Hcol. cbn [result_bind].
  assert (forall i, i < batch_rows b -> exists row, row_params decimal_from_i128_with_scale from_timestamp_nanos columns i = Ok row) as Hrow.
  { intros i Hi. unfold row_params. clear Hcol. induction HC as [|a columns [Hc Hl] _ [row Hr]]; [by eexists|]. cbn.
    destruct (lookup_lt_is_Some_2 (values a) i) as [v Hv]; [lia|]. rewrite Hv.
    destruct (param_total (data_type a) v Hc) as [p Hp]. unfold param in Hp. rewrite Hp. cbn. rewrite Hr. by eexists. }
  assert (forall n start, start + n <= batch_rows b -> exists rows, length rows = n /\
    row_params decimal_from_i128_with_scale from_timestamp_nanos columns <$> seq start n = Ok <$> rows) as Hrows.
  { induction n as [|n IH]; intros start Hn; [by exists []|]. destruct (Hrow start ltac:(lia)) as [row Hr].
    destruct (IH (S start) ltac:(lia)) as (rows & Hl & Hrs). exists (row :: rows). cbn. rewrite Hr, Hrs. by rewrite Hl. }
  destruct (Hrows (batch_rows b) 0 ltac:(lia)) as (rows & Hl & ->). by exists rows.
Qed.

(** Parameters that can be computed have the meaning of the row. *)
Lemma params_meaning fields proj data rows :
  Forall (can_send fields proj) data -> params_of proj data rows -> rows_of proj data rows.
Proof.
  intros HF (per & -> & HP). exists per. split; [done|]. revert HF. induction HP as [|b rows data per [Hl Hrows] _ IH]; [done|].
  intros [Hb HF]%Forall_cons. constructor; [|by apply IH]. split; [done|].
  destruct (map_rows_ok fields proj b Hb) as (rows' & Hrows' & _ & Hr). rewrite Hrows in Hrows'. injection Hrows' as Heq.
  assert (rows = rows') as ->; [|done]. apply (list_fmap_eq_inj Ok); [by intros ? ? [=]|done].
Qed.

Lemma dml_loop_params sink data rows n (conn : Connection) :
  (0 <= n)%Z -> (n + Z.of_nat (sum_list (batch_rows <$> data)) < 2 ^ 64)%Z ->
  Forall (fun b => batch_schema b = expected_input_schema sink) data -> params_of (columns_projection sink) data rows ->
  dml_loop decimal_from_i128_with_scale from_timestamp_nanos accepts sink n data conn =
    ((conn.1, conn.2 ++ ((fun r => Write (query_string sink, r)) <$> rows)),
     Ok (n + Z.of_nat (sum_list (batch_rows <$> data)))%Z).
Proof.
  intros Hn Hsum HF (per & -> & HP). revert n conn Hn Hsum HF.
  induction HP as [|b rows data per [Hl Hrows] _ IH]; intros n conn Hn Hsum HF.
  - cbn. rewrite app_nil_r, Z.add_0_r. by destruct conn.
  - change (sum_list (batch_rows <$> b :: data)) with (batch_rows b + sum_list (batch_rows <$> data)) in *.
    apply Forall_cons in HF as [Hs HF]. cbn [dml_loop]. rewrite bool_decide_true by done. cbn [negb]. rewrite Hrows.
    rewrite exec_batch_ok. rewrite wrap_u_id by (unfold fits_u; lia). rewrite IH; [|lia|lia|done].
    cbn [fst snd mjoin list_join]. rewrite fmap_app, app_assoc. do 2 f_equal. lia.
Qed.

Lemma dml_loop_ok sink data n (conn : Connection) :
  (0 <= n)%Z -> (n + Z.of_nat (sum_list (batch_rows <$> data)) < 2 ^ 64)%Z ->
  Forall (can_send (expected_input_schema sink) (columns_projection sink)) data ->
  exists rows, rows_of (columns_projection sink) data rows /\
    dml_loop decimal_from_i128_with_scale from_timestamp_nanos accepts sink n data conn =
      ((conn.1, conn.2 ++ ((fun r => Write (query_string sink, r)) <$> rows)),
       Ok (n + Z.of_nat (sum_list (batch_rows <$> data)))%Z).
Proof.
  intros Hn Hsum HF.
  assert (exists rows, params_of (columns_projection sink) data rows) as [rows Hrows].
  { clear Hsum. induction HF as [|b data Hb _ (rows & per & -> & HP)]; [exists []; by exists []|].
    destruct (map_rows_ok _ _ b Hb) as (rows & Hm & Hl & _). exists (mjoin (rows :: per)), (rows :: per). split; [done|]. by constructor. }
  exists rows. split; [by eapply params_meaning|]. apply dml_loop_params; try done.
  eapply Forall_impl; [exact HF|]. intros b Hb. apply Hb.
Qed.

Lemma delete_loop_ok query fields data n (conn : Connection) :
  (0 <= n)%Z -> (n + Z.of_nat (sum_list (batch_rows <$> data)) < 2 ^ 64)%Z ->
  Forall (can_send fields (seq 0 (length fields))) data ->
  exists rows, rows_of (seq 0 (length fields)) data rows /\
    delete_loop decimal_from_i128_with_scale from_timestamp_nanos accepts query n data conn =
      ((conn.1, conn.2 ++ ((fun r => Write (query, r)) <$> rows)),
       Ok (n + Z.of_nat (sum_list (batch_rows <$> data)))%Z).
Proof.
  intros Hn Hsum HF. revert n conn Hn Hsum.
  induction HF as [|b data Hb _ IH]; intros n conn Hn Hsum.
  - exists []. split; [by exists []|]. cbn. rewrite app_nil_r, Z.add_0_r. by destruct conn.
  - change (sum_list (batch_rows <$> b :: data)) with (batch_rows b + sum_list (batch_rows <$> data)) in *.
    cbn [delete_loop]. destruct (map_all_rows_ok fields b Hb) as (rows & -> & Hl & Hr).
    rewrite exec_batch_ok. rewrite wrap_u_id by (unfold fits_u; lia).
    destruct (IH (n + Z.of_nat (batch_rows b))%Z (conn.1, conn.2 ++ ((fun r => Write (query, r)) <$> rows)))
      as (rows' & (per & -> & Hper) & ->); [lia|lia|].
    exists (rows ++ mjoin per). split; [exists (rows :: per); split; [done|by constructor]|].
    cbn [fst snd]. rewrite fmap_app, app_assoc. do 2 f_equal. lia.
Qed.

(** ** The sink of a table *)

Inductive TableSink := TsDml (sink : MySqlDmlSink) | TsDelete (target : TableRef) (primary_key_schema : list Field).

Definition ts_query (s : TableSink) : string :=
  match s with TsDml sink => query_string sink | TsDelete target pk => delete_query target pk end.

Definition ts_schema (s : TableSink) : list Field :=
  match s with TsDml sink => expected_input_schema sink | TsDelete _ pk => pk end.

Definition ts_projection (s : TableSink) : list nat :=
  match s with TsDml sink => columns_projection sink | TsDelete _ pk => seq 0 (length pk) end.

Definition table_sink (s : TableSink) : RecordBatchSink :=
  match s with
  | TsDml sink =>
      dml_sink decimal_from_i128_with_scale from_timestamp_nanos prepares accepts server_last_insert_id sink
  | TsDelete target pk => delete_sink decimal_from_i128_with_scale from_timestamp_nanos prepares accepts target pk
  end.

(** The sink sends every row of every batch exactly once and in order, as one
    statement with the values of the row, and reports the number of rows. *)
Lemma table_sink_sends_rows s data (conn : Connection) :
  prepares (ts_query s) = true -> (Z.of_nat (sum_list (batch_rows <$> data)) < 2 ^ 64)%Z ->
  Forall (can_send (ts_schema s) (ts_projection s)) data ->
  exists rows r, rows_of (ts_projection s) data rows /\
    handle_batches (table_sink s) conn data =
      ((conn.1, conn.2 ++ ((fun row => Write (ts_query s, row)) <$> rows)), Ok r) /\
    num_rows r = Z.of_nat (sum_list (batch_rows <$> data)).
Proof.
  intros Hp Hsum HF. destruct s as [sink|target pk]; cbn in *.
  - destruct (dml_loop_ok sink data 0 conn ltac:(lia) Hsum HF) as (rows & Hrows & Hl).
    unfold dml_handle_batches. rewrite Hp, Hl. cbn [negb result_bind]. exists rows. eexists. split; [done|].
    split; [done|]. by destruct (if report_last_insert sink then _ else _).
  - destruct (delete_loop_ok (delete_query target pk) pk data 0 conn ltac:(lia) Hsum HF) as (rows & Hrows & Hl).
    unfold delete_handle_batches. rewrite Hp, Hl. cbn [negb result_bind]. by exists rows, (dml_new (Z.of_nat (sum_list (batch_rows <$> data)))).
Qed.
(** The rows of a fill, whose parameters are computed, are sent the same way. *)
Lemma dml_sends_params sink data rows (conn : Connection) :
  prepares (query_string sink) = true -> (Z.of_nat (sum_list (batch_rows <$> data)) < 2 ^ 64)%Z ->
  Forall (fun b => batch_schema b = expected_input_schema sink) data -> params_of (columns_projection sink) data rows ->
  exists r, dml_handle_batches decimal_from_i128_with_scale from_timestamp_nanos prepares accepts server_last_insert_id sink
    conn data = ((conn.1, conn.2 ++ ((fun row => Write (query_string sink, row)) <$> rows)), Ok r).
Proof.
  intros Hp Hsum HF Hrows. unfold dml_handle_batches. rewrite Hp, (dml_loop_params sink data rows 0 conn ltac:(lia) Hsum HF Hrows).
  cbn [negb]. by eexists.
Qed.
End SendRows.

Section Commit.
Variable decimal_from_i128_with_scale : Z -> Z -> result bytes.
Variable from_timestamp_nanos : Z -> MyValue.
Variable prepares : string -> bool.
Variable accepts : list (Stmt (W := WriteStmt)) -> Stmt (W := WriteStmt) -> bool.
Variable server_last_insert_id : list (Stmt (W := WriteStmt)) -> option Z.

(** The statement with the parameters of each row. *)
Definition row_stmts (query : string) (rows : list (list MyValue)) : list WriteStmt := map (fun row => (query, row)) rows.

Lemma write_row_stmts query rows : (fun row => Write (query, row)) <$> rows = Write <$> row_stmts query rows.
Proof. induction rows as [|row rows IH]; [done|]. cbn. by f_equal. Qed.

Lemma row_stmts_params query rows : map snd (row_stmts query rows) = rows.
Proof. unfold row_stmts. rewrite map_map. apply map_id. Qed.

(** C26: An INSERT, UPDATE or DELETE on a table without an index of its own storage,
    with autocommit on and no transaction open, succeeds when the server accepts its
    statements and the columns it sends are booleans, integers, floats, strings or
    bytes: every row of every batch is sent exactly once and in order, as one
    statement whose parameters mean what the row holds in the columns of the sink;
    all of them are committed at the end and nothing else is, and the number of rows
    is reported. *)
Theorem dml_statement_commits n s data (conn : Connection) :
  (forall conn st, accepts conn st = true) ->
  reachable accepts n conn -> (Z.of_nat n < 2 ^ 32 - 1)%Z -> autocommit conn.1 = true ->
  current_transaction conn.1 = None ->
  prepares (ts_query s) = true -> (Z.of_nat (sum_list (batch_rows <$> data)) < 2 ^ 64)%Z ->
  Forall (can_send (ts_schema s) (ts_projection s)) data ->
  exists rows r conn',
    rows_of (ts_projection s) data rows /\
    sink_exec accepts (table_sink decimal_from_i128_with_scale from_timestamp_nanos prepares accepts server_last_insert_id s)
      (Ok data) conn = (conn', Ok (dml_to_batch r)) /\
    num_rows r = Z.of_nat (sum_list (batch_rows <$> data)) /\
    committed (replay conn'.2) = committed (replay conn.2) ++ row_stmts (ts_query s) rows /\
    idle conn'.
Proof.
  intros Ha Hr Hn Hac Htx Hp Hsum HF.
  destruct (table_sink_sends_rows decimal_from_i128_with_scale from_timestamp_nanos prepares accepts server_last_insert_id
    ltac:(auto) s data (started conn) Hp Hsum HF) as (rows & r & Hrows & Hh & Hnum).
  rewrite write_row_stmts in Hh.
  destruct (started_effect accepts n conn (row_stmts (ts_query s) rows) Hr Hn Hac Htx) as (_ & Hcommit & _).
  destruct (step_returns accepts ((started conn).1, (started conn).2 ++ (Write <$> row_stmts (ts_query s) rows))
    OWeakCommit Ha) as [conn' Hc].
  cbn [step] in Hc. exists rows, r, conn'. split; [done|].
  assert (weak_start_transaction accepts conn = Ok (started conn)) as Hs.
  { unfold weak_start_transaction. rewrite Hac, Htx. unfold query_drop. by rewrite Ha. }
  unfold sink_exec. rewrite Hs. cbv beta iota. rewrite Hh.
  replace (weak_commit accepts _) with (Ok conn') by (symmetry; exact Hc). destruct (Hcommit _ Hc). by split_and!.
Qed.
End Commit.

(** Dates are sent as their number of days, and intervals of months, days and
    nanoseconds as NULL. *)
Lemma date_sent_as_number decimal timestamp days : param_of decimal timestamp DtDate32 (Some (VPrim days)) = Ok (MyInt days).
Proof. done. Qed.

Lemma interval_sent_as_null decimal timestamp v : param_of decimal timestamp (DtInterval MonthDayNano) v = Ok MyNULL.
Proof. done. Qed.

(** A DML result read back from the batch that reports it. *)
Lemma dml_result_roundtrip r : dml_try_from (dml_to_batch r) = Ok r.
Proof. by destruct r as [n [id|]]. Qed.

(** ** A concrete statement *)

Definition demo_insert_fields : list Field :=
  [demo_field "id" DtInt32 false; demo_field "__pr_dup__born" DtBinary true; demo_field "born" DtBinary true].

Lemma insert_binds_columns_witness :
  query_string (dml_insert demo_table_ref demo_insert_fields) =
    "INSERT INTO s.t SET id=?,born=? ON DUPLICATE KEY UPDATE born=?" /\
  binds demo_insert_fields target_column (dml_insert demo_table_ref demo_insert_fields) /\
  columns_projection (dml_insert demo_table_ref demo_insert_fields) ≡ₚ [0; 1; 2].
Proof.
  split; [reflexivity|]. apply (insert_binds_columns demo_table_ref demo_insert_fields); [by split|].
  apply (Forall_forall (fun f => plain (target_column (field_name f)) = true)). by repeat constructor.
Defined.

Definition demo_update_fields : list Field :=
  [demo_field "born" DtBinary true; demo_field "__pr_cur__born" DtBinary true; demo_field "__pr_flt__id" DtInt32 false].

Lemma update_binds_columns_witness :
  exists sink, dml_update demo_table_ref demo_update_fields = Ok sink /\
    query_string sink = "UPDATE s.t SET born = ? WHERE id = ?" /\ columns_projection sink = [0; 2] /\
    binds demo_update_fields update_target sink.
Proof.
  destruct (update_binds_columns demo_table_ref demo_update_fields) as (sink & Hs & Hb & _); [by split| | |].
  - apply (Forall_forall (fun f => plain (update_target (field_name f)) = true)). by repeat constructor.
  - apply (bool_decide_unpack _). by vm_compute.
  - exists sink. split; [exact Hs|]. vm_compute in Hs. injection Hs as <-. by split_and!.
Defined.

Definition demo_sink_batch : RecordBatch := {|
  batch_schema := [demo_field "id" DtInt32 false]; batch_columns := [demo_ids]; batch_rows := 2
|}.

Definition demo_dml : RecordBatchSink :=
  dml_sink (fun _ _ => Ok []) (fun _ => MyNULL) (fun _ => true) (fun _ _ => true) (fun _ => None)
    (dml_insert demo_table_ref [demo_field "id" DtInt32 false]).

Lemma multiplex_splits_witness :
  handle_batches (chain_sink demo_dml [demo_dml]) (transaction_control_default, [])
    [{| batch_schema := [demo_field "id" DtInt32 false; demo_field "id" DtInt32 false];
        batch_columns := [demo_ids; demo_ids]; batch_rows := 2 |}] =
  run_sinks [(demo_dml, [demo_sink_batch]); (demo_dml, [demo_sink_batch])] dml_empty (transaction_control_default, []).
Proof.
  apply (multiplex_splits demo_dml [demo_dml] (transaction_control_default, [])
    [{| batch_schema := [demo_field "id" DtInt32 false; demo_field "id" DtInt32 false];
        batch_columns := [demo_ids; demo_ids]; batch_rows := 2 |}]); [done|].
  constructor; [|constructor]. split; by vm_compute.
Defined.

Lemma demo_can_send : can_send [demo_field "id" DtInt32 false] [0] demo_sink_batch.
Proof.
  split; [by vm_compute|]. split; [done|]. split; [|constructor; [|constructor]; by exists (demo_field "id" DtInt32 false)].
  constructor; [|constructor]. repeat constructor; by eexists.
Qed.

Lemma dml_statement_commits_witness :
  (exists rows r conn', rows_of [0] [demo_sink_batch] rows /\
    sink_exec (fun _ _ => true) demo_dml (Ok [demo_sink_batch]) (transaction_control_default, []) =
      (conn', Ok (dml_to_batch r)) /\ num_rows r = 2%Z /\
    committed (replay conn'.2) = [("INSERT INTO s.t SET id=?", [MyInt 1]); ("INSERT INTO s.t SET id=?", [MyInt 2])]) /\
  rows_of [0] [demo_sink_batch] [[MyInt 1]; [MyInt 2]] /\ ~ rows_of [0] [demo_sink_batch] [[MyInt 2]; [MyInt 1]].
Proof.
  destruct (dml_statement_commits (fun _ _ => Ok []) (fun _ => MyNULL) (fun _ => true) (fun _ _ => true) (fun _ => None)
    0 (TsDml (dml_insert demo_table_ref [demo_field "id" DtInt32 false])) [demo_sink_batch]
    (transaction_control_default, [])) as (rows & r & conn' & Hrows & He & Hn & Hc & _); try reflexivity.
  - apply reach_new.
  - constructor; [apply demo_can_send|constructor].
  - assert (He' := He). vm_compute in He'. injection He' as <- _. cbn [app snd] in Hc.
    assert (rows = [[MyInt 1]; [MyInt 2]]) as ->.
    { rewrite <- (row_stmts_params (ts_query (TsDml (dml_insert demo_table_ref [demo_field "id" DtInt32 false]))) rows).
      change (committed (replay [])) with (@nil WriteStmt) in Hc. cbn [app] in Hc. rewrite <- Hc. by vm_compute. }
    split; [|split; [exact Hrows|]].
    + eexists _, r, _. split; [exact Hrows|]. split; [exact He|]. split; [exact Hn|]. by vm_compute.
    + intros (per & Heq & HF). inversion HF as [|b rs ? per' [_ Hr] HF']; subst. inversion HF'; subst.
      cbn in Heq. rewrite app_nil_r in Heq. subst rs. specialize (Hr 0 [MyInt 2] eq_refl).
      inversion Hr as [|pos p ? ? (a & v & m & Ha & Hv & Hm & Hp) _]; subst.
      cbn in Ha. injection Ha as <-. cbn in Hv. injection Hv as <-. cbn in Hm. injection Hm as <-. discriminate Hp.
Defined.

(** A date means a day for its column and is sent as a number. *)
Lemma date_not_meant decimal timestamp days p :
  param_of decimal timestamp DtDate32 (Some (VPrim days)) = Ok p ->
  my_meaning p <> arrow_meaning DtDate32 (Some (VPrim days)).
Proof. by intros [= <-]. Qed.

(** A server that refuses the second write. *)
Definition refuses_second (conn : list (Stmt (W := WriteStmt))) (st : Stmt (W := WriteStmt)) : bool :=
  match st with Write _ => bool_decide (committed (replay conn) ++ pending (replay conn) = []) | _ => true end.

Definition refused_dml : RecordBatchSink :=
  dml_sink (fun _ _ => Ok []) (fun _ => MyNULL) (fun _ => true) refuses_second (fun _ => None)
    (dml_insert demo_table_ref [demo_field "id" DtInt32 false]).

(** An INSERT of two rows whose second row is refused: outside of a transaction the
    first row is rolled back; in a transaction of the client it stays, and is
    committed at the end of the transaction, although the statement has failed. *)
Theorem failed_statement_leaves_rows :
  let statement := sink_exec refuses_second refused_dml (Ok [demo_sink_batch]) in
  (exists conn e, statement (transaction_control_default, []) = (conn, Err e) /\ committed (replay conn.2) = []) /\
  exists s conn e s', start_transaction refuses_second (transaction_control_default, []) = Ok s /\
    statement s = (conn, Err e) /\ commit refuses_second conn = Ok s' /\
    committed (replay s'.2) = [("INSERT INTO s.t SET id=?", [MyInt 1])].
Proof. split; do 2 eexists; [|do 2 eexists]; repeat split; vm_compute; reflexivity. Qed.

(** In autocommit a failed input rolls back; in a transaction of the client nothing is
    decided. *)
Lemma sink_exec_atomic_witness :
  (let (conn', out) := sink_exec (fun _ _ => true) demo_dml (Err (ExecError "no input")) (transaction_control_default, []) in
   out = Err (ExecError "no input") /\ committed (replay conn'.2) = [] /\ idle conn') /\
  exists s, start_transaction (fun _ _ => true) (transaction_control_default, []) = Ok s /\
    let (conn', out) := sink_exec (fun _ _ => true) demo_dml (Ok [demo_sink_batch]) s in
    committed (replay conn'.2) = [] /\ length (pending (replay conn'.2)) = 2.
Proof.
  split.
  - destruct (sink_exec_atomic (fun _ _ => true) 0 demo_dml (Err (ExecError "no input")) (transaction_control_default, [])
      ltac:(apply dml_sink_only_writes) ltac:(apply reach_new) ltac:(lia)) as [Ha _].
    specialize (Ha eq_refl eq_refl). cbn in Ha |- *. destruct Ha as [Hc Hi]. split; [reflexivity|]. split; [exact Hc|]. by apply Hi.
  - eexists. split; [reflexivity|].
    destruct (sink_exec_atomic (fun _ _ => true) 1 demo_dml (Ok [demo_sink_batch])
      (with_transaction transaction_control_default (Some Forced), [Commit; StartTransaction])
      ltac:(apply dml_sink_only_writes)
      ltac:(apply (reach_step _ 0 (transaction_control_default, []) OStart); [apply reach_new|reflexivity]) ltac:(lia)) as [_ Ha].
    specialize (Ha ltac:(right; by split)).
    change (with_transaction (with_transaction (transaction_control_default, []).1 None) (Some Forced),
      (([] : list (Stmt (W := WriteStmt))) ++ [Commit]) ++ [StartTransaction])
      with (with_transaction transaction_control_default (Some Forced), ([Commit; StartTransaction] : list (Stmt (W := WriteStmt)))).
    destruct (sink_exec _ _ _ _) as [conn' out] eqn:He.
    destruct Ha as (ws & _ & Hc & _). vm_compute in He. injection He as <- _. split; [exact Hc|vm_compute; reflexivity].
Defined.
