(* ===== verification/ResultRows.v ===== *)
(** * The rows of the server

    Models [backends/mysql/src/arrow_helper.rs]: the rows that the server answers are
    appended, value by value, to one builder per column of the expected schema, and a
    batch is given out each time the builders hold enough rows. *)
From S2P Require Import Prelude Values ArrowCodec SqlSchema PhysicalExprs Sinks.

(** ** Columns of an answer *)

Inductive MySqlColumnType :=
  | MYSQL_TYPE_NULL | MYSQL_TYPE_BIT | MYSQL_TYPE_TINY | MYSQL_TYPE_SHORT | MYSQL_TYPE_YEAR | MYSQL_TYPE_INT24
  | MYSQL_TYPE_LONG | MYSQL_TYPE_LONGLONG | MYSQL_TYPE_FLOAT | MYSQL_TYPE_DOUBLE | MYSQL_TYPE_DECIMAL
  | MYSQL_TYPE_NEWDECIMAL | MYSQL_TYPE_VARCHAR | MYSQL_TYPE_JSON | MYSQL_TYPE_BLOB | MYSQL_TYPE_ENUM | MYSQL_TYPE_STRING
  | MYSQL_TYPE_VAR_STRING | MYSQL_TYPE_DATE | MYSQL_TYPE_TIME | MYSQL_TYPE_TIMESTAMP | MYSQL_TYPE_DATETIME
  | MYSQL_TYPE_OTHER (code : Z).

(** What is used of the description of a column. *)
Record ResultColumn := {
  column_type : MySqlColumnType;
  binary_flag : bool;
  enum_flag : bool;
  column_length : Z
}.

Definition use_large_str_or_blob (c : ResultColumn) : bool := bool_decide (column_length c > 2 ^ 31 - 1)%Z.

(** ** Builders *)

Inductive Builder :=
  | Int8Builder | Int16Builder | Int32Builder | Int64Builder
  | UInt8Builder | UInt16Builder | UInt32Builder | UInt64Builder
  | Float32Builder | Float64Builder | StringBuilder | LargeStringBuilder | BooleanBuilder
  | BinaryBuilder | LargeBinaryBuilder | IntervalMonthDayNanoBuilder
  | Decimal128Builder | Decimal256Builder | TimestampBuilder (u : TimeUnit)
  | StringDictionaryBuilder (key : DataType) | Date32Builder | Date64Builder | Time64NanosecondBuilder
  | ListBuilder (item : Builder) | FixedSizeListBuilder (item : Builder) (size : Z) | NullBuilder.

#[export] Instance Builder_eq_dec : EqDecision Builder.
Proof. solve_decision. Defined.

(** A builder with the type of the array it finishes, and the slots appended so far. *)
Record ArrayBuilder := { ab_builder : Builder; ab_type : DataType; ab_slots : list (option ArrowValue) }.

Definition builder_new (b : Builder) (dt : DataType) : ArrayBuilder := {| ab_builder := b; ab_type := dt; ab_slots := [] |}.

Definition append (v : option ArrowValue) (b : ArrayBuilder) : ArrayBuilder :=
  {| ab_builder := ab_builder b; ab_type := ab_type b; ab_slots := ab_slots b ++ [v] |}.

Definition finish_builder (b : ArrayBuilder) : Array := {| data_type := ab_type b; values := ab_slots b |}.

Definition list_item_builder (dt : DataType) : option Builder :=
  match dt with
  | DtInt8 => Some Int8Builder | DtInt16 => Some Int16Builder | DtInt32 => Some Int32Builder | DtInt64 => Some Int64Builder
  | DtUInt32 => Some UInt32Builder | DtFloat32 => Some Float32Builder | DtFloat64 => Some Float64Builder
  | DtUtf8 => Some StringBuilder | DtBoolean => Some BooleanBuilder | DtBinary => Some BinaryBuilder
  | _ => None
  end.

(** [valid_decimal] is the check of [with_precision_and_scale]; a type that it refuses
    gives the default builder. A binary of fixed size has the builder of binaries. *)
Definition map_data_type_to_array_builder (valid_decimal : DataType -> bool) (data_type : DataType) : result ArrayBuilder :=
  let ok b := Ok (builder_new b data_type) in
  match data_type with
  | DtInt8 => ok Int8Builder | DtInt16 => ok Int16Builder | DtInt32 => ok Int32Builder | DtInt64 => ok Int64Builder
  | DtUInt8 => ok UInt8Builder | DtUInt16 => ok UInt16Builder | DtUInt32 => ok UInt32Builder | DtUInt64 => ok UInt64Builder
  | DtFloat32 => ok Float32Builder | DtFloat64 => ok Float64Builder
  | DtUtf8 => ok StringBuilder | DtLargeUtf8 => ok LargeStringBuilder | DtBoolean => ok BooleanBuilder
  | DtBinary => ok BinaryBuilder | DtLargeBinary => ok LargeBinaryBuilder
  | DtFixedSizeBinary _ => Ok (builder_new BinaryBuilder DtBinary)
  | DtInterval _ => Ok (builder_new IntervalMonthDayNanoBuilder (DtInterval MonthDayNano))
  | DtDecimal128 _ _ => Ok (builder_new Decimal128Builder (if valid_decimal data_type then data_type else DtDecimal128 38 10))
  | DtDecimal256 _ _ => Ok (builder_new Decimal256Builder (if valid_decimal data_type then data_type else DtDecimal256 76 10))
  | DtTimestamp time_unit _ => ok (TimestampBuilder time_unit)
  | DtDictionary DtInt8 DtUtf8 => ok (StringDictionaryBuilder DtInt8)
  | DtDictionary DtUInt16 DtUtf8 => ok (StringDictionaryBuilder DtUInt16)
  | DtDate32 => ok Date32Builder | DtDate64 => ok Date64Builder
  | DtTime64 Nanosecond => ok Time64NanosecondBuilder
  | DtList item =>
      match list_item_builder item with
      | Some b => ok (ListBuilder b)
      | None => Err (Panic "not implemented: Unsupported list value data type")
      end
  | DtFixedSizeListFloat32 size => ok (FixedSizeListBuilder Float32Builder size)
  | DtNull => ok NullBuilder
  | _ => Err (Panic "not implemented: Unsupported data type")
  end.

(** ** Values *)

(** [BigDecimal]: an integer and its number of digits after the point. *)
Record BigDecimal := { bigint : Z; fractional_digit_count : Z }.

(** The product with a power of ten that wraps at 128 bits, without its fraction. *)
Definition to_decimal_128 (decimal : BigDecimal) (scale : Z) : option Z :=
  let power := wrap_s 128 (10 ^ (if bool_decide (0 <= scale < 2 ^ 32)%Z then scale else 0)) in
  let v := if bool_decide (0 <= fractional_digit_count decimal)%Z
           then Z.quot (bigint decimal * power) (10 ^ fractional_digit_count decimal)
           else (bigint decimal * power * 10 ^ (- fractional_digit_count decimal))%Z in
  if bool_decide (- 2 ^ 127 <= v < 2 ^ 127)%Z then Some v else None.

(** The 32 low bytes of the integer in two's complement. *)
Definition to_decimal_256 (decimal : BigDecimal) : Z := wrap_s 256 (bigint decimal).

(** [FromValue] of the MySQL library, on the types that are asked for; floats are their
    bits, a date is its number of days, a time its seconds and nanoseconds, and an
    instant its nanoseconds since the epoch. *)
Class FromValue := {
  i8_from_value : MyValue -> option Z;
  i16_from_value : MyValue -> option Z;
  i32_from_value : MyValue -> option Z;
  i64_from_value : MyValue -> option Z;
  f32_from_value : MyValue -> option Z;
  f64_from_value : MyValue -> option Z;
  string_from_value : MyValue -> option bytes;
  bytes_from_value : MyValue -> option bytes;
  decimal_from_value : MyValue -> option BigDecimal;
  date_from_value : MyValue -> option Z;
  time_from_value : MyValue -> option (Z * Z);
  datetime_from_value : MyValue -> option Z
}.

Section Rows.
Context `{FromValue}.

(** [downcast!]: only the builder of the given type is appended to. *)
Definition downcast (expected : Builder) (b : ArrayBuilder) : result ArrayBuilder :=
  if bool_decide (ab_builder b = expected) then Ok b else Err (ExecError "Failed to downcast builder").

(** [handle_primitive_type!] and [get_value_or_set_null!]. *)
Definition handle_primitive_type {A} (expected : Builder) (from_value_opt : MyValue -> option A) (into : A -> result ArrowValue)
    (row_value : MyValue) (builder : ArrayBuilder) : result ArrayBuilder :=
  let? builder := downcast expected builder in
  if bool_decide (row_value = MyNULL) then Ok (append None builder)
  else
    let? v := ok_or (from_value_opt row_value) (ExecError "Failed to downcast builder") in
    let? v := into v in
    Ok (append (Some v) builder).

Definition prim (z : Z) : result ArrowValue := Ok (VPrim z).
Definition raw (b : bytes) : result ArrowValue := Ok (VBytes b).

(** The zero date of MySQL. *)
Definition zero_date : MyValue := MyDate 0 0 0 0 0 0 0.

(** A date or an instant; the zero date is NULL. *)
Definition handle_date_type (expected : Builder) (from_value_opt : MyValue -> option Z) (into : Z -> Z)
    (row_value : MyValue) (builder : ArrayBuilder) : result ArrayBuilder :=
  let? builder := downcast expected builder in
  match from_value_opt row_value with
  | Some v => Ok (append (Some (VPrim (into v))) builder)
  | None => if bool_decide (row_value = MyNULL) || bool_decide (row_value = zero_date) then Ok (append None builder)
            else Err (ExecError "FromValueError")
  end.

(** [while bytes.len() < 8 { bytes.insert(0, 0) }], which a longer value does not fit. *)
Definition bit_value (bs : bytes) : result Z :=
  let padded := replicate (8 - length bs) Byte.x00 ++ bs in
  if bool_decide (length padded = 8) then Ok (from_be_bytes padded)
  else Err (Panic "copy_from_slice: source slice length does not match destination slice length").

Definition append_value (c : ResultColumn) (arrow_type : DataType) (value : MyValue) (builder : ArrayBuilder) : result ArrayBuilder :=
  match column_type c with
  | MYSQL_TYPE_NULL => let? builder := downcast NullBuilder builder in Ok (append None builder)
  | MYSQL_TYPE_BIT =>
      let? builder := downcast UInt64Builder builder in
      match value with
      | MyBytes bs => let? v := bit_value bs in Ok (append (Some (VPrim v)) builder)
      | _ => Ok (append None builder)
      end
  | MYSQL_TYPE_TINY => handle_primitive_type Int8Builder i8_from_value prim value builder
  | MYSQL_TYPE_SHORT | MYSQL_TYPE_YEAR => handle_primitive_type Int16Builder i16_from_value prim value builder
  | MYSQL_TYPE_INT24 | MYSQL_TYPE_LONG => handle_primitive_type Int32Builder i32_from_value prim value builder
  | MYSQL_TYPE_LONGLONG => handle_primitive_type Int64Builder i64_from_value prim value builder
  | MYSQL_TYPE_FLOAT => handle_primitive_type Float32Builder f32_from_value prim value builder
  | MYSQL_TYPE_DOUBLE => handle_primitive_type Float64Builder f64_from_value prim value builder
  | MYSQL_TYPE_DECIMAL | MYSQL_TYPE_NEWDECIMAL =>
      match arrow_type with
      | DtDecimal128 _ _ =>
          handle_primitive_type Decimal128Builder decimal_from_value
            (fun d => let? v := ok_or (to_decimal_128 d (fractional_digit_count d)) (ExecError "Failed to convert to decimal") in
                      Ok (VPrim v)) value builder
      | DtDecimal256 _ _ => handle_primitive_type Decimal256Builder decimal_from_value (fun d => prim (to_decimal_256 d)) value builder
      | _ => Err (Panic "internal error: entered unreachable code")
      end
  | MYSQL_TYPE_VARCHAR | MYSQL_TYPE_JSON => handle_primitive_type LargeStringBuilder string_from_value raw value builder
  | MYSQL_TYPE_BLOB =>
      match use_large_str_or_blob c, binary_flag c with
      | true, true => handle_primitive_type LargeBinaryBuilder bytes_from_value raw value builder
      | true, false => handle_primitive_type LargeStringBuilder string_from_value raw value builder
      | false, true => handle_primitive_type BinaryBuilder bytes_from_value raw value builder
      | false, false => handle_primitive_type StringBuilder string_from_value raw value builder
      end
  | MYSQL_TYPE_ENUM => Err (Panic "internal error: entered unreachable code")
  | MYSQL_TYPE_STRING | MYSQL_TYPE_VAR_STRING =>
      if enum_flag c then handle_primitive_type (StringDictionaryBuilder DtUInt16) string_from_value raw value builder
      else if binary_flag c && negb (bool_decide (arrow_type = DtUtf8)) then
        handle_primitive_type BinaryBuilder bytes_from_value raw value builder
      else handle_primitive_type StringBuilder string_from_value raw value builder
  | MYSQL_TYPE_DATE => handle_date_type Date32Builder date_from_value id value builder
  | MYSQL_TYPE_TIME =>
      handle_primitive_type Time64NanosecondBuilder time_from_value (fun '(s, ns) => prim (s * 1000000000 + ns)) value builder
  | MYSQL_TYPE_TIMESTAMP | MYSQL_TYPE_DATETIME =>
      handle_date_type (TimestampBuilder Microsecond) datetime_from_value (fun ns => wrap_s 64 (Z.quot ns 1000)) value builder
  | MYSQL_TYPE_OTHER _ => Err (Panic "not implemented: Unsupported column type")
  end.

(** One row: builders, descriptions, types and values side by side; the shortest of the
    lists ends it. *)
Fixpoint append_row (builders : list ArrayBuilder) (columns : list ResultColumn) (types : list DataType) (row : list MyValue) :
    result (list ArrayBuilder) :=
  match builders, columns, types, row with
  | b :: bs, c :: cs, t :: ts, v :: vs =>
      let? b := append_value c t v b in
      let? bs := append_row bs cs ts vs in
      Ok (b :: bs)
  | bs, _, _, _ => Ok bs
  end.

(** ** The stream *)

Definition finish_batch (fields : list Field) (builders : list ArrayBuilder) : result RecordBatch :=
  match builders with
  | [] => Err (ExecError "must either specify a row count or at least one column")
  | b :: _ => record_batch_try_new fields (finish_builder <$> builders) (length (ab_slots b))
  end.

Definition new_builders (valid_decimal : DataType -> bool) (fields : list Field) : result (list ArrayBuilder) :=
  result_mapM (fun f => map_data_type_to_array_builder valid_decimal (field_type f)) fields.

(** What the stream gives: batches, and the error that ends it. A batch that cannot be
    built is an item of the stream and does not end it. *)
Definition BatchStream : Type := list (result RecordBatch) * result unit.

Definition stream_cons (b : result RecordBatch) (s : BatchStream) : BatchStream := (b :: s.1, s.2).

(** The loop over the rows; [builders] is [None] before the first row and after a batch
    was given out. The descriptions of the columns are those of the first row. *)
Fixpoint read_rows (valid_decimal : DataType -> bool) (fields : list Field) (columns : list ResultColumn) (chunk_by : nat)
    (builders : option (list ArrayBuilder)) (row_count : nat) (rows : list (result (list MyValue))) : BatchStream :=
  match rows with
  | [] =>
      match row_count, builders with
      | 0, _ => ([], Ok tt)
      | _, Some bs => ([finish_batch fields bs], Ok tt)
      | _, None => ([], Err (Panic "called `Option::unwrap()` on a `None` value"))
      end
  | Err e :: _ => ([], Err e)
  | Ok row :: rows =>
      let append (builders : option (list ArrayBuilder)) (row_count : nat) : BatchStream :=
        match (let? bs := match builders with Some bs => Ok bs | None => new_builders valid_decimal fields end in
               append_row bs columns (field_type <$> fields) row) with
        | Err e => ([], Err e)
        | Ok bs => read_rows valid_decimal fields columns chunk_by (Some bs) (S row_count) rows
        end in
      if chunk_by <=? row_count then
        match builders with
        | Some bs => stream_cons (finish_batch fields bs) (append None 0)
        | None => ([], Err (Panic "called `Option::unwrap()` on a `None` value"))
        end
      else append builders row_count
  end.

(** [query.replace] of the double quote. *)
Fixpoint remove_quotes (query : string) : string :=
  match query with
  | EmptyString => EmptyString
  | String c rest => if bool_decide (c = Ascii.ascii_of_nat 34) then remove_quotes rest else String c (remove_quotes rest)
  end.

(** [query_stream] of the server's answer: its columns and rows, or an error. *)
Definition query_arrow (valid_decimal : DataType -> bool)
    (query_stream : string -> result (list ResultColumn * list (result (list MyValue)))) (query : string) (fields : list Field)
    (chunk_by : nat) : BatchStream :=
  match query_stream (remove_quotes query) with
  | Err e => ([], Err e)
  | Ok (columns, rows) => read_rows valid_decimal fields columns chunk_by None 0 rows
  end.
End Rows.

(** [project_schema_safe]: an empty projection is answered by a column of ones. *)
Definition ONE_COLUMN_SCHEMA : list Field := [field_new "1" DtInt64 true].

Definition project_schema_safe (fields : list Field) (projection : option (list nat)) : result (list Field) :=
  match projection with
  | Some [] => Ok ONE_COLUMN_SCHEMA
  | Some columns =>
      result_mapM (fun i => ok_or (fields !! i) (ExecError "project index out of bounds")) columns
  | None => Ok fields
  end.

(** ** What is read *)

Section Read.
Context `{FromValue}.
Variable valid_decimal : DataType -> bool.

(** The builder that a column of the server is appended to. *)
Definition column_builder (c : ResultColumn) (arrow_type : DataType) : option Builder :=
  match column_type c with
  | MYSQL_TYPE_NULL => Some NullBuilder
  | MYSQL_TYPE_BIT => Some UInt64Builder
  | MYSQL_TYPE_TINY => Some Int8Builder
  | MYSQL_TYPE_SHORT | MYSQL_TYPE_YEAR => Some Int16Builder
  | MYSQL_TYPE_INT24 | MYSQL_TYPE_LONG => Some Int32Builder
  | MYSQL_TYPE_LONGLONG => Some Int64Builder
  | MYSQL_TYPE_FLOAT => Some Float32Builder
  | MYSQL_TYPE_DOUBLE => Some Float64Builder
  | MYSQL_TYPE_DECIMAL | MYSQL_TYPE_NEWDECIMAL =>
      match arrow_type with DtDecimal128 _ _ => Some Decimal128Builder | DtDecimal256 _ _ => Some Decimal256Builder | _ => None end
  | MYSQL_TYPE_VARCHAR | MYSQL_TYPE_JSON => Some LargeStringBuilder
  | MYSQL_TYPE_BLOB =>
      Some match use_large_str_or_blob c, binary_flag c with
           | true, true => LargeBinaryBuilder | true, false => LargeStringBuilder
           | false, true => BinaryBuilder | false, false => StringBuilder
           end
  | MYSQL_TYPE_STRING | MYSQL_TYPE_VAR_STRING =>
      Some (if enum_flag c then StringDictionaryBuilder DtUInt16
            else if binary_flag c && negb (bool_decide (arrow_type = DtUtf8)) then BinaryBuilder else StringBuilder)
  | MYSQL_TYPE_DATE => Some Date32Builder
  | MYSQL_TYPE_TIME => Some Time64NanosecondBuilder
  | MYSQL_TYPE_TIMESTAMP | MYSQL_TYPE_DATETIME => Some (TimestampBuilder Microsecond)
  | MYSQL_TYPE_ENUM | MYSQL_TYPE_OTHER _ => None
  end.

(** The value that a column of the server is read as. *)
Definition read_value (c : ResultColumn) (arrow_type : DataType) (v : MyValue) : result (option ArrowValue) :=
  let? b := append_value c arrow_type v (builder_new (default NullBuilder (column_builder c arrow_type)) arrow_type) in
  ok_or (head (ab_slots b)) (Panic "no value").

(** A step on a builder of one kind, which appends a value that does not depend on what
    the builder holds. *)
Definition appends (k : Builder) (m : ArrayBuilder -> result ArrayBuilder) : Prop :=
  exists r : result (option ArrowValue), forall b,
    m b = if bool_decide (ab_builder b = k) then let? s := r in Ok (append s b) else Err (ExecError "Failed to downcast builder").

Lemma handle_primitive_appends {A} k (from : MyValue -> option A) into v : appends k (handle_primitive_type k from into v).
Proof.
  exists (if bool_decide (v = MyNULL) then Ok None else
          let? x := ok_or (from v) (ExecError "Failed to downcast builder") in let? y := into x in Ok (Some y)).
  intros b. unfold handle_primitive_type, downcast. destruct (bool_decide (ab_builder b = k)); [|done]. cbn.
  destruct (bool_decide (v = MyNULL)); [done|]. destruct (from v) as [x|]; [cbn|done]. by destruct (into x).
Qed.

Lemma handle_date_appends k from into v : appends k (handle_date_type k from into v).
Proof.
  exists (match from v with
          | Some x => Ok (Some (VPrim (into x)))
          | None => if bool_decide (v = MyNULL) || bool_decide (v = zero_date) then Ok None else Err (ExecError "FromValueError")
          end).
  intros b. unfold handle_date_type, downcast. destruct (bool_decide (ab_builder b = k)); [|done]. cbn.
  destruct (from v); [done|]. by destruct (_ || _).
Qed.

Lemma append_value_appends c t v :
  match column_builder c t with
  | Some k => appends k (append_value c t v)
  | None => forall b, exists e, append_value c t v b = Err e
  end.
Proof.
  unfold column_builder, append_value.
  destruct (column_type c); try first [apply handle_primitive_appends | apply handle_date_appends | by eexists].
  - exists (Ok None). intros b. unfold downcast. by destruct (bool_decide _).
  - exists (match v with MyBytes bs => let? x := bit_value bs in Ok (Some (VPrim x)) | _ => Ok None end). intros b.
    unfold downcast. destruct (bool_decide _); [cbn|done]. destruct v; try done. by destruct (bit_value bs).
  - destruct t; first [apply handle_primitive_appends | by eexists].
  - destruct t; first [apply handle_primitive_appends | by eexists].
  - destruct (use_large_str_or_blob c), (binary_flag c); apply handle_primitive_appends.
  - destruct (enum_flag c); [|destruct (binary_flag c && _)]; apply handle_primitive_appends.
  - destruct (enum_flag c); [|destruct (binary_flag c && _)]; apply handle_primitive_appends.
Qed.

(** A value that can be read is appended to the builder of its column, and any other
    builder refuses every value. *)
Lemma append_value_reads c t v s b : column_builder c t = Some (ab_builder b) -> read_value c t v = Ok s ->
  append_value c t v b = Ok (append s b).
Proof.
  intros Hk Hr. pose proof (append_value_appends c t v) as Ha. unfold read_value in Hr. rewrite Hk in *.
  destruct Ha as [r Ha]. rewrite Ha in Hr |- *. cbn [default ab_builder builder_new] in Hr. rewrite !bool_decide_true in * by done.
  destruct r as [x|]; [|done]. cbn in *. by inv_ok.
Qed.

Lemma append_value_refuses c t v b : column_builder c t <> Some (ab_builder b) -> exists e, append_value c t v b = Err e.
Proof.
  intros Hk. pose proof (append_value_appends c t v) as Ha. destruct (column_builder c t) as [k|]; [|done].
  destruct Ha as [r ->]. rewrite bool_decide_false by congruence. by eexists.
Qed.

(** ** The batches of a stream *)

(** The builder of a field of the schema and of the column that answers it are the same. *)
Definition readable (f : Field) (c : ResultColumn) : Prop :=
  exists b, map_data_type_to_array_builder valid_decimal (field_type f) = Ok b /\ ab_type b = field_type f /\
    ab_slots b = [] /\ column_builder c (field_type f) = Some (ab_builder b).

(** The values of a row, for the fields that accept them. *)
Definition reads_row (fields : list Field) (columns : list ResultColumn) (row : list MyValue) (cells : list (option ArrowValue)) : Prop :=
  length cells = length fields /\ length row = length fields /\
  forall i f c v s, fields !! i = Some f -> columns !! i = Some c -> row !! i = Some v -> cells !! i = Some s ->
    read_value c (field_type f) v = Ok s /\ (field_nullable f = true \/ is_Some s).

(** Builders that hold the given slots. *)
Definition holding (bs : list ArrayBuilder) (cols : list (list (option ArrowValue))) : list ArrayBuilder :=
  zip_with (fun b col => {| ab_builder := ab_builder b; ab_type := ab_type b; ab_slots := col |}) bs cols.

Definition snoc_row (cols : list (list (option ArrowValue))) (cells : list (option ArrowValue)) : list (list (option ArrowValue)) :=
  zip_with (fun col s => col ++ [s]) cols cells.

(** The columns of rows. *)
Definition columns_of (n : nat) (rows : list (list (option ArrowValue))) : list (list (option ArrowValue)) :=
  foldl snoc_row (replicate n []) rows.

Lemma append_row_holding bs columns types row cells cols :
  length columns = length bs -> length types = length bs -> length row = length bs -> length cells = length bs -> length cols = length bs ->
  (forall i b c t v s, bs !! i = Some b -> columns !! i = Some c -> types !! i = Some t -> row !! i = Some v -> cells !! i = Some s ->
     column_builder c t = Some (ab_builder b) /\ read_value c t v = Ok s) ->
  append_row (holding bs cols) columns types row = Ok (holding bs (snoc_row cols cells)).
Proof.
  revert columns types row cells cols. induction bs as [|b bs IH];
    intros [|c columns] [|t types] [|v row] [|s cells] [|col cols]; cbn; try done; intros [= H1] [= H2] [= H3] [= H4] [= H5] Hr.
  destruct (Hr 0 b c t v s) as [Hk Hv]; [done..|]. rewrite (append_value_reads c t v s) by done. cbn.
  assert (append_row (holding bs cols) columns types row = Ok (holding bs (snoc_row cols cells))) as Hrest.
  { apply IH; try lia. intros i. apply (Hr (S i)). }
  unfold holding in Hrest. by rewrite Hrest.
Qed.

Lemma length_snoc_row cols cells : length cells = length cols -> length (snoc_row cols cells) = length cols.
Proof. intros Hl. unfold snoc_row. rewrite length_zip_with. lia. Qed.

Lemma columns_of_snoc n rows cells : columns_of n (rows ++ [cells]) = snoc_row (columns_of n rows) cells.
Proof. unfold columns_of. by rewrite foldl_app. Qed.

Lemma columns_of_lookup n rows : Forall (fun r => length r = n) rows ->
  length (columns_of n rows) = n /\
  forall i, i < n -> columns_of n rows !! i = Some ((fun r => default None (r !! i)) <$> rows).
Proof.
  induction rows as [|r rows IH] using rev_ind; intros HF.
  - unfold columns_of. cbn. split; [apply length_replicate|]. intros i Hi. by apply lookup_replicate.
  - apply Forall_app in HF as [HF Hr]. apply Forall_cons in Hr as [Hr _]. destruct (IH HF) as [Hl Hlk]. rewrite columns_of_snoc.
    cbn beta in Hr. split.
    + rewrite length_snoc_row by lia. done.
    + intros i Hi. unfold snoc_row. rewrite lookup_zip_with, (Hlk i Hi). cbn.
      destruct (lookup_lt_is_Some_2 r i) as [s Hs]; [lia|]. rewrite Hs. cbn. rewrite fmap_app. cbn. by rewrite Hs.
Qed.

Definition batch_of (fields : list Field) (rows : list (list (option ArrowValue))) : RecordBatch := {|
  batch_schema := fields;
  batch_columns := zip_with (fun f col => {| data_type := field_type f; values := col |}) fields (columns_of (length fields) rows);
  batch_rows := length rows
|}.

(** A builder of each field, empty. *)
Definition builders_for (fields : list Field) (bs : list ArrayBuilder) : Prop :=
  Forall2 (fun f b => map_data_type_to_array_builder valid_decimal (field_type f) = Ok b /\ ab_type b = field_type f /\ ab_slots b = [])
    fields bs.

Lemma finish_holding fields bs rows : builders_for fields bs -> fields <> [] -> 
  Forall (fun r => length r = length fields /\ forall i f s, fields !! i = Some f -> r !! i = Some s -> field_nullable f = true \/ is_Some s) rows ->
  finish_batch fields (holding bs (columns_of (length fields) rows)) = Ok (batch_of fields rows).
Proof.
  intros Hbs Hne Hrows. assert (Forall (fun r => length r = length fields) rows) as Hl.
  { eapply Forall_impl; [exact Hrows|]. by intros r [? _]. }
  destruct (columns_of_lookup _ _ Hl) as [Hn Hlk]. pose proof (Forall2_length _ _ _ Hbs) as Hlb.
  assert (finish_builder <$> holding bs (columns_of (length fields) rows) =
          zip_with (fun f col => {| data_type := field_type f; values := col |}) fields (columns_of (length fields) rows)) as Hfin.
  { apply list_eq. intros i. rewrite list_lookup_fmap. unfold holding. rewrite !lookup_zip_with.
    destruct (fields !! i) as [f|] eqn:Hf.
    - destruct (Forall2_lookup_l _ _ _ _ _ Hbs Hf) as (b & Hb & _ & Ht & _). rewrite Hb. cbn.
      destruct (columns_of (length fields) rows !! i); [|done]. cbn. unfold finish_builder. cbn. by rewrite Ht.
    - apply lookup_ge_None in Hf. rewrite (lookup_ge_None_2 bs) by lia. done. }
  unfold finish_batch. destruct (holding bs _) as [|b rest] eqn:Hh.
  { destruct fields; [done|]. apply (f_equal length) in Hh. unfold holding in Hh. rewrite length_zip_with in Hh. cbn in *. lia. }
  rewrite Hfin.
  assert (length (ab_slots b) = length rows) as ->.
  { assert (holding bs (columns_of (length fields) rows) !! 0 = Some b) as H0 by by rewrite Hh. unfold holding in H0.
    apply lookup_zip_with_Some in H0 as (b0 & col & -> & _ & Hcol). cbn. rewrite Hlk in Hcol by (destruct fields; cbn; [done|lia]).
    injection Hcol as <-. by rewrite length_fmap. }
  unfold record_batch_try_new. rewrite length_zip_with, Hn, Nat.min_id, bool_decide_true by done.
  replace (forallb id _) with true; [done|]. symmetry. apply List.forallb_forall. intros ok Hok%list_elem_of_In.
  apply list_elem_of_lookup in Hok as [i Hi]. apply lookup_zip_with_Some in Hi as (f & a & -> & Hf & Ha).
  apply lookup_zip_with_Some in Ha as (f' & col & -> & Hf' & Hcol). rewrite Hf in Hf'. injection Hf' as <-.
  pose proof (lookup_lt_Some _ _ _ Hf) as Hi. rewrite (Hlk i Hi) in Hcol. injection Hcol as <-. unfold column_matches, id. cbn.
  rewrite length_fmap, !bool_decide_true by done. cbn. apply orb_true_iff. destruct (field_nullable f) eqn:Hnull; [by left|right].
  apply List.forallb_forall. intros s0 Hs0. apply list_elem_of_In, list_elem_of_fmap in Hs0 as (r & -> & Hr). apply bool_decide_eq_true.
  rewrite Forall_forall in Hrows. destruct (Hrows r Hr) as [Hlr Hok]. destruct (lookup_lt_is_Some_2 r i) as [s Hs]; [lia|].
  rewrite Hs. cbn. destruct (Hok i f s Hf Hs); [congruence|done].
Qed.

(** The rows cut where the loop gives out a batch; [part] are those of the current one. *)
Fixpoint regroup {A} (n : nat) (part : list A) (rows : list A) : list (list A) :=
  match rows with
  | [] => match part with [] => [] | _ => [part] end
  | r :: rows => if n <=? length part then part :: regroup n [r] rows else regroup n (part ++ [r]) rows
  end.

Lemma concat_regroup {A} n (part rows : list A) : concat (regroup n part rows) = part ++ rows.
Proof.
  revert part. induction rows as [|r rows IH]; intros part; cbn; [by destruct part; cbn; rewrite ?app_nil_r|].
  destruct (n <=? length part); cbn; rewrite IH; [done|]. by rewrite <- app_assoc.
Qed.

(** Every batch but the last is full, none is empty. *)
Lemma regroup_sizes {A} n (part rows : list A) : 0 < n -> length part <= n -> part <> [] \/ rows <> [] ->
  Forall (fun ch => 1 <= length ch <= n) (regroup n part rows) /\
  forall i ch, S i < length (regroup n part rows) -> regroup n part rows !! i = Some ch -> length ch = n.
Proof.
  revert part. induction rows as [|r rows IH]; intros part Hn Hp Hne; cbn.
  - destruct Hne as [Hne|]; [|done]. destruct part as [|x part]; [done|]. split; [by constructor; [cbn in *; lia|]|].
    intros i ch Hi. cbn in Hi. lia.
  - destruct (Nat.leb_spec n (length part)) as [Hle|Hlt].
    + destruct (IH [r]) as [HF Hfull]; [lia|cbn; lia|by left|]. split; [constructor; [lia|done]|].
      intros [|i] ch Hi Hch; cbn in *; [injection Hch as <-; lia|]. eapply Hfull; [|done]. lia.
    + apply IH; [lia|rewrite length_app; cbn; lia|left; by destruct part].
Qed.

(** The loop on rows that can all be read, with a part of a batch in the builders. *)
Lemma read_rows_regroup fields columns n bs rows cells part :
  0 < n -> fields <> [] -> builders_for fields bs -> length columns = length fields ->
  Forall2 (fun b '(c, f) => column_builder c (field_type f) = Some (ab_builder b)) bs (zip columns fields) ->
  Forall2 (reads_row fields columns) rows cells ->
  Forall (fun r => length r = length fields /\ forall i f s, fields !! i = Some f -> r !! i = Some s -> field_nullable f = true \/ is_Some s) part ->
  length part <= n ->
  read_rows valid_decimal fields columns n (match part with [] => None | _ => Some (holding bs (columns_of (length fields) part)) end)
    (length part) (Ok <$> rows) = ((fun ch => Ok (batch_of fields ch)) <$> regroup n part cells, Ok tt).
Proof.
  intros Hn Hne Hbs Hlc Hk Hrows. revert part. induction Hrows as [|row cell rows cells (Hlcell & Hlrow & Hread) _ IH]; intros part Hpart Hle.
  - cbn. destruct part as [|p part]; [done|]. cbn [length]. rewrite finish_holding; done.
  - assert (new_builders valid_decimal fields = Ok (holding bs (columns_of (length fields) []))) as Hnew.
    { unfold new_builders, columns_of, holding. cbn [foldl]. clear -Hbs. induction Hbs as [|f b fields bs (Hm & _ & Hs) _ IH]; [done|].
      cbn. rewrite Hm. cbn. rewrite IH. cbn. do 2 f_equal. destruct b. cbn in *. by subst. }
    assert (forall part, Forall (fun r => length r = length fields) part ->
      append_row (holding bs (columns_of (length fields) part)) columns (field_type <$> fields) row =
      Ok (holding bs (columns_of (length fields) (part ++ [cell])))) as Happ.
    { intros part' Hp'. pose proof (Forall2_length _ _ _ Hbs) as Hlb. destruct (columns_of_lookup _ _ Hp') as [Hlcols _].
      rewrite columns_of_snoc. apply append_row_holding; rewrite ?length_fmap; try lia. intros i b c t v s Hb Hc Ht Hv Hs.
      apply list_lookup_fmap_Some in Ht as (f & -> & Hf). destruct (Hread i f c v s Hf Hc Hv Hs) as [Hr _]. split; [|done].
      apply (Forall2_lookup_l _ _ _ _ _ Hk) in Hb as ([c' f'] & Hz & Hcb). apply lookup_zip_with_Some in Hz as (? & ? & [= -> ->] & ? & ?).
      congruence. }
    assert (length cell = length fields /\ forall i f s, fields !! i = Some f -> cell !! i = Some s -> field_nullable f = true \/ is_Some s) as Hcell.
    { split; [done|]. intros i f s Hf Hs. pose proof (lookup_lt_Some _ _ _ Hf) as Hi.
      destruct (lookup_lt_is_Some_2 columns i) as [c Hc]; [lia|]. destruct (lookup_lt_is_Some_2 row i) as [v Hv]; [lia|].
      by apply (Hread i f c v s). }
    cbn [fmap list_fmap read_rows regroup]. destruct (Nat.leb_spec n (length part)) as [Hfull|Hroom].
    + destruct part as [|p part]; [cbn in *; lia|]. rewrite finish_holding by done. rewrite Hnew. cbn [result_bind]. rewrite Happ by constructor.
      specialize (IH [cell]). cbn [length app] in IH |- *. rewrite IH; [done|constructor; [exact Hcell|constructor]|lia].
    + specialize (IH (part ++ [cell])). rewrite length_app, Nat.add_1_r in IH.
      assert (Forall (fun r : list (option ArrowValue) => length r = length fields) part) as Hl.
      { eapply Forall_impl; [exact Hpart|]. by intros r [? _]. }
      specialize (Happ part Hl). destruct part as [|p part].
      * rewrite Hnew. cbn [result_bind]. rewrite Happ. cbn [app] in IH |- *. apply IH; [constructor; [exact Hcell|constructor]|cbn; lia].
      * cbn [result_bind]. rewrite Happ. cbn [app] in IH |- *. apply IH; [|cbn in *; lia]. rewrite app_comm_cons.
        apply Forall_app. split; [done|]. constructor; [exact Hcell|constructor].
Qed.

Lemma readable_builders fields columns : Forall2 readable fields columns ->
  exists bs, builders_for fields bs /\
    Forall2 (fun b '(c, f) => column_builder c (field_type f) = Some (ab_builder b)) bs (zip columns fields).
Proof.
  induction 1 as [|f c fields columns (b & Hm & Ht & Hs & Hk) _ (bs & Hbs & Hcb)]; [by exists []; split; constructor|].
  exists (b :: bs). by split; constructor.
Qed.

(** C22: an answer of the server whose columns fit the expected schema, and whose values
    can be read, is given out whole: the batches hold the values of all the rows, once
    and in the order of the server; every batch but the last has exactly the asked
    number of rows, the last has at least one, and the stream ends without error. *)
Theorem query_arrow_gives_rows query_stream query fields columns chunk_by rows cells :
  fields <> [] -> 0 < chunk_by -> query_stream (remove_quotes query) = Ok (columns, Ok <$> rows) ->
  Forall2 readable fields columns -> Forall2 (reads_row fields columns) rows cells ->
  exists chunks, concat chunks = cells /\ Forall (fun ch => 1 <= length ch <= chunk_by) chunks /\
    (forall i ch, S i < length chunks -> chunks !! i = Some ch -> length ch = chunk_by) /\
    query_arrow valid_decimal query_stream query fields chunk_by = ((fun ch => Ok (batch_of fields ch)) <$> chunks, Ok tt).
Proof.
  intros Hne Hn Hq Hc Hrows. exists (regroup chunk_by [] cells). split; [apply concat_regroup|].
  destruct (readable_builders _ _ Hc) as (bs & Hbs & Hk). unfold query_arrow. rewrite Hq.
  pose proof (read_rows_regroup fields columns chunk_by bs rows cells [] Hn Hne Hbs (eq_sym (Forall2_length _ _ _ Hc)) Hk Hrows
    (List.Forall_nil _) (Nat.le_0_l _)) as Hread. cbn [length] in Hread. rewrite Hread.
  destruct cells as [|cell cells]; [by split|]. destruct (regroup_sizes chunk_by [] (cell :: cells)); [done|cbn; lia|by right|done].
Qed.

(** The columns of a batch. *)
Lemma batch_of_column fields rows i f : Forall (fun r => length r = length fields) rows -> fields !! i = Some f ->
  batch_columns (batch_of fields rows) !! i =
  Some {| data_type := field_type f; values := (fun r => default None (r !! i)) <$> rows |}.
Proof.
  intros Hl Hf. destruct (columns_of_lookup _ _ Hl) as [_ Hlk]. cbn [batch_of batch_columns]. rewrite lookup_zip_with, Hf. cbn.
  by rewrite (Hlk i (lookup_lt_Some _ _ _ Hf)).
Qed.

(** ** What cannot be read *)

(** The types of the schema are those of the column, but no value of these columns can
    be read: unsigned integers, booleans, JSON and long texts. *)
Definition unread_columns : list (DataType * MySqlColumnType) :=
  [(DtUInt8, MYSQL_TYPE_TINY); (DtUInt16, MYSQL_TYPE_SHORT); (DtUInt32, MYSQL_TYPE_LONG); (DtUInt64, MYSQL_TYPE_LONGLONG);
   (DtBoolean, MYSQL_TYPE_TINY); (DtUtf8, MYSQL_TYPE_JSON)].

Lemma unread_columns_fail dt c v b : (dt, column_type c) ∈ unread_columns ->
  map_data_type_to_array_builder valid_decimal dt = Ok b -> exists e, append_value c dt v b = Err e.
Proof.
  intros Hin Hb. apply append_value_refuses. unfold column_builder. apply list_elem_of_In in Hin. cbn in Hin.
  destruct_or! Hin; injection Hin as <- Hc; rewrite <- Hc; cbn in Hb; by injection Hb as <-.
Qed.

Lemma long_text_fails c v b : column_type c = MYSQL_TYPE_BLOB -> (column_length c > 2 ^ 31 - 1)%Z ->
  map_data_type_to_array_builder valid_decimal DtUtf8 = Ok b -> exists e, append_value c DtUtf8 v b = Err e.
Proof.
  intros Hc Hl Hb. apply append_value_refuses. unfold column_builder, use_large_str_or_blob. rewrite Hc, bool_decide_true by done.
  cbn in Hb. injection Hb as <-. by destruct (binary_flag c).
Qed.

(** Two queries that differ in a double quote, within a string too, are sent as one. *)
Lemma quotes_lost a b : remove_quotes (a +:+ String (Ascii.ascii_of_nat 34) b) = remove_quotes (a +:+ b).
Proof.
  induction a as [|c a IH]; [done|]. change (String c a +:+ ?s) with (String c (a +:+ s)). cbn [remove_quotes]. by rewrite IH.
Qed.

(** ** Decimals *)

(** A decimal is read as its digits; the scale of the column plays no part. *)
Lemma to_decimal_128_digits d : (0 <= fractional_digit_count d <= 38)%Z -> (- 2 ^ 127 <= bigint d < 2 ^ 127)%Z ->
  to_decimal_128 d (fractional_digit_count d) = Some (bigint d).
Proof.
  intros Hs Hb. unfold to_decimal_128. rewrite !(bool_decide_true (_ <= fractional_digit_count d < _)%Z) by lia.
  rewrite (bool_decide_true (0 <= fractional_digit_count d)%Z) by lia.
  assert (1 <= 10 ^ fractional_digit_count d <= 10 ^ 38)%Z as Hp.
  { split; [apply (Z.pow_le_mono_r 10 0); lia|apply Z.pow_le_mono_r; lia]. }
  assert (10 ^ 38 < 2 ^ 127)%Z as H38 by by vm_compute.
  assert (fits_s 128 (10 ^ fractional_digit_count d)) as Hf.
  { unfold fits_s. change (128 - 1)%Z with 127%Z. split; [|eapply Z.le_lt_trans; [apply Hp|exact H38]].
    apply Z.le_trans with 0%Z; [by vm_compute|lia]. }
  rewrite (wrap_s_id 128 _ ltac:(lia) Hf).
  rewrite Z.quot_mul by lia. by rewrite bool_decide_true.
Qed.

Lemma to_decimal_256_digits d : (- 2 ^ 255 <= bigint d < 2 ^ 255)%Z -> to_decimal_256 d = bigint d.
Proof. intros Hb. unfold to_decimal_256. by apply wrap_s_id. Qed.
End Read.

(** ** A concrete answer *)

(** Text is read as it is, and numbers from the integer of the value. *)
#[local] Instance demo_from_value : FromValue :=
  let int v := match v with MyInt z => Some z | _ => None end in
  let raw_bytes v := match v with MyBytes b => Some b | _ => None end in
  {| i8_from_value := int; i16_from_value := int; i32_from_value := int; i64_from_value := int; f32_from_value := int;
     f64_from_value := int; string_from_value := raw_bytes; bytes_from_value := raw_bytes; decimal_from_value _ := None;
     date_from_value _ := None; time_from_value _ := None; datetime_from_value _ := None |}.

Definition demo_answer_fields : list Field := [field_new "id" DtInt32 false; field_new "name" DtBinary true].

Definition demo_answer_columns : list ResultColumn :=
  [{| column_type := MYSQL_TYPE_LONG; binary_flag := true; enum_flag := false; column_length := 11 |};
   {| column_type := MYSQL_TYPE_BLOB; binary_flag := true; enum_flag := false; column_length := 16777215 |}].

Definition demo_answer : list (list MyValue) := [[MyInt 1; MyBytes [Byte.x61]]; [MyInt 2; MyNULL]; [MyInt 3; MyBytes []]].

Definition demo_cells : list (list (option ArrowValue)) :=
  [[Some (VPrim 1); Some (VBytes [Byte.x61])]; [Some (VPrim 2); None]; [Some (VPrim 3); Some (VBytes [])]].

Lemma query_arrow_gives_rows_witness :
  exists chunks, concat chunks = demo_cells /\ Forall (fun ch => 1 <= length ch <= 2) chunks /\
    query_arrow (fun _ => true) (fun _ => Ok (demo_answer_columns, Ok <$> demo_answer)) "SELECT id, name FROM t" demo_answer_fields 2 =
      ((fun ch => Ok (batch_of demo_answer_fields ch)) <$> chunks, Ok tt).
Proof.
  destruct (query_arrow_gives_rows (fun _ => true) (fun _ => Ok (demo_answer_columns, Ok <$> demo_answer)) "SELECT id, name FROM t"
    demo_answer_fields demo_answer_columns 2 demo_answer demo_cells) as (chunks & Hc & Hs & _ & Hq); [done|lia|reflexivity| | |].
  - repeat constructor; by eexists.
  - unfold demo_answer, demo_cells. repeat (apply List.Forall2_cons || apply List.Forall2_nil);
      (split; [done|split; [done|]]); intros [|[|i]] f c v s [= <-] [= <-] [= <-] [= <-]; (split; [reflexivity|]); first [by right | by left].
  - by exists chunks.
Defined.
