(* ===== verification/Ddl.v ===== *)
(** * Tables, the catalog and data definition

    Models how the proxy knows the tables of the server: the construction of a table
    from its columns ([backends/mysql/src/providers/table_provider.rs], [mod.rs] and
    [parser.rs]), the catalog of the session ([catalog_provider.rs],
    [schema_provider.rs], [get_catalog.rs]), the file that keeps the encryption metadata
    ([metadata/store.rs] and the serializable types of [metadata/mod.rs]), and the plans
    of CREATE, DROP and ALTER statements ([planning/physical/plans]). *)
From S2P Require Import Prelude Values Sql Text Crypto ArrowCodec SqlSchema PhysicalExprs RowId TableMeta Transactions WritePath Sinks.

(** ** Indices and their configurations *)

(** What data definition uses of [EncryptedIndex]: [C] is the configuration that is
    kept in the file, from which the index of a table is built. *)
Class IndexOps (I C : Type) := {
  to_config : I -> C;
  build_index : C -> TableRef -> option RowIdColumn -> I;
  config_requires_rowid : C -> bool;
  index_hides : I -> string -> bool;
  index_tracks : I -> list string
}.

(** An index keeps its configuration, and only those that need the identifiers of rows
    depend on them. *)
Class IndexLaws (I C : Type) `{!IndexOps I C} : Prop := {
  to_config_build c t r : to_config (build_index c t r) = c;
  build_without_rowid c t r r' : config_requires_rowid c = false -> build_index c t r = build_index c t r'
}.

(** ** The metadata that is kept *)

Record SerializableEncryptedTableMeta (C : Type) := {
  ser_encrypted_columns : gmap string EncryptedColumnMeta;
  ser_indices : list C;
  ser_row_id_column : option RowIdColumn;
  ser_row_binding_aad : bool
}.
Arguments ser_encrypted_columns {C}.
Arguments ser_indices {C}.
Arguments ser_row_id_column {C}.
Arguments ser_row_binding_aad {C}.

Abbreviation SchemaMeta C := (gmap string (SerializableEncryptedTableMeta C)).

Section Serialization.
Context {I C : Type} `{!IndexOps I C}.

Definition table_meta_to_serializable (m : TableMeta I) : SerializableEncryptedTableMeta C := {|
  ser_encrypted_columns := encrypted_columns m;
  ser_row_id_column := row_id_column m;
  ser_indices := to_config <$> tm_indices m;
  ser_row_binding_aad := row_binding_aad m
|}.

Definition table_meta_deserialize (table_name : TableRef) (v : SerializableEncryptedTableMeta C) : TableMeta I := {|
  encrypted_columns := ser_encrypted_columns v;
  row_id_column := ser_row_id_column v;
  tm_indices := (fun c => build_index c table_name (ser_row_id_column v)) <$> ser_indices v;
  row_binding_aad := ser_row_binding_aad v
|}.

Definition schema_meta_deserialize (catalog_name schema_name : string) (m : SchemaMeta C) : gmap string (TableMeta I) :=
  map_imap (fun k v => Some (table_meta_deserialize {| catalog := catalog_name; schema := schema_name; table := k |} v)) m.
End Serialization.

(** ** Defaults of columns *)

(** The parser of SQL, and DataFusion's planning of an expression without columns. *)
Class SqlParsing := {
  do_parse_default_value : string -> result SqlExpr;
  parse_column_type : string -> result SqlType;
  logical_default : Type;
  create_logical_expr : SqlExpr -> result logical_default;
  escape_quoted_string : string -> string
}.

Inductive ColumnDefault `{!SqlParsing} := DefaultExpr (e : logical_default) | AutoIncrement.

Definition is_str_datatype (t : SqlType) : bool :=
  match t with
  | TEnum _ | TVarchar _ | TChar _ | TCharVarying _ | TCharacter _ | TCharacterVarying _ | TCharacterLargeObject _
  | TText | TTinyText | TMediumText | TLongText | TString _ => true
  | _ => false
  end.

(** Unquoted text, and an identifier, are strings. *)
Definition parse_default_value_to_expr `{!SqlParsing} (default_value : string) (column_type : SqlType) : result SqlExpr :=
  let? e := match do_parse_default_value default_value with
            | Ok e => Ok e
            | Err original_error =>
                if is_str_datatype column_type then
                  do_parse_default_value ("'" +:+ escape_quoted_string default_value +:+ "'")
                else Err original_error
            end in
  Ok match e with Identifier value => Value (SingleQuotedString value) | e => e end.

(** ** Tables *)

Record Table (I : Type) `{!SqlParsing} := {
  tbl_reference : TableRef;
  tbl_defaults : gmap string ColumnDefault;
  tbl_schema : list Field;
  tbl_meta : TableMeta I;
  tbl_primary_key : list string;
  tbl_primary_key_def : list ColumnDef
}.
Arguments tbl_reference {I _}.
Arguments tbl_defaults {I _}.
Arguments tbl_schema {I _}.
Arguments tbl_meta {I _}.
Arguments tbl_primary_key {I _}.
Arguments tbl_primary_key_def {I _}.

(** [expect]. *)
Definition expect_ok {A} (m : result A) (msg : string) : result A :=
  match m with Ok a => Ok a | Err (Panic e) => Err (Panic e) | Err _ => Err (Panic msg) end.

Section Tables.
Context `{Unicode} `{SqlDisplay} `{!SqlParsing} {I C : Type} `{!IndexOps I C}.

Definition build_field_from_column_def (table_name : string) (column : ColumnDef) (column_meta : option EncryptedColumnMeta) :
    result Field :=
  match column_meta with
  | None => column_to_field column
  | Some m =>
      let field := field_new (cd_name column) (original_type m) (meta_nullable m) in
      let field := set_raw_source_type (original_type_raw m) field in
      let field := set_if set_default_value (default_value_raw m) field in
      let field := set_if set_raw_collation (collation m) field in
      Ok (set_encrypted table_name field)
  end.

Definition build_schema (table_name : string) (columns : list ColumnDef) (meta : option (TableMeta I)) : result (list Field) :=
  match meta with
  | Some m =>
      result_mapM (fun c => build_field_from_column_def table_name c (column_meta m (cd_name c)))
        (List.filter (fun c => negb (is_column_hidden index_hides m (cd_name c))) columns)
  | None => table_to_schema columns
  end.

Definition build_column_default (column : ColumnDef) (field : Field) : result (option ColumnDefault) :=
  let finish (default_expr : option SqlExpr) :=
    match default_expr with
    | Some dv => let? e := create_logical_expr dv in Ok (Some (DefaultExpr e))
    | None => Ok (if is_auto_increment column then Some AutoIncrement else None)
    end in
  if field_encrypted field then
    match raw_source_type field with
    | None => Err (Panic "missing data type for encrypted column")
    | Some ct =>
        let? base_data_type := expect_ok (parse_column_type ct) "invalid data type for encrypted column" in
        match default_value field with
        | None => Ok None
        | Some default_value => let? e := parse_default_value_to_expr default_value base_data_type in finish (Some e)
        end
    end
  else finish (get_default_value column).

(** A default that cannot be parsed is logged and left out; only a panic stops. *)
Fixpoint build_defaults (l : list (ColumnDef * Field)) : result (gmap string ColumnDefault) :=
  match l with
  | [] => Ok ∅
  | (column, field) :: l =>
      let? d := match build_column_default column field with
                | Ok d => Ok d
                | Err (Panic e) => Err (Panic e)
                | Err _ => Ok None
                end in
      let? defaults := build_defaults l in
      (* a later column of the same name wins *)
      Ok match d, defaults !! cd_name column with
         | Some d, None => <[cd_name column := d]> defaults
         | _, _ => defaults
         end
  end.

Definition field_with_name (fields : list Field) (n : string) : option Field :=
  snd <$> list_find (fun f => field_name f = n) fields.

Definition full_primary_key (primary_key : list string) (fields : list Field) (defaults : gmap string ColumnDefault) :
    list PrimaryKeyColumnDef :=
  omap (fun n => (fun f => {| pk_column_name := n; pk_column_type := field_type f;
                             pk_has_default := bool_decide (is_Some (defaults !! n)) |}) <$> field_with_name fields n) primary_key.

Definition set_row_binding (b : bool) (m : TableMeta I) : TableMeta I :=
  {| encrypted_columns := encrypted_columns m; tm_indices := tm_indices m; row_id_column := row_id_column m; row_binding_aad := b |}.

Definition from_columns (table_reference : TableRef) (columns : list ColumnDef) (primary_key : list string)
    (meta : option (TableMeta I)) : result (Table I) :=
  let? schema := unwrap_ok (build_schema (table table_reference) columns meta) in
  let? defaults := build_defaults (zip columns schema) in
  let pk := full_primary_key primary_key schema defaults in
  let m := default table_meta_new meta in
  let m := if row_binding_aad m && negb (supports_aad_binding pk) then set_row_binding false m else m in
  Ok {| tbl_defaults := defaults; tbl_schema := schema; tbl_reference := table_reference; tbl_meta := m;
        tbl_primary_key := pk_column_name <$> pk; tbl_primary_key_def := project_primary_key primary_key columns |}.

(** [build_primary_key]: the constraint, or else the flags of the columns. *)
Definition build_primary_key (statement : CreateTable) : result (list string) :=
  match find_map (fun c => match c with CtPrimaryKey columns => Some columns | _ => None end) (ct_constraints statement) with
  | Some columns =>
      result_mapM (fun e => match e with Identifier i => Ok i | _ => Err (Panic "unhandled ident") end) columns
  | None => Ok (cd_name <$> List.filter is_primary_key (ct_columns statement))
  end.
End Tables.

(** ** The state that data definition changes *)

(** The catalog, the files of metadata and the connection to the server. *)
Record Backend (I F : Type) `{!SqlParsing} := {
  bk_catalog : gmap string (gmap string (Table I));
  bk_files : gmap string F;
  bk_conn : Connection
}.
Arguments bk_catalog {I F _}.
Arguments bk_files {I F _}.
Arguments bk_conn {I F _}.
Arguments Build_Backend {I F _}.

(** Steps on the state; what was done before an error stays. *)
Definition Step (B A : Type) : Type := B -> B * result A.

Definition step_ret {B A} (a : A) : Step B A := fun b => (b, Ok a).
Definition step_err {B A} (e : error) : Step B A := fun b => (b, Err e).
Definition step_lift {B A} (m : result A) : Step B A := fun b => (b, m).
Definition step_bind {B A A'} (m : Step B A) (k : A -> Step B A') : Step B A' :=
  fun b => match m b with (b, Ok a) => k a b | (b, Err e) => (b, Err e) end.

Declare Scope step_scope.
Delimit Scope step_scope with step.
Notation "'let!' x ':=' m 'in' k" := (step_bind m (fun x => k))
  (at level 10, x pattern, m at level 100, k at level 200) : step_scope.
Open Scope step_scope.

(** [toml::to_string] and [toml::from_str]; [F] is the type of the contents of files. *)
Class Toml (C F : Type) := {
  toml_to_string : SchemaMeta C -> result F;
  toml_from_str : F -> option (SchemaMeta C)
}.

Inductive AlterTableOperation :=
  | AddColumn (column_def : ColumnDef)
  | DropColumn (column_names : list string)
  | DropIndex (n : string)
  | AddConstraint (c : TableConstraint)
  | AutoIncrementOp (value : Z)
  | OtherAlter (text : string).

(** The statements that are sent, as syntax trees. *)
Inductive DdlStatement :=
  | StCreateTable (name : TableRef) (ct : CreateTable) (if_not_exists : bool)
  | StDropTable (name : TableRef) (if_exists : bool)
  | StCreateDatabase (db_name : string) (if_not_exists : bool)
  | StDropDatabase (db_name : string) (if_exists : bool)
  | StAlterTable (name : TableRef) (operations : list AlterTableOperation).

Section Backend.
Context `{Unicode} `{SqlDisplay} `{!SqlParsing} {I C : Type} `{!IndexOps I C} {F : Type} `{!Toml C F}.
(** How statements are printed, and what the server accepts. *)
Variable print_statement : DdlStatement -> string.
Variable accepts : list (Stmt (W := WriteStmt)) -> Stmt (W := WriteStmt) -> bool.
Abbreviation Backend := (Backend I F).
Abbreviation step := (Step Backend).

Definition with_catalog (c : gmap string (gmap string (Table I))) (b : Backend) : Backend :=
  {| bk_catalog := c; bk_files := bk_files b; bk_conn := bk_conn b |}.

(** *** The file of a database ([MetadataStore], [StoreToDisk]) *)

Definition read_metadata (db : string) : step (SchemaMeta C) := fun b =>
  match bk_files b !! db with
  | None => (b, Ok ∅)
  | Some data => match toml_from_str data with
                 | Some m => (b, Ok m)
                 | None => (b, Err (Panic "cannot deserialize metadata"))
                 end
  end.

Definition write_metadata (db : string) (m : SchemaMeta C) : step unit := fun b =>
  match toml_to_string m with
  | Err e => (b, Err e)
  | Ok s => ({| bk_catalog := bk_catalog b; bk_files := <[db := s]> (bk_files b); bk_conn := bk_conn b |}, Ok tt)
  end.

Definition update_metadata (db : string) (updater : SchemaMeta C -> SchemaMeta C) : step unit :=
  let! m := read_metadata db in write_metadata db (updater m).

Definition save_metadata_for_table (table_name : TableRef) (t : Table I) : step unit :=
  update_metadata (schema table_name) (fun m => <[table table_name := table_meta_to_serializable (tbl_meta t)]> m).

(** *** The catalog ([MySqlCatalogProvider], [MySqlSchemaProvider]) *)

Definition mysql_schema (db : string) (b : Backend) : option (gmap string (Table I)) := bk_catalog b !! db.

Definition mysql_table (db n : string) (b : Backend) : option (Table I) :=
  match mysql_schema db b with Some tables => tables !! n | None => None end.

Definition set_table (db n : string) (t : option (Table I)) (b : Backend) : Backend :=
  with_catalog (alter (partial_alter (fun _ => t) n) db (bk_catalog b)) b.

(** The provider of a database that was looked up before: it is shared with the catalog. *)
Definition register_mysql_table (db n : string) (t : Table I) : step unit := fun b =>
  match mysql_table db n b with
  | Some _ => (b, Err (ExecError "Table already exists"))
  | None => (set_table db n (Some t) b, Ok tt)
  end.

Definition take_mysql_table (db n : string) : step (option (Table I)) := fun b =>
  (set_table db n None b, Ok (mysql_table db n b)).

Definition replace_mysql_table (db n : string) (t : Table I) : step unit := fun b => (set_table db n (Some t) b, Ok tt).

Definition register_schema (db : string) : step unit := fun b => (with_catalog (<[db := ∅]> (bk_catalog b)) b, Ok tt).

Definition deregister_schema (db : string) : step unit := fun b => (with_catalog (delete db (bk_catalog b)) b, Ok tt).

(** *** Sending a statement ([MySqlRawExecPlan]) *)

Definition send_statement (text : string) : step unit := fun b =>
  if accepts (bk_conn b).2 (Write (text, [])) then
    ({| bk_catalog := bk_catalog b; bk_files := bk_files b;
        bk_conn := ((bk_conn b).1, (bk_conn b).2 ++ [Write (text, [])]) |}, Ok tt)
  else (b, Err (SqlError "statement failed")).

Definition raw_exec (s : DdlStatement) : step unit := send_statement (print_statement s).

(** [DdlPlan]: the statement, and then what the proxy does itself. *)
Definition ddl_plan (s : DdlStatement) (execute_extra : step unit) : step unit :=
  let! _ := raw_exec s in execute_extra.

(** *** CREATE TABLE *)

Definition create_table (config : BackendConfig) (table_reference : TableRef) (ct : CreateTable) (if_not_exists : bool) : step unit :=
  let! primary_key := step_lift (build_primary_key ct) in
  let! (ct, encrypted_meta) := step_lift (build_from_statement ct primary_key config) in
  let! table_def := step_lift (from_columns table_reference (ct_columns ct) primary_key (Some encrypted_meta)) in
  ddl_plan (StCreateTable table_reference ct if_not_exists) (fun b =>
    match mysql_schema (schema table_reference) b with
    | None => (b, Err (ExecError "schema not found"))
    | Some _ =>
        (let! _ := register_mysql_table (schema table_reference) (table table_reference) table_def in
         update_metadata (schema table_reference)
           (fun m => <[table table_reference := table_meta_to_serializable (tbl_meta table_def)]> m)) b
    end).

(** *** DROP TABLE *)

Definition drop_table (t : TableRef) (if_exists : bool) : step unit :=
  ddl_plan (StDropTable t if_exists) (fun b =>
    match mysql_schema (schema t) b with
    | None => (b, if if_exists then Ok tt else Err (ExecError "Schema does not exist"))
    | Some _ =>
        (let! result := take_mysql_table (schema t) (table t) in
         let! _ := update_metadata (schema t) (fun m => delete (table t) m) in
         match result with
         | None => if if_exists then step_ret tt else step_err (ExecError "Table does not exist")
         | Some _ => step_ret tt
         end) b
    end).

(** *** CREATE DATABASE and DROP DATABASE *)

Definition create_database (if_not_exists : bool) (db : string) : step unit :=
  ddl_plan (StCreateDatabase db if_not_exists) (fun b =>
    match mysql_schema db b with
    | Some _ => (b, if if_not_exists then Ok tt else Err (ExecError "Schema already exists!"))
    | None => register_schema db b
    end).

Definition drop_database (if_exists : bool) (db : string) : step unit :=
  ddl_plan (StDropDatabase db if_exists) (fun b =>
    match mysql_schema db b with
    | None => (b, if if_exists then Ok tt else Err (ExecError "Schema does not exist!"))
    | Some _ => deregister_schema db b
    end).

(** *** ALTER TABLE *)

Definition is_intercepted (op : AlterTableOperation) : bool :=
  match op with AddColumn _ | DropColumn _ | DropIndex _ | AddConstraint _ => true | _ => false end.

Definition can_forward_safely (op : AlterTableOperation) : bool :=
  match op with AutoIncrementOp _ => true | _ => false end.

(** What an operation does to the table of the catalog. *)
Inductive AlterTableOp :=
  | ExtraDropColumn (n : string)
  | ExtraAddColumn (field : Field) (meta : option EncryptedColumnMeta) (default : option ColumnDefault).

Definition execute_extra_op (op : AlterTableOp) (t : Table I) : Table I :=
  match op with
  | ExtraDropColumn n => {|
      tbl_reference := tbl_reference t; tbl_meta := remove_column n (tbl_meta t);
      tbl_schema := List.filter (fun f => negb (bool_decide (field_name f = n))) (tbl_schema t);
      tbl_defaults := delete n (tbl_defaults t);
      tbl_primary_key := tbl_primary_key t; tbl_primary_key_def := tbl_primary_key_def t |}
  | ExtraAddColumn field meta default => {|
      tbl_reference := tbl_reference t;
      tbl_meta := match meta with Some meta => add_column (field_name field) meta (tbl_meta t) | None => tbl_meta t end;
      tbl_defaults := match default with Some d => <[field_name field := d]> (tbl_defaults t) | None => tbl_defaults t end;
      tbl_schema := tbl_schema t ++ [field];
      tbl_primary_key := tbl_primary_key t; tbl_primary_key_def := tbl_primary_key_def t |}
  end.

(** The operations on the catalog that an intercepted operation needs, and the
    operation as it is sent: an encrypted column is sent with its new definition. *)
Definition intercept (config : BackendConfig) (table_name : string) (t : Table I) (op : AlterTableOperation) :
    result (list AlterTableOp * AlterTableOperation) :=
  match op with
  | AddColumn column_def =>
      let? (meta, column_def) := try_from_column column_def (tbl_primary_key t) config in
      let? field := build_field_from_column_def table_name column_def meta in
      let? default := build_column_default column_def field in
      Ok ([ExtraAddColumn field meta default], AddColumn column_def)
  | DropColumn column_names =>
      if existsb (fun c => existsb (fun i => bool_decide (c ∈ index_tracks i)) (tm_indices (tbl_meta t))) column_names then
        Err (PlanError "Cannot drop column: is used in an index.")
      else Ok (ExtraDropColumn <$> column_names, op)
  | DropIndex _ => Err (NotImplemented "TODO: Drop Index")
  | AddConstraint _ => Err (NotImplemented "TODO: Add Index")
  | _ => Err (Panic "internal error: entered unreachable code: did you forget to modify the is_intercepted function?")
  end.

Fixpoint intercept_all (config : BackendConfig) (table_name : string) (t : Table I) (ops : list AlterTableOperation) :
    result (list AlterTableOp * list AlterTableOperation) :=
  match ops with
  | [] => Ok ([], [])
  | op :: ops =>
      let? (extra, op) := intercept config table_name t op in
      let? (extras, ops) := intercept_all config table_name t ops in
      Ok (extra ++ extras, op :: ops)
  end.

Definition alter_table_extra (table_reference : TableRef) (extra_ops : list AlterTableOp) : step unit :=
  let! taken := take_mysql_table (schema table_reference) (table table_reference) in
  match taken with
  | None => step_err (ExecError "Table does not exist in local schema")
  | Some t =>
      let t := foldl (fun t op => execute_extra_op op t) t extra_ops in
      let! _ := (fun b => match register_mysql_table (schema table_reference) (table table_reference) t b with
                          | (b, r) => (b, expect_ok r "failed to insert back table!") end) in
      fun b => match save_metadata_for_table table_reference t b with
               | (b, r) => (b, expect_ok r "failed to insert save metadata to disk!") end
  end.

Definition alter_table (config : BackendConfig) (table_reference : TableRef) (if_exists : bool) (operations : list AlterTableOperation) :
    step unit := fun b =>
  match mysql_schema (schema table_reference) b with
  | None => (b, Err (PlanError "no such schema"))
  | Some tables =>
      match tables !! table table_reference with
      | None => (b, if if_exists then Ok tt else Err (PlanError "no such table"))
      | Some existing =>
          let intercepted := List.filter is_intercepted operations in
          let forwarded := List.filter (fun op => negb (is_intercepted op)) operations in
          if negb (forallb can_forward_safely forwarded) then (b, Err (PlanError "Unsupported ALTER TABLE operation"))
          else if bool_decide (intercepted = []) then raw_exec (StAlterTable table_reference forwarded) b
          else
            (let! (extra, intercepted) := step_lift (intercept_all config (table table_reference) existing intercepted) in
             ddl_plan (StAlterTable table_reference (forwarded ++ intercepted)) (alter_table_extra table_reference extra)) b
      end
  end.
End Backend.

(** ** Introspection

    The catalog when the proxy starts: the columns that the server lists, with the
    metadata of the files. *)
Record MySqlColumnDescription := {
  d_table_schema : string; d_table_name : string; d_column_name : string;
  d_column_default : option string; d_column_type : string; d_column_key : string;
  d_extra : string; d_is_nullable : bool
}.

Definition str_contains (sub s : string) : bool := bool_decide (is_Some (String.index 0 sub s)).

Definition column_def_try_from `{!SqlParsing} (v : MySqlColumnDescription) : result ColumnDef :=
  let? data_type := parse_column_type (d_column_type v) in
  let default :=
    match d_column_default v with
    | Some expr => if bool_decide (expr = "") then None
                   else match parse_default_value_to_expr expr data_type with Ok e => Some e | Err _ => None end
    | None => None
    end in
  Ok {| cd_name := d_column_name v; cd_type := data_type;
        cd_options := (if d_is_nullable v then [OptNull] else []) ++
                      (if bool_decide (d_column_key v = "PRI") then [OptPrimaryKey] else []) ++
                      (if str_contains "auto_increment" (d_extra v) then [OptDialectSpecific [TokWord "auto_increment" KwAutoIncrement]] else []) ++
                      (match default with Some e => [OptDefault e] | None => [] end) |}.

Record TableBuilder (I : Type) := {
  tb_reference : TableRef;
  tb_columns : list ColumnDef;
  tb_primary_key_members : list nat;
  tb_encryption_metadata : option (TableMeta I)
}.
Arguments tb_reference {I}.
Arguments tb_columns {I}.
Arguments tb_primary_key_members {I}.
Arguments tb_encryption_metadata {I}.

Section Introspection.
Context `{Unicode} `{SqlDisplay} `{!SqlParsing} {I C : Type} `{!IndexOps I C} {F : Type} `{!Toml C F}.
(** [str::to_lowercase]. *)
Variable str_lowercase : string -> string.

Definition tb_is_empty (b : TableBuilder I) : bool :=
  bool_decide (table (tb_reference b) = "") && bool_decide (tb_columns b = []).

Definition is_same_table (b : TableBuilder I) (c : MySqlColumnDescription) : bool :=
  bool_decide (table (tb_reference b) = d_table_name c) && bool_decide (schema (tb_reference b) = d_table_schema c).

Definition tb_add_column (b : TableBuilder I) (c : MySqlColumnDescription) : result (TableBuilder I) :=
  let? column := column_def_try_from c in
  Ok {| tb_reference := tb_reference b; tb_columns := tb_columns b ++ [column];
        tb_primary_key_members := if bool_decide (d_column_key c = "PRI") then tb_primary_key_members b ++ [length (tb_columns b)]
                                  else tb_primary_key_members b;
        tb_encryption_metadata := tb_encryption_metadata b |}.

Definition tb_build (b : TableBuilder I) : result (Table I) :=
  let? primary_key := result_mapM (fun i => match tb_columns b !! i with
                                            | Some c => Ok (cd_name c)
                                            | None => Err (Panic "index out of bounds")
                                            end) (tb_primary_key_members b) in
  from_columns (tb_reference b) (tb_columns b) primary_key (tb_encryption_metadata b).

(** [insert_schema]: the databases that the server did not list are added. *)
Definition insert_table (b : TableBuilder I) (schemas : gmap string (gmap string (Table I))) :
    result (gmap string (gmap string (Table I))) :=
  let tables := default ∅ (schemas !! schema (tb_reference b)) in
  let? t := tb_build b in
  match tables !! table (tb_reference b) with
  | Some _ => Err (ExecError "Table already exists")
  | None => Ok (<[schema (tb_reference b) := <[table (tb_reference b) := t]> tables]> schemas)
  end.

Definition normalize (ident_normalization : bool) (c : MySqlColumnDescription) : MySqlColumnDescription :=
  if ident_normalization then
    {| d_table_schema := d_table_schema c; d_table_name := str_lowercase (d_table_name c);
       d_column_name := str_lowercase (d_column_name c); d_column_default := d_column_default c;
       d_column_type := d_column_type c; d_column_key := d_column_key c; d_extra := d_extra c; d_is_nullable := d_is_nullable c |}
  else c.

Fixpoint introspect_columns (catalog_name : string) (ident_normalization : bool) (metas : gmap string (gmap string (TableMeta I)))
    (builder : TableBuilder I) (schemas : gmap string (gmap string (Table I))) (results : list MySqlColumnDescription) :
    result (gmap string (gmap string (Table I))) :=
  match results with
  | [] => if tb_is_empty builder then Ok schemas else insert_table builder schemas
  | c :: results =>
      let c := normalize ident_normalization c in
      let? (builder, schemas) :=
        if is_same_table builder c then Ok (builder, schemas)
        else
          let new_builder := {|
            tb_reference := {| catalog := catalog_name; schema := d_table_schema c; table := d_table_name c |};
            tb_columns := []; tb_primary_key_members := [];
            tb_encryption_metadata := match metas !! d_table_schema c with Some m => m !! d_table_name c | None => None end |} in
          let? schemas := if tb_is_empty builder then Ok schemas else insert_table builder schemas in
          Ok (new_builder, schemas) in
      let? builder := tb_add_column builder c in
      introspect_columns catalog_name ident_normalization metas builder schemas results
  end.

(** The metadata of the databases, read when the proxy starts. *)
Definition read_schema_meta (files : gmap string F) (catalog_name db : string) : result (gmap string (TableMeta I)) :=
  match files !! db with
  | None => Ok ∅
  | Some data => match toml_from_str data with
                 | Some m => Ok (schema_meta_deserialize catalog_name db m)
                 | None => Err (Panic "cannot deserialize metadata")
                 end
  end.

Fixpoint read_metas (files : gmap string F) (catalog_name : string) (dbs : list string) :
    result (gmap string (gmap string (TableMeta I))) :=
  match dbs with
  | [] => Ok ∅
  | db :: dbs =>
      let? m := read_schema_meta files catalog_name db in
      let? metas := read_metas files catalog_name dbs in Ok (<[db := m]> metas)
  end.

(** [MySqlCatalogProvider::introspect], with the two answers of the server. *)
Definition introspect (catalog_name : string) (ident_normalization : bool) (files : gmap string F)
    (schemas : list string) (results : list MySqlColumnDescription) : result (gmap string (gmap string (Table I))) :=
  let? metas := read_metas files catalog_name schemas in
  introspect_columns catalog_name ident_normalization metas
    {| tb_reference := {| catalog := catalog_name; schema := ""; table := "" |}; tb_columns := [];
       tb_primary_key_members := []; tb_encryption_metadata := None |}
    (list_to_map ((fun db => (db, ∅)) <$> schemas)) results.
End Introspection.
