(* ===== verification/DmlPlanning.v ===== *)
(** * Planning of statements

    Models [backends/mysql/src/planning/logical]: the plans of INSERT, UPDATE and DELETE
    ([insert.rs], [update.rs], [delete.rs]), and which statement goes where ([mod.rs],
    [custom_ddl.rs], [custom_txcontrol.rs], and [planning/physical/physical_planner.rs]
    for the plans of DataFusion). DataFusion's own planner, which plans the statement
    first, is a parameter. *)
From S2P Require Import Prelude Values Sql Text Crypto ArrowCodec ColumnCrypto SqlSchema Statements Logical LogicalRules PhysicalExprs RowId TableMeta WritePath Transactions Sinks Ddl.

(** ** Names of tables *)

(** [unparser::table_name_to_ref]: one, two or three parts. *)
Inductive TableReference := Bare (t : string) | Partial (s t : string) | Full (c s t : string).

Definition table_name_to_ref (parts : list string) : result TableReference :=
  match parts with
  | [t] => Ok (Bare t)
  | [s; t] => Ok (Partial s t)
  | [c; s; t] => Ok (Full c s t)
  | _ => Err (Panic "invalid table name")
  end.

(** [TableReference::resolve]. *)
Definition resolve (default_catalog default_schema : string) (r : TableReference) : TableRef :=
  match r with
  | Bare t => {| catalog := default_catalog; schema := default_schema; table := t |}
  | Partial s t => {| catalog := default_catalog; schema := s; table := t |}
  | Full c s t => {| catalog := c; schema := s; table := t |}
  end.

(** ** UPDATE *)

(** What the planner uses of the table. *)
Record DmlTarget := {
  dt_primary_key : list string;
  dt_updates_tracking : list string;   (* [columns_with_updates_tracking] *)
  dt_index_storage : bool              (* [has_index_storage] *)
}.

(** [MySqlTableProvider::columns_with_updates_tracking]: an index outside of the table
    needs the old values. *)
Definition columns_with_updates_tracking {I} (external : I -> bool) (tracked : I -> list string) (m : TableMeta I) : list string :=
  flat_map tracked (List.filter external (tm_indices m)).

(** An alias of an alias calls itself with the same argument. *)
Definition is_simple_alias (default_relation : Relation) (e : LExpr) : result bool :=
  match e with
  | LAlias (LAlias _ _ _) _ _ => Err (Panic "stack overflow")
  | LAlias (LColumn col) rel n =>
      let output_rel := default default_relation rel in
      let base_rel := default default_relation (relation col) in
      Ok (bool_decide (output_rel.2 = base_rel.2) && bool_decide (name col = n))
  | _ => Ok false
  end.

Fixpoint drop_simple_aliases (default_relation : Relation) (es : list LExpr) : result (list LExpr) :=
  match es with
  | [] => Ok []
  | e :: es =>
      let? simple := is_simple_alias default_relation e in
      let? es := drop_simple_aliases default_relation es in
      Ok (if simple then es else e :: es)
  end.

Definition column_of (table_ref : Relation) (n : string) : LExpr := LColumn {| relation := Some table_ref; name := n |}.

(** The columns that indices need with their current value. *)
Definition current_values `{!Names} (table_ref : Relation) (tracked : list string) (projection : list LExpr) : list LExpr :=
  (fun n => LAlias (column_of table_ref n) None (CURRENT_VALUE_PREFIX +:+ n)) <$>
  List.filter (fun n => bool_decide (n ∈ tracked)) (schema_name <$> projection).

Definition key_columns (table_ref : Relation) (primary_key : list string) : list LExpr :=
  (fun n => LAlias (column_of table_ref n) None (FILTER_PREFIX +:+ n)) <$> primary_key.

(** [plan_update] on the input of DataFusion's plan; [Projection::try_new] is DataFusion's
    and refuses expressions whose columns the input does not have, as those of the table
    are not when the statement gives it an alias. *)
Definition plan_update `{!Names} (projection_try_new : list LExpr -> LPlan -> result LPlan) (table_ref : Relation) (table : option DmlTarget) (input : LPlan) : result LPlan :=
  match table with
  | None => Err (PlanError "UPDATE statement contains invalid table")
  | Some table =>
      match dt_primary_key table with
      | [] => Err (PlanError "Cannot UPDATE without a primary key")
      | primary_key =>
          match input with
          | LProjection source_expr project_input =>
              let? projection := drop_simple_aliases table_ref source_expr in
              let current := match dt_updates_tracking table with
                             | [] => []
                             | tracked => current_values table_ref tracked projection
                             end in
              projection_try_new (projection ++ current ++ key_columns table_ref primary_key) project_input
          | _ => Err (PlanError "UPDATE statement produced invalid plan with no projection")
          end
      end
  end.

(** ** DELETE *)

Inductive TableFactor := FactorTable (parts : list string) | FactorOther (text : string).

Record DeleteStatement := {
  del_with_from : bool;                              (* FROM is given *)
  del_from : list (TableFactor * list string);       (* each with its joins *)
  del_selection : option AstExpr;
  del_limit : option AstExpr
}.

Inductive DmlPlan :=
  | DmlDelete (t : TableReference) (input : LPlan)
  | DmlForward (s : DeleteStatement).                (* [ForwardStatement::delete] *)

Section Delete.
(** DataFusion's plan of a DELETE, the table of a name, and whether all rows that a
    filter selects are those that the server selects with it. *)
Variable default_delete : DeleteStatement -> result LPlan.
Variable find_table : TableReference -> option DmlTarget.
Variable supports_exact : LExpr -> result bool.
Variable default_schema : string.

Definition relation_of (r : TableReference) : Relation :=
  match r with Bare t => (None, t) | Partial s t => (Some s, t) | Full _ s t => (Some s, t) end.

(** The table, with the schema added to the statement. *)
Definition delete_table (d : DeleteStatement) : result (DeleteStatement * TableReference) :=
  if negb (del_with_from d) then Err (PlanError "DELETE without FROM is not supported")
  else
    match del_from d with
    | [] => Err (PlanError "DELETE without any relation is not supported")
    | _ :: _ :: _ => Err (PlanError "DELETE with more than one relation is not supported")
    | [(_, _ :: _)] => Err (PlanError "DELETE with more than one relation is not supported")
    | [(FactorOther _, [])] => Err (PlanError "DELETE with more than one relation is not supported")
    | [(FactorTable parts, [])] =>
        let parts := match parts with [t] => [default_schema; t] | _ => parts end in
        let? r := table_name_to_ref parts in
        Ok ({| del_with_from := true; del_from := [(FactorTable parts, [])]; del_selection := del_selection d; del_limit := del_limit d |}, r)
    end.

Definition plan_delete (d : DeleteStatement) : result DmlPlan :=
  let? (d, obj_name) := delete_table d in
  let? table := ok_or (find_table obj_name) (PlanError "Table not found") in
  match del_selection d with
  | None => Ok (DmlDelete obj_name (LEmptyRelation false))
  | Some _ =>
      let? input := default_delete d in
      match input with
      | LFilter predicate _ =>
          let? exact := if dt_index_storage table then Ok false else supports_exact predicate in
          if exact then Ok (DmlForward d)
          else
            match dt_primary_key table with
            | [] => Err (PlanError "Cannot DELETE without a primary key")
            | primary_key => Ok (DmlDelete obj_name (LProjection (column_of (relation_of obj_name) <$> primary_key) input))
            end
      | _ => Err (PlanError "Delete statement produced invalid plan with no filter")
      end
  end.
End Delete.

(** ** INSERT *)

Record InsertStatement := {
  ins_ignore : bool;
  ins_table : option (list string);                  (* [None]: not the name of a table *)
  ins_columns : list string;
  ins_source : option (list (list AstExpr));         (* rows; other queries are DataFusion's *)
  ins_assignments : list (AssignmentTarget * AstExpr);
  ins_on_duplicate : option (list (AssignmentTarget * AstExpr))
}.

Section Insert.
(** DataFusion's plan of an INSERT: its input and the names of its columns; and the
    planning of an expression from its text, on these columns. *)
Variable default_insert : InsertStatement -> result (LPlan * list string).
Variable create_logical_expr : AstExpr -> list string -> result LExpr.

(** [INSERT INTO t SET a = 1]: the assignments become one row. *)
Definition set_style (ins : InsertStatement) : result InsertStatement :=
  match ins_source ins with
  | Some _ => Ok ins
  | None =>
      match ins_assignments ins with
      | [] => Err (NotImplemented "insert without a source nor assignments!")
      | assignments =>
          let? (columns, values) := parse_assignments assignments in
          Ok {| ins_ignore := ins_ignore ins; ins_table := ins_table ins; ins_columns := ins_columns ins ++ columns;
                ins_source := Some [values]; ins_assignments := []; ins_on_duplicate := ins_on_duplicate ins |}
      end
  end.

(** The columns and values of ON DUPLICATE KEY UPDATE. *)
Definition duplicate_values (ins : InsertStatement) : result (option (list string * list AstExpr)) :=
  match ins_on_duplicate ins with
  | None => Ok None
  | Some assignments =>
      let? (columns, values) := parse_assignments assignments in
      let? parts := ok_or (ins_table ins) (PlanError "Invalid target for INSERT INTO") in
      let? r := table_name_to_ref parts in
      let? values := result_mapM (rewrite_values (relation_of r).2) values in
      Ok (Some (columns, values))
  end.

Definition without_duplicate (ins : InsertStatement) : InsertStatement :=
  {| ins_ignore := false; ins_table := ins_table ins; ins_columns := ins_columns ins; ins_source := ins_source ins;
     ins_assignments := ins_assignments ins; ins_on_duplicate := None |}.

Definition unqualified (n : string) : LExpr := LColumn {| relation := None; name := n |}.

Definition plan_insert (ins : InsertStatement) : result LPlan :=
  let? ins := set_style ins in
  let? on_duplicate := duplicate_values ins in
  let? (input, fields) := default_insert (without_duplicate ins) in
  match on_duplicate with
  | None => Ok input
  | Some (columns, values) =>
      let? extra := result_mapM (fun '(target, e) =>
                      let? e := create_logical_expr e fields in
                      Ok (LAlias e None (DUPLICATE_VALUE_PFX +:+ target))) (zip columns values) in
      Ok (LProjection ((unqualified <$> fields) ++ extra) input)
  end.
End Insert.

(** ** Which statement goes where *)

Inductive TransactionIsolationLevel := TReadUncommitted | TReadCommitted | TRepeatableRead | TSerializable | TSnapshot.

Inductive TransactionControl := TxStart | TxCommit | TxRollback | TxSetAutocommit (b : bool) | TxSetIsolationLevel (l : IsolationLevel).

Definition isolation_level_of (level : TransactionIsolationLevel) : result TransactionControl :=
  match level with
  | TReadUncommitted => Ok (TxSetIsolationLevel ReadUncommitted)
  | TReadCommitted => Ok (TxSetIsolationLevel ReadCommitted)
  | TRepeatableRead => Ok (TxSetIsolationLevel RepeatableRead)
  | TSerializable => Ok (TxSetIsolationLevel Serializable)
  | TSnapshot => Err (PlanError "Transaction isolation level Snapshot is not supported")
  end.

Inductive PlannerStatement :=
  | SCreateTable (n : list string) (ct : CreateTable)
  | SAlterTable (if_exists : bool) (n : list string) (operations : list AlterTableOperation)
  | SCreateDatabase (db_name : list (option string)) (if_not_exists : bool)
  | SDropDatabase (names : list (list (option string))) (if_exists : bool)
  | SLockTables (text : string) | SUnlockTables
  | SShowCreate (obj_type : string) (n : list string) | SShowStatus (text : string)
  | SDelete (d : DeleteStatement) | SUpdate (text : string) | SInsert (ins : InsertStatement)
  | SSetTransaction (modes : list (option TransactionIsolationLevel))   (* [None]: an access mode *)
  | SSetVariable (variable : list (option string)) (values : list AstExpr)
  | SQuery (text : string) (locks : bool)
  | SOtherStatement (text : string).

Inductive DdlOperation :=
  | DdlCreateTable (t : TableRef) (ct : CreateTable)
  | DdlAlterTable (t : TableRef) (operations : list AlterTableOperation) (if_exists : bool)
  | DdlCreateDatabase (db_name : string) (if_not_exists : bool)
  | DdlDropDatabase (db_name : string) (if_exists : bool).

(** Where a statement is planned. *)
Inductive Planned :=
  | ToDdl (op : DdlOperation)
  | ToServer (s : PlannerStatement)                      (* forwarded *)
  | ToServerShowCreate (obj_type : string) (t : TableRef)
  | ToDelete (d : DeleteStatement) | ToUpdate (text : string) | ToInsert (ins : InsertStatement)
  | ToTransactions (t : TransactionControl)
  | ToDataFusion (s : PlannerStatement) (lock : bool).   (* its scans take locks *)

Definition first_ident (n : list (option string)) : result string :=
  match n with
  | [] => Err (Panic "index out of bounds")
  | None :: _ => Err (Panic "called Option::unwrap() on a None value")
  | Some s :: _ => Ok s
  end.

(** The value of AUTOCOMMIT. *)
Definition autocommit_value (values : list AstExpr) : result bool :=
  match values with
  | [] => Err (Panic "index out of bounds")
  | AValue (VNumber v) :: _ => Ok (bool_decide (v = "1"))
  | AValue (VBoolean b) :: _ => Ok b
  | AValue _ :: _ => Err (PlanError "cannot parse AUTOCOMMIT value")
  | _ :: _ => Err (PlanError "missing AUTOCOMMIT value")
  end.

Definition is_autocommit (variable : list (option string)) : bool :=
  match variable with Some v :: _ => bool_decide (v = "autocommit") | _ => false end.

Definition statement_to_plan (default_catalog default_schema : string) (s : PlannerStatement) : result Planned :=
  let resolved (n : list string) := let? r := table_name_to_ref n in Ok (resolve default_catalog default_schema r) in
  match s with
  | SCreateTable n ct => let? t := resolved n in Ok (ToDdl (DdlCreateTable t ct))
  | SAlterTable if_exists n operations => let? t := resolved n in Ok (ToDdl (DdlAlterTable t operations if_exists))
  | SCreateDatabase db_name if_not_exists => let? n := first_ident db_name in Ok (ToDdl (DdlCreateDatabase n if_not_exists))
  | SDropDatabase names if_exists =>
      match names with
      | [] => Err (Panic "removal index (is 0) should be < len (is 0)")
      | n :: _ => let? n := first_ident n in Ok (ToDdl (DdlDropDatabase n if_exists))
      end
  | SLockTables _ | SUnlockTables | SShowStatus _ => Ok (ToServer s)
  | SShowCreate obj_type n => let? t := resolved n in Ok (ToServerShowCreate obj_type t)
  | SDelete d => Ok (ToDelete d)
  | SUpdate text => Ok (ToUpdate text)
  | SInsert ins => Ok (ToInsert ins)
  | SSetTransaction modes =>
      match modes with
      | Some level :: _ => let? t := isolation_level_of level in Ok (ToTransactions t)
      | _ => Err (PlanError "Invalid SET_TRANSACTION command")
      end
  | SSetVariable variable values =>
      if is_autocommit variable then let? b := autocommit_value values in Ok (ToTransactions (TxSetAutocommit b))
      else Ok (ToDataFusion s false)
  | SQuery _ locks => Ok (ToDataFusion s locks)
  | SOtherStatement _ => Ok (ToDataFusion s false)
  end.

(** [MySqlPhysicalPlanner]: the plans of DataFusion that are not its own to run. *)
Inductive PhysicalTarget :=
  | PhDropTable (t : TableRef) (if_exists : bool) | PhCreateIndex | PhDelete | PhUpdate
  | PhTransactions (t : TransactionControl) | PhDataFusion.

Inductive LogicalRoot :=
  | RootDropTable (n : TableReference) (if_exists : bool) | RootCreateIndex | RootOtherDdl
  | RootDelete (mysql : bool) | RootUpdate (mysql : bool)
  | RootTransactionStart | RootTransactionEnd (commit : bool) | RootSetVariable (variable value : string)
  | RootOther.

Definition create_physical_plan (default_schema : string) (r : LogicalRoot) : result PhysicalTarget :=
  match r with
  | RootDropTable n if_exists => Ok (PhDropTable (resolve "__ignored" default_schema n) if_exists)
  | RootCreateIndex => Ok PhCreateIndex
  | RootOtherDdl => Err (Panic "not yet implemented: ddl unimplemented")
  | RootDelete true => Ok PhDelete
  | RootUpdate true => Ok PhUpdate
  | RootDelete false | RootUpdate false => Err (ExecError "Table source can't be downcasted to MySqlTableProvider")
  | RootTransactionStart => Ok (PhTransactions TxStart)
  | RootTransactionEnd true => Ok (PhTransactions TxCommit)
  | RootTransactionEnd false => Ok (PhTransactions TxRollback)
  | RootSetVariable variable value =>
      if bool_decide (variable = "autocommit") then Ok (PhTransactions (TxSetAutocommit (bool_decide (value = "1"))))
      else Ok PhDataFusion
  | RootOther => Ok PhDataFusion
  end.

(** ** What an UPDATE writes *)

(** A column that is sent to be set: neither a key nor a current value. *)
Definition is_set (n : string) : bool := negb (starts_with CURRENT_VALUE_PREFIX n) && negb (starts_with FILTER_PREFIX n).

Section UpdateEffect.
Context {D : Type} `{!Names}.
(** The value of an expression on a row of the table [table_ref]. *)
Variable table_ref : Relation.
Variable eval : (string -> D) -> LExpr -> D.
Hypothesis eval_column : forall row c, (default table_ref (relation c)).2 = table_ref.2 -> eval row (LColumn c) = row (name c).
Hypothesis eval_alias : forall row e rel n, eval row (LAlias e rel n) = eval row e.

(** The row after columns were set to the values of expressions. *)
Fixpoint new_value (row : string -> D) (es : list LExpr) (c : string) : D :=
  match es with
  | [] => row c
  | e :: es => if bool_decide (schema_name e = c) then eval row e else new_value row es c
  end.

(** DataFusion's projection: an expression for each column of the table, in order. *)
Definition full_projection (fields : list string) (es : list LExpr) : Prop :=
  Forall2 (fun n e => exists e0, e = LAlias e0 None n /\ match e0 with LAlias _ _ _ => False | _ => True end) fields es.

Lemma new_value_absent row es c : c ∉ schema_name <$> es -> new_value row es c = row c.
Proof.
  induction es as [|e es IH]; intros Hc; [done|]. cbn in *. apply not_elem_of_cons in Hc as [Hne Hc].
  rewrite bool_decide_false by done. by apply IH.
Qed.

(** The columns that keep their value are left out. *)
Lemma drop_simple_aliases_same fields es : full_projection fields es -> NoDup fields ->
  exists es', drop_simple_aliases table_ref es = Ok es' /\ schema_name <$> es' ⊆ fields /\
    (forall row c, new_value row es' c = new_value row es c).
Proof.
  induction 1 as [|n e fields es (e0 & -> & Hna) _ IH]; intros Hnd; [by exists []|]. apply NoDup_cons in Hnd as [Hn Hnd].
  destruct (IH Hnd) as (es' & Hd & Hsub & Hval). cbn.
  assert (exists simple, is_simple_alias table_ref (LAlias e0 None n) = Ok simple /\
    (simple = true -> forall row, eval row (LAlias e0 None n) = row n)) as (simple & Hs & Hkeep).
  { destruct e0; try (by exists false). cbn. eexists. split; [done|]. intros [H1 H2]%andb_true_iff row.
    apply bool_decide_eq_true in H1, H2. rewrite eval_alias, eval_column by done. by rewrite H2. }
  cbn in Hs. rewrite Hs. cbn. rewrite Hd. cbn. destruct simple.
  - exists es'. split; [done|]. split; [set_solver|]. intros row c. cbn. case_bool_decide as Hc; [subst c|apply Hval].
    rewrite (Hkeep eq_refl). apply new_value_absent. set_solver.
  - eexists. split; [done|]. split; [set_solver|]. intros row c. cbn. by rewrite Hval.
Qed.

Lemma set_columns_only es current keys :
  Forall (fun e => is_set (schema_name e) = true) es -> Forall (fun e => is_set (schema_name e) = false) (current ++ keys) ->
  List.filter (fun e => is_set (schema_name e)) (es ++ current ++ keys) = es.
Proof.
  intros Hes Hrest. rewrite List.filter_app. replace (List.filter _ (current ++ keys)) with (@nil LExpr).
  - rewrite app_nil_r. induction Hes as [|e es He _ IH]; [done|]. cbn. by rewrite He, IH.
  - symmetry. induction Hrest as [|e l He _ IH]; [done|]. cbn. by rewrite He.
Qed.

Lemma column_of_value row n : eval row (column_of table_ref n) = row n.
Proof. unfold column_of. by rewrite eval_column. Qed.

Lemma key_columns_filter row primary_key :
  List.filter (fun e => starts_with FILTER_PREFIX (schema_name e)) (key_columns table_ref primary_key) = key_columns table_ref primary_key /\
  (fun e => (schema_name e, eval row e)) <$> key_columns table_ref primary_key = (fun n => (FILTER_PREFIX +:+ n, row n)) <$> primary_key.
Proof.
  unfold key_columns. induction primary_key as [|n pk [IH1 IH2]]; [done|]. cbn in IH1, IH2 |- *. rewrite IH1. split; [done|]. rewrite IH2.
  by rewrite eval_alias, column_of_value.
Qed.

Lemma not_set_filtered es : Forall (fun e => starts_with FILTER_PREFIX (schema_name e) = false) es ->
  List.filter (fun e => starts_with FILTER_PREFIX (schema_name e)) es = [].
Proof. induction 1 as [|e es He _ IH]; [done|]. cbn. by rewrite He. Qed.

(** C24: an UPDATE writes what the statement says, to the rows it selects: its plan is a
    projection of the rows that the statement selects, and nothing but DataFusion's check
    of this projection can refuse it. For every row, setting the columns that the plan sends gives each column of the table the value
    that DataFusion's plan of the whole row has; the row is found by the key it has
    before the update; and each column that is set and that an index outside of the
    table tracks comes with its value before the update. *)
Theorem update_writes_statement projection_try_new table fields es input :
  (forall l p, projection_try_new l input = Ok p -> p = LProjection l input) ->
  dt_primary_key table <> [] -> NoDup fields -> full_projection fields es -> Forall (fun n => is_set n = true) fields ->
  exists projection,
    plan_update projection_try_new table_ref (Some table) (LProjection es input) = projection_try_new projection input /\
    (forall p, plan_update projection_try_new table_ref (Some table) (LProjection es input) = Ok p -> p = LProjection projection input) /\
    (forall row c, new_value row (List.filter (fun e => is_set (schema_name e)) projection) c = new_value row es c) /\
    (forall row, (fun e => (schema_name e, eval row e)) <$> List.filter (fun e => starts_with FILTER_PREFIX (schema_name e)) projection =
                 (fun n => (FILTER_PREFIX +:+ n, row n)) <$> dt_primary_key table) /\
    (forall n, n ∈ dt_updates_tracking table -> n ∈ schema_name <$> List.filter (fun e => is_set (schema_name e)) projection ->
       exists e, e ∈ projection /\ schema_name e = CURRENT_VALUE_PREFIX +:+ n /\ forall row, eval row e = row n).
Proof.
  intros Htry Hpk Hnd Hfull Hset. destruct (drop_simple_aliases_same fields es Hfull Hnd) as (es' & Hd & Hsub & Hval).
  set (current := match dt_updates_tracking table with [] => [] | tracked => current_values table_ref tracked es' end).
  exists (es' ++ current ++ key_columns table_ref (dt_primary_key table)).
  assert (Forall (fun e => is_set (schema_name e) = true) es') as Hes'.
  { apply Forall_forall. intros e He. rewrite Forall_forall in Hset. apply Hset, Hsub, list_elem_of_fmap. by exists e. }
  assert (current = [] \/ current = current_values table_ref (dt_updates_tracking table) es') as Hcur.
  { unfold current. destruct (dt_updates_tracking table); [by left|by right]. }
  assert (Forall (fun e => is_set (schema_name e) = false /\ starts_with FILTER_PREFIX (schema_name e) = false) current) as Hc.
  { destruct Hcur as [->| ->]; [constructor|]. unfold current_values. apply Forall_fmap, Forall_forall. by intros n _. }
  assert (Forall (fun e => is_set (schema_name e) = false) (key_columns table_ref (dt_primary_key table))) as Hk.
  { unfold key_columns. apply Forall_fmap, Forall_forall. by intros n _. }
  assert (List.filter (fun e => is_set (schema_name e)) (es' ++ current ++ key_columns table_ref (dt_primary_key table)) = es') as Hfilter.
  { apply set_columns_only; [done|]. apply Forall_app. split; [|done]. eapply Forall_impl; [exact Hc|]. by intros e [? _]. }
  assert (plan_update projection_try_new table_ref (Some table) (LProjection es input) =
          projection_try_new (es' ++ current ++ key_columns table_ref (dt_primary_key table)) input) as Hplan.
  { unfold plan_update. destruct (dt_primary_key table) eqn:Hpk'; [done|]. rewrite Hd. done. }
  split_and!; [done| | | |].
  - intros p. rewrite Hplan. apply Htry.
  - intros row c. by rewrite Hfilter.
  - intros row. rewrite !List.filter_app. rewrite (not_set_filtered es'), (not_set_filtered current).
    + cbn [app]. destruct (key_columns_filter row (dt_primary_key table)) as [-> Hv]. exact Hv.
    + eapply Forall_impl; [exact Hc|]. by intros e [_ ?].
    + eapply Forall_impl; [exact Hes'|]. intros e He. apply andb_true_iff in He as [_ He]. by apply negb_true_iff.
  - intros n Hn Hin. rewrite Hfilter in Hin. exists (LAlias (column_of table_ref n) None (CURRENT_VALUE_PREFIX +:+ n)). split_and!; [|done|].
    + apply elem_of_app. right. apply elem_of_app. left. destruct Hcur as [Hcur|Hcur]; unfold current in *.
      * destruct (dt_updates_tracking table) as [|m tracked]; [by apply not_elem_of_nil in Hn|]. unfold current_values in *.
        apply list_elem_of_fmap. exists n. split; [done|]. apply list_elem_of_In, List.filter_In. split; [by apply list_elem_of_In|].
        by apply bool_decide_eq_true.
      * rewrite Hcur. unfold current_values. apply list_elem_of_fmap. exists n. split; [done|].
        apply list_elem_of_In, List.filter_In. split; [by apply list_elem_of_In|]. by apply bool_decide_eq_true.
    + intros row. by rewrite eval_alias, column_of_value.
Qed.
End UpdateEffect.

(** ** DELETE without WHERE *)

(** The plan has no rows, and no column for the query of the sink: nothing follows its
    WHERE. A LIMIT plays no part. *)
Lemma delete_all_plan default_delete find_table supports_exact default_schema d parts target tbl :
  del_with_from d = true -> del_from d = [(FactorTable parts, [])] -> del_selection d = None ->
  table_name_to_ref (match parts with [t] => [default_schema; t] | _ => parts end) = Ok target -> find_table target = Some tbl ->
  plan_delete default_delete find_table supports_exact default_schema d = Ok (DmlDelete target (LEmptyRelation false)) /\
  forall t, delete_query t [] = "DELETE FROM " +:+ schema t +:+ "." +:+ table t +:+ " WHERE ".
Proof.
  intros Hf Hfrom Hs Hr Ht. split.
  - unfold plan_delete, delete_table. rewrite Hf, Hfrom. cbn [negb]. rewrite Hr. cbn. by rewrite Ht, Hs.
  - intros t. unfold delete_query. cbn. done.
Qed.

(** A nested alias is never decided. *)
Lemma nested_alias_overflows r e r1 n1 r2 n2 : is_simple_alias r (LAlias (LAlias e r1 n1) r2 n2) = Err (Panic "stack overflow").
Proof. done. Qed.

(** ** A concrete update *)

(** A toy evaluation: columns are read, literals are zero, calls are one. *)
Fixpoint demo_eval_expr (row : string -> Z) (e : LExpr) : Z :=
  match e with
  | LColumn c => row (name c)
  | LAlias e _ _ => demo_eval_expr row e
  | LLiteral _ => 0
  | _ => 1
  end.

Definition demo_names : Names := {| print_literal _ := "literal"; print_call f _ := f |}.

Definition demo_update_target : DmlTarget := {| dt_primary_key := ["id"]; dt_updates_tracking := ["note"]; dt_index_storage := true |}.

Lemma update_writes_statement_witness :
  exists projection,
    @plan_update demo_names (fun es input => Ok (LProjection es input)) (None, "t") (Some demo_update_target)
      (LProjection [LAlias (unqualified "id") None "id"; LAlias (LLiteral SNull) None "note"] (LEmptyRelation true)) =
      Ok (LProjection projection (LEmptyRelation true)) /\
    projection = [LAlias (LLiteral SNull) None "note"; LAlias (column_of (None, "t") "note") None "__pr_cur__note";
                  LAlias (column_of (None, "t") "id") None "__pr_flt__id"] /\
    (forall row c, @new_value Z demo_names demo_eval_expr row
       (List.filter (fun e => is_set (@schema_name demo_names e)) projection) c =
     @new_value Z demo_names demo_eval_expr row [LAlias (unqualified "id") None "id"; LAlias (LLiteral SNull) None "note"] c).
Proof.
  destruct (@update_writes_statement Z demo_names (None, "t") demo_eval_expr (fun row c _ => eq_refl) (fun row e r n => eq_refl)
    (fun es input => Ok (LProjection es input)) demo_update_target ["id"; "note"] [LAlias (unqualified "id") None "id"; LAlias (LLiteral SNull) None "note"] (LEmptyRelation true))
    as (projection & Hp & _ & Hval & _).
  - by intros l p [= <-].
  - done.
  - apply (bool_decide_unpack _). by vm_compute.
  - repeat constructor; by eexists.
  - by repeat constructor.
  - exists projection. split; [exact Hp|]. split; [|exact Hval]. vm_compute in Hp. injection Hp as <-. reflexivity.
Defined.
