(* ===== verification/IndexCreation.v ===== *)
(** * Creating an index

    Models [backends/mysql/src/planning/physical/create_index.rs] and the plans
    [create_columnar_index_plan.rs] and [create_rowid_plan.rs]: a column is added to the
    table on the server, filled for the rows that are there, and the new index is
    recorded in the catalog and in the file of metadata. *)
From S2P Require Import Prelude Values Sql Text Crypto ArrowCodec ColumnCrypto SqlSchema PhysicalExprs RowId TableMeta WritePath Logical RangeIndex BlindIndex InvertedIndex Transactions Sinks SinkTheorems Ddl.
From stdpp Require Import pretty.

(** ** The indices of a table *)

(** The implementations of [EncryptedIndex]; the inverted index keeps the table and the
    identifiers of rows it was built for. *)
Inductive TableIndex :=
  | IxBlind (index_name column : string) (size_bits : nat)
  | IxRange (ix : RangeIndex)
  | IxInverted (ix : InvertedIndex) (table_name : TableRef) (indexable_column : option RowIdColumn).

Definition index_to_config (i : TableIndex) : IndexConfiguration :=
  match i with
  | IxBlind index_name column size_bits => CfgBlind index_name column size_bits
  | IxRange ix => CfgRange ix
  | IxInverted ix _ _ => CfgInverted ix
  end.

(** [EncryptedIndexConfigurationVariant::build]. *)
Definition build (c : IndexConfiguration) (table_name : TableRef) (indexable_column : option RowIdColumn) : TableIndex :=
  match c with
  | CfgBlind index_name column size_bits => IxBlind index_name column size_bits
  | CfgInverted ix => IxInverted ix table_name indexable_column
  | CfgRange ix => IxRange ix
  end.

(** The columns of an index are not shown, but for those of an inverted index, which
    has tables of its own. *)
Definition index_is_column_hidden (i : TableIndex) (column : string) : bool :=
  match i with
  | IxBlind index_name c size_bits =>
      match blind_index_new index_name c size_bits with
      | Ok ix => bool_decide (column = BlindIndex.index_column_name ix)
      | Err _ => false
      end
  | IxRange ix => bool_decide (column = RangeIndex.index_column_name ix)
  | IxInverted _ _ _ => false
  end.

Definition index_tracked_columns (i : TableIndex) : list string :=
  match i with
  | IxBlind _ column _ => [column]
  | IxRange ix => [RangeIndex.indexed_column ix]
  | IxInverted ix _ _ => ordered_tracked_columns ix
  end.

#[export] Instance table_index_ops : IndexOps TableIndex IndexConfiguration := {|
  to_config := index_to_config; build_index := build; config_requires_rowid := requires_rowid;
  index_hides := index_is_column_hidden; index_tracks := index_tracked_columns
|}.

#[export] Instance table_index_laws : IndexLaws TableIndex IndexConfiguration.
Proof. split; [by intros []|]. by intros []. Qed.

Section IndexCreation.
Context {X S : Type}.
Context `{Unicode} `{SqlDisplay} `{!SqlParsing} {I : Type} `{!IndexOps I IndexConfiguration} {F : Type} `{!Toml IndexConfiguration F}.
(** An index as the write path uses it. *)
Variable write_index : I -> WriteIndex (X := X) (S := S).
(** Types and nullability of the expressions of the indices, and the values of all. *)
Variable index_type : X -> list Field -> result DataType.
Variable index_nullable : X -> list Field -> result bool.
Variable eval : nat -> PhysExpr (X := X) -> RecordBatch -> result PVal.
Variable decimal_from_i128_with_scale : Z -> Z -> result bytes.
Variable from_timestamp_nanos : Z -> MyValue.
Variable prepares : string -> bool.
Variable accepts : list (Stmt (W := WriteStmt)) -> Stmt (W := WriteStmt) -> bool.
Variable server_last_insert_id : list (Stmt (W := WriteStmt)) -> option Z.
(** What the server answers to the query of a scan. *)
Variable scan_rows : TableRef -> list Field -> result (list RecordBatch).

Abbreviation Backend := (Backend I F).
Abbreviation step := (Step Backend).
Abbreviation send_statement := (send_statement (I := I) accepts).

Definition as_provider (t : Table I) : MySqlTableProvider (X := X) (S := S) := {|
  table_reference := tbl_reference t; table_schema := tbl_schema t; primary_key := tbl_primary_key t;
  encryption_metadata := {| encrypted_columns := encrypted_columns (tbl_meta t);
                            tm_indices := write_index <$> tm_indices (tbl_meta t);
                            row_id_column := row_id_column (tbl_meta t); row_binding_aad := row_binding_aad (tbl_meta t) |}
|}.

(** ** The plan that fills the new column *)

(** A scan that is decrypted, the projection on it, and the sink of its rows. *)
Record FillPlan := {
  fp_scan : list Field;
  fp_decrypt : list (ProjectionExpr (X := X));
  fp_decrypted : list Field;
  fp_project : list (ProjectionExpr (X := X));
  fp_sink : MySqlDmlSink
}.

(** [field_with_name] on every column. *)
Definition project_fields (t : Table I) (columns : list string) : result (list Field) :=
  result_mapM (fun n => ok_or (field_with_name (tbl_schema t) n) (PlanError "Unable to get field named")) columns.

(** [scan_and_decrypt_all]: the fields of the scan, its projection and its schema. *)
Definition plan_decrypted_scan (t : Table I) (fields : list Field) :
    result (list (ProjectionExpr (X := X)) * list Field) :=
  let? ps := decrypt_projection (as_provider t) fields in
  let? schema := projection_schema index_type index_nullable ps (transform_encrypted_fields (as_provider t) fields) in
  Ok (ps, schema).

(** The columns of the key, named as the filter of an update. *)
Definition filter_columns (fields : list Field) : list (ProjectionExpr (X := X)) :=
  imap (fun pos f => {| pe_expr := PColumn (field_name f) pos; pe_alias := FILTER_PREFIX +:+ field_name f |}) fields.

Definition finish_fill_plan (t : Table I) (fields : list Field) (ps : list (ProjectionExpr (X := X))) (select_schema : list Field)
    (new_column : ProjectionExpr (X := X)) (keys : list Field) : result FillPlan :=
  let projection := new_column :: filter_columns keys in
  let? schema := projection_schema index_type index_nullable projection select_schema in
  let? sink := dml_update (tbl_reference t) schema in
  Ok {| fp_scan := fields; fp_decrypt := ps; fp_decrypted := select_schema; fp_project := projection; fp_sink := sink |}.

(** [create_index_compute_plan]. *)
Definition create_index_compute_plan (t : Table I) (index : I) (indexed_column : string) : result FillPlan :=
  let? fields := project_fields t (tbl_primary_key t ++ [indexed_column]) in
  let? (ps, select_schema) := plan_decrypted_scan t fields in
  let? strategy := wi_insert (write_index index) select_schema in
  match strategy with
  | IndexSink _ _ => Err (Panic "internal error: entered unreachable code: Columnar Indexes use the AddColumns strategy")
  | AddColumns [] => Err (Panic "removal index (is 0) should be < len (is 0)")
  | AddColumns (index_column :: _) =>
      finish_fill_plan t fields ps select_schema index_column (take (length select_schema - 1) select_schema)
  end.

(** [create_row_id]: the identifiers are computed from the key. *)
Definition create_row_id_plan (t : Table I) (row_id : RowIdColumn) : result FillPlan :=
  let? fields := project_fields t (tbl_primary_key t) in
  let? (ps, select_schema) := plan_decrypted_scan t fields in
  let? e := compute_rowid_expr row_id (RowIdColumnCtx (tbl_reference t)) select_schema in
  let? e := ok_or e (ExecError "failed to create an expression to generate row_id column") in
  finish_fill_plan t fields ps select_schema e select_schema.

(** Running it: [RecordBatchSinkExec] on the projections of the scan. *)
Definition fill_batch (p : FillPlan) (b : RecordBatch) : result RecordBatch :=
  let? b := project eval (fp_decrypted p) (fp_decrypt p) b in
  project eval (expected_input_schema (fp_sink p)) (fp_project p) b.

Definition run_fill_plan (t : TableRef) (p : FillPlan) : step unit := fun b =>
  let input := let? batches := scan_rows t (fp_scan p) in result_mapM (fill_batch p) batches in
  let (conn, r) := sink_exec accepts (dml_sink decimal_from_i128_with_scale from_timestamp_nanos prepares accepts
                                        server_last_insert_id (fp_sink p)) input (bk_conn b) in
  ({| bk_catalog := bk_catalog b; bk_files := bk_files b; bk_conn := conn |}, result_map (fun _ => tt) r).

(** ** Columnar indices *)

(** [CreateColumnarIndexPlan]. *)
Record CreateColumnarIndexPlan := {
  compute_initial_index_plan : FillPlan;
  ci_table : TableRef;
  ci_config : I;
  index_column_type : string;
  ci_index_column_name : string
}.

Definition lock_statement (p : CreateColumnarIndexPlan) : string := "LOCK TABLE " +:+ table (ci_table p) +:+ " WRITE".

Definition add_column_statement (p : CreateColumnarIndexPlan) : string :=
  "ALTER TABLE " +:+ table (ci_table p) +:+ " ADD COLUMN " +:+ ci_index_column_name p +:+ " " +:+ index_column_type p +:+
  " NULL, ADD INDEX " +:+ ci_index_column_name p +:+ " (" +:+ ci_index_column_name p +:+ ")".

Definition not_null_statement (p : CreateColumnarIndexPlan) : string :=
  "ALTER TABLE " +:+ table (ci_table p) +:+ " MODIFY COLUMN " +:+ ci_index_column_name p +:+ " " +:+ index_column_type p +:+ " NOT NULL".

(** The last step: the index is recorded. *)
Definition record_index (t : TableRef) (index : I) : step unit := fun b =>
  match mysql_table (schema t) (table t) b with
  | None => (b, Err (ExecError "table not found"))
  | Some tbl =>
      let tbl := {| tbl_reference := tbl_reference tbl; tbl_defaults := tbl_defaults tbl; tbl_schema := tbl_schema tbl;
                    tbl_meta := add_index index (tbl_meta tbl);
                    tbl_primary_key := tbl_primary_key tbl; tbl_primary_key_def := tbl_primary_key_def tbl |} in
      (let! _ := update_metadata (schema t) (fun m => <[table t := table_meta_to_serializable (tbl_meta tbl)]> m) in
       replace_mysql_table (schema t) (table t) tbl) b
  end.

Definition execute_columnar_index (p : CreateColumnarIndexPlan) : step unit :=
  let! _ := send_statement (lock_statement p) in
  let! _ := send_statement (add_column_statement p) in
  let! _ := run_fill_plan (ci_table p) (compute_initial_index_plan p) in
  let! _ := send_statement (not_null_statement p) in
  let! _ := send_statement "UNLOCK TABLES" in
  record_index (ci_table p) (ci_config p).

(** ** Inverted indices *)

(** [CreateInvertedIndexPlan]: the plan of its child fills the tables of the index, and
    then the index is recorded. *)
Definition execute_inverted_index (create_base_index : Connection -> Connection * result unit) (t : TableRef) (index : I) : step unit :=
  let! _ := (fun b => let (conn, r) := create_base_index (bk_conn b) in
                      ({| bk_catalog := bk_catalog b; bk_files := bk_files b; bk_conn := conn |}, r)) in
  record_index t index.

(** ** The column of row identifiers *)

Record CreateRowidPlan := {
  cr_row_id : RowIdColumn;
  cr_column_def : ColumnDef;
  cr_table : TableRef;
  fill_table_plan : FillPlan
}.

(** How a column definition is printed. *)
Variable column_text : ColumnDef -> string.

Definition rowid_add_statement (p : CreateRowidPlan) : string :=
  "ALTER TABLE " +:+ schema (cr_table p) +:+ "." +:+ table (cr_table p) +:+ " ADD COLUMN " +:+ column_text (cr_column_def p) +:+
  " NULL,ADD UNIQUE INDEX (" +:+ cd_name (cr_column_def p) +:+ ")".

Definition rowid_finish_statement (p : CreateRowidPlan) : string :=
  "ALTER TABLE " +:+ schema (cr_table p) +:+ "." +:+ table (cr_table p) +:+ " MODIFY " +:+ column_text (cr_column_def p) +:+ " NOT NULL".

Definition rowid_rollback_statement (p : CreateRowidPlan) : string :=
  "ALTER TABLE " +:+ schema (cr_table p) +:+ "." +:+ table (cr_table p) +:+ " DROP COLUMN " +:+ column_text (cr_column_def p).

(** [save_updated_metadata]. *)
Definition record_row_id (t : TableRef) (row_id : RowIdColumn) : step unit := fun b =>
  match mysql_schema (schema t) b with
  | None => (b, Err (PlanError "no such schema"))
  | Some _ =>
      (let! taken := take_mysql_table (schema t) (table t) in
       match taken with
       | None => step_err (ExecError "Table does not exist in local schema")
       | Some tbl =>
           let tbl := {| tbl_reference := tbl_reference tbl; tbl_defaults := tbl_defaults tbl; tbl_schema := tbl_schema tbl;
                         tbl_meta := {| encrypted_columns := encrypted_columns (tbl_meta tbl); tm_indices := tm_indices (tbl_meta tbl);
                                        row_id_column := Some row_id; row_binding_aad := row_binding_aad (tbl_meta tbl) |};
                         tbl_primary_key := tbl_primary_key tbl; tbl_primary_key_def := tbl_primary_key_def tbl |} in
           let! _ := (fun b => match register_mysql_table (schema t) (table t) tbl b with
                               | (b, r) => (b, expect_ok r "failed to insert back table!") end) in
           fun b => match save_metadata_for_table t tbl b with
                    | (b, r) => (b, expect_ok r "failed to insert save metadata to disk!") end
       end) b
  end.

(** [execute]: the operations after the creation of the column end the task when they
    fail, so that [result] below is never an error. *)
Definition execute_rowid (p : CreateRowidPlan) : step unit :=
  let! _ := send_statement (rowid_add_statement p) in
  let! result :=
    (let! _ := run_fill_plan (cr_table p) (fill_table_plan p) in
     let! _ := send_statement (rowid_finish_statement p) in
     let! _ := record_row_id (cr_table p) (cr_row_id p) in
     step_ret (Ok tt)) in
  match result with
  | Err e => let! _ := send_statement (rowid_rollback_statement p) in step_err e
  | Ok _ => step_ret tt
  end.

(** [MySqlTableProvider::create_rowid_column]. *)
Definition create_rowid_column (t : Table I) : result (option (CreateRowidPlan)) :=
  match row_id_column (tbl_meta t) with
  | Some _ => Ok None
  | None =>
      let (column, column_def) := create_for_table (tbl_primary_key_def t) in
      match column_def with
      | None => Err (PlanError "inconsistent metadata state: row_id column exists in table but not in metadata")
      | Some column_def =>
          let? fill := create_row_id_plan t column in
          Ok (Some {| cr_row_id := column; cr_column_def := column_def; cr_table := tbl_reference t; fill_table_plan := fill |})
      end
  end.

(** ** CREATE INDEX *)

(** [CreateIndex] of a logical plan. *)
Record CreateIndex := {
  cx_name : option string;
  cx_table : option string * string;   (* the schema where the statement gives it *)
  cx_using : option string;
  cx_columns : list Expr;
  cx_unique : bool;
  cx_if_not_exists : bool
}.

Definition extract_column_names (ci : CreateIndex) : result (list string) :=
  result_mapM (fun e => match e with
                        | EColumn c => Ok (name c)
                        | _ => Err (PlanError "Unsupported index expression")
                        end) (cx_columns ci).

Definition resolve_index_table (default_schema : string) (ci : CreateIndex) : TableRef :=
  {| catalog := "def"; schema := default default_schema (cx_table ci).1; table := (cx_table ci).2 |}.

(** An index of the server; it is refused on encrypted columns. [forward_text] prints
    the statement. *)
Definition try_forward_create_index (forward_text : TableRef -> CreateIndex -> string) (t : TableRef) (ci : CreateIndex) :
    step (step unit) := fun b =>
  match mysql_table (schema t) (table t) b with
  | None => (b, Ok (send_statement (forward_text t ci)))
  | Some tbl =>
      if existsb (fun c => bool_decide (is_Some (column_meta (tbl_meta tbl) (name c)))) (flat_map column_refs (cx_columns ci)) then
        (b, Err (PlanError "Cannot create an index over column: column is encrypted"))
      else (b, Ok (send_statement (forward_text t ci)))
  end.

(** The columnar plan of a configuration; an inverted index has its own plan. *)
Definition columnar_plan (t : Table I) (config : IndexConfiguration) (index : I) : result (option CreateColumnarIndexPlan) :=
  match config with
  | CfgBlind index_name column size_bits =>
      let? ix := blind_index_new index_name column size_bits in
      let? fill := create_index_compute_plan t index (BlindIndex.indexed_column ix) in
      Ok (Some {| compute_initial_index_plan := fill; ci_table := tbl_reference t; ci_config := index;
                  index_column_type := "CHAR(" +:+ pretty ((size_bits + 7) / 8 * 2) +:+ ")";
                  ci_index_column_name := BlindIndex.index_column_name ix |})
  | CfgRange ix =>
      let? fill := create_index_compute_plan t index (RangeIndex.indexed_column ix) in
      Ok (Some {| compute_initial_index_plan := fill; ci_table := tbl_reference t; ci_config := index;
                  index_column_type := "INT UNSIGNED"; ci_index_column_name := RangeIndex.index_column_name ix |})
  | CfgInverted _ => Ok None
  end.

(** [plan_create_index]: the plan is run by its caller, but the column of row
    identifiers is created while planning. *)
Definition plan_create_index (forward_text : TableRef -> CreateIndex -> string)
    (str_lowercase : string -> string) (cast_scalar : ScalarValue -> DataType -> result ScalarValue)
    (create_base_index : TableRef -> I -> result (Connection -> Connection * result unit)) (default_schema : string) (ci : CreateIndex) : step (step unit) := fun b =>
  let t := resolve_index_table default_schema ci in
  let forward := try_forward_create_index forward_text t ci b in
  match cx_using ci with
  | None => forward
  | Some index_type_name =>
      let having := str_lowercase index_type_name in
      if bool_decide (having = "btree") || bool_decide (having = "hash") then forward
      else
        match mysql_schema (schema t) b with
        | None => (b, Err (PlanError "No such schema"))
        | Some tables =>
            match tables !! table t with
            | None => (b, Err (PlanError "No such table"))
            | Some tbl =>
                (let! columns := step_lift (extract_column_names ci) in
                 let index_name := default (table t +:+ "_" +:+ having +:+ "_" +:+ Sinks.join "-" columns) (cx_name ci) in
                 let! variant := step_lift (parse_from_sql cast_scalar index_name columns (tbl_schema tbl) having) in
                 let! tbl :=
                   (if config_requires_rowid variant && negb (bool_decide (is_Some (row_id_column (tbl_meta tbl)))) then
                      let! plan := step_lift (create_rowid_column tbl) in
                      match plan with
                      | None => step_err (PlanError "inconsistent state for row_id column: does not exist, yet cannot create")
                      | Some plan =>
                          let! _ := execute_rowid plan in
                          (fun b => match mysql_table (schema t) (table t) b with
                                    | Some tbl => (b, Ok tbl)
                                    | None => (b, Err (PlanError "No such table")) end)
                      end
                    else step_ret tbl) in
                 let index := build_index variant (tbl_reference tbl) (row_id_column (tbl_meta tbl)) in
                 let! plan := step_lift (columnar_plan tbl variant index) in
                 match plan with
                 | Some plan => step_ret (execute_columnar_index plan)
                 | None =>
                     let! base := step_lift (create_base_index (tbl_reference tbl) index) in
                     step_ret (execute_inverted_index base (tbl_reference tbl) index)
                 end) b
            end
        end
  end.

(** The statement, planned and then executed. *)
Definition create_index (forward_text : TableRef -> CreateIndex -> string)
    (str_lowercase : string -> string) (cast_scalar : ScalarValue -> DataType -> result ScalarValue)
    (create_base_index : TableRef -> I -> result (Connection -> Connection * result unit)) (default_schema : string) (ci : CreateIndex) :
    step unit :=
  let! run := plan_create_index forward_text str_lowercase cast_scalar create_base_index default_schema ci in run.
End IndexCreation.
