(* ===== verification/DdlTheorems.v ===== *)
(** * Data definition keeps the metadata of encryption

    The invariant of Ddl.v and IndexCreation.v: whatever statements are executed, and
    wherever they fail, the file of a database holds the encryption metadata of each of
    its tables, so that a proxy that is started again decrypts and indexes what it did
    before. Then what the creation of an index sends to the server. *)
From S2P Require Import Prelude Values Sql Text Crypto ArrowCodec ColumnCrypto SqlSchema PhysicalExprs RowId TableMeta WritePath Logical RangeIndex BlindIndex InvertedIndex Transactions Sinks SinkTheorems Ddl IndexCreation.
From stdpp Require Import relations.

(** Reading a file gives what was written. *)
Class TomlLaws (C F : Type) `{!Toml C F} : Prop :=
  toml_roundtrip m : exists s, toml_to_string m = Ok s /\ toml_from_str s = Some m.

Section Kept.
Context `{Unicode} `{SqlDisplay} `{!SqlParsing} {I C : Type} `{!IndexOps I C} `{!IndexLaws I C} {F : Type} `{!Toml C F} `{!TomlLaws C F}.
Abbreviation Backend := (Backend I F).

Definition file_meta (files : gmap string F) (db : string) : option (SchemaMeta C) :=
  match files !! db with None => Some ∅ | Some s => toml_from_str s end.

(** The indices of a table were built for it, with its identifiers of rows. *)
Record table_ok (cat db n : string) (t : Table I) : Prop := {
  ok_reference : tbl_reference t = {| catalog := cat; schema := db; table := n |};
  ok_indices : forall i, i ∈ tm_indices (tbl_meta t) -> exists c,
    i = build_index c (tbl_reference t) (row_id_column (tbl_meta t)) /\
    (config_requires_rowid c = true -> is_Some (row_id_column (tbl_meta t)))
}.

(** The same encrypted columns, indices and identifiers of rows; rows are bound in the
    catalog only where the file says so. *)
Record same_encryption (m file : TableMeta I) : Prop := {
  same_columns : encrypted_columns m = encrypted_columns file;
  same_indices : tm_indices m = tm_indices file;
  same_row_id : row_id_column m = row_id_column file;
  same_binding : row_binding_aad m = true -> row_binding_aad file = true
}.

Definition kept_table (files : gmap string F) (db n : string) (t : Table I) : Prop :=
  exists m, file_meta files db = Some m /\
    same_encryption (tbl_meta t) (default table_meta_new (table_meta_deserialize (tbl_reference t) <$> m !! n)).

Definition entry_ok (v : SerializableEncryptedTableMeta C) : Prop :=
  forall c, c ∈ ser_indices v -> config_requires_rowid c = true -> is_Some (ser_row_id_column v).

(** The files can be read, and agree with the catalog. *)
Record kept (cat : string) (b : Backend) : Prop := {
  kept_files : forall db, exists m, file_meta (bk_files b) db = Some m /\ map_Forall (fun _ v => entry_ok v) m;
  kept_tables : forall db n t, mysql_table db n b = Some t -> table_ok cat db n t /\ kept_table (bk_files b) db n t
}.

Lemma table_entry_ok cat db n t : table_ok cat db n t -> entry_ok (table_meta_to_serializable (tbl_meta t)).
Proof.
  intros [_ Hi] c (i & -> & Hin)%list_elem_of_fmap. cbn. destruct (Hi i Hin) as (c' & -> & Hreq). by rewrite to_config_build.
Qed.

Lemma deserialize_serialize cat db n t : table_ok cat db n t ->
  table_meta_deserialize (tbl_reference t) (table_meta_to_serializable (tbl_meta t)) = tbl_meta t.
Proof.
  intros [_ Hi]. destruct t as [r d s [cols ixs row aad] pk def]. unfold table_meta_deserialize, table_meta_to_serializable.
  cbn in *. f_equal. induction ixs as [|i ixs IH]; [done|]. cbn.
  destruct (Hi i) as (c & -> & _); [left|]. rewrite to_config_build. f_equal. apply IH. intros j Hj. apply Hi. by right.
Qed.

(** ** The catalog *)

Lemma mysql_table_set db n db' n' o (b : Backend) :
  mysql_table db n (set_table db' n' o b) =
  if bool_decide (db = db') then
    if bool_decide (n = n') then match mysql_schema db' b with Some _ => o | None => None end else mysql_table db n b
  else mysql_table db n b.
Proof.
  unfold mysql_table, mysql_schema, set_table. cbn. case_bool_decide as Hdb; subst.
  - rewrite lookup_alter. rewrite decide_True by done. destruct (bk_catalog b !! db') as [tables|]; cbn; [|by case_bool_decide].
    rewrite lookup_partial_alter. case_bool_decide as Hn; [by rewrite decide_True|by rewrite decide_False].
  - rewrite lookup_alter. by rewrite decide_False.
Qed.

Lemma mysql_table_schema db n (b : Backend) t : mysql_table db n b = Some t -> is_Some (mysql_schema db b).
Proof. unfold mysql_table. destruct (mysql_schema db b); [by eexists|done]. Qed.

(** ** The files *)

Definition set_file (db : string) (s : F) (b : Backend) : Backend :=
  {| bk_catalog := bk_catalog b; bk_files := <[db := s]> (bk_files b); bk_conn := bk_conn b |}.

Lemma update_metadata_effect db f (b : Backend) m : file_meta (bk_files b) db = Some m ->
  exists s, (forall b', bk_files b' = bk_files b -> update_metadata db f b' = (set_file db s b', Ok tt)) /\ toml_from_str s = Some (f m).
Proof.
  intros Hm. destruct (toml_roundtrip (f m)) as (s & Hs & Hr). exists s. split; [|done]. intros b' Hf.
  unfold update_metadata, step_bind, read_metadata, write_metadata. unfold file_meta in Hm. rewrite Hf.
  destruct (bk_files b !! db) as [data|]; [rewrite Hm|simplify_eq]; rewrite Hs; unfold set_file; by rewrite Hf.
Qed.

Lemma file_meta_set db db' s (b : Backend) :
  file_meta (bk_files (set_file db' s b)) db = if bool_decide (db = db') then toml_from_str s else file_meta (bk_files b) db.
Proof.
  unfold file_meta, set_file. cbn. rewrite lookup_insert. case_bool_decide; [by rewrite decide_True|by rewrite decide_False].
Qed.

(** A state that differs in the connection only. *)
Lemma kept_conn cat b b' : bk_catalog b' = bk_catalog b -> bk_files b' = bk_files b -> kept cat b -> kept cat b'.
Proof.
  intros Hc Hf [Hok Ht]. split; [by rewrite Hf|]. unfold mysql_table, mysql_schema. rewrite Hc, Hf. exact Ht.
Qed.

(** One table changes, and its entry in the file with it. *)
Lemma kept_update cat b db n o f m :
  kept cat b -> file_meta (bk_files b) db = Some m -> (forall n', n' <> n -> f m !! n' = m !! n') ->
  match o with
  | Some t => table_ok cat db n t /\ f m !! n = Some (table_meta_to_serializable (tbl_meta t))
  | None => f m !! n = None
  end ->
  forall s, toml_from_str s = Some (f m) -> kept cat (set_file db s (set_table db n o b)).
Proof.
  intros [Hok Ht] Hm Hother Ho s Hs. split.
  - intros db'. rewrite file_meta_set. case_bool_decide; [|apply Hok]. eexists. split; [done|].
    destruct (Hok db) as (m' & Hm' & Hall). rewrite Hm in Hm'. injection Hm' as <-. intros n' v Hv.
    destruct (decide (n' = n)) as [->|Hn]; [|rewrite Hother in Hv by done; by apply (Hall n')].
    destruct o as [t|]; [|by rewrite Hv in Ho]. destruct Ho as [Hto Hf]. rewrite Hf in Hv. injection Hv as <-. by eapply table_entry_ok.
  - intros db' n' t'. change (mysql_table db' n' (set_file db s (set_table db n o b))) with (mysql_table db' n' (set_table db n o b)).
    rewrite mysql_table_set. unfold kept_table. rewrite file_meta_set. case_bool_decide as Hdb; [subst db'|apply Ht].
    case_bool_decide as Hn; [subst n'|].
    + destruct (mysql_schema db b); [|done]. intros ->. destruct Ho as [Hto Hf]. split; [done|]. eexists. split; [done|].
      rewrite Hf. cbn. by erewrite deserialize_serialize.
    + intros Htb. destruct (Ht _ _ _ Htb) as (Hto & m' & Hm' & Hd). split; [done|]. rewrite Hm in Hm'. injection Hm' as <-.
      exists (f m). split; [done|]. by rewrite Hother.
Qed.

(** A table is saved after, or before, it is set in the catalog. *)
Definition save (t : TableRef) (tbl : Table I) (m : SchemaMeta C) : SchemaMeta C :=
  <[table t := table_meta_to_serializable (tbl_meta tbl)]> m.

Lemma kept_save cat b t tbl : kept cat b -> table_ok cat (schema t) (table t) tbl ->
  exists s, (forall b', bk_files b' = bk_files b -> update_metadata (schema t) (save t tbl) b' = (set_file (schema t) s b', Ok tt)) /\
    kept cat (set_file (schema t) s (set_table (schema t) (table t) (Some tbl) b)).
Proof.
  intros Hb Hok. destruct (kept_files _ _ Hb (schema t)) as (m & Hfm & _).
  destruct (update_metadata_effect (schema t) (save t tbl) b m Hfm) as (s & Hu & Hs). exists s. split; [done|].
  apply (kept_update cat b (schema t) (table t) (Some tbl) (save t tbl) m Hb Hfm); [| |exact Hs]; unfold save.
  - intros n' Hn. by rewrite lookup_insert_ne.
  - by rewrite lookup_insert_eq.
Qed.

(** Taking a table that is not there. *)
Lemma kept_unset cat b db n : kept cat b -> mysql_table db n b = None -> kept cat (set_table db n None b).
Proof.
  intros Hb Hn. destruct Hb as [Hf Ht]. split; [done|]. intros db' n' t'. rewrite mysql_table_set.
  repeat case_bool_decide; subst; try apply Ht. by destruct (mysql_schema db b).
Qed.

(** ** The steps *)

(** A step that fails or succeeds keeps the invariant. *)
Definition step_keeps {A} (cat : string) (m : Step Backend A) : Prop := forall b, kept cat b -> kept cat (m b).1.

(** A step that only changes the connection. *)
Definition only_conn {A} (m : Step Backend A) : Prop :=
  forall b, bk_catalog (m b).1 = bk_catalog b /\ bk_files (m b).1 = bk_files b.

Lemma only_conn_keeps {A} cat (m : Step Backend A) : only_conn m -> step_keeps cat m.
Proof. intros Hm b. destruct (Hm b) as [Hc Hf]. by apply kept_conn. Qed.

Lemma keeps_bind {A B} cat (m : Step Backend A) (k : A -> Step Backend B) :
  step_keeps cat m -> (forall a, step_keeps cat (k a)) -> step_keeps cat (let! a := m in k a).
Proof.
  intros Hm Hk b Hb. unfold step_bind. specialize (Hm b Hb). destruct (m b) as [b' [a|e]]; [|done]. by apply Hk.
Qed.

Lemma keeps_after {A B} cat (m : Step Backend A) (k : A -> Step Backend B) b :
  only_conn m -> kept cat b ->
  (forall a b', (m b) = (b', Ok a) -> kept cat b' -> bk_catalog b' = bk_catalog b -> bk_files b' = bk_files b -> kept cat (k a b').1) ->
  kept cat ((let! a := m in k a) b).1.
Proof.
  intros Hm Hb Hk. destruct (Hm b) as [Hc Hf]. pose proof (kept_conn cat b _ Hc Hf Hb) as Hb'. unfold step_bind.
  destruct (m b) as [b' [a|e]] eqn:Hmb; [|done]. by apply Hk.
Qed.

Lemma lift_only_conn {A} (r : result A) : only_conn (step_lift r).
Proof. by intros b. Qed.

Lemma send_statement_only_conn accepts text : only_conn (send_statement (I := I) (F := F) accepts text).
Proof. intros b. unfold send_statement. by destruct (accepts _ _). Qed.

Lemma build_columns_indices columns pk config (m : TableMeta I) r :
  build_columns columns pk config m = Ok r -> tm_indices r.2 = tm_indices m.
Proof.
  revert m r. induction columns as [|c columns IH]; intros m r Hr; cbn in Hr; [by inv_ok|].
  destruct (try_from_column c pk config) as [[meta c']|]; [|done]. cbn in Hr.
  destruct (build_columns columns pk config _) as [[cols m']|] eqn:Hb; [|done]. cbn in Hr. inv_ok.
  apply IH in Hb. cbn in Hb |- *. rewrite Hb. by destruct meta.
Qed.

Lemma build_from_statement_indices ct pk config ct' (m : TableMeta I) :
  build_from_statement ct pk config = Ok (ct', m) -> tm_indices m = [].
Proof.
  unfold build_from_statement. intros Hb. apply result_bind_ok in Hb as ([cols m'] & Hc & Hb).
  apply build_columns_indices in Hc. cbn in Hc. destruct (has_encrypted_column m'); inv_ok; done.
Qed.

(** The table that is built has the metadata it is given; only the binding of rows may
    be dropped. *)
Lemma from_columns_meta r cols pk m (t : Table I) : from_columns r cols pk m = Ok t ->
  let m := default table_meta_new m in
  tbl_reference t = r /\ encrypted_columns (tbl_meta t) = encrypted_columns m /\ tm_indices (tbl_meta t) = tm_indices m /\
  row_id_column (tbl_meta t) = row_id_column m /\ (row_binding_aad (tbl_meta t) = true -> row_binding_aad m = true).
Proof.
  unfold from_columns. intros Ht. apply result_bind_ok in Ht as (fs & _ & Ht). apply result_bind_ok in Ht as (ds & _ & Ht).
  injection Ht as <-. cbn [tbl_reference tbl_meta]. destruct (row_binding_aad _ && _) eqn:Ha; [|by split_and!].
  by apply andb_true_iff in Ha as [Ha _].
Qed.

Section Operations.
Variable print_statement : DdlStatement -> string.
Variable accepts : list (Stmt (W := WriteStmt)) -> Stmt (W := WriteStmt) -> bool.
Variable config : BackendConfig.
Variable cat : string.

Lemma create_table_keeps t ct if_not_exists : catalog t = cat ->
  step_keeps cat (create_table (I := I) print_statement accepts config t ct if_not_exists).
Proof.
  intros Hcat b Hb. unfold create_table. apply keeps_after; [apply lift_only_conn|done|]. intros pk b1 _ Hb1 _ _.
  apply keeps_after; [apply lift_only_conn|done|]. intros [ct' meta] b2 [= <- Hm] Hb2 _ _.
  apply keeps_after; [apply lift_only_conn|done|]. intros tbl b3 [= <- Htbl] Hb3 _ _.
  unfold ddl_plan. apply keeps_after; [apply send_statement_only_conn|done|]. intros _ b4 _ Hb4 _ _.
  destruct (mysql_schema (schema t) b4) as [tables|]; [|done]. unfold step_bind, register_mysql_table.
  destruct (mysql_table (schema t) (table t) b4); [done|].
  destruct (kept_save cat b4 t tbl Hb4) as (s & Hu & Hk); [|by rewrite Hu].
  apply from_columns_meta in Htbl as (Hr & _ & Hi & _). split.
  - rewrite Hr. destruct t. cbn in *. by subst.
  - rewrite Hi. cbn. rewrite (build_from_statement_indices _ _ _ _ _ Hm). intros i Hin. by apply not_elem_of_nil in Hin.
Qed.

Lemma drop_table_keeps t if_exists : step_keeps cat (drop_table (I := I) print_statement accepts t if_exists).
Proof.
  intros b Hb. unfold drop_table, ddl_plan. apply keeps_after; [apply send_statement_only_conn|done|]. intros _ b1 _ Hb1 _ _.
  destruct (mysql_schema (schema t) b1) as [tables|]; [|by destruct if_exists]. unfold step_bind, take_mysql_table.
  destruct (kept_files _ _ Hb1 (schema t)) as (m & Hfm & _).
  destruct (update_metadata_effect (schema t) (fun m => delete (table t) m) b1 m Hfm) as (s & Hu & Hs). rewrite Hu by done.
  assert (kept cat (set_file (schema t) s (set_table (schema t) (table t) None b1))) as Hk.
  { apply (kept_update cat b1 (schema t) (table t) None (fun m => delete (table t) m) m Hb1 Hfm); [| |exact Hs].
    - intros n' Hn. by rewrite lookup_delete_ne.
    - by rewrite lookup_delete_eq. }
  destruct (mysql_table (schema t) (table t) b1); [done|]. by destruct if_exists.
Qed.

Lemma create_database_keeps if_not_exists db : step_keeps cat (create_database (I := I) print_statement accepts if_not_exists db).
Proof.
  intros b Hb. unfold create_database, ddl_plan. apply keeps_after; [apply send_statement_only_conn|done|]. intros _ b1 _ Hb1 _ _.
  destruct (mysql_schema db b1) as [tables|] eqn:Hdb; [by destruct if_not_exists|]. destruct Hb1 as [Hok Ht]. split; [done|].
  intros db' n t Hl. apply Ht. unfold mysql_table, mysql_schema in *. cbn in Hl. rewrite lookup_insert in Hl.
  destruct (decide (db = db')) as [->|]; [by rewrite lookup_empty in Hl|done].
Qed.

Lemma drop_database_keeps if_exists db : step_keeps cat (drop_database (I := I) print_statement accepts if_exists db).
Proof.
  intros b Hb. unfold drop_database, ddl_plan. apply keeps_after; [apply send_statement_only_conn|done|]. intros _ b1 _ Hb1 _ _.
  destruct (mysql_schema db b1) as [tables|] eqn:Hdb; [|by destruct if_exists]. destruct Hb1 as [Hok Ht]. split; [done|].
  intros db' n t Hl. apply Ht. unfold mysql_table, mysql_schema in *. cbn in Hl. rewrite lookup_delete in Hl.
  by destruct (decide (db = db')).
Qed.

(** Taking a table out, changing it and putting it back. *)
Lemma put_back_keeps b t tbl tbl' e1 e2 :
  kept cat b -> mysql_table (schema t) (table t) b = Some tbl -> table_ok cat (schema t) (table t) tbl' ->
  kept cat ((let! _ := (fun b => match register_mysql_table (schema t) (table t) tbl' b with
                                 | (b, r) => (b, expect_ok r e1) end) in
             fun b => match save_metadata_for_table t tbl' b with (b, r) => (b, expect_ok r e2) end)
            (set_table (schema t) (table t) None b)).1.
Proof.
  intros Hb Htb Hok. destruct (mysql_table_schema _ _ _ _ Htb) as [tables Hs]. unfold step_bind, register_mysql_table.
  rewrite mysql_table_set, !bool_decide_true, Hs by done. cbn [expect_ok].
  destruct (kept_save cat b t tbl' Hb Hok) as (s & Hu & Hk). unfold save_metadata_for_table.
  change (fun m : SchemaMeta C => <[table t := table_meta_to_serializable (tbl_meta tbl')]> m) with (save t tbl').
  rewrite Hu by done. cbn [expect_ok fst]. replace (set_table (schema t) (table t) (Some tbl') (set_table (schema t) (table t) None b))
    with (set_table (schema t) (table t) (Some tbl') b); [exact Hk|].
  unfold set_table, with_catalog. cbn. f_equal. apply map_eq. intros db. rewrite !lookup_alter.
  repeat case_decide; try done. destruct (bk_catalog b !! _); [cbn|done]. f_equal. apply map_eq. intros n. rewrite !lookup_partial_alter. by case_decide.
Qed.

(** *** ALTER TABLE *)

Lemma extra_op_ok db n op t : table_ok cat db n t -> table_ok cat db n (execute_extra_op op t).
Proof. intros [Hr Hi]. by destruct op as [c|f [m|] d]; split. Qed.

Lemma extra_ops_ok db n ops t : table_ok cat db n t -> table_ok cat db n (foldl (fun t op => execute_extra_op op t) t ops).
Proof. revert t. induction ops as [|op ops IH]; intros t Ht; [done|]. apply IH. by apply extra_op_ok. Qed.

Lemma alter_table_keeps t if_exists ops : step_keeps cat (alter_table (I := I) print_statement accepts config t if_exists ops).
Proof.
  intros b Hb. unfold alter_table. destruct (mysql_schema (schema t) b) as [tables|]; [|done].
  destruct (tables !! table t) as [existing|]; [|done]. destruct (negb _); [done|].
  case_bool_decide; [by apply only_conn_keeps; [apply send_statement_only_conn|]|].
  apply keeps_after; [apply lift_only_conn|done|]. intros [extra intercepted] b1 _ Hb1 _ _.
  apply keeps_after; [apply send_statement_only_conn|done|]. intros _ b2 _ Hb2 _ _.
  unfold alter_table_extra. unfold take_mysql_table at 1. unfold step_bind at 1.
  destruct (mysql_table (schema t) (table t) b2) as [tbl|] eqn:Htb.
  - eapply put_back_keeps; [done|exact Htb|]. apply extra_ops_ok. by apply (kept_tables _ _ Hb2).
  - apply kept_unset; [done|]. exact Htb.
Qed.
End Operations.


(** ** A restart *)

Section Restart.
Variable str_lowercase : string -> string.
Variable cat : string.
Variable dbs : list string.

Definition meta_in (metas : gmap string (gmap string (TableMeta I))) (db n : string) : option (TableMeta I) :=
  match metas !! db with Some m => m !! n | None => None end.

Definition table_of (schemas : gmap string (gmap string (Table I))) (db n : string) : option (Table I) :=
  match schemas !! db with Some tables => tables !! n | None => None end.

(** The tables of the catalog are those of listed databases and have the metadata that
    was read. *)
Definition introspected (metas : gmap string (gmap string (TableMeta I))) (schemas : gmap string (gmap string (Table I))) : Prop :=
  forall db n t, table_of schemas db n = Some t -> db ∈ dbs /\
    tbl_reference t = {| catalog := cat; schema := db; table := n |} /\
    same_encryption (tbl_meta t) (default table_meta_new (meta_in metas db n)).

Definition builder_ok (metas : gmap string (gmap string (TableMeta I))) (b : TableBuilder I) : Prop :=
  catalog (tb_reference b) = cat /\ tb_encryption_metadata b = meta_in metas (schema (tb_reference b)) (table (tb_reference b)).

Lemma insert_table_introspected metas b schemas schemas' :
  builder_ok metas b -> schema (tb_reference b) ∈ dbs -> introspected metas schemas -> insert_table b schemas = Ok schemas' -> introspected metas schemas'.
Proof.
  intros [Hcat Hmeta] Hin Hs Hi. unfold insert_table in Hi. apply result_bind_ok in Hi as (t & Ht & Hi).
  unfold tb_build in Ht. apply result_bind_ok in Ht as (pk & _ & Ht). apply from_columns_meta in Ht as (Hr & Hc & Hix & Hrow & Hb).
  destruct (default ∅ _ !! _) eqn:Hnew in Hi; [done|]. inv_ok. intros db n t'. unfold table_of. rewrite lookup_insert.
  destruct (decide (schema (tb_reference b) = db)) as [<-|Hdb]; [|apply Hs]. rewrite lookup_insert.
  destruct (decide (table (tb_reference b) = n)) as [<-|Hn].
  - intros [= <-]. split; [done|]. split; [rewrite Hr; destruct (tb_reference b); cbn in *; by subst|]. rewrite <- Hmeta. by split.
  - intros Ht'. apply Hs. unfold table_of. by destruct (schemas !! schema (tb_reference b)).
Qed.

Lemma introspect_columns_introspected norm metas b schemas results schemas' :
  Forall (fun c => d_table_schema c ∈ dbs) results ->
  builder_ok metas b -> tb_is_empty b = true \/ schema (tb_reference b) ∈ dbs -> introspected metas schemas ->
  introspect_columns str_lowercase cat norm metas b schemas results = Ok schemas' -> introspected metas schemas'.
Proof.
  revert b schemas. induction results as [|c results IH]; intros b schemas Hl Hb He Hs Hi; cbn in Hi.
  - destruct (tb_is_empty b); [by inv_ok|]. destruct He as [?|He]; [done|]. by eapply insert_table_introspected.
  - apply Forall_cons in Hl as [Hc Hl]. assert (d_table_schema (normalize str_lowercase norm c) ∈ dbs) as Hc' by by destruct norm.
    apply result_bind_ok in Hi as ([b1 schemas1] & Hsame & Hi). apply result_bind_ok in Hi as (b2 & Hadd & Hi).
    assert (builder_ok metas b1 /\ schema (tb_reference b1) ∈ dbs /\ introspected metas schemas1) as (Hb1 & Hin & Hs1).
    { destruct (is_same_table _ _) eqn:Hst.
      - inv_ok. split_and!; [done| |done]. apply andb_true_iff in Hst as [_ Hst]. apply bool_decide_eq_true in Hst. by rewrite Hst.
      - apply result_bind_ok in Hsame as (schemas2 & Hins & Hsame). inv_ok. split_and!; [done|done|].
        destruct (tb_is_empty b); [by inv_ok|]. destruct He as [?|He]; [done|]. by eapply insert_table_introspected. }
    unfold tb_add_column in Hadd. apply result_bind_ok in Hadd as (col & _ & Hadd). inv_ok. eapply IH; [exact Hl| | | |exact Hi]; [done|by right|done].
Qed.

Lemma read_metas_meta_of files l metas db n : read_metas files cat l = Ok metas ->
  meta_in metas db n =
  if bool_decide (db ∈ l) then
    match file_meta files db with
    | Some m => table_meta_deserialize {| catalog := cat; schema := db; table := n |} <$> m !! n
    | None => None
    end
  else None.
Proof.
  revert metas. induction l as [|db' l IH]; intros metas Hr; cbn in Hr; [by inv_ok|].
  apply result_bind_ok in Hr as (m & Hm & Hr). apply result_bind_ok in Hr as (metas' & Hmetas & Hr). inv_ok.
  unfold meta_in. rewrite lookup_insert. destruct (decide (db' = db)) as [->|Hdb].
  - rewrite bool_decide_true by left. unfold read_schema_meta in Hm. unfold file_meta.
    destruct (files !! db) as [data|]; [|inv_ok; by rewrite !lookup_empty]. destruct (toml_from_str data); [|done]. inv_ok.
    unfold schema_meta_deserialize. rewrite map_lookup_imap. by destruct (_ !! n).
  - specialize (IH _ Hmetas). unfold meta_in in IH. rewrite IH. repeat case_bool_decide; try done; set_solver.
Qed.

(** What the server lists: columns of the databases it lists. *)
Definition listed (results : list MySqlColumnDescription) : Prop :=
  ~ ("" ∈ dbs) /\ Forall (fun c => d_table_schema c ∈ dbs) results.

Lemma introspect_introspected norm files results schemas : listed results ->
  introspect str_lowercase cat norm files dbs results = Ok schemas ->
  exists metas, read_metas files cat dbs = Ok metas /\ introspected metas schemas.
Proof.
  intros [Hne Hl] Hi. unfold introspect in Hi. apply result_bind_ok in Hi as (metas & Hmetas & Hi). exists metas. split; [done|].
  eapply introspect_columns_introspected; [exact Hl|..|exact Hi].
  - split; [done|]. cbn. rewrite (read_metas_meta_of _ _ _ _ _ Hmetas). by rewrite bool_decide_false.
  - by left.
  - intros db n t. unfold table_of. destruct (list_to_map _ !! db) as [tables|] eqn:Hdb; [|done].
    apply elem_of_list_to_map_2, list_elem_of_fmap in Hdb as (db' & Heq & _). injection Heq as _ ->. by rewrite lookup_empty.
Qed.

(** The catalog that is built when the proxy starts agrees with the files. *)
Lemma introspect_kept norm (b : Backend) results schemas conn : listed results -> kept cat b ->
  introspect str_lowercase cat norm (bk_files b) dbs results = Ok schemas ->
  kept cat {| bk_catalog := schemas; bk_files := bk_files b; bk_conn := conn |}.
Proof.
  intros Hl [Hf _] Hi. destruct (introspect_introspected _ _ _ _ Hl Hi) as (metas & Hmetas & Hs). split; [done|].
  intros db n t Ht. destruct (Hs db n t Ht) as (Hin & Hr & Hsame). rewrite (read_metas_meta_of _ _ _ _ _ Hmetas) in Hsame.
  rewrite bool_decide_true in Hsame by done. destruct (Hf db) as (m & Hm & Hall). rewrite Hm in Hsame. rewrite <- Hr in Hsame. split.
  - split; [done|]. destruct Hsame as [_ Hix Hrow _]. rewrite Hix, Hrow. intros i Hi'.
    destruct (m !! n) as [v|] eqn:Hv; cbn in *; [|by apply not_elem_of_nil in Hi'].
    apply list_elem_of_fmap in Hi' as (c & -> & Hc). exists c. split; [done|]. by apply (Hall n v Hv).
  - by exists m.
Qed.
End Restart.
End Kept.

(** ** Creating an index *)

Section CreateIndexKeeps.
Context {X S : Type}.
Context `{Unicode} `{SqlDisplay} `{!SqlParsing} {I : Type} `{!IndexOps I IndexConfiguration} `{!IndexLaws I IndexConfiguration} {F : Type} `{!Toml IndexConfiguration F} `{!TomlLaws IndexConfiguration F}.
Variable write_index : I -> WriteIndex (X := X) (S := S).
Variable index_type : X -> list Field -> result DataType.
Variable index_nullable : X -> list Field -> result bool.
Variable eval : nat -> PhysExpr (X := X) -> RecordBatch -> result PVal.
Variable decimal_from_i128_with_scale : Z -> Z -> result bytes.
Variable from_timestamp_nanos : Z -> MyValue.
Variable prepares : string -> bool.
Variable accepts : list (Stmt (W := WriteStmt)) -> Stmt (W := WriteStmt) -> bool.
Variable server_last_insert_id : list (Stmt (W := WriteStmt)) -> option Z.
Variable scan_rows : TableRef -> list Field -> result (list RecordBatch).
Variable column_text : ColumnDef -> string.
Variable cat : string.
Abbreviation Backend := (Backend I F).
Abbreviation run_fill_plan := (run_fill_plan eval decimal_from_i128_with_scale from_timestamp_nanos prepares accepts server_last_insert_id scan_rows).

Lemma record_index_keeps t c tbl (b : Backend) :
  kept (C := IndexConfiguration) cat b -> mysql_table (schema t) (table t) b = Some tbl ->
  (config_requires_rowid c = true -> is_Some (row_id_column (tbl_meta tbl))) ->
  kept cat (record_index t (build_index c (tbl_reference tbl) (row_id_column (tbl_meta tbl))) b).1.
Proof.
  intros Hb Htb Hreq. unfold record_index. rewrite Htb. set (tbl' := Build_Table _ _ _ _ _ _ _ _).
  destruct (kept_save cat b t tbl' Hb) as (s & Hu & Hk).
  - destruct (proj1 (kept_tables _ _ Hb _ _ _ Htb)) as [Hr Hi]. split; [done|]. cbn. intros i Hin.
    apply elem_of_app in Hin as [Hin| ->%list_elem_of_singleton]; [by apply Hi|]. by exists c.
  - unfold step_bind. change (fun m : SchemaMeta IndexConfiguration => _) with (save t tbl'). by rewrite Hu.
Qed.

Lemma run_fill_plan_only_conn t p : only_conn (I := I) (F := F) (run_fill_plan t p).
Proof. intros b. unfold IndexCreation.run_fill_plan. by destruct (sink_exec _ _ _ _). Qed.

(** The index that is recorded was built for the table of the catalog. *)
Definition built_for (t : TableRef) (index : I) (b : Backend) : Prop :=
  match mysql_table (schema t) (table t) b with
  | Some tbl => exists c, index = build_index c (tbl_reference tbl) (row_id_column (tbl_meta tbl)) /\
                 (config_requires_rowid c = true -> is_Some (row_id_column (tbl_meta tbl)))
  | None => True
  end.

Lemma built_for_conn t index b b' : bk_catalog b' = bk_catalog b -> built_for t index b -> built_for t index b'.
Proof. unfold built_for, mysql_table, mysql_schema. by intros ->. Qed.

Lemma record_built_keeps t index b : kept cat b -> built_for t index b -> kept cat (record_index t index b).1.
Proof.
  intros Hb. unfold built_for. destruct (mysql_table _ _ _) as [tbl|] eqn:Htb.
  - intros (c & -> & Hreq). by apply record_index_keeps.
  - unfold record_index. by rewrite Htb.
Qed.

Lemma execute_columnar_keeps p b : kept cat b -> built_for (ci_table p) (ci_config p) b ->
  kept cat (execute_columnar_index eval decimal_from_i128_with_scale from_timestamp_nanos prepares accepts server_last_insert_id scan_rows p b).1.
Proof.
  intros Hb Hbf. unfold execute_columnar_index.
  do 5 (apply keeps_after; [first [apply send_statement_only_conn | apply run_fill_plan_only_conn]|done|];
        clear Hb; intros _ b' _ Hb Hc _; apply (built_for_conn _ _ _ _ Hc) in Hbf; clear Hc; clear b; rename b' into b).
  by apply record_built_keeps.
Qed.

Lemma execute_inverted_keeps base t index b : kept cat b -> built_for t index b -> kept cat (execute_inverted_index base t index b).1.
Proof.
  intros Hb Hbf. unfold execute_inverted_index. apply keeps_after; [|done|].
  - intros b1. by destruct (base (bk_conn b1)).
  - intros _ b1 _ Hb1 Hc _. apply record_built_keeps; [done|]. by eapply built_for_conn.
Qed.

(** The row identifiers are recorded for a table that had none. *)
Lemma record_row_id_keeps t r b : kept cat b ->
  (forall tbl, mysql_table (schema t) (table t) b = Some tbl -> row_id_column (tbl_meta tbl) = None) ->
  kept cat (record_row_id t r b).1.
Proof.
  intros Hb Hn. unfold record_row_id. destruct (mysql_schema (schema t) b) as [tables|]; [|done].
  unfold take_mysql_table at 1. unfold step_bind at 1. destruct (mysql_table (schema t) (table t) b) as [tbl|] eqn:Htb.
  - eapply put_back_keeps; [done|exact Htb|]. destruct (proj1 (kept_tables _ _ Hb _ _ _ Htb)) as [Hr Hi]. split; [done|]. cbn.
    intros i Hin. destruct (Hi i Hin) as (c & -> & Hreq). exists c. split; [|by eexists].
    apply build_without_rowid. destruct (config_requires_rowid c); [|done]. destruct Hreq as [? Hx]; [done|].
    by rewrite (Hn tbl) in Hx.
  - by apply kept_unset.
Qed.

Lemma record_row_id_done t r b b' u tbl : kept cat b -> record_row_id t r b = (b', Ok u) ->
  mysql_table (schema t) (table t) b' = Some tbl -> row_id_column (tbl_meta tbl) = Some r.
Proof.
  intros Hb. unfold record_row_id. destruct (mysql_schema (schema t) b) as [tables|] eqn:Hs; [|done].
  unfold take_mysql_table at 1. unfold step_bind at 1. destruct (mysql_table (schema t) (table t) b) as [old|] eqn:Htb; [|done].
  set (new := Build_Table _ _ _ _ _ _ _ _). unfold register_mysql_table, step_bind.
  rewrite mysql_table_set, !bool_decide_true, Hs by done. cbn [expect_ok].
  destruct (kept_files _ _ Hb (schema t)) as (m & Hfm & _). unfold save_metadata_for_table.
  destruct (update_metadata_effect (schema t) (save t new) b m Hfm) as (s & Hu & _).
  change (fun m : SchemaMeta IndexConfiguration => _) with (save t new). rewrite Hu by done. cbn. intros [= <-].
  change (mysql_table (schema t) (table t) (set_file (schema t) s ?x)) with (mysql_table (schema t) (table t) x).
  rewrite mysql_table_set, !bool_decide_true by done. case_match; [|done]. intros Hx. by apply (inj Some) in Hx as <-.
Qed.

Lemma execute_rowid_keeps p b : kept cat b ->
  (forall tbl, mysql_table (schema (cr_table p)) (table (cr_table p)) b = Some tbl -> row_id_column (tbl_meta tbl) = None) ->
  let out := execute_rowid eval decimal_from_i128_with_scale from_timestamp_nanos prepares accepts server_last_insert_id scan_rows
               column_text p b in
  kept cat out.1 /\
  (forall u tbl, out.2 = Ok u -> mysql_table (schema (cr_table p)) (table (cr_table p)) out.1 = Some tbl ->
     is_Some (row_id_column (tbl_meta tbl))).
Proof.
  intros Hb Hn. cbn zeta. unfold execute_rowid, step_bind.
  destruct (send_statement_only_conn (I := I) (F := F) accepts (rowid_add_statement column_text p) b) as [Hc1 Hf1].
  destruct (send_statement accepts (rowid_add_statement column_text p) b) as [b1 [u1|e1]] eqn:E1; cbn in Hc1, Hf1; pose proof (kept_conn cat b b1 Hc1 Hf1 Hb) as Hb1;
    [|done].
  destruct (run_fill_plan_only_conn (cr_table p) (fill_table_plan p) b1) as [Hc2 Hf2].
  destruct (run_fill_plan _ _ b1) as [b2 [u2|e2]] eqn:E2; cbn in Hc2, Hf2; pose proof (kept_conn cat b1 b2 Hc2 Hf2 Hb1) as Hb2; [|done].
  destruct (send_statement_only_conn (I := I) (F := F) accepts (rowid_finish_statement column_text p) b2) as [Hc3 Hf3].
  destruct (send_statement accepts (rowid_finish_statement column_text p) b2) as [b3 [u3|e3]] eqn:E3; cbn in Hc3, Hf3; pose proof (kept_conn cat b2 b3 Hc3 Hf3 Hb2) as Hb3;
    [|done].
  assert (kept cat (record_row_id (cr_table p) (cr_row_id p) b3).1) as Hb4.
  { apply record_row_id_keeps; [done|]. unfold mysql_table, mysql_schema in *. by rewrite Hc3, Hc2, Hc1. }
  destruct (record_row_id (cr_table p) (cr_row_id p) b3) as [b4 [u4|e4]] eqn:E4; [|done]. split; [done|]. intros u tbl _ Htb.
  rewrite (record_row_id_done _ _ _ _ _ _ Hb3 E4 Htb). by eexists.
Qed.

(** A planned statement: the state after the planning, and after the run. *)
Definition plan_keeps (out : Backend * result (Step Backend unit)) : Prop :=
  kept cat out.1 /\ forall run, out.2 = Ok run -> kept cat (run out.1).1.

Lemma forward_keeps forward_text t ci b : kept cat b -> plan_keeps (try_forward_create_index accepts forward_text t ci b).
Proof.
  intros Hb. unfold try_forward_create_index.
  assert (forall text, plan_keeps (b, Ok (send_statement accepts text))) as Hsend.
  { intros text. split; [done|]. intros run [= <-]. cbn. by apply only_conn_keeps; [apply send_statement_only_conn|]. }
  destruct (mysql_table _ _ _); [|apply Hsend]. destruct (existsb _ _); [by split|apply Hsend].
Qed.

Lemma columnar_plan_table tbl config index p : columnar_plan write_index index_type index_nullable tbl config index = Ok (Some p) ->
  ci_table p = tbl_reference tbl /\ ci_config p = index.
Proof.
  unfold columnar_plan. intros Hp. destruct config; [|destruct ix|done]; repeat (apply result_bind_ok in Hp as (? & _ & Hp)); by inv_ok.
Qed.

(** The plan of the index of a table that has what the index needs. *)
Lemma index_plan_keeps create_base_index t c tbl b : kept cat b -> mysql_table (schema t) (table t) b = Some tbl ->
  (config_requires_rowid c = true -> is_Some (row_id_column (tbl_meta tbl))) ->
  plan_keeps ((let! plan := step_lift (columnar_plan write_index index_type index_nullable tbl c
                                         (build_index c (tbl_reference tbl) (row_id_column (tbl_meta tbl)))) in
               match plan with
               | Some plan => step_ret (execute_columnar_index eval decimal_from_i128_with_scale from_timestamp_nanos prepares
                                          accepts server_last_insert_id scan_rows plan)
               | None =>
                   let! base := step_lift (create_base_index (tbl_reference tbl)
                                             (build_index c (tbl_reference tbl) (row_id_column (tbl_meta tbl)))) in
                   step_ret (execute_inverted_index base (tbl_reference tbl)
                               (build_index c (tbl_reference tbl) (row_id_column (tbl_meta tbl))))
               end) b).
Proof.
  intros Hb Htb Hreq. assert (built_for (tbl_reference tbl) (build_index c (tbl_reference tbl) (row_id_column (tbl_meta tbl))) b) as Hbf.
  { unfold built_for. rewrite (ok_reference _ _ _ _ (proj1 (kept_tables _ _ Hb _ _ _ Htb))). cbn. rewrite Htb.
    exists c. by rewrite (ok_reference _ _ _ _ (proj1 (kept_tables _ _ Hb _ _ _ Htb))). }
  unfold step_bind, step_lift. destruct (columnar_plan _ _ _ _ _ _) as [[p|]|e] eqn:Hp; [| |by split].
  - destruct (columnar_plan_table _ _ _ _ Hp) as [Ht Hc]. split; [done|]. intros run [= <-]. apply execute_columnar_keeps; [done|].
    by rewrite Ht, Hc.
  - destruct (create_base_index _ _); [|by split]. split; [done|]. intros run [= <-]. by apply execute_inverted_keeps.
Qed.

Lemma create_rowid_plan_table tbl p : create_rowid_column write_index index_type index_nullable tbl = Ok (Some p) ->
  cr_table p = tbl_reference tbl /\ row_id_column (tbl_meta tbl) = None.
Proof.
  unfold create_rowid_column. destruct (row_id_column (tbl_meta tbl)); [done|].
  destruct (create_for_table (tbl_primary_key_def tbl)) as [column [def|]]; [|done]. intros Hp.
  apply result_bind_ok in Hp as (fill & _ & Hp). by inv_ok.
Qed.

Lemma create_index_keeps forward_text str_lowercase cast_scalar create_base_index default_schema ci :
  step_keeps cat (create_index write_index index_type index_nullable eval decimal_from_i128_with_scale from_timestamp_nanos prepares
               accepts server_last_insert_id scan_rows column_text forward_text str_lowercase cast_scalar create_base_index
               default_schema ci).
Proof.
  intros b Hb. unfold create_index. unfold step_bind at 1.
  enough (plan_keeps (plan_create_index write_index index_type index_nullable eval decimal_from_i128_with_scale from_timestamp_nanos
    prepares accepts server_last_insert_id scan_rows column_text forward_text str_lowercase cast_scalar create_base_index
    default_schema ci b)) as [Hk Hrun].
  { destruct (plan_create_index _ _ _ _ _ _ _ _ _ _ _ _ _ _ _ _ _ b) as [b' [run|e]]; [by apply Hrun|done]. }
  unfold plan_create_index. destruct (cx_using ci) as [ux|]; [|by apply forward_keeps].
  destruct (_ || _); [by apply forward_keeps|]. set (t := resolve_index_table default_schema ci).
  destruct (mysql_schema (schema t) b) as [tables|] eqn:Hs; [|by split].
  destruct (tables !! table t) as [tbl|] eqn:Ht; [|by split].
  assert (mysql_table (schema t) (table t) b = Some tbl) as Htb by (unfold mysql_table; by rewrite Hs).
  unfold step_bind at 1, step_lift at 1. destruct (extract_column_names ci) as [columns|e]; [|by split].
  unfold step_bind at 1, step_lift at 1. destruct (parse_from_sql _ _ _ _ _) as [c|e]; [|by split].
  unfold step_bind at 1. destruct (config_requires_rowid c && _) eqn:Hneed.
  - unfold step_bind at 1, step_lift at 1.
    destruct (create_rowid_column _ _ _ tbl) as [[p|]|e] eqn:Hp; [|by split..].
    destruct (create_rowid_plan_table _ _ Hp) as [Hpt Hnone].
    assert (cr_table p = {| catalog := cat; schema := schema t; table := table t |}) as Hpr.
    { rewrite Hpt. by apply (kept_tables _ _ Hb _ _ _ Htb). }
    destruct (execute_rowid_keeps p b Hb) as [Hk Hdone].
    { rewrite Hpr. cbn [schema table]. rewrite Htb. by intros ? [= <-]. }
    rewrite Hpr in Hdone. cbn [schema table] in Hdone. unfold step_bind at 1.
    destruct (execute_rowid _ _ _ _ _ _ _ _ p b) as [b1 [u|e]]; cbn [fst snd] in Hk, Hdone; [|by split].
    destruct (mysql_table (schema t) (table t) b1) as [tbl1|] eqn:Htb1; [|by split].
    apply index_plan_keeps with (t := t); [done..|]. intros _. by apply (Hdone u tbl1).
  - unfold step_ret at 1. apply index_plan_keeps with (t := t); [done..|]. intros Hreq. rewrite Hreq in Hneed.
    apply negb_false_iff, bool_decide_eq_true in Hneed. done.
Qed.

(** ** Sequences of statements *)

Section Commands.
Variable print_statement : DdlStatement -> string.
Variable config : BackendConfig.
Variable forward_text : TableRef -> CreateIndex -> string.
Variable str_lowercase : string -> string.
Variable cast_scalar : ScalarValue -> DataType -> result ScalarValue.
Variable create_base_index : TableRef -> I -> result (Connection -> Connection * result unit).

(** The statements of data definition, and a restart of the proxy with what the server
    then lists, on a new connection. *)
Inductive Command :=
  | CmdCreateTable (db n : string) (ct : CreateTable) (if_not_exists : bool)
  | CmdDropTable (t : TableRef) (if_exists : bool)
  | CmdCreateDatabase (if_not_exists : bool) (db : string)
  | CmdDropDatabase (if_exists : bool) (db : string)
  | CmdAlterTable (t : TableRef) (if_exists : bool) (operations : list AlterTableOperation)
  | CmdCreateIndex (default_schema : string) (ci : CreateIndex)
  | CmdRestart (ident_normalization : bool) (schemas : list string) (results : list MySqlColumnDescription) (conn : Connection).

Definition execute_command (c : Command) : Step Backend unit :=
  match c with
  | CmdCreateTable db n ct if_not_exists =>
      create_table print_statement accepts config {| catalog := cat; schema := db; table := n |} ct if_not_exists
  | CmdDropTable t if_exists => drop_table print_statement accepts t if_exists
  | CmdCreateDatabase if_not_exists db => create_database print_statement accepts if_not_exists db
  | CmdDropDatabase if_exists db => drop_database print_statement accepts if_exists db
  | CmdAlterTable t if_exists operations => alter_table print_statement accepts config t if_exists operations
  | CmdCreateIndex default_schema ci =>
      create_index write_index index_type index_nullable eval decimal_from_i128_with_scale from_timestamp_nanos prepares accepts
        server_last_insert_id scan_rows column_text forward_text str_lowercase cast_scalar create_base_index default_schema ci
  | CmdRestart ident_normalization schemas results conn => fun b =>
      match introspect str_lowercase cat ident_normalization (bk_files b) schemas results with
      | Ok c => ({| bk_catalog := c; bk_files := bk_files b; bk_conn := conn |}, Ok tt)
      | Err e => (b, Err e)
      end
  end.

(** Each command is tried, whatever the result of those before. *)
Definition execute_commands (cs : list Command) (b : Backend) : Backend := foldl (fun b c => (execute_command c b).1) b cs.

Definition command_listed (c : Command) : Prop :=
  match c with CmdRestart _ schemas results _ => listed schemas results | _ => True end.

Definition fresh_backend (conn : Connection) : Backend := {| bk_catalog := ∅; bk_files := ∅; bk_conn := conn |}.

Lemma fresh_kept conn : kept cat (fresh_backend conn).
Proof. split; [|done]. intros db. exists ∅. split; [done|]. by apply map_Forall_empty. Qed.

Lemma command_keeps c : command_listed c -> step_keeps cat (execute_command c).
Proof.
  destruct c as [db n ct ine|t ie|ine db|ie db|t ie ops|ds ci|norm schemas results conn]; cbn; intros Hl.
  - by apply create_table_keeps.
  - by apply drop_table_keeps.
  - by apply create_database_keeps.
  - by apply drop_database_keeps.
  - by apply alter_table_keeps.
  - by apply create_index_keeps.
  - intros b Hb. destruct (introspect _ _ _ _ _ _) as [c|e] eqn:Hi; [|done]. by eapply introspect_kept.
Qed.

Lemma commands_keep cs b : Forall command_listed cs -> kept cat b -> kept cat (execute_commands cs b).
Proof.
  revert b. induction cs as [|c cs IH]; intros b Hl Hb; [done|]. apply Forall_cons in Hl as [Hc Hl]. cbn. apply IH; [done|].
  by apply command_keeps.
Qed.

(** C8: whatever statements of data definition were executed since the proxy was first
    started, with restarts between them and wherever they failed, the catalog that the
    next start reads from the files gives to each table the encrypted columns, the
    indices and the identifiers of rows that the running proxy uses for it. *)
Theorem restart_keeps_encryption cs conn dbs results norm schemas db n t t' :
  Forall command_listed cs -> listed dbs results ->
  let b := execute_commands cs (fresh_backend conn) in
  introspect str_lowercase cat norm (bk_files b) dbs results = Ok schemas ->
  mysql_table db n b = Some t -> table_of schemas db n = Some t' ->
  tbl_reference t' = tbl_reference t /\ encrypted_columns (tbl_meta t') = encrypted_columns (tbl_meta t) /\
  tm_indices (tbl_meta t') = tm_indices (tbl_meta t) /\ row_id_column (tbl_meta t') = row_id_column (tbl_meta t).
Proof.
  intros Hcs Hl b Hi Ht Ht'. pose proof (commands_keep cs _ Hcs (fresh_kept conn)) as Hb. fold b in Hb.
  pose proof (introspect_kept str_lowercase cat dbs norm b results schemas conn Hl Hb Hi) as Hb'.
  destruct (kept_tables _ _ Hb _ _ _ Ht) as ([Hr _] & m & Hm & [Hc Hix Hrow _]).
  destruct (kept_tables _ _ Hb' _ _ _ Ht') as ([Hr' _] & m' & Hm' & [Hc' Hix' Hrow' _]). cbn in Hm'. rewrite Hm in Hm'.
  injection Hm' as <-. rewrite Hr', Hr in *. by rewrite Hc, Hix, Hrow, Hc', Hix', Hrow'.
Qed.
End Commands.
End CreateIndexKeeps.
