(* ===== verification/IndexFill.v ===== *)
(** * What the creation of an index sends

    The statements of [create_columnar_index_plan.rs] and [create_rowid_plan.rs]: the
    whole run of a plan that the server accepts, and what is left on the server when a
    statement fails. Then concrete databases for these theorems and for those of
    DdlTheorems.v. *)
From S2P Require Import Prelude Values Sql Text Crypto ArrowCodec ColumnCrypto SqlSchema PhysicalExprs RowId TableMeta WritePath Logical RangeIndex BlindIndex InvertedIndex Transactions WriteRead Sinks SinkTheorems Ddl IndexCreation DdlTheorems.

Section Fill.
Context {X S : Type}.
Context `{Unicode} `{SqlDisplay} `{!SqlParsing} {I : Type} `{!IndexOps I IndexConfiguration} `{!IndexLaws I IndexConfiguration} {F : Type} `{!Toml IndexConfiguration F} `{!TomlLaws IndexConfiguration F}.
Variable eval : nat -> PhysExpr (X := X) -> RecordBatch -> result PVal.
Variable decimal_from_i128_with_scale : Z -> Z -> result bytes.
Variable from_timestamp_nanos : Z -> MyValue.
Variable prepares : string -> bool.
Variable accepts : list (Stmt (W := WriteStmt)) -> Stmt (W := WriteStmt) -> bool.
Variable server_last_insert_id : list (Stmt (W := WriteStmt)) -> option Z.
Variable scan_rows : TableRef -> list Field -> result (list RecordBatch).
Variable column_text : ColumnDef -> string.
Abbreviation Backend := (Backend I F).

(** ** Sending *)

(** The state after statements were added to the log. *)
Definition logged (b : Backend) (stmts : list (Stmt (W := WriteStmt))) : Backend :=
  {| bk_catalog := bk_catalog b; bk_files := bk_files b; bk_conn := ((bk_conn b).1, (bk_conn b).2 ++ stmts) |}.

Definition stmt (text : string) : Stmt (W := WriteStmt) := Write (text, []).

Lemma send_ok b text : accepts (bk_conn b).2 (stmt text) = true -> send_statement accepts text b = (logged b [stmt text], Ok tt).
Proof. intros Ha. unfold send_statement. unfold stmt in Ha. by rewrite Ha. Qed.

Lemma logged_app b l k : logged (logged b l) k = logged b (l ++ k).
Proof. unfold logged. cbn. by rewrite app_assoc. Qed.

(** A batch that a projection gives is well formed and has the schema of the sink. *)
Lemma fill_batch_ok (p : FillPlan (X := X)) b b' : fill_batch eval p b = Ok b' ->
  batch_ok b' /\ batch_schema b' = expected_input_schema (fp_sink p).
Proof.
  unfold fill_batch. intros Hp. apply result_bind_ok in Hp as (b1 & _ & Hp). unfold project in Hp.
  apply result_bind_ok in Hp as (columns & _ & Hp). unfold batch_ok. pose proof Hp as Hp'.
  unfold record_batch_try_new in Hp'. repeat (case_match; try discriminate). by inv_ok.
Qed.

Lemma fill_batches_ok (p : FillPlan (X := X)) batches data : result_mapM (fill_batch eval p) batches = Ok data ->
  Forall (fun b => batch_ok b /\ batch_schema b = expected_input_schema (fp_sink p)) data.
Proof.
  revert data. induction batches as [|b batches IH]; intros data Hd; cbn in Hd; [by inv_ok|].
  apply result_bind_ok in Hd as (b' & Hb & Hd). apply result_bind_ok in Hd as (data' & Hd' & Hd). inv_ok.
  constructor; [by eapply fill_batch_ok|by apply IH].
Qed.

Lemma fill_params (p : FillPlan (X := X)) data :
  Forall (fun b => batch_ok b /\ batch_schema b = expected_input_schema (fp_sink p)) data ->
  Forall (fun pos => exists f, expected_input_schema (fp_sink p) !! pos = Some f /\ convertible (field_type f) = true)
    (columns_projection (fp_sink p)) ->
  exists rows, params_of decimal_from_i128_with_scale from_timestamp_nanos (columns_projection (fp_sink p)) data rows.
Proof.
  intros Hok Hproj. induction Hok as [|b data [Hb Hs] _ (rows & per & -> & HP)]; [exists []; by exists []|].
  rewrite <- Hs in Hproj.
  destruct (map_rows_total decimal_from_i128_with_scale from_timestamp_nanos _ b Hb Hproj) as (rows & Hl & Hm).
  exists (mjoin (rows :: per)), (rows :: per). split; [done|]. by constructor.
Qed.

Section Accepted.
Hypothesis accepted : forall conn st, accepts conn st = true.

(** The fill: a transaction with one update for each row. *)
Lemma run_fill_plan_log t (p : FillPlan (X := X)) b batches data :
  autocommit (bk_conn b).1 = true -> current_transaction (bk_conn b).1 = None ->
  prepares (query_string (fp_sink p)) = true ->
  scan_rows t (fp_scan p) = Ok batches -> result_mapM (fill_batch eval p) batches = Ok data ->
  (Z.of_nat (sum_list (batch_rows <$> data)) < 2 ^ 64)%Z ->
  Forall (fun pos => exists f, expected_input_schema (fp_sink p) !! pos = Some f /\ convertible (field_type f) = true)
    (columns_projection (fp_sink p)) ->
  exists rows, params_of decimal_from_i128_with_scale from_timestamp_nanos (columns_projection (fp_sink p)) data rows /\
    run_fill_plan eval decimal_from_i128_with_scale from_timestamp_nanos prepares accepts server_last_insert_id scan_rows t p b =
    (logged b (StartTransaction :: (Write <$> row_stmts (query_string (fp_sink p)) rows) ++ [Commit]), Ok tt).
Proof.
  intros Hac Htx Hp Hscan Hfill Hsum Hproj. pose proof (fill_batches_ok _ _ _ Hfill) as Hok.
  destruct (fill_params p data Hok Hproj) as [rows Hrows].
  destruct (dml_sends_params decimal_from_i128_with_scale from_timestamp_nanos prepares accepts server_last_insert_id
    ltac:(auto) (fp_sink p) data rows (started (bk_conn b)) Hp Hsum) as (r & Hh); [|done|].
  { eapply Forall_impl; [exact Hok|]. by intros b' [_ Hs]. }
  exists rows. split; [done|]. rewrite write_row_stmts in Hh. unfold run_fill_plan. rewrite Hscan. cbn [result_bind]. rewrite Hfill.
  assert (weak_start_transaction accepts (bk_conn b) = Ok (started (bk_conn b))) as Hs.
  { unfold weak_start_transaction. rewrite Hac, Htx. unfold query_drop. by rewrite accepted. }
  unfold sink_exec. rewrite Hs. cbn [handle_batches dml_sink]. rewrite Hh. unfold weak_commit. cbn [fst snd started with_transaction].
  cbn. rewrite Hac. unfold query_drop. rewrite accepted. cbn. unfold logged. f_equal. f_equal.
  destruct (bk_conn b) as [[ac tx iso] log]. cbn in *. subst. f_equal. rewrite <- !app_assoc. done.
Qed.

(** The index is in the catalog and in the file. *)
Definition index_recorded (t : TableRef) (tbl : Table I) (index : I) (b : Backend) : Prop :=
  (exists tbl', mysql_table (schema t) (table t) b = Some tbl' /\ tbl_meta tbl' = add_index index (tbl_meta tbl)) /\
  (exists m, file_meta (bk_files b) (schema t) = Some m /\
     m !! table t = Some (table_meta_to_serializable (add_index index (tbl_meta tbl)))).

Lemma record_index_ok t index tbl b m :
  file_meta (bk_files b) (schema t) = Some m -> mysql_table (schema t) (table t) b = Some tbl ->
  exists b', record_index t index b = (b', Ok tt) /\ bk_conn b' = bk_conn b /\ index_recorded t tbl index b'.
Proof.
  intros Hm Ht. unfold record_index. rewrite Ht. set (tbl' := Build_Table _ _ _ _ _ _ _ _).
  destruct (update_metadata_effect (schema t) (save t tbl') b m Hm) as (s & Hu & Hs). unfold step_bind.
  change (fun m : SchemaMeta IndexConfiguration => _) with (save t tbl'). rewrite Hu by done. eexists. split; [done|].
  split; [done|]. split.
  - destruct (mysql_table_schema _ _ _ _ Ht) as [tables Hsch]. exists tbl'. split; [|done].
    rewrite mysql_table_set, !bool_decide_true by done. unfold mysql_schema in *. cbn. by rewrite Hsch.
  - exists (save t tbl' m). change (bk_files (set_table ?d ?n ?o ?x)) with (bk_files x).
    rewrite file_meta_set, bool_decide_true by done. split; [done|]. unfold save. by rewrite lookup_insert_eq.
Qed.

(** C20: the creation of a columnar index that the server accepts locks the table, adds
    the column, sends in one transaction one update for each row of the decrypted scan,
    with the value of the index and the key of the row (their meaning is kept if they are
    booleans, numbers, strings or bytes; dates are sent as numbers), forbids NULL in the
    column and unlocks the table; and then the index is in the catalog and in the file.
    Nothing else is sent. This is so with autocommit on and no transaction open. *)
Theorem create_columnar_index_fills p b tbl m batches data :
  autocommit (bk_conn b).1 = true -> current_transaction (bk_conn b).1 = None ->
  let fill := compute_initial_index_plan p in
  prepares (query_string (fp_sink fill)) = true ->
  file_meta (bk_files b) (schema (ci_table p)) = Some m -> mysql_table (schema (ci_table p)) (table (ci_table p)) b = Some tbl ->
  scan_rows (ci_table p) (fp_scan fill) = Ok batches -> result_mapM (fill_batch eval fill) batches = Ok data ->
  (Z.of_nat (sum_list (batch_rows <$> data)) < 2 ^ 64)%Z ->
  Forall (fun pos => exists f, expected_input_schema (fp_sink fill) !! pos = Some f /\ convertible (field_type f) = true)
    (columns_projection (fp_sink fill)) ->
  exists rows b', params_of decimal_from_i128_with_scale from_timestamp_nanos (columns_projection (fp_sink fill)) data rows /\
    (Forall (can_send (expected_input_schema (fp_sink fill)) (columns_projection (fp_sink fill))) data ->
     rows_of (columns_projection (fp_sink fill)) data rows) /\
    execute_columnar_index eval decimal_from_i128_with_scale from_timestamp_nanos prepares accepts server_last_insert_id scan_rows p b =
      (b', Ok tt) /\
    (bk_conn b').2 = (bk_conn b).2 ++ [stmt (lock_statement p); stmt (add_column_statement p)] ++
      [StartTransaction] ++ (Write <$> row_stmts (query_string (fp_sink fill)) rows) ++ [Commit] ++
      [stmt (not_null_statement p); stmt "UNLOCK TABLES"] /\
    index_recorded (ci_table p) tbl (ci_config p) b'.
Proof.
  intros Hac Htx fill Hp Hm Ht Hscan Hfill Hsum Hproj. set (b1 := logged b [stmt (lock_statement p); stmt (add_column_statement p)]).
  destruct (run_fill_plan_log (ci_table p) fill b1 batches data Hac Htx Hp Hscan Hfill Hsum Hproj) as (rows & Hrows & Hrun).
  set (l := StartTransaction :: _ ++ _) in Hrun.
  destruct (record_index_ok (ci_table p) (ci_config p) tbl (logged b1 (l ++ [stmt (not_null_statement p); stmt "UNLOCK TABLES"])) m Hm Ht)
    as (b' & Hrec & Hconn & Hdone).
  exists rows, b'. split; [done|]. split; [intros HF; by eapply params_meaning|]. split; [|split; [|exact Hdone]].
  - unfold execute_columnar_index, step_bind. rewrite send_ok by auto. rewrite send_ok by auto. rewrite logged_app.
    replace (logged b ([stmt (lock_statement p)] ++ [stmt (add_column_statement p)])) with b1 by done. fold fill. rewrite Hrun.
    rewrite send_ok by auto. rewrite send_ok by auto. rewrite !logged_app, <- ?app_assoc. exact Hrec.
  - rewrite Hconn. cbn. unfold l. rewrite <- !app_assoc. cbn. by rewrite <- ?app_assoc.
Qed.
End Accepted.

(** ** When a statement fails *)

(** The fill of a columnar index fails: the table is left locked, with the column and
    without the index. *)
Lemma failed_fill_leaves_lock p b b' e :
  accepts (bk_conn b).2 (stmt (lock_statement p)) = true ->
  accepts ((bk_conn b).2 ++ [stmt (lock_statement p)]) (stmt (add_column_statement p)) = true ->
  run_fill_plan eval decimal_from_i128_with_scale from_timestamp_nanos prepares accepts server_last_insert_id scan_rows
    (ci_table p) (compute_initial_index_plan p) (logged b [stmt (lock_statement p); stmt (add_column_statement p)]) = (b', Err e) ->
  execute_columnar_index eval decimal_from_i128_with_scale from_timestamp_nanos prepares accepts server_last_insert_id scan_rows p b =
    (b', Err e).
Proof.
  intros H1' H2' Hrun. unfold execute_columnar_index, step_bind. rewrite send_ok by done. rewrite send_ok by done. rewrite logged_app.
  cbn [app]. by rewrite Hrun.
Qed.

(** The same for the column of identifiers: the column is not dropped again. *)
Lemma failed_rowid_not_rolled_back p b b' e :
  accepts (bk_conn b).2 (stmt (rowid_add_statement column_text p)) = true ->
  run_fill_plan eval decimal_from_i128_with_scale from_timestamp_nanos prepares accepts server_last_insert_id scan_rows
    (cr_table p) (fill_table_plan p) (logged b [stmt (rowid_add_statement column_text p)]) = (b', Err e) ->
  execute_rowid eval decimal_from_i128_with_scale from_timestamp_nanos prepares accepts server_last_insert_id scan_rows column_text p b =
    (b', Err e).
Proof. intros H1' Hrun. unfold execute_rowid, step_bind. rewrite send_ok by done. by rewrite Hrun. Qed.
End Fill.

(** ** A concrete database *)

#[local] Existing Instances ascii_unicode demo_sql_display demo_aead demo_aead_laws demo_kdf.

#[local] Instance demo_parsing : SqlParsing := {|
  do_parse_default_value _ := Err (PlanError "no default");
  parse_column_type s :=
    if bool_decide (s = "int") then Ok (TInt None) else if bool_decide (s = "date") then Ok TDate else Ok TMediumBlob;
  logical_default := unit; create_logical_expr _ := Ok tt; escape_quoted_string s := s
|}.

(** Files that hold the value itself. *)
#[local] Instance demo_toml : Toml IndexConfiguration (SchemaMeta IndexConfiguration) :=
  {| toml_to_string := Ok; toml_from_str := Some |}.

#[local] Instance demo_toml_laws : TomlLaws IndexConfiguration (SchemaMeta IndexConfiguration).
Proof. intros m. by exists m. Qed.

Definition demo_people : CreateTable := {|
  ct_columns :=
    [{| cd_name := "id"; cd_type := TInt None; cd_options := [OptPrimaryKey; OptNotNull] |};
     {| cd_name := "born"; cd_type := TDate; cd_options := [] |};
     {| cd_name := "name"; cd_type := TText; cd_options := [OptDialectSpecific [TokWord "ENCRYPTED" KwOther]] |}];
  ct_constraints := []
|}.

Definition demo_create_index : CreateIndex := {|
  cx_name := Some "b"; cx_table := (None, "t"); cx_using := Some "blind_bits_8"; cx_columns := [EColumn {| relation := None; name := "born" |}];
  cx_unique := false; cx_if_not_exists := false
|}.

(** The index, which stores whether there is a value. *)
Definition demo_blind_index : WriteIndex (X := unit) (S := unit) := {|
  tracked_columns := ["born"];
  wi_insert _ := Ok (AddColumns [{| pe_expr := PIndexExpr tt; pe_alias := "prox_blid_b_8" |}]);
  wi_update _ := Ok (AddColumns [{| pe_expr := PIndexExpr tt; pe_alias := "prox_blid_b_8" |}]);
  requires_external_storage := false;
  wi_column_hidden n := bool_decide (n = "prox_blid_b_8")
|}.

Definition demo_commands : list Command := [
  CmdCreateDatabase false "s"; CmdCreateTable "s" "t" demo_people false; CmdCreateIndex "s" demo_create_index ].

(** Its rows on the server. *)
Definition demo_scan_rows (t : TableRef) (fields : list Field) : result (list RecordBatch) :=
  Ok [{| batch_schema := fields; batch_columns := [demo_ids; demo_dates]; batch_rows := 2 |}].

Definition demo_run (cs : list Command) : Backend TableIndex (SchemaMeta IndexConfiguration) :=
  execute_commands (I := TableIndex) (F := SchemaMeta IndexConfiguration)
    (fun _ => demo_blind_index) (fun _ _ => Ok DtBoolean) (fun _ _ => Ok false) (demo_eval 0) (fun _ _ => Ok []) (fun _ => MyNULL)
    (fun _ => true) (fun _ _ => true) (fun _ => None) demo_scan_rows (fun _ => "column") "def" (fun _ => "statement")
    {| encrypt_by_default := false; config_row_binding_aad := false |} (fun _ _ => "create index") (fun s => s)
    (fun v _ => Ok v) (fun _ _ => Err (PlanError "none")) cs (fresh_backend (transaction_control_default, [])).

Definition demo_description (n ty key : string) : MySqlColumnDescription := {|
  d_table_schema := "s"; d_table_name := "t"; d_column_name := n; d_column_default := None; d_column_type := ty; d_column_key := key;
  d_extra := ""; d_is_nullable := true
|}.

Definition demo_listing : list MySqlColumnDescription :=
  [demo_description "id" "int" "PRI"; demo_description "born" "date" ""; demo_description "name" "mediumblob" "";
   demo_description "prox_blid_b_8" "char(2)" ""].

Lemma restart_keeps_encryption_witness :
  let b := demo_run demo_commands in
  exists schemas t t',
    introspect (fun s => s) "def" false (bk_files b) ["s"] demo_listing = Ok schemas /\
    mysql_table "s" "t" b = Some t /\ table_of schemas "s" "t" = Some t' /\
    tm_indices (tbl_meta t') = [IxBlind "b" "born" 8] /\ is_Some (encrypted_columns (tbl_meta t') !! "name") /\
    encrypted_columns (tbl_meta t') = encrypted_columns (tbl_meta t).
Proof.
  intros b. destruct (introspect (fun s => s) "def" false (bk_files b) ["s"] demo_listing) as [schemas|] eqn:Hi;
    [|vm_compute in Hi; discriminate Hi].
  destruct (mysql_table "s" "t" b) as [t|] eqn:Ht; [|vm_compute in Ht; discriminate Ht].
  destruct (table_of schemas "s" "t") as [t'|] eqn:Ht'; [|vm_compute in Hi; injection Hi as <-; vm_compute in Ht'; discriminate Ht'].
  destruct (restart_keeps_encryption (I := TableIndex) (F := SchemaMeta IndexConfiguration)
    (fun _ => demo_blind_index) (fun _ _ => Ok DtBoolean) (fun _ _ => Ok false) (demo_eval 0) (fun _ _ => Ok []) (fun _ => MyNULL)
    (fun _ => true) (fun _ _ => true) (fun _ => None) demo_scan_rows (fun _ => "column") "def" (fun _ => "statement")
    {| encrypt_by_default := false; config_row_binding_aad := false |} (fun _ _ => "create index") (fun s => s)
    (fun v _ => Ok v) (fun _ _ => Err (PlanError "none")) demo_commands (transaction_control_default, []) ["s"] demo_listing
    false schemas "s" "t" t t') as (_ & Hc & Hix & _).
  - do 3 (apply List.Forall_cons; [exact Logic.I|]). apply List.Forall_nil.
  - split; [apply (bool_decide_unpack (~ ("" ∈ ["s"]))); exact Logic.I|]. do 4 (apply List.Forall_cons; [apply list_elem_of_here|]). apply List.Forall_nil.
  - exact Hi.
  - exact Ht.
  - exact Ht'.
  - exists schemas, t, t'. split; [done|]. split; [done|]. split; [done|]. rewrite Hix, Hc.
    assert ((fun t => (tm_indices (tbl_meta t), bool_decide (is_Some (encrypted_columns (tbl_meta t) !! "name")))) <$>
            mysql_table "s" "t" b = Some ([IxBlind "b" "born" 8], true)) as Hb by (vm_compute; reflexivity).
    rewrite Ht in Hb. injection Hb as Hi' Hn'. apply bool_decide_eq_true in Hn'. by split_and!.
Defined.

(** The state before the index is created, and its plan. *)
Definition demo_state : Backend TableIndex (SchemaMeta IndexConfiguration) := demo_run (take 2 demo_commands).

Definition demo_columnar_plan : result (CreateColumnarIndexPlan (X := unit) (I := TableIndex)) :=
  let? tbl := ok_or (mysql_table "s" "t" demo_state) (PlanError "no table") in
  let? p := columnar_plan (fun _ => demo_blind_index) (fun _ _ => Ok DtBoolean) (fun _ _ => Ok false) tbl
              (CfgBlind "b" "born" 8) (IxBlind "b" "born" 8) in
  ok_or p (PlanError "no plan").

Definition demo_fill (p : CreateColumnarIndexPlan (X := unit) (I := TableIndex)) : result (list RecordBatch) :=
  let fill := compute_initial_index_plan p in
  let? batches := demo_scan_rows (ci_table p) (fp_scan fill) in result_mapM (fill_batch (demo_eval 0) fill) batches.

(** What is true of a plan, computed. *)
Definition demo_facts (p : CreateColumnarIndexPlan (X := unit) (I := TableIndex)) : bool :=
  let fill := compute_initial_index_plan p in
  bool_decide (ci_table p = {| catalog := "def"; schema := "s"; table := "t" |}) &&
  bool_decide (query_string (fp_sink fill) = "UPDATE s.t SET prox_blid_b_8 = ? WHERE id = ?") &&
  bool_decide (lock_statement p = "LOCK TABLE t WRITE") &&
  forallb (fun pos => match expected_input_schema (fp_sink fill) !! pos with Some f => convertible (field_type f) | None => false end)
    (columns_projection (fp_sink fill)) &&
  match demo_fill p with Ok data => Nat.eqb (sum_list (batch_rows <$> data)) 2 | Err _ => false end.

Lemma create_columnar_index_fills_witness :
  exists p rows b', demo_columnar_plan = Ok p /\
    execute_columnar_index (demo_eval 0) (fun _ _ => Ok []) (fun _ => MyNULL) (fun _ => true) (fun _ _ => true) (fun _ => None)
      demo_scan_rows p demo_state = (b', Ok tt) /\
    (bk_conn b').2 = (bk_conn demo_state).2 ++ [stmt "LOCK TABLE t WRITE"; stmt (add_column_statement p)] ++
      [StartTransaction] ++ (Write <$> row_stmts "UPDATE s.t SET prox_blid_b_8 = ? WHERE id = ?" rows) ++ [Commit] ++
      [stmt (not_null_statement p); stmt "UNLOCK TABLES"].
Proof.
  assert (match demo_columnar_plan with Ok p => demo_facts p | Err _ => false end = true) as Hfacts by (vm_compute; reflexivity).
  destruct demo_columnar_plan as [p|] eqn:Hp; [|discriminate Hfacts]. unfold demo_facts in Hfacts.
  apply andb_true_iff in Hfacts as [Hfacts Hdata]. apply andb_true_iff in Hfacts as [Hfacts Hsend].
  apply andb_true_iff in Hfacts as [Hfacts Hlock]. apply andb_true_iff in Hfacts as [Ht Hq].
  apply bool_decide_eq_true in Hlock, Ht, Hq.
  destruct (demo_fill p) as [data|] eqn:Hfill; [|discriminate Hdata]. apply Nat.eqb_eq in Hdata.
  destruct (mysql_table "s" "t" demo_state) as [tbl|] eqn:Htbl; [|vm_compute in Htbl; discriminate Htbl].
  destruct (create_columnar_index_fills (demo_eval 0) (fun _ _ => Ok []) (fun _ => MyNULL) (fun _ => true) (fun _ _ => true)
    (fun _ => None) demo_scan_rows (fun _ _ => eq_refl) p demo_state tbl
    (default ∅ (bk_files demo_state !! "s"))
    [{| batch_schema := fp_scan (compute_initial_index_plan p); batch_columns := [demo_ids; demo_dates]; batch_rows := 2 |}] data)
    as (rows & b' & _ & _ & He & Hlog & _).
  - vm_compute; reflexivity.
  - vm_compute; reflexivity.
  - reflexivity.
  - rewrite Ht. vm_compute; reflexivity.
  - rewrite Ht. exact Htbl.
  - reflexivity.
  - exact Hfill.
  - rewrite Hdata. lia.
  - apply List.Forall_forall. intros pos Hpos. rewrite List.forallb_forall in Hsend. specialize (Hsend pos Hpos).
    destruct (expected_input_schema _ !! pos) as [f|] eqn:Hf; [exists f; split; [reflexivity|exact Hsend]|discriminate Hsend].
  - rewrite Hlock, Hq in Hlog. exists p, rows, b'. split; [reflexivity|]. split; [exact He|exact Hlog].
Defined.
