(* ===== verification/InvertedCreation.v ===== *)
(** * Creation of an inverted index

    Models the plans of [metadata/indices/inverted_index/inverted_index.rs] and
    [db_inverted_index.rs] that create an index on the rows a table has: the columns that
    are read ([CreateInvertedIndexPlan::new]), the terms of a row as an expression of the
    plan ([ProjectTransformIntoTerms]), the inputs of the sinks of insertions and updates,
    and the plan that creates the table of the index and fills it
    ([CreateDbInvertedIndexPlan]). The theorem composes them with the encrypted index of
    RawIndex.v and the keyword filters of InvertedIndex.v. *)
From S2P Require Import Prelude Values Filters Sql Text Crypto ArrowCodec PhysicalExprs SqlSchema RowId TermPage IndexMetadata RawIndex IndexSpec NextVersion IndexTheorems IndexWitness InvertedIndex.

(** ** The terms of a row *)

(** The child of each tracked column is its position in the input, or a NULL literal. *)
Record ProjectTransformIntoTerms := {
  terms_children : list (option nat);
  parent_index : InvertedIndex
}.

(** [Schema::column_with_name]. *)
Definition column_with_name (fields : list Field) (n : string) : option nat :=
  fst <$> list_find (fun f => field_name f = n) fields.

Definition new_for_found_columns_prefixed (ix : InvertedIndex) (fields : list Field) (prefix : string) : ProjectTransformIntoTerms := {|
  terms_children := (fun n => column_with_name fields (prefix +:+ n)) <$> ordered_tracked_columns ix;
  parent_index := ix
|}.

Section Terms.
Context `{Unicode}.
Variable cast_utf8 : ScalarValue -> option string.
Variable cast_boolean : ScalarValue -> option bool.
(** [ArrayConcat] of no columns. *)
Variable concat_nothing : result (list bytes).

(** The terms of one column of a row. *)
Definition column_terms (ix : InvertedIndex) (column_name : string) (v : ScalarValue) : option (list bytes) :=
  match list_find (fun c => c.1 = column_name) (watched_boolean_columns ix) with
  | Some (_, (_, terms)) => Some (process_boolean_column cast_boolean v terms)
  | None =>
      if bool_decide (column_name ∈ watched_string_columns ix) then Some (process_string_column cast_utf8 ix v) else None
  end.

(** [ProjectTransformIntoTerms::evaluate] on a row: the columns one by one, and then their
    concatenation. *)
Fixpoint intermediate_values (ix : InvertedIndex) (children : list (option nat)) (names : list string) (row : list ScalarValue) :
    result (list (list bytes)) :=
  match children, names with
  | None :: children, _ :: names => intermediate_values ix children names row
  | Some i :: children, n :: names =>
      let? v := ok_or (row !! i) (ExecError "column index out of bounds") in
      let? rest := intermediate_values ix children names row in
      Ok (match column_terms ix n v with Some ts => ts :: rest | None => rest end)
  | _, _ => Ok []
  end.

Definition evaluate_terms (p : ProjectTransformIntoTerms) (row : list ScalarValue) : result (list bytes) :=
  let? values := intermediate_values (parent_index p) (terms_children p) (ordered_tracked_columns (parent_index p)) row in
  match values with
  | [] => concat_nothing
  | _ => Ok (concat values)
  end.
End Terms.

(** ** The inputs of the sinks *)

Record TermsProjection := { tp_name : string; tp_terms : ProjectTransformIntoTerms }.

(** The columns of an index sink: the identifier, and the terms. *)
Definition insert_sink_input (index_name : string) (ix : InvertedIndex) (fields : list Field) : string * list TermsProjection :=
  ("_idx_" +:+ index_name +:+ "_id",
   [{| tp_name := "_idx_" +:+ index_name +:+ "_terms"; tp_terms := new_for_found_columns_prefixed ix fields "" |}]).

Definition update_sink_input (current_value_prefix : string) (index_name : string) (ix : InvertedIndex) (fields : list Field) :
    string * list TermsProjection :=
  ("_idx_" +:+ index_name +:+ "_id",
   [{| tp_name := "_idx_" +:+ index_name +:+ "_terms"; tp_terms := new_for_found_columns_prefixed ix fields "" |};
    {| tp_name := "_idx_" +:+ index_name +:+ "_old_terms"; tp_terms := new_for_found_columns_prefixed ix fields current_value_prefix |}]).

(** ** The plan *)

Definition index_table_name (table_name index_name : string) : string := "__idx_" +:+ table_name +:+ "_" +:+ index_name.

Definition COLUMN_NAME_ID : string := "row_id".
Definition COLUMN_NAME_TERMS : string := "terms".

(** [with_initial_data_source]: the schema that the plan of the rows must have. *)
Definition with_initial_data_source (fields : list Field) : result unit :=
  if bool_decide (length fields < 2) then Err (PlanError "Invalid schema when initializing a new index")
  else
    let? (_, terms_column) := ok_or (list_find (fun f => field_name f = COLUMN_NAME_TERMS) fields) (PlanError "Missing column terms when initializing a new index") in
    if negb (bool_decide (field_type terms_column = DtList DtBinary)) then Err (PlanError "Invalid column type for terms when initializing a new index")
    else
      let? (_, id_column) := ok_or (list_find (fun f => field_name f = COLUMN_NAME_ID) fields) (PlanError "Missing column row_id when initializing a new index") in
      if negb (bool_decide (field_type id_column = DtBinary)) then Err (PlanError "Invalid column type for row_id when initializing a new index")
      else Ok tt.

Record CreateInvertedIndexPlan := {
  fetched_columns : list Field;
  terms_projection : ProjectTransformIntoTerms
}.

(** [CreateInvertedIndexPlan::new]; [all_tracked_columns] is a hash set, in the order of
    its iteration. *)
Definition create_inverted_index_plan (ix : InvertedIndex) (all_tracked_columns : list string) (row_id_column : option RowIdColumn)
    (table_schema : list Field) : result CreateInvertedIndexPlan :=
  let? indexable_column := ok_or row_id_column (PlanError "table must have a row_id column") in
  let tracked_columns := omap (fun c => snd <$> list_find (fun f => field_name f = c) table_schema) all_tracked_columns in
  let fetched := rowid_field indexable_column :: tracked_columns in
  let? _ := with_initial_data_source [field_new COLUMN_NAME_ID DtBinary false; field_new COLUMN_NAME_TERMS (DtList DtBinary) false] in
  Ok {| fetched_columns := fetched; terms_projection := new_for_found_columns_prefixed ix fetched "" |}.

(** A batch of the decrypted scan of these columns: the identifiers as a column, and the
    rows (the identifier included). *)
Record ScanBatch := { sb_ids : Array; sb_rows : list (list ScalarValue) }.

Section Plan.
Context `{Unicode} `{ArrowCast} `{Aead} `{Hkdf} `{!Codec MetadataPage} `{!Codec ModificationsTable} `{!Codec TermPage}.
Variable cast_utf8 : ScalarValue -> option string.
Variable cast_boolean : ScalarValue -> option bool.
Variable concat_nothing : result (list bytes).
Variable master_key : bytes.
Variable indexed_table : TableRef.
Variable index_name : string.
Variable IdSize : nat.
Variable shuffle : Db -> Db.

(** The projection of a batch to the identifiers in binary and the terms. *)
Definition source_batch (p : CreateInvertedIndexPlan) (b : ScanBatch) : result (list (option bytes * option (list (option bytes)))) :=
  let? ids := to_binary_evaluate (sb_ids b) in
  let? terms := result_mapM (evaluate_terms cast_utf8 cast_boolean concat_nothing (terms_projection p)) (sb_rows b) in
  Ok (zip ids ((fun l : list bytes => Some (Some <$> l)) <$> terms)).

(** [CreateDbInvertedIndexPlan::execute]: the table of the index is created, which the
    server refuses when it exists, and then filled. *)
Definition create_db_inverted_index (initial_data_source : option (result (list (list (option bytes * option (list (option bytes)))))))
    (storage : option Db) : option Db * result unit :=
  match storage with
  | Some db => (Some db, Err (ExecError "could not create index table"))
  | None =>
      match initial_data_source with
      | None => (Some [], Ok tt)
      | Some rows =>
          match (let? batches := rows in do_initial_provisioning_from_results master_key indexed_table index_name IdSize shuffle batches []) with
          | Ok db => (Some db, Ok tt)
          | Err e => (Some [], Err e)
          end
      end
  end.

Definition run_create_inverted_index (p : CreateInvertedIndexPlan) (scanned : result (list ScanBatch)) (storage : option Db) :
    option Db * result unit :=
  create_db_inverted_index (Some (let? batches := scanned in result_mapM (source_batch p) batches)) storage.
End Plan.

(** ** What the expression computes *)

(** A row of the input by column name. *)
Definition row_value (fields : list Field) (row : list ScalarValue) (n : string) : option ScalarValue :=
  column_with_name fields n ≫= fun i => row !! i.

Section Evaluate.
Context `{Unicode}.
Variable cast_utf8 : ScalarValue -> option string.
Variable cast_boolean : ScalarValue -> option bool.
Variable concat_nothing : result (list bytes).

Lemma column_with_name_lt fields n i : column_with_name fields n = Some i -> i < length fields.
Proof.
  intros Hi. apply fmap_Some in Hi as ([j f] & Hf & ->). apply list_find_Some in Hf as [Hf _]. by eapply lookup_lt_Some.
Qed.

Lemma column_with_name_some fields n : n ∈ field_name <$> fields -> is_Some (column_with_name fields n).
Proof.
  intros (f & -> & Hf)%list_elem_of_fmap. destruct (list_find_elem_of (fun f' => field_name f' = field_name f) fields f Hf eq_refl) as [p Hp].
  unfold column_with_name. by rewrite Hp.
Qed.

Lemma tracked_column_terms ix n v : n ∈ ordered_tracked_columns ix -> is_Some (column_terms cast_utf8 cast_boolean ix n v).
Proof.
  unfold column_terms, ordered_tracked_columns. intros [Hn|Hn]%elem_of_app.
  - destruct (list_find _ _) as [[i [c ts]]|]; [by eexists|]. rewrite bool_decide_true by done. by eexists.
  - apply list_elem_of_fmap in Hn as (c & -> & Hc).
    destruct (list_find_elem_of (fun c' => c'.1 = c.1) (watched_boolean_columns ix) c Hc eq_refl) as [[i [c' ts]] ->]. by eexists.
Qed.

Lemma intermediate_values_row ix fields prefix row names : length row = length fields -> Forall (.∈ ordered_tracked_columns ix) names ->
  exists values, intermediate_values cast_utf8 cast_boolean ix ((fun n => column_with_name fields (prefix +:+ n)) <$> names) names row = Ok values /\
    concat values = (names ≫= fun n => match row_value fields row (prefix +:+ n) with
                                       | Some v => default [] (column_terms cast_utf8 cast_boolean ix n v)
                                       | None => []
                                       end) /\
    ((exists n, n ∈ names /\ is_Some (column_with_name fields (prefix +:+ n))) -> values <> []).
Proof.
  intros Hl. induction 1 as [|n names Hn _ (values & Hv & Hc & Hne)]; [exists []; split_and!; [done..|]; by intros (n & Hn%not_elem_of_nil & _)|].
  cbn [fmap list_fmap intermediate_values mbind list_bind]. unfold row_value at 1.
  destruct (column_with_name fields (prefix +:+ n)) as [i|] eqn:Hi; cbn [option_bind mbind].
  - destruct (lookup_lt_is_Some_2 row i) as [v Hvi]; [rewrite Hl; by eapply column_with_name_lt|]. rewrite Hvi. cbn [ok_or result_bind].
    rewrite Hv. cbn [result_bind]. destruct (tracked_column_terms ix n v Hn) as [ts Hts]. rewrite Hts. exists (ts :: values).
    split; [done|]. split; [cbn; by rewrite Hc|done].
  - exists values. split; [done|]. split; [done|]. intros (n' & [->|Hn']%elem_of_cons & Hs); [by rewrite Hi in Hs; destruct Hs|].
    apply Hne. by exists n'.
Qed.

(** The terms of a row are those of its tracked columns, old or new. *)
Lemma evaluate_terms_row ix fields prefix row : length row = length fields ->
  (exists n, n ∈ ordered_tracked_columns ix /\ prefix +:+ n ∈ field_name <$> fields) ->
  evaluate_terms cast_utf8 cast_boolean concat_nothing (new_for_found_columns_prefixed ix fields prefix) row =
  Ok (transform_into_terms cast_utf8 cast_boolean ix prefix (row_value fields row)).
Proof.
  intros Hl (n & Hn & Hf). unfold evaluate_terms. cbn [parent_index terms_children new_for_found_columns_prefixed].
  destruct (intermediate_values_row ix fields prefix row (ordered_tracked_columns ix) Hl) as (values & -> & Hc & Hne).
  { by apply Forall_forall. }
  cbn [result_bind]. destruct values as [|v values]; [destruct (Hne); [exists n; eauto using column_with_name_some|done]|].
  rewrite Hc. f_equal. unfold transform_into_terms. apply list_bind_ext; [|done]. intros m.
  destruct (row_value fields row (prefix +:+ m)) as [v'|]; [|done]. unfold column_terms.
  destruct (list_find _ _) as [[? [? ?]]|]; [done|]. by case_bool_decide.
Qed.
End Evaluate.

(** ** The rows of the table are found *)

Section Created.
Context `{Unicode} `{ArrowCast} `{Aead} `{!AeadLaws} `{Hkdf} `{!HkdfLaws}.
Context `{!Codec MetadataPage} `{!Codec ModificationsTable} `{!Codec TermPage}.
Variable cast_utf8 : ScalarValue -> option string.
Variable cast_boolean : ScalarValue -> option bool.
Variable concat_nothing : result (list bytes).
Variable master_key : bytes.
Variable indexed_table : TableRef.
Variable index_name : string.
Variable IdSize : nat.
Hypothesis IdSize_ok : 0 < IdSize <= ENTRIES_DATA_SIZE.
Variable vocab : gset bytes.
Variable limit : Z.
Hypothesis limit_ok : (0 <= limit <= 2 ^ 40)%Z.
Hypothesis vocab_ok : set_Forall (fun t : bytes => length t <= MAX_TERM_SIZE) vocab.
Hypothesis metadata_fits : empty_fits.
Variable shuffle : Db -> Db.
Hypothesis shuffle_ok : forall l, shuffle l ≡ₚ l.

(** The rows of a batch, with their identifiers in binary. *)
Definition batch_of_rows (fields : list Field) (b : ScanBatch) (rows : list (bytes * list ScalarValue)) : Prop :=
  to_binary_evaluate (sb_ids b) = Ok (Some ∘ fst <$> rows) /\ sb_rows b = snd <$> rows /\
  Forall (fun r => length r.2 = length fields) rows.

(** The terms of the rows. *)
Definition row_document (ix : InvertedIndex) (fields : list Field) (r : bytes * list ScalarValue) : bytes * list bytes :=
  (r.1, transform_into_terms cast_utf8 cast_boolean ix "" (row_value fields r.2)).

Definition some_document (d : bytes * list bytes) : option bytes * option (list (option bytes)) := (Some d.1, Some (Some <$> d.2)).

Lemma source_batch_rows ix fields b rows :
  batch_of_rows fields b rows -> (exists n, n ∈ ordered_tracked_columns ix /\ n ∈ field_name <$> fields) ->
  source_batch cast_utf8 cast_boolean concat_nothing
    {| fetched_columns := fields; terms_projection := new_for_found_columns_prefixed ix fields "" |} b =
  Ok (some_document ∘ row_document ix fields <$> rows).
Proof.
  intros (Hids & Hrows & Hl) Hn. unfold source_batch. rewrite Hids, Hrows. cbn [result_bind terms_projection].
  rewrite (result_mapM_fmap _ (snd <$> rows) ((fun r => transform_into_terms cast_utf8 cast_boolean ix "" (row_value fields r.2)) <$> rows)).
  - cbn [result_bind]. f_equal. clear. induction rows as [|[id r] rows IH]; [done|]. cbn. by f_equal.
  - by rewrite !length_fmap.
  - intros i r ts Hi Ht. rewrite list_lookup_fmap in Hi. rewrite list_lookup_fmap in Ht. destruct (rows !! i) as [row|] eqn:Hrow; [|done].
    cbn in Hi, Ht. injection Hi as <-. injection Ht as <-. apply evaluate_terms_row; [|done]. by eapply Forall_lookup_1 in Hl.
Qed.

(** The rows that are indexed: those whose identifier has the size of the index. *)
Definition indexed_rows (rows : list (bytes * list ScalarValue)) : list (bytes * list ScalarValue) :=
  filter (fun r => length r.1 = IdSize) rows.

Lemma result_rows_documents ix fields rows acc :
  foldl (add_result_row IdSize) acc (some_document <$> (row_document ix fields <$> rows)) =
  foldl add_document acc (row_document ix fields <$> indexed_rows rows).
Proof.
  revert acc. induction rows as [|[id r] rows IH]; intros acc; [done|]. unfold indexed_rows. rewrite filter_cons. cbn [fst].
  change (foldl (add_result_row IdSize) acc (some_document <$> (row_document ix fields <$> (id, r) :: rows))) with
    (foldl (add_result_row IdSize) (add_result_row IdSize acc (some_document (row_document ix fields (id, r))))
       (some_document <$> (row_document ix fields <$> rows))).
  rewrite IH. cbn [some_document row_document fst snd add_result_row]. unfold indexed_rows.
  case_decide as Hid; [rewrite bool_decide_true by done|by rewrite bool_decide_false by done].
  rewrite fmap_cons. cbn [foldl row_document fst snd].
  replace (omap (fun term => term) (Some <$> transform_into_terms cast_utf8 cast_boolean ix "" (row_value fields r)))
    with (transform_into_terms cast_utf8 cast_boolean ix "" (row_value fields r)); [done|].
  generalize (transform_into_terms cast_utf8 cast_boolean ix "" (row_value fields r)). clear. intros ts.
  induction ts as [|t ts IH]; [done|]. cbn. by f_equal.
Qed.

Lemma docs_with_terms docs ts d : ts <> [] -> NoDup docs.*1 ->
  Forall (fun t => d ∈ docs_with_term docs (resize_term t)) ts <->
  exists doc, doc ∈ docs /\ doc.1 = d /\ Forall (fun t => resize_term t ∈ resize_term <$> doc.2) ts.
Proof.
  intros Hne Hnd. unfold docs_with_term. split.
  - destruct ts as [|t ts]; [done|]. intros Hall. pose proof Hall as [Ht _]%Forall_cons.
    apply elem_of_list_to_set, list_elem_of_fmap in Ht as (doc & -> & [_ Hdoc]%list_elem_of_filter). exists doc. split; [done|]. split; [done|].
    eapply Forall_impl; [exact Hall|]. intros t' (doc' & He & [Ht' Hdoc']%list_elem_of_filter)%elem_of_list_to_set%list_elem_of_fmap.
    apply list_elem_of_lookup in Hdoc as [i Hi], Hdoc' as [j Hj].
    assert (i = j) as ->; [|by simplify_eq]. eapply (NoDup_lookup docs.*1); [done| |]; rewrite list_lookup_fmap; [by rewrite Hi|].
    rewrite Hj. cbn. by rewrite He.
  - intros (doc & Hdoc & <- & Hall). eapply Forall_impl; [exact Hall|]. intros t Ht.
    apply elem_of_list_to_set, list_elem_of_fmap. exists doc. split; [done|]. by apply list_elem_of_filter.
Qed.

(** C21: the rows that a table has when an inverted index is created are found: the plan
    reads and decrypts them, creates the table of the index and fills it, and then a LIKE
    filter on a tracked column selects exactly the identifiers of the rows with every
    keyword of its pattern, among the rows whose identifier in binary has exactly the
    size of the index. The others, all of them for a key of 8 or 16 bits, are left out
    silently ([small_key_rows_skipped]). *)
Theorem created_index_finds_rows {E : Type} ix all_tracked row_id fields p batches rowss :
  create_inverted_index_plan ix all_tracked row_id fields = Ok p ->
  (exists n, n ∈ ordered_tracked_columns ix /\ n ∈ field_name <$> fetched_columns p) ->
  Forall2 (batch_of_rows (fetched_columns p)) batches rowss ->
  let docs := row_document ix (fetched_columns p) <$> indexed_rows (concat rowss) in
  NoDup docs.*1 -> tags_distinct master_key indexed_table index_name vocab limit 1 ->
  Forall (fun d => Forall (fun t => resize_term t ∈ vocab) d.2) docs ->
  (forall t, (Z.of_nat (size (docs_with_term docs t)) <= limit)%Z) ->
  exists st db,
    run_create_inverted_index cast_utf8 cast_boolean concat_nothing master_key indexed_table index_name IdSize shuffle p (Ok batches) None
      = (Some db, Ok tt) /\
    serves master_key indexed_table index_name IdSize vocab limit st db /\
    forall col pattern, tracked ix (name (column col)) = true -> like_words ix pattern <> [] ->
      exists q, @inverted_query _ E ix (KwSearchLike col pattern) = Ok (XFilterExpr q) /\
        forall d, d ∈ denote q (contents st) <->
          exists row, (d, row) ∈ indexed_rows (concat rowss) /\
            Forall (fun t => resize_term t ∈ resize_term <$> (row_document ix (fetched_columns p) (d, row)).2) (like_words ix pattern).
Proof.
  intros Hp Hn Hb docs Hnd Htags Hterms Hsize.
  assert (Forall (fun '(d, ts) => doc_ok IdSize vocab d ts) docs) as Hdocs.
  { apply Forall_forall. intros [d ts] Hd. rewrite Forall_forall in Hterms. split; [|exact (Hterms _ Hd)].
    apply list_elem_of_fmap in Hd as (r & [= -> _] & [Hr _]%list_elem_of_filter). exact Hr. }
  destruct (provision master_key indexed_table index_name IdSize IdSize_ok vocab limit limit_ok vocab_ok metadata_fits shuffle shuffle_ok
              docs Htags Hdocs Hsize) as (st & db & Hdb & Hserves & _ & _ & Hcontents & _).
  unfold create_inverted_index_plan in Hp. destruct row_id as [row_id|]; [|done]. cbn in Hp. injection Hp as <-.
  cbn [fetched_columns] in *. set (fetched := rowid_field row_id :: _) in *.
  exists st, db. split; [|split; [done|]].
  - unfold run_create_inverted_index. cbn [result_bind].
    rewrite (result_mapM_fmap _ batches ((fun rows : list (bytes * list ScalarValue) => some_document ∘ row_document ix fetched <$> rows) <$> rowss)).
    + cbn [create_db_inverted_index result_bind]. unfold do_initial_provisioning_from_results.
      replace (concat _) with (some_document <$> (row_document ix fetched <$> concat rowss)).
      2: { rewrite <- list_fmap_compose. clear. induction rowss as [|rows rowss IH]; [done|]. cbn. by rewrite fmap_app, IH. }
      rewrite result_rows_documents. fold docs. by unfold do_initial_provisioning_from_iterator in Hdb; rewrite Hdb.
    + by rewrite length_fmap, (Forall2_length _ _ _ Hb).
    + intros i b rows Hi Hr. rewrite list_lookup_fmap in Hr. destruct (rowss !! i) as [rows'|] eqn:Hri; [|done]. injection Hr as <-.
      apply source_batch_rows; [|done]. by eapply Forall2_lookup_lr.
  - intros col pattern Ht Hw. unfold inverted_query. cbn [parse_filter_tree]. rewrite Ht. cbn [negb].
    fold (like_words ix pattern). destruct (like_words ix pattern) as [|t ts] eqn:Hts; [done|]. cbn.
    eexists. split; [done|]. intros d. rewrite (denote_intersect_all t ts (contents st) d).
    rewrite (Forall_iff _ _ (fun t => d ∈ docs_with_term docs (resize_term t))) by (intros x; by rewrite Hcontents).
    rewrite docs_with_terms by done. split.
    + intros (doc & ([id row] & -> & Hrow)%list_elem_of_fmap & <- & Hall). by exists row.
    + intros (row & Hrow & Hall). exists (row_document ix fetched (d, row)). split; [by apply list_elem_of_fmap_2|done].
Qed.
End Created.

(** ** A concrete table *)

Section Example.
#[local] Existing Instances demo_aead demo_aead_laws demo_hkdf demo_hkdf_laws demo_metadata_codec
  demo_modifications_codec demo_page_codec ascii_unicode.

Definition notes_index : InvertedIndex :=
  {| watched_string_columns := ["body"]; watched_boolean_columns := [];
     collation := {| CASE_INSENSITIVE := true; LENGTH_UNLIMITED := false; ALLOW_ALPHANUMERIC := false |} |}.

Definition notes_schema : list Field := [field_new "id" DtInt32 false; field_new "body" DtUtf8 true].

Definition notes_rows : list (bytes * list ScalarValue) :=
  [(to_le_bytes 4 7, [SInt32 (Some 7%Z); SUtf8 (Some "Red Box!")]); (to_le_bytes 4 9, [SInt32 (Some 9%Z); SUtf8 None])].

Definition notes_batch : ScanBatch :=
  {| sb_ids := {| data_type := DtInt32; values := [Some (VPrim 7); Some (VPrim 9)] |}; sb_rows := snd <$> notes_rows |}.

Definition notes_vocab : gset bytes := list_to_set (string_bytes <$> ["0red"; "0box"]).

Lemma notes_vocab_elem t : t ∈ notes_vocab -> t = string_bytes "0red" \/ t = string_bytes "0box".
Proof. unfold notes_vocab. set_solver. Qed.

Lemma docs_size docs t : size (docs_with_term docs t) <= length docs.
Proof.
  unfold docs_with_term. induction docs as [|d docs IH]; [by rewrite filter_nil; cbn; rewrite size_empty|]. rewrite filter_cons. case_decide; cbn; [|lia].
  rewrite size_union_alt, size_singleton. etrans; [apply le_n_S, subseteq_size, subseteq_difference_l; reflexivity|lia].
Qed.

Lemma notes_documents :
  row_document (fun _ => None) (fun _ => None) notes_index notes_schema <$> notes_rows =
  [(to_le_bytes 4 7, string_bytes <$> ["0red"; "0box"]); (to_le_bytes 4 9, [])].
Proof. vm_compute. reflexivity. Qed.

Lemma notes_indexed : indexed_rows 4 notes_rows = notes_rows.
Proof. vm_compute. reflexivity. Qed.

Lemma created_index_finds_rows_witness :
  exists st db,
    run_create_inverted_index (fun _ => None) (fun _ => None) (Ok []) [] demo_table "ix" 4 demo_shuffle
      {| fetched_columns := notes_schema; terms_projection := new_for_found_columns_prefixed notes_index notes_schema "" |} (Ok [notes_batch]) None
      = (Some db, Ok tt) /\
    serves [] demo_table "ix" 4 notes_vocab demo_limit st db /\
    forall col pattern, tracked notes_index (name (column col)) = true -> like_words notes_index pattern <> [] ->
      exists q, @inverted_query _ unit notes_index (KwSearchLike col pattern) = Ok (XFilterExpr q) /\
        forall d, d ∈ denote q (contents st) <->
          exists row, (d, row) ∈ indexed_rows 4 (concat [notes_rows]) /\
            Forall (fun t => resize_term t ∈ resize_term <$> (row_document (fun _ => None) (fun _ => None) notes_index notes_schema (d, row)).2)
              (like_words notes_index pattern).
Proof.
  apply (created_index_finds_rows (E := unit) (fun _ => None) (fun _ => None) (Ok []) [] demo_table "ix" 4 demo_size_ok notes_vocab demo_limit
           demo_limit_ok ltac:(intros t [->| ->]%notes_vocab_elem; vm_compute; lia) demo_empty_fits demo_shuffle demo_shuffle_ok
           notes_index ["body"] (Some (primary "id" Size4Bytes DtInt32)) notes_schema
           {| fetched_columns := notes_schema; terms_projection := new_for_found_columns_prefixed notes_index notes_schema "" |}
           [notes_batch] [notes_rows]).
  - reflexivity.
  - exists "body". split; [left|right; left].
  - repeat constructor.
  - by apply (bool_decide_unpack _); vm_compute.
  - apply demo_tags_for. intros t [->| ->]%notes_vocab_elem; split; by vm_compute.
  - cbn [concat fetched_columns]. rewrite app_nil_r, notes_indexed, notes_documents. repeat constructor; by vm_compute.
  - intros t. cbn [concat fetched_columns]. rewrite app_nil_r, notes_indexed, notes_documents. unfold demo_limit.
    match goal with |- context [docs_with_term ?docs t] => pose proof (docs_size docs t) as Hs end. cbn in Hs |- *. lia.
Defined.

End Example.

(** ** Rows that are skipped *)

(** A key of 16 bits is a row identifier of four bytes, but its binary form has two, whether
    Arrow casts it or not: none of the rows is indexed. *)
Lemma small_key_rows_skipped `{ArrowCast} acc (ids : list Z) terms :
  (forall a, data_type a = DtInt16 -> can_cast_to_binary DtInt16 = true -> cast_to_binary a = primitive_array_to_bytes 2 (values a)) ->
  natural_size DtInt16 = Some Size4Bytes /\
  exists bs, to_binary_evaluate {| data_type := DtInt16; values := Some ∘ VPrim <$> ids |} = Ok bs /\ length bs = length ids /\
    foldl (add_result_row 4) acc (zip bs terms) = acc.
Proof.
  intros Hcast. split; [done|]. exists ((fun z => Some (to_le_bytes 2 z)) <$> ids).
  assert (primitive_array_to_bytes 2 (Some ∘ VPrim <$> ids) = Ok ((fun z => Some (to_le_bytes 2 z)) <$> ids)) as Hbytes.
  { unfold primitive_array_to_bytes, map_slots. induction ids as [|z ids IH]; [done|]. cbn. cbn in IH. by rewrite IH. }
  split; [|split; [by rewrite length_fmap|]].
  - unfold to_binary_evaluate, encode_array_to_binary. cbn [data_type values]. rewrite bool_decide_false by done.
    destruct (can_cast_to_binary DtInt16) eqn:Hc; [by rewrite Hcast|done].
  - clear Hbytes. revert terms. induction ids as [|z ids IH]; intros [|t terms]; try done. cbn [zip_with fmap list_fmap foldl].
    unfold add_result_row at 2. destruct t; [|apply IH]. rewrite bool_decide_false; [apply IH|]. by rewrite length_to_le_bytes.
Qed.

(** A plan without a source of rows leaves the index without its metadata. *)
Lemma empty_index_has_no_metadata `{Aead} `{Hkdf} `{!Codec MetadataPage} `{!Codec ModificationsTable} `{!Codec TermPage}
    master_key indexed_table index_name IdSize shuffle :
  create_db_inverted_index master_key indexed_table index_name IdSize shuffle None None = (Some [], Ok tt).
Proof. done. Qed.

(** The table of an index is named after its table and itself: names with underscores
    meet, and the second index cannot be created. *)
Lemma index_tables_collide : index_table_name "a_b" "c" = index_table_name "a" "b_c".
Proof. by vm_compute. Qed.
