(* ===== verification/Scan.v ===== *)
(** * Scans of the server's tables

    Models [planning/physical/plans/mysql_scan_plan.rs], [dynamic_filters.rs] and
    [optimizers/push_down_joins.rs]: the query that a scan sends to the server, the
    joins that are pushed into it, the columns that are added to it and the filters
    that are pushed down to its tables. *)
From S2P Require Import Prelude Values Filters Sql Crypto SqlSchema.

(** ** Queries *)

Inductive SelectItem := UnnamedExpr (e : SqlExpr) | ExprWithAlias (e : SqlExpr) (alias : string).

Inductive JoinType := JInner | JLeft | JRight | JFull | JLeftSemi | JRightSemi | JLeftAnti | JRightAnti | JLeftMark | JRightMark.

#[export] Instance JoinType_eq_dec : EqDecision JoinType.
Proof. solve_decision. Defined.

Inductive LockType := LockShare | LockUpdate.

#[export] Instance LockType_eq_dec : EqDecision LockType.
Proof. solve_decision. Defined.

(** [ast::Select] over one table, as a leaf of a scan holds it. *)
Record Select := { projection : list SelectItem; from_table : TableRef; selection : option SqlExpr }.

(** [ast::Query]: the SELECT, and the clauses around it. A derived relation is a
    query with an alias. *)
Inductive Query :=
  | MkQuery (items : list SelectItem) (from : Relation) (selection : option SqlExpr)
      (limit : option Z) (lock : option LockType) (order_by : list (SqlExpr * bool))
with Relation :=
  | RTable (t : TableRef)
  | RJoin (left : Query) (left_alias : string) (mode : JoinType) (right : Query) (right_alias : string)
      (on : SqlExpr).

Definition and_opt (selection : option SqlExpr) (e : SqlExpr) : SqlExpr :=
  match selection with Some s => sql_and s e | None => e end.

(** [AstExprExt::and] over a list, [None] when there is none. *)
Definition reduce_sql (l : list SqlExpr) : option SqlExpr :=
  match l with [] => None | e :: l => Some (foldl sql_and e l) end.

(** A physical filter: connectives, and leaves with the positions of their columns. *)
Inductive PhysicalFilter (L : Type) :=
  | PfAnd (l r : PhysicalFilter L)
  | PfOr (l r : PhysicalFilter L)
  | PfLeaf (leaf : L).
Arguments PfAnd {L} l r.
Arguments PfOr {L} l r.
Arguments PfLeaf {L} leaf.

(** ** Names of tables ([unparser.rs]) *)

Definition object_name_from_resolved (t : TableRef) : list string := [schema t; table t].

(** The last two parts of a name are compared; the name of a column or of a catalog is not. *)
Definition object_name_matches_resolved (object_name : list string) (t : TableRef) : bool :=
  match reverse object_name with
  | [] => false
  | [table'] => bool_decide (table' = table t)
  | table' :: schema' :: _ => bool_decide (schema' = schema t) && bool_decide (table' = table t)
  end.

Section Scan.
(** Filters computed when the query runs: those of the indices, and those that
    DataFusion builds while it executes a join. *)
Context {D I : Type}.
Variable execute_filter : D -> result SqlExpr.
Variable execute_interop : I -> result SqlExpr.

(** A [SortExpr]: the expression in SQL, and whether it ascends. *)
Abbreviation SortExpr := (SqlExpr * bool)%type.

Inductive ScanHierarchyComponent :=
  | Leaf (base_query : Select) (dynamic_filters : list D) (table_reference : TableRef)
  | Join (left_alias : string) (left : ScanHierarchyComponent) (mode : JoinType)
      (right_alias : string) (right : ScanHierarchyComponent) (filter : option SqlExpr)
      (project_columns : list SelectItem).

Record MySqlScanPlan := {
  scan : ScanHierarchyComponent;
  project_schema : list Field;
  fetch : option Z;
  sort : list SortExpr;
  lock_type : option LockType;
  more_filters : list I
}.

(** ** Building scans *)

Definition new_query (table_reference : TableRef) (query : Select) (fields : list Field) (fetch : option Z)
    (dynamic_filters : list D) : MySqlScanPlan :=
  {| scan := Leaf query dynamic_filters table_reference; project_schema := fields; fetch := fetch;
     lock_type := None; sort := []; more_filters := [] |}.

Definition new_from_schema (table_reference : TableRef) (columns : list Field) (fetch : option Z)
    (static_filter : option SqlExpr) (dynamic_filters : list D) : MySqlScanPlan :=
  let items := (fun f => UnnamedExpr (Identifier (field_name f))) <$> columns in
  new_query table_reference {| projection := items; from_table := table_reference; selection := static_filter |}
    columns fetch dynamic_filters.

Definition set_lock_type (l : LockType) (p : MySqlScanPlan) : MySqlScanPlan :=
  {| scan := scan p; project_schema := project_schema p; fetch := fetch p; sort := sort p; lock_type := Some l;
     more_filters := more_filters p |}.

Definition with_sort (s : list SortExpr) (p : MySqlScanPlan) : MySqlScanPlan :=
  {| scan := scan p; project_schema := project_schema p; fetch := fetch p; sort := sort p ++ s;
     lock_type := lock_type p; more_filters := more_filters p |}.

(** [None] when the limit does not change. *)
Definition with_fetch (limit : option Z) (p : MySqlScanPlan) : option MySqlScanPlan :=
  if bool_decide (fetch p = limit) then None
  else Some {| scan := scan p; project_schema := project_schema p; fetch := limit; sort := sort p;
               lock_type := lock_type p; more_filters := more_filters p |}.

(** ** Joins *)

Definition supports_join_mode (mode : JoinType) : bool := match mode with JInner | JLeft => true | _ => false end.

Definition left_alias : string := "t1".
Definition right_alias : string := "t2".

Definition equijoin_where (equijoin : list (string * string)) : option SqlExpr :=
  reduce_sql ((fun '(l, r) => binop (CompoundIdentifier [left_alias; l]) (CompoundIdentifier [right_alias; r]) BinEq)
              <$> equijoin).

Definition join_columns (left right : list Field) : list SelectItem :=
  ((fun f => UnnamedExpr (CompoundIdentifier [left_alias; field_name f])) <$> left) ++
  ((fun f => UnnamedExpr (CompoundIdentifier [right_alias; field_name f])) <$> right).

Definition join (mode : JoinType) (self other : MySqlScanPlan) (equijoin : list (string * string))
    (project : option (list nat)) (fields : list Field) : result MySqlScanPlan :=
  if negb (supports_join_mode mode) then Err (PlanError "Unsupported join mode")
  else if negb (bool_decide (length (sort self) = 0)) || negb (bool_decide (length (sort other) = 0)) then
    Err (PlanError "Cannot join two plans when one of them is sorted!")
  else if bool_decide (is_Some (fetch self)) || bool_decide (is_Some (fetch other)) then
    Err (PlanError "Cannot join two plans when one of them has a LIMIT clause")
  else if bool_decide (is_Some (lock_type self)) && bool_decide (is_Some (lock_type other))
          && negb (bool_decide (lock_type self = lock_type other)) then
    Err (PlanError "Cannot join two plans with different lock type")
  else
    let all_columns := join_columns (project_schema self) (project_schema other) in
    let? project_columns :=
      match project with
      | Some project => result_mapM (fun i => match all_columns !! i with
                                              | Some c => Ok c
                                              | None => Err (Panic "index out of bounds")
                                              end) project
      | None => Ok all_columns
      end in
    Ok {| scan := Join left_alias (scan self) mode right_alias (scan other) (equijoin_where equijoin) project_columns;
          project_schema := fields; fetch := fetch self; sort := sort self;
          lock_type := match lock_type self with Some l => Some l | None => lock_type other end;
          more_filters := more_filters self |}.

(** ** Columns *)

Definition num_columns (c : ScanHierarchyComponent) : nat :=
  match c with
  | Leaf q _ _ => length (projection q)
  | Join _ _ _ _ _ _ project_columns => length project_columns
  end.

Fixpoint get_table_reference (c : ScanHierarchyComponent) (column_index : nat) : TableRef :=
  match c with
  | Leaf _ _ t => t
  | Join _ lc _ _ rc _ _ =>
      if bool_decide (column_index < num_columns lc) then get_table_reference lc column_index
      else get_table_reference rc (column_index - num_columns lc)
  end.

Fixpoint has_table (t : TableRef) (c : ScanHierarchyComponent) : bool :=
  match c with
  | Leaf q _ _ => object_name_matches_resolved (object_name_from_resolved (from_table q)) t
  | Join _ lc _ _ rc _ _ => has_table t lc || has_table t rc
  end.

(** Adds a column to the selection, with the name it has in the result. *)
Fixpoint component_add_select_column (t : TableRef) (column_name : string) (alias : option string)
    (c : ScanHierarchyComponent) : ScanHierarchyComponent * option string :=
  if negb (has_table t c) then (c, None)
  else
    match c with
    | Leaf q dynamic tr =>
        let alias := default column_name alias in
        (Leaf {| projection := projection q ++ [ExprWithAlias (Identifier column_name) alias];
                 from_table := from_table q; selection := selection q |} dynamic tr, Some alias)
    | Join la lc mode ra rc filter project_columns =>
        let item source := ExprWithAlias (CompoundIdentifier [source; column_name]) (default column_name alias) in
        if has_table t lc then
          let (lc, actual_alias) := component_add_select_column t column_name alias lc in
          (Join la lc mode ra rc filter (project_columns ++ [item la]), (fun s => la +:+ "." +:+ s) <$> actual_alias)
        else
          let (rc, actual_alias) := component_add_select_column t column_name alias rc in
          (Join la lc mode ra rc filter (project_columns ++ [item ra]), (fun s => ra +:+ "." +:+ s) <$> actual_alias)
    end.

Definition with_name (n : string) (f : Field) : Field :=
  {| field_name := n; field_type := field_type f; field_nullable := field_nullable f; field_metadata := field_metadata f |}.

Definition add_select_column (t : TableRef) (field : Field) (alias : option string) (p : MySqlScanPlan) : MySqlScanPlan :=
  let (c, new_aliased_name) := component_add_select_column t (field_name field) alias (scan p) in
  let new_aliased_name :=
    match new_aliased_name with
    | Some n => if negb (bool_decide (n = field_name field))
                   && match alias with Some a => negb (bool_decide (a = n)) | None => true end
                then Some n else alias
    | None => alias
    end in
  let aliased_field := match new_aliased_name with Some n => with_name n field | None => field end in
  {| scan := c; project_schema := project_schema p ++ [aliased_field]; fetch := fetch p; sort := sort p;
     lock_type := lock_type p; more_filters := more_filters p |}.

(** ** The query *)

(** The filters of the indices are executed one by one and added to the condition. *)
Fixpoint add_dynamic (selection : option SqlExpr) (filters : list D) : result (option SqlExpr) :=
  match filters with
  | [] => Ok selection
  | filter :: filters =>
      let? e := execute_filter filter in add_dynamic (Some (and_opt selection e)) filters
  end.

Fixpoint to_query_inner (c : ScanHierarchyComponent) : result Query :=
  match c with
  | Leaf q dynamic _ =>
      let? s := add_dynamic (selection q) dynamic in
      Ok (MkQuery (projection q) (RTable (from_table q)) s None None [])
  | Join la lc mode ra rc filter project_columns =>
      let? lc := to_query_inner lc in
      let? rc := to_query_inner rc in
      let? filter := match mode with
                     | JInner | JLeft => ok_or filter (ExecError "No filter for join!")
                     | _ => Err (ExecError "unexpected join mode")
                     end in
      Ok (MkQuery project_columns (RJoin lc la mode rc ra filter) None None None [])
  end.

Definition to_query (c : ScanHierarchyComponent) (fetch : option Z) (lock_type : option LockType)
    (sort : list SortExpr) : result Query :=
  let? q := to_query_inner c in
  let '(MkQuery items from s _ _ _) := q in
  Ok (MkQuery items from s fetch lock_type sort).

Fixpoint add_interop (selection : option SqlExpr) (filters : list I) : result (option SqlExpr) :=
  match filters with
  | [] => Ok selection
  | filter :: filters =>
      let? e := execute_interop filter in add_interop (Some (and_opt selection e)) filters
  end.

(** The query of [execute]. *)
Definition scan_query (p : MySqlScanPlan) : result Query :=
  let? q := to_query (scan p) (fetch p) (lock_type p) (sort p) in
  let '(MkQuery items from s limit lock order) := q in
  let? s := add_interop s (more_filters p) in
  Ok (MkQuery items from s limit lock order).

(** ** Filters pushed down to the scan *)

Record FilterPushdownResult := {
  pd_table_reference : TableRef;
  add_filter : option SqlExpr;
  add_dynamic_filter : list D
}.

Definition combine (a b : FilterPushdownResult) (op : BinaryOperator) : option FilterPushdownResult :=
  if negb (bool_decide (pd_table_reference b = pd_table_reference a)) then None
  else
    Some {| pd_table_reference := pd_table_reference a;
            add_filter := match add_filter a, add_filter b with
                          | Some l, Some r => Some (binop l r op)
                          | Some l, None => Some l
                          | None, r => r
                          end;
            add_dynamic_filter := add_dynamic_filter a ++ add_dynamic_filter b |}.

Section Pushdown.
Context {L : Type}.
(** The columns of a leaf, and what the resolver of a table forwards for it. *)
Variable leaf_columns : L -> list nat.
Variable resolve : TableRef -> L -> result (list SqlExpr * list D).

Definition reduce_results (l : list FilterPushdownResult) : result (option FilterPushdownResult) :=
  match l with
  | [] => Ok None
  | r :: l => let? r := result_foldl (fun a b => ok_or (combine a b BinAnd) (Panic "incompatible filters returned")) r l in
              Ok (Some r)
  end.

Fixpoint try_handle_filter_pushdown (p : MySqlScanPlan) (filter : PhysicalFilter L) : result (option FilterPushdownResult) :=
  let both l r op :=
    let? a := try_handle_filter_pushdown p l in
    match a with
    | None => Ok None
    | Some a =>
        let? b := try_handle_filter_pushdown p r in
        match b with None => Ok None | Some b => Ok (combine a b op) end
    end in
  match filter with
  | PfAnd l r => both l r BinAnd
  | PfOr l r => both l r BinOr
  | PfLeaf leaf =>
      match get_table_reference (scan p) <$> leaf_columns leaf with
      | [t] =>
          match resolve t leaf with
          | Err (Panic e) => Err (Panic e)
          | Err _ => Ok None
          | Ok (static, dynamic) =>
              reduce_results
                (((fun fw => {| pd_table_reference := t; add_filter := Some fw; add_dynamic_filter := [] |}) <$> static) ++
                 ((fun d => {| pd_table_reference := t; add_filter := None; add_dynamic_filter := [d] |}) <$> dynamic))
          end
      | _ => Ok None
      end
  end.

(** [get_component_for_table_reference] and the update of the leaf it finds; only
    the name of the table is compared. *)
Fixpoint push_to_component (r : FilterPushdownResult) (c : ScanHierarchyComponent) : option ScanHierarchyComponent :=
  match c with
  | Leaf q dynamic t =>
      if bool_decide (table t = table (pd_table_reference r)) then
        Some (Leaf {| projection := projection q; from_table := from_table q;
                      selection := match selection q, add_filter r with
                                   | Some base, Some f => Some (sql_and base f)
                                   | Some base, None => Some base
                                   | None, f => f
                                   end |} (dynamic ++ add_dynamic_filter r) t)
      else None
  | Join la lc mode ra rc filter project_columns =>
      match push_to_component r lc with
      | Some lc => Some (Join la lc mode ra rc filter project_columns)
      | None =>
          match push_to_component r rc with
          | Some rc => Some (Join la lc mode ra rc filter project_columns)
          | None => None
          end
      end
  end.

(** A filter of the parent: one of DataFusion's dynamic filters, or an expression. *)
Inductive ParentFilter := ParentDynamic (i : TableRef -> I) | ParentExpr (f : PhysicalFilter L).

Inductive PushedDown := PushedYes | PushedNo.

Fixpoint classify (p : MySqlScanPlan) (filters : list ParentFilter) :
    result (list I * list FilterPushdownResult * list PushedDown) :=
  match filters with
  | [] => Ok ([], [], [])
  | ParentDynamic i :: filters =>
      let? (push, local, results) := classify p filters in
      Ok (i (get_table_reference (scan p) 0) :: push, local, PushedYes :: results)
  | ParentExpr f :: filters =>
      let? r := try_handle_filter_pushdown p f in
      let? (push, local, results) := classify p filters in
      Ok (push, match r with Some r => r :: local | None => local end, PushedNo :: results)
  end.

Definition handle_child_pushdown_result (p : MySqlScanPlan) (filters : list ParentFilter) :
    result (list PushedDown * MySqlScanPlan) :=
  let? (push, local, results) := classify p filters in
  let? c := result_foldl (fun c r => ok_or (push_to_component r c)
              (PlanError "should be unreachable: pushed down component to a scan node that does not exist")) (scan p) local in
  Ok (results,
      {| scan := c; project_schema := project_schema p; fetch := fetch p; sort := sort p; lock_type := lock_type p;
         more_filters := more_filters p ++ push |}).

(** [DynamicFilterInterop::execute_filter], once the filter is complete: the conditions
    that its table forwards, and [TRUE] when there are none. *)
Definition execute_interop_filter (filter : L) (t : TableRef) : result SqlExpr :=
  let? (static, _) := resolve t filter in Ok (default (Value (Boolean true)) (reduce_sql static)).
End Pushdown.

(** ** Pushing joins down ([PushDownJoins]) *)

(** Physical plans as the rule distinguishes them. A side of a join condition is a
    column or another expression; [null_equals_null] is the [null_equality] of the join,
    which is set for [IS NOT DISTINCT FROM] and not for [=]. *)
Inductive ExecPlan :=
  | PScan (p : MySqlScanPlan)
  | PCoalesceBatches (input : ExecPlan)
  | PHashJoin (left right : ExecPlan) (join_type : JoinType) (on : list (option string * option string))
      (null_equals_null has_filter : bool) (project : option (list nat)) (fields : list Field)
  | POther (inputs : list ExecPlan) (fields : list Field).

Definition extract_mysql_plan (p : ExecPlan) : option MySqlScanPlan :=
  match p with
  | PScan p => Some p
  | PCoalesceBatches (PScan p) => Some p
  | _ => None
  end.

Definition transform_plan (plan : ExecPlan) : result ExecPlan :=
  match plan with
  | PHashJoin lp rp mode on null_equals_null has_filter project fields =>
      if has_filter then Ok plan
      else if negb (supports_join_mode mode) then Ok plan
      else
        match extract_mysql_plan lp, extract_mysql_plan rp with
        | Some lp, Some rp =>
            match mapM (fun '(l, r) => l ≫= fun l => r ≫= fun r => Some (l, r)) on with
            | Some equijoin => let? p := join mode lp rp equijoin project fields in Ok (PScan p)
            | None => Ok plan
            end
        | _, _ => Ok plan
        end
  | _ => Ok plan
  end.

(** [transform_up]. *)
Fixpoint push_down_joins (plan : ExecPlan) : result ExecPlan :=
  let? plan :=
    match plan with
    | PScan p => Ok (PScan p)
    | PCoalesceBatches input => let? input := push_down_joins input in Ok (PCoalesceBatches input)
    | PHashJoin lp rp mode on null_equals_null has_filter project fields =>
        let? lp := push_down_joins lp in
        let? rp := push_down_joins rp in
        Ok (PHashJoin lp rp mode on null_equals_null has_filter project fields)
    | POther inputs fields =>
        let? inputs :=
          (fix go l := match l with
                       | [] => Ok []
                       | p :: l => let? p := push_down_joins p in let? l := go l in Ok (p :: l)
                       end) inputs in
        Ok (POther inputs fields)
    end in
  transform_plan plan.
End Scan.
