(* ===== verification/ScanTheorems.v ===== *)
(** * What the queries of a scan return

    Theorems on Scan.v: a join that is pushed down returns the rows of the join of
    its sides, filters that are pushed down lose no row, and the text of a
    condition. *)
From S2P Require Import Prelude Values Filters Sql Crypto SqlSchema Scan.

(** ** The server's answers *)

Definition item_expr (it : SelectItem) : SqlExpr :=
  match it with UnnamedExpr e => e | ExprWithAlias e _ => e end.

(** The name of a column in the result. *)
Definition item_name (it : SelectItem) : string :=
  match it with
  | UnnamedExpr (Identifier n) => n
  | UnnamedExpr (CompoundIdentifier path) => default "" (last path)
  | UnnamedExpr _ => ""
  | ExprWithAlias _ a => a
  end.

Definition query_names (q : Query) : list string := let '(MkQuery items _ _ _ _ _) := q in item_name <$> items.

(** The value of a named column of a row. *)
Definition col_of (names : list string) (row : list (option Cell)) (n : string) : option Cell :=
  match list_find (fun m => m = n) names with Some (i, _) => mjoin (row !! i) | None => None end.

(** Columns of the two sides of a join. *)
Definition join_env (la ra : string) (lnames rnames : list string) (l : list (option Cell)) (r : option (list (option Cell)))
    (path : list string) : option Cell :=
  match path with
  | [a; n] =>
      if bool_decide (a = la) then col_of lnames l n
      else if bool_decide (a = ra) then r ≫= fun r => col_of rnames r n else None
  | _ => None
  end.

Definition operand_env (env : list string -> option Cell) (e : SqlExpr) : option Cell :=
  match e with
  | CompoundIdentifier path => env path
  | Identifier n => env [n]
  | _ => None
  end.

(** Conditions over the columns of a join. *)
Fixpoint eval_env (env : list string -> option Cell) (e : SqlExpr) : tv :=
  match e with
  | BinaryOp a BinAnd b => kand (eval_env env a) (eval_env env b)
  | BinaryOp a BinOr b => kor (eval_env env a) (eval_env env b)
  | BinaryOp a BinEq b => cell_eq (operand_env env a) (operand_env env b)
  | UnaryNot e => knot (eval_env env e)
  | _ => None
  end.

Definition is_true (t : tv) : bool := match t with Some true => true | _ => false end.

Definition holds (eval : SqlExpr -> tv) (s : option SqlExpr) : bool :=
  match s with Some e => is_true (eval e) | None => true end.

Section Answers.
(** The rows of the server's tables. *)
Variable db : TableRef -> list ServerRow.

(** The rows of a query without LIMIT and ORDER BY. *)
Fixpoint query_rows (q : Query) : list (list (option Cell)) :=
  match q with
  | MkQuery items from s _ _ _ =>
      match from with
      | RTable t =>
          (fun r => (fun it => operand r (item_expr it)) <$> items) <$> List.filter (fun r => holds (eval_sql r) s) (db t)
      | RJoin lq la mode rq ra on =>
          let env := join_env la ra (query_names lq) (query_names rq) in
          let rrows := query_rows rq in
          let pairs := query_rows lq ≫= fun l =>
            match mode, List.filter (fun r => is_true (eval_env (env l (Some r)) on)) rrows with
            | JLeft, [] => [(l, None)]
            | _, ms => (fun r => (l, Some r)) <$> ms
            end in
          (fun '(l, r) => (fun it => operand_env (env l r) (item_expr it)) <$> items)
            <$> List.filter (fun '(l, r) => holds (eval_env (env l r)) s) pairs
      end
  end.

(** The join of two sets of rows, on pairs of columns that must be equal. *)
Definition row_matches (lnames rnames : list string) (on : list (string * string)) (l r : list (option Cell)) : bool :=
  forallb (fun '(a, b) => is_true (cell_eq (col_of lnames l a) (col_of rnames r b))) on.

Definition join_rows (mode : JoinType) (lnames rnames : list string) (on : list (string * string))
    (lrows rrows : list (list (option Cell))) : list (list (option Cell)) :=
  lrows ≫= fun l =>
    match mode, List.filter (row_matches lnames rnames on l) rrows with
    | JLeft, [] => [l ++ replicate (length rnames) None]
    | _, ms => (fun r => l ++ r) <$> ms
    end.

(** The projection of a join. *)
Definition project_row (project : option (list nat)) (row : list (option Cell)) : list (option Cell) :=
  match project with Some project => (fun i => mjoin (row !! i)) <$> project | None => row end.

Lemma query_rows_length q row : row ∈ query_rows q -> length row = length (query_names q).
Proof.
  destruct q as [items [t|lq la mode rq ra on] s limit lock order]; cbn; rewrite length_fmap.
  - intros (r & -> & _)%list_elem_of_fmap. by rewrite length_fmap.
  - intros ([l r] & -> & _)%list_elem_of_fmap. by rewrite length_fmap.
Qed.

Lemma col_of_lookup names row i n :
  NoDup names -> names !! i = Some n -> col_of names row n = mjoin (row !! i).
Proof.
  intros Hnd Hi. unfold col_of. destruct (list_find (fun m => m = n) names) as [[j m]|] eqn:Hf.
  - apply list_find_Some in Hf as (Hj & -> & _). by rewrite (NoDup_lookup _ _ _ _ Hnd Hi Hj).
  - apply list_find_None in Hf. rewrite Forall_forall in Hf. by destruct (Hf n (list_elem_of_lookup_2 _ _ _ Hi)).
Qed.

(** The condition of a pushed-down join. *)
Lemma eval_reduce_and env e l :
  is_true (eval_env env (foldl sql_and e l)) = is_true (eval_env env e) && forallb (fun e => is_true (eval_env env e)) l.
Proof.
  revert e. induction l as [|x l IH]; intros e; cbn; [by rewrite andb_true_r|]. rewrite IH. cbn.
  rewrite andb_assoc. f_equal. by destruct (eval_env env e) as [[]|], (eval_env env x) as [[]|].
Qed.

Lemma eval_equijoin lnames rnames on c l r :
  equijoin_where on = Some c ->
  is_true (eval_env (join_env left_alias right_alias lnames rnames l (Some r)) c) = row_matches lnames rnames on l r.
Proof.
  unfold equijoin_where, row_matches, reduce_sql. destruct on as [|[a b] on]; [done|]. cbn. intros [= <-].
  rewrite eval_reduce_and. cbn. f_equal. induction on as [|[a' b'] on IH]; [done|]. cbn. by rewrite IH.
Qed.

(** The values of the columns of a join, in a row of the two sides. *)
Definition pair_row (rnames : list string) (p : list (option Cell) * option (list (option Cell))) : list (option Cell) :=
  p.1 ++ default (replicate (length rnames) None) p.2.

Lemma join_env_left lnames rnames l r i n :
  NoDup lnames -> lnames !! i = Some n -> length l = length lnames ->
  join_env left_alias right_alias lnames rnames l r [left_alias; n] = mjoin (pair_row rnames (l, r) !! i).
Proof.
  intros Hnd Hi Hl. cbn [join_env]. rewrite bool_decide_true by done. rewrite (col_of_lookup _ _ i) by done.
  unfold pair_row. cbn. rewrite lookup_app_l; [done|]. rewrite Hl. by eapply lookup_lt_Some.
Qed.

Lemma join_env_right lnames rnames l r i n :
  NoDup rnames -> rnames !! i = Some n -> length l = length lnames ->
  join_env left_alias right_alias lnames rnames l r [right_alias; n] = mjoin (pair_row rnames (l, r) !! (length lnames + i)).
Proof.
  intros Hnd Hi Hl. cbn [join_env]. rewrite bool_decide_false by done. rewrite bool_decide_true by done.
  unfold pair_row. cbn. rewrite lookup_app_r by lia. replace (length lnames + i - length l) with i by lia.
  destruct r as [r|]; cbn; [by apply col_of_lookup|].
  rewrite lookup_replicate_2; [done|]. by eapply lookup_lt_Some.
Qed.

(** A column of the join is the column at its position. *)
Lemma join_column_value (fl fr : list Field) l r i it :
  NoDup (field_name <$> fl) -> NoDup (field_name <$> fr) -> length l = length fl ->
  join_columns fl fr !! i = Some it ->
  operand_env (join_env left_alias right_alias (field_name <$> fl) (field_name <$> fr) l r) (item_expr it) =
  mjoin (pair_row (field_name <$> fr) (l, r) !! i).
Proof.
  intros Hl Hr Hlen Hi. unfold join_columns in Hi. apply lookup_app_Some in Hi as [Hi|[Hge Hi]].
  - rewrite list_lookup_fmap in Hi. destruct (fl !! i) as [f|] eqn:Hf; [|done]. injection Hi as <-. cbn [item_expr operand_env].
    rewrite (join_env_left _ _ _ _ i); [done|done|by rewrite list_lookup_fmap, Hf|by rewrite length_fmap].
  - rewrite length_fmap in Hge, Hi. rewrite list_lookup_fmap in Hi.
    destruct (fr !! (i - length fl)) as [f|] eqn:Hf; [|done]. injection Hi as <-. cbn [item_expr operand_env].
    rewrite (join_env_right _ _ _ _ (i - length fl)); [|done|by rewrite list_lookup_fmap, Hf|by rewrite length_fmap].
    rewrite length_fmap. by replace (length fl + (i - length fl)) with i by lia.
Qed.

Lemma join_items_row (fl fr : list Field) project items l r :
  NoDup (field_name <$> fl) -> NoDup (field_name <$> fr) -> length l = length fl ->
  length (default (replicate (length fr) None) r) = length fr ->
  match project with
  | Some project => result_mapM (fun i => match join_columns fl fr !! i with
                                          | Some c => Ok c | None => Err (Panic "index out of bounds") end) project = Ok items
  | None => items = join_columns fl fr
  end ->
  (fun it => operand_env (join_env left_alias right_alias (field_name <$> fl) (field_name <$> fr) l r) (item_expr it)) <$> items =
  project_row project (pair_row (field_name <$> fr) (l, r)).
Proof.
  intros Hl Hr Hlen Hrl Hp. destruct project as [project|]; cbn [project_row].
  - revert items Hp. induction project as [|i project IH]; intros items Hp; cbn in Hp; inv_ok; [done|]. cbn. f_equal; [|by apply IH].
    destruct (join_columns fl fr !! i) as [c|] eqn:Hc; [|done]. inv_ok. by apply join_column_value.
  - subst items. apply list_eq. intros i. rewrite list_lookup_fmap.
    assert (length (pair_row (field_name <$> fr) (l, r)) = length (join_columns fl fr)) as Hll.
    { unfold pair_row, join_columns. cbn. rewrite !length_app, !length_fmap. lia. }
    destruct (join_columns fl fr !! i) as [c|] eqn:Hc; cbn [fmap option_fmap option_map].
    + rewrite (join_column_value fl fr l r i c) by done.
      destruct (lookup_lt_is_Some_2 (pair_row (field_name <$> fr) (l, r)) i) as [v Hv];
        [rewrite Hll; by eapply lookup_lt_Some|by rewrite Hv].
    + symmetry. apply lookup_ge_None. rewrite Hll. by apply lookup_ge_None.
Qed.

Context {D I : Type}.
Variable execute_filter : D -> result SqlExpr.
Variable execute_interop : I -> result SqlExpr.

(** A plan whose query returns the columns of its schema. *)
Record plan_query (p : MySqlScanPlan (D := D) (I := I)) (q : Query) : Prop := {
  pq_query : to_query_inner execute_filter (scan p) = Ok q;
  pq_names : query_names q = field_name <$> project_schema p;
  pq_nodup : NoDup (query_names q)
}.

Lemma pairs_rows mode on c lq rq :
  equijoin_where on = Some c ->
  let env := join_env left_alias right_alias (query_names lq) (query_names rq) in
  pair_row (query_names rq) <$>
    (query_rows lq ≫= fun l =>
       match mode, List.filter (fun r => is_true (eval_env (env l (Some r)) c)) (query_rows rq) with
       | JLeft, [] => [(l, None)]
       | _, ms => (fun r => (l, Some r)) <$> ms
       end) =
  join_rows mode (query_names lq) (query_names rq) on (query_rows lq) (query_rows rq).
Proof.
  intros Hc env. unfold join_rows. induction (query_rows lq) as [|l rows IH]; [done|].
  change (?f (l :: rows)) with (f (l :: rows)). rewrite !bind_cons, fmap_app, IH. f_equal.
  assert (List.filter (fun r => is_true (eval_env (env l (Some r)) c)) (query_rows rq) =
    List.filter (row_matches (query_names lq) (query_names rq) on l) (query_rows rq)) as ->.
  { apply filter_ext. intros r. by apply eval_equijoin. }
  assert (forall ms : list (list (option Cell)), pair_row (query_names rq) <$> ((fun r => (l, Some r)) <$> ms) =
    (fun r => l ++ r) <$> ms) as Hms.
  { intros ms. rewrite <- list_fmap_compose. done. }
  destruct mode; try apply Hms. destruct (List.filter _ _); [done|apply Hms].
Qed.

Lemma filter_true {A} (f : A -> bool) (l : list A) : (forall x, f x = true) -> List.filter f l = l.
Proof. intros Hf. induction l as [|a l IH]; [done|]. cbn. by rewrite Hf, IH. Qed.

Lemma pairs_lengths mode env c lq rq l r :
  (l, r) ∈ (query_rows lq ≫= fun l =>
       match mode, List.filter (fun r => is_true (eval_env (env l (Some r)) c)) (query_rows rq) with
       | JLeft, [] => [(l, None)]
       | _, ms => (fun r => (l, Some r)) <$> ms
       end) ->
  length l = length (query_names lq) /\ length (default (replicate (length (query_names rq)) None) r) = length (query_names rq).
Proof.
  intros (l' & Hin & Hl)%list_elem_of_bind.
  assert (forall ms : list (list (option Cell)), (l, r) ∈ ((fun r => (l', Some r)) <$> ms) ->
    (forall x, x ∈ ms -> x ∈ query_rows rq) -> l = l' /\ exists x, r = Some x /\ x ∈ query_rows rq) as Hms.
  { intros ms (x & [= -> ->] & Hx)%list_elem_of_fmap Hsub. eauto. }
  set (ms := List.filter (fun r => is_true (eval_env (env l' (Some r)) c)) (query_rows rq)) in *.
  assert (forall x, x ∈ ms -> x ∈ query_rows rq) as Hsub.
  { intros x [Hx _]%list_elem_of_In%filter_In. by apply list_elem_of_In. }
  assert ((l, r) ∈ ((fun r => (l', Some r)) <$> ms) \/ (l, r) = (l', None)) as [Hx|Hx].
  { destruct mode; try (by left). destruct ms; [|by left]. right. by apply list_elem_of_singleton in Hin. }
  - destruct (Hms ms Hx Hsub) as (-> & x & -> & Hxr). cbn. split; by apply query_rows_length.
  - injection Hx as -> ->. cbn. rewrite length_replicate. split; [by apply query_rows_length|done].
Qed.

Lemma join_ok mode (p1 p2 : MySqlScanPlan (D := D) (I := I)) on project fields :
  supports_join_mode mode = true -> sort p1 = [] -> sort p2 = [] -> fetch p1 = None -> fetch p2 = None ->
  (lock_type p1 = lock_type p2 \/ lock_type p1 = None \/ lock_type p2 = None) ->
  (forall idx, project = Some idx -> Forall (fun i => i < length (project_schema p1) + length (project_schema p2)) idx) ->
  exists items,
    match project with
    | Some project => result_mapM (fun i => match join_columns (project_schema p1) (project_schema p2) !! i with
                                            | Some c => Ok c | None => Err (Panic "index out of bounds") end) project = Ok items
    | None => items = join_columns (project_schema p1) (project_schema p2)
    end /\
    join mode p1 p2 on project fields =
      Ok {| scan := Join left_alias (scan p1) mode right_alias (scan p2) (equijoin_where on) items;
            project_schema := fields; fetch := fetch p1; sort := sort p1;
            lock_type := match lock_type p1 with Some l => Some l | None => lock_type p2 end;
            more_filters := more_filters p1 |}.
Proof.
  intros Hm Hs1 Hs2 Hf1 Hf2 Hlock Hproj. unfold join. rewrite Hm, Hs1, Hs2, Hf1, Hf2. cbn [negb length orb].
  rewrite (bool_decide_true (0 = 0)) by done. rewrite (bool_decide_false (is_Some (@None Z))) by (by intros [? [=]]).
  cbn [negb orb].
  assert (bool_decide (is_Some (lock_type p1)) && bool_decide (is_Some (lock_type p2))
          && negb (bool_decide (lock_type p1 = lock_type p2)) = false) as ->.
  { destruct Hlock as [->|[->| ->]].
    - rewrite (bool_decide_true (lock_type p2 = lock_type p2)) by done. by rewrite andb_false_r.
    - rewrite bool_decide_false; [done|by intros [? [=]]].
    - rewrite (bool_decide_false (is_Some None)) by (by intros [? [=]]). by rewrite andb_false_r. }
  destruct project as [project|]; [|by eexists].
  assert (exists items, result_mapM (fun i => match join_columns (project_schema p1) (project_schema p2) !! i with
    | Some c => Ok c | None => Err (Panic "index out of bounds") end) project = Ok items) as [items Hi].
  { specialize (Hproj _ eq_refl). induction Hproj as [|i project Hi _ [items IH]]; cbn; [by eexists|].
    destruct (lookup_lt_is_Some_2 (join_columns (project_schema p1) (project_schema p2)) i) as [c ->].
    { unfold join_columns. by rewrite length_app, !length_fmap. }
    cbn. rewrite IH. by eexists. }
  exists items. split; [done|]. by rewrite Hi.
Qed.

Definition project_names (project : option (list nat)) (names : list string) : list string :=
  match project with Some project => (fun i => default "" (names !! i)) <$> project | None => names end.

Lemma join_items_names (fl fr : list Field) project items :
  match project with
  | Some project => result_mapM (fun i => match join_columns fl fr !! i with
                                          | Some c => Ok c | None => Err (Panic "index out of bounds") end) project = Ok items
  | None => items = join_columns fl fr
  end ->
  item_name <$> items = project_names project ((field_name <$> fl) ++ (field_name <$> fr)).
Proof.
  assert (item_name <$> join_columns fl fr = (field_name <$> fl) ++ (field_name <$> fr)) as Hall.
  { unfold join_columns. rewrite fmap_app, <- !list_fmap_compose. done. }
  destruct project as [project|]; [|intros ->; exact Hall]. cbn [project_names].
  revert items. induction project as [|i project IH]; intros items H; cbn in H; inv_ok; [done|]. cbn. f_equal; [|by apply IH].
  destruct (join_columns fl fr !! i) as [c|] eqn:Hc; [|done]. inv_ok. rewrite <- Hall, list_lookup_fmap, Hc. done.
Qed.

(** A scan that a join can be pushed into: no limit, no order and no lock. *)
Record plain_scan (p : MySqlScanPlan (D := D) (I := I)) (q : Query) : Prop := {
  ps_query : plan_query p q;
  ps_sort : sort p = [];
  ps_fetch : fetch p = None;
  ps_lock : lock_type p = None;
  ps_filters : more_filters p = []
}.

Lemma plain_scan_query p q : plain_scan p q -> scan_query execute_filter execute_interop p = Ok q.
Proof.
  intros [[Hq _ _] Hs Hf Hl Hm]. unfold scan_query, to_query. rewrite Hq, Hs, Hf, Hl, Hm. cbn.
  destruct (scan p); cbn in Hq; inv_ok; done.
Qed.

(** The plan of a join that is pushed down returns exactly the rows that the join of
    the two scans would, in the columns of its projection: for an inner join the
    matching pairs, for a left join also the left rows without a match, with NULLs
    for the right side. *)
Lemma pushed_join_rows mode (p1 p2 : MySqlScanPlan) q1 q2 on project fields :
  supports_join_mode mode = true -> on <> [] -> plain_scan p1 q1 -> plain_scan p2 q2 ->
  (forall idx, project = Some idx -> Forall (fun i => i < length (project_schema p1) + length (project_schema p2)) idx) ->
  field_name <$> fields = project_names project ((field_name <$> project_schema p1) ++ (field_name <$> project_schema p2)) ->
  NoDup (field_name <$> fields) ->
  exists p q, join mode p1 p2 on project fields = Ok p /\ plain_scan p q /\ project_schema p = fields /\
    query_rows q =
      project_row project <$> join_rows mode (query_names q1) (query_names q2) on (query_rows q1) (query_rows q2).
Proof.
  intros Hm Hon [H1 Hs1 Hf1 Hl1 Hmf1] [H2 Hs2 Hf2 Hl2 Hmf2] Hproj Hnames Hnd.
  destruct (join_ok mode p1 p2 on project fields) as (items & Hitems & Hj); try done; [by right; left|].
  assert (exists c, equijoin_where on = Some c) as [c Hc] by (destruct on as [|[a b] on]; [done|]; by eexists).
  eexists _, (MkQuery items (RJoin q1 left_alias mode q2 right_alias c) None None None []).
  split; [exact Hj|]. split; [|split; [done|]].
  - assert (query_names (MkQuery items (RJoin q1 left_alias mode q2 right_alias c) None None None []) = field_name <$> fields)
      as Hqn by (cbn [query_names]; by rewrite Hnames; apply join_items_names).
    split; cbn [sort fetch lock_type more_filters]; try done; [|by rewrite Hl1].
    split; cbn [scan project_schema]; [|done|by rewrite Hqn]. cbn [to_query_inner].
    rewrite (pq_query _ _ H1), (pq_query _ _ H2), Hc. by destruct mode.
  - cbn [query_rows holds]. rewrite <- (pairs_rows mode on c q1 q2 Hc).
    rewrite filter_true by (by intros []). rewrite <- list_fmap_compose.
    apply list_fmap_ext. intros i [l r] Hi%list_elem_of_lookup_2. cbn [compose].
    assert (length l = length (query_names q1) /\ length (default (replicate (length (query_names q2)) None) r) = length (query_names q2))
      as [Hll Hlr] by by eapply pairs_lengths.
    rewrite (pq_names _ _ H1), (pq_names _ _ H2), length_fmap in *.
    apply join_items_row; [by rewrite <- (pq_names _ _ H1); apply H1|by rewrite <- (pq_names _ _ H2); apply H2|done|done|done].
Qed.

(** ** The optimiser rule *)

Section Rule.
(** The rows of the other plans, and of the joins that DataFusion executes. *)
Variable other_rows : list Field -> list (list (list (option Cell))) -> list (list (option Cell)).
Variable hash_join : JoinType -> bool -> bool -> list (option string * option string) -> list string -> list string ->
  list (list (option Cell)) -> list (list (option Cell)) -> list (list (option Cell)).
(** An inner or left join on columns that compares with [=] and has no other condition is
    the join. *)
Hypothesis hash_join_equi : forall mode on lnames rnames lrows rrows, supports_join_mode mode = true ->
  hash_join mode false false ((fun '(l, r) => (Some l, Some r)) <$> on) lnames rnames lrows rrows =
  join_rows mode lnames rnames on lrows rrows.

Definition plan_fields (plan : ExecPlan (D := D) (I := I)) : list Field :=
  (fix go plan := match plan with
                  | PScan p => project_schema p
                  | PCoalesceBatches input => go input
                  | PHashJoin _ _ _ _ _ _ _ fields | POther _ fields => fields
                  end) plan.

Fixpoint plan_rows (plan : ExecPlan (D := D) (I := I)) : result (list (list (option Cell))) :=
  match plan with
  | PScan p => let? q := scan_query execute_filter execute_interop p in Ok (query_rows q)
  | PCoalesceBatches input => plan_rows input
  | PHashJoin lp rp mode on null_equals_null has_filter project _ =>
      let? lrows := plan_rows lp in
      let? rrows := plan_rows rp in
      Ok (project_row project <$> hash_join mode null_equals_null has_filter on (field_name <$> plan_fields lp) (field_name <$> plan_fields rp) lrows rrows)
  | POther inputs fields =>
      let? rows := (fix go l := match l with
                                | [] => Ok []
                                | p :: l => let? r := plan_rows p in let? rs := go l in Ok (r :: rs)
                                end) inputs in
      Ok (other_rows fields rows)
  end.

(** Plans whose scans are plain, and whose joins have a condition, compare with [=] and
    name each of their columns once. *)
Inductive plan_wf : ExecPlan (D := D) (I := I) -> Prop :=
  | wf_scan p q : plain_scan p q -> plan_wf (PScan p)
  | wf_coalesce p : plan_wf p -> plan_wf (PCoalesceBatches p)
  | wf_join lp rp mode on has_filter project fields :
      plan_wf lp -> plan_wf rp -> on <> [] ->
      (forall idx, project = Some idx -> Forall (fun i => i < length (plan_fields lp) + length (plan_fields rp)) idx) ->
      field_name <$> fields = project_names project ((field_name <$> plan_fields lp) ++ (field_name <$> plan_fields rp)) ->
      NoDup (field_name <$> fields) ->
      plan_wf (PHashJoin lp rp mode on false has_filter project fields)
  | wf_other inputs fields : Forall plan_wf inputs -> plan_wf (POther inputs fields).

(** What the rule keeps of a plan. *)
Record same_plan (p p' : ExecPlan (D := D) (I := I)) : Prop := {
  sp_wf : plan_wf p';
  sp_fields : plan_fields p' = plan_fields p;
  sp_rows : plan_rows p' = plan_rows p
}.

Lemma same_plan_refl p : plan_wf p -> same_plan p p.
Proof. by split. Qed.

(** The rows of the scan under a plan. *)
Lemma extract_plan_rows p s :
  plan_wf p -> extract_mysql_plan p = Some s ->
  exists q, plain_scan s q /\ plan_fields p = project_schema s /\ plan_rows p = Ok (query_rows q).
Proof.
  intros Hwf Hs. assert (exists q, plain_scan s q) as [q Hq].
  { inversion Hwf as [? q Hq|? Hin| |]; subst; cbn in Hs; try done; [injection Hs as <-; by exists q|].
    inversion Hin as [? q Hq| | |]; subst; cbn in Hs; try done. injection Hs as <-. by exists q. }
  exists q. split; [done|]. destruct p as [p|[p| | |]| |]; try done; injection Hs as ->; (split; [done|]);
    cbn; by rewrite (plain_scan_query _ _ Hq).
Qed.

Lemma mapM_columns on equijoin :
  mapM (fun '(l, r) => l ≫= fun l => r ≫= fun r => Some (l, r)) on = Some equijoin ->
  on = (fun '(l, r) => (Some l, Some r)) <$> (equijoin : list (string * string)).
Proof.
  intros H%mapM_Some. induction H as [|[l r] [l' r'] on equijoin H _ IH]; [done|]. cbn.
  destruct l, r; try done. injection H as -> ->. by rewrite IH.
Qed.

Lemma transform_plan_same p : plan_wf p -> exists p', transform_plan p = Ok p' /\ same_plan p p'.
Proof.
  intros Hwf. pose proof Hwf as Hwf0. assert (exists p', Ok p = Ok p' /\ same_plan p p') as Hsame.
  { exists p. split; [done|by apply same_plan_refl]. }
  destruct Hwf as [| |lp rp mode on has_filter project fields Hl Hr Hon Hidx Hnames Hnd|]; try exact Hsame. cbn [transform_plan].
  destruct has_filter; [exact Hsame|]. destruct (supports_join_mode mode) eqn:Hmode; [cbn [negb]|exact Hsame].
  destruct (extract_mysql_plan lp) as [ls|] eqn:Hls; [|exact Hsame]. destruct (extract_mysql_plan rp) as [rs|] eqn:Hrs; [|exact Hsame].
  destruct (mapM _ on) as [equijoin|] eqn:Hmap; [|exact Hsame]. apply mapM_columns in Hmap as ->.
  destruct (extract_plan_rows lp ls Hl Hls) as (lq & Hlq & Hlf & Hlr), (extract_plan_rows rp rs Hr Hrs) as (rq & Hrq & Hrf & Hrr).
  rewrite Hlf, Hrf in *.
  destruct (pushed_join_rows mode ls rs lq rq equijoin project fields) as (p & q & Hj & Hplain & Hfields & Hrows); try done.
  { by destruct equijoin. }
  rewrite Hj. eexists. split; [done|]. split; [by econstructor|done|].
  cbn. rewrite (plain_scan_query _ _ Hplain), Hlr, Hrr, Hlf, Hrf. cbn. rewrite Hrows, hash_join_equi by done.
  by rewrite (pq_names _ _ (ps_query _ _ Hlq)), (pq_names _ _ (ps_query _ _ Hrq)).
Qed.

Lemma exec_plan_nested_ind (P : ExecPlan (D := D) (I := I) -> Prop) :
  (forall p, P (PScan p)) -> (forall p, P p -> P (PCoalesceBatches p)) ->
  (forall lp rp mode on null_equals_null has_filter project fields, P lp -> P rp ->
     P (PHashJoin lp rp mode on null_equals_null has_filter project fields)) ->
  (forall inputs fields, Forall P inputs -> P (POther inputs fields)) -> forall p, P p.
Proof.
  intros H1 H2 H3 H4. fix IH 1. intros [p|p|lp rp mode on null_equals_null has_filter project fields|inputs fields];
    [apply H1|apply H2, IH|by apply H3; apply IH|apply H4].
  induction inputs as [|p inputs IHl]; constructor; [apply IH|apply IHl].
Qed.

(** C6: The rule that pushes joins down does not fail on plain scans and does not change
    the rows of a plan, wherever its joins are: each join that it replaces by one query
    returns the rows of the join of the two scans, in the columns of its projection
    (with NULLs for the left rows without a match when it is a left join). The joins
    compare with [=]; the others are replaced like them ([null_equality_dropped]). *)
Theorem push_down_joins_rows plan :
  plan_wf plan -> exists plan', push_down_joins plan = Ok plan' /\ plan_fields plan' = plan_fields plan /\ plan_rows plan' = plan_rows plan.
Proof.
  intros Hwf. cut (exists plan', push_down_joins plan = Ok plan' /\ same_plan plan plan').
  { intros (plan' & H & [_ Hf Hr]). by exists plan'. }
  revert Hwf. induction plan as [p|p IH|lp rp mode on ne has_filter project fields IHl IHr|inputs fields IH] using exec_plan_nested_ind;
    intros Hwf; cbn [push_down_joins].
  - by apply transform_plan_same.
  - inversion Hwf as [|? Hin| |]; subst. destruct (IH Hin) as (p' & -> & [Hw Hf Hr]). cbn [result_bind].
    eexists. split; [done|]. split; [by constructor|exact Hf|exact Hr].
  - inversion Hwf as [| |? ? ? ? ? ? ? Hl Hr Hon Hidx Hnames Hnd|]; subst.
    destruct (IHl Hl) as (lp' & -> & [Hlw Hlf Hlr]), (IHr Hr) as (rp' & -> & [Hrw Hrf Hrr]). cbn [result_bind].
    destruct (transform_plan_same (PHashJoin lp' rp' mode on false has_filter project fields)) as (p' & Hp' & [Hw Hf Hrows]).
    { constructor; rewrite ?Hlf, ?Hrf; done. }
    exists p'. split; [done|]. split; [done|by rewrite Hf|]. rewrite Hrows. cbn. by rewrite Hlr, Hrr, Hlf, Hrf.
  - inversion Hwf as [| | |? ? Hin]; subst. set (go := fix go l := match l with [] => Ok [] | p :: l => _ end) at 1.
    assert (exists inputs', go inputs = Ok inputs' /\ Forall2 same_plan inputs inputs') as (inputs' & -> & Hsame).
    { clear Hwf. induction IH as [|p inputs Hp _ IHi]; [by exists []|]. inversion Hin; subst. destruct (Hp ltac:(done)) as (p' & Hp' & Hs).
      destruct IHi as (inputs' & Hi & Hss); [done|]. exists (p' :: inputs'). split; [|by constructor]. cbn. rewrite Hp'. cbn. by rewrite Hi. }
    cbn. eexists. split; [done|]. split; [|done|].
    + constructor. induction Hsame as [|? ? ? ? [? _ _] _ IHs]; [constructor|]. inversion IH; inversion Hin; subst.
      constructor; [done|apply IHs]; [done|by constructor|done].
    + cbn. f_equal. clear Hwf IH Hin. induction Hsame as [|? ? ? ? [_ _ Hr] _ IHs]; [done|]. by rewrite Hr, IHs.
Qed.
End Rule.
End Answers.

Lemma filter_filter_ext {A} (P f g : A -> bool) l :
  (forall x, P x = true -> f x = g x) -> List.filter P (List.filter f l) = List.filter P (List.filter g l).
Proof.
  intros Hfg. induction l as [|x l IH]; [done|]. cbn. destruct (P x) eqn:HP.
  - rewrite (Hfg x HP). destruct (g x); cbn; [rewrite HP|]; by rewrite IH.
  - destruct (f x), (g x); cbn; rewrite ?HP; done.
Qed.

(** ** Filters pushed down to a scan *)

Section Pushdown.
Variable db : TableRef -> list ServerRow.
Context {D I L : Type}.
Variable execute_filter : D -> result SqlExpr.
Variable leaf_columns : L -> list nat.
Variable resolve : TableRef -> L -> result (list SqlExpr * list D).
(** The value of a leaf on a row of the table. *)
Variable leaf_value : L -> ServerRow -> tv.

Fixpoint filter_value (f : PhysicalFilter L) (r : ServerRow) : tv :=
  match f with
  | PfAnd a b => kand (filter_value a r) (filter_value b r)
  | PfOr a b => kor (filter_value a r) (filter_value b r)
  | PfLeaf l => leaf_value l r
  end.

(** What the resolver of a table promises for a leaf: every row on which the leaf is
    true satisfies all it forwards, and its dynamic filters execute. *)
Definition resolve_keeps : Prop := forall t l static dynamic,
  resolve t l = Ok (static, dynamic) ->
  exists es, result_mapM execute_filter dynamic = Ok es /\
    forall r, is_true (leaf_value l r) = true -> Forall (fun e => is_true (eval_sql r e) = true) (static ++ es).

(** No leaf of the filter is answered with a dynamic filter. *)
Fixpoint static_only (f : PhysicalFilter L) : Prop :=
  match f with
  | PfAnd a b | PfOr a b => static_only a /\ static_only b
  | PfLeaf l => forall t static dynamic, resolve t l = Ok (static, dynamic) -> dynamic = []
  end.

(** No leaf under a disjunction is. *)
Fixpoint static_under_or (f : PhysicalFilter L) : Prop :=
  match f with
  | PfAnd a b => static_under_or a /\ static_under_or b
  | PfOr a b => static_only a /\ static_only b
  | PfLeaf _ => True
  end.

(** A pushed-down condition that holds on every row of the filter. *)
Record pushed_sound (f : PhysicalFilter L) (p : FilterPushdownResult (D := D)) (es : list SqlExpr) : Prop := {
  ps_runs : result_mapM execute_filter (add_dynamic_filter p) = Ok es;
  ps_keeps : forall r, is_true (filter_value f r) = true ->
    holds (eval_sql r) (add_filter p) = true /\ Forall (fun e => is_true (eval_sql r e) = true) es
}.

Lemma is_true_kand a b : is_true (kand a b) = is_true a && is_true b.
Proof. by destruct a as [[]|], b as [[]|]. Qed.

Lemma is_true_kor a b : is_true (kor a b) = is_true a || is_true b.
Proof. by destruct a as [[]|], b as [[]|]. Qed.

Lemma combine_and_holds (a b c : FilterPushdownResult (D := D)) r :
  combine a b BinAnd = Some c ->
  holds (eval_sql r) (add_filter c) = holds (eval_sql r) (add_filter a) && holds (eval_sql r) (add_filter b).
Proof.
  unfold combine. destruct (negb _); [done|]. intros [= <-]. cbn.
  destruct (add_filter a), (add_filter b); cbn; rewrite ?andb_true_r; try done. apply is_true_kand.
Qed.

Lemma combine_dynamic (a b : FilterPushdownResult (D := D)) op c :
  combine a b op = Some c -> add_dynamic_filter c = add_dynamic_filter a ++ add_dynamic_filter b.
Proof. unfold combine. destruct (negb _); [done|]. by intros [= <-]. Qed.

(** The results of one leaf, all of them required. *)
Lemma reduce_results_all (l : list (FilterPushdownResult (D := D))) p :
  reduce_results l = Ok (Some p) ->
  add_dynamic_filter p = l ≫= add_dynamic_filter (D := D) /\
  (forall r, holds (eval_sql r) (add_filter p) = forallb (fun x => holds (eval_sql r) (add_filter x)) l).
Proof.
  unfold reduce_results. destruct l as [|a l]; [done|]. intros H. inv_ok. rename E into H.
  revert a p H. induction l as [|b l IH]; intros a p H; cbn in H; inv_ok.
  - split; [by rewrite bind_cons, app_nil_r|]. intros r. cbn. by rewrite andb_true_r.
  - match goal with Hc' : combine a b BinAnd = Some ?x |- _ => rename Hc' into Hc; rename x into c end.
    destruct (IH _ _ H) as [Hd Hh]. split.
    + rewrite Hd, !bind_cons, (combine_dynamic _ _ _ _ Hc). by rewrite app_assoc.
    + intros r. rewrite Hh. cbn. by rewrite (combine_and_holds _ _ _ _ Hc), andb_assoc.
Qed.

(** What a leaf pushes down. *)
Definition leaf_results (t : TableRef) (static : list SqlExpr) (dynamic : list D) : list FilterPushdownResult :=
  ((fun fw => {| pd_table_reference := t; add_filter := Some fw; add_dynamic_filter := [] |}) <$> static) ++
  ((fun d => {| pd_table_reference := t; add_filter := None; add_dynamic_filter := [d] |}) <$> dynamic).

Lemma leaf_results_dynamic t static dynamic : leaf_results t static dynamic ≫= add_dynamic_filter = dynamic.
Proof.
  unfold leaf_results. rewrite bind_app.
  replace (_ ≫= add_dynamic_filter) with (@nil D) by (by induction static as [|e static IH]; [|rewrite fmap_cons, bind_cons, <- IH]).
  induction dynamic as [|d dynamic IH]; [done|]. rewrite fmap_cons, bind_cons. cbn in *. by rewrite IH.
Qed.

Lemma leaf_results_holds t static dynamic r :
  forallb (fun x => holds (eval_sql r) (add_filter x)) (leaf_results t static dynamic) =
  forallb (fun e => is_true (eval_sql r e)) static.
Proof.
  unfold leaf_results. rewrite forallb_app.
  replace (forallb _ (_ <$> dynamic)) with true by (by induction dynamic as [|d dynamic IH]; [|cbn; rewrite <- IH]).
  rewrite andb_true_r. induction static as [|e static IH]; [done|]. cbn. by rewrite IH.
Qed.

Lemma leaf_pushed t l static dynamic p :
  resolve_keeps -> resolve t l = Ok (static, dynamic) -> reduce_results (leaf_results t static dynamic) = Ok (Some p) ->
  exists es, pushed_sound (PfLeaf l) p es.
Proof.
  intros Hk Hr Hp. destruct (Hk _ _ _ _ Hr) as (es & Hes & Hrow). apply reduce_results_all in Hp as [Hd Hh].
  exists es. split; [by rewrite Hd, leaf_results_dynamic|]. intros r Hv.
  destruct (Forall_app (fun e => is_true (eval_sql r e) = true) static es) as [Happ _].
  destruct (Happ (Hrow r Hv)) as [Hs He]. split; [|done]. rewrite Hh, leaf_results_holds. apply forallb_forall.
  intros e He'%list_elem_of_In. rewrite Forall_forall in Hs. by apply Hs.
Qed.

(** Without dynamic filters a leaf pushes one condition down. *)
Lemma leaf_static t static p :
  reduce_results (leaf_results t static []) = Ok (Some p) -> add_dynamic_filter p = [] /\ is_Some (add_filter p).
Proof.
  intros Hp. split; [apply reduce_results_all in Hp as [-> _]; apply leaf_results_dynamic|].
  unfold leaf_results in Hp. rewrite app_nil_r in Hp. destruct static as [|e static]; [done|]. cbn in Hp. inv_ok.
  assert (forall a, is_Some (add_filter a) -> result_foldl (fun a b : FilterPushdownResult (D := D) => ok_or (combine a b BinAnd)
    (Panic "incompatible filters returned")) a
    ((fun fw => {| pd_table_reference := t; add_filter := Some fw; add_dynamic_filter := [] |}) <$> static) = Ok p -> is_Some (add_filter p)) as Hgen.
  { clear. induction static as [|e static IH]; intros a Ha H; cbn in H; inv_ok; [done|].
    match goal with Hc' : combine a _ BinAnd = Some ?x |- _ => rename Hc' into Hc; rename x into c end. apply (IH c); [|done].
    unfold combine in Hc. destruct (negb _); [done|]. injection Hc as <-. destruct Ha as [x Hx]. cbn. by rewrite Hx. }
  eapply Hgen; [|exact E]. by eexists.
Qed.

(** ** Connectives *)

Section Leaf.
Variables (query : Select) (dynamic : list D) (t : TableRef).
Variable plan : MySqlScanPlan (D := D) (I := I).
Hypothesis plan_is : scan plan = Leaf query dynamic t.

Lemma pushdown_leaf_inv l p :
  try_handle_filter_pushdown leaf_columns resolve plan (PfLeaf l) = Ok (Some p) ->
  exists static dynamic', resolve t l = Ok (static, dynamic') /\ reduce_results (leaf_results t static dynamic') = Ok (Some p).
Proof.
  cbn. rewrite plan_is. cbn [get_table_reference]. destruct (leaf_columns l) as [|c [|]]; try done. cbn.
  destruct (resolve t l) as [[static dynamic']|[]] eqn:Hr; try done. eauto.
Qed.

Lemma pushdown_static f p :
  static_only f -> try_handle_filter_pushdown leaf_columns resolve plan f = Ok (Some p) ->
  add_dynamic_filter p = [] /\ is_Some (add_filter p).
Proof.
  revert p. induction f as [a IHa b IHb|a IHa b IHb|l]; intros p Hs Hp.
  3: { destruct (pushdown_leaf_inv _ _ Hp) as (static & dynamic' & Hr & Hred). cbn in Hs.
       rewrite (Hs _ _ _ Hr) in Hred. by eapply leaf_static. }
  all: destruct Hs as [Hsa Hsb]; cbn in Hp; inv_ok; destruct a0 as [pa|]; [|done]; inv_ok; destruct a0 as [pb|]; [|done]; inv_ok.
  all: destruct (IHa _ Hsa eq_refl) as [Hda [ea Hea]], (IHb _ Hsb eq_refl) as [Hdb [eb Heb]].
  all: unfold combine in Hp; rewrite Hea, Heb in Hp; destruct (negb _); [done|]; injection Hp as <-.
  all: cbn; rewrite Hda, Hdb; split; [done|by eexists].
Qed.

Lemma static_only_under f : static_only f -> static_under_or f.
Proof. induction f; cbn; intuition. Qed.

Lemma pushdown_sound f p :
  resolve_keeps -> static_under_or f -> try_handle_filter_pushdown leaf_columns resolve plan f = Ok (Some p) ->
  exists es, pushed_sound f p es.
Proof.
  intros Hk. revert p. induction f as [a IHa b IHb|a IHa b IHb|l]; intros p Hs Hp.
  - destruct Hs as [Hsa Hsb]. cbn in Hp. inv_ok. destruct a0 as [pa|]; [|done]. inv_ok. destruct a0 as [pb|]; [|done]. inv_ok.
    destruct (IHa _ Hsa eq_refl) as (ea & Hra & Hka), (IHb _ Hsb eq_refl) as (eb & Hrb & Hkb).
    exists (ea ++ eb). split; [by rewrite (combine_dynamic _ _ _ _ Hp), result_mapM_app, Hra, Hrb|].
    cbn [filter_value]. intros r. rewrite is_true_kand. intros [Ha Hb]%andb_true_iff.
    destruct (Hka r Ha) as [Ha1 Ha2], (Hkb r Hb) as [Hb1 Hb2].
    rewrite (combine_and_holds _ _ _ _ Hp), Ha1, Hb1. split; [done|by apply Forall_app].
  - destruct Hs as [Hsa Hsb]. cbn in Hp. inv_ok. destruct a0 as [pa|]; [|done]. inv_ok. destruct a0 as [pb|]; [|done]. inv_ok.
    destruct (pushdown_static _ _ Hsa E) as [Hda [xa Hxa]], (pushdown_static _ _ Hsb E0) as [Hdb [xb Hxb]].
    destruct (IHa _ (static_only_under _ Hsa) eq_refl) as (ea & Hra & Hka), (IHb _ (static_only_under _ Hsb) eq_refl) as (eb & Hrb & Hkb).
    exists []. split; [by rewrite (combine_dynamic _ _ _ _ Hp), Hda, Hdb|].
    unfold combine in Hp. rewrite Hxa, Hxb in Hp. destruct (negb _); [done|]. injection Hp as <-.
    cbn [filter_value add_filter holds]. intros r. rewrite Hxa in Hka. rewrite Hxb in Hkb. cbn. rewrite !is_true_kor.
    intros [Ha|Hb]%orb_true_iff; (split; [|done]); apply orb_true_iff.
    + left. apply (Hka r Ha).
    + right. apply (Hkb r Hb).
  - destruct (pushdown_leaf_inv _ _ Hp) as (static & dynamic' & Hr & Hred). by eapply leaf_pushed.
Qed.

(** The condition of the query once the filters of the plan are executed. *)
Lemma add_dynamic_holds s l es :
  result_mapM execute_filter l = Ok es ->
  exists s', add_dynamic execute_filter s l = Ok s' /\
    forall r, holds (eval_sql r) s' = holds (eval_sql r) s && forallb (fun e => is_true (eval_sql r e)) es.
Proof.
  revert s es. induction l as [|d l IH]; intros s es H; cbn in H; inv_ok.
  - exists s. split; [done|]. intros r. cbn. by rewrite andb_true_r.
  - cbn. rewrite E. cbn. destruct (IH (Some (and_opt s a)) _ eq_refl) as (s' & Hs' & Hh). exists s'. split; [done|].
    intros r. rewrite Hh. cbn. rewrite andb_assoc. f_equal. destruct s; cbn; [apply is_true_kand|done].
Qed.

(** The condition of a leaf, with the conditions and the dynamic filters that were
    pushed down to it. *)
Lemma push_to_leaf_rows f p es c q t' dynamic' ds :
  pushed_sound f p es -> push_to_component p (Leaf q dynamic' t') = Some c ->
  result_mapM execute_filter dynamic' = Ok ds ->
  exists q', c = Leaf q' (dynamic' ++ add_dynamic_filter p) t' /\
    projection q' = projection q /\ from_table q' = from_table q /\
    result_mapM execute_filter (dynamic' ++ add_dynamic_filter p) = Ok (ds ++ es) /\
    (forall r, holds (eval_sql r) (selection q') = holds (eval_sql r) (selection q) && holds (eval_sql r) (add_filter p)).
Proof.
  intros [Hr _] Hc Hds. cbn in Hc. destruct (bool_decide _); [|done]. injection Hc as <-.
  eexists. split; [done|]. split; [done|]. split; [done|].
  split; [by rewrite result_mapM_app, Hds, Hr|]. intros r. cbn.
  destruct (selection q), (add_filter p); cbn; rewrite ?andb_true_r; try done. apply is_true_kand.
Qed.

Hypothesis no_panic : forall l e, resolve t l <> Err (Panic e).

Lemma reduce_leaf_total t' l : Forall (fun r => pd_table_reference r = t') l ->
  exists r, reduce_results (D := D) l = Ok r /\ forall p, r = Some p -> pd_table_reference p = t'.
Proof.
  intros Hl. destruct Hl as [|a l Ha Hl]; [by exists None|]. cbn.
  cut (exists p, result_foldl (fun a b : FilterPushdownResult (D := D) => ok_or (combine a b BinAnd)
    (Panic "incompatible filters returned")) a l = Ok p /\ pd_table_reference p = t').
  { intros (p & -> & Hp). exists (Some p). split; [done|]. by intros ? [= <-]. }
  revert a Ha. induction Hl as [|b l Hb _ IH]; intros a Ha; cbn; [by eexists|].
  destruct (combine a b BinAnd) as [c|] eqn:Hc; unfold combine in Hc; rewrite bool_decide_true in Hc by congruence; [|done].
  injection Hc as <-. by apply IH.
Qed.

Lemma leaf_results_table t' static dynamic' : Forall (fun r => pd_table_reference r = t') (leaf_results t' static dynamic').
Proof. apply Forall_app. split; apply Forall_fmap, Forall_true; done. Qed.

(** A filter on one table is pushed down or ignored, never refused. *)
Lemma pushdown_total f :
  exists r, try_handle_filter_pushdown leaf_columns resolve plan f = Ok r /\ forall p, r = Some p -> pd_table_reference p = t.
Proof.
  assert (forall op (a b : result (option (FilterPushdownResult (D := D)))),
    (exists r, a = Ok r /\ forall p, r = Some p -> pd_table_reference p = t) ->
    (exists r, b = Ok r /\ forall p, r = Some p -> pd_table_reference p = t) ->
    exists r, (let? a := a in match a with None => Ok None | Some a =>
        let? b := b in match b with None => Ok None | Some b => Ok (combine a b op) end end) = Ok r /\
      forall p, r = Some p -> pd_table_reference p = t) as Hboth.
  { intros op a b (ra & -> & Ha) (rb & -> & Hb). cbn. destruct ra as [pa|]; [|by eexists]. cbn. destruct rb as [pb|]; [|by eexists].
    unfold combine. rewrite bool_decide_true by (rewrite (Ha pa), (Hb pb); done). cbn. eexists. split; [done|].
    intros p [= <-]. cbn. by apply Ha. }
  induction f as [a IHa b IHb|a IHa b IHb|l]; [by apply (Hboth BinAnd)|by apply (Hboth BinOr)|]. cbn. rewrite plan_is.
  cbn [get_table_reference]. destruct (leaf_columns l) as [|c [|]]; cbn; try (by eexists).
  destruct (resolve t l) as [[static dynamic']|[]] eqn:Hr; try (by eexists); [|by destruct (no_panic _ _ Hr)].
  apply (reduce_leaf_total t (leaf_results t static dynamic')), leaf_results_table.
Qed.

(** The rows that the query of a leaf returns. *)
Definition leaf_returns (q : Select) (ds : list SqlExpr) (r : ServerRow) : bool :=
  holds (eval_sql r) (selection q) && forallb (fun e => is_true (eval_sql r e)) ds.

(** A leaf that answers a set of filters as another does. *)
Definition same_answers (fs : list (PhysicalFilter L)) (ds : list SqlExpr) (c : ScanHierarchyComponent (D := D)) : Prop :=
  exists q' dynamic' ds', c = Leaf q' dynamic' t /\ projection q' = projection query /\ from_table q' = from_table query /\
    result_mapM execute_filter dynamic' = Ok ds' /\
    forall r, forallb (fun f => is_true (filter_value f r)) fs = true -> leaf_returns q' ds' r = leaf_returns query ds r.

Lemma same_answers_push fs ds c f p es :
  f ∈ fs -> pushed_sound f p es -> pd_table_reference p = t -> same_answers fs ds c ->
  exists c', push_to_component p c = Some c' /\ same_answers fs ds c'.
Proof.
  intros Hf Hp Ht (q' & dynamic' & ds' & -> & Hproj & Hfrom & Hds' & Hrows).
  destruct (push_to_component p (Leaf q' dynamic' t)) as [c'|] eqn:Hc;
    [|cbn in Hc; rewrite Ht, bool_decide_true in Hc by done; done].
  exists c'. split; [done|]. destruct (push_to_leaf_rows _ _ _ _ _ _ _ _ Hp Hc Hds') as (q'' & -> & Hq1 & Hq2 & Hrun & Hh).
  exists q'', (dynamic' ++ add_dynamic_filter p), (ds' ++ es). split; [done|]. split; [congruence|]. split; [congruence|].
  split; [done|]. intros r Hall. rewrite <- (Hrows r Hall). unfold leaf_returns. rewrite Hh, forallb_app.
  destruct (ps_keeps _ _ _ Hp r) as [-> Hes].
  { rewrite forallb_forall in Hall. apply Hall. by apply list_elem_of_In. }
  replace (forallb _ es) with true; [by rewrite !andb_true_r|].
  symmetry. apply forallb_forall. intros e He%list_elem_of_In. rewrite Forall_forall in Hes. by apply Hes.
Qed.

Lemma classify_exprs fs :
  exists local, classify leaf_columns resolve plan (ParentExpr (I := I) <$> fs) = Ok ([], local, replicate (length fs) PushedNo) /\
    Forall (fun p => exists f, f ∈ fs /\ try_handle_filter_pushdown leaf_columns resolve plan f = Ok (Some p) /\
                               pd_table_reference p = t) local.
Proof.
  induction fs as [|f fs (local & IH & Hl)]; [by exists []|]. cbn.
  destruct (pushdown_total f) as (r & Hr & Ht). rewrite Hr. cbn. rewrite IH. cbn. eexists. split; [done|].
  assert (Forall (fun p => exists f', f' ∈ f :: fs /\ try_handle_filter_pushdown leaf_columns resolve plan f' = Ok (Some p) /\
                               pd_table_reference p = t) local) as Hl'.
  { eapply Forall_impl; [exact Hl|]. intros p (f' & Hin & Hf'). exists f'. split; [by right|done]. }
  destruct r as [p|]; [|done]. constructor; [|done]. exists f. split; [left|]. split; [done|by apply Ht].
Qed.

End Leaf.
End Pushdown.

(** ** Examples *)

Definition demo_table (n : string) : TableRef := {| catalog := "def"; schema := "shop"; table := n |}.
Definition demo_column (n : string) : Field :=
  {| field_name := n; field_type := DtInt64; field_nullable := true; field_metadata := ∅ |}.

(** Two tables: users, and orders with the user that made them. *)
Definition demo_row (cells : list (string * Z)) : ServerRow := fun n => CNum <$> (list_to_map cells : gmap string Z) !! n.
Definition demo_db (t : TableRef) : list ServerRow :=
  if bool_decide (table t = "users") then [demo_row [("id", 1%Z); ("age", 30%Z)]; demo_row [("id", 2%Z); ("age", 40%Z)]]
  else [demo_row [("order", 7%Z); ("user", 1%Z)]; demo_row [("order", 8%Z); ("user", 1%Z)]].

Definition users_scan : MySqlScanPlan (D := SqlExpr) (I := SqlExpr) :=
  new_from_schema (demo_table "users") [demo_column "id"; demo_column "age"] None None [].
Definition orders_scan : MySqlScanPlan (D := SqlExpr) (I := SqlExpr) :=
  new_from_schema (demo_table "orders") [demo_column "order"; demo_column "user"] None None [].

(** The query of a scan of one table has the columns of its schema. *)
Lemma new_from_schema_query {D I} (execute_filter : D -> result SqlExpr) t columns fetch static dynamic ds :
  result_mapM execute_filter dynamic = Ok ds -> NoDup (field_name <$> columns) ->
  exists q, plan_query execute_filter (new_from_schema (I := I) t columns fetch static dynamic) q.
Proof.
  intros Hds Hnd. destruct (add_dynamic_holds execute_filter static dynamic ds Hds) as (s & Hs & _).
  assert (query_names (MkQuery ((fun f => UnnamedExpr (Identifier (field_name f))) <$> columns) (RTable t) s None None []) =
    field_name <$> columns) as Hn by (cbn; by rewrite <- list_fmap_compose).
  eexists. split; [by cbn; rewrite Hs|done|by rewrite Hn].
Qed.

Definition users_query : Query :=
  MkQuery [UnnamedExpr (Identifier "id"); UnnamedExpr (Identifier "age")] (RTable (demo_table "users")) None None None [].
Definition orders_query : Query :=
  MkQuery [UnnamedExpr (Identifier "order"); UnnamedExpr (Identifier "user")] (RTable (demo_table "orders")) None None None [].

Lemma users_plain : plain_scan Ok users_scan users_query.
Proof. split; [|reflexivity..]. split; [reflexivity|reflexivity|]. apply (bool_decide_eq_true_1 _). vm_compute. reflexivity. Qed.

Lemma orders_plain : plain_scan Ok orders_scan orders_query.
Proof. split; [|reflexivity..]. split; [reflexivity|reflexivity|]. apply (bool_decide_eq_true_1 _). vm_compute. reflexivity. Qed.

(** Every user with their orders, in a plan that is then executed by DataFusion. *)
Definition users_with_orders : ExecPlan (D := SqlExpr) (I := SqlExpr) :=
  POther [PHashJoin (PCoalesceBatches (PScan users_scan)) (PScan orders_scan) JLeft [(Some "id", Some "user")] false false
            (Some [0; 1; 2]) (demo_column <$> ["id"; "age"; "order"])] (demo_column <$> ["id"; "age"; "order"]).

Definition demo_hash_join (mode : JoinType) (_ _ : bool) (on : list (option string * option string)) :=
  fun lnames rnames => join_rows mode lnames rnames ((fun '(l, r) => (default "" l, default "" r)) <$> on).

(** The second user has no order. *)
Lemma push_down_joins_rows_witness : exists plan',
  push_down_joins users_with_orders = Ok plan' /\
  plan_rows demo_db Ok Ok (fun _ => mjoin) demo_hash_join plan' =
    Ok [[Some (CNum 1); Some (CNum 30); Some (CNum 7)]; [Some (CNum 1); Some (CNum 30); Some (CNum 8)];
        [Some (CNum 2); Some (CNum 40); None]].
Proof.
  destruct (push_down_joins_rows demo_db Ok Ok (fun _ => mjoin) demo_hash_join) with (plan := users_with_orders)
    as (plan' & Hp & _ & Hr).
  - intros mode on lnames rnames lrows rrows _. unfold demo_hash_join. rewrite <- list_fmap_compose. f_equal.
    rewrite <- (list_fmap_id on) at 2. apply list_fmap_ext. by intros i [l r].
  - unfold users_with_orders. constructor. constructor; [|constructor]. constructor.
    + constructor. econstructor. apply users_plain.
    + econstructor. apply orders_plain.
    + done.
    + intros idx [= <-]. repeat constructor; vm_compute; lia.
    + reflexivity.
    + apply (bool_decide_eq_true_1 _). vm_compute. reflexivity.
  - exists plan'. split; [exact Hp|]. rewrite Hr. vm_compute. reflexivity.
Defined.

(** Finding: the rule does not look at how the join compares NULLs: one that finds NULLs
    equal is replaced by the same query with [=] as any other. *)
Lemma null_equality_dropped {D I} (lp rp : ExecPlan (D := D) (I := I)) mode on has_filter project fields p :
  transform_plan (PHashJoin lp rp mode on false has_filter project fields) = Ok (PScan p) ->
  transform_plan (PHashJoin lp rp mode on true has_filter project fields) = Ok (PScan p).
Proof. cbn [transform_plan]. by repeat case_match. Qed.

(** Finding: the rule does not leave a join alone that cannot be pushed down because
    one side has a limit: planning the query fails. *)
Lemma join_of_limit_fails p :
  with_fetch (Some 10%Z) orders_scan = Some p ->
  push_down_joins (PHashJoin (PScan users_scan) (PScan p) JInner [(Some "id", Some "user")] false false None
    (demo_column <$> ["id"; "age"; "order"; "user"])) = Err (PlanError "Cannot join two plans when one of them has a LIMIT clause").
Proof. intros [= <-]. vm_compute. reflexivity. Qed.

(** Conditions [column = value], of which one column is answered by an index. *)
Definition demo_leaf_sql (l : string * Z) : SqlExpr := binop (Identifier l.1) (Value (Number l.2)) BinEq.
Definition demo_resolve (indexed : string) (_ : TableRef) (l : string * Z) : result (list SqlExpr * list SqlExpr) :=
  Ok (if bool_decide (l.1 = indexed) then ([], [demo_leaf_sql l]) else ([demo_leaf_sql l], [])).

Lemma demo_resolve_keeps indexed : resolve_keeps Ok (demo_resolve indexed) (fun l r => eval_sql r (demo_leaf_sql l)).
Proof.
  intros t l static dynamic. unfold demo_resolve. destruct (bool_decide _); intros [= <- <-]; eexists; (split; [reflexivity|]);
    intros r Hr; by repeat constructor.
Qed.

(** [(id = 1 OR id = 2) AND age = 30], with an index on [age]. *)
Definition demo_filter : PhysicalFilter (string * Z) :=
  PfAnd (PfOr (PfLeaf ("id", 1%Z)) (PfLeaf ("id", 2%Z))) (PfLeaf ("age", 30%Z)).


(** Finding: the index lookups of both sides of an OR are all added to the condition
    of the query: [id = 1 OR age = 40], with an index on [age], asks for the rows with
    [id = 1 AND age = 40], and the rows that only satisfy one side are lost. *)
Lemma pushed_or_loses_rows : exists plan' q',
  handle_child_pushdown_result (fun _ => [0]) (demo_resolve "age") users_scan
    [ParentExpr (PfOr (PfLeaf ("id", 1%Z)) (PfLeaf ("age", 40%Z)))] = Ok ([PushedNo], plan') /\
  scan_query Ok Ok plan' = Ok q' /\ query_rows demo_db q' = [] /\
  query_rows demo_db users_query = [[Some (CNum 1); Some (CNum 30)]; [Some (CNum 2); Some (CNum 40)]].
Proof. eexists _, _. split; [vm_compute; reflexivity|]. split; [reflexivity|]. split; vm_compute; reflexivity. Qed.

(** Finding: the table of a column of a join is found by its position among the
    columns of both sides, although the projection of the join may have moved it. A
    join that only keeps the columns of the orders has the table of its first column
    wrong. *)
Lemma join_projection_ignored : exists p,
  join JInner users_scan orders_scan [("id", "user")] (Some [2; 3]) (demo_column <$> ["order"; "user"]) = Ok p /\
  project_schema p = demo_column <$> ["order"; "user"] /\
  get_table_reference (scan p) 0 = demo_table "users".
Proof. eexists. split; [vm_compute; reflexivity|]. split; reflexivity. Qed.

(** Finding: a condition is pushed to the first scan with the name of its table. When a
    table is joined with itself, a condition on the right side restricts the left one
    and leaves the right one as it is. *)
Lemma self_join_condition_misplaced : exists p plan' q q',
  join JInner users_scan (new_from_schema (demo_table "users") [demo_column "peer"; demo_column "years"] None None [])
    [("id", "peer")] None (demo_column <$> ["id"; "age"; "peer"; "years"]) = Ok p /\
  handle_child_pushdown_result (fun l => if bool_decide (l.1 = "years") then [3] else [0]) (demo_resolve "") p
    [ParentExpr (PfLeaf ("years", 40%Z))] = Ok ([PushedNo], plan') /\
  scan_query Ok Ok p = Ok q /\ scan_query Ok Ok plan' = Ok q' /\
  match q, q' with
  | MkQuery _ (RJoin (MkQuery _ _ s _ _ _) _ _ (MkQuery _ _ r _ _ _) _ _) _ _ _ _,
    MkQuery _ (RJoin (MkQuery _ _ s' _ _ _) _ _ (MkQuery _ _ r' _ _ _) _ _) _ _ _ _ =>
      s = None /\ s' = Some (demo_leaf_sql ("years", 40%Z)) /\ r' = r
  | _, _ => False
  end.
Proof. eexists _, _, _, _. split; [vm_compute; reflexivity|]. split; [vm_compute; reflexivity|]. by vm_compute. Qed.

(** Finding: a column that is added under an alias to a join is selected by its first
    name from a side that only has it under the alias. *)
Lemma alias_lost_in_join : exists p,
  join JInner users_scan orders_scan [("id", "user")] None (demo_column <$> ["id"; "age"; "order"; "user"]) = Ok p /\
  match scan (add_select_column (demo_table "users") (demo_column "row") (Some "row_1") p) with
  | Join _ (Leaf q _ _) _ _ _ _ items =>
      last items = Some (ExprWithAlias (CompoundIdentifier ["t1"; "row"]) "row_1") /\
      item_name <$> projection q = ["id"; "age"; "row_1"]
  | _ => False
  end.
Proof.
  eexists. split; [vm_compute; reflexivity|]. vm_compute. by split.
Qed.

(** Finding: the conditions of a query are combined without parentheses. For a
    printer that writes binary operators between their operands, as
    [ast::Expr::to_string] does, [(a OR b) AND c] and [a OR (b AND c)] are sent as the
    same text. *)
Lemma conditions_without_parentheses (display : SqlExpr -> string) (op_text : BinaryOperator -> string)
    (infix : forall a op b, display (binop a b op) = display a +:+ " " +:+ op_text op +:+ " " +:+ display b) a b c :
  display (sql_and (sql_or a b) c) = display (sql_or a (sql_and b c)).
Proof. unfold sql_and, sql_or. rewrite !infix. by rewrite !string_app_assoc. Qed.
