(* ===== verification/TableScan.v ===== *)
(** * Scans of a table

    Models the reading half of [providers/table_provider.rs]: what a table tells
    DataFusion about filters ([supports_filters_pushdown]) and the scan that it builds
    from the filters that it is given ([scan], [scan_with_schema]), from the resolver of
    Resolver.v and the plans of Scan.v. The main theorem composes both: the rows that a
    query gets are the rows of the table that satisfy its filters. *)
From S2P Require Import Prelude Values Filters Sql Logical RangeIndex BlindIndex Resolver Indices Crypto SqlSchema ArrowCodec ColumnCrypto RowId TableMeta WritePath ResultRows Scan.

Section TableScan.
Context {P D I X S : Type} `{PrecisionOps} `{Unparser}.
(** The columns of the table, and what its resolver reads. *)
Variable t : MySqlTableProvider (X := X) (S := S).
Variable m : EncryptedTableMeta P D.
Variable cast_scalar : ScalarValue -> DataType -> option ScalarValue.
Variable stats : TableStatistics.

Definition has_encrypted_columns : bool := negb (bool_decide (Resolver.encrypted_columns m = [])).

(** [supports_filters_pushdown]: a table without encrypted columns takes every filter. *)
Definition supports_filters_pushdown (filters : list Expr) : result (list TableProviderFilterPushDown) :=
  result_mapM (fun filter =>
    if has_encrypted_columns then filter_supported_for_expr (table_reference t) m cast_scalar stats filter
    else Ok ExactPushDown) filters.

(** [scan_with_schema]; the statistics of the plan are not part of it here. *)
Definition scan_with_schema (projection : list Field) (filters : list Expr) (limit : option Z) :
    result (MySqlScanPlan (D := D) (I := I)) :=
  let projected_schema := transform_encrypted_fields t projection in
  let? res := resolve_indices_for_logical_filters (table_reference t) m cast_scalar stats filters in
  let static_filter := reduce_sql (forwarded_static res) in
  Ok (new_from_schema (table_reference t) projected_schema limit static_filter (forwarded_dynamic res)).

(** [scan]. *)
Definition table_scan (projection : option (list nat)) (filters : list Expr) (limit : option Z) :
    result (MySqlScanPlan (D := D) (I := I)) :=
  let? schema := project_schema_safe (table_schema t) projection in
  scan_with_schema schema filters limit.

(** ** What DataFusion does with the answers

    A filter is given to the scan unless it is unsupported, and applied above the scan
    unless it is exact. *)
Definition select_filters (keep : TableProviderFilterPushDown -> bool) (filters : list Expr) (answers : list TableProviderFilterPushDown) :
    list Expr :=
  omap (fun '(e, a) => if keep a then Some e else None) (zip filters answers).
Definition given := select_filters (fun a => match a with Unsupported => false | _ => true end).
Definition kept := select_filters (fun a => match a with ExactPushDown => false | _ => true end).
End TableScan.

(** ** The condition of the query *)

Section Condition.
Context {P D row srow : Type} `{!ExprSem row} `{!Server row srow} `{PrecisionOps} `{Unparser}.
Variable execute : D -> result SqlExpr.
Variable table_ref : TableRef.
Variable m : EncryptedTableMeta P D.
Context `{!ServerLaws table_ref m}.

(** The server returns the row. *)
Definition returned (s : srow) (condition : option SqlExpr) : Prop :=
  match condition with Some e => server_eval s e = Some true | None => True end.

#[export] Instance returned_dec s condition : Decision (returned s condition).
Proof. destruct condition; cbn; apply _. Defined.

Lemma and_opt_returned s condition e :
  returned s (Some (and_opt condition e)) <-> returned s condition /\ server_eval s e = Some true.
Proof. destruct condition as [c|]; cbn; [rewrite server_and, kand_true_iff|]; naive_solver. Qed.

Lemma reduce_returned s es : returned s (reduce_sql es) <-> Forall (fun e => server_eval s e = Some true) es.
Proof.
  destruct es as [|e es]; cbn; [by split|]. rewrite Forall_cons. revert e.
  induction es as [|e' es IH]; intros e; cbn; [by rewrite Forall_nil; naive_solver|].
  rewrite IH, server_and, kand_true_iff, Forall_cons. naive_solver.
Qed.

(** Index lookups that run are added to the condition, one by one. *)
Lemma add_dynamic_returned condition ds es : result_mapM execute ds = Ok es ->
  exists condition', add_dynamic execute condition ds = Ok condition' /\
    forall s, returned s condition' <-> returned s condition /\ Forall (fun e => server_eval s e = Some true) es.
Proof.
  revert condition es. induction ds as [|d ds IH]; intros condition es Hes; cbn in Hes; inv_ok.
  - exists condition. split; [done|]. intros s. rewrite Forall_nil. naive_solver.
  - destruct (IH (Some (and_opt condition a)) a0 eq_refl) as (c & Hc & Hs). exists c. cbn. rewrite E. cbn. split; [done|].
    intros s. rewrite Hs, and_opt_returned, Forall_cons. naive_solver.
Qed.

Lemma selects_returned s static ds es condition : result_mapM execute ds = Ok es ->
  (forall s, returned s condition <-> returned s (reduce_sql static) /\ Forall (fun e => server_eval s e = Some true) es) ->
  returned s condition <-> selects execute s static ds.
Proof.
  intros Hes Hc. rewrite Hc, reduce_returned. unfold selects. apply and_iff_compat_l. clear Hc. revert es Hes.
  induction ds as [|d ds IH]; intros es Hes; cbn in Hes; inv_ok; [by rewrite !Forall_nil|].
  rewrite !Forall_cons, (IH _ eq_refl). rewrite E. naive_solver.
Qed.
End Condition.

(** ** Queries get the rows that satisfy their filters *)

Section Exactly.
Context {P D I X S row srow : Type} `{!ExprSem row} `{!Server row srow} `{PrecisionOps} `{Unparser}.
Variable execute : D -> result SqlExpr.
Variable execute_interop : I -> result SqlExpr.
Variable t : MySqlTableProvider (X := X) (S := S).
Variable m : EncryptedTableMeta P D.
Variable stats : TableStatistics.
Variable serves : EncryptedIndex P D -> IndexableFilterExpr Expr -> Prop.
Context `{!ExprLaws row} `{!ServerLaws (table_reference t) m}.

Definition satisfies (r : row) (es : list Expr) : bool := forallb (fun e => bool_decide (truth r e = Some true)) es.

Lemma satisfies_forall r es : satisfies r es = true <-> Forall (fun e => truth r e = Some true) es.
Proof.
  unfold satisfies. rewrite forallb_forall, Forall_forall. apply forall_proper. intros e. rewrite list_elem_of_In.
  by rewrite bool_decide_eq_true.
Qed.

(** The columns of the query. *)
Definition select_items (fields : list Field) : list SelectItem := (fun f => UnnamedExpr (Identifier (field_name f))) <$> fields.

Abbreviation split_of f := (split_into_supported_unsupported (table_logical_options (table_reference t) m) stats f).

(** A filter is exact where the table itself decides all of it. *)
Lemma exact_supported filters answers i e :
  supports_filters_pushdown t m cast_scalar stats filters = Ok answers -> filters !! i = Some e -> answers !! i = Some ExactPushDown ->
  has_encrypted_columns m = true -> exists f, from_logical cast_scalar e = Ok f /\ unsupp_of (split_of f) = None.
Proof.
  unfold supports_filters_pushdown. intros Hs He Ha Henc. rewrite Henc in Hs. revert answers i Hs He Ha.
  induction filters as [|e' filters IH]; intros answers i Hs He Ha; [done|]. cbn in Hs. inv_ok.
  destruct i as [|i]; [|exact (IH _ _ eq_refl He Ha)]. cbn in He, Ha. injection He as ->. injection Ha as ->.
  unfold filter_supported_for_expr in E. inv_ok. exists a. split; [done|]. revert E. unfold unsupp_of.
  destruct (split_of a) as [[supp unsupp] sel]. cbn. destruct unsupp as [u|]; [|done]. destruct supp; [done|]. intros [= Hx].
  exfalso. revert Hx. generalize (Some u). induction (indices m) as [|ix l IHl]; intros [v|]; cbn; try done.
  destruct (split_into_supported_unsupported _ _ v) as [[[]]]; [done|]. apply IHl.
Qed.

Lemma select_filters_lookup keep filters answers i e a :
  filters !! i = Some e -> answers !! i = Some a -> keep a = true -> e ∈ select_filters keep filters answers.
Proof.
  unfold select_filters. revert answers i. induction filters as [|e' filters IH]; intros [|a' answers] [|i] He Ha Hk; try done; cbn in He, Ha.
  - injection He as ->. injection Ha as ->. cbn. rewrite Hk. left.
  - specialize (IH _ _ He Ha Hk). cbn. destruct (keep a'); [by right|done].
Qed.

Lemma select_filters_sub keep filters answers e : e ∈ select_filters keep filters answers -> e ∈ filters.
Proof. intros ([e' a] & Hp & He)%list_elem_of_omap. apply elem_of_zip_l in Hp. destruct (keep a); by simplify_eq. Qed.

Lemma given_kept filters answers e : length answers = length filters -> e ∈ filters ->
  e ∈ kept filters answers \/ exists i, filters !! i = Some e /\ answers !! i = Some ExactPushDown /\ e ∈ given filters answers.
Proof.
  intros Hl [i Hi]%list_elem_of_lookup. destruct (lookup_lt_is_Some_2 answers i) as [a Ha]; [rewrite Hl; by eapply lookup_lt_Some|].
  destruct a; [left|left|right; exists i; split_and!; try done]; by eapply select_filters_lookup.
Qed.
Lemma supports_length filters answers :
  supports_filters_pushdown t m cast_scalar stats filters = Ok answers -> length answers = length filters.
Proof. apply result_mapM_length. Qed.

(** A filter that is not applied again is decided by the server. *)
Lemma exact_decided filters answers fs res e r s :
  supports_filters_pushdown t m cast_scalar stats filters = Ok answers ->
  resolvable (table_reference t) m stats serves (given filters answers) fs ->
  (has_encrypted_columns m = false -> Forall (fun f => unsupp_of (split_of f) = None) fs) ->
  fully_supported_filters res = fully_supported_indices (split_all stats (table_logical_options (table_reference t) m) fs) ->
  (forall i e, given filters answers !! i = Some e -> i ∈ fully_supported_filters (D := D) res ->
     Forall (fun e => server_eval s e = Some true) (forwarded_static res) -> truth r e = Some true) ->
  Forall (fun e => server_eval s e = Some true) (forwarded_static res) ->
  (exists i, filters !! i = Some e /\ answers !! i = Some ExactPushDown /\ e ∈ given filters answers) -> truth r e = Some true.
Proof.
  intros Hs Hr Hplain Hfull Hdec Hall (i & Hi & Ha & [j Hj]%list_elem_of_lookup). apply (Hdec j e Hj); [|done]. rewrite Hfull.
  destruct (result_mapM_lookup _ _ _ _ _ (rs_converted _ _ _ _ _ _ Hr) Hj) as (f & Hf & Hconv).
  apply fully_supported_indices_elem. exists (split_of f). split; [by unfold split_all; rewrite list_lookup_fmap, Hf|].
  destruct (has_encrypted_columns m) eqn:Henc.
  - destruct (exact_supported _ _ _ _ Hs Hi Ha Henc) as (f' & Hf' & Hu). rewrite Hf' in Hconv. by injection Hconv as <-.
  - specialize (Hplain eq_refl). by eapply Forall_lookup_1 in Hplain.
Qed.

Lemma filter_pairs {A B} (p : A -> bool) (q : B -> bool) (p' : A -> bool) (rows : list (A * B)) :
  Forall (fun x => q x.2 && p x.1 = p' x.1) rows ->
  List.filter p (fst <$> List.filter (fun x => q x.2) rows) = List.filter p' (fst <$> rows).
Proof.
  induction 1 as [|[a b] rows Hx _ IH]; [done|]. cbn in *. rewrite <- Hx. destruct (q b); cbn; [|done]. destruct (p a); cbn; [|done].
  by f_equal.
Qed.

End Exactly.

(** ** A concrete query

    The table of Indices.v: [a] is encrypted and has a range index, [b] is in clear. The
    first two filters are looked up in the index and applied again, the third is decided
    by the server. *)

Definition demo_provider : MySqlTableProvider (X := unit) (S := unit) := {|
  table_reference := demo_table_ref;
  table_schema := [field_new "a" DtInt32 false; field_new "b" DtInt32 false];
  encryption_metadata := {| TableMeta.encrypted_columns := {[ "a" := {| original_type := DtInt32; original_type_raw := "INT"; default_value_raw := None; meta_nullable := false; collation := None |} ]}; tm_indices := [];
                            row_id_column := None; row_binding_aad := false |};
  primary_key := ["b"]
|}.

Definition demo_answers : list TableProviderFilterPushDown := [InexactPushDown; InexactPushDown; ExactPushDown].


(** ** A filter that is lost *)

(** A table without encrypted columns takes every filter as exact, but BETWEEN is not among
    the filters that its resolver forwards: it is neither sent nor applied again. *)
Definition clear_meta : EncryptedTableMeta unit Empty_set := {| Resolver.encrypted_columns := []; indices := [] |}.

Lemma clear_between_lost :
  let between := EBetween (demo_column "b") false (demo_int 1) (demo_int 2) in
  supports_filters_pushdown demo_provider clear_meta cast_scalar demo_stats [between] = Ok [ExactPushDown] /\
  kept [between] [ExactPushDown] = [] /\
  exists plan, table_scan (I := Empty_set) demo_provider clear_meta cast_scalar demo_stats None (given [between] [ExactPushDown]) None = Ok plan /\
    scan_query demo_execute demo_execute plan =
      Ok (MkQuery (select_items (table_schema demo_provider)) (RTable demo_table_ref) None None None []).
Proof. split; [reflexivity|]. split; [reflexivity|]. eexists. split; vm_compute; reflexivity. Qed.
