(* ===== verification/UpdateScan.v ===== *)
(** * Updates: the rows to change with their identifiers

    Models [update] and [delete_from] of [providers/table_provider.rs] and
    [planning/physical/transform.rs]: the scans below an UPDATE lock their rows, and where
    an index has storage of its own they fetch the hidden row identifier under the prefix
    of current values, which every projection on the way passes on. *)
From S2P Require Import Prelude Values Filters Sql Logical Crypto ArrowCodec SqlSchema TableMeta PhysicalExprs RowId WritePath Scan.

(** ** Plans below an UPDATE *)

Section Nodes.
Context {D I X S : Type}.
Variable index_type : X -> list Field -> result DataType.
Variable index_nullable : X -> list Field -> result bool.

(** Scans, projections, nodes that keep the columns of their input (partitions, sorts),
    and filters and joins, which may have a projection of their own: the positions of the
    columns that they hand on ([ProjectionPushdown] embeds the columns that a projection
    above needs). A semi join has the columns of its left side. *)
Inductive UpdateNode :=
  | NScan (p : MySqlScanPlan (D := D) (I := I))
  | NProjection (exprs : list (ProjectionExpr (X := X))) (input : UpdateNode)
  | NFilter (predicate : PhysExpr (X := X)) (projection : option (list nat)) (input : UpdateNode)
  | NKeep (kind : string) (input : UpdateNode)
  | NJoin (semi : bool) (projection : option (list nat)) (l r : UpdateNode).

(** The columns that an embedded projection hands on. *)
Definition embedded {V} (projection : option (list nat)) (columns : list V) : result (list V) :=
  match projection with
  | Some positions => result_mapM (fun i => ok_or (columns !! i) (PlanError "project index out of bounds")) positions
  | None => Ok columns
  end.

Fixpoint node_schema (n : UpdateNode) : result (list Field) :=
  match n with
  | NScan p => Ok (project_schema p)
  | NProjection exprs input => let? fields := node_schema input in projection_schema index_type index_nullable exprs fields
  | NFilter _ projection input => let? fields := node_schema input in embedded projection fields
  | NKeep _ input => node_schema input
  | NJoin semi projection l r =>
      let? fs := node_schema l in
      let? fs := if semi then Ok fs else let? gs := node_schema r in Ok (fs ++ gs) in
      embedded projection fs
  end.

(** [transform_select] with a change of the scan that does not fail. *)
Fixpoint transform_select (f : MySqlScanPlan -> MySqlScanPlan) (n : UpdateNode) : UpdateNode :=
  match n with
  | NScan p => NScan (f p)
  | NProjection exprs input => NProjection exprs (transform_select f input)
  | NFilter e projection input => NFilter e projection (transform_select f input)
  | NKeep k input => NKeep k (transform_select f input)
  | NJoin semi projection l r => NJoin semi projection (transform_select f l) (transform_select f r)
  end.

Definition transform_select_with_locking (l : LockType) (n : UpdateNode) : UpdateNode := transform_select (set_lock_type l) n.

(** The [transform_up] of [update]: scans select the identifier under the alias, and
    projections keep it. *)
Fixpoint add_row_id (t : TableRef) (field : Field) (alias : string) (n : UpdateNode) : result UpdateNode :=
  match n with
  | NScan p => Ok (NScan (add_select_column t field (Some alias) p))
  | NProjection exprs input =>
      let? input := add_row_id t field alias input in
      let? fields := node_schema input in
      let? added_column := col alias fields in
      Ok (NProjection (exprs ++ [{| pe_expr := added_column; pe_alias := alias |}]) input)
  | NFilter e projection input => let? input := add_row_id t field alias input in Ok (NFilter e projection input)
  | NKeep k input => let? input := add_row_id t field alias input in Ok (NKeep k input)
  | NJoin semi projection l r =>
      let? l := add_row_id t field alias l in
      let? r := add_row_id t field alias r in
      Ok (NJoin semi projection l r)
  end.

(** [update]: the plan to read, the projections on top of it, the schema for the sink of
    the table, and the sinks of the indices. *)
Definition update (t : MySqlTableProvider (X := X) (S := S)) (input : UpdateNode) :
    result (UpdateNode * (Plan (X := X) * list Field * list S)) :=
  let input := transform_select_with_locking LockUpdate input in
  let? input :=
    match row_id_column (encryption_metadata t) with
    | Some row_id =>
        if has_index_storage t && is_hidden row_id then
          add_row_id (table_reference t) (rowid_field row_id) (CURRENT_VALUE_PREFIX +:+ rowid_name row_id) input
        else Ok input
    | None => Ok input
    end in
  let? fields := node_schema input in
  let? projected := project_insert_update index_type index_nullable t fields true in
  Ok (input, projected).

(** ** What is added *)

Hypothesis index_type_extend : forall x fields f dt, index_type x fields = Ok dt -> index_type x (fields ++ [f]) = Ok dt.
Hypothesis index_nullable_extend : forall x fields f b, index_nullable x fields = Ok b -> index_nullable x (fields ++ [f]) = Ok b.

Lemma expr_type_extend e fields f dt : expr_type index_type e fields = Ok dt -> expr_type index_type e (fields ++ [f]) = Ok dt.
Proof.
  revert dt. induction e as [n i|e IH ty|e IH|ty b e IH|cs ty|c IHc a IHa cx|c IHc a IHa cx|cs z cx|z|x]; intros dt; cbn; try done.
  - destruct (fields !! i) eqn:Hi; [|done]. by rewrite (lookup_app_l_Some _ _ _ _ Hi).
  - destruct (expr_type _ e fields) as [p|]; cbn; [|done]. by rewrite (IH p eq_refl).
  - apply index_type_extend.
Qed.

Lemma expr_nullable_extend e fields f b : expr_nullable index_nullable e fields = Ok b -> expr_nullable index_nullable e (fields ++ [f]) = Ok b.
Proof.
  revert b. induction e as [n i|e IH ty|e IH|ty z e IH|cs ty|c IHc a IHa cx|c IHc a IHa cx|cs z cx|z|x]; intros b; cbn; auto.
  destruct (fields !! i) eqn:Hi; [|done]. by rewrite (lookup_app_l_Some _ _ _ _ Hi).
Qed.

Lemma projection_field_extend p fields f g :
  projection_field index_type index_nullable fields p = Ok g -> projection_field index_type index_nullable (fields ++ [f]) p = Ok g.
Proof.
  unfold projection_field. destruct (expr_type _ _ fields) as [dt|] eqn:Et; cbn; [|done].
  destruct (expr_nullable _ _ fields) as [b|] eqn:En; cbn; [|done].
  rewrite (expr_type_extend _ _ f _ Et), (expr_nullable_extend _ _ f _ En). cbn. intros [= <-]. do 2 f_equal.
  destruct (pe_expr p) as [n i| | | | | | | | |]; try done. cbn in *. destruct (fields !! i) eqn:Hi; [|done].
  by rewrite (lookup_app_l_Some _ _ _ _ Hi).
Qed.

(** A plan of one scan of the table whose filters hand on every column, and the names
    that its nodes have. *)
Fixpoint reads_table (t : TableRef) (n : UpdateNode) : Prop :=
  match n with
  | NScan p => exists q dynamic tr, scan p = Leaf q dynamic tr /\ has_table t (scan p) = true
  | NFilter _ (Some _) _ => False
  | NProjection _ input | NFilter _ None input | NKeep _ input => reads_table t input
  | NJoin _ _ _ _ => False
  end.

Fixpoint avoids (alias : string) (n : UpdateNode) : Prop :=
  match n with
  | NScan p => alias ∉ field_name <$> project_schema p
  | NProjection exprs input => (alias ∉ pe_alias <$> exprs) /\ avoids alias input
  | NFilter _ _ input | NKeep _ input => avoids alias input
  | NJoin _ _ l r => avoids alias l /\ avoids alias r
  end.

Lemma projection_schema_names exprs fields out :
  projection_schema index_type index_nullable exprs fields = Ok out -> field_name <$> out = pe_alias <$> exprs.
Proof.
  unfold projection_schema. revert out. induction exprs as [|e exprs IH]; intros out; cbn; [by intros [= <-]|].
  destruct (projection_field _ _ _ e) as [g|] eqn:Eg; cbn; [|done].
  destruct (result_mapM _ exprs) as [gs|]; cbn; [|done]. intros [= <-]. cbn. rewrite (IH gs eq_refl). f_equal.
  unfold projection_field in Eg. destruct (expr_type _ _ _); cbn in Eg; [|done]. destruct (expr_nullable _ _ _); cbn in Eg; [|done].
  by injection Eg as <-.
Qed.

Lemma avoids_schema t alias n fields : reads_table t n -> avoids alias n -> node_schema n = Ok fields -> alias ∉ field_name <$> fields.
Proof.
  revert fields. induction n as [p|exprs input IH|e [ps|] input IH|k input IH|semi ps l _ r _]; intros fields; cbn; intros Ht Ha Hs; try done; auto.
  - by injection Hs as <-.
  - destruct (node_schema input) as [fs|]; cbn in Hs; [|done]. rewrite (projection_schema_names _ _ _ Hs). by destruct Ha.
  - destruct (node_schema input) as [fs|]; cbn in Hs; [|done]. injection Hs as <-. by apply IH.
Qed.

Lemma col_snoc alias fields f : alias ∉ field_name <$> fields -> field_name f = alias ->
  col (X := X) alias (fields ++ [f]) = Ok (PColumn alias (length fields)).
Proof.
  intros Hn Hf. unfold col, index_of. rewrite list_find_app_r.
  - cbn. rewrite decide_True by done. done.
  - apply list_find_None, Forall_forall. intros g Hg He. apply Hn. rewrite <- He. by apply list_elem_of_fmap_2.
Qed.

Lemma projection_schema_extend exprs fields f out :
  projection_schema index_type index_nullable exprs fields = Ok out -> projection_schema index_type index_nullable exprs (fields ++ [f]) = Ok out.
Proof.
  unfold projection_schema. revert out. induction exprs as [|e exprs IH]; intros out; cbn; [done|].
  destruct (projection_field _ _ fields e) as [g|] eqn:Eg; cbn; [|done]. rewrite (projection_field_extend _ _ f _ Eg). cbn.
  destruct (result_mapM _ exprs) as [gs|] eqn:Egs; cbn; [|done]. by rewrite (IH gs eq_refl).
Qed.

Lemma projection_schema_snoc exprs e fields out g :
  projection_schema index_type index_nullable exprs fields = Ok out -> projection_field index_type index_nullable fields e = Ok g ->
  projection_schema index_type index_nullable (exprs ++ [e]) fields = Ok (out ++ [g]).
Proof.
  unfold projection_schema. revert out. induction exprs as [|a exprs IH]; intros out; cbn.
  - intros [= <-] ->. done.
  - destruct (projection_field _ _ fields a) as [x|]; cbn; [|done]. destruct (result_mapM _ exprs) as [xs|]; cbn; [|done].
    intros [= <-] He. by rewrite (IH xs eq_refl He).
Qed.

(** The scan of a plan, and the width of its rows. *)
Fixpoint node_scan (n : UpdateNode) : option MySqlScanPlan :=
  match n with
  | NScan p => Some p
  | NProjection _ input | NFilter _ _ input | NKeep _ input => node_scan input
  | NJoin _ _ _ _ => None
  end.

(** The scan that also fetches the identifier, and locks what it reads. *)
Definition fetches_row_id (t : TableRef) (field : Field) (alias : string) (p p' : MySqlScanPlan (D := D) (I := I)) : Prop :=
  exists q dynamic tr,
    scan p = Leaf q dynamic tr /\
    scan p' = Leaf {| projection := projection q ++ [ExprWithAlias (Identifier (field_name field)) alias];
                      from_table := from_table q; selection := selection q |} dynamic tr /\
    lock_type p' = Some LockUpdate /\ project_schema p' = project_schema p ++ [with_name alias field] /\
    fetch p' = fetch p /\ sort p' = sort p /\ more_filters p' = more_filters p.

Lemma scan_fetches t field alias p :
  reads_table t (NScan p) -> fetches_row_id t field alias p (add_select_column t field (Some alias) (set_lock_type LockUpdate p)).
Proof.
  intros (q & dynamic & tr & Hq & Ht). exists q, dynamic, tr. split; [done|]. unfold add_select_column. cbn [scan set_lock_type].
  rewrite Hq in Ht |- *. cbn [component_add_select_column]. rewrite Ht. cbn. split_and!; try done.
  do 2 f_equal. destruct (_ && _); done.
Qed.

(** ** The rows *)

Section Rows.
Context {V : Type}.
(** Expressions on rows: columns by position, and nothing else of the row. *)
Variable eval : PhysExpr (X := X) -> list V -> option V.
Variable truth : V -> bool.
Hypothesis eval_column : forall n i r, eval (PColumn n i) r = r !! i.
Hypothesis eval_extend : forall e r v x, eval e r = Some v -> eval e (r ++ [x]) = Some v.

(** A row of the scan on its way up: [Some None] when a filter drops it. *)
Fixpoint step_row (n : UpdateNode) (r : list V) : option (option (list V)) :=
  match n with
  | NScan _ => Some (Some r)
  | NProjection exprs input =>
      step_row input r ≫= fun o =>
      match o with
      | Some r => Some <$> mapM (fun e => eval (pe_expr e) r) exprs
      | None => Some None
      end
  | NFilter e projection input =>
      step_row input r ≫= fun o =>
      match o with
      | Some r =>
          eval e r ≫= fun v =>
          if truth v then match embedded projection r with Ok r => Some (Some r) | Err _ => None end else Some None
      | None => Some None
      end
  | NKeep _ input => step_row input r
  | NJoin _ _ _ _ => None
  end.

Definition width (n : UpdateNode) : nat := match node_scan n with Some p => length (project_schema p) | None => 0 end.

Lemma embedded_length {A B} ps (l : list A) (k : list B) l' k' :
  length k = length l -> embedded ps l = Ok l' -> embedded ps k = Ok k' -> length k' = length l'.
Proof.
  destruct ps as [ps|]; cbn; [intros _|by intros Hl [= <-] [= <-]].
  intros Hl%result_mapM_length Hk%result_mapM_length. congruence.
Qed.

Lemma step_row_length n fields r o :
  node_schema n = Ok fields -> length r = width n -> step_row n r = Some (Some o) -> length o = length fields.
Proof.
  unfold width. revert fields o. induction n as [p|exprs input IH|e ps input IH|k input IH|semi ps l _ rr _]; intros fields o; cbn; intros Hs Hr Ho.
  - injection Hs as <-. by injection Ho as <-.
  - destruct (node_schema input) as [fs|]; cbn in Hs; [|done]. apply bind_Some in Ho as ([r'|] & _ & Ho); [|done].
    apply fmap_Some in Ho as (x & Hx & [= <-]). apply length_mapM in Hx. rewrite <- Hx.
    apply projection_schema_names in Hs. by rewrite <- (length_fmap field_name fields), Hs, length_fmap.
  - destruct (node_schema input) as [fs|]; cbn in Hs; [|done].
    apply bind_Some in Ho as ([r'|] & Hr' & Ho); [|done]. apply bind_Some in Ho as (v & _ & Ho). destruct (truth v); [|done].
    destruct (embedded ps r') as [x|] eqn:Hx; [|done]. injection Ho as <-. specialize (IH fs r' eq_refl Hr Hr').
    by apply (embedded_length ps fs r').
  - by eapply IH.
  - done.
Qed.

Lemma mapM_extend exprs r x o : mapM (fun e => eval (pe_expr e) r) exprs = Some o -> mapM (fun e => eval (pe_expr e) (r ++ [x])) exprs = Some o.
Proof.
  intros Ho%mapM_Some. apply mapM_Some. eapply Forall2_impl; [exact Ho|]. cbn. auto.
Qed.

Lemma mapM_snoc {A B} (f : A -> option B) l a o b : mapM f l = Some o -> f a = Some b -> mapM f (l ++ [a]) = Some (o ++ [b]).
Proof. intros Hl Ha. apply mapM_Some. apply mapM_Some in Hl. apply Forall2_app; [done|]. by repeat constructor. Qed.

Lemma add_row_id_rows t field alias n fields :
  reads_table t n -> avoids alias n -> node_schema n = Ok fields ->
  exists n', add_row_id t field alias (transform_select_with_locking LockUpdate n) = Ok n' /\
    node_schema n' = Ok (fields ++ [with_name alias field]) /\
    (exists p p', node_scan n = Some p /\ node_scan n' = Some p' /\ fetches_row_id t field alias p p') /\
    forall r id o, length r = width n -> step_row n r = Some o -> step_row n' (r ++ [id]) = Some ((fun o => o ++ [id]) <$> o).
Proof.
  unfold transform_select_with_locking, width. revert fields.
  induction n as [p|exprs input IH|e [ps|] input IH|k input IH|semi ps l _ rr _]; intros fields Ht Ha Hs; cbn [transform_select add_row_id].
  - pose proof (scan_fetches t field alias p Ht) as Hf. eexists. split; [done|]. cbn in Hs. injection Hs as <-. split_and!.
    + cbn. by destruct Hf as (q & dynamic & tr & _ & _ & _ & -> & _).
    + by eexists _, _.
    + intros r id o _ [= <-]. done.
  - cbn in Ht, Ha, Hs. destruct Ha as [Ha Hai]. destruct (node_schema input) as [fs|] eqn:Ef; cbn in Hs; [|done].
    destruct (IH fs Ht Hai eq_refl) as (n' & Hn' & Hsn & Hscan & Hrows). rewrite Hn'. cbn [result_bind]. rewrite Hsn. cbn [result_bind].
    pose proof (avoids_schema t alias input fs Ht Hai Ef) as Hfs. rewrite (col_snoc alias fs (with_name alias field) Hfs eq_refl). cbn [result_bind].
    eexists. split; [done|]. split_and!; [|exact Hscan|].
    + cbn [node_schema]. rewrite Hsn. cbn [result_bind].
      apply projection_schema_snoc; [by apply projection_schema_extend|].
      unfold projection_field. cbn. by rewrite list_lookup_middle.
    + intros r id o Hr Ho. cbn in Ho |- *. apply bind_Some in Ho as (o' & Ho' & Ho). rewrite (Hrows r id o' Hr Ho'). cbn.
      destruct o' as [r'|]; cbn; [|by injection Ho as <-]. apply fmap_Some in Ho as (x & Hx & ->). cbn.
      rewrite (mapM_snoc _ _ _ x id (mapM_extend _ _ id _ Hx)); [done|]. cbn. rewrite eval_column.
      apply list_lookup_middle. symmetry. by eapply step_row_length.
  - done.
  - cbn in Ht, Ha, Hs. destruct (node_schema input) as [fs|]; cbn in Hs; [|done]. injection Hs as <-.
    destruct (IH fs Ht Ha eq_refl) as (n' & Hn' & Hsn & Hscan & Hrows). rewrite Hn'. cbn [result_bind].
    eexists. split; [done|]. split_and!; [cbn; by rewrite Hsn|done|]. intros r id o Hr Ho. cbn in Ho |- *. apply bind_Some in Ho as (o' & Ho' & Ho).
    rewrite (Hrows r id o' Hr Ho'). cbn. destruct o' as [r'|]; cbn; [|by injection Ho as <-].
    apply bind_Some in Ho as (v & Hv & Ho). rewrite (eval_extend _ _ _ id Hv). cbn in *. by destruct (truth v); injection Ho as <-.
  - cbn in Ht, Ha, Hs. destruct (IH fields Ht Ha Hs) as (n' & Hn' & Hsn & Hscan & Hrows). rewrite Hn'. cbn [result_bind].
    eexists. split; [done|]. by split_and!.
  - done.
Qed.

(** C28: the rows of an UPDATE come with the identifier that they have in the indices: where
    an index has storage of its own and the identifier is hidden, the plan of an UPDATE of
    one table whose filters hand on all their columns ([reads_table]) locks what it reads,
    its query also selects the identifier under the alias of current values, the projection
    for the sinks starts from the old columns and this one, and every row reaches it with
    its values as before and the identifier of the same row at its end. A filter into which
    the optimizer embedded a projection drops the identifier, and the UPDATE fails
    ([embedded_projection_fails]). *)
Theorem update_reads_row_ids (t : MySqlTableProvider (X := X) (S := S)) row_id n fields :
  row_id_column (encryption_metadata t) = Some row_id -> is_hidden row_id = true -> has_index_storage t = true ->
  let alias := CURRENT_VALUE_PREFIX +:+ rowid_name row_id in
  reads_table (table_reference t) n -> avoids alias n -> node_schema n = Ok fields ->
  exists n',
    update t n = (let? projected := project_insert_update index_type index_nullable t (fields ++ [with_name alias (rowid_field row_id)]) true in
                  Ok (n', projected)) /\
    (exists p p', node_scan n = Some p /\ node_scan n' = Some p' /\ fetches_row_id (table_reference t) (rowid_field row_id) alias p p') /\
    forall r id o, length r = width n -> step_row n r = Some o -> step_row n' (r ++ [id]) = Some ((fun o => o ++ [id]) <$> o).
Proof.
  intros Hid Hh Hst alias Ht Ha Hs. destruct (add_row_id_rows _ (rowid_field row_id) alias n fields Ht Ha Hs) as (n' & Hn' & Hsn & Hscan & Hrows).
  exists n'. split; [|by split]. unfold update. rewrite Hid, Hst, Hh. cbn [andb]. fold alias. rewrite Hn'. cbn [result_bind]. by rewrite Hsn.
Qed.
End Rows.
End Nodes.

(** ** Scans of other tables, and joins *)

(** The scan of another table, as for a subquery of the condition, gets the column in its
    schema and not in its query, so that the rows of the answer are one value short. *)
Lemma other_scan_schema_grows {D I} t field alias (p : MySqlScanPlan (D := D) (I := I)) :
  has_table t (scan p) = false ->
  scan (add_select_column t field (Some alias) p) = scan p /\
  length (project_schema (add_select_column t field (Some alias) p)) = length (project_schema p) + 1.
Proof.
  intros Ht. unfold add_select_column.
  assert (component_add_select_column t (field_name field) (Some alias) (scan p) = (scan p, None)) as ->.
  { destruct (scan p); cbn [component_add_select_column]; by rewrite Ht. }
  cbn. split; [done|]. by rewrite length_app.
Qed.

(** ** A concrete update *)

Definition demo_ref : TableRef := {| catalog := "def"; schema := "shop"; table := "customers" |}.
Definition other_ref : TableRef := {| catalog := "def"; schema := "shop"; table := "orders" |}.
Definition demo_scan (t : TableRef) : MySqlScanPlan (D := unit) (I := unit) :=
  new_from_schema t [field_new "id" DtInt32 false; field_new "notes" DtUtf8 true] None None [].

Definition demo_update : UpdateNode (X := unit) (D := unit) (I := unit) :=
  NProjection [{| pe_expr := PColumn "notes" 1; pe_alias := "notes" |}; {| pe_expr := PColumn "id" 0; pe_alias := "__pr_flt__id" |}]
    (NFilter (PColumn "id" 0) None (NScan (demo_scan demo_ref))).

Definition no_index_type (x : unit) (fields : list Field) : result DataType := Ok DtBoolean.
Definition no_index_nullable (x : unit) (fields : list Field) : result bool := Ok false.

Definition demo_storage_index : WriteIndex (X := unit) (S := unit) :=
  {| tracked_columns := ["notes"]; wi_insert _ := Ok (IndexSink [] tt); wi_update _ := Ok (IndexSink [] tt);
     requires_external_storage := true; wi_column_hidden _ := false |}.

Definition demo_updated : MySqlTableProvider (X := unit) (S := unit) :=
  {| table_reference := demo_ref; table_schema := [field_new "id" DtInt32 false; field_new "notes" DtUtf8 true];
     encryption_metadata := {| encrypted_columns := ∅; tm_indices := [demo_storage_index]; row_id_column := Some rowid_random.1;
                               row_binding_aad := false |};
     primary_key := ["id"] |}.

Definition demo_eval (e : PhysExpr (X := unit)) (r : list nat) : option nat := match e with PColumn _ i => r !! i | _ => None end.

Lemma demo_eval_extend e r v x : demo_eval e r = Some v -> demo_eval e (r ++ [x]) = Some v.
Proof. destruct e; try done. cbn. apply lookup_app_l_Some. Qed.

(** The row (7, 5) with the identifier 99. *)
Lemma update_reads_row_ids_witness :
  exists n', result_map fst (update no_index_type no_index_nullable demo_updated demo_update) = Ok n' /\
    step_row demo_eval (fun v => bool_decide (v = 7)) n' [7; 5; 99] = Some (Some [5; 7; 99]) /\
    step_row demo_eval (fun v => bool_decide (v = 7)) n' [8; 5; 99] = Some None.
Proof.
  destruct (update_reads_row_ids (D := unit) (I := unit) no_index_type no_index_nullable ltac:(done) ltac:(done)
              demo_eval (fun v => bool_decide (v = 7)) ltac:(done) demo_eval_extend demo_updated rowid_random.1 demo_update
              [field_new "notes" DtUtf8 true; field_new "__pr_flt__id" DtInt32 false])
    as (n' & Hu & _ & Hrows).
  - reflexivity.
  - reflexivity.
  - reflexivity.
  - eexists _, _, _. split; [reflexivity|]. vm_compute. reflexivity.
  - split; apply (proj1 (bool_decide_eq_true _)); vm_compute; reflexivity.
  - reflexivity.
  - exists n'. split_and!.
    + rewrite Hu. destruct (project_insert_update _ _ _ _ _) as [x|e] eqn:E; [reflexivity|]. vm_compute in E. discriminate E.
    + exact (Hrows [7; 5] 99 (Some [5; 7]) eq_refl eq_refl).
    + exact (Hrows [8; 5] 99 None eq_refl eq_refl).
Defined.

(** Finding: a filter with an embedded projection hands on the columns that the projection
    above it needed before, so the identifier that the scan now selects is dropped, the
    projection does not find it and the UPDATE fails. Here the condition reads a column
    that the update does not need, and the optimizer leaves it out. *)
Definition demo_pruned : UpdateNode (X := unit) (D := unit) (I := unit) :=
  NProjection [{| pe_expr := PColumn "id" 0; pe_alias := "__pr_flt__id" |}]
    (NFilter (PColumn "notes" 1) (Some [0]) (NScan (demo_scan demo_ref))).

Lemma embedded_projection_fails :
  (exists f, node_schema no_index_type no_index_nullable demo_pruned = Ok [f]) /\
  exists e, update no_index_type no_index_nullable demo_updated demo_pruned = Err e.
Proof. split; eexists; vm_compute; reflexivity. Qed.

(** A second table of the query. *)
Lemma subquery_scan_too_wide :
  scan (add_select_column demo_ref (rowid_field rowid_random.1) (Some "id2") (demo_scan other_ref)) = scan (demo_scan other_ref) /\
  length (project_schema (add_select_column demo_ref (rowid_field rowid_random.1) (Some "id2") (demo_scan other_ref))) = 3.
Proof. split; [by apply other_scan_schema_grows|by vm_compute]. Qed.
