(* ===== verification/Udf.v ===== *)
(** * SQL functions

    Models [backends/mysql/src/udf]: [IF], [SUBSTR] and [LENGTH] on binary values,
    [~], and the aggregate [GROUP_CONCAT]. Strings are byte strings. *)
From S2P Require Import Prelude Values SqlSchema ArrowCodec PhysicalExprs.

(** ** IF ([func_if.rs]) *)

Section If.
(** DataFusion's casts ([safe] turns values that cannot be cast into NULLs), and the
    type of an array that is built from values for an array type of Rust, which does
    not know the parameters of a decimal or the time zone of a timestamp. *)
Variable cast : bool -> DataType -> PVal -> result PVal.
Variable from_iter_type : DataType -> DataType.

Definition is_floating (dt : DataType) : bool :=
  match dt with DtFloat16 | DtFloat32 | DtFloat64 => true | _ => false end.

Definition is_integer (dt : DataType) : bool :=
  match dt with
  | DtInt8 | DtInt16 | DtInt32 | DtInt64 | DtUInt8 | DtUInt16 | DtUInt32 | DtUInt64 => true
  | _ => false
  end.

Definition if_return_type (arg_types : list DataType) : result DataType :=
  match arg_types with
  | [_; then_; else_] =>
      if bool_decide (then_ = DtNull) then Ok else_
      else if bool_decide (else_ = DtNull) then Ok then_
      else if bool_decide (then_ = DtUtf8) || bool_decide (else_ = DtUtf8) then Ok DtUtf8
      else if is_floating then_ || is_floating else_ then Ok DtFloat64
      else if is_integer then_ || is_integer else_ then Ok DtInt64
      else Err (PlanError "could not determine return type for function if")
  | _ => Err (PlanError "invalid call to function: if")
  end.

Definition if_return_field (args : list Field) : result Field :=
  match args with
  | [iff; then_; else_] =>
      let? return_type := if_return_type [field_type iff; field_type then_; field_type else_] in
      Ok {| field_name := "if"; field_type := return_type;
            field_nullable := field_nullable then_ || field_nullable else_; field_metadata := ∅ |}
  | _ => Err (PlanError "invalid call to function: if")
  end.

(** The array type of Rust that a return type is handled with. *)
Definition if_array_type (return_type : DataType) : option DataType :=
  match return_type with
  | DtBoolean | DtInt8 | DtInt16 | DtInt32 | DtInt64 | DtUInt8 | DtUInt16 | DtUInt32 | DtUInt64
  | DtFloat16 | DtFloat32 | DtFloat64 | DtDate32 | DtDate64 | DtBinary | DtLargeBinary | DtBinaryView
  | DtUtf8 | DtLargeUtf8 | DtUtf8View | DtDecimal32 _ _ | DtDecimal64 _ _ | DtDecimal128 _ _ | DtDecimal256 _ _
  | DtDuration _ | DtInterval _ | DtTimestamp _ _ => Some return_type
  | DtTime32 u | DtTime64 u =>
      Some match u with Second | Millisecond => DtTime32 u | Microsecond | Nanosecond => DtTime64 u end
  | _ => None
  end.

(** [impl_if_for_array_type!]: the downcast only looks at the array type of Rust, not
    at the parameters of the data type. *)
Definition impl_if_for_array_type (iff : list (option bool)) (arr1 arr2 : Array) (arr_type : DataType) : result PVal :=
  let downcast a := bool_decide (from_iter_type (data_type a) = from_iter_type arr_type) in
  if negb (downcast arr1) || negb (downcast arr2) then Err (ExecError "failed to downcast array!")
  else
    Ok (PArray {| data_type := from_iter_type arr_type;
                  values := zip_with (fun c '(t, e) => if bool_decide (c = Some true) then t else e) iff
                              (zip (values arr1) (values arr2)) |}).

(** [as_boolean]. *)
Definition as_boolean (v : option ArrowValue) : result (option bool) :=
  match v with
  | None => Ok None
  | Some (VBool b) => Ok (Some b)
  | Some _ => Err (Panic "boolean array")
  end.

Definition if_invoke (args : list PVal) (return_field : Field) : result PVal :=
  match args with
  | [iff; then_; else_] =>
      let? boolean_arg := cast true DtBoolean iff in
      let return_type := field_type return_field in
      match boolean_arg with
      | PScalar DtBoolean v =>
          let? b := as_boolean v in
          cast false return_type (if bool_decide (b = Some true) then then_ else else_)
      | PScalar _ _ => Err (ExecError "unreachable: casting iff value failed")
      | PArray arr =>
          if bool_decide (return_type = DtNull) then Ok (PScalar DtNull None)
          else
            let? bools := result_mapM as_boolean (values arr) in
            let num_values := length bools in
            let? out_arr_1 := cast (field_nullable return_field) return_type then_ in
            let? out_arr_2 := cast (field_nullable return_field) return_type else_ in
            match if_array_type return_type with
            | Some t => impl_if_for_array_type bools (into_array num_values out_arr_1) (into_array num_values out_arr_2) t
            | None => Err (NotImplemented "not implemented: if")
            end
      end
  | _ => Err (Panic "index out of bounds")
  end.

(** The reference: the value of each row. *)
Definition if_row (c : option ArrowValue) (t e : option ArrowValue) : option ArrowValue :=
  if bool_decide (c = Some (VBool true)) then t else e.

Lemma as_boolean_rows vs bs t e :
  result_mapM as_boolean vs = Ok bs ->
  zip_with (fun c '(t, e) => if bool_decide (c = Some true) then t else e) bs (zip t e) =
  zip_with (fun c '(t, e) => if_row c t e) vs (zip t e).
Proof.
  revert bs t e. induction vs as [|v vs IH]; intros bs t e H; cbn in H; inv_ok; [done|].
  destruct t as [|x t], e as [|y e]; try done. cbn. f_equal; [|by apply IH].
  unfold if_row. destruct v as [[]|]; inv_ok; try done; cbn in *; inv_ok; try done. by destruct b.
Qed.
End If.

(** ** Bytes of SUBSTR and LENGTH ([substr.rs], [length.rs]) *)

Definition should_handle (dt : DataType) : bool :=
  match dt with DtBinary | DtLargeBinary | DtBinaryView => true | _ => false end.

(** [v as usize] of a 64-bit count, with wrap-around. *)
Definition as_usize (z : Z) : Z := wrap_u 64 z.

(** One value of [substr_func_for!]. [array.len() - 1] wraps on an empty value, and a
    slice that starts after the end panics. *)
Definition substr_bytes (value : bytes) (start : option Z) (count : option Z) : result bytes :=
  let len := Z.of_nat (length value) in
  let start := default 0%Z start in
  let start :=
    if (0 <? start)%Z then as_usize start
    else let back := as_usize (- start) in if (back <=? len)%Z then (len - back)%Z else len in
  let? array :=
    if (start <? wrap_u 64 (len - 1))%Z then
      if (start + 1 <=? len)%Z then Ok (drop (Z.to_nat (start + 1)) value) else Err (Panic "range start index out of range")
    else Ok [] in
  Ok match as_usize <$> count with
     | Some count => if (count <? Z.of_nat (length array))%Z then take (Z.to_nat count) array else array
     | None => array
     end.

Definition as_int64 (v : option ArrowValue) : result (option Z) :=
  match v with
  | None => Ok None
  | Some (VPrim z) => Ok (Some z)
  | Some _ => Err (Panic "primitive array")
  end.

Definition substr_value (v : option ArrowValue) (start count : option Z) : result (option ArrowValue) :=
  match v with
  | None => Ok None
  | Some v => let? bs := as_binary v in let? bs := substr_bytes bs start count in Ok (Some (VBytes bs))
  end.

(** [zip]: stops at the shortest. *)
Fixpoint substr_rows (vs : list (option ArrowValue)) (starts counts : list (option Z)) : result (list (option ArrowValue)) :=
  match vs, starts, counts with
  | v :: vs, s :: starts, c :: counts =>
      let? v := substr_value v s c in let? vs := substr_rows vs starts counts in Ok (v :: vs)
  | _, _, _ => Ok []
  end.

Definition substr_func (args : list Array) : result Array :=
  match args with
  | array :: start :: rest =>
      if bool_decide (data_type start = DtInt64) then
        let? starts := result_mapM as_int64 (values start) in
        let? counts := match rest with
                       | [count] => if bool_decide (data_type count = DtInt64) then result_mapM as_int64 (values count)
                                    else Err (Panic "primitive array")
                       | _ => Ok (replicate (length (values array)) None)
                       end in
        if should_handle (data_type array) then
          let? vs := substr_rows (values array) starts counts in Ok {| data_type := data_type array; values := vs |}
        else Err (Panic "invalid type for substr_func")
      else Err (Panic "primitive array")
  | _ => Err (Panic "index out of bounds")
  end.

(** [array.len() as i32] and [as i64]. *)
Definition length_value (w : Z) (v : option ArrowValue) : result (option ArrowValue) :=
  match v with
  | None => Ok None
  | Some v => let? bs := as_binary v in Ok (Some (VPrim (wrap_s w (Z.of_nat (length bs)))))
  end.

Definition length_funct (args : list Array) : result Array :=
  match args with
  | array :: _ =>
      match data_type array with
      | DtBinary | DtBinaryView => let? vs := result_mapM (length_value 32) (values array) in Ok {| data_type := DtInt32; values := vs |}
      | DtLargeBinary => let? vs := result_mapM (length_value 64) (values array) in Ok {| data_type := DtInt64; values := vs |}
      | _ => Err (Panic "invalid type for length_funct")
      end
  | [] => Err (Panic "index out of bounds")
  end.

Definition length_return_type (native_return_type : list DataType -> result DataType) (arg_types : list DataType) : result DataType :=
  match arg_types with
  | [] => Err (PlanError "invalid call to function LENGTH, requires one argument")
  | arg :: _ =>
      if should_handle arg then Ok (if bool_decide (arg = DtLargeBinary) then DtInt64 else DtInt32)
      else native_return_type arg_types
  end.

Definition substr_return_type (native_return_type : list DataType -> result DataType) (arg_types : list DataType) : result DataType :=
  match arg_types with
  | [] => Err (PlanError "invalid call to function SUBSTR, requires three arguments")
  | arg :: _ => if should_handle arg then Ok arg else native_return_type arg_types
  end.

(** ** [~] ([bitwise_not.rs]) *)

(** Width and signedness of the integers. *)
Definition int_type (dt : DataType) : option (Z * bool) :=
  match dt with
  | DtInt8 => Some (8%Z, true) | DtInt16 => Some (16%Z, true) | DtInt32 => Some (32%Z, true) | DtInt64 => Some (64%Z, true)
  | DtUInt8 => Some (8%Z, false) | DtUInt16 => Some (16%Z, false) | DtUInt32 => Some (32%Z, false) | DtUInt64 => Some (64%Z, false)
  | _ => None
  end.

(** [Not::not]. *)
Definition int_not (w : Z) (signed : bool) (z : Z) : Z := if signed then Z.lnot z else wrap_u w (Z.lnot z).

Definition byte_not (b : byte) : byte :=
  default Byte.x00 (Byte.of_N (255 - Byte.to_N b)).

Definition not_value (dt : DataType) (v : ArrowValue) : result ArrowValue :=
  match int_type dt, v with
  | Some (w, signed), VPrim z => Ok (VPrim (int_not w signed z))
  | None, VBytes bs => Ok (VBytes (byte_not <$> bs))
  | _, _ => Err (Panic "array of another type")
  end.

Definition bitwise_not_invoke (arg : PVal) : result PVal :=
  let dt := pval_type arg in
  if bool_decide (is_Some (int_type dt)) || bool_decide (dt = DtBinary) then
    match arg with
    | PScalar _ v => let? vs := map_slots (not_value dt) [v] in Ok (PScalar dt (default None (head vs)))
    | PArray a => let? vs := map_slots (not_value dt) (values a) in Ok (PArray {| data_type := dt; values := vs |})
    end
  else Err (ExecError "Unsupported datatype").

(** ** GROUP_CONCAT ([group_concat.rs]) *)

(** A column of the arguments: the struct with the separator, when it has one (its
    values), or an array of strings. *)
Inductive GroupArg :=
  | GOptions (separator : option (list (option string)))
  | GArray (data_type : DataType) (values : list (option string)).

Record GroupConcatAccumulator := { num_args : nat; string_accumulator : option string }.

Definition is_options (a : GroupArg) : bool := match a with GOptions _ => true | GArray _ _ => false end.
Definition arg_values (a : GroupArg) : list (option string) := match a with GOptions _ => [] | GArray _ vs => vs end.

(** [find_map]: the first struct that has the field. *)
Fixpoint find_separator (l : list GroupArg) : option string :=
  match l with
  | GOptions (Some sep) :: _ => Some (match sep with Some s :: _ => s | _ => "" end)
  | _ :: l => find_separator l
  | [] => None
  end.

(** [push_str] on the accumulator, created when it is missing. *)
Definition push_str (acc : option string) (s : string) : option string := Some (default "" acc +:+ s).

(** One row: its values are added one after the other, NULLs are skipped. *)
Fixpoint concat_row (i : nat) (values : list GroupArg) (acc : option string) : result (option string) :=
  match values with
  | [] => Ok acc
  | a :: values =>
      match a, mjoin (arg_values a !! i) with
      | _, None => concat_row i values acc
      | GArray (DtUtf8 | DtLargeUtf8) _, Some s => concat_row i values (push_str acc s)
      | _, Some _ => Err (ExecError "Reached invalid datatype")
      end
  end.

Definition concat_rows (separator : string) (values : list GroupArg) (rows : list nat) (acc : option string) : result (option string) :=
  result_foldl (fun acc i => concat_row i values (match acc with Some s => Some (s +:+ separator) | None => None end)) acc rows.

Definition gc_update_batch (a : GroupConcatAccumulator) (values : list GroupArg) : result GroupConcatAccumulator :=
  let options_structs := List.filter is_options values in
  let values := List.filter (fun v => negb (is_options v)) values in
  if bool_decide (num_args a < length options_structs) then Err (Panic "attempt to subtract with overflow")
  else
    let n := num_args a - length options_structs in
    let separator := default "," (find_separator options_structs) in
    match values with
    | [] => Err (Panic "index out of bounds")
    | v :: _ =>
        if bool_decide (length values < n) then Err (Panic "range end index out of range")
        else
          let? acc := concat_rows separator (take n values) (seq 0 (length (arg_values v))) (string_accumulator a) in
          Ok {| num_args := num_args a; string_accumulator := acc |}
    end.

(** [evaluate] takes the string out of the accumulator. *)
Definition gc_evaluate (a : GroupConcatAccumulator) : option string * GroupConcatAccumulator :=
  (string_accumulator a, {| num_args := num_args a; string_accumulator := None |}).

Definition gc_accumulator (exprs : nat) : GroupConcatAccumulator := {| num_args := exprs; string_accumulator := None |}.

(** The state of a partial aggregate is one string, and is merged as a batch. *)
Definition gc_state (a : GroupConcatAccumulator) : list GroupArg := [GArray DtUtf8 [(gc_evaluate a).1]].
Definition gc_merge_batch (a : GroupConcatAccumulator) (states : list GroupArg) : result GroupConcatAccumulator := gc_update_batch a states.

(** ** What the functions compute *)

(** *** GROUP_CONCAT *)

(** The text of a row: the values that are not NULL, one after the other. *)
Definition row_text (i : nat) (columns : list (list (option string))) : string :=
  foldr (fun c s => default "" (mjoin (c !! i)) +:+ s) "" columns.

Definition row_has_value (i : nat) (columns : list (list (option string))) : bool :=
  existsb (fun c => bool_decide (is_Some (mjoin (c !! i)))) columns.

(** The texts with separators between them, after those before. *)
Definition joined (separator : string) (texts : list string) (acc : option string) : option string :=
  foldl (fun acc t => Some match acc with Some s => s +:+ separator +:+ t | None => t end) acc texts.

Lemma row_text_none i columns : row_has_value i columns = false -> row_text i columns = "".
Proof.
  induction columns as [|c columns IH]; [done|]. intros [Hc Hr]%orb_false_iff.
  change (row_text i (c :: columns)) with (default "" (mjoin (c !! i)) +:+ row_text i columns). rewrite (IH Hr).
  apply bool_decide_eq_false in Hc. destruct (mjoin (c !! i)); [|done]. by destruct Hc.
Qed.

Lemma concat_row_text i columns acc :
  concat_row i (GArray DtUtf8 <$> columns) acc =
  Ok (if row_has_value i columns then Some (default "" acc +:+ row_text i columns) else acc).
Proof.
  revert acc. induction columns as [|c columns IH]; intros acc; [done|].
  change (row_text i (c :: columns)) with (default "" (mjoin (c !! i)) +:+ row_text i columns). cbn.
  destruct (mjoin (c !! i)) as [s|] eqn:Hc; cbn; [|apply IH].
  rewrite IH. f_equal. unfold push_str. destruct (row_has_value i columns) eqn:Hr; cbn; [by rewrite string_app_assoc|].
  by rewrite (row_text_none _ _ Hr), string_app_nil.
Qed.

Lemma concat_rows_text separator columns rows acc :
  Forall (fun i => row_has_value i columns = true) rows ->
  concat_rows separator (GArray DtUtf8 <$> columns) rows acc =
  Ok (joined separator ((fun i => row_text i columns) <$> rows) acc).
Proof.
  intros Hall. revert acc. induction Hall as [|i rows Hi _ IH]; intros acc; [done|]. unfold concat_rows in *.
  cbn [result_foldl fmap list_fmap]. rewrite concat_row_text, Hi. cbn [result_bind]. rewrite IH. cbn. do 2 f_equal. destruct acc; [|done].
  cbn. by rewrite string_app_assoc.
Qed.

(** A batch of a call with [k] columns, and the struct with the separator when one was given. *)
Definition call_batch (separator : option string) (columns : list (list (option string))) : list GroupArg :=
  (GArray DtUtf8 <$> columns) ++ match separator with Some s => [GOptions (Some [Some s])] | None => [] end.

Definition options_args (separator : option string) : nat := match separator with Some _ => 1 | None => 0 end.

Definition batch_texts (columns : list (list (option string))) : list string :=
  (fun i => row_text i columns) <$> seq 0 (length (default [] (head columns))).

(** A batch that the call receives: as many columns as it has, and in each row a value. *)
Definition call_batch_ok (k : nat) (columns : list (list (option string))) : Prop :=
  length columns = k /\ 0 < k /\
  Forall (fun i => row_has_value i columns = true) (seq 0 (length (default [] (head columns)))).

Lemma filter_arrays columns :
  List.filter is_options (GArray DtUtf8 <$> columns) = [] /\
  List.filter (fun v => negb (is_options v)) (GArray DtUtf8 <$> columns) = GArray DtUtf8 <$> columns.
Proof. induction columns as [|c columns [IH1 IH2]]; [done|]. cbn. by rewrite IH1, IH2. Qed.

Lemma update_call_batch (separator : option string) k columns acc :
  call_batch_ok k columns ->
  let a := {| num_args := k + options_args separator; string_accumulator := acc |} in
  gc_update_batch a (call_batch separator columns) =
  Ok {| num_args := num_args a; string_accumulator := joined (default "," separator) (batch_texts columns) acc |}.
Proof.
  intros (Hk & H0 & Hrows) a. unfold gc_update_batch, call_batch. rewrite !List.filter_app.
  destruct (filter_arrays columns) as [-> ->]. set (opts := match separator with Some s => [GOptions (Some [Some s])] | None => [] end).
  assert (List.filter is_options opts = opts /\ List.filter (fun v => negb (is_options v)) opts = [] /\
    length opts = options_args separator /\ default "," (find_separator opts) = default "," separator) as (Ho1 & Ho2 & Ho3 & Ho4)
    by (unfold opts; by destruct separator).
  rewrite Ho1, Ho2, app_nil_r, app_nil_l, Ho3. cbn [num_args a]. rewrite bool_decide_false by lia.
  destruct columns as [|c columns]; [cbn in Hk; lia|]. cbn [fmap list_fmap]. rewrite bool_decide_false.
  2: { cbn [length]. rewrite length_fmap. cbn in Hk. lia. }
  replace (k + options_args separator - options_args separator) with k by lia.
  change (GArray DtUtf8 c :: (GArray DtUtf8 <$> columns)) with (GArray DtUtf8 <$> (c :: columns)).
  rewrite firstn_all2 by (rewrite length_fmap; lia). rewrite Ho4, concat_rows_text by exact Hrows. done.
Qed.

(** When each row has a value, the result of GROUP_CONCAT over any number of batches
    is the text of the rows in their order, with the separator of the call (or a
    comma) exactly between two of them, and NULL when there is no row. *)
Theorem group_concat_rows (separator : option string) k batches :
  Forall (call_batch_ok k) batches ->
  exists a, result_foldl gc_update_batch (gc_accumulator (k + options_args separator)) (call_batch separator <$> batches) = Ok a /\
    (gc_evaluate a).1 = match batches ≫= batch_texts with
                        | [] => None
                        | t :: texts => Some (foldl (fun s t => s +:+ default "," separator +:+ t) t texts)
                        end.
Proof.
  intros Hb. assert (forall acc, result_foldl gc_update_batch {| num_args := k + options_args separator; string_accumulator := acc |}
    (call_batch separator <$> batches) = Ok {| num_args := k + options_args separator;
      string_accumulator := joined (default "," separator) (batches ≫= batch_texts) acc |}) as Hfold.
  { induction Hb as [|b batches Hb _ IH]; intros acc; [done|]. cbn [fmap list_fmap result_foldl].
    rewrite (update_call_batch _ _ _ _ Hb). cbn [result_bind num_args]. rewrite IH, bind_cons. unfold joined. by rewrite foldl_app. }
  eexists. split; [apply Hfold|]. cbn. destruct (batches ≫= batch_texts) as [|t texts]; [done|]. cbn.
  clear. revert t. induction texts as [|u texts IH]; intros t; [done|]. cbn. apply IH.
Qed.

Lemma group_concat_rows_witness : exists a,
  result_foldl gc_update_batch (gc_accumulator 3)
    [[GArray DtUtf8 [Some "a"; None]; GArray DtUtf8 [Some "1"; Some "2"]; GOptions (Some [Some "; "])];
     [GArray DtUtf8 [Some "c"]; GArray DtUtf8 [None]; GOptions (Some [Some "; "])]] = Ok a /\
  (gc_evaluate a).1 = Some "a1; 2; c".
Proof.
  destruct (group_concat_rows (Some "; ") 2 [[[Some "a"; None]; [Some "1"; Some "2"]]; [[Some "c"]; [None]]]) as (a & Ha & Hr).
  - repeat constructor.
  - exists a. split; [exact Ha|]. rewrite Hr. vm_compute. reflexivity.
Defined.

(** Finding: a row of NULLs, which MySQL leaves out, adds a separator. *)
Lemma group_concat_null_row : exists a,
  gc_update_batch (gc_accumulator 1) [GArray DtUtf8 [Some "a"; None; Some "b"]] = Ok a /\ (gc_evaluate a).1 = Some "a,,b".
Proof. eexists. split; [vm_compute; reflexivity|reflexivity]. Qed.

(** Finding: merging the partial results of a call with a separator panics, and without
    one the separator of the merge is always the comma. *)
Lemma group_concat_merge_panics acc state :
  gc_merge_batch {| num_args := 2; string_accumulator := acc |} (gc_state state) = Err (Panic "range end index out of range").
Proof. reflexivity. Qed.

(** *** IF *)

Section IfRows.
Variable cast : bool -> DataType -> PVal -> result PVal.
Variable from_iter_type : DataType -> DataType.

(** IF on a column returns for each row the second argument when the condition is true
    and the third one otherwise, a NULL condition included, in the type of the
    call. *)
Lemma if_rows iff then_ else_ field conds t e vs1 vs2 :
  cast true DtBoolean iff = Ok (PArray {| data_type := DtBoolean; values := conds |}) ->
  Forall (fun c => forall v, c = Some v -> exists b, v = VBool b) conds ->
  field_type field <> DtNull -> if_array_type (field_type field) = Some (field_type field) ->
  cast (field_nullable field) (field_type field) then_ = Ok t -> cast (field_nullable field) (field_type field) else_ = Ok e ->
  into_array (length conds) t = {| data_type := field_type field; values := vs1 |} ->
  into_array (length conds) e = {| data_type := field_type field; values := vs2 |} ->
  if_invoke cast from_iter_type [iff; then_; else_] field =
  Ok (PArray {| data_type := from_iter_type (field_type field);
                values := zip_with (fun c '(t, e) => if_row c t e) conds (zip vs1 vs2) |}).
Proof.
  intros Hc Hb Hnull Hty Ht He Hv1 Hv2. unfold if_invoke. rewrite Hc. cbn [result_bind values].
  rewrite bool_decide_false by done.
  assert (exists bs, result_mapM as_boolean conds = Ok bs /\ length bs = length conds) as (bs & Hbs & Hlen).
  { clear -Hb. induction Hb as [|c conds Hc _ (bs & IH & Hl)]; [by exists []|]. destruct c as [v|].
    - destruct (Hc v eq_refl) as [b ->]. exists (Some b :: bs). cbn. rewrite IH. cbn. by rewrite Hl.
    - exists (None :: bs). cbn. rewrite IH. cbn. by rewrite Hl. }
  rewrite Hbs. cbn [result_bind]. rewrite Ht, He. cbn [result_bind]. rewrite Hty, Hlen, Hv1, Hv2.
  unfold impl_if_for_array_type. cbn [data_type values]. rewrite bool_decide_true by done. cbn [negb orb].
  do 2 f_equal. f_equal. by apply as_boolean_rows.
Qed.
End IfRows.

(** *** [~] *)

Definition int_fits (w : Z) (signed : bool) (z : Z) : Prop := if signed then fits_s w z else fits_u w z.

Lemma int_not_fits w signed z : (0 < w)%Z -> int_fits w signed z -> int_fits w signed (int_not w signed z).
Proof.
  intros Hw. unfold int_fits, int_not. destruct signed; [|intros _; apply wrap_u_fits; lia].
  unfold fits_s, Z.lnot. lia.
Qed.

Lemma int_not_involutive w signed z : (0 < w)%Z -> int_fits w signed z -> int_not w signed (int_not w signed z) = z.
Proof.
  intros Hw Hz. unfold int_fits, int_not in *. destruct signed; [unfold Z.lnot; lia|].
  assert (forall x, fits_u w x -> wrap_u w (Z.lnot x) = 2 ^ w - 1 - x)%Z as Hnot.
  { intros x Hx. unfold wrap_u, fits_u, Z.lnot in *. symmetry. apply (Zmod_unique _ _ (-1)); lia. }
  rewrite (Hnot z Hz), Hnot; [lia|]. unfold fits_u in *. lia.
Qed.

Lemma byte_not_involutive b : byte_not (byte_not b) = b.
Proof. by destruct b. Qed.

Definition not_ok (dt : DataType) (v : ArrowValue) : Prop :=
  match int_type dt, v with
  | Some (w, signed), VPrim z => int_fits w signed z
  | None, VBytes _ => dt = DtBinary
  | _, _ => False
  end.

Lemma int_type_pos dt w signed : int_type dt = Some (w, signed) -> (0 < w)%Z.
Proof. destruct dt; intros [=]; subst; lia. Qed.

Lemma not_value_twice dt v : not_ok dt v -> exists v', not_value dt v = Ok v' /\ not_ok dt v' /\ not_value dt v' = Ok v.
Proof.
  unfold not_ok, not_value. destruct (int_type dt) as [[w signed]|] eqn:Hdt, v as [z|b|bs|fs]; try done; intros Hv.
  - pose proof (int_type_pos _ _ _ Hdt). eexists. split; [done|]. split; [by apply int_not_fits|]. by rewrite int_not_involutive.
  - eexists. split; [done|]. split; [done|]. rewrite <- list_fmap_compose. do 2 f_equal.
    rewrite <- (list_fmap_id bs) at 2. apply list_fmap_ext. intros i b _. apply byte_not_involutive.
Qed.

Lemma not_slots_twice dt vs :
  Forall (fun v => forall x, v = Some x -> not_ok dt x) vs ->
  exists ws, map_slots (not_value dt) vs = Ok ws /\ map_slots (not_value dt) ws = Ok vs.
Proof.
  induction 1 as [|v vs Hv _ (ws & H1 & H2)]; [by exists []|]. destruct v as [x|].
  - destruct (not_value_twice dt x (Hv x eq_refl)) as (y & Hy & _ & Hyx). exists (Some y :: ws).
    unfold map_slots in *. cbn [result_mapM]. rewrite Hy, Hyx. cbn [result_bind]. by rewrite H1, H2.
  - exists (None :: ws). unfold map_slots in *. cbn [result_mapM result_bind]. by rewrite H1, H2.
Qed.

(** [~] succeeds on integers of every width and on binary values, keeps their type and
    their NULLs, and twice gives the value back. *)
Lemma bitwise_not_twice dt vs :
  is_Some (int_type dt) \/ dt = DtBinary -> Forall (fun v => forall x, v = Some x -> not_ok dt x) vs ->
  exists ws, bitwise_not_invoke (PArray {| data_type := dt; values := vs |}) = Ok (PArray {| data_type := dt; values := ws |}) /\
             bitwise_not_invoke (PArray {| data_type := dt; values := ws |}) = Ok (PArray {| data_type := dt; values := vs |}).
Proof.
  intros Hdt Hvs. destruct (not_slots_twice dt vs Hvs) as (ws & H1 & H2). exists ws. unfold bitwise_not_invoke. cbn.
  assert (bool_decide (is_Some (int_type dt)) || bool_decide (dt = DtBinary) = true) as ->.
  { apply orb_true_iff. destruct Hdt; [left|right]; by apply bool_decide_eq_true. }
  by rewrite H1, H2.
Qed.

(** *** SUBSTR on binary values *)

Lemma drop_len (value : bytes) (n : Z) : (Z.of_nat (length value) - 1 <= n)%Z -> drop (Z.to_nat (n + 1)) value = [].
Proof. intros H. apply drop_ge. lia. Qed.

(** The value of [SUBSTR(value, start, count)] on a value that is not empty, for a
    positive start. *)
Lemma substr_positive value start count :
  value <> [] -> (0 < start < 2 ^ 63)%Z -> (Z.of_nat (length value) < 2 ^ 63)%Z ->
  match count with Some c => 0 <= c < 2 ^ 63 | None => True end%Z ->
  substr_bytes value (Some start) count =
  Ok (let rest := drop (Z.to_nat (start + 1)) value in
      match count with Some c => take (Z.to_nat c) rest | None => rest end).
Proof.
  intros Hv Hs Hl Hc. assert (0 < Z.of_nat (length value))%Z as Hpos by (destruct value; [done|cbn; lia]).
  unfold substr_bytes. cbn [from_option id]. cbn zeta. rewrite (proj2 (Z.ltb_lt 0 start)) by lia. unfold as_usize.
  rewrite (wrap_u_id 64 start) by (unfold fits_u; lia).
  rewrite (wrap_u_id 64 (Z.of_nat (length value) - 1)) by (unfold fits_u; lia).
  assert ((if (start <? Z.of_nat (length value) - 1)%Z then
      if (start + 1 <=? Z.of_nat (length value))%Z then Ok (drop (Z.to_nat (start + 1)) value)
      else Err (Panic "range start index out of range") else Ok []) = Ok (drop (Z.to_nat (start + 1)) value)) as ->.
  { destruct (Z.ltb_spec start (Z.of_nat (length value) - 1)); [by rewrite (proj2 (Z.leb_le _ _)) by lia|].
    by rewrite drop_len by lia. }
  cbn [result_bind]. f_equal. destruct count as [c|]; [|done]. cbn [fmap option_fmap option_map].
  rewrite (wrap_u_id 64 c) by (unfold fits_u; lia). destruct (Z.ltb_spec c (Z.of_nat (length (drop (Z.to_nat (start + 1)) value)))); [done|].
  symmetry. apply take_ge. lia.
Qed.

(** Finding: the first byte has position 1, but [SUBSTR(value, 1)] leaves out the first
    two bytes. *)
Lemma substr_skips_two value :
  value <> [] -> (Z.of_nat (length value) < 2 ^ 63)%Z -> substr_bytes value (Some 1%Z) None = Ok (drop 2 value).
Proof. intros Hv Hl. by rewrite substr_positive by (done || lia). Qed.

(** Finding: on an empty value the function panics, for every position. *)
Lemma substr_empty_panics start count : fits_s 64 start ->
  substr_bytes [] (Some start) count = Err (Panic "range start index out of range").
Proof.
  unfold fits_s. intros Hs. unfold substr_bytes. cbn [from_option id length]. cbn zeta.
  destruct (Z.ltb_spec 0 start).
  - unfold as_usize. rewrite (wrap_u_id 64 start) by (unfold fits_u; lia). change (wrap_u 64 (Z.of_nat 0 - 1)) with (2 ^ 64 - 1)%Z.
    rewrite (proj2 (Z.ltb_lt _ _)) by lia. rewrite (proj2 (Z.leb_gt _ _)) by lia. done.
  - assert (exists back, as_usize (- start) = back /\ 0 <= back)%Z as (back & -> & Hb).
    { eexists. split; [done|]. apply (wrap_u_fits 64). lia. }
    destruct (Z.leb_spec back (Z.of_nat 0)); [|done]. by replace back with 0%Z by lia.
Qed.
