(* ===== verification/CharUtils.v ===== *)
(** * Binary literals in query texts

    Models [frontends/mysql/src/command_phase/char_utils.rs]: a query may have string
    literals that are not UTF-8. Those literals are taken out of the text, replaced by
    placeholders, and passed as binary parameters. *)
From S2P Require Import Prelude.

Definition quote : byte := Byte.x27.
Definition ESCAPE_CHAR : byte := Byte.x5c.
Definition placeholder : byte := Byte.x3f.

(** ** The chunks of a byte string ([utf8_chunks]) *)

Definition in_range (lo hi : N) (b : byte) : bool := (lo <=? Byte.to_N b)%N && (Byte.to_N b <=? hi)%N.

(** Continuation bytes; the second byte of long sequences is restricted further. *)
Definition is_cont (b : byte) : bool := in_range 0x80 0xBF b.

Definition second3 (b0 b1 : byte) : bool :=
  if bool_decide (b0 = Byte.xe0) then in_range 0xA0 0xBF b1
  else if bool_decide (b0 = Byte.xed) then in_range 0x80 0x9F b1
  else is_cont b1.

Definition second4 (b0 b1 : byte) : bool :=
  if bool_decide (b0 = Byte.xf0) then in_range 0x90 0xBF b1
  else if bool_decide (b0 = Byte.xf4) then in_range 0x80 0x8F b1
  else is_cont b1.

(** The first character of a text that is not empty and its length, or the length of
    the longest prefix of a character when it is not valid. Past the end the bytes
    read as zero. *)
Definition next_char (b0 : byte) (r : bytes) : bool * nat :=
  let get i := nth i r Byte.x00 in
  if in_range 0 0x7F b0 then (true, 1)
  else if in_range 0xC2 0xDF b0 then (if is_cont (get 0) then (true, 2) else (false, 1))
  else if in_range 0xE0 0xEF b0 then
    if second3 b0 (get 0) then (if is_cont (get 1) then (true, 3) else (false, 2)) else (false, 1)
  else if in_range 0xF0 0xF4 b0 then
    if second4 b0 (get 0) then
      if is_cont (get 1) then (if is_cont (get 2) then (true, 4) else (false, 3)) else (false, 2)
    else (false, 1)
  else (false, 1).

(** The characters of a text and the sequences that are not. *)
Fixpoint tokens_fuel (fuel : nat) (bs : bytes) : list (bool * bytes) :=
  match fuel, bs with
  | Datatypes.S fuel, b :: r => let (ok, n) := next_char b r in (ok, take n bs) :: tokens_fuel fuel (drop n bs)
  | _, _ => []
  end.

Definition tokens (bs : bytes) : list (bool * bytes) := tokens_fuel (length bs) bs.

Definition utf8_valid (bs : bytes) : bool := forallb fst (tokens bs).

(** A chunk: characters, and one sequence that is not, empty only at the end. *)
Fixpoint group (acc : bytes) (ts : list (bool * bytes)) : list (bytes * bytes) :=
  match ts with
  | [] => match acc with [] => [] | _ => [(acc, [])] end
  | (true, c) :: ts => group (acc ++ c) ts
  | (false, c) :: ts => (acc, c) :: group [] ts
  end.

Definition utf8_chunks (bs : bytes) : list (bytes * bytes) := group [] (tokens bs).

(** ** Escapes *)

Record AutoEscapeVec := { inner : bytes; has_dangling_escape : bool }.

Definition replace_escaped (source : byte) : byte :=
  match source with
  | Byte.x30 => Byte.x00 (* 0 *)
  | Byte.x62 => Byte.x08 (* b *)
  | Byte.x6e => Byte.x0a (* n *)
  | Byte.x72 => Byte.x0d (* r *)
  | Byte.x74 => Byte.x09 (* t *)
  | Byte.x5a => Byte.x1a (* Z *)
  | other => other
  end.

Definition unescape_byte (v : AutoEscapeVec) (c : byte) : AutoEscapeVec :=
  if has_dangling_escape v then {| inner := inner v ++ [replace_escaped c]; has_dangling_escape := false |}
  else if bool_decide (c = ESCAPE_CHAR) then {| inner := inner v; has_dangling_escape := true |}
  else {| inner := inner v ++ [c]; has_dangling_escape := false |}.

Definition extend_unescape (v : AutoEscapeVec) (bs : bytes) : AutoEscapeVec := foldl unescape_byte v bs.

Definition vec_new : AutoEscapeVec := {| inner := []; has_dangling_escape := false |}.

Definition vec_try_into (v : AutoEscapeVec) : result bytes :=
  if has_dangling_escape v then Err (PlanError "Failed to parse query: dangling escape character") else Ok (inner v).

(** ** The parser *)

Record ParserState := { res : bytes; params : list bytes; current_param : option AutoEscapeVec }.

Definition parser_init : ParserState := {| res := []; params := []; current_param := None |}.

Definition parser_finish (st : ParserState) : result (bytes * list bytes) :=
  match current_param st with
  | Some _ => Err (PlanError "Failed to parse binary chunks in query: unterminated chunk")
  | None => Ok (res st, params st)
  end.

(** The position of the first and of the last quote. *)
Definition first_quote (valid : bytes) : option nat := fst <$> list_find (fun c => c = quote) valid.
Definition last_quote (valid : bytes) : option nat :=
  (fun i => length valid - 1 - i) <$> first_quote (reverse valid).

Definition add_chunk_start (st : ParserState) (valid invalid : bytes) : result ParserState :=
  match invalid with
  | [] => Ok {| res := res st ++ valid; params := params st; current_param := current_param st |}
  | _ =>
      match last_quote valid with
      | None => Err (PlanError "Failed to parse binary chunks in query: Failed to locate binary string start")
      | Some position =>
          let output := extend_unescape (extend_unescape vec_new (drop (position + 1) valid)) invalid in
          Ok {| res := res st ++ take position valid ++ [placeholder]; params := params st; current_param := Some output |}
      end
  end.

(** Each step goes on with a shorter text. *)
Fixpoint add_chunk_continue_fuel (fuel : nat) (st : ParserState) (v : AutoEscapeVec) (valid invalid : bytes) : result ParserState :=
  let with_param v := {| res := res st; params := params st; current_param := Some v |} in
  match fuel with
  | O => Err (Panic "unreachable")
  | Datatypes.S fuel =>
      match first_quote valid with
      | None => Ok (with_param (extend_unescape (extend_unescape v valid) invalid))
      | Some position =>
          if bool_decide (0 < position) && bool_decide (valid !! (position - 1) = Some ESCAPE_CHAR) then
            add_chunk_continue_fuel fuel st (extend_unescape v (take (position + 1) valid)) (drop (position + 1) valid) invalid
          else if bool_decide (position = 0) && has_dangling_escape v then
            add_chunk_continue_fuel fuel st (extend_unescape v [quote]) (drop 1 valid) invalid
          else
            let? bs := vec_try_into (extend_unescape v (take position valid)) in
            add_chunk_start {| res := res st; params := params st ++ [bs]; current_param := None |} (drop (position + 1) valid) invalid
      end
  end.

Definition add_chunk_continue (st : ParserState) (v : AutoEscapeVec) (valid invalid : bytes) : result ParserState :=
  add_chunk_continue_fuel (Datatypes.S (length valid)) st v valid invalid.

Definition add_chunk (st : ParserState) (chunk : bytes * bytes) : result ParserState :=
  match current_param st with
  | None => add_chunk_start st chunk.1 chunk.2
  | Some v => add_chunk_continue st v chunk.1 chunk.2
  end.

(** The text, and the parameters when some literal was taken out. *)
Definition extract_invalid_bytes (bs : bytes) : result (bytes * option (list bytes)) :=
  match utf8_chunks bs with
  | [] => Ok ([], None)
  | (valid, []) :: _ => Ok (valid, None)
  | chunks =>
      let? st := result_foldl add_chunk parser_init chunks in
      let? (string, values) := parser_finish st in
      Ok (string, Some values)
  end.

(** ** Literals *)

(** How a client writes a byte of a literal. *)
Definition escape_byte (b : byte) : bytes :=
  match b with
  | Byte.x00 => [ESCAPE_CHAR; Byte.x30]
  | Byte.x0a => [ESCAPE_CHAR; Byte.x6e]
  | Byte.x0d => [ESCAPE_CHAR; Byte.x72]
  | Byte.x1a => [ESCAPE_CHAR; Byte.x5a]
  | Byte.x22 | Byte.x27 | Byte.x5c => [ESCAPE_CHAR; b]
  | _ => [b]
  end.

Definition escape (bs : bytes) : bytes := bs ≫= escape_byte.

(** A query: a text, then literals, each followed by more text; and the query in which
    they are placeholders. *)
Definition render (t : bytes) (ls : list (bytes * bytes)) : bytes :=
  t ++ (ls ≫= fun '(b, t) => [quote] ++ escape b ++ [quote] ++ t).
Definition render_placeholders (t : bytes) (ls : list (bytes * bytes)) : bytes :=
  t ++ (ls ≫= fun '(_, t) => [placeholder] ++ t).

(** The characters of a literal before the first sequence that is none. *)
Fixpoint valid_prefix (ts : list (bool * bytes)) : bytes :=
  match ts with (true, c) :: ts => c ++ valid_prefix ts | _ => [] end.

(** A literal that has to be taken out of the text: it is not UTF-8, has no quote before
    the first invalid byte, and does not end with a backslash. *)
Record binary_literal (b : bytes) : Prop := {
  bl_invalid : utf8_valid (escape b) = false;
  bl_prefix : quote ∉ valid_prefix (tokens (escape b));
  bl_last : last b <> Some ESCAPE_CHAR
}.

(** ** Characters *)

Lemma ascii_range a : in_range 0 0x7F a = true -> forall lo hi, (0x80 <= lo)%N -> in_range lo hi a = false.
Proof.
  unfold in_range. intros [_ Ha]%andb_true_iff lo hi Hlo. apply N.leb_le in Ha. apply andb_false_iff. left. apply N.leb_gt. lia.
Qed.

Lemma ascii_not_cont a : in_range 0 0x7F a = true -> is_cont a = false /\ forall b0, second3 b0 a = false /\ second4 b0 a = false.
Proof.
  intros Ha. pose proof (ascii_range a Ha) as H. unfold is_cont, second3, second4. split; [by apply H|].
  intros b0. repeat case_bool_decide; split; apply H; lia.
Qed.

(** A character does not depend on what follows, when that starts with an ASCII byte. *)
Lemma next_char_ascii b0 r a z : in_range 0 0x7F a = true -> next_char b0 (r ++ a :: z) = next_char b0 r.
Proof.
  intros Ha. destruct (ascii_not_cont a Ha) as [Hc Hs].
  assert (is_cont Byte.x00 = false /\ forall b0, second3 b0 Byte.x00 = false /\ second4 b0 Byte.x00 = false) as [Hc0 Hs0]
    by (by apply ascii_not_cont).
  unfold next_char. cbv zeta. destruct r as [|x [|y [|w r]]]; cbn [app nth]; repeat rewrite ?Hc, ?Hc0, ?(proj1 (Hs _)), ?(proj2 (Hs _)),
    ?(proj1 (Hs0 _)), ?(proj2 (Hs0 _)); done.
Qed.

Lemma next_char_length b r : 1 <= (next_char b r).2 <= Datatypes.S (length r).
Proof.
  assert (is_cont Byte.x00 = false /\ forall b0, second3 b0 Byte.x00 = false /\ second4 b0 Byte.x00 = false) as [Hc0 Hs0]
    by (by apply ascii_not_cont).
  unfold next_char. cbv zeta. destruct r as [|x [|y [|w r]]]; cbn [nth]; repeat rewrite ?Hc0, ?(proj1 (Hs0 _)), ?(proj2 (Hs0 _));
    repeat case_match; cbn; lia.
Qed.

Lemma tokens_enough fuel bs : length bs <= fuel -> tokens_fuel fuel bs = tokens bs.
Proof.
  unfold tokens. revert bs. assert (forall n bs fuel, length bs <= n -> length bs <= fuel -> tokens_fuel fuel bs = tokens_fuel n bs) as H.
  { clear. induction n as [|n IH]; intros bs fuel Hn Hf; [destruct bs; [by destruct fuel|cbn in Hn; lia]|]. destruct bs as [|b r]; [by destruct fuel|].
    destruct fuel as [|fuel]; [cbn in Hf; lia|]. cbn. pose proof (next_char_length b r) as Hl. destruct (next_char b r) as [ok k]. cbn in Hl.
    f_equal. apply IH; rewrite length_drop; cbn in *; lia. }
  intros bs Hf. by apply H.
Qed.

Lemma tokens_cons b r :
  tokens (b :: r) = (let (ok, n) := next_char b r in (ok, take n (b :: r)) :: tokens (drop n (b :: r))).
Proof.
  unfold tokens at 1. cbn [length tokens_fuel]. pose proof (next_char_length b r) as Hl. destruct (next_char b r) as [ok n]. cbn in Hl.
  f_equal. apply tokens_enough. rewrite length_drop. cbn. lia.
Qed.

Lemma tokens_app bs a z : in_range 0 0x7F a = true -> tokens (bs ++ a :: z) = tokens bs ++ (true, [a]) :: tokens z.
Proof.
  intros Ha. induction bs as [bs IH] using (induction_ltof1 _ (@length byte)); unfold ltof in IH. destruct bs as [|b r].
  - cbn [app]. rewrite tokens_cons. unfold next_char. rewrite Ha. done.
  - cbn [app]. rewrite !tokens_cons, (next_char_ascii b r a z Ha). pose proof (next_char_length b r) as Hl.
    destruct (next_char b r) as [ok n]. cbn in Hl.
    change (b :: r ++ a :: z) with ((b :: r) ++ a :: z).
    rewrite (take_app_le (b :: r) (a :: z) n) by (cbn; lia). rewrite (drop_app_le (b :: r) (a :: z) n) by (cbn; lia).
    rewrite IH; [done|]. rewrite length_drop. cbn. lia.
Qed.

Lemma tokens_concat bs : mjoin (tokens bs).*2 = bs.
Proof.
  induction bs as [bs IH] using (induction_ltof1 _ (@length byte)); unfold ltof in IH. destruct bs as [|b r]; [done|].
  rewrite tokens_cons. pose proof (next_char_length b r) as Hl. destruct (next_char b r) as [ok n]. cbn in Hl.
  rewrite fmap_cons. cbn [mjoin list_join snd]. change (mjoin ?x) with (mjoin x). rewrite IH by (rewrite length_drop; cbn; lia).
  apply take_drop.
Qed.

(** A sequence that is not a character has no ASCII byte. *)
Definition invalid_token (t : bool * bytes) : Prop :=
  t.1 = false -> t.2 <> [] /\ Forall (fun b => in_range 0 0x7F b = false) t.2.

Lemma cont_not_ascii b : is_cont b = true -> in_range 0 0x7F b = false.
Proof. intros H. destruct (in_range 0 0x7F b) eqn:E; [|done]. destruct (ascii_not_cont b E) as [E' _]. congruence. Qed.

Lemma second_not_ascii b0 b : second3 b0 b = true \/ second4 b0 b = true -> in_range 0 0x7F b = false.
Proof.
  intros H. destruct (in_range 0 0x7F b) eqn:E; [|done]. destruct (ascii_not_cont b E) as [_ Hs].
  destruct (Hs b0) as [H3 H4]. rewrite H3, H4 in H. by destruct H.
Qed.

Lemma tokens_invalid bs : Forall invalid_token (tokens bs).
Proof.
  induction bs as [bs IH] using (induction_ltof1 _ (@length byte)); unfold ltof in IH. destruct bs as [|b r]; [constructor|].
  rewrite tokens_cons. pose proof (next_char_length b r) as Hl. destruct (next_char b r) as [ok n] eqn:Hn. cbn in Hl. constructor.
  - intros Hok. cbn in Hok. subst ok. cbn [snd]. split; [destruct n; [lia|done]|]. unfold next_char in Hn.
    destruct (in_range 0 0x7F b) eqn:Hb; [done|].
    assert (forall n, Forall (fun b => in_range 0 127 b = false) (take n r) -> Forall (fun b => in_range 0 127 b = false) (take (Datatypes.S n) (b :: r)))
      as Hcons by (intros k Hk; by constructor).
    cbv zeta in Hn. destruct r as [|x [|y [|w r]]]; cbn [nth] in Hn;
      repeat (match type of Hn with context [if ?c then _ else _] => destruct c eqn:? end; try discriminate Hn);
      injection Hn as <-; apply Hcons; cbn [take]; repeat constructor;
      eauto using cont_not_ascii, second_not_ascii.
  - apply IH. rewrite length_drop. cbn. lia.
Qed.

(** ** Escapes *)

Lemma extend_unescape_app v a b : extend_unescape v (a ++ b) = extend_unescape (extend_unescape v a) b.
Proof. apply foldl_app. Qed.

Lemma unescape_escape x b :
  extend_unescape {| inner := x; has_dangling_escape := false |} (escape b) = {| inner := x ++ b; has_dangling_escape := false |}.
Proof.
  revert x. induction b as [|c b IH]; intros x; [by rewrite app_nil_r|]. unfold escape. rewrite bind_cons, extend_unescape_app.
  replace (extend_unescape _ (escape_byte c)) with {| inner := x ++ [c]; has_dangling_escape := false |} by (by destruct c).
  rewrite IH. by rewrite <- app_assoc.
Qed.

Lemma unescape_new b : extend_unescape vec_new (escape b) = {| inner := b; has_dangling_escape := false |}.
Proof. apply (unescape_escape []). Qed.

(** Each quote follows an escape character. *)
Definition quotes_escaped (v : bytes) : Prop :=
  forall i, v !! i = Some quote -> exists j, i = Datatypes.S j /\ v !! j = Some ESCAPE_CHAR.

Lemma quotes_escaped_app a b : quotes_escaped a -> quotes_escaped b -> quotes_escaped (a ++ b).
Proof.
  intros Ha Hb i [Hi|[Hge Hi]]%lookup_app_Some.
  - destruct (Ha i Hi) as (j & -> & Hj). exists j. split; [done|]. by apply lookup_app_l_Some.
  - destruct (Hb _ Hi) as (j & Hij & Hj). exists (length a + j). split; [lia|]. rewrite lookup_app_r by lia.
    by replace (length a + j - length a) with j by lia.
Qed.

Lemma escape_quotes b : quotes_escaped (escape b).
Proof.
  induction b as [|c b IH]; [by intros i|]. unfold escape. rewrite bind_cons. apply quotes_escaped_app; [|exact IH].
  assert ([c] !! 0 = Some quote -> escape_byte c = [ESCAPE_CHAR; quote]) as Hq by (by intros [= ->]).
  destruct (decide (c = quote)) as [->|Hc].
  - intros [|[|i]] Hi; try done. by exists 0.
  - intros i Hi. exfalso. apply Hc. destruct c; destruct i as [|[|i]]; try done; by vm_compute in Hi.
Qed.

Lemma escape_last b : last b <> Some ESCAPE_CHAR -> last (escape b) <> Some ESCAPE_CHAR.
Proof.
  induction b as [|c b _] using rev_ind; [done|]. rewrite last_snoc. unfold escape. rewrite bind_app, bind_cons.
  cbn [mbind list_bind]. rewrite app_nil_r, last_app. intros Hc. destruct c; try done; by vm_compute in Hc.
Qed.

Lemma quotes_escaped_drop v i : quotes_escaped v -> v !! i = Some quote -> quotes_escaped (drop (Datatypes.S i) v).
Proof.
  intros Hv Hi k. rewrite lookup_drop. intros Hk. destruct (Hv _ Hk) as (j & Hj & Hesc). destruct k as [|k].
  - replace j with i in Hesc by lia. rewrite Hi in Hesc. discriminate Hesc.
  - exists k. split; [done|]. rewrite lookup_drop. by replace (Datatypes.S i + k) with j by lia.
Qed.

(** After a sequence that is not a character a quote is not escaped. *)
Lemma quotes_escaped_after a c d :
  quotes_escaped (a ++ c ++ d) -> c <> [] -> Forall (fun b => in_range 0 0x7F b = false) c -> quotes_escaped d.
Proof.
  intros Hq Hc Hascii i Hi. destruct (Hq (length a + (length c + i))) as (j & Hj & Hesc).
  { rewrite !lookup_app_r by lia. by replace (length a + (length c + i) - length a - length c) with i by lia. }
  destruct i as [|i].
  - exfalso. assert (j = length a + (length c - 1)) as -> by (destruct c; [done|cbn in *; lia]).
    rewrite lookup_app_r in Hesc by lia. replace (length a + (length c - 1) - length a) with (length c - 1) in Hesc by lia.
    rewrite lookup_app_l in Hesc by (destruct c; [done|cbn; lia]). rewrite Forall_lookup in Hascii. by specialize (Hascii _ _ Hesc).
  - exists i. split; [done|]. rewrite !lookup_app_r in Hesc by lia. by replace (j - length a - length c) with i in Hesc by lia.
Qed.

(** ** Literals in the parser *)

Lemma first_quote_Some v i : first_quote v = Some i -> v !! i = Some quote.
Proof.
  unfold first_quote. destruct (list_find _ v) as [[j c]|] eqn:Hf; [|done]. intros [= <-].
  by apply list_find_Some in Hf as (Hc & -> & _).
Qed.

Lemma quote_lt v i : first_quote v = Some i -> i < length v.
Proof. intros Hi%first_quote_Some. by eapply lookup_lt_Some. Qed.

(** A part of a literal whose quotes are escaped is added to it. *)
Lemma continue_literal fuel st vec v inv :
  quotes_escaped v -> length v < fuel ->
  add_chunk_continue_fuel fuel st vec v inv =
  Ok {| res := res st; params := params st; current_param := Some (extend_unescape (extend_unescape vec v) inv) |}.
Proof.
  revert vec v. induction fuel as [|fuel IH]; intros vec v Hq Hf; [lia|]. cbn [add_chunk_continue_fuel].
  destruct (first_quote v) as [i|] eqn:Hi; [|done]. pose proof (quote_lt _ _ Hi). apply first_quote_Some in Hi.
  destruct (Hq _ Hi) as (j & -> & Hj). rewrite (bool_decide_true (0 < _)) by lia.
  replace (Datatypes.S j - 1) with j by lia. rewrite bool_decide_true by done. cbn [andb].
  replace (Datatypes.S j + 1) with (Datatypes.S (Datatypes.S j)) by lia.
  rewrite IH; [|by apply quotes_escaped_drop|rewrite length_drop; lia]. by rewrite <- (extend_unescape_app vec (take _ v)), take_drop.
Qed.

Lemma first_quote_app v rest :
  first_quote (v ++ quote :: rest) = Some (default (length v) (first_quote v)).
Proof.
  unfold first_quote. destruct (list_find (fun c => c = quote) v) as [[i c]|] eqn:Hf.
  - by rewrite (list_find_app_l _ _ _ _ _ Hf).
  - rewrite (list_find_app_r _ _ _ Hf). cbn. by rewrite decide_True by done.
Qed.

(** The quote at the end of a literal. *)
Lemma continue_close fuel st vec v rest inv :
  quotes_escaped v -> last v <> Some ESCAPE_CHAR -> has_dangling_escape (extend_unescape vec v) = false ->
  length v < fuel ->
  add_chunk_continue_fuel fuel st vec (v ++ quote :: rest) inv =
  add_chunk_start {| res := res st; params := params st ++ [inner (extend_unescape vec v)]; current_param := None |} rest inv.
Proof.
  revert vec v. induction fuel as [|fuel IH]; intros vec v Hq Hlast Hd Hf; [lia|]. cbn [add_chunk_continue_fuel].
  rewrite first_quote_app. destruct (first_quote v) as [i|] eqn:Hi; cbn [from_option id].
  - pose proof (quote_lt _ _ Hi) as Hlt. apply first_quote_Some in Hi. destruct (Hq _ Hi) as (j & -> & Hj).
    rewrite (bool_decide_true (0 < _)) by lia. replace (Datatypes.S j - 1) with j by lia.
    rewrite lookup_app_l by lia. rewrite bool_decide_true by done. cbn [andb].
    replace (Datatypes.S j + 1) with (Datatypes.S (Datatypes.S j)) by lia.
    rewrite take_app_le, drop_app_le by lia.
    rewrite IH; [by rewrite <- extend_unescape_app, take_drop|by apply quotes_escaped_drop| | |rewrite length_drop; lia].
    + rewrite <- (take_drop (Datatypes.S (Datatypes.S j)) v), last_app in Hlast.
      destruct (last (drop _ v)); [exact Hlast|done].
    + by rewrite <- extend_unescape_app, take_drop.
  - assert (bool_decide (0 < length v) && bool_decide ((v ++ quote :: rest) !! (length v - 1) = Some ESCAPE_CHAR) = false) as ->.
    { apply andb_false_iff. destruct v as [|c v]; [by left|]. right. apply bool_decide_eq_false. rewrite lookup_app_l by (cbn; lia).
      replace (length (c :: v) - 1) with (pred (length (c :: v))) by (cbn; lia). by rewrite <- last_lookup. }
    assert (bool_decide (length v = 0) && has_dangling_escape vec = false) as ->.
    { apply andb_false_iff. destruct v as [|c v]; [by right|by left]. }
    rewrite take_app_length. unfold vec_try_into. rewrite Hd. cbn [result_bind].
    rewrite drop_app_ge by lia. by replace (length v + 1 - length v) with 1 by lia.
Qed.

(** Text before the first chunk belongs to it. *)
Lemma group_prefix x ts :
  group x ts = match group [] ts with
               | [] => match x with [] => [] | _ => [(x, [])] end
               | (v, i) :: r => (x ++ v, i) :: r
               end.
Proof.
  assert (forall acc, group (x ++ acc) ts = match group acc ts with
    | [] => match x with [] => [] | _ => [(x, [])] end | (v, i) :: r => (x ++ v, i) :: r end) as H.
  { induction ts as [|[[] c] ts IH]; intros acc; cbn; [|by rewrite <- app_assoc|done].
    destruct acc; [by rewrite app_nil_r|]. by destruct x. }
  rewrite <- (H []). by rewrite app_nil_r.
Qed.

(** The rest of the text after a literal is parsed as if it started there. *)
Lemma close_then_rest st vec v ts :
  current_param st = Some vec -> quotes_escaped v -> last v <> Some ESCAPE_CHAR ->
  has_dangling_escape (extend_unescape vec v) = false ->
  result_foldl add_chunk st (group (v ++ [quote]) ts) =
  result_foldl add_chunk {| res := res st; params := params st ++ [inner (extend_unescape vec v)]; current_param := None |} (group [] ts).
Proof.
  intros Hcur Hq Hlast Hd. rewrite group_prefix. destruct (group [] ts) as [|[w i] r].
  - assert (match v ++ [quote] with [] => [] | _ => [(v ++ [quote], [])] end = [(v ++ [quote], [])]) as -> by (by destruct v).
    cbn [result_foldl]. unfold add_chunk at 1. rewrite Hcur. unfold add_chunk_continue. cbn [fst snd].
    rewrite continue_close by (done || (rewrite length_app; cbn; lia)). cbn. by rewrite app_nil_r.
  - cbn [result_foldl]. unfold add_chunk at 1. rewrite Hcur. unfold add_chunk_continue. cbn [fst snd]. rewrite <- app_assoc. cbn [app].
    rewrite continue_close by (done || (rewrite length_app; cbn; lia)). done.
Qed.

(** The characters [ts] of the rest of a literal, after [acc], and its end. *)
Lemma literal_rest ts acc st vec K :
  current_param st = Some vec -> Forall invalid_token ts ->
  quotes_escaped (acc ++ mjoin ts.*2) -> last (acc ++ mjoin ts.*2) <> Some ESCAPE_CHAR ->
  has_dangling_escape (extend_unescape vec (acc ++ mjoin ts.*2)) = false ->
  result_foldl add_chunk st (group acc (ts ++ (true, [quote]) :: K)) =
  result_foldl add_chunk {| res := res st; params := params st ++ [inner (extend_unescape vec (acc ++ mjoin ts.*2))];
                            current_param := None |} (group [] K).
Proof.
  revert acc st vec. induction ts as [|[[] c] ts IH]; intros acc st vec Hcur Hinv Hq Hlast Hd.
  - cbn [app group fmap list_fmap mjoin list_join] in *. rewrite app_nil_r in *. by apply close_then_rest.
  - apply Forall_cons in Hinv as [_ Hinv]. rewrite fmap_cons in *. cbn [app group mjoin list_join snd] in *.
    rewrite app_assoc in *. by apply IH.
  - apply Forall_cons in Hinv as [Hc Hinv]. destruct (Hc eq_refl) as [Hne Hascii]. cbn [snd] in Hne, Hascii.
    rewrite fmap_cons in *. cbn [app group mjoin list_join snd result_foldl] in *.
    assert (quotes_escaped acc) as Hacc.
    { intros i Hi. destruct (Hq i) as (j & Hj & Hesc); [by apply lookup_app_l_Some|]. exists j. split; [done|].
      apply lookup_lt_Some in Hi. rewrite lookup_app_l in Hesc by lia. done. }
    unfold add_chunk at 1. rewrite Hcur. cbn [fst snd]. unfold add_chunk_continue. rewrite continue_literal by (done || lia).
    cbn [result_bind]. rewrite (IH [] _ (extend_unescape (extend_unescape vec acc) c)); cbn [res params current_param app]; try done.
    + by rewrite !extend_unescape_app.
    + by eapply quotes_escaped_after.
    + rewrite !last_app in Hlast. by destruct (last (mjoin ts.*2)).
    + by rewrite !extend_unescape_app in Hd.
Qed.

Lemma last_quote_app x v : quote ∉ v -> last_quote (x ++ quote :: v) = Some (length x).
Proof.
  intros Hv. unfold last_quote. rewrite reverse_app, reverse_cons, <- app_assoc. cbn [app]. rewrite first_quote_app.
  assert (first_quote (reverse v) = None) as ->.
  { destruct (first_quote (reverse v)) as [i|] eqn:Hi; [|done]. apply first_quote_Some, list_elem_of_lookup_2 in Hi. rewrite elem_of_reverse in Hi. done. }
  cbn. rewrite length_app, length_reverse. cbn. f_equal. lia.
Qed.

(** The start of a literal, in a state without one. *)
Lemma literal_start ts acc v st K :
  current_param st = None -> forallb fst ts = false -> Forall invalid_token ts ->
  quote ∉ v ++ valid_prefix ts -> quotes_escaped (v ++ mjoin ts.*2) -> last (v ++ mjoin ts.*2) <> Some ESCAPE_CHAR ->
  has_dangling_escape (extend_unescape vec_new (v ++ mjoin ts.*2)) = false ->
  result_foldl add_chunk st (group ((acc ++ [quote]) ++ v) (ts ++ (true, [quote]) :: K)) =
  result_foldl add_chunk {| res := res st ++ acc ++ [placeholder];
                            params := params st ++ [inner (extend_unescape vec_new (v ++ mjoin ts.*2))];
                            current_param := None |} (group [] K).
Proof.
  revert v. induction ts as [|[[] c] ts IH]; intros v Hcur Hval Hinv Hquote Hq Hlast Hd; [done| |].
  - apply Forall_cons in Hinv as [_ Hinv]. rewrite fmap_cons in *. cbn [app group mjoin list_join snd valid_prefix] in *.
    rewrite (app_assoc v c) in *. rewrite <- (app_assoc (acc ++ [quote])). by apply IH.
  - apply Forall_cons in Hinv as [Hc Hinv]. destruct (Hc eq_refl) as [Hne Hascii]. cbn [snd] in Hne, Hascii.
    rewrite fmap_cons in *. cbn [app group mjoin list_join snd result_foldl valid_prefix] in *. rewrite app_nil_r in Hquote.
    unfold add_chunk at 1. rewrite Hcur. cbn [fst snd]. unfold add_chunk_start. destruct c as [|c0 c]; [done|].
    rewrite <- (app_assoc acc). cbn [app]. rewrite last_quote_app by done. cbn [result_bind].
    rewrite take_app_length. rewrite drop_app_ge by lia. replace (length acc + 1 - length acc) with 1 by lia. cbn [drop].
    rewrite (literal_rest ts [] _ (extend_unescape (extend_unescape vec_new v) (c0 :: c))); cbn [res params current_param app]; try done.
    + change (c0 :: c ++ mjoin ts.*2) with ((c0 :: c) ++ mjoin ts.*2). by rewrite !extend_unescape_app.
    + by apply (quotes_escaped_after v (c0 :: c)).
    + rewrite !last_app in Hlast. by destruct (last (mjoin ts.*2)).
    + by rewrite !extend_unescape_app in Hd.
Qed.

Lemma group_valid acc ts K : forallb fst ts = true -> group acc (ts ++ K) = group (acc ++ mjoin ts.*2) K.
Proof.
  revert acc. induction ts as [|[[] c] ts IH]; intros acc Hv; cbn in *; [by rewrite app_nil_r|by rewrite IH, <- app_assoc|done].
Qed.

Lemma render_cons t b t' ls : render t ((b, t') :: ls) = t ++ quote :: escape b ++ quote :: render t' ls.
Proof. unfold render. rewrite bind_cons. cbn [app]. by rewrite <- !app_assoc. Qed.

Lemma parse_render acc t ls st :
  current_param st = None -> utf8_valid t = true -> Forall (fun l => binary_literal l.1 /\ utf8_valid l.2 = true) ls ->
  result_foldl add_chunk st (group acc (tokens (render t ls))) =
  Ok {| res := res st ++ acc ++ render_placeholders t ls; params := params st ++ ls.*1; current_param := None |}.
Proof.
  intros Hcur Ht Hls. revert acc t st Hcur Ht. induction Hls as [|[b t'] ls [Hb Ht'] _ IH]; intros acc t st Hcur Ht.
  - unfold render, render_placeholders. cbn [mbind list_bind fmap list_fmap]. rewrite !app_nil_r.
    pose proof (group_valid acc (tokens t) [] Ht) as Hg. rewrite app_nil_r in Hg. rewrite Hg, tokens_concat. cbn [group].
    destruct st as [r ps cur]. cbn in Hcur. subst cur. destruct (acc ++ t) as [|c x] eqn:Hx; cbn; [by rewrite app_nil_r|done].
  - assert (in_range 0 0x7F quote = true) as Ha by done. destruct Hb as [Hbi Hbp Hbl]. cbn [fst snd] in *.
    rewrite render_cons, (tokens_app _ _ _ Ha), (tokens_app _ _ _ Ha), (group_valid _ _ _ Ht), tokens_concat. cbn [group].
    rewrite <- (app_nil_r ((acc ++ t) ++ [quote])). rewrite literal_start.
    + cbn [app]. rewrite tokens_concat, unescape_new, (IH []) by done.
      cbn [res params inner app fst]. rewrite fmap_cons. unfold render_placeholders. rewrite bind_cons. cbn [app fst].
      by rewrite <- !app_assoc.
    + done.
    + exact Hbi.
    + apply tokens_invalid.
    + exact Hbp.
    + cbn [app]. rewrite tokens_concat. apply escape_quotes.
    + cbn [app]. rewrite tokens_concat. by apply escape_last.
    + cbn [app]. by rewrite tokens_concat, unescape_new.
Qed.

(** The first chunk of a query with a binary literal is not valid. *)
Lemma render_not_valid t b t' ls : utf8_valid (escape b) = false -> forallb fst (tokens (render t ((b, t') :: ls))) = false.
Proof.
  intros Hb. rewrite render_cons, tokens_app, tokens_app by done. rewrite forallb_app. cbn. rewrite forallb_app.
  unfold utf8_valid in Hb. rewrite Hb. apply andb_false_r.
Qed.

Lemma group_not_valid acc ts : forallb fst ts = false -> Forall invalid_token ts ->
  exists v i r, group acc ts = (v, i) :: r /\ i <> [].
Proof.
  revert acc. induction ts as [|[[] c] ts IH]; intros acc Hv Hi; [done| |].
  - apply Forall_cons in Hi as [_ Hi]. by apply IH.
  - apply Forall_cons in Hi as [Hc _]. cbn. by eexists _, _, _; split; [|apply Hc].
Qed.

(** C35: The binary literals of a query are taken out of it as the client wrote them: the
    text has a placeholder for each of them, in their order, and nothing else of it
    changes, and the parameters are exactly the bytes before they were escaped. This
    holds for literals that do not end with a backslash and that have no quote before
    their first invalid byte. *)
Theorem extract_binary_literals t ls :
  ls <> [] -> utf8_valid t = true -> Forall (fun l => binary_literal l.1 /\ utf8_valid l.2 = true) ls ->
  extract_invalid_bytes (render t ls) = Ok (render_placeholders t ls, Some ls.*1).
Proof.
  intros Hne Ht Hls. unfold extract_invalid_bytes, utf8_chunks.
  pose proof (parse_render [] t ls parser_init eq_refl Ht Hls) as Hp. destruct ls as [|[b t'] ls]; [done|].
  pose proof (Forall_inv Hls) as [[Hb _ _] _]. cbn [fst] in Hb.
  destruct (group_not_valid [] _ (render_not_valid t b t' ls Hb) (tokens_invalid _)) as (v & i & r & Hg & Hi).
  rewrite Hg in Hp |- *. destruct i as [|c i]; [done|]. rewrite Hp. done.
Qed.

(** ** Examples *)

Definition ascii (s : string) : bytes := String.list_byte_of_string s.

(** [x='caf\xe9\n', y='\xff\\\xfe' where 1]. *)
Lemma extract_binary_literals_witness :
  extract_invalid_bytes (render (ascii "x=")
    [(ascii "caf" ++ [Byte.xe9; Byte.x0a], ascii ", y="); ([Byte.xff; Byte.x5c; Byte.xfe], ascii " where 1")]) =
  Ok (ascii "x=?, y=? where 1", Some [ascii "caf" ++ [Byte.xe9; Byte.x0a]; [Byte.xff; Byte.x5c; Byte.xfe]]).
Proof.
  assert (forall b, bool_decide (quote ∉ valid_prefix (tokens (escape b))) = true -> quote ∉ valid_prefix (tokens (escape b))) as Hq
    by (intros b; apply bool_decide_eq_true).
  refine (eq_trans (extract_binary_literals (ascii "x=") _ _ _ _) _).
  - discriminate.
  - vm_compute. reflexivity.
  - repeat constructor; try (apply Hq); try (vm_compute; reflexivity); vm_compute; discriminate.
  - vm_compute. reflexivity.
Defined.

(** A query that is UTF-8 is not changed. *)
Lemma extract_utf8 t : utf8_valid t = true -> extract_invalid_bytes t = Ok (t, None).
Proof.
  intros Ht. unfold extract_invalid_bytes, utf8_chunks. pose proof (group_valid [] (tokens t) [] Ht) as Hg.
  rewrite app_nil_r in Hg. rewrite Hg, tokens_concat. by destruct t.
Qed.

(** Finding: the quote after an escaped backslash is taken for an escaped quote. A
    literal whose last byte is a backslash swallows the text up to the next quote, and
    the next literal becomes part of the query: here [x='\xff\\', y=' or 1=1 -- ']
    sends the second value as SQL. *)
Lemma literal_escapes_into_query :
  extract_invalid_bytes (render (ascii "x=") [([Byte.xff; Byte.x5c], ascii ", y=' or 1=1 -- '")]) =
  Ok (ascii "x=? or 1=1 -- '", Some [[Byte.xff; Byte.x5c] ++ ascii "', y="]).
Proof. vm_compute. reflexivity. Qed.

(** Finding: the start of a literal is the last quote before its first invalid byte, even
    when it is an escaped quote of the literal: of [x='it\'s \xff'] the parameter only
    has the part after that quote, and the text keeps the part before it. *)
Lemma escaped_quote_starts_literal :
  extract_invalid_bytes (render (ascii "x=") [(ascii "it's " ++ [Byte.xff], [])]) =
  Ok (ascii "x='it\?", Some [ascii "s " ++ [Byte.xff]]).
Proof. vm_compute. reflexivity. Qed.
