(* ===== verification/RowProtocol.v ===== *)
(** * Rows on the wire

    Models [frontends/mysql/src/command_phase/row_handlers]: the rows of a result as
    packets of the text protocol and of the binary protocol. *)
From S2P Require Import Prelude Values ArrowCodec.

(** ** Length-encoded values *)

(** [mysql_common]'s length-encoded integers, of the sizes that the protocol defines,
    which a client can read back. *)
Class LenEnc := {
  put_lenenc_int : Z -> bytes;
  eat_lenenc_int : bytes -> option (Z * bytes)
}.

Definition lenenc_size (n : Z) : nat :=
  if (n <? 251)%Z then 1 else if (n <? 65536)%Z then 3 else if (n <? 16777216)%Z then 4 else 9.

Definition MAGIC_TEXT_NULL : byte := Byte.xfb.

Class LenEncLaws `{LenEnc} := {
  lenenc_length n : fits_u 64 n -> length (put_lenenc_int n) = lenenc_size n;
  lenenc_read n r : fits_u 64 n -> eat_lenenc_int (put_lenenc_int n ++ r) = Some (n, r);
  lenenc_not_null n : fits_u 64 n -> head (put_lenenc_int n) <> Some MAGIC_TEXT_NULL
}.

Section Text.
Context `{LenEnc}.

Definition put_lenenc_str (s : bytes) : bytes := put_lenenc_int (Z.of_nat (length s)) ++ s.

Definition serialize_nullable_string (out : bytes) (s : option bytes) : bytes :=
  match s with None => out ++ [MAGIC_TEXT_NULL] | Some s => out ++ put_lenenc_str s end.

(** ** Sizes of values *)

Inductive SizeHint := Small | Medium | Large | Huge.

Definition get_size_bytes (h : SizeHint) : nat := match h with Small => 1 | Medium => 3 | Large => 4 | Huge => 9 end.
Definition max_str_size (h : SizeHint) : Z :=
  match h with Small => 251 | Medium => 65536 | Large => 16777216 | Huge => 2 ^ 64 - 1 end.
Definition min_str_size (h : SizeHint) : Z :=
  match h with Small => 0 | Medium => max_str_size Small | Large => max_str_size Medium | Huge => max_str_size Large end.
Definition from_size (size : Z) : SizeHint :=
  if (size <? max_str_size Small)%Z then Small
  else if (size <? max_str_size Medium)%Z then Medium
  else if (size <? max_str_size Large)%Z then Large else Huge.

(** ** Columns of the text protocol *)

(** Writing into a part of the buffer panics when it is too short. *)
Definition write_at (out : bytes) (start size : nat) (bs : bytes) : result bytes :=
  if bool_decide (length bs <= size) then Ok (take start out ++ bs ++ drop (start + length bs) out)
  else Err (Panic "advance out of bounds").

(** The size is written before the value, in the bytes that are reserved for it, and
    the value is moved when its size does not have the expected length. *)
Definition serialize_formatted (hint : SizeHint) (out value : bytes) : result bytes :=
  let bytes_for_size := get_size_bytes hint in
  let start_pos := length out in
  let out := out ++ replicate bytes_for_size Byte.x00 in
  let out := out ++ value in
  let end_pos := length out in
  let str_size := Z.of_nat (end_pos - start_pos - bytes_for_size) in
  if (min_str_size hint <=? str_size)%Z && (str_size <? max_str_size hint)%Z then
    write_at out start_pos bytes_for_size (put_lenenc_int str_size)
  else
    let new_bytes_for_size := get_size_bytes (from_size str_size) in
    let split := drop (start_pos + bytes_for_size) out in
    let out := take (start_pos + bytes_for_size) out in
    let out := if bool_decide (bytes_for_size < new_bytes_for_size)
               then out ++ replicate (new_bytes_for_size - bytes_for_size) Byte.x00
               else take (start_pos + new_bytes_for_size) out in
    write_at (out ++ split) start_pos new_bytes_for_size (put_lenenc_int str_size).

(** Arrow's formatter: the text of a value of a type. *)
Variable format : DataType -> ArrowValue -> result bytes.

(** Strings and binary values are copied; booleans are written as digits. *)
Definition copies_as_is (dt : DataType) : bool :=
  match dt with DtBinary | DtLargeBinary | DtUtf8 | DtLargeUtf8 => true | _ => false end.

Definition size_hint (dt : DataType) (v : ArrowValue) : SizeHint :=
  match dt, v with
  | DtBinaryView, VBytes bs => from_size (Z.of_nat (length bs))
  | DtFixedSizeBinary n, _ => from_size n
  | _, _ => Small
  end.

Definition value_text (dt : DataType) (v : ArrowValue) : result bytes :=
  match dt, v with
  | DtBoolean, VBool b => Ok [if b then Byte.x31 else Byte.x30]
  | _, _ => format dt v
  end.

(** [serialize_next] of the serializer that [build_serializer] chooses for the column,
    at a position; past the end nothing is written. *)
Definition serialize_next (a : Array) (position : nat) (out : bytes) : result bytes :=
  match values a !! position with
  | None => Ok out
  | Some None => Ok (out ++ [MAGIC_TEXT_NULL])
  | Some (Some v) =>
      if copies_as_is (data_type a) then
        match v with VBytes bs => Ok (out ++ put_lenenc_str bs) | _ => Err (Panic "bug: invalid array type specified") end
      else
        let? text := value_text (data_type a) v in serialize_formatted (size_hint (data_type a) v) out text
  end.

(** The packets of a batch: each row starts with an empty buffer. *)
Definition text_row (columns : list Array) (i : nat) : result bytes :=
  result_foldl (fun out a => serialize_next a i out) [] columns.

Definition send_text_batch (columns : list Array) (num_rows : nat) : result (list bytes) :=
  result_mapM (text_row columns) (seq 0 num_rows).

Definition send_rows (rows : list (list (option bytes))) : list bytes :=
  foldl serialize_nullable_string [] <$> rows.

(** ** The text of a value does not depend on the guess of its size *)

Context `{!LenEncLaws}.

Lemma from_size_bytes n : get_size_bytes (from_size n) = lenenc_size n.
Proof. unfold from_size, lenenc_size. cbn. by repeat case_match. Qed.

Lemma hint_size h n : (min_str_size h <=? n)%Z && (n <? max_str_size h)%Z = true -> get_size_bytes h = lenenc_size n.
Proof.
  intros [Hmin%Z.leb_le Hmax%Z.ltb_lt]%andb_true_iff. unfold lenenc_size.
  destruct h; cbn [min_str_size max_str_size get_size_bytes] in *;
    destruct (Z.ltb_spec n 251), (Z.ltb_spec n 65536), (Z.ltb_spec n 16777216); lia.
Qed.

Lemma write_size out hole value n :
  fits_u 64 n -> hole = lenenc_size n ->
  write_at (out ++ replicate hole Byte.x00 ++ value) (length out) hole (put_lenenc_int n) = Ok (out ++ put_lenenc_int n ++ value).
Proof.
  intros Hn ->. unfold write_at. rewrite lenenc_length by done. rewrite bool_decide_true by lia. f_equal.
  rewrite take_app_length. do 2 f_equal. rewrite app_assoc, drop_app_ge by (rewrite length_app, length_replicate; lia).
  rewrite length_app, length_replicate. by rewrite Nat.sub_diag.
Qed.

(** Whatever size is guessed, the text is written with its length before it. *)
Lemma serialize_formatted_spec hint out value :
  (Z.of_nat (length value) < 2 ^ 64)%Z -> serialize_formatted hint out value = Ok (out ++ put_lenenc_str value).
Proof.
  intros Hlen. unfold serialize_formatted, put_lenenc_str. rewrite !length_app, length_replicate.
  replace (length out + get_size_bytes hint + length value - length out - get_size_bytes hint) with (length value) by lia.
  assert (fits_u 64 (Z.of_nat (length value))) as Hn by (unfold fits_u; lia).
  destruct (_ && _) eqn:Hfit; [rewrite <- app_assoc; apply write_size; [done|by apply hint_size]|].
  assert (drop (length out + get_size_bytes hint) ((out ++ replicate (get_size_bytes hint) Byte.x00) ++ value) = value) as ->.
  { rewrite drop_app_ge by (rewrite length_app, length_replicate; lia). rewrite length_app, length_replicate. by rewrite Nat.sub_diag. }
  assert (take (length out + get_size_bytes hint) ((out ++ replicate (get_size_bytes hint) Byte.x00) ++ value) =
    out ++ replicate (get_size_bytes hint) Byte.x00) as ->.
  { rewrite take_app_le by (rewrite length_app, length_replicate; lia). apply take_ge. rewrite length_app, length_replicate. lia. }
  rewrite from_size_bytes. set (k := lenenc_size (Z.of_nat (length value))).
  assert ((if bool_decide (get_size_bytes hint < k) then (out ++ replicate (get_size_bytes hint) Byte.x00) ++ replicate (k - get_size_bytes hint) Byte.x00
    else take (length out + k) (out ++ replicate (get_size_bytes hint) Byte.x00)) = out ++ replicate k Byte.x00) as ->.
  { case_bool_decide.
    - rewrite <- app_assoc, <- replicate_add. do 2 f_equal. lia.
    - rewrite firstn_app, take_ge by lia. replace (length out + k - length out) with k by lia. by rewrite take_replicate, Nat.min_l by lia. }
  rewrite <- app_assoc. by apply write_size.
Qed.

(** ** The client reads the rows that were sent *)

(** A cell of a row packet: the marker of NULL, or a string with its length. *)
Definition read_cell (bs : bytes) : option (option bytes * bytes) :=
  if bool_decide (head bs = Some MAGIC_TEXT_NULL) then Some (None, tail bs)
  else
    match eat_lenenc_int bs with
    | Some (n, r) => if (n <=? Z.of_nat (length r))%Z then Some (Some (take (Z.to_nat n) r), drop (Z.to_nat n) r) else None
    | None => None
    end.

Fixpoint read_row (columns : nat) (bs : bytes) : option (list (option bytes)) :=
  match columns with
  | O => if bool_decide (bs = []) then Some [] else None
  | Datatypes.S columns =>
      match read_cell bs with Some (c, r) => cons c <$> read_row columns r | None => None end
  end.

Lemma mjoin_cons {A} (x : list A) l : mjoin (x :: l) = x ++ mjoin l.
Proof. done. Qed.

Definition cell_bytes (c : option bytes) : bytes := serialize_nullable_string [] c.
Definition cell_fits (c : option bytes) : Prop := match c with Some s => (Z.of_nat (length s) < 2 ^ 64)%Z | None => True end.

Lemma serialize_app out c : serialize_nullable_string out c = out ++ cell_bytes c.
Proof. by destruct c. Qed.

Lemma read_cell_bytes c r : cell_fits c -> read_cell (cell_bytes c ++ r) = Some (c, r).
Proof.
  destruct c as [s|]; [|done]. cbn. intros Hs. assert (fits_u 64 (Z.of_nat (length s))) as Hn by (unfold fits_u; lia).
  unfold read_cell, put_lenenc_str. rewrite <- app_assoc. rewrite bool_decide_false.
  2: { pose proof (lenenc_not_null _ Hn) as Hh. pose proof (lenenc_length _ Hn) as Hl.
       destruct (put_lenenc_int (Z.of_nat (length s))) as [|b bs]; [|exact Hh]. cbn in Hl. unfold lenenc_size in Hl. by repeat case_match. }
  rewrite (lenenc_read _ _ Hn). rewrite (proj2 (Z.leb_le _ _)) by (rewrite length_app; lia).
  by rewrite Nat2Z.id, take_app_length, drop_app_length.
Qed.

Lemma read_row_bytes cells : Forall cell_fits cells -> read_row (length cells) (mjoin (cell_bytes <$> cells)) = Some cells.
Proof.
  induction 1 as [|c cells Hc _ IH]; [done|]. rewrite fmap_cons, mjoin_cons. cbn [length read_row].
  rewrite (read_cell_bytes c _ Hc). by rewrite IH.
Qed.

Lemma foldl_cells cells out : foldl serialize_nullable_string out cells = out ++ mjoin (cell_bytes <$> cells).
Proof.
  revert out. induction cells as [|c cells IH]; intros out; [by rewrite app_nil_r|]. rewrite fmap_cons, mjoin_cons. cbn [foldl].
  rewrite IH, serialize_app. by rewrite <- app_assoc.
Qed.

(** The text of the cell of a column: what the client should read. *)
Definition cell_text (a : Array) (i : nat) : result (option bytes) :=
  match values a !! i with
  | Some (Some v) =>
      if copies_as_is (data_type a) then match v with VBytes bs => Ok (Some bs) | _ => Err (Panic "bug: invalid array type specified") end
      else let? t := value_text (data_type a) v in Ok (Some t)
  | _ => Ok None
  end.

Lemma serialize_next_cell a i out c :
  i < length (values a) -> cell_text a i = Ok c -> cell_fits c -> serialize_next a i out = Ok (out ++ cell_bytes c).
Proof.
  intros Hi Hc Hf. unfold cell_text, serialize_next in *. destruct (lookup_lt_is_Some_2 _ _ Hi) as [v Hv]. rewrite Hv in *.
  destruct v as [v|]; [|by injection Hc as <-]. destruct (copies_as_is (data_type a)).
  - destruct v; try done. by injection Hc as <-.
  - inv_ok. cbn [result_bind]. by apply serialize_formatted_spec.
Qed.

Lemma text_row_cells columns i cells :
  Forall (fun a => i < length (values a)) columns -> result_mapM (fun a => cell_text a i) columns = Ok cells -> Forall cell_fits cells ->
  text_row columns i = Ok (mjoin (cell_bytes <$> cells)).
Proof.
  intros Hlen Hcells Hfit. unfold text_row. change (mjoin (cell_bytes <$> cells)) with ([] ++ mjoin (cell_bytes <$> cells)).
  generalize (@nil byte). revert cells Hcells Hfit. induction Hlen as [|a columns Ha _ IH]; intros cells Hcells Hfit out.
  - injection Hcells as <-. cbn. by rewrite app_nil_r.
  - cbn in Hcells. inv_ok. apply Forall_cons in Hfit as [Hc Hfit]. cbn [result_foldl].
    rewrite (serialize_next_cell _ _ _ _ Ha E Hc). cbn [result_bind]. rewrite (IH _ eq_refl Hfit). rewrite fmap_cons, mjoin_cons. by rewrite <- app_assoc.
Qed.

(** C36: A client reads the rows of a result of the text protocol exactly as they are: one
    packet for each row, in their order, and in each packet the text of every column,
    or NULL, whatever the sizes of the texts are. *)
Theorem text_rows_read_back columns num_rows rows :
  Forall (fun a => length (values a) = num_rows) columns ->
  result_mapM (fun i => result_mapM (fun a => cell_text a i) columns) (seq 0 num_rows) = Ok rows ->
  Forall (Forall cell_fits) rows ->
  exists packets, send_text_batch columns num_rows = Ok packets /\ mapM (read_row (length columns)) packets = Some rows.
Proof.
  intros Hlen Hrows Hfit. exists ((fun cells => mjoin (cell_bytes <$> cells)) <$> rows). unfold send_text_batch.
  assert (Forall (fun i => i < num_rows) (seq 0 num_rows)) as Hlt by (apply Forall_seq; lia).
  revert rows Hrows Hfit. induction Hlt as [|i rest Hi _ IH]; intros rows Hrows Hfit; cbn in Hrows; inv_ok; [done|].
  apply Forall_cons in Hfit as [Hc Hfit]. destruct (IH _ eq_refl Hfit) as [Hp Hr]. cbn [result_mapM].
  rewrite (text_row_cells columns i a); [|by eapply Forall_impl; [exact Hlen|]; cbn; intros x ->|done|done]. cbn [result_bind]. rewrite Hp.
  split; [done|]. rewrite mapM_Some in Hr |- *. rewrite fmap_cons. constructor; [|exact Hr].
  assert (length columns = length a) as ->; [|by apply read_row_bytes].
  clear -E. revert a E. induction columns as [|x columns IH]; intros a E; cbn in E; inv_ok; [done|]. cbn. by erewrite IH.
Qed.
End Text.

(** ** The binary protocol *)

(** [mysql_common]'s bitmap of the NULLs of a row. *)
Class NullBitmap := {
  bitmap_len : nat -> nat;
  bitmap_set : bytes -> nat -> bool -> result bytes
}.

Section Binary.
Context `{LenEnc} `{NullBitmap}.

(** Bytes of the integers and floats, and the types that are written as strings; other
    types are not implemented. *)
Definition binary_width (dt : DataType) : option nat :=
  match dt with
  | DtInt8 | DtUInt8 => Some 1
  | DtInt16 | DtUInt16 => Some 2
  | DtInt32 | DtUInt32 | DtFloat32 => Some 4
  | DtInt64 | DtUInt64 | DtFloat64 => Some 8
  | _ => None
  end.

Definition build_serializer (a : Array) : result (ArrowValue -> result bytes) :=
  match binary_width (data_type a) with
  | Some w => Ok (fun v => match v with VPrim z => Ok (to_le_bytes w z) | _ => Err (Panic "primitive array") end)
  | None =>
      if copies_as_is (data_type a) then
        Ok (fun v => match v with VBytes bs => Ok (put_lenenc_str bs) | _ => Err (Panic "byte array") end)
      else Err (Panic "no binary serializer for type")
  end.

(** The cells of row [pos]; the bit that is set is the one of the row. *)
Fixpoint binary_cells (pos : nat) (columns : list (Array * (ArrowValue -> result bytes))) (nulls out : bytes) : result (bytes * bytes) :=
  match columns with
  | [] => Ok (nulls, out)
  | (a, serialize) :: columns =>
      match values a !! pos with
      | None => Err (Panic "index out of bounds")
      | Some None => let? nulls := bitmap_set nulls pos true in binary_cells pos columns nulls out
      | Some (Some v) =>
          let? nulls := bitmap_set nulls pos false in
          let? bs := serialize v in
          binary_cells pos columns nulls (out ++ bs)
      end
  end.

(** A row: the header, the bitmap, which is kept from row to row, and the cells. *)
Definition binary_row (columns : list (Array * (ArrowValue -> result bytes))) (pos : nat) (nulls : bytes) : result (bytes * bytes) :=
  let? (nulls, cells) := binary_cells pos columns nulls [] in
  Ok (nulls, Byte.x00 :: nulls ++ cells).

Fixpoint binary_rows (columns : list (Array * (ArrowValue -> result bytes))) (rows : list nat) (nulls : bytes) : result (list bytes) :=
  match rows with
  | [] => Ok []
  | pos :: rows =>
      let? (nulls, packet) := binary_row columns pos nulls in
      let? packets := binary_rows columns rows nulls in
      Ok (packet :: packets)
  end.

Definition send_binary_batch (columns : list Array) (num_rows : nat) : result (list bytes) :=
  let? serializers := result_mapM build_serializer columns in
  binary_rows (zip columns serializers) (seq 0 num_rows) (replicate (bitmap_len (length columns)) Byte.x00).
End Binary.

(** ** Examples *)

(** The encodings of the protocol. *)
#[export] Instance protocol_lenenc : LenEnc := {
  put_lenenc_int n :=
    if (n <? 251)%Z then to_le_bytes 1 n
    else if (n <? 65536)%Z then Byte.xfc :: to_le_bytes 2 n
    else if (n <? 16777216)%Z then Byte.xfd :: to_le_bytes 3 n
    else Byte.xfe :: to_le_bytes 8 n;
  eat_lenenc_int bs :=
    match bs with
    | [] => None
    | b :: r =>
        let n := match b with Byte.xfc => 2 | Byte.xfd => 3 | Byte.xfe => 8 | _ => 0 end in
        if bool_decide (n = 0) then Some (from_le_bytes [b], r) else Some (from_le_bytes (take n r), drop n r)
    end
}.

Lemma small_int_byte n : (0 <= n < 251)%Z -> exists b, to_le_bytes 1 n = [b] /\ from_le_bytes [b] = n /\
  b <> Byte.xfb /\ b <> Byte.xfc /\ b <> Byte.xfd /\ b <> Byte.xfe.
Proof.
  intros Hn. pose proof (length_to_le_bytes 1 n) as Hl. destruct (to_le_bytes 1 n) as [|b [|? ?]] eqn:Hb; try done.
  exists b. split; [done|]. assert (from_le_bytes [b] = n) as Hv by (rewrite <- Hb; apply from_to_le_bytes; unfold fits_u; lia).
  split; [done|]. rewrite <- Hv in Hn. repeat split; intros ->; vm_compute in Hn; destruct Hn as [_ Hn]; discriminate Hn.
Qed.

Lemma le_bytes_read k n r : fits_u (8 * Z.of_nat k) n ->
  from_le_bytes (take k (to_le_bytes k n ++ r)) = n /\ drop k (to_le_bytes k n ++ r) = r.
Proof.
  intros Hn. pose proof (length_to_le_bytes k n) as Hl. rewrite take_app_le, take_ge by lia.
  rewrite drop_app_ge, Hl, Nat.sub_diag by lia. split; [by apply from_to_le_bytes|done].
Qed.

#[export] Instance protocol_lenenc_laws : LenEncLaws.
Proof.
  split.
  - intros n Hn. cbn. unfold lenenc_size. repeat case_match; cbn [length]; by rewrite ?length_to_le_bytes.
  - intros n r Hn. unfold fits_u in Hn. cbn -[from_le_bytes to_le_bytes take drop].
    destruct (Z.ltb_spec n 251).
    { destruct (small_int_byte n) as (b & -> & Hv & _ & H1 & H2 & H3); [lia|]. cbn [app].
      assert (match b with Byte.xfc => 2 | Byte.xfd => 3 | Byte.xfe => 8 | _ => 0 end = 0) as -> by (by destruct b).
      rewrite bool_decide_true by done. by rewrite Hv. }
    destruct (Z.ltb_spec n 65536); [|destruct (Z.ltb_spec n 16777216)]; cbn [app]; rewrite bool_decide_false by done;
      edestruct le_bytes_read as [-> ->]; try done; unfold fits_u; lia.
  - intros n Hn. unfold fits_u in Hn. cbn -[to_le_bytes]. repeat (case_match; try done).
    destruct (small_int_byte n) as (b & -> & _ & Hb & _); [apply Z.ltb_lt in H; lia|]. cbn. by intros [= ->].
Qed.

(** Two rows: a number and a name, and a name of 300 bytes without a number. *)
Definition demo_columns : list Array :=
  [{| data_type := DtInt32; values := [Some (VPrim 7); None] |};
   {| data_type := DtUtf8; values := [Some (VBytes [Byte.x61]); Some (VBytes (replicate 300 Byte.x62))] |}].
Definition demo_format (dt : DataType) (v : ArrowValue) : result bytes :=
  match v with VPrim z => Ok [Byte.x30; Byte.x37] | _ => Err (ExecError "format") end.

Lemma text_rows_read_back_witness : exists packets,
  send_text_batch demo_format demo_columns 2 = Ok packets /\
  mapM (read_row 2) packets = Some [[Some [Byte.x30; Byte.x37]; Some [Byte.x61]]; [None; Some (replicate 300 Byte.x62)]].
Proof.
  destruct (text_rows_read_back demo_format demo_columns 2
    [[Some [Byte.x30; Byte.x37]; Some [Byte.x61]]; [None; Some (replicate 300 Byte.x62)]]) as (packets & Hp & Hr).
  - repeat constructor.
  - vm_compute. reflexivity.
  - repeat constructor.
  - exists packets. split; [exact Hp|exact Hr].
Defined.

(** A bitmap with one bit for each column. *)
Definition flip_bit (b : byte) (i : nat) (v : bool) : byte :=
  let n := Z.of_N (Byte.to_N b) in
  let n := if v then Z.setbit n (Z.of_nat i) else Z.clearbit n (Z.of_nat i) in
  default Byte.x00 (Byte.of_N (Z.to_N n)).
#[export] Instance protocol_bitmap : NullBitmap := {
  bitmap_len columns := (columns + 7) / 8;
  bitmap_set bs i v :=
    match bs !! (i / 8) with
    | Some b => Ok (<[i / 8 := flip_bit b (i mod 8) v]> bs)
    | None => Err (Panic "index out of bounds")
    end
}.

(** Finding: the bit of a NULL is the one of the row, not the one of the column: a
    NULL in the first column of the first row is overwritten by the second column,
    and the client reads the second value as the first one. *)
Lemma binary_null_bitmap :
  send_binary_batch [{| data_type := DtInt8; values := [None] |}; {| data_type := DtInt8; values := [Some (VPrim 5)] |}] 1 =
  Ok [[Byte.x00; Byte.x00; Byte.x05]].
Proof. vm_compute. reflexivity. Qed.

(** Finding: a batch of the binary protocol with more rows than the bitmap has bits
    panics: one column, nine rows. *)
Lemma binary_many_rows_panic :
  send_binary_batch [{| data_type := DtInt8; values := replicate 9 (Some (VPrim 5)) |}] 9 = Err (Panic "index out of bounds").
Proof. vm_compute. reflexivity. Qed.
