(* ===== verification/CommandPhase.v ===== *)
(** * Commands of a client

    Models [frontends/mysql/src/command_phase]: the commands that a client sends once it
    is connected ([client_side_wrapper.rs], [commands/mod.rs], [statements.rs],
    [parser.rs], [arrow_helper.rs], [field_type.rs]) and the packets that it gets
    back ([client_side_helper.rs], [status.rs]). *)
From stdpp Require Import pretty.
From Stdlib Require Import Floats.SpecFloat.
From S2P Require Import Prelude Values Sql SqlSchema ArrowCodec PhysicalExprs Sinks CharUtils RowProtocol.

(** ** Statements ([parser.rs]) *)

(** Kinds of statements that the front end forwards. *)
Inductive StatementKind :=
  | KQuery | KInsert | KUpdate | KDelete | KCreateView | KCreateTable | KCreateVirtualTable | KCreateIndex | KCreateRole
  | KCreateSecret | KCreatePolicy | KCreateConnector | KAlterTable | KAlterIndex | KAlterView | KAlterType | KAlterRole
  | KAlterPolicy | KAlterConnector | KAlterSession | KAttachDatabase | KLockTables | KUnlockTables | KSet | KCommit
  | KRollback | KStartTransaction | KDrop | KOther.

Inductive ShowFilter := FilterLike (pattern : string) | FilterOther.

(** Parsed statements; [A] is the syntax of a statement that is forwarded. *)
Inductive SqlStatement (A : Type) :=
  | ShowDatabasesStmt
  | ShowVariablesStmt
  | ShowTablesStmt (extended full : bool) (filter : option ShowFilter)
  | ShowColumnsStmt (full : bool) (show_in : option (option (list (option string))))
  | ShowVariableStmt (variable : list string) (ast : A)
  | SetNamesStmt (charset_name : string) (collation_name : option string)
  | SetAssignmentStmt (variable : list (option string)) (ast : A)
  | UseStmt (db : list string) (ast : A)
  | OtherStmt (kind : StatementKind) (ast : A).
Arguments ShowDatabasesStmt {A}.
Arguments ShowVariablesStmt {A}.
Arguments ShowTablesStmt {A} extended full filter.
Arguments ShowColumnsStmt {A} full show_in.
Arguments ShowVariableStmt {A} variable ast.
Arguments SetNamesStmt {A} charset_name collation_name.
Arguments SetAssignmentStmt {A} variable ast.
Arguments UseStmt {A} db ast.
Arguments OtherStmt {A} kind ast.

Inductive MySqlFrontendCommand :=
  | ShowVariables
  | ShowDatabases
  | SwitchDatabase (db : string)
  | ShowTables (extended full : bool) (filter : option ShowFilter)
  | SetNames (charset_name : string) (collation_name : option string)
  | ShowColumns (full : bool) (table : string) (schema : option string)
  | ShowIndex (table : string) (schema : option string)
  | SetVariable.

Inductive StatementAction (A : Type) :=
  | Forward (statement : A) (should_return_ok : bool)
  | HandleLocal (command : MySqlFrontendCommand).
Arguments Forward {A} statement should_return_ok.
Arguments HandleLocal {A} command.

Definition should_return_ok (k : StatementKind) : bool := match k with KQuery | KOther => false | _ => true end.

Record SqlError := { sql_message : string; sql_code : option Z; sql_state : option string }.

Inductive CommandPhaseError :=
  | IoError (msg : string)
  | PacketCodecError (msg : string)
  | SqlErr (e : SqlError)
  | DataFusionErr (e : error)
  | UnknownCommandId (b : byte)
  | UnknownStatement (id : Z)
  | UnhandledCommand (b : byte)
  | ParserError
  | OtherError (msg : string).

Class ErrorText := error_text : CommandPhaseError -> string.

(** The conversion of an error to [SqlError]: its text, the [Debug] of the error, is cut
    after 256 bytes, which panics within a character. *)
Definition to_sql_error `{ErrorText} (e : CommandPhaseError) : result SqlError :=
  match e with
  | SqlErr e => Ok e
  | e =>
      let? message := string_truncate 256 (error_text e) in
      Ok {| sql_message := message; sql_code := Some 1%Z; sql_state := Some "HY000" |}
  end.

(** What handling a command ends with; a panic ends the thread of the connection. *)
Inductive outcome (A : Type) := Done (a : A) | Failed (e : CommandPhaseError) | Panicked.
Arguments Done {A} a.
Arguments Failed {A} e.
Arguments Panicked {A}.

Definition outcome_bind {A B} (m : outcome A) (f : A -> outcome B) : outcome B :=
  match m with Done a => f a | Failed e => Failed e | Panicked => Panicked end.

Definition of_result {A} (r : result A) : outcome A :=
  match r with Ok a => Done a | Err (Panic _) => Panicked | Err e => Failed (DataFusionErr e) end.

Fixpoint outcome_mapM {A B} (f : A -> outcome B) (l : list A) : outcome (list B) :=
  match l with
  | [] => Done []
  | a :: l => outcome_bind (f a) (fun b => outcome_bind (outcome_mapM f l) (fun bs => Done (b :: bs)))
  end.


(** [SHOW INDEX FROM table FROM schema] is parsed as a variable; indexing past its end
    panics. *)
Definition show_index (variable : list string) : outcome bool :=
  match variable with
  | [] => Panicked
  | v0 :: rest =>
      if bool_decide (to_ascii_lowercase v0 = "index") then
        match rest with
        | [] => Panicked
        | v1 :: _ => Done (bool_decide (to_ascii_lowercase v1 = "from"))
        end
      else Done false
  end.

Definition statement_action {A} (s : SqlStatement A) : outcome (StatementAction A) :=
  match s with
  | ShowDatabasesStmt => Done (HandleLocal ShowDatabases)
  | ShowVariablesStmt => Done (HandleLocal ShowVariables)
  | ShowTablesStmt extended full filter => Done (HandleLocal (ShowTables extended full filter))
  | ShowColumnsStmt full show_in =>
      match show_in with
      | Some (Some object_name) =>
          match reverse object_name with
          | Some table :: rest => Done (HandleLocal (ShowColumns full table (mjoin (head rest))))
          | _ => Failed ParserError
          end
      | _ => Failed ParserError
      end
  | ShowVariableStmt variable ast =>
      outcome_bind (show_index variable) (fun b : bool =>
        if b then
          match drop 2 variable with
          | table :: rest => Done (HandleLocal (ShowIndex table (rest !! 1)))
          | [] => Failed ParserError
          end
        else Done (Forward ast false))
  | SetNamesStmt charset_name collation_name => Done (HandleLocal (SetNames charset_name collation_name))
  | SetAssignmentStmt variable ast =>
      match variable with
      | [] => Panicked
      | Some ident :: _ =>
          if bool_decide (to_ascii_lowercase ident = "autocommit") then Done (Forward ast true) else Done (HandleLocal SetVariable)
      | None :: _ => Done (HandleLocal SetVariable)
      end
  | UseStmt [db] _ => Done (HandleLocal (SwitchDatabase db))
  | UseStmt _ ast => Done (Forward ast false)
  | OtherStmt kind ast => Done (Forward ast (should_return_ok kind))
  end.

(** ** Packets *)

Record StatusFlags := { more_results_exists : bool; status_autocommit : bool }.
Definition no_flags : StatusFlags := {| more_results_exists := false; status_autocommit := false |}.

Record Capabilities := { deprecate_eof : bool; protocol_41 : bool; query_attributes : bool }.

Inductive Packet :=
  | OkPacket (affected_rows last_insert_id : Z) (flags : StatusFlags)
  | EofOkPacket (flags : StatusFlags)      (* [CustomOkPacket::new_eof] *)
  | NewEofPacket (flags : StatusFlags)
  | OldEof                                 (* the header alone *)
  | ErrPacket (e : CommandPhaseError)
  | ColumnCount (n : Z)
  | ColumnDef (f : Field)
  | RowPacket (bs : bytes)
  | StatementPacket (statement_id num_params num_columns : Z).

Inductive SqlOk := EndOfResults | SimpleOk | DetailedOk (affected_rows last_insert_id : option Z).

Definition ok_packet (caps : Capabilities) (ok : SqlOk) (flags : StatusFlags) : Packet :=
  match ok with
  | EndOfResults =>
      if negb (deprecate_eof caps) then (if protocol_41 caps then NewEofPacket flags else OldEof) else EofOkPacket flags
  | SimpleOk => OkPacket 0 0 flags
  | DetailedOk affected_rows last_insert_id => OkPacket (default 0%Z affected_rows) (default 0%Z last_insert_id) flags
  end.

(** The packets before and after the rows of a result. *)
Definition result_columns (caps : Capabilities) (fields : list Field) : list Packet :=
  ColumnCount (Z.of_nat (length fields)) :: (ColumnDef <$> fields) ++
  (if negb (deprecate_eof caps) then
     [if protocol_41 caps then NewEofPacket {| more_results_exists := false; status_autocommit := true |} else OldEof]
   else []).

Definition result_eof (caps : Capabilities) (flags : StatusFlags) : Packet :=
  if deprecate_eof caps then ok_packet caps EndOfResults flags
  else NewEofPacket {| more_results_exists := more_results_exists flags; status_autocommit := true |}.

(** ** Prepared statements ([statements.rs]) *)

Record StatementResponse := { resp_id : Z; resp_columns : list Field; resp_parameters : gmap string DataType }.

Record SavedStatement := {
  statement_id : Z;
  backend_statement_id : Z;
  stmt_should_return_ok : bool;
  parameters : list DataType;
  columns : list Field
}.

Definition parameter_name (index : nat) : string := "$" +:+ pretty (N.of_nat index).

(** A missing parameter panics. *)
Definition new_from_statement (id : Z) (ok : bool) (r : StatementResponse) : outcome SavedStatement :=
  outcome_bind (outcome_mapM (fun i => match resp_parameters r !! parameter_name (i + 1) with
                                       | Some t => Done t
                                       | None => Panicked
                                       end) (seq 0 (size (resp_parameters r)))) (fun ps =>
  Done {| statement_id := id; stmt_should_return_ok := ok; backend_statement_id := resp_id r; columns := resp_columns r;
          parameters := ps |}).

Definition statement_packets (caps : Capabilities) (s : SavedStatement) : list Packet :=
  let eof := if negb (deprecate_eof caps) then [OldEof] else [] in
  let param t := ColumnDef {| field_name := ""; field_type := t; field_nullable := true; field_metadata := ∅ |} in
  StatementPacket (statement_id s) (wrap_u 16 (Z.of_nat (length (parameters s)))) (wrap_u 16 (Z.of_nat (length (columns s)))) ::
  (if bool_decide (length (parameters s) = 0) then [] else (param <$> parameters s) ++ eof) ++
  (if bool_decide (length (columns s) = 0) then [] else (ColumnDef <$> columns s) ++ eof).

(** ** Parameters of a statement ([arrow_helper.rs], [field_type.rs]) *)

Inductive ColumnType :=
  | TNull | TBit | TTiny | TShort | TYear | TInt24 | TLong | TLongLong | TFloat | TDouble | TDate | TTime | TTimestamp
  | TDateTime | TDecimal | TNewDecimal | TVarchar | TJson | TString | TVarString | TBlob | TTinyBlob | TMediumBlob
  | TLongBlob | TVector | TOtherType.

(** Lists, structures and the like are not handled. *)
Definition column_type_of (dt : DataType) : outcome ColumnType :=
  match dt with
  | DtNull => Done TNull
  | DtBoolean => Done TBit
  | DtInt8 | DtUInt8 => Done TTiny
  | DtInt16 | DtUInt16 => Done TShort
  | DtInt32 | DtUInt32 => Done TLong
  | DtInt64 | DtUInt64 => Done TLongLong
  | DtFloat16 | DtFloat32 => Done TFloat
  | DtFloat64 => Done TDouble
  | DtTimestamp _ _ => Done TTimestamp
  | DtDate32 | DtDate64 => Done TDate
  | DtTime32 _ | DtTime64 _ => Done TTime
  | DtDuration _ | DtInterval _ => Done TLong
  | DtBinary | DtFixedSizeBinary _ | DtLargeBinary | DtBinaryView | DtUtf8 | DtLargeUtf8 | DtUtf8View => Done TLongBlob
  | DtDecimal32 _ _ | DtDecimal64 _ _ | DtDecimal128 _ _ | DtDecimal256 _ _ => Done TDecimal
  | DtFixedSizeListFloat32 _ => Done TVector
  | DtList _ | DtDictionary _ _ | DtOther _ => Panicked
  end.

Definition is_unsigned_integer (dt : DataType) : bool :=
  match dt with DtUInt8 | DtUInt16 | DtUInt32 | DtUInt64 => true | _ => false end.

(** [ParseBuf::eat_*] panics when the buffer is too short. *)
Definition eat_le (n : nat) (bs : bytes) : outcome (Z * bytes) :=
  if bool_decide (n <= length bs) then Done (from_le_bytes (take n bs), drop n bs) else Panicked.

Section Parameters.
Context `{LenEnc}.
(** DataFusion's cast of a scalar; the numbers of the bits of a float; the characters
    of a byte string. *)
Variable cast_to : DataType -> ScalarValue -> result ScalarValue.
Variable float_of_bits : Z -> spec_float.
Variable double_of_bits : Z -> spec_float.
Variable from_utf8 : bytes -> option string.
(** The types of parameters that the client declares. *)
Variable column_type_try_from : Z -> option ColumnType.

Definition checked_eat_lenenc_str (bs : bytes) : option (bytes * bytes) :=
  match eat_lenenc_int bs with
  | Some (n, r) => if (n <=? Z.of_nat (length r))%Z then Some (take (Z.to_nat n) r, drop (Z.to_nat n) r) else None
  | None => None
  end.

Definition read_byte_array (bs : bytes) : outcome (bytes * bytes) :=
  match checked_eat_lenenc_str bs with Some r => Done r | None => Failed (DataFusionErr (ExecError "unexpected buf eof")) end.

(** The value in the type that the client declares. *)
Definition read_parameter (bs : bytes) (declared : ColumnType) (is_unsigned : bool) : outcome (ScalarValue * bytes) :=
  let int n u s := outcome_bind (eat_le n bs) (fun '(z, r) =>
    Done ((if is_unsigned then u (Some z) else s (Some (wrap_s (8 * Z.of_nat n) z))), r)) in
  match declared with
  | TNull => Done (SNull, bs)
  | TBit => outcome_bind (read_byte_array bs) (fun '(v, r) => Done (SBoolean (Some (negb (forallb (fun b => bool_decide (b = Byte.x00)) v))), r))
  | TTiny => int 1 SUInt8 SInt8
  | TShort | TYear => int 2 SUInt16 SInt16
  | TInt24 | TLong => int 4 SUInt32 SInt32
  | TLongLong => int 8 SUInt64 SInt64
  | TFloat => outcome_bind (eat_le 4 bs) (fun '(z, r) => Done (SFloat32 (Some (float_of_bits z)), r))
  | TDouble => outcome_bind (eat_le 8 bs) (fun '(z, r) => Done (SFloat64 (Some (double_of_bits z)), r))
  | TDate | TTime | TTimestamp | TDateTime | TDecimal | TNewDecimal => Panicked
  | TVarchar | TJson | TString | TVarString =>
      outcome_bind (read_byte_array bs) (fun '(v, r) =>
        match from_utf8 v with
        | Some s => Done (SUtf8 (Some s), r)
        | None => Failed (DataFusionErr (ExecError "Could not convert string to UTF8"))
        end)
  | TBlob | TTinyBlob | TMediumBlob | TLongBlob => outcome_bind (read_byte_array bs) (fun '(v, r) => Done (SBinary (Some v), r))
  | TVector | TOtherType => Panicked
  end.

Definition deserialize_parameter (bs : bytes) (declared : ColumnType) (expected : DataType) : outcome (ScalarValue * bytes) :=
  outcome_bind (read_parameter bs declared (is_unsigned_integer expected)) (fun '(v, r) =>
  outcome_bind (of_result (cast_to expected v)) (fun v => Done (v, r))).

(** The declared types: two bytes each, of which only the type is used, and with query
    attributes a name. *)
Fixpoint declared_types (attributes : bool) (n : nat) (bs : bytes) : outcome (list ColumnType * bytes) :=
  match n with
  | O => Done ([], bs)
  | Datatypes.S n =>
      outcome_bind (eat_le 2 bs) (fun '(z, bs) =>
      if (255 <? z)%Z then Panicked
      else
        match column_type_try_from z with
        | None => Panicked
        | Some t =>
            outcome_bind (if attributes then match checked_eat_lenenc_str bs with Some (_, r) => Done r | None => Panicked end else Done bs)
              (fun bs => outcome_bind (declared_types attributes n bs) (fun '(ts, bs) => Done (t :: ts, bs)))
        end)
  end.

Fixpoint read_values (params : list (DataType * ColumnType)) (bs : bytes) : outcome (list ScalarValue) :=
  match params with
  | [] => Done []
  | (t, declared) :: params =>
      outcome_bind (deserialize_parameter bs declared t) (fun '(v, bs) =>
      outcome_bind (read_values params bs) (fun vs => Done (v :: vs)))
  end.

(** The rest of an execute packet: the bitmap of NULLs is read and not used. *)
Definition execute_parameters (bitmap_len : nat -> nat) (attributes : bool) (s : SavedStatement) (bs : bytes) : outcome (list ScalarValue) :=
  outcome_bind (eat_le 1 bs) (fun '(_, bs) =>
  outcome_bind (eat_le 4 bs) (fun '(iter_count, bs) =>
  if negb (iter_count =? 1)%Z then Panicked
  else
    outcome_bind (if attributes then match eat_lenenc_int bs with Some (n, r) => Done (Z.to_nat n, r) | None => Panicked end
                  else Done (length (parameters s), bs)) (fun '(count, bs) =>
    if bool_decide (count = 0) then Done []
    else if bool_decide (length bs < bitmap_len count) then Failed (OtherError "failed reading packet")
    else
      outcome_bind (eat_le 1 (drop (bitmap_len count) bs)) (fun '(flags, bs) =>
      outcome_bind
        (if Z.testbit flags 0 then
           outcome_bind (declared_types attributes count bs) (fun '(ts, bs) =>
           if bool_decide (length ts = length (parameters s)) then Done (ts, bs) else Panicked)
         else if attributes then Panicked
         else outcome_bind (outcome_mapM column_type_of (parameters s)) (fun ts => Done (ts, bs))) (fun '(ts, bs) =>
      read_values (zip (parameters s) ts) bs))))).
End Parameters.

(** ** The session of a client *)

Record Stream := { stream_fields : list Field; stream_batches : list (result RecordBatch) }.

(** What the front end asks of the proxy ([ProxySession]). *)
Class ProxySession (S A : Type) := {
  query_immediate : A -> S -> S * result Stream;
  statement_open : A -> S -> S * result StatementResponse;
  statement_execute : Z -> list ScalarValue -> S -> S * result Stream;
  statement_close : Z -> S -> S * result unit;
  switch_database : string -> S -> S * result unit
}.

(** What it reads from the engine to answer local commands. *)
Inductive Constraint := PrimaryKey (positions : list nat) | UniqueKey (positions : list nat).
Class Engine (S : Type) := {
  current_schema : S -> string;
  list_tables : S -> string -> list string;
  table_provider : S -> string -> string -> result (list Field * option (list Constraint));
  schema_names : S -> list string;
  system_variables : S -> option (list (string * string))
}.

(** ** Local commands ([commands/mod.rs]) *)

Definition utf8_field (n : string) (nullable : bool) : Field :=
  {| field_name := n; field_type := DtUtf8; field_nullable := nullable; field_metadata := ∅ |}.

(** The rows of a local command. *)
Abbreviation Rows := (list (list (option string))).

Section Local.
Context {S : Type} `{Engine S}.

Definition show_variables_rows (s : S) : list Field * Rows :=
  ([utf8_field "Variable_name" true; utf8_field "Value" false],
   match system_variables s with Some vs => (fun '(k, v) => [Some k; Some v]) <$> vs | None => [] end).

Definition show_tables_rows (full : bool) (filter : option ShowFilter) (s : S) : list Field * Rows :=
  let schema := current_schema s in
  (utf8_field ("Tables_in_" +:+ schema) true :: (if full then [utf8_field "Table_type" false] else []),
   (fun t => Some t :: (if full then [Some "BASE TABLE"] else [])) <$>
     List.filter (fun t => match filter with
                           | Some (FilterLike v) => bool_decide (t = v)
                           | Some FilterOther => false
                           | None => true
                           end) (list_tables s schema)).

Definition column_row (full : bool) (f : Field) : list (option string) :=
  [Some (field_name f); raw_source_type f] ++ (if full then [field_metadata f !! KEY_RAW_COLLATION] else []) ++
  [Some (if field_nullable f then "YES" else "NO"); Some ""; default_value f;
   match default_value f with Some _ => Some "DEFAULT_GENERATED" | None => Some "" end] ++
  (if full then [Some "select,insert,update,references"; Some ""] else []).

Definition column_fields (full : bool) : list Field :=
  (fun n => utf8_field n false) <$>
  (["Field"; "Type"] ++ (if full then ["Collation"] else []) ++ ["Null"; "Key"; "Default"; "Extra"] ++
   (if full then ["Privileges"; "Comment"] else [])).

Definition show_columns_rows (full : bool) (table : string) (schema : option string) (s : S) : outcome (list Field * Rows) :=
  outcome_bind (of_result (table_provider s (default (current_schema s) schema) table)) (fun '(fields, _) =>
  Done (column_fields full, column_row full <$> fields)).

Definition index_fields : list Field :=
  (fun n => utf8_field n false) <$>
  ["Table"; "Non_unique"; "Key_name"; "Seq_in_index"; "Column_name"; "Collation"; "Cardinality"; "Sub_part"; "Packed";
   "Null"; "Index_type"; "Comment"; "Index_comment"; "Visible"; "Expression"].

Definition index_row (table key : string) (pos : nat) (column : string) : list (option string) :=
  [Some table; Some "0"; Some key; Some (pretty (N.of_nat pos)); Some column; Some "A"; Some "0"; None; None; Some "";
   Some "BTREE"; Some ""; Some ""; Some "YES"; None].

(** Positions past the end of the schema panic. *)
Definition constraint_rows (table : string) (fields : list Field) (c : Constraint) : outcome Rows :=
  let names ps := outcome_mapM (fun p => match fields !! p with Some f => Done (field_name f) | None => Panicked end) ps in
  let rows key l := imap (fun i c => index_row table key (i + 1) c) l in
  match c with
  | PrimaryKey ps => outcome_bind (names ps) (fun l => Done (rows "PRI" l))
  | UniqueKey ps =>
      outcome_bind (names ps) (fun l => match l with h :: _ => Done (rows h l) | [] => Panicked end)
  end.

Definition show_index_rows (table : string) (schema : option string) (s : S) : outcome (list Field * Rows) :=
  outcome_bind (of_result (table_provider s (default (current_schema s) schema) table)) (fun '(fields, constraints) =>
  outcome_bind (outcome_mapM (constraint_rows table fields) (default [] constraints)) (fun rows =>
  Done (index_fields, mjoin rows))).

Definition show_databases_rows (s : S) : list Field * Rows :=
  ([utf8_field "Database" false], (fun n => [Some n]) <$> schema_names s).

(** The rows of the commands that have some. *)
Definition command_rows (c : MySqlFrontendCommand) (s : S) : outcome (option (list Field * Rows)) :=
  match c with
  | SwitchDatabase _ | SetNames _ _ | SetVariable => Done None
  | ShowVariables => Done (Some (show_variables_rows s))
  | ShowTables _ full filter => Done (Some (show_tables_rows full filter s))
  | ShowColumns full table schema => outcome_bind (show_columns_rows full table schema s) (fun r => Done (Some r))
  | ShowIndex table schema => outcome_bind (show_index_rows table schema s) (fun r => Done (Some r))
  | ShowDatabases => Done (Some (show_databases_rows s))
  end.
End Local.

(** ** The client *)

Record Client (S : Type) := {
  sent : list Packet;
  caps : Capabilities;
  session : S;
  statements : gmap Z SavedStatement;
  current_statement_id : Z;
  supports_multiple_statements : bool
}.
Arguments sent {S} c.
Arguments caps {S} c.
Arguments session {S} c.
Arguments statements {S} c.
Arguments current_statement_id {S} c.
Arguments supports_multiple_statements {S} c.

(** Handling a command changes the client and ends with an outcome; packets that were
    sent stay sent when it fails. *)
Definition CM (S B : Type) : Type := Client S -> Client S * outcome B.

Section Handlers.
Context {S A : Type} `{ProxySession S A} `{Engine S} `{LenEnc} `{NullBitmap}.
(** The parser of SQL, the rewriting of statements and of their placeholders, and the
    conversions of values. *)
Variable parse_sql : bytes -> outcome (list (SqlStatement A)).
Variable rewrite_statement : A -> result A.
Variable number_placeholders : A -> A.
Variable format : DataType -> ArrowValue -> result bytes.
Variable cast_to : DataType -> ScalarValue -> result ScalarValue.
Variable float_of_bits : Z -> spec_float.
Variable double_of_bits : Z -> spec_float.
Variable from_utf8 : bytes -> option string.
Variable column_type_try_from : Z -> option ColumnType.
Context `{ErrorText}.

Definition ret {B} (b : B) : CM S B := fun c => (c, Done b).
Definition fail {B} (e : CommandPhaseError) : CM S B := fun c => (c, Failed e).
Definition panic {B} : CM S B := fun c => (c, Panicked).
Definition lift {B} (o : outcome B) : CM S B := fun c => (c, o).
Definition bind {B C} (m : CM S B) (f : B -> CM S C) : CM S C :=
  fun c => let '(c, o) := m c in match o with Done b => f b c | Failed e => (c, Failed e) | Panicked => (c, Panicked) end.
Local Notation "'let!' x := m 'in' k" := (bind m (fun x => k)) (at level 10, x pattern, k at level 200).

Definition get_client : CM S (Client S) := fun c => (c, Done c).

Definition send (ps : list Packet) : CM S unit := fun c =>
  ({| sent := sent c ++ ps; caps := caps c; session := session c; statements := statements c;
      current_statement_id := current_statement_id c; supports_multiple_statements := supports_multiple_statements c |}, Done tt).

Definition on_session {B} (f : S -> S * result B) : CM S B := fun c =>
  let '(s, r) := f (session c) in
  ({| sent := sent c; caps := caps c; session := s; statements := statements c;
      current_statement_id := current_statement_id c; supports_multiple_statements := supports_multiple_statements c |}, of_result r).

Definition set_statements (m : gmap Z SavedStatement) : CM S unit := fun c =>
  ({| sent := sent c; caps := caps c; session := session c; statements := m;
      current_statement_id := current_statement_id c; supports_multiple_statements := supports_multiple_statements c |}, Done tt).

(** [fetch_add]: the old value, and the counter wraps. *)
Definition next_statement_id : CM S Z := fun c =>
  ({| sent := sent c; caps := caps c; session := session c; statements := statements c;
      current_statement_id := wrap_u 32 (current_statement_id c + 1);
      supports_multiple_statements := supports_multiple_statements c |}, Done (current_statement_id c)).

Definition set_multiple (b : bool) : CM S unit := fun c =>
  ({| sent := sent c; caps := caps c; session := session c; statements := statements c;
      current_statement_id := current_statement_id c; supports_multiple_statements := b |}, Done tt).

Definition handle_ok (ok : SqlOk) (flags : StatusFlags) : CM S unit :=
  let! c := get_client in send [ok_packet (caps c) ok flags].

(** ** Results *)

Inductive RowHandler := TextRows | BinaryRows.

(** Rows one after the other; a row that cannot be written panics. *)
Fixpoint send_rows_until (rows : list (result bytes)) : CM S unit :=
  match rows with
  | [] => ret tt
  | Ok bs :: rows => let! _ := send [RowPacket bs] in send_rows_until rows
  | Err _ :: _ => panic
  end.

(** The rows of the binary protocol, until one panics. *)
Fixpoint binary_rows_until (columns : list (Array * (ArrowValue -> result bytes))) (rows : list nat) (nulls : bytes) : list (result bytes) :=
  match rows with
  | [] => []
  | pos :: rows =>
      match binary_row columns pos nulls with
      | Ok (nulls, packet) => Ok packet :: binary_rows_until columns rows nulls
      | Err e => [Err e]
      end
  end.

Definition batch_rows_of (h : RowHandler) (b : RecordBatch) : list (result bytes) :=
  match h with
  | TextRows => text_row format (batch_columns b) <$> seq 0 (batch_rows b)
  | BinaryRows =>
      match result_mapM build_serializer (batch_columns b) with
      | Ok serializers =>
          binary_rows_until (zip (batch_columns b) serializers) (seq 0 (batch_rows b))
            (replicate (bitmap_len (length (batch_columns b))) Byte.x00)
      | Err e => [Err e]
      end
  end.

Fixpoint send_records_stream (h : RowHandler) (batches : list (result RecordBatch)) : CM S unit :=
  match batches with
  | [] => ret tt
  | b :: batches =>
      let! b := lift (of_result b) in
      let! _ := send_rows_until (batch_rows_of h b) in
      send_records_stream h batches
  end.

Definition handle_query_result (h : RowHandler) (results : Stream) (should_ok : bool) (flags : StatusFlags) : CM S unit :=
  if should_ok then
    let! res := lift (of_result (result_mapM id (stream_batches results))) in
    match res with
    | b :: _ =>
        let! r := lift (of_result (dml_try_from b)) in
        handle_ok (DetailedOk (Some (Sinks.num_rows r)) (Sinks.last_insert_id r)) flags
    | [] => handle_ok SimpleOk flags
    end
  else
    let! c := get_client in
    let! _ := send (result_columns (caps c) (stream_fields results)) in
    let! _ := send_records_stream h (stream_batches results) in
    send [result_eof (caps c) flags].

Definition handle_local_command (cmd : MySqlFrontendCommand) (flags : StatusFlags) : CM S unit :=
  let! c := get_client in
  match cmd with
  | SwitchDatabase db => let! _ := on_session (switch_database db) in handle_ok SimpleOk flags
  | _ =>
      let! rows := lift (command_rows cmd (session c)) in
      match rows with
      | None => handle_ok SimpleOk flags
      | Some (fields, rows) =>
          let! _ := send (result_columns (caps c) fields) in
          let! _ := send (RowPacket <$> send_rows ((fun row : list (option string) => option_map String.list_byte_of_string <$> row) <$> rows)) in
          send [result_eof (caps c) flags]
      end
  end.

(** ** Queries and prepared statements *)

Definition sql_to_statements (query : bytes) : CM S (list (StatementAction A)) :=
  lift (outcome_bind (parse_sql query) (outcome_mapM statement_action)).

Definition handle_statement (a : StatementAction A) (status : StatusFlags) : CM S unit :=
  match a with
  | Forward q ok =>
      let! q := lift (of_result (rewrite_statement q)) in
      let! result := on_session (query_immediate q) in
      handle_query_result TextRows result ok status
  | HandleLocal cmd => handle_local_command cmd status
  end.

(** All statements but the last say that more results follow. *)
Fixpoint handle_statements (l : list (StatementAction A)) : CM S unit :=
  match l with
  | [] => ret tt
  | [a] => handle_statement a no_flags
  | a :: l =>
      let! _ := handle_statement a {| more_results_exists := true; status_autocommit := false |} in handle_statements l
  end.

Definition handle_query (query : bytes) : CM S unit :=
  let! q := sql_to_statements query in
  match q with [] => handle_ok SimpleOk no_flags | _ => handle_statements q end.

Definition do_prepare_statement (query : bytes) : CM S SavedStatement :=
  let! q := sql_to_statements query in
  match q with
  | [] => fail (DataFusionErr (PlanError "Empty statement."))
  | [Forward q ok] =>
      let! q := lift (of_result (rewrite_statement q)) in
      let! result := on_session (statement_open (number_placeholders q)) in
      let! id := next_statement_id in
      lift (new_from_statement id ok result)
  | [HandleLocal _] => panic
  | _ => fail (DataFusionErr (NotImplemented "TODO: Multiple queries in single statement are not implemented yet."))
  end.

Definition handle_prepare (query : bytes) : CM S unit :=
  let! s := do_prepare_statement query in
  let! c := get_client in
  let! _ := set_statements (<[statement_id s := s]> (statements c)) in
  send (statement_packets (caps c) s).

Definition handle_execute (bs : bytes) : CM S unit :=
  let! (id, bs) := lift (eat_le 4 bs) in
  let! c := get_client in
  match statements c !! id with
  | None => fail (UnknownStatement id)
  | Some s =>
      let! values := lift (execute_parameters cast_to float_of_bits double_of_bits from_utf8 column_type_try_from
                             bitmap_len (query_attributes (caps c)) s bs) in
      let! result := on_session (statement_execute (backend_statement_id s) values) in
      handle_query_result BinaryRows result (stmt_should_return_ok s) no_flags
  end.

(** A query with literals that are not UTF-8 is executed as a statement. *)
Definition handle_com_query (query : bytes) : CM S unit :=
  let! (text, params) := lift (of_result (extract_invalid_bytes query)) in
  match params with
  | Some params =>
      let! s := do_prepare_statement text in
      let! result := on_session (statement_execute (backend_statement_id s) ((fun p => SBinary (Some p)) <$> params)) in
      handle_query_result TextRows result (stmt_should_return_ok s) no_flags
  | None => handle_query text
  end.

Definition handle_close (bs : bytes) : CM S unit :=
  let! (id, _) := lift (eat_le 4 bs) in
  let! c := get_client in
  let! _ := set_statements (delete id (statements c)) in
  match statements c !! id with
  | Some s => on_session (statement_close (backend_statement_id s))
  | None => ret tt
  end.

(** ** Packets of the client *)

Inductive HandleResult := HandledPacket | ConnectionClosed (reason : string).

(** [eat_null_str]: up to the first zero byte. *)
Fixpoint eat_null_str (bs : bytes) : bytes :=
  match bs with [] => [] | b :: bs => if bool_decide (b = Byte.x00) then [] else b :: eat_null_str bs end.

(** [as_str]: sequences that are not characters are replaced. *)
Definition from_utf8_lossy (bs : bytes) : bytes :=
  tokens bs ≫= fun '(ok, c) => if (ok : bool) then c else [Byte.xef; Byte.xbf; Byte.xbd].

(** [ComQuery::deserialize], after the header; parameters of queries are not handled. *)
Definition com_query (attributes : bool) (bs : bytes) : outcome bytes :=
  if attributes then
    match eat_lenenc_int bs with
    | Some (count, bs) =>
        match eat_lenenc_int bs with
        | Some (_, bs) => if (0 <? count)%Z then Panicked else Done bs
        | None => Panicked
        end
    | None => Panicked
    end
  else Done bs.

Definition handle_packet_can_error (packet : bytes) : CM S HandleResult :=
  let handled (m : CM S unit) := let! _ := m in ret HandledPacket in
  match packet with
  | [] => panic
  | header :: rest =>
      match header with
      | Byte.x01 => ret (ConnectionClosed "closed gracefully (received QUIT command)")
      | Byte.x02 =>
          handled (match from_utf8 (eat_null_str rest) with
                   | Some schema_name => handle_local_command (SwitchDatabase schema_name) no_flags
                   | None => panic
                   end)
      | Byte.x03 =>
          handled (let! c := get_client in
                   let! query := lift (com_query (query_attributes (caps c)) rest) in
                   handle_com_query query)
      | Byte.x04 => handled (handle_ok EndOfResults no_flags)
      | Byte.x16 => handled (handle_prepare (from_utf8_lossy rest))
      | Byte.x1b =>
          handled (let! (opt, _) := lift (eat_le 2 rest) in
                   if (opt =? 0)%Z then let! _ := set_multiple true in handle_ok EndOfResults no_flags
                   else if (opt =? 1)%Z then let! _ := set_multiple false in handle_ok EndOfResults no_flags
                   else panic)
      | Byte.x17 => handled (handle_execute rest)
      | Byte.x19 => handled (handle_close rest)
      | Byte.x0e => handled (handle_ok SimpleOk no_flags)
      | Byte.x00 | Byte.x1a | Byte.xfb => fail (UnhandledCommand header)
      | _ => fail (UnknownCommandId header)
      end
  end.

(** One packet of the client, read from the connection, or the end of the connection. *)
Inductive Incoming := Closed | Malformed | Received (packet : bytes).

Definition read_handle_next_command (incoming : Incoming) : CM S HandleResult := fun c =>
  match incoming with
  | Closed => (c, Done (ConnectionClosed "closed by peer"))
  | Malformed => (c, Done (ConnectionClosed "failed to handle incoming packet"))
  | Received packet =>
      let '(c, o) := handle_packet_can_error packet c in
      match o with
      | Failed e =>
          match to_sql_error e with
          | Ok _ => (bind (send [ErrPacket e]) (fun _ => ret HandledPacket)) c
          | Err _ => (c, Panicked)
          end
      | o => (c, o)
      end
  end.
End Handlers.
