(* ===== verification/StatusPackets.v ===== *)
(** * Status packets

    Models the packets that end a command: [frontends/mysql/src/status.rs] and
    [client_side_helper.rs] (OK and end of rows), and [protocols/mysql/src/sql_error.rs]
    (errors). The packets of CommandPhase.v become bytes; the encoding of the SQL state,
    which is the client library's, is the class [SqlStateCodec]. *)
From S2P Require Import Prelude Values Sql SqlSchema ArrowCodec CharUtils RowProtocol CommandPhase.

(** ** Writing *)

(** [StatusFlags]: SERVER_STATUS_AUTOCOMMIT and SERVER_MORE_RESULTS_EXISTS. *)
Definition status_bits (flags : StatusFlags) : Z :=
  Z.lor (if status_autocommit flags then 2 else 0) (if more_results_exists flags then 8 else 0).

Record CustomOkPacket := {
  packet_header : byte; affected_rows : Z; last_insert_id : Z; status_flags : StatusFlags; warnings : Z;
  info : bytes; session_state_info : bytes
}.

Definition custom_ok_new (affected_rows last_insert_id : Z) (status_flags : StatusFlags) (warnings : Z)
    (info session_state_info : option bytes) : CustomOkPacket :=
  {| packet_header := Byte.x00; affected_rows := affected_rows; last_insert_id := last_insert_id;
     status_flags := status_flags; warnings := warnings; info := default [] info;
     session_state_info := default [] session_state_info |}.

Definition custom_ok_new_eof (status_flags : StatusFlags) (warnings : Z) (info session_state_info : option bytes) : CustomOkPacket :=
  {| packet_header := Byte.xfe; affected_rows := 0; last_insert_id := 0; status_flags := status_flags; warnings := warnings;
     info := default [] info; session_state_info := default [] session_state_info |}.

(** [SqlState]: five bytes. *)
Class SqlStateCodec := {
  put_sql_state : bytes -> bytes;
  eat_sql_state : bytes -> option (bytes * bytes)
}.

Class SqlStateCodecLaws `{SqlStateCodec} := {
  sql_state_read st r : length st = 5 -> eat_sql_state (put_sql_state st ++ r) = Some (st, r)
}.

Section Write.
Context `{LenEnc} `{SqlStateCodec}.

Definition custom_ok_body (p : CustomOkPacket) : bytes :=
  put_lenenc_int (affected_rows p) ++ put_lenenc_int (last_insert_id p) ++
  to_le_bytes 2 (status_bits (status_flags p)) ++ to_le_bytes 2 (warnings p) ++
  put_lenenc_str (info p) ++ put_lenenc_str (session_state_info p).

Definition custom_ok_serialize (p : CustomOkPacket) : bytes := packet_header p :: custom_ok_body p.

Definition new_eof_serialize (flags : StatusFlags) (warnings : Z) : bytes :=
  Byte.xfe :: to_le_bytes 2 warnings ++ to_le_bytes 2 (status_bits flags).

(** The loop over the five bytes of the state; the missing ones are [30u8]. *)
Definition state_bytes (state : option string) : bytes :=
  let src_bytes := match state with Some s => string_bytes s | None => [] end in
  (fun i => default Byte.x1e (src_bytes !! i)) <$> seq 0 5.

Definition sql_error_serialize (e : SqlError) : bytes :=
  Byte.xff :: to_le_bytes 2 (match sql_code e with Some v => wrap_u 16 v | None => 0 end) ++
  put_sql_state (state_bytes (sql_state e)) ++ string_bytes (sql_message e).

(** [handle_ok] and [handle_error]: the bytes of a packet that ends a command. *)
Definition status_packet_bytes `{ErrorText} (p : Packet) : result (option bytes) :=
  match p with
  | OkPacket rows id flags => Ok (Some (custom_ok_serialize (custom_ok_new rows id flags 0 None None)))
  | EofOkPacket flags => Ok (Some (custom_ok_serialize (custom_ok_new_eof flags 0 None None)))
  | NewEofPacket flags => Ok (Some (new_eof_serialize flags 0))
  | OldEof => Ok (Some [Byte.xfe])
  | ErrPacket e => let? e := to_sql_error e in Ok (Some (sql_error_serialize e))
  | _ => Ok None
  end.
End Write.

(** ** Reading

    How a client reads a status packet, as the protocol documents it: what it expects
    depends on its capabilities. *)

(** CLIENT_SESSION_TRACK and CLIENT_TRANSACTIONS, which the server reads nothing of. *)
Record Reader := { reader_caps : Capabilities; session_track : bool; transactions : bool }.

Inductive ClientStatus :=
  | ClientOk (affected_rows last_insert_id : Z) (status warnings : Z) (info : bytes)
  | ClientEndOfRows (status : Z)
  | ClientEnd                                            (* before protocol 4.1 *)
  | ClientError (code : Z) (state : option bytes) (message : bytes).

Section Read.
Context `{LenEnc} `{SqlStateCodec}.

Definition read_le (n : nat) (bs : bytes) : option (Z * bytes) :=
  if bool_decide (n <= length bs) then Some (from_le_bytes (take n bs), drop n bs) else None.

Definition read_lenenc_str (bs : bytes) : option (bytes * bytes) :=
  eat_lenenc_int bs ≫= fun '(n, r) =>
  if bool_decide (Z.to_nat n <= length r) then Some (take (Z.to_nat n) r, drop (Z.to_nat n) r) else None.

(** The status and the warnings. *)
Definition read_status (c : Reader) (bs : bytes) : option (Z * Z * bytes) :=
  if protocol_41 (reader_caps c) then
    read_le 2 bs ≫= fun '(status, bs) => read_le 2 bs ≫= fun '(warnings, bs) => Some (status, warnings, bs)
  else if transactions c then read_le 2 bs ≫= fun '(status, bs) => Some (status, 0%Z, bs)
  else Some (0%Z, 0%Z, bs).

(** With session tracking the text has a length and, when the status says so, is followed
    by the changes of the session; otherwise it is the rest of the packet. *)
Definition read_info (c : Reader) (status : Z) (bs : bytes) : option bytes :=
  if session_track c then
    read_lenenc_str bs ≫= fun '(info, bs) =>
    if Z.testbit status 14 then fst <$> ((fun '(_, r) => (info, r)) <$> read_lenenc_str bs) else Some info
  else Some bs.

Definition client_ok (c : Reader) (bs : bytes) : option (Z * Z * Z * Z * bytes) :=
  eat_lenenc_int bs ≫= fun '(rows, bs) =>
  eat_lenenc_int bs ≫= fun '(id, bs) =>
  read_status c bs ≫= fun '(status, warnings, bs) =>
  read_info c status bs ≫= fun info => Some (rows, id, status, warnings, info).

Definition client_end (c : Reader) (bs : bytes) : option ClientStatus :=
  if deprecate_eof (reader_caps c) then (fun '(_, _, status, _, _) => ClientEndOfRows status) <$> client_ok c bs
  else if protocol_41 (reader_caps c) then
    read_le 2 bs ≫= fun '(_, bs) => read_le 2 bs ≫= fun '(status, bs) =>
    if bool_decide (bs = []) then Some (ClientEndOfRows status) else None
  else if bool_decide (bs = []) then Some ClientEnd else None.

Definition client_error (c : Reader) (bs : bytes) : option ClientStatus :=
  read_le 2 bs ≫= fun '(code, bs) =>
  if protocol_41 (reader_caps c) then eat_sql_state bs ≫= fun '(state, message) => Some (ClientError code (Some state) message)
  else Some (ClientError code None bs).

Definition client_status (c : Reader) (bs : bytes) : option ClientStatus :=
  match bs with
  | Byte.x00 :: bs => (fun '(rows, id, status, warnings, info) => ClientOk rows id status warnings info) <$> client_ok c bs
  | Byte.xfe :: bs => client_end c bs
  | Byte.xff :: bs => client_error c bs
  | _ => None
  end.
End Read.

(** ** Every status is read back *)

Section ReadBack.
Context `{LenEncLaws} `{SqlStateCodecLaws}.

Lemma read_le_app n z r : fits_u (8 * Z.of_nat n) z -> read_le n (to_le_bytes n z ++ r) = Some (z, r).
Proof.
  intros Hz. unfold read_le. rewrite bool_decide_true by (rewrite length_app, length_to_le_bytes; lia).
  rewrite take_app_length', drop_app_length' by (by rewrite length_to_le_bytes). by rewrite from_to_le_bytes.
Qed.

Lemma read_lenenc_str_app bs r : (Z.of_nat (length bs) < 2 ^ 64)%Z -> read_lenenc_str (put_lenenc_str bs ++ r) = Some (bs, r).
Proof.
  intros Hb. unfold read_lenenc_str, put_lenenc_str. rewrite <- app_assoc, lenenc_read by (unfold fits_u; lia). cbn.
  rewrite Nat2Z.id, bool_decide_true by (rewrite length_app; lia). by rewrite take_app_length, drop_app_length.
Qed.

Lemma status_bits_fit flags : fits_u 16 (status_bits flags).
Proof. unfold fits_u. by destruct flags as [[] []]. Qed.

(** The bits tell the flags. *)
Lemma status_bits_inj f1 f2 : status_bits f1 = status_bits f2 -> f1 = f2.
Proof. by destruct f1 as [[] []], f2 as [[] []]. Qed.

Lemma lenenc_not_empty n r : fits_u 64 n -> put_lenenc_int n ++ r <> [].
Proof.
  intros Hn Hr%(f_equal length). rewrite length_app, lenenc_length in Hr by done. unfold lenenc_size in Hr. repeat case_match; cbn in Hr; lia.
Qed.

(** The text that a client finds in an OK packet: none with session tracking, and
    otherwise the two lengths that are sent anyway. *)
Definition seen_info (c : Reader) : bytes := if session_track c then [] else put_lenenc_str [] ++ put_lenenc_str [].

Lemma client_ok_read c rows id flags : protocol_41 (reader_caps c) = true -> fits_u 64 rows -> fits_u 64 id ->
  client_ok c (custom_ok_body (custom_ok_new rows id flags 0 None None)) = Some (rows, id, status_bits flags, 0%Z, seen_info c).
Proof.
  intros H41 Hr Hi. unfold client_ok, custom_ok_body. cbn [custom_ok_new packet_header affected_rows last_insert_id status_flags warnings info session_state_info default].
  rewrite lenenc_read by done. cbn [mbind option_bind]. rewrite lenenc_read by done. cbn [mbind option_bind].
  unfold read_status. rewrite H41. rewrite read_le_app by apply status_bits_fit. cbn [mbind option_bind].
  rewrite read_le_app by (by unfold fits_u). cbn [mbind option_bind]. unfold read_info, seen_info.
  destruct (session_track c); [|done]. rewrite read_lenenc_str_app by done. cbn [mbind option_bind].
  assert (Z.testbit (status_bits flags) 14 = false) as -> by (by destruct flags as [[] []]). done.
Qed.

(** What a client of protocol 4.1 should see. *)
Definition client_sees (c : Reader) (ok : SqlOk) (flags : StatusFlags) : ClientStatus :=
  match ok with
  | EndOfResults => ClientEndOfRows (status_bits flags)
  | SimpleOk => ClientOk 0 0 (status_bits flags) 0 (seen_info c)
  | DetailedOk rows id => ClientOk (default 0%Z rows) (default 0%Z id) (status_bits flags) 0 (seen_info c)
  end.

Definition counts_fit (ok : SqlOk) : Prop :=
  match ok with DetailedOk rows id => fits_u 64 (default 0%Z rows) /\ fits_u 64 (default 0%Z id) | _ => True end.

Lemma ok_packet_read c rows id flags : protocol_41 (reader_caps c) = true -> fits_u 64 rows -> fits_u 64 id ->
  client_status c (custom_ok_serialize (custom_ok_new rows id flags 0 None None)) =
  Some (ClientOk rows id (status_bits flags) 0 (seen_info c)).
Proof. intros H41 Hr Hi. pose proof (client_ok_read c rows id flags H41 Hr Hi) as Hc. unfold custom_ok_serialize. cbn [client_status packet_header custom_ok_new]. by rewrite Hc. Qed.

Lemma eof_packet_read c flags : protocol_41 (reader_caps c) = true -> deprecate_eof (reader_caps c) = true ->
  client_status c (custom_ok_serialize (custom_ok_new_eof flags 0 None None)) = Some (ClientEndOfRows (status_bits flags)).
Proof.
  intros H41 Hd. assert (fits_u 64 0) as Hz by done. pose proof (client_ok_read c 0 0 flags H41 Hz Hz) as Hc.
  change (custom_ok_serialize _) with (Byte.xfe :: custom_ok_body (custom_ok_new 0 0 flags 0 None None)). cbn [client_status].
  unfold client_end. by rewrite Hd, Hc.
Qed.

Lemma new_eof_read c flags : protocol_41 (reader_caps c) = true -> deprecate_eof (reader_caps c) = false ->
  client_status c (new_eof_serialize flags 0) = Some (ClientEndOfRows (status_bits flags)).
Proof.
  intros H41 Hd. unfold new_eof_serialize. cbn [client_status]. unfold client_end. rewrite Hd, H41.
  rewrite read_le_app by done. cbn [mbind option_bind].
  rewrite <- (app_nil_r (to_le_bytes 2 (status_bits flags))), read_le_app by apply status_bits_fit. done.
Qed.

Lemma error_read c e : protocol_41 (reader_caps c) = true ->
  client_status c (sql_error_serialize e) =
  Some (ClientError (match sql_code e with Some v => wrap_u 16 v | None => 0 end) (Some (state_bytes (sql_state e)))
          (string_bytes (sql_message e))).
Proof.
  intros H41. unfold sql_error_serialize. cbn [client_status]. unfold client_error. rewrite read_le_app.
  2:{ destruct (sql_code e) as [v|]; [|done]. apply wrap_u_fits; lia. }
  cbn [mbind option_bind]. rewrite H41.
  rewrite sql_state_read by (unfold state_bytes; by rewrite length_fmap, length_seq). done.
Qed.

(** C37: A client of protocol 4.1 (the server serves no other, [session_requires_login])
    reads the packets that end a command as they were sent: the counts and the flags of an
    OK, the end of the rows of a result (with SERVER_STATUS_AUTOCOMMIT added for a client
    that expects an EOF packet), and of an error its code, its state and the text that was
    kept, which are 1 and HY000 unless the error brings its own. A client with
    CLIENT_SESSION_TRACK finds no text in an OK packet; one without it finds two zero
    bytes ([untracked_client_sees_text]). *)
Theorem status_read_back {texts : ErrorText} c ok flags :
  protocol_41 (reader_caps c) = true -> counts_fit ok ->
  (exists bs, status_packet_bytes (ok_packet (reader_caps c) ok flags) = Ok (Some bs) /\
     client_status c bs = Some (client_sees c ok flags)) /\
  (exists bs, status_packet_bytes (result_eof (reader_caps c) flags) = Ok (Some bs) /\
     client_status c bs = Some (ClientEndOfRows (status_bits
       {| more_results_exists := more_results_exists flags;
          status_autocommit := status_autocommit flags || negb (deprecate_eof (reader_caps c)) |}))) /\
  (forall e se, to_sql_error e = Ok se ->
     ((exists e0, e = SqlErr e0 /\ se = e0) \/ sql_code se = Some 1%Z /\ sql_state se = Some "HY000") /\
     exists bs, status_packet_bytes (ErrPacket e) = Ok (Some bs) /\
       client_status c bs = Some (ClientError (match sql_code se with Some v => wrap_u 16 v | None => 0 end)
                                    (Some (state_bytes (sql_state se))) (string_bytes (sql_message se)))).
Proof.
  intros H41 Hc. split; [|split].
  - destruct ok as [| |rows id]; cbn [ok_packet client_sees].
    + destruct (deprecate_eof (reader_caps c)) eqn:Hd; cbn [negb]; [eexists; split; [done|by apply eof_packet_read]|].
      rewrite H41. eexists. split; [done|by apply new_eof_read].
    + eexists. split; [done|]. by apply ok_packet_read.
    + destruct Hc. eexists. split; [done|]. by apply ok_packet_read.
  - unfold result_eof. destruct (deprecate_eof (reader_caps c)) eqn:Hd; cbn [negb ok_packet].
    + rewrite Hd. cbn [negb]. eexists. split; [done|]. rewrite orb_false_r. rewrite eof_packet_read by done. by destruct flags.
    + eexists. split; [done|]. rewrite orb_true_r. by apply new_eof_read.
  - intros e se He. split.
    + destruct e; cbn in He; try (right; destruct (string_truncate 256 _); cbn in He; [injection He as <-|]; done).
      left. injection He as ->. by eexists.
    + eexists. cbn [status_packet_bytes]. rewrite He. split; [done|by apply error_read].
Qed.
End ReadBack.

(** ** The text of an error, and its state *)

(** An error whose text has a character of two bytes at its 256th byte panics instead of
    being answered: the thread of the client ends. *)
Definition long_text : string := String.string_of_list_ascii (repeat (Ascii.ascii_of_nat 97) 255) +:+ String (Ascii.ascii_of_nat 195) (String (Ascii.ascii_of_nat 169) "").

Lemma error_text_cut_panics : to_sql_error (H := fun _ => long_text) ParserError = Err (Panic "truncate: not a char boundary").
Proof. by vm_compute. Qed.

(** An error of the connection phase has no state: five times the byte 30, which is not the
    character 0. *)
Lemma missing_state_bytes : state_bytes None = repeat Byte.x1e 5 /\ Byte.x1e <> Byte.x30.
Proof. by split. Qed.

#[local] Instance demo_sql_state : SqlStateCodec := {
  put_sql_state st := Byte.x23 :: st;
  eat_sql_state bs := match bs with Byte.x23 :: r => if bool_decide (5 <= length r) then Some (take 5 r, drop 5 r) else None | _ => None end
}.

#[local] Instance demo_sql_state_laws : SqlStateCodecLaws.
Proof.
  constructor. intros st r Hst. cbn. rewrite bool_decide_true by (rewrite length_app; lia).
  by rewrite take_app_length', drop_app_length'.
Qed.

Definition demo_reader (track : bool) (v41 : bool) : Reader :=
  {| reader_caps := {| deprecate_eof := false; protocol_41 := v41; query_attributes := false |};
     session_track := track; transactions := true |}.

(** Three rows changed. *)
Lemma status_read_back_witness :
  exists bs, @status_packet_bytes protocol_lenenc demo_sql_state (fun _ => "no such table") (OkPacket 3 0 no_flags) = Ok (Some bs) /\
    client_status (demo_reader true true) bs = Some (ClientOk 3 0 0 0 []).
Proof.
  eapply (status_read_back (texts := fun _ => "no such table") (demo_reader true true) (DetailedOk (Some 3%Z) None) no_flags).
  - reflexivity.
  - split; split; [discriminate|reflexivity|discriminate|reflexivity].
Defined.

(** Finding: the text and the changes of the session are sent with their lengths whatever
    the client expects. A client without session tracking takes the two lengths for a text,
    and one of before protocol 4.1 (which the handshake refuses) would take the warnings
    for it, and the SQL state for the start of the text of an error. *)
Lemma untracked_client_sees_text :
  client_status (demo_reader false true) (custom_ok_serialize (custom_ok_new 3 0 no_flags 0 None None)) =
    Some (ClientOk 3 0 0 0 [Byte.x00; Byte.x00]) /\
  client_status (demo_reader false false) (custom_ok_serialize (custom_ok_new 3 0 no_flags 0 None None)) =
    Some (ClientOk 3 0 0 0 [Byte.x00; Byte.x00; Byte.x00; Byte.x00]) /\
  client_status (demo_reader false false)
    (sql_error_serialize {| sql_message := "no"; sql_code := Some 1%Z; sql_state := Some "HY000" |}) =
    Some (ClientError 1 None (string_bytes "#HY000no")).
Proof. split_and!; by vm_compute. Qed.
