(* ===== verification/CommandTheorems.v ===== *)
(** * What a client gets back

    Theorems on CommandPhase.v: the statements of a connection, the answers to its
    commands and the values that are bound to a statement. *)
From S2P Require Import Prelude Values SqlSchema ArrowCodec PhysicalExprs Sinks CharUtils RowProtocol CommandPhase.
From Stdlib Require Import Floats.SpecFloat.

Section Frames.
Context {S : Type}.

(** Steps that only add packets, and steps that also leave the statements alone. *)
Class Appends {B} (m : CM S B) : Prop := appends : forall c, exists ps, sent (m c).1 = sent c ++ ps.
Class KeepsStatements {B} (m : CM S B) : Prop := keeps_statements : forall c,
  statements (m c).1 = statements c /\ current_statement_id (m c).1 = current_statement_id c.
Class KeepsCaps {B} (m : CM S B) : Prop := keeps_caps : forall c, caps (m c).1 = caps c.

#[export] Instance appends_ret {B} (b : B) : Appends (ret b).
Proof. intros c. exists []. by rewrite app_nil_r. Qed.
#[export] Instance appends_fail {B} e : Appends (fail (B := B) e).
Proof. intros c. exists []. by rewrite app_nil_r. Qed.
#[export] Instance appends_panic {B} : Appends (panic (B := B)).
Proof. intros c. exists []. by rewrite app_nil_r. Qed.
#[export] Instance appends_lift {B} (o : outcome B) : Appends (lift o).
Proof. intros c. exists []. by rewrite app_nil_r. Qed.
#[export] Instance appends_get : Appends get_client.
Proof. intros c. exists []. by rewrite app_nil_r. Qed.
#[export] Instance appends_send ps : Appends (send ps).
Proof. intros c. by exists ps. Qed.
#[export] Instance appends_session {B} (f : S -> S * result B) : Appends (on_session f).
Proof. intros c. exists []. rewrite app_nil_r. unfold on_session. by destruct (f (session c)). Qed.
#[export] Instance appends_set m : Appends (set_statements m).
Proof. intros c. exists []. by rewrite app_nil_r. Qed.
#[export] Instance appends_next : Appends next_statement_id.
Proof. intros c. exists []. by rewrite app_nil_r. Qed.
#[export] Instance appends_multiple b : Appends (set_multiple b).
Proof. intros c. exists []. by rewrite app_nil_r. Qed.
#[export] Instance appends_bind {B C} (m : CM S B) (f : B -> CM S C) : Appends m -> (forall b, Appends (f b)) -> Appends (bind m f).
Proof.
  intros Hm Hf c. unfold bind. destruct (Hm c) as [ps Hps]. destruct (m c) as [c1 [b|e|]]; cbn in *; try (by exists ps).
  destruct (Hf b c1) as [qs Hqs]. exists (ps ++ qs). by rewrite Hqs, Hps, app_assoc.
Qed.

#[export] Instance keeps_ret {B} (b : B) : KeepsStatements (ret b).
Proof. by intros c. Qed.
#[export] Instance keeps_fail {B} e : KeepsStatements (fail (B := B) e).
Proof. by intros c. Qed.
#[export] Instance keeps_panic {B} : KeepsStatements (panic (B := B)).
Proof. by intros c. Qed.
#[export] Instance keeps_lift {B} (o : outcome B) : KeepsStatements (lift o).
Proof. by intros c. Qed.
#[export] Instance keeps_get : KeepsStatements get_client.
Proof. by intros c. Qed.
#[export] Instance keeps_send ps : KeepsStatements (send ps).
Proof. by intros c. Qed.
#[export] Instance keeps_session {B} (f : S -> S * result B) : KeepsStatements (on_session f).
Proof. intros c. unfold on_session. by destruct (f (session c)). Qed.
#[export] Instance keeps_multiple b : KeepsStatements (set_multiple b).
Proof. by intros c. Qed.
#[export] Instance keeps_bind {B C} (m : CM S B) (f : B -> CM S C) :
  KeepsStatements m -> (forall b, KeepsStatements (f b)) -> KeepsStatements (bind m f).
Proof.
  intros Hm Hf c. unfold bind. destruct (Hm c) as [H1 H2]. destruct (m c) as [c1 [b|e|]]; cbn in *; try done.
  destruct (Hf b c1) as [H3 H4]. split; congruence.
Qed.

#[export] Instance caps_ret {B} (b : B) : KeepsCaps (ret b).
Proof. by intros c. Qed.
#[export] Instance caps_panic {B} : KeepsCaps (panic (B := B)).
Proof. by intros c. Qed.
#[export] Instance caps_lift {B} (o : outcome B) : KeepsCaps (lift o).
Proof. by intros c. Qed.
#[export] Instance caps_get : KeepsCaps get_client.
Proof. by intros c. Qed.
#[export] Instance caps_send ps : KeepsCaps (send ps).
Proof. by intros c. Qed.
#[export] Instance caps_session {B} (f : S -> S * result B) : KeepsCaps (on_session f).
Proof. intros c. unfold on_session. by destruct (f (session c)). Qed.
#[export] Instance caps_bind {B C} (m : CM S B) (f : B -> CM S C) : KeepsCaps m -> (forall b, KeepsCaps (f b)) -> KeepsCaps (bind m f).
Proof.
  intros Hm Hf c. unfold bind. pose proof (Hm c) as H1. destruct (m c) as [c1 [b|e|]]; cbn in *; try done. by rewrite (Hf b c1).
Qed.

(** What was sent when a sequence of two steps succeeds. *)
Lemma bind_done {B C} (m : CM S B) (f : B -> CM S C) c c' x :
  bind m f c = (c', Done x) -> exists b c1, m c = (c1, Done b) /\ f b c1 = (c', Done x).
Proof. unfold bind. destruct (m c) as [c1 [b|e|]]; intros H; try done. by exists b, c1. Qed.
End Frames.

(** Takes a sequence that succeeds apart. *)
Ltac inv_done :=
  repeat match goal with
  | H : bind _ _ _ = (_, Done _) |- _ =>
      let b := fresh "b" in let c := fresh "c" in let E := fresh "E" in
      apply bind_done in H as (b & c & E & H)
  | H : lift _ _ = (_, Done _) |- _ => unfold lift in H; injection H as ? ?; subst
  | H : get_client _ = (_, Done _) |- _ => unfold get_client in H; injection H as ? ?; subst
  | H : send _ _ = (_, Done _) |- _ => unfold send in H; injection H as ?; subst
  end.

Section Answers.
Context {S A : Type} `{ProxySession S A} `{Engine S} `{LenEnc} `{NullBitmap} {error_texts : ErrorText}.
Variable parse_sql : bytes -> outcome (list (SqlStatement A)).
Variable rewrite_statement : A -> result A.
Variable number_placeholders : A -> A.
Variable format : DataType -> ArrowValue -> result bytes.
Variable cast_to : DataType -> ScalarValue -> result ScalarValue.
Variable float_of_bits : Z -> spec_float.
Variable double_of_bits : Z -> spec_float.
Variable from_utf8 : bytes -> option string.
Variable column_type_try_from : Z -> option ColumnType.

Abbreviation handle_query_result := (handle_query_result (S := S) format).
Abbreviation handle_statement := (handle_statement (S := S) rewrite_statement format).
Abbreviation handle_statements := (handle_statements (S := S) rewrite_statement format).
Abbreviation handle_query := (handle_query parse_sql rewrite_statement format).
Abbreviation do_prepare_statement := (do_prepare_statement parse_sql rewrite_statement number_placeholders).
Abbreviation handle_prepare := (handle_prepare parse_sql rewrite_statement number_placeholders).
Abbreviation handle_execute := (handle_execute format cast_to float_of_bits double_of_bits from_utf8 column_type_try_from).
Abbreviation handle_com_query := (handle_com_query parse_sql rewrite_statement number_placeholders format).
Abbreviation handle_packet := (handle_packet_can_error parse_sql rewrite_statement number_placeholders format cast_to
  float_of_bits double_of_bits from_utf8 column_type_try_from).
Abbreviation next_command := (read_handle_next_command parse_sql rewrite_statement number_placeholders format cast_to
  float_of_bits double_of_bits from_utf8 column_type_try_from).

(** ** Frames of the handlers *)

Ltac frame := repeat first [solve [apply _] | apply appends_bind | apply keeps_bind | progress intros | case_match].

#[local] Instance appends_ok ok flags : Appends (handle_ok ok flags : CM S unit).
Proof. unfold handle_ok. apply _. Qed.
#[local] Instance keeps_ok ok flags : KeepsStatements (handle_ok ok flags : CM S unit).
Proof. unfold handle_ok. apply _. Qed.

#[local] Instance appends_rows rows : Appends (send_rows_until rows : CM S unit).
Proof. induction rows as [|[bs|e] rows IH]; cbn; apply _. Qed.
#[local] Instance keeps_rows rows : KeepsStatements (send_rows_until rows : CM S unit).
Proof. induction rows as [|[bs|e] rows IH]; cbn; apply _. Qed.

#[local] Instance appends_stream h bs : Appends (send_records_stream format h bs : CM S unit).
Proof. induction bs as [|b bs IH]; cbn; apply _. Qed.
#[local] Instance keeps_stream h bs : KeepsStatements (send_records_stream format h bs : CM S unit).
Proof. induction bs as [|b bs IH]; cbn; apply _. Qed.

#[local] Instance appends_result h r ok flags : Appends (handle_query_result h r ok flags).
Proof. unfold CommandPhase.handle_query_result. frame. Qed.
#[local] Instance keeps_result h r ok flags : KeepsStatements (handle_query_result h r ok flags).
Proof. unfold CommandPhase.handle_query_result. frame. Qed.

#[local] Instance appends_local cmd flags : Appends (handle_local_command cmd flags : CM S unit).
Proof. unfold handle_local_command. frame. Qed.
#[local] Instance keeps_local cmd flags : KeepsStatements (handle_local_command cmd flags : CM S unit).
Proof. unfold handle_local_command. frame. Qed.

#[local] Instance appends_statement a status : Appends (handle_statement a status).
Proof. unfold CommandPhase.handle_statement. frame. Qed.
#[local] Instance keeps_statement a status : KeepsStatements (handle_statement a status).
Proof. unfold CommandPhase.handle_statement. frame. Qed.

#[local] Instance appends_statements l : Appends (handle_statements l).
Proof. induction l as [|a [|b l] IH]; cbn; apply _. Qed.
#[local] Instance keeps_statements_list l : KeepsStatements (handle_statements l).
Proof. induction l as [|a [|b l] IH]; cbn; apply _. Qed.

#[local] Instance appends_query q : Appends (handle_query q).
Proof. unfold CommandPhase.handle_query, sql_to_statements. frame. Qed.
#[local] Instance keeps_query q : KeepsStatements (handle_query q).
Proof. unfold CommandPhase.handle_query, sql_to_statements. frame. Qed.

#[local] Instance appends_prepare q : Appends (do_prepare_statement q).
Proof. unfold CommandPhase.do_prepare_statement, sql_to_statements. frame. Qed.

#[local] Instance appends_handle_prepare q : Appends (handle_prepare q).
Proof. unfold CommandPhase.handle_prepare. frame. Qed.
#[local] Instance appends_execute bs : Appends (handle_execute bs).
Proof. unfold CommandPhase.handle_execute. frame. Qed.
#[local] Instance keeps_execute bs : KeepsStatements (handle_execute bs).
Proof. unfold CommandPhase.handle_execute. frame. Qed.
#[local] Instance appends_com_query q : Appends (handle_com_query q).
Proof. unfold CommandPhase.handle_com_query. frame. Qed.
#[local] Instance appends_close bs : Appends (handle_close bs : CM S unit).
Proof. unfold handle_close. frame. Qed.

(** ** Results of a query *)

(** Whether a packet says that more results follow. *)
Definition packet_more (p : Packet) : option bool :=
  match p with
  | OkPacket _ _ f | EofOkPacket f | NewEofPacket f => Some (more_results_exists f)
  | _ => None
  end.

(** The packets of the answer to one statement: the last one ends it. *)
Definition answer_ends (more : bool) (ps : list Packet) : Prop := exists p, last ps = Some p /\ packet_more p = Some more.

Lemma last_app_one {X} (l : list X) x : last (l ++ [x]) = Some x.
Proof. apply last_snoc. Qed.

Lemma ok_ends ok flags c c' :
  ok <> EndOfResults -> (handle_ok ok flags : CM S unit) c = (c', Done tt) ->
  exists ps, sent c' = sent c ++ ps /\ answer_ends (more_results_exists flags) ps.
Proof.
  intros Hok Hc. unfold handle_ok in Hc. inv_done. cbn. eexists. split; [done|]. eexists. split; [done|]. by destruct ok.
Qed.

(** A result that ends with its end-of-file packet. *)
Lemma eof_ends m caps0 flags (c c' : Client S) :
  Appends m -> bind m (fun _ : unit => send [result_eof caps0 flags]) c = (c', Done tt) ->
  exists ps, sent c' = sent c ++ ps /\ answer_ends (more_results_exists flags) ps.
Proof.
  intros Hm Hc. inv_done. destruct (Hm c) as [ps Hps]. rewrite E in Hps. cbn in *. exists (ps ++ [result_eof caps0 flags]).
  split; [by rewrite Hps, app_assoc|]. eexists. split; [apply last_app_one|]. unfold result_eof, ok_packet. by repeat case_match.
Qed.

Lemma result_ends h r ok flags c c' :
  handle_query_result h r ok flags c = (c', Done tt) ->
  exists ps, sent c' = sent c ++ ps /\ answer_ends (more_results_exists flags) ps.
Proof.
  unfold CommandPhase.handle_query_result. destruct ok.
  - intros Hc. inv_done. destruct b as [|b bs]; [eapply ok_ends; [|exact Hc]; done|]. inv_done. eapply ok_ends; [|exact Hc]; done.
  - intros Hc. apply bind_done in Hc as (b & c1 & Hg & Hc). injection Hg as -> ->.
    refine (eof_ends (bind (send (result_columns (caps b) (stream_fields r))) (fun _ => send_records_stream format h (stream_batches r)))
      (caps b) flags b c' _ _). unfold bind in *. cbn in *.
    destruct (send_records_stream format h (stream_batches r) _) as [c2 []]; done.
Qed.

(** The rows of a local command and their end. *)
Lemma local_ends cmd flags c c' :
  (handle_local_command cmd flags : CM S unit) c = (c', Done tt) ->
  exists ps, sent c' = sent c ++ ps /\ answer_ends (more_results_exists flags) ps.
Proof.
  intros Hc. unfold handle_local_command in Hc. apply bind_done in Hc as (b & c1 & Hg & Hc). injection Hg as <- <-.
  assert (forall rows, match rows with
    | None => handle_ok SimpleOk flags
    | Some (fields, rows) =>
        bind (send (result_columns (caps c) fields)) (fun _ =>
        bind (send (RowPacket <$> send_rows ((fun row : list (option string) => option_map String.list_byte_of_string <$> row) <$> rows)))
          (fun _ => send [result_eof (caps c) flags])) end c = (c', Done tt) ->
    exists ps, sent c' = sent c ++ ps /\ answer_ends (more_results_exists flags) ps) as Hrows.
  { intros [[fields rows]|] Hr; [|eapply ok_ends; [|exact Hr]; done].
    refine (eof_ends (bind (send (result_columns (caps c) fields)) (fun _ => send _)) (caps c) flags c c' _ Hr). }
  destruct cmd; try (apply bind_done in Hc as (rows & c2 & Hl & Hc); injection Hl as <- Hl; by apply (Hrows rows)).
  apply bind_done in Hc as (u & c2 & Hs & Hc). destruct (ok_ends SimpleOk flags c2 c') as (ps & Hps & He); [done|done|].
  exists ps. split; [|done]. rewrite Hps. f_equal. unfold on_session in Hs. destruct (switch_database db (session c)). by injection Hs as <- _.
Qed.

Lemma session_sent {B} (f : S -> S * result B) c c' o : on_session f c = (c', o) -> sent c' = sent c.
Proof. unfold on_session. destruct (f (session c)). by intros [= <- _]. Qed.

Lemma statement_ends a status c c' :
  handle_statement a status c = (c', Done tt) ->
  exists ps, sent c' = sent c ++ ps /\ answer_ends (more_results_exists status) ps.
Proof.
  destruct a as [q ok|cmd]; cbn [CommandPhase.handle_statement]; [|apply local_ends]. intros Hc. inv_done.
  match goal with Hs : on_session _ _ = _ |- _ => apply session_sent in Hs; rewrite <- Hs end. by eapply result_ends.
Qed.

Lemma statements_answers l c c' :
  l <> [] -> handle_statements l c = (c', Done tt) ->
  exists answers, sent c' = sent c ++ mjoin answers /\ length answers = length l /\
    forall i ps, answers !! i = Some ps -> answer_ends (bool_decide (i + 1 < length l)) ps.
Proof.
  revert c. induction l as [|a l IH]; intros c Hl Hc; [done|]. destruct l as [|a' l].
  - cbn in Hc. apply statement_ends in Hc as (ps & Hps & He). exists [ps]. cbn. rewrite app_nil_r. split; [done|]. split; [done|].
    intros [|i] qs [=]; subst. exact He.
  - cbn [CommandPhase.handle_statements] in Hc. apply bind_done in Hc as (u & c1 & Hst & Hc). destruct u.
    apply statement_ends in Hst as (ps & Hps & He). destruct (IH c1 ltac:(done) Hc) as (answers & Hs & Hlen & Hall).
    exists (ps :: answers). rewrite Hs, Hps. split; [cbn; by rewrite app_assoc|]. split; [cbn; by rewrite Hlen|].
    intros [|i] qs Hi; [injection Hi as <-; exact He|]. cbn in Hi. specialize (Hall _ _ Hi).
    replace (bool_decide (Datatypes.S i + 1 < length (a :: a' :: l))) with (bool_decide (i + 1 < length (a' :: l))); [done|].
    apply bool_decide_ext. cbn. lia.
Qed.

(** A query of several statements is answered in their order, with one answer for each
    statement, and every answer but the last one ends with a packet that says that
    more results follow. *)
Theorem query_answers query stmts actions c c' :
  parse_sql query = Done stmts -> outcome_mapM statement_action stmts = Done actions -> actions <> [] ->
  handle_query query c = (c', Done tt) ->
  exists answers, sent c' = sent c ++ mjoin answers /\ length answers = length stmts /\
    forall i ps, answers !! i = Some ps -> answer_ends (bool_decide (i + 1 < length stmts)) ps.
Proof.
  intros Hp Ha Hne Hc. unfold CommandPhase.handle_query, sql_to_statements in Hc. rewrite Hp in Hc. cbn [outcome_bind] in Hc.
  rewrite Ha in Hc. apply bind_done in Hc as (b & c1 & Hl & Hc). injection Hl as <- <-.
  assert (length actions = length stmts) as Hlen.
  { clear -Ha. revert actions Ha. induction stmts as [|s stmts IH]; intros actions Ha; cbn in Ha; [by injection Ha as <-|].
    destruct (statement_action s); cbn in Ha; [|done|done]. destruct (outcome_mapM statement_action stmts); cbn in Ha; [|done|done].
    injection Ha as <-. cbn. by rewrite (IH _ eq_refl). }
  rewrite <- Hlen. apply statements_answers; [done|]. by destruct actions.
Qed.

(** ** Every command is answered *)

Class Answered (m : CM S unit) : Prop := answered : forall c c' u, m c = (c', Done u) -> exists ps, ps <> [] /\ sent c' = sent c ++ ps.

Lemma answered_ends more (m : CM S unit) :
  (forall c c', m c = (c', Done tt) -> exists ps, sent c' = sent c ++ ps /\ answer_ends more ps) -> Answered m.
Proof.
  intros Hm c c' [] Hc. destruct (Hm _ _ Hc) as (ps & Hps & p & Hl & _). exists ps. split; [by intros ->|done].
Qed.

#[local] Instance answered_send p ps : Answered (send (p :: ps)).
Proof. intros c c' u [= <- _]. by exists (p :: ps). Qed.

#[local] Instance answered_bind {B} (m : CM S B) (f : B -> CM S unit) : Appends m -> (forall b, Answered (f b)) -> Answered (bind m f).
Proof.
  intros Hm Hf c c' u Hc. apply bind_done in Hc as (b & c1 & E & Hc). destruct (Hm c) as [ps Hps]. rewrite E in Hps. cbn in Hps.
  destruct (Hf b _ _ _ Hc) as (qs & Hne & Hqs). exists (ps ++ qs). split; [by destruct ps|]. by rewrite Hqs, Hps, app_assoc.
Qed.

#[local] Instance answered_fail e : Answered (fail e).
Proof. by intros c c' u [=]. Qed.
#[local] Instance answered_panic : Answered panic.
Proof. by intros c c' u [=]. Qed.

#[local] Instance answered_ok ok flags : Answered (handle_ok ok flags).
Proof. unfold handle_ok. apply _. Qed.
#[local] Instance answered_result h r ok flags : Answered (handle_query_result h r ok flags).
Proof. eapply answered_ends, result_ends. Qed.
#[local] Instance answered_local cmd flags : Answered (handle_local_command cmd flags).
Proof. eapply answered_ends, local_ends. Qed.

#[local] Instance answered_query q : Answered (handle_query q).
Proof.
  unfold CommandPhase.handle_query. apply answered_bind; [unfold sql_to_statements; apply _|]. intros [|a l]; [apply _|].
  intros c c' u Hc. destruct u. destruct (statements_answers (a :: l) c c') as (answers & Hs & Hlen & Hall); [done|exact Hc|].
  exists (mjoin answers). split; [|done]. destruct answers as [|ps answers]; [done|].
  destruct (Hall 0 ps eq_refl) as (p & Hp & _). cbn. by destruct ps.
Qed.

#[local] Instance answered_prepare q : Answered (handle_prepare q).
Proof. unfold CommandPhase.handle_prepare, statement_packets. apply _. Qed.

Ltac answer := repeat first [solve [apply _] | apply answered_bind | progress intros | case_match].

#[local] Instance answered_execute bs : Answered (handle_execute bs).
Proof. unfold CommandPhase.handle_execute. answer. Qed.
#[local] Instance answered_com_query q : Answered (handle_com_query q).
Proof. unfold CommandPhase.handle_com_query. answer. Qed.

Lemma handled_answered (m : CM S unit) c c' r :
  Answered m -> bind m (fun _ => ret HandledPacket) c = (c', Done r) -> exists ps, ps <> [] /\ sent c' = sent c ++ ps.
Proof. intros Hm Hc. apply bind_done in Hc as (u & c1 & E & Hc). injection Hc as <- _. by eapply Hm. Qed.

Lemma packet_answered packet c c' :
  head packet <> Some Byte.x19 -> handle_packet packet c = (c', Done HandledPacket) -> exists ps, ps <> [] /\ sent c' = sent c ++ ps.
Proof.
  intros Hh Hc. destruct packet as [|h rest]; [done|]. destruct h; cbn [CommandPhase.handle_packet_can_error head] in *; try done;
    (eapply handled_answered; [|exact Hc]); answer.
Qed.

#[local] Instance packet_appends packet : Appends (handle_packet packet).
Proof.
  destruct packet as [|h rest]; [apply appends_panic|].
  destruct h; cbn [CommandPhase.handle_packet_can_error]; first [solve [apply appends_fail] | solve [apply appends_ret] | idtac].
  all: apply appends_bind; [frame|intros; apply _].
Qed.

(** C33: Every command that a client sends is answered, unless it closes a statement or the
    connection or its handling panics: packets are added after those sent before, and
    when the command fails the last one is the error. *)
Theorem command_answered packet c c' :
  head packet <> Some Byte.x19 ->
  read_handle_next_command parse_sql rewrite_statement number_placeholders format cast_to float_of_bits double_of_bits from_utf8
    column_type_try_from (Received packet) c = (c', Done HandledPacket) ->
  exists ps, ps <> [] /\ sent c' = sent c ++ ps /\
    forall e c1, handle_packet_can_error parse_sql rewrite_statement number_placeholders format cast_to float_of_bits double_of_bits
      from_utf8 column_type_try_from packet c = (c1, Failed e) -> last ps = Some (ErrPacket e).
Proof.
  intros Hh Hc. unfold read_handle_next_command in Hc. destruct (handle_packet packet c) as [c1 o] eqn:Hp.
  destruct o as [r|e|]; [|destruct (to_sql_error e); [injection Hc as <-|done]|done].
  - injection Hc as -> ->. destruct (packet_answered _ _ _ Hh Hp) as (ps & Hne & Hs). exists ps. split; [done|]. split; [done|].
    by intros e c1 [=].
  - destruct (packet_appends packet c) as [ps Hps]. rewrite Hp in Hps. cbn in Hps. exists (ps ++ [ErrPacket e]).
    split; [by destruct ps|]. split; [cbn; by rewrite Hps, app_assoc|]. intros e' c2 [= <- <-]. apply last_snoc.
Qed.

(** ** Prepared statements *)

(** How a step changes the statements of the client: not at all, an identifier is used,
    a statement is saved under it, or a statement is removed. *)
Inductive statements_change (c c' : Client S) : Prop :=
  | change_none : statements c' = statements c -> current_statement_id c' = current_statement_id c -> statements_change c c'
  | change_id : statements c' = statements c -> current_statement_id c' = wrap_u 32 (current_statement_id c + 1) -> statements_change c c'
  | change_save s : statement_id s = current_statement_id c -> statements c' = <[statement_id s := s]> (statements c) ->
      current_statement_id c' = wrap_u 32 (current_statement_id c + 1) -> statements_change c c'
  | change_remove id : statements c' = delete id (statements c) -> current_statement_id c' = current_statement_id c -> statements_change c c'.

Lemma keeps_change {B} (m : CM S B) c : KeepsStatements m -> statements_change c (m c).1.
Proof. intros Hm. destruct (Hm c) as [H3 H4]. by apply change_none. Qed.

Lemma change_app c c1 c2 :
  statements_change c c1 -> statements c2 = statements c1 -> current_statement_id c2 = current_statement_id c1 -> statements_change c c2.
Proof.
  intros [H3 H4|H3 H4|s H3 H4 H5|id H3 H4] E1 E2; [apply change_none|apply change_id|apply (change_save _ _ s)|apply (change_remove _ _ id)]; congruence.
Qed.

(** A statement is opened, and gets the next identifier. *)
Lemma prepare_change q c c' o :
  do_prepare_statement q c = (c', o) ->
  statements c' = statements c /\
  match o with
  | Done s => statement_id s = current_statement_id c /\ current_statement_id c' = wrap_u 32 (current_statement_id c + 1)
  | _ => current_statement_id c' = current_statement_id c \/ current_statement_id c' = wrap_u 32 (current_statement_id c + 1)
  end.
Proof.
  unfold CommandPhase.do_prepare_statement, sql_to_statements, bind, lift, fail, panic.
  destruct (outcome_bind (parse_sql q) (outcome_mapM statement_action)) as [[|[a ok|cmd] [|b l]]|e|];
    try (intros [= <- <-]; by auto); try (destruct b; intros [= <- <-]; by auto).
  destruct (of_result (rewrite_statement a)) as [a'|e|]; try (intros [= <- <-]; by auto).
  unfold on_session. destruct (statement_open (number_placeholders a') (session c)) as [s r].
  destruct (of_result r) as [resp|e|]; try (intros [= <- <-]; by auto).
  cbn. intros [= <- <-]. cbn. split; [done|]. unfold new_from_statement.
  destruct (outcome_mapM _ _) as [ps|e|]; cbn; auto.
Qed.

Lemma handle_prepare_change q c : statements_change c (handle_prepare q c).1.
Proof.
  unfold CommandPhase.handle_prepare, bind at 1. destruct (do_prepare_statement q c) as [c1 o] eqn:Hp.
  apply prepare_change in Hp as [Hs Hid]. destruct o as [s|e|].
  - destruct Hid as [Hid Hcur]. unfold bind, get_client, set_statements, send. cbn. apply (change_save _ _ s); cbn; [done|by rewrite Hs|done].
  - cbn. destruct Hid; [by apply change_none|by apply change_id].
  - cbn. destruct Hid; [by apply change_none|by apply change_id].
Qed.

Lemma com_query_change q c : statements_change c (handle_com_query q c).1.
Proof.
  unfold CommandPhase.handle_com_query, bind at 1, lift. destruct (of_result (extract_invalid_bytes q)) as [[text [params|]]|e|];
    [|apply keeps_change; apply _|by apply change_none|by apply change_none].
  unfold bind at 1. destruct (do_prepare_statement text c) as [c1 o] eqn:Hp. apply prepare_change in Hp as [Hs Hid].
  assert (statements_change c c1) as Hch.
  { destruct o; [destruct Hid as [_ Hid]; by apply change_id| |]; destruct Hid; [by apply change_none|by apply change_id|by apply change_none|by apply change_id]. }
  destruct o as [s|e|]; [|exact Hch|exact Hch].
  set (m := bind _ _). assert (KeepsStatements m) as Hm by (unfold m; apply _). destruct (Hm c1) as [H3 H4]. by eapply change_app.
Qed.

Lemma close_change bs c : statements_change c ((handle_close bs : CM S unit) c).1.
Proof.
  unfold handle_close, bind, lift. destruct (eat_le 4 bs) as [[id r]|e|]; [|by apply change_none|by apply change_none].
  cbn. set (c1 := Build_Client _ _ _ _ _ _ _). assert (statements_change c c1) as Hch by (by apply (change_remove _ _ id)).
  destruct (statements c !! id) as [s|]; [|exact Hch].
  destruct (keeps_session (statement_close (backend_statement_id s)) c1) as [H3 H4]. by eapply change_app.
Qed.

Lemma handled_change (m : CM S unit) c :
  statements_change c (m c).1 -> statements_change c ((bind m (fun _ => ret HandledPacket)) c).1.
Proof. unfold bind. destruct (m c) as [c1 []]; done. Qed.

Lemma packet_change packet c : statements_change c (handle_packet packet c).1.
Proof.
  destruct packet as [|h rest]; [by apply change_none|].
  destruct h; cbn [CommandPhase.handle_packet_can_error]; try (by apply change_none); apply handled_change;
    first [apply handle_prepare_change | apply close_change | apply keeps_change; solve [frame] | idtac].
  unfold bind at 1, get_client. unfold bind, lift.
  destruct (com_query _ _) as [q|e|]; [apply com_query_change|by apply change_none|by apply change_none].
Qed.

Lemma command_change incoming c : statements_change c (next_command incoming c).1.
Proof.
  destruct incoming as [| |packet]; cbn; [by apply change_none|by apply change_none|].
  pose proof (packet_change packet c) as Hp. destruct (handle_packet packet c) as [c1 [r|e|]]; [exact Hp| |exact Hp].
  destruct (to_sql_error e); [|exact Hp]. eapply change_app; [exact Hp|done|done].
Qed.

(** The clients that a connection reaches with [n] commands. *)
Inductive reachable : nat -> Client S -> Prop :=
  | reach_new caps0 s : reachable 0 {| sent := []; caps := caps0; session := s; statements := ∅; current_statement_id := 1;
                                       supports_multiple_statements := false |}
  | reach_step n c incoming c' o : reachable n c -> next_command incoming c = (c', o) -> reachable (Datatypes.S n) c'.

Record statements_ok (n : nat) (c : Client S) : Prop := {
  so_ids : forall id s, statements c !! id = Some s -> statement_id s = id /\ (1 <= id < current_statement_id c)%Z;
  so_next : (1 <= current_statement_id c <= Z.of_nat n + 1)%Z
}.

Lemma change_ok n c c' : statements_change c c' -> (Z.of_nat n + 2 < 2 ^ 32)%Z -> statements_ok n c -> statements_ok (Datatypes.S n) c'.
Proof.
  intros Hch Hn [Hids Hnext].
  assert (wrap_u 32 (current_statement_id c + 1) = current_statement_id c + 1)%Z as Hw by (apply wrap_u_id; unfold fits_u; lia).
  destruct Hch as [H3 H4|H3 H4|s H3 H4 H5|id H3 H4].
  - split; rewrite ?H3, ?H4; [done|lia].
  - split; rewrite ?H3, ?H4, ?Hw; [|lia]. intros id s Hs. destruct (Hids id s Hs). split; [done|lia].
  - split; rewrite ?H4, ?H5, ?Hw; [|lia]. intros id s' [[<- <-]|[Hne Hs]]%lookup_insert_Some; [split; [done|lia]|].
    destruct (Hids id s' Hs). split; [done|lia].
  - split; rewrite ?H3, ?H4; [|lia]. intros id' s [_ Hs]%lookup_delete_Some. by apply Hids.
Qed.

Lemma reachable_ok n c : reachable n c -> (Z.of_nat n + 1 < 2 ^ 32)%Z -> statements_ok n c.
Proof.
  induction 1 as [caps0 s|n c incoming c' o _ IH Hc]; intros Hn.
  - split; cbn; [by intros id s'; rewrite lookup_empty|lia].
  - pose proof (command_change incoming c) as Hch. rewrite Hc in Hch. apply (change_ok n c); [exact Hch|lia|apply IH; lia].
Qed.

(** The statements of a connection are kept under their own identifiers, in every
    client it reaches: preparing a statement does not replace another one, and the
    identifier that the client gets names the new one, for the first four billion
    commands. *)
Theorem prepared_statements_distinct n c query c' :
  reachable n c -> (Z.of_nat n + 1 < 2 ^ 32)%Z -> handle_prepare query c = (c', Done tt) ->
  (forall id s, statements c !! id = Some s -> statement_id s = id) /\
  exists s, statements c !! statement_id s = None /\ statements c' = <[statement_id s := s]> (statements c) /\
    sent c' = sent c ++ statement_packets (caps c) s.
Proof.
  intros Hr Hn Hp. destruct (reachable_ok n c Hr Hn) as [Hids Hnext]. split; [intros id s Hs; by apply Hids|].
  unfold CommandPhase.handle_prepare in Hp. apply bind_done in Hp as (s & c1 & Hs & Hp).
  assert (caps c1 = caps c /\ sent c1 = sent c) as [Hcaps Hsent].
  { clear Hp. unfold CommandPhase.do_prepare_statement, sql_to_statements in Hs. apply bind_done in Hs as (q & c2 & Hq & Hs). injection Hq as <- Hq.
    destruct q as [|[a ok|cmd] [|b l]]; try done. apply bind_done in Hs as (a' & c2 & Ha & Hs). injection Ha as <- Ha.
    apply bind_done in Hs as (r & c2 & Hopen & Hs). apply bind_done in Hs as (id & c3 & Hid & Hs). injection Hs as <- _. injection Hid as <- _. cbn.
    unfold on_session in Hopen. destruct (statement_open _ _). by injection Hopen as <- _. }
  apply prepare_change in Hs as [Hst [Hid Hcur]]. inv_done. cbn in *. exists s. split.
  - destruct (statements c !! statement_id s) as [s'|] eqn:Hs'; [|done]. destruct (Hids _ _ Hs') as [_ Hlt]. rewrite Hid in Hlt. lia.
  - unfold set_statements in E0. injection E0 as <-. cbn. rewrite Hst, Hcaps, Hsent. done.
Qed.
End Answers.
