(* ===== verification/ParamTheorems.v ===== *)
(** * Values bound to a statement

    The values that a client binds when it executes a statement are read back from the
    packet as they are; what the packet of a NULL or of an unsigned value does. *)
From S2P Require Import Prelude Values SqlSchema ArrowCodec PhysicalExprs Sinks CharUtils RowProtocol CommandPhase.
From Stdlib Require Import Floats.SpecFloat.

Section Binding.
Context `{LenEncLaws}.
Variable cast_to : DataType -> ScalarValue -> result ScalarValue.
Variable float_of_bits : Z -> spec_float.
Variable double_of_bits : Z -> spec_float.
Variable from_utf8 : bytes -> option string.
Variable column_type_try_from : Z -> option ColumnType.
Variable bitmap_len : nat -> nat.

(** A parameter: the type that the statement expects, the number and the type that the
    client declares, and the value. *)
Record BoundValue := { expected : DataType; type_code : Z; declared : ColumnType; bound : ScalarValue }.

(** The bytes of a value in the binary protocol. *)
Definition encode_value (v : ScalarValue) : bytes :=
  match v with
  | SInt8 (Some z) | SUInt8 (Some z) => to_le_bytes 1 z
  | SInt16 (Some z) | SUInt16 (Some z) => to_le_bytes 2 z
  | SInt32 (Some z) | SUInt32 (Some z) => to_le_bytes 4 z
  | SInt64 (Some z) | SUInt64 (Some z) => to_le_bytes 8 z
  | SBinary (Some bs) => put_lenenc_str bs
  | SUtf8 (Some s) => put_lenenc_str (String.list_byte_of_string s)
  | _ => []
  end.

(** The type goes with the value. *)
Definition value_declared (unsigned : bool) (t : ColumnType) (v : ScalarValue) : Prop :=
  match t, v, unsigned with
  | TTiny, SInt8 (Some z), false => fits_s 8 z
  | TTiny, SUInt8 (Some z), true => fits_u 8 z
  | TShort, SInt16 (Some z), false => fits_s 16 z
  | TShort, SUInt16 (Some z), true => fits_u 16 z
  | TLong, SInt32 (Some z), false => fits_s 32 z
  | TLong, SUInt32 (Some z), true => fits_u 32 z
  | TLongLong, SInt64 (Some z), false => fits_s 64 z
  | TLongLong, SUInt64 (Some z), true => fits_u 64 z
  | (TBlob | TTinyBlob | TMediumBlob | TLongBlob), SBinary (Some bs), _ => (Z.of_nat (length bs) < 2 ^ 64)%Z
  | (TVarchar | TString | TVarString), SUtf8 (Some s), _ =>
      (Z.of_nat (length (String.list_byte_of_string s)) < 2 ^ 64)%Z /\ from_utf8 (String.list_byte_of_string s) = Some s
  | _, _, _ => False
  end.

Record bindable (p : BoundValue) : Prop := {
  bi_code : (0 <= type_code p <= 255)%Z /\ column_type_try_from (type_code p) = Some (declared p);
  bi_value : value_declared (is_unsigned_integer (expected p)) (declared p) (bound p)
}.

(** The values after Arrow's cast to the types that the statement expects; the first
    cast that fails ends the command. *)
Definition cast_values (ps : list BoundValue) : outcome (list ScalarValue) :=
  outcome_mapM (fun p => of_result (cast_to (expected p) (bound p))) ps.

Lemma eat_le_app n z r : eat_le n (to_le_bytes n z ++ r) = Done (z mod 2 ^ (8 * Z.of_nat n), r)%Z.
Proof.
  unfold eat_le. rewrite length_app, length_to_le_bytes. rewrite bool_decide_true by lia.
  rewrite take_app_le, take_ge by (rewrite length_to_le_bytes; lia). rewrite drop_app_ge by (rewrite length_to_le_bytes; lia).
  rewrite length_to_le_bytes, Nat.sub_diag. do 2 f_equal. unfold from_le_bytes, to_le_bytes. rewrite le_combine_split. f_equal. f_equal. lia.
Qed.

Lemma wrap_s_mod w z : (0 < w)%Z -> fits_s w z -> wrap_s w (z mod 2 ^ w) = z.
Proof.
  intros Hw Hz. rewrite <- (wrap_s_id w z Hw Hz) at 2. unfold wrap_s. f_equal.
  rewrite Zplus_mod_idemp_l. done.
Qed.

Lemma eat_lenenc_str_put bs r : (Z.of_nat (length bs) < 2 ^ 64)%Z -> checked_eat_lenenc_str (put_lenenc_str bs ++ r) = Some (bs, r).
Proof.
  intros Hb. unfold checked_eat_lenenc_str, put_lenenc_str. rewrite <- app_assoc, lenenc_read by (unfold fits_u; lia).
  rewrite (proj2 (Z.leb_le _ _)) by (rewrite length_app; lia). by rewrite Nat2Z.id, take_app_length, drop_app_length.
Qed.

Lemma read_bytes bs r : (Z.of_nat (length bs) < 2 ^ 64)%Z -> read_byte_array (put_lenenc_str bs ++ r) = Done (bs, r).
Proof. intros Hb. unfold read_byte_array. by rewrite eat_lenenc_str_put. Qed.

Lemma read_parameter_encoded unsigned t v r :
  value_declared unsigned t v ->
  read_parameter float_of_bits double_of_bits from_utf8 (encode_value v ++ r) t unsigned = Done (v, r).
Proof.
  intros Hv. destruct t, v as [| | | | | | | | |[]|[]|[]|[]|[]|[]|[]|[]|[]|[]| | | | | | | | | | | |], unsigned; try (by destruct Hv);
    cbn [read_parameter encode_value value_declared] in *; rewrite ?eat_le_app; cbn [outcome_bind];
    try (by rewrite ?wrap_s_mod by (done || lia)); try (by rewrite Z.mod_small by (unfold fits_u in Hv; lia));
    try (by rewrite read_bytes by lia).
  all: destruct Hv as [Hl Hu]; rewrite read_bytes by lia; cbn [outcome_bind]; by rewrite Hu.
Qed.

Lemma read_values_encoded ps :
  Forall bindable ps ->
  read_values cast_to float_of_bits double_of_bits from_utf8 (zip (expected <$> ps) (declared <$> ps))
    (mjoin ((fun p => encode_value (bound p)) <$> ps)) = cast_values ps.
Proof.
  induction 1 as [|p ps [_ Hv] _ IH]; [done|]. rewrite !fmap_cons. cbn [zip zip_with read_values].
  change (mjoin (?a :: ?l)) with (a ++ mjoin l). unfold deserialize_parameter. rewrite read_parameter_encoded by done.
  cbn [outcome_bind]. unfold cast_values. cbn [outcome_mapM]. destruct (of_result (cast_to (expected p) (bound p))); try done.
  cbn [outcome_bind]. rewrite IH. done.
Qed.

Definition type_bytes (p : BoundValue) : bytes := to_le_bytes 2 (type_code p).

Lemma declared_types_encoded ps r :
  Forall bindable ps ->
  declared_types column_type_try_from false (length ps) (mjoin (type_bytes <$> ps) ++ r) = Done (declared <$> ps, r).
Proof.
  induction 1 as [|p ps [[Hrange Hcode] _] _ IH]; [done|]. rewrite fmap_cons. change (mjoin (?a :: ?l)) with (a ++ mjoin l).
  rewrite <- app_assoc. cbn [length declared_types]. unfold type_bytes at 1. rewrite eat_le_app. cbn [outcome_bind].
  rewrite Z.mod_small by lia. rewrite (proj2 (Z.ltb_ge _ _)) by lia. rewrite Hcode. cbn [outcome_bind]. by rewrite IH.
Qed.

(** The packet of a client that binds values: its flags, one iteration, the bitmap, the
    types and the values. *)
Definition execute_packet (flags : byte) (bitmap : bytes) (ps : list BoundValue) : bytes :=
  flags :: to_le_bytes 4 1 ++ bitmap ++ Byte.x01 :: mjoin (type_bytes <$> ps) ++ mjoin ((fun p => encode_value (bound p)) <$> ps).

Lemma eat_one b r : eat_le 1 (b :: r) = Done (from_le_bytes [b], r).
Proof. done. Qed.

Lemma execute_parameters_encoded flags bitmap ps s :
  ps <> [] -> parameters s = expected <$> ps -> length bitmap = bitmap_len (length ps) -> Forall bindable ps ->
  execute_parameters cast_to float_of_bits double_of_bits from_utf8 column_type_try_from bitmap_len false s
    (execute_packet flags bitmap ps) = cast_values ps.
Proof.
  intros Hne Hs Hb Hps. unfold execute_parameters, execute_packet. rewrite eat_one. cbn [outcome_bind]. rewrite eat_le_app.
  cbn [outcome_bind]. change (negb (1 mod 2 ^ (8 * Z.of_nat 4) =? 1)%Z) with false. cbn [outcome_bind].
  rewrite Hs, length_fmap. rewrite bool_decide_false by (destruct ps; [done|cbn; lia]). rewrite bool_decide_false by (rewrite length_app; lia).
  rewrite drop_app_ge by lia. rewrite Hb, Nat.sub_diag. cbn [drop]. rewrite eat_one. cbn [outcome_bind].
  change (Z.testbit (from_le_bytes [Byte.x01]) 0) with true. cbn [outcome_bind].
  rewrite declared_types_encoded by done. cbn [outcome_bind]. rewrite bool_decide_true by (by rewrite length_fmap).
  cbn [outcome_bind]. by apply read_values_encoded.
Qed.

(** C34: The values that a client binds to a statement are the values it is executed with,
    as far as the packets are supported: integers of every size (declared without the
    unsigned flag, which panics, [unsigned_parameter_panics], and signed or not as the
    statement expects), binary values and strings, none of them NULL (a NULL shifts the
    values after it, [null_parameter_ignored]), of a client without query attributes, are
    read back from the packet exactly and in their order, each then converted by Arrow's
    cast to the type that the statement expects; the first cast that fails is the answer. *)
Theorem execute_reads_values flags bitmap ps s :
  ps <> [] -> parameters s = expected <$> ps -> length bitmap = bitmap_len (length ps) -> Forall bindable ps ->
  let read := execute_parameters cast_to float_of_bits double_of_bits from_utf8 column_type_try_from bitmap_len false s
                (execute_packet flags bitmap ps) in
  read = cast_values ps /\
  forall vs, Forall2 (fun p v => cast_to (expected p) (bound p) = Ok v) ps vs -> read = Done vs.
Proof.
  intros Hne Hs Hb Hps read. unfold read. rewrite execute_parameters_encoded by done. split; [done|].
  intros vs Hvs. unfold cast_values. clear -Hvs. induction Hvs as [|p v ps vs Hv _ IH]; [done|]. cbn. rewrite Hv. cbn. by rewrite IH.
Qed.
End Binding.

(** ** Examples *)

Definition demo_codes (z : Z) : option ColumnType :=
  if (z =? 3)%Z then Some TLong else if (z =? 8)%Z then Some TLongLong else if (z =? 252)%Z then Some TBlob else None.

Definition demo_statement (ts : list DataType) : SavedStatement :=
  {| statement_id := 1; backend_statement_id := 7; stmt_should_return_ok := false; parameters := ts; columns := [] |}.

(** [-5] and three bytes. *)
Definition demo_values : list BoundValue :=
  [{| expected := DtInt32; type_code := 3; declared := TLong; bound := SInt32 (Some (-5)%Z) |};
   {| expected := DtBinary; type_code := 252; declared := TBlob; bound := SBinary (Some [Byte.x00; Byte.xff; Byte.x27]) |}].

Lemma execute_reads_values_witness :
  execute_parameters (fun _ v => Ok v) (fun _ => S754_nan) (fun _ => S754_nan) (fun _ => None) demo_codes (fun n => (n + 7) / 8) false
    (demo_statement [DtInt32; DtBinary]) (execute_packet Byte.x00 [Byte.x00] demo_values) =
  Done [SInt32 (Some (-5)%Z); SBinary (Some [Byte.x00; Byte.xff; Byte.x27])].
Proof.
  apply (execute_reads_values (fun _ v => Ok v) (fun _ => S754_nan) (fun _ => S754_nan) (fun _ => None) demo_codes (fun n => (n + 7) / 8)
    Byte.x00 [Byte.x00] demo_values).
  - discriminate.
  - reflexivity.
  - reflexivity.
  - repeat constructor; cbn; unfold fits_s; lia.
  - repeat constructor.
Defined.

(** Finding: the second byte of a declared type tells that the value is unsigned; such a
    parameter panics. *)
Lemma unsigned_parameter_panics cast_to f d u codes bitmap_len flags bitmap s t code rest :
  parameters s = [t] -> length bitmap = bitmap_len 1 ->
  execute_parameters cast_to f d u codes bitmap_len false s
    (flags :: to_le_bytes 4 1 ++ bitmap ++ Byte.x01 :: [code; Byte.x80] ++ rest) = Panicked.
Proof.
  intros Hs Hb. unfold execute_parameters. rewrite eat_one. cbn [outcome_bind]. rewrite eat_le_app. cbn [outcome_bind].
  change (negb (1 mod 2 ^ (8 * Z.of_nat 4) =? 1)%Z) with false. cbn [outcome_bind]. rewrite Hs. cbn [length].
  rewrite bool_decide_false by lia. rewrite bool_decide_false by (rewrite length_app; lia).
  rewrite drop_app_ge by lia. rewrite Hb, Nat.sub_diag. cbn [drop]. rewrite eat_one. cbn [outcome_bind].
  change (Z.testbit (from_le_bytes [Byte.x01]) 0) with true. cbn [outcome_bind declared_types].
  unfold eat_le. cbn [app length]. rewrite bool_decide_true by lia. cbn [take drop outcome_bind].
  assert (255 < from_le_bytes [code; Byte.x80])%Z as Hlt by (by destruct code).
  rewrite take_0, drop_0. by rewrite (proj2 (Z.ltb_lt _ _) Hlt).
Qed.

(** Finding: the bitmap of NULLs is not used. A NULL has no bytes in the packet, so the
    bytes of the next value are read for it: of a NULL and [-5], the first parameter is
    [-5] and the second one cannot be read. *)
Lemma null_parameter_ignored :
  let execute ts bs := execute_parameters (fun _ v => Ok v) (fun _ => S754_nan) (fun _ => S754_nan) (fun _ => None) demo_codes
    (fun n => (n + 7) / 8) false (demo_statement ts) bs in
  let packet := Byte.x00 :: to_le_bytes 4 1 ++ [Byte.x01] ++ Byte.x01 :: to_le_bytes 2 3 ++ to_le_bytes 2 3 ++ to_le_bytes 4 (-5) in
  execute [DtInt32; DtInt32] packet = Panicked /\
  execute [DtInt32; DtInt32] (packet ++ to_le_bytes 4 9) = Done [SInt32 (Some (-5)%Z); SInt32 (Some 9%Z)].
Proof. split; vm_compute; reflexivity. Qed.
