(* ===== verification/ProxyCommands.v ===== *)
(** * Commands on the session of the proxy

    The front end is proved against the interface [ProxySession]; here is what it needs
    of prepared statements ([OpensStatements]), that the session of PlanCache.v has it,
    and what a client gets that prepares a statement and executes it. *)
From S2P Require Import Prelude Values PlanCache SqlSchema ArrowCodec PhysicalExprs Sinks CharUtils RowProtocol CommandPhase CommandTheorems ParamTheorems.
From Stdlib Require Import Floats.SpecFloat.

(** How many statements a session has opened; that a session keeps the statement [q]
    that was opened in the session [s0], under an identifier; and what executing it does.
    Statements are kept until they are closed, whatever else is called. *)
Definition calm {S A} (opened : S -> Z) (holds : S -> A -> Z -> S -> Prop) (s s' : S) : Prop :=
  opened s' = opened s /\ forall s0 q id, holds s0 q id s -> holds s0 q id s'.

Class OpensStatements {S A} `{ProxySession S A} (opened : S -> Z) (holds : S -> A -> Z -> S -> Prop)
    (run : S -> A -> list ScalarValue -> S -> S * result Stream) : Prop := {
  open_holds q s s' r : (0 <= opened s < 2 ^ 64 - 1)%Z -> statement_open q s = (s', Ok r) ->
    holds s q (resp_id r) s' /\ resp_id r = opened s /\ opened s' = (opened s + 1)%Z;
  open_keeps q s s' r : (0 <= opened s < 2 ^ 64 - 1)%Z -> statement_open q s = (s', r) ->
    (opened s <= opened s' <= opened s + 1)%Z /\ forall s0 q0 id, holds s0 q0 id s -> holds s0 q0 id s';
  query_calm q s : calm opened holds s (query_immediate q s).1;
  execute_calm id vs s : calm opened holds s (statement_execute id vs s).1;
  switch_calm db s : calm opened holds s (switch_database db s).1;
  close_keeps id s : opened (statement_close id s).1 = opened s /\
    forall s0 q id', id' <> id -> holds s0 q id' s -> holds s0 q id' (statement_close id s).1;
  held_runs s0 q id s vs : holds s0 q id s -> statement_execute id vs s = run s0 q vs s
}.

(** ** The session of the proxy *)

Section DataFusion.
Context {Statement LogicalPlan SessionState ExecutionPlan : Type} `{!EqDecision Statement}.
Variable statement_sizes : Statement -> list Z.
Variable plan_sizes : LogicalPlan -> list Z.
Variable statement_to_plan : SessionState -> PlanCache.ParsedStatement (Statement := Statement) -> result LogicalPlan.
Variable optimize : SessionState -> LogicalPlan -> result LogicalPlan.
Variable create_physical_plan : SessionState -> LogicalPlan -> result ExecutionPlan.
Variable execute_stream : SessionState -> ExecutionPlan -> SessionState * result Stream.
Variable get_parameter_types : LogicalPlan -> result (list (string * option DataType)).
Variable plan_fields : LogicalPlan -> list Field.
Variable with_param_values : LogicalPlan -> list ScalarValue -> result LogicalPlan.
Variable set_default_schema : string -> SessionState -> SessionState.
Variable use_accepted : SessionState -> string -> bool.

(** The clock of the cache, and the session. *)
Definition ProxyState : Type :=
  Z * PlanCache.DataFusionSession (Statement := Statement) (LogicalPlan := LogicalPlan) (SessionState := SessionState).

Definition keep_clock {B} (s : ProxyState)
    (r : PlanCache.DataFusionSession (Statement := Statement) (LogicalPlan := LogicalPlan) (SessionState := SessionState) * result B) :
    ProxyState * result B := ((s.1, r.1), r.2).

Definition to_response (r : PlanCache.StatementResponse (DataType := DataType) (Fields := list Field)) : StatementResponse :=
  {| resp_id := PlanCache.statement_id r; resp_columns := PlanCache.columns r;
     resp_parameters := list_to_map (PlanCache.parameters r) |}.

#[export] Instance datafusion_session : ProxySession ProxyState (PlanCache.ParsedStatement (Statement := Statement)) := {
  query_immediate q s :=
    let '(s', r) := PlanCache.query_immediate statement_sizes plan_sizes statement_to_plan optimize create_physical_plan
                      execute_stream s.1 q s.2 in
    (((s.1 + 1)%Z, s'), r);
  statement_open q s :=
    let '(s', r) := PlanCache.statement_open statement_to_plan optimize get_parameter_types plan_fields q s.2 in
    ((s.1, s'), let? r := r in Ok (to_response r));
  statement_execute id vs s := keep_clock s (PlanCache.statement_execute create_physical_plan execute_stream with_param_values id vs s.2);
  statement_close id s := ((s.1, PlanCache.statement_close id s.2), Ok tt);
  switch_database db s :=
    let '(s', r) := PlanCache.switch_database set_default_schema use_accepted db s.2 in ((s.1, s'), r)
}.

(** The plan that was made when the statement was opened is executed with its values in
    the state that the session has then. *)
Definition opened_plans (s : ProxyState) : Z := PlanCache.current_plan_id s.2.

Definition holds_plan (s0 : ProxyState) (q : PlanCache.ParsedStatement) (id : Z) (s : ProxyState) : Prop :=
  exists p, PlanCache.prepare_optimize_plan statement_to_plan optimize (PlanCache.session s0.2) q = Ok p /\
    PlanCache.prepared_queries s.2 !! id = Some p /\ (0 <= id < PlanCache.current_plan_id s.2)%Z.

Definition run_plan_of (s0 : ProxyState) (q : PlanCache.ParsedStatement) (vs : list ScalarValue) (s : ProxyState) :
    ProxyState * result Stream :=
  keep_clock s (PlanCache.execute_plan execute_stream
    (let? p := PlanCache.prepare_optimize_plan statement_to_plan optimize (PlanCache.session s0.2) q in
     let? p := with_param_values p vs in
     create_physical_plan (PlanCache.session s.2) p) s.2).

Lemma calm_plans s s' :
  PlanCache.prepared_queries s'.2 = PlanCache.prepared_queries s.2 ->
  PlanCache.current_plan_id s'.2 = PlanCache.current_plan_id s.2 -> calm opened_plans holds_plan s s'.
Proof. intros Hp Hid. split; [done|]. intros s0 q id (p & H1 & H2 & H3). exists p. by rewrite Hp, Hid. Qed.

#[export] Instance datafusion_opens : OpensStatements opened_plans holds_plan run_plan_of.
Proof.
  unfold opened_plans. split.
  - intros q [now s] s' r Hr Ho. cbn in *. unfold PlanCache.statement_open in Ho. unfold holds_plan. cbn [snd].
    destruct (PlanCache.prepare_optimize_plan statement_to_plan optimize (PlanCache.session s) q) as [p|e] eqn:Hp; [|done]. cbn in Ho.
    destruct (get_parameter_types p) as [types|e]; [|done]. cbn in Ho.
    destruct (PlanCache.expect_types types) as [ts|e]; [|done]. cbn in Ho. injection Ho as <- <-. cbn.
    rewrite wrap_u_id by (unfold fits_u; lia). split; [|done]. exists p. rewrite lookup_insert_eq. split_and!; [done..|lia|lia].
  - intros q [now s] s' r Hr Ho. cbn in *. unfold PlanCache.statement_open in Ho.
    destruct (let? p := _ in _) as [[p ts]|e]; injection Ho as <- _; cbn; [|split; [lia|done]].
    rewrite wrap_u_id by (unfold fits_u; lia). split; [lia|]. intros s0 q0 id (p0 & H1 & H2 & H3). exists p0. cbn in *.
    rewrite lookup_insert_ne by lia. split_and!; [done..|lia|lia].
  - intros q [now s]. cbn. unfold PlanCache.query_immediate. destruct (PlanCache.prepare_query_with_cache _ _ _ _ _ _ _ _ _) as [c p].
    match goal with |- context [PlanCache.execute_plan ?f p ?s'] => pose proof (PlanCache.execute_plan_keeps f p s') as [H1 H2] end.
    destruct (PlanCache.execute_plan _ _ _). by apply calm_plans.
  - intros id vs [now s]. cbn. unfold PlanCache.statement_execute. set (p := PlanCache.statement_plan _ _ _ _ _).
    destruct (PlanCache.execute_plan_keeps execute_stream p s). by apply calm_plans.
  - intros db [now s]. by apply calm_plans.
  - intros id [now s]. split; [done|]. intros s0 q id' Hne (p & H1 & H2 & H3). exists p. cbn in *. by rewrite lookup_delete_ne.
  - intros s0 q id [now s] vs (p & H1 & H2 & H3). cbn in *. unfold run_plan_of, PlanCache.statement_execute, PlanCache.statement_plan.
    cbn [snd]. by rewrite H1, H2.
Qed.
End DataFusion.

(** ** Preparing and executing *)

Section Execute.
Context {S A : Type} `{ProxySession S A} `{Engine S} `{LenEncLaws} `{NullBitmap} {error_texts : ErrorText}.
Context {opened : S -> Z} {holds : S -> A -> Z -> S -> Prop} (run : S -> A -> list ScalarValue -> S -> S * result Stream)
  `{!OpensStatements opened holds run}.
Variable parse_sql : bytes -> outcome (list (SqlStatement A)).
Variable rewrite_statement : A -> result A.
Variable number_placeholders : A -> A.
Variable format : DataType -> ArrowValue -> result bytes.
Variable cast_to : DataType -> ScalarValue -> result ScalarValue.
Variable float_of_bits : Z -> spec_float.
Variable double_of_bits : Z -> spec_float.
Variable from_utf8 : bytes -> option string.
Variable column_type_try_from : Z -> option ColumnType.

Abbreviation handle_prepare := (handle_prepare parse_sql rewrite_statement number_placeholders).
Abbreviation do_prepare_statement := (do_prepare_statement parse_sql rewrite_statement number_placeholders).
Abbreviation handle_execute := (handle_execute format cast_to float_of_bits double_of_bits from_utf8 column_type_try_from).
Abbreviation handle_packet := (handle_packet_can_error parse_sql rewrite_statement number_placeholders format cast_to
  float_of_bits double_of_bits from_utf8 column_type_try_from).
Abbreviation next_command := (read_handle_next_command parse_sql rewrite_statement number_placeholders format cast_to
  float_of_bits double_of_bits from_utf8 column_type_try_from).

(** *** Steps that neither open nor close a statement *)

Abbreviation calm := (calm opened holds).

Lemma calm_refl s : calm s s.
Proof using. by split. Qed.

Lemma calm_trans s1 s2 s3 : calm s1 s2 -> calm s2 s3 -> calm s1 s3.
Proof using. intros [E1 E2] [E3 E4]. split; [by rewrite E3|]. intros s0 q id Hq. by apply E4, E2. Qed.

Class Calm {B} (m : CM S B) : Prop := calm_step : forall c,
  statements (m c).1 = statements c /\ current_statement_id (m c).1 = current_statement_id c /\ calm (session c) (session (m c).1).

Lemma calm_same {B} (m : CM S B) :
  (forall c, statements (m c).1 = statements c /\ current_statement_id (m c).1 = current_statement_id c /\ session (m c).1 = session c) -> Calm m.
Proof using. intros Hm c. destruct (Hm c) as (E1 & E2 & E3). rewrite E3. split_and!; [done..|]. apply calm_refl. Qed.

#[local] Instance calm_ret {B} (b : B) : Calm (ret b).
Proof using. by apply calm_same. Qed.
#[local] Instance calm_fail {B} e : Calm (fail (B := B) e).
Proof using. by apply calm_same. Qed.
#[local] Instance calm_panic {B} : Calm (panic (B := B)).
Proof using. by apply calm_same. Qed.
#[local] Instance calm_lift {B} (o : outcome B) : Calm (lift o).
Proof using. by apply calm_same. Qed.
#[local] Instance calm_get : Calm get_client.
Proof using. by apply calm_same. Qed.
#[local] Instance calm_send ps : Calm (send ps).
Proof using. by apply calm_same. Qed.
#[local] Instance calm_multiple b : Calm (set_multiple b).
Proof using. by apply calm_same. Qed.
#[local] Instance calm_bind {B C} (m : CM S B) (f : B -> CM S C) : Calm m -> (forall b, Calm (f b)) -> Calm (bind m f).
Proof using.
  intros Hm Hf c. unfold bind. destruct (Hm c) as (E1 & E2 & E3). destruct (m c) as [c1 [b|e|]]; cbn in *; try done.
  destruct (Hf b c1) as (E4 & E5 & E6). split_and!; [congruence..|]. by eapply calm_trans.
Qed.

Lemma calm_session {B} (f : S -> S * result B) : (forall s, calm s (f s).1) -> Calm (on_session f).
Proof using. intros Hf c. unfold on_session. specialize (Hf (session c)). by destruct (f (session c)). Qed.
#[local] Instance calm_query q : Calm (on_session (query_immediate q)).
Proof using All. apply calm_session. apply query_calm. Qed.
#[local] Instance calm_execute id vs : Calm (on_session (statement_execute id vs)).
Proof using All. apply calm_session. apply execute_calm. Qed.
#[local] Instance calm_switch db : Calm (on_session (switch_database db)).
Proof using All. apply calm_session. apply switch_calm. Qed.

Ltac calm_frame := repeat first [solve [apply _] | apply calm_bind | progress intros | case_match].

#[local] Instance calm_rows rows : Calm (send_rows_until rows : CM S unit).
Proof. induction rows as [|[bs|e] rows IH]; cbn; apply _. Qed.
#[local] Instance calm_stream h bs : Calm (send_records_stream format h bs : CM S unit).
Proof. induction bs as [|b bs IH]; cbn; apply _. Qed.
#[local] Instance calm_result h r ok flags : Calm (handle_query_result format h r ok flags : CM S unit).
Proof. unfold handle_query_result, handle_ok. calm_frame. Qed.
#[local] Instance calm_local cmd flags : Calm (handle_local_command cmd flags : CM S unit).
Proof. unfold handle_local_command, handle_ok. calm_frame. Qed.
#[local] Instance calm_statement a status : Calm (handle_statement rewrite_statement format a status : CM S unit).
Proof. unfold handle_statement. calm_frame. Qed.
#[local] Instance calm_statements l : Calm (handle_statements rewrite_statement format l : CM S unit).
Proof. induction l as [|a [|b l] IH]; cbn; apply _. Qed.
#[local] Instance calm_handle_query q : Calm (handle_query parse_sql rewrite_statement format q).
Proof. unfold handle_query, sql_to_statements, handle_ok. calm_frame. Qed.
#[local] Instance calm_handle_execute bs : Calm (handle_execute bs).
Proof. unfold CommandPhase.handle_execute. calm_frame. Qed.
(** *** Every command *)

Definition moved (s s' : S) : Prop :=
  (opened s <= opened s' <= opened s + 1)%Z /\ forall s0 q id, holds s0 q id s -> holds s0 q id s'.

Lemma moved_calm s1 s2 s3 : moved s1 s2 -> calm s2 s3 -> moved s1 s3.
Proof using. intros [E1 E2] [E3 E4]. split; [by rewrite E3|]. intros s0 q id Hq. by apply E4, E2. Qed.

Lemma moved_refl s : moved s s.
Proof using. split; [lia|done]. Qed.

(** The statement that a packet of the client closes. *)
Definition closed_by (incoming : Incoming) : option Z :=
  match incoming with
  | Received (Byte.x19 :: rest) => match eat_le 4 rest with Done (id, _) => Some id | _ => None end
  | _ => None
  end.

(** What a command does to the statements of the client and to those of its session. *)
Inductive change (closed : option Z) (c c' : Client S) : Prop :=
  | change_other : statements c' = statements c -> moved (session c) (session c') -> change closed c c'
  | change_saved s : statement_id s = current_statement_id c -> statements c' = <[statement_id s := s]> (statements c) ->
      backend_statement_id s = opened (session c) -> opened (session c') = (opened (session c) + 1)%Z ->
      moved (session c) (session c') -> change closed c c'
  | change_closed id : closed = Some id -> statements c' = delete id (statements c) -> opened (session c') = opened (session c) ->
      (forall s0 q b, (forall s, statements c !! id = Some s -> backend_statement_id s <> b) ->
         holds s0 q b (session c) -> holds s0 q b (session c')) -> change closed c c'.

Lemma calm_change {B} (m : CM S B) closed c : Calm m -> change closed c (m c).1.
Proof using. intros Hm. destruct (Hm c) as (E1 & _ & E2). apply change_other; [done|]. eapply moved_calm; [apply moved_refl|done]. Qed.

(** A statement is opened: it is kept under the next identifier of the session. *)
Lemma prepare_opens text c c' o :
  (0 <= opened (session c) < 2 ^ 64 - 1)%Z -> do_prepare_statement text c = (c', o) ->
  statements c' = statements c /\ sent c' = sent c /\ caps c' = caps c /\ moved (session c) (session c') /\
  forall s, o = Done s -> exists q q' ok,
    outcome_bind (parse_sql text) (outcome_mapM statement_action) = Done [Forward q ok] /\ rewrite_statement q = Ok q' /\
    stmt_should_return_ok s = ok /\ statement_id s = current_statement_id c /\ backend_statement_id s = opened (session c) /\
    opened (session c') = (opened (session c) + 1)%Z /\ holds (session c) (number_placeholders q') (backend_statement_id s) (session c').
Proof using All.
  intros Hr. unfold CommandPhase.do_prepare_statement, sql_to_statements, bind, lift, fail, panic.
  destruct (outcome_bind (parse_sql text) (outcome_mapM statement_action)) as [[|[a ok|cmd] [|b l]]|e|] eqn:Ha;
    try (intros [= <- <-]; split_and!; [done..|apply moved_refl|done]);
    try (destruct b; intros [= <- <-]; split_and!; [done..|apply moved_refl|done]).
  destruct (rewrite_statement a) as [a'|e] eqn:Hrw;
    [|destruct e; intros [= <- <-]; split_and!; try done; apply moved_refl].
  cbn [of_result]. unfold on_session. destruct (statement_open (number_placeholders a') (session c)) as [s' r] eqn:Ho.
  pose proof (open_keeps _ _ _ _ Hr Ho) as Hm. destruct r as [r|e]; [|destruct e; intros [= <- <-]; by split_and!].
  pose proof (open_holds _ _ _ _ Hr Ho) as (E1 & E2 & E3). cbn. unfold new_from_statement. intros [= <- Hs]. cbn.
  split_and!; [done..|]. intros s ->. destruct (outcome_mapM _ _) as [ps| |]; try done. injection Hs as <-.
  exists a, a', ok. cbn. rewrite E2 in *. by split_and!.
Qed.

Lemma handle_prepare_opens text c closed :
  (0 <= opened (session c) < 2 ^ 64 - 1)%Z -> change closed c (handle_prepare text c).1.
Proof using All.
  intros Hr. unfold CommandPhase.handle_prepare, bind at 1. destruct (do_prepare_statement text c) as [c1 o] eqn:Hp.
  apply prepare_opens in Hp as (E1 & _ & _ & E2 & E3); [|done].
  destruct o as [s|e|]; [|by apply change_other..]. destruct (E3 s eq_refl) as (_ & _ & _ & _ & _ & _ & Hid & Hb & Hn & _).
  unfold bind, get_client, set_statements, send. cbn. apply (change_saved _ _ _ s); cbn; try done. by rewrite E1.
Qed.

Lemma com_query_opens text c closed :
  (0 <= opened (session c) < 2 ^ 64 - 1)%Z ->
  change closed c (handle_com_query parse_sql rewrite_statement number_placeholders format text c).1.
Proof using All.
  intros Hr. unfold CommandPhase.handle_com_query, bind at 1, lift.
  destruct (of_result (extract_invalid_bytes text)) as [[t [params|]]|e|];
    [|apply calm_change; apply _|apply change_other; [done|apply moved_refl]..].
  unfold bind at 1. destruct (do_prepare_statement t c) as [c1 o] eqn:Hp. apply prepare_opens in Hp as (E1 & _ & _ & E2 & _); [|done].
  destruct o as [s|e|]; [|by apply change_other..].
  set (m := bind _ _). assert (Calm m) as Hm by (unfold m; apply _). destruct (Hm c1) as (E3 & _ & E4).
  apply change_other; [congruence|by eapply moved_calm].
Qed.

Lemma close_closes rest c : change (closed_by (Received (Byte.x19 :: rest))) c ((handle_close rest : CM S unit) c).1.
Proof using All.
  unfold handle_close, bind, lift. cbn [closed_by].
  destruct (eat_le 4 rest) as [[id r]|e|]; [|apply change_other; [done|apply moved_refl]..].
  cbn. set (c1 := Build_Client _ _ _ _ _ _ _). apply (change_closed _ _ _ id); [done|..].
  - by destruct (statements c !! id); [cbn; unfold on_session; destruct (statement_close _ _)|].
  - destruct (statements c !! id) as [s|]; [|done]. unfold on_session. cbn.
    pose proof (proj1 (close_keeps (backend_statement_id s) (session c))) as Hc. by destruct (statement_close _ _).
  - intros s0 q b Hb Hq. destruct (statements c !! id) as [s|] eqn:Hs; [|done]. unfold on_session. cbn.
    pose proof (proj2 (close_keeps (backend_statement_id s) (session c)) s0 q b) as Hc. destruct (statement_close _ _). cbn in *.
    apply Hc; [|done]. apply not_eq_sym. by apply Hb.
Qed.

Lemma handled_changes closed (m : CM S unit) c :
  change closed c (m c).1 -> change closed c ((bind m (fun _ => ret HandledPacket)) c).1.
Proof using. unfold bind. by destruct (m c) as [c1 []]. Qed.

Lemma packet_changes packet c :
  (0 <= opened (session c) < 2 ^ 64 - 1)%Z -> change (closed_by (Received packet)) c (handle_packet packet c).1.
Proof using All.
  intros Hr. destruct packet as [|h rest]; [apply change_other; [done|apply moved_refl]|].
  destruct h; cbn [CommandPhase.handle_packet_can_error]; try (apply change_other; [done|apply moved_refl]); apply handled_changes;
    first [by apply handle_prepare_opens | apply close_closes | apply calm_change; unfold handle_ok; solve [calm_frame] | idtac].
  unfold bind at 1, get_client. unfold bind, lift.
  destruct (com_query _ _) as [q|e|]; [by apply com_query_opens|apply change_other; [done|apply moved_refl]..].
Qed.

Lemma command_changes incoming c :
  (0 <= opened (session c) < 2 ^ 64 - 1)%Z -> change (closed_by incoming) c (next_command incoming c).1.
Proof using All.
  intros Hr. destruct incoming as [| |packet]; [apply change_other; [done|apply moved_refl]..|].
  cbn [read_handle_next_command]. pose proof (packet_changes packet c Hr) as Hp. destruct (handle_packet packet c) as [c1 [r|e|]]; [exact Hp| |exact Hp].
  by destruct (to_sql_error e); [destruct Hp; [eapply change_other|eapply change_saved|eapply change_closed]|].
Qed.

(** *** The statements of a connection and those of its session *)

Record backends_ok (n : nat) (c : Client S) : Prop := {
  bo_opened : (0 <= opened (session c) <= Z.of_nat n)%Z;
  bo_saved : forall id s, statements c !! id = Some s -> (backend_statement_id s < opened (session c))%Z
}.

Lemma change_backends n closed c c' : change closed c c' -> backends_ok n c -> backends_ok (Datatypes.S n) c'.
Proof using.
  intros Hch [Ho Hs]. destruct Hch as [E1 [E2 _]|s E1 E2 E3 E4 _|id _ E1 E2 _].
  - split; [lia|]. intros id s. rewrite E1. intros Hid. specialize (Hs _ _ Hid). lia.
  - split; [lia|]. intros id s'. rewrite E2. intros [[_ <-]|[_ Hid]]%lookup_insert_Some; [lia|]. specialize (Hs _ _ Hid). lia.
  - split; [lia|]. intros id' s. rewrite E1. intros [_ Hid]%lookup_delete_Some. specialize (Hs _ _ Hid). lia.
Qed.

(** The client that a connection reaches with [n] commands from the session [s0]. *)
Inductive served (s0 : S) : nat -> Client S -> Prop :=
  | served_new caps0 : served s0 0 {| sent := []; caps := caps0; session := s0; statements := ∅; current_statement_id := 1;
                                      supports_multiple_statements := false |}
  | served_step n c incoming c' o : served s0 n c -> next_command incoming c = (c', o) -> served s0 (Datatypes.S n) c'.

Lemma served_ok s0 n c :
  opened s0 = 0%Z -> served s0 n c -> (Z.of_nat n + 1 < 2 ^ 32)%Z -> statements_ok n c /\ backends_ok n c.
Proof using All.
  intros Hs0. induction 1 as [caps0|n c incoming c' o _ IH Hc]; intros Hn.
  - split; split; cbn; try lia; intros id s; by rewrite lookup_empty.
  - destruct IH as [Hs Hb]; [lia|]. pose proof (bo_opened _ _ Hb).
    pose proof (command_change parse_sql rewrite_statement number_placeholders format cast_to float_of_bits double_of_bits from_utf8
      column_type_try_from incoming c) as H1c. pose proof (command_changes incoming c ltac:(lia)) as H2c. rewrite Hc in H1c, H2c.
    split; [eapply change_ok; [exact H1c|lia|exact Hs]|by eapply change_backends].
Qed.

(** [k] commands, none of which closes the statement [id]. *)
Inductive later (id : Z) : nat -> Client S -> Client S -> Prop :=
  | later_none c : later id 0 c c
  | later_step k c1 c2 incoming c3 o : later id k c1 c2 -> next_command incoming c2 = (c3, o) ->
      closed_by incoming <> Some id -> later id (Datatypes.S k) c1 c3.

Record tracked (id : Z) (s : SavedStatement) (s0 : S) (q : A) (c : Client S) : Prop := {
  tr_saved : statements c !! id = Some s;
  tr_holds : holds s0 q (backend_statement_id s) (session c);
  tr_others : forall id' s', statements c !! id' = Some s' -> id' <> id -> backend_statement_id s' <> backend_statement_id s
}.

Lemma change_tracked n id s s0 q closed c c' :
  change closed c c' -> closed <> Some id -> statements_ok n c -> backends_ok n c -> tracked id s s0 q c -> tracked id s s0 q c'.
Proof using.
  intros Hch Hne [Hids _] [_ Hs] [T1 T2 T3]. destruct Hch as [E1 [_ E2]|s' E1 E2 E3 E4 [_ E5]|id' -> E1 E2 E3].
  - split; rewrite ?E1; auto.
  - assert (statement_id s' <> id) as Hfresh by (intros <-; destruct (Hids _ _ T1) as [_ Hlt]; rewrite E1 in Hlt; lia).
    split; [by rewrite E2, lookup_insert_ne|by apply E5|]. intros id'' s''. rewrite E2.
    intros [[_ <-]|[_ Hid]]%lookup_insert_Some; [|by apply T3]. intros _. specialize (Hs _ _ T1). lia.
  - assert (id' <> id) as Hid by congruence. split; [by rewrite E1, lookup_delete_ne| |].
    + apply E3; [|done]. intros s' Hs'. by apply (T3 id').
    + intros id'' s''. rewrite E1. intros [_ Hs'']%lookup_delete_Some. by apply T3.
Qed.

Lemma later_tracked n id k s s0 q c1 c2 :
  later id k c1 c2 -> (Z.of_nat (n + k) + 2 < 2 ^ 32)%Z -> statements_ok n c1 -> backends_ok n c1 -> tracked id s s0 q c1 ->
  statements_ok (n + k) c2 /\ backends_ok (n + k) c2 /\ tracked id s s0 q c2.
Proof using All.
  induction 1 as [c|k c1 c2 incoming c3 o _ IH Hc Hcl]; intros Hn Hs Hb Ht; [by rewrite Nat.add_0_r|].
  destruct IH as (Hs2 & Hb2 & Ht2); [lia|done..|]. pose proof (bo_opened _ _ Hb2).
  pose proof (command_change parse_sql rewrite_statement number_placeholders format cast_to float_of_bits double_of_bits from_utf8
    column_type_try_from incoming c2) as H1c. pose proof (command_changes incoming c2 ltac:(lia)) as H2c. rewrite Hc in H1c, H2c.
  rewrite Nat.add_succ_r. split_and!; [eapply change_ok; [exact H1c|lia|exact Hs2]|by eapply change_backends|by eapply change_tracked].
Qed.

(** Executing a statement that is tracked. *)
Lemma execute_tracked id s s0 q c bs :
  fits_u 32 id -> tracked id s s0 q c ->
  handle_execute (to_le_bytes 4 id ++ bs) c =
  bind (lift (execute_parameters cast_to float_of_bits double_of_bits from_utf8 column_type_try_from bitmap_len
                (query_attributes (caps c)) s bs)) (fun values =>
  bind (on_session (run s0 q values)) (fun result =>
  handle_query_result format BinaryRows result (stmt_should_return_ok s) no_flags)) c.
Proof using All.
  intros Hid [T1 T2 _]. unfold CommandPhase.handle_execute. rewrite eat_le_app. rewrite Z.mod_small by exact Hid.
  unfold bind at 1, lift at 1. unfold bind at 1, get_client. rewrite T1.
  unfold bind at 1 3, lift. destruct (execute_parameters _ _ _ _ _ _ _ _ _) as [values|e|]; [|done..].
  unfold bind, on_session. by rewrite (held_runs _ _ _ _ values T2).
Qed.

(** C18: A statement that a client prepared stays prepared, and executing it runs that
    statement on the values that the client binds: after any other commands that do not
    close it (fewer than 2^32 in all: queries, other statements prepared, executed and
    closed, a switch of the database, commands that fail), an execute packet with its
    identifier reads the values from the rest of the packet and runs, on them, the
    statement as it was rewritten and opened when it was prepared; errors are answered in
    the same way. For a client that binds values as the front end reads them ([bindable]:
    no NULLs and no unsigned flags, see [null_parameter_ignored] and
    [unsigned_parameter_panics]) these are the client's values, cast to the types of the
    parameters. *)
Theorem prepare_then_execute s0 n k query stmt q q' ok c c1 c2 :
  opened s0 = 0%Z -> served s0 n c -> (Z.of_nat (n + k) + 3 < 2 ^ 32)%Z ->
  parse_sql query = Done [stmt] -> statement_action stmt = Done (Forward q ok) -> rewrite_statement q = Ok q' ->
  handle_prepare query c = (c1, Done tt) ->
  let id := current_statement_id c in
  later id k c1 c2 ->
  let execute values := bind (on_session (run (session c) (number_placeholders q') values)) (fun result =>
                        handle_query_result format BinaryRows result ok no_flags) in
  exists s, statement_id s = id /\ statements c1 !! id = Some s /\ sent c1 = sent c ++ statement_packets (caps c) s /\
    (forall bs, handle_execute (to_le_bytes 4 id ++ bs) c2 =
       bind (lift (execute_parameters cast_to float_of_bits double_of_bits from_utf8 column_type_try_from bitmap_len
                     (query_attributes (caps c2)) s bs)) execute c2) /\
    (forall flags bitmap ps, query_attributes (caps c2) = false -> ps <> [] -> parameters s = expected <$> ps ->
       length bitmap = bitmap_len (length ps) -> Forall (bindable from_utf8 column_type_try_from) ps ->
       handle_execute (to_le_bytes 4 id ++ execute_packet flags bitmap ps) c2 = bind (lift (cast_values cast_to ps)) execute c2).
Proof using All.
  intros Hs0 Hserved Hn Hp Ha Hrw Hc id Hlater execute. destruct (served_ok _ _ _ Hs0 Hserved ltac:(lia)) as [Hs Hb].
  pose proof (bo_opened _ _ Hb) as Hopened. pose proof (so_next _ _ Hs) as Hnext.
  assert (statements_ok (Datatypes.S n) c1 /\ backends_ok (Datatypes.S n) c1) as [Hs1 Hb1].
  { pose proof (handle_prepare_change parse_sql rewrite_statement number_placeholders query c) as H1c.
    pose proof (handle_prepare_opens query c None ltac:(lia)) as H2c. rewrite Hc in H1c, H2c.
    split; [eapply change_ok; [exact H1c|lia|exact Hs]|by eapply change_backends]. }
  unfold CommandPhase.handle_prepare in Hc. apply bind_done in Hc as (s & c' & Hdo & Hc).
  apply prepare_opens in Hdo as (E1 & E2 & E3 & _ & E4); [|lia].
  destruct (E4 s eq_refl) as (qq & qq' & ok' & Hact & Hrw' & Hok & Hid & Hback & _ & Hholds).
  rewrite Hp in Hact. cbn in Hact. rewrite Ha in Hact. cbn in Hact. injection Hact as <- <-. rewrite Hrw in Hrw'. injection Hrw' as <-.
  inv_done. match goal with Hset : set_statements _ _ = _ |- _ => unfold set_statements in Hset; injection Hset as <- end.
  assert (tracked id s (session c) (number_placeholders q') c2) as Ht.
  { eapply (later_tracked (Datatypes.S n) id k); [exact Hlater|lia|exact Hs1|exact Hb1|]. rewrite E1, Hid. split; cbn.
    - by rewrite lookup_insert_eq.
    - exact Hholds.
    - intros id' s' Hid' Hne. rewrite lookup_insert_ne in Hid' by done. pose proof (bo_saved _ _ Hb _ _ Hid'). lia. }
  assert (forall bs, handle_execute (to_le_bytes 4 id ++ bs) c2 =
    bind (lift (execute_parameters cast_to float_of_bits double_of_bits from_utf8 column_type_try_from bitmap_len
                  (query_attributes (caps c2)) s bs)) execute c2) as Hex.
  { intros bs. unfold execute. apply execute_tracked; [unfold fits_u, id; lia|done]. }
  exists s. split_and!; [done|cbn; by rewrite Hid, lookup_insert_eq|cbn; by rewrite E2, E3|exact Hex|]. intros flags bitmap ps Hattr Hne Hpar Hbm Hps.
  rewrite Hex, Hattr. by rewrite execute_parameters_encoded.
Qed.
End Execute.

(** ** A concrete proxy

    Statements are names; a plan is a name with the values of its parameters, and its
    stream has one row, the first value. *)
Module SampleProxy.
Definition Plan : Type := string * list ScalarValue.
Definition field : Field := {| field_name := "x"; field_type := DtInt32; field_nullable := true; field_metadata := ∅ |}.
Definition row (vs : list ScalarValue) : RecordBatch :=
  {| batch_schema := [field];
     batch_columns := [{| data_type := DtInt32; values := [match vs with SInt32 (Some z) :: _ => Some (VPrim z) | _ => None end] |}];
     batch_rows := 1 |}.
Definition to_plan (_ : string) (q : PlanCache.ParsedStatement (Statement := string)) : result Plan :=
  match q with PlanCache.PStatement s => Ok (s, []) | PlanCache.Placeholder => Err (PlanError "placeholder") end.
Definition stream (st : string) (p : Plan) : string * result Stream := (st, Ok {| stream_fields := [field]; stream_batches := [Ok (row p.2)] |}).
Definition with_values (p : Plan) (vs : list ScalarValue) : result Plan := Ok (p.1, vs).

Definition State : Type := ProxyState (Statement := string) (LogicalPlan := Plan) (SessionState := string).
Definition Syntax : Type := PlanCache.ParsedStatement (Statement := string).

#[global] Instance session_instance : ProxySession State Syntax :=
  datafusion_session (fun _ => [500]%Z) (fun _ => [300]%Z) to_plan (fun _ p => Ok p) (fun _ p => Ok p) stream
    (fun _ => Ok [("$1", Some DtInt32)]) (fun _ => [field]) with_values (fun db _ => db) (fun _ _ => true).

#[global] Instance engine_instance : Engine State := {
  current_schema s := PlanCache.session s.2;
  list_tables _ _ := [];
  table_provider _ _ _ := Err (PlanError "no table");
  schema_names _ := ["clinic"];
  system_variables _ := None
}.

Definition parse (query : bytes) : outcome (list (SqlStatement Syntax)) :=
  Done (if bool_decide (length query = 1) then [OtherStmt KQuery (PlanCache.PStatement "q")]
        else [OtherStmt KQuery (PlanCache.PStatement "q"); SetNamesStmt "utf8" None]).

Definition codes (z : Z) : option ColumnType := if (z =? 3)%Z then Some TLong else None.

Definition client : Client State :=
  {| sent := []; caps := {| deprecate_eof := true; protocol_41 := true; query_attributes := false |};
     session := (0%Z, PlanCache.session_new "clinic"); statements := ∅; current_statement_id := 1; supports_multiple_statements := false |}.

(** The packet of an execution with the value 7. *)
Definition execution : bytes :=
  execute_packet Byte.x00 [Byte.x00] [{| expected := DtInt32; type_code := 3; declared := TLong; bound := SInt32 (Some 7%Z) |}].
Definition more : StatusFlags := {| more_results_exists := true; status_autocommit := false |}.
End SampleProxy.

Lemma query_answers_witness : exists answers,
  sent (handle_query SampleProxy.parse Ok demo_format [] SampleProxy.client).1 = mjoin answers /\ length answers = 2 /\
  (forall i ps, answers !! i = Some ps -> answer_ends (bool_decide (i + 1 < 2)) ps).
Proof.
  refine (query_answers SampleProxy.parse Ok demo_format [] [OtherStmt KQuery (PlanCache.PStatement "q"); SetNamesStmt "utf8" None] [Forward (PlanCache.PStatement "q") false; HandleLocal (SetNames "utf8" None)]
    SampleProxy.client _ _ _ _ _).
  - reflexivity.
  - reflexivity.
  - discriminate.
  - vm_compute. reflexivity.
Defined.

#[export] Instance demo_error_text : ErrorText := fun _ => "error".

(** A ping. *)
Lemma command_answered_witness : exists ps, ps <> [] /\
  sent (read_handle_next_command SampleProxy.parse Ok id demo_format (fun _ v => Ok v) (fun _ => S754_nan) (fun _ => S754_nan) (fun _ => None)
    SampleProxy.codes (Received [Byte.x0e]) SampleProxy.client).1 = [] ++ ps.
Proof.
  destruct (command_answered SampleProxy.parse Ok id demo_format (fun _ v => Ok v) (fun _ => S754_nan) (fun _ => S754_nan) (fun _ => None)
    SampleProxy.codes [Byte.x0e] SampleProxy.client (read_handle_next_command SampleProxy.parse Ok id demo_format (fun _ v => Ok v)
      (fun _ => S754_nan) (fun _ => S754_nan) (fun _ => None) SampleProxy.codes (Received [Byte.x0e]) SampleProxy.client).1)
    as (ps & Hne & Hs & _); [discriminate|reflexivity|]. exists ps. split; [exact Hne|exact Hs].
Defined.

Lemma prepared_statements_distinct_witness : exists s,
  statements SampleProxy.client !! statement_id s = None /\
  statements (handle_prepare SampleProxy.parse Ok id [Byte.x00] SampleProxy.client).1 = <[statement_id s := s]> ∅.
Proof.
  destruct (prepared_statements_distinct SampleProxy.parse Ok id demo_format (fun _ v => Ok v) (fun _ => S754_nan) (fun _ => S754_nan)
    (fun _ => None) SampleProxy.codes 0 SampleProxy.client [Byte.x00] (handle_prepare SampleProxy.parse Ok id [Byte.x00] SampleProxy.client).1)
    as (_ & s & Hs & Hst & _).
  - apply (reach_new (S := SampleProxy.State)).
  - lia.
  - vm_compute. reflexivity.
  - exists s. split; [exact Hs|exact Hst].
Defined.

(** Two statements are prepared, the second one is closed and the server is pinged; the
    first one is executed with the value 7. *)
Lemma prepare_then_execute_witness :
  let command incoming := read_handle_next_command SampleProxy.parse Ok id demo_format (fun _ v => Ok v) (fun _ => S754_nan) (fun _ => S754_nan)
                            (fun _ => None) SampleProxy.codes incoming in
  let c1 := (handle_prepare SampleProxy.parse Ok id [Byte.x00] SampleProxy.client).1 in
  let c2 := (command (Received [Byte.x16; Byte.x00]) c1).1 in
  let c3 := (command (Received (Byte.x19 :: to_le_bytes 4 2)) c2).1 in
  let c4 := (command (Received [Byte.x0e]) c3).1 in
  handle_execute demo_format (fun _ v => Ok v) (fun _ => S754_nan) (fun _ => S754_nan) (fun _ => None) SampleProxy.codes
    (to_le_bytes 4 1 ++ SampleProxy.execution) c4 =
  handle_query_result demo_format BinaryRows
    {| stream_fields := [SampleProxy.field]; stream_batches := [Ok (SampleProxy.row [SInt32 (Some 7%Z)])] |} false no_flags c4.
Proof.
  intros command c1 c2 c3 c4.
  destruct (prepare_then_execute
    (run_plan_of SampleProxy.to_plan (fun _ p => Ok p) (fun _ p => Ok p) SampleProxy.stream SampleProxy.with_values)
    SampleProxy.parse Ok id demo_format (fun _ v => Ok v) (fun _ => S754_nan) (fun _ => S754_nan) (fun _ => None) SampleProxy.codes
    (0%Z, PlanCache.session_new "clinic") 0 3
    [Byte.x00] (OtherStmt KQuery (PlanCache.PStatement "q")) (PlanCache.PStatement "q") (PlanCache.PStatement "q") false
    SampleProxy.client c1 c4) as (s & _ & Hs & _ & _ & Hex).
  - reflexivity.
  - apply served_new.
  - lia.
  - reflexivity.
  - reflexivity.
  - reflexivity.
  - vm_compute. reflexivity.
  - eapply later_step; [eapply later_step; [eapply later_step; [apply later_none|..]|..]|..];
      try (apply surjective_pairing); vm_compute; discriminate.
  - vm_compute in Hs. injection Hs as <-. etransitivity;
      [apply (Hex Byte.x00 [Byte.x00] [{| expected := DtInt32; type_code := 3; declared := TLong; bound := SInt32 (Some 7%Z) |}])
      |vm_compute; reflexivity].
    + vm_compute. reflexivity.
    + discriminate.
    + reflexivity.
    + reflexivity.
    + repeat constructor; cbn; unfold fits_s; lia.
Defined.
