(* ===== verification/Connect.v ===== *)
(** * Connecting

    Models [frontends/mysql/src/connection_phase]: the handshake with a client
    ([client_handshake.rs], [connection_phase_state.rs]), its authentication
    ([auth/mod.rs]), and the thread of a connection ([server.rs]), which opens a session
    and handles commands (CommandPhase.v) until the connection is closed; with the
    packets and the read buffer of the connection ([protocols/mysql/src/connection.rs]). *)
From S2P Require Import Prelude Values SqlSchema ArrowCodec PhysicalExprs Sinks CharUtils RowProtocol CommandPhase.
From Stdlib Require Import Floats.SpecFloat.

(** ** Capabilities *)

Inductive Capability :=
  | CLIENT_PROTOCOL_41 | CLIENT_PLUGIN_AUTH | CLIENT_LONG_PASSWORD | CLIENT_LONG_FLAG | CLIENT_CONNECT_WITH_DB
  | CLIENT_LOCAL_FILES | CLIENT_INTERACTIVE | CLIENT_TRANSACTIONS | CLIENT_SECURE_CONNECTION | CLIENT_MULTI_STATEMENTS
  | CLIENT_MULTI_RESULTS | CLIENT_PS_MULTI_RESULTS | CLIENT_CONNECT_ATTRS | CLIENT_PLUGIN_AUTH_LENENC_CLIENT_DATA
  | CLIENT_CAN_HANDLE_EXPIRED_PASSWORDS | CLIENT_SESSION_TRACK | CLIENT_DEPRECATE_EOF | CLIENT_QUERY_ATTRIBUTES.
#[export] Instance Capability_eq_dec : EqDecision Capability.
Proof. solve_decision. Defined.

Inductive AuthPlugin :=
  | MysqlOldPassword | MysqlClearPassword | MysqlNativePassword | CachingSha2Password | Ed25519 | OtherPlugin (name : bytes).
#[export] Instance AuthPlugin_eq_dec : EqDecision AuthPlugin.
Proof. solve_decision. Defined.

(** What the code uses of [mysql_common]: the bits of the capabilities and those that
    are known at all, the names of the plugins, strings that end with a zero byte, and
    two constants. *)
Class MysqlCommon := {
  cap_bit : Capability -> Z;
  known_bits : Z;
  plugin_from_bytes : bytes -> AuthPlugin;
  plugin_as_bytes : AuthPlugin -> bytes;
  parse_null_bytes : bytes -> option (bytes * bytes);
  default_max_allowed_packet : Z;
  utf8mb3_bin : Z
}.

Class MysqlCommonLaws `{MysqlCommon} := {
  cap_bit_range c : (0 <= cap_bit c < 32)%Z;
  cap_bit_inj c c' : cap_bit c = cap_bit c' -> c = c';
  native_from_bytes : plugin_from_bytes (plugin_as_bytes MysqlNativePassword) = MysqlNativePassword;
  native_name_no_zero : Byte.x00 ∉ plugin_as_bytes MysqlNativePassword;
  parse_null_read s r : Byte.x00 ∉ s -> parse_null_bytes (s ++ Byte.x00 :: r) = Some (s, r)
}.

Section Capabilities.
Context `{MysqlCommon}.

(** Sets of capabilities are bit masks. *)
Definition flag (c : Capability) : Z := Z.shiftl 1 (cap_bit c).
Definition flags_of (cs : list Capability) : Z := foldr (fun c z => Z.lor (flag c) z) 0%Z cs.
Definition contains (z : Z) (c : Capability) : bool := (Z.land z (flag c) =? flag c)%Z.
Definition intersection (a b : Z) : Z := Z.land a b.
Definition difference (a b : Z) : Z := Z.ldiff a b.
Definition from_bits (z : Z) : option Z := if (Z.ldiff z known_bits =? 0)%Z then Some z else None.

Definition required_list : list Capability := [CLIENT_PROTOCOL_41; CLIENT_PLUGIN_AUTH].
Definition supported_list : list Capability :=
  required_list ++
  [CLIENT_LONG_PASSWORD; CLIENT_LONG_FLAG; CLIENT_CONNECT_WITH_DB; CLIENT_LOCAL_FILES; CLIENT_INTERACTIVE;
   CLIENT_TRANSACTIONS; CLIENT_SECURE_CONNECTION; CLIENT_MULTI_STATEMENTS; CLIENT_MULTI_RESULTS; CLIENT_PS_MULTI_RESULTS;
   CLIENT_CONNECT_ATTRS; CLIENT_PLUGIN_AUTH_LENENC_CLIENT_DATA; CLIENT_CAN_HANDLE_EXPIRED_PASSWORDS; CLIENT_SESSION_TRACK].
Definition required_capabilities : Z := flags_of required_list.
Definition supported_capabilities : Z := flags_of supported_list.

(** The capabilities that the command phase reads. *)
Definition negotiated (z : Z) : Capabilities :=
  {| deprecate_eof := contains z CLIENT_DEPRECATE_EOF; protocol_41 := contains z CLIENT_PROTOCOL_41;
     query_attributes := contains z CLIENT_QUERY_ATTRIBUTES |}.
End Capabilities.

(** ** Errors and the state of a connection *)

Inductive ConnectError :=
  | IoError | PacketCodecError | ConnectSqlError (message : string) | MissingCapabilities (missing : Z) | InvalidString
  | IncompatibleAuthPlugin.

Inductive attempt (A : Type) := Accepted (a : A) | Refused (e : ConnectError) | Crashed.
Arguments Accepted {A} a.
Arguments Refused {A} e.
Arguments Crashed {A}.

Definition attempt_bind {A B} (m : attempt A) (f : A -> attempt B) : attempt B :=
  match m with Accepted a => f a | Refused e => Refused e | Crashed => Crashed end.
Local Notation "'let*' x := m 'in' k" := (attempt_bind m (fun x => k)) (at level 10, x pattern, k at level 200).

Definition or_refused {A} (o : option A) : attempt A := match o with Some a => Accepted a | None => Refused IoError end.

Record HandshakePacket := {
  hs_version : Z;
  hs_server_version : string;
  hs_connection_id : Z;
  hs_scramble_1 : bytes;
  hs_scramble_2 : option bytes;
  hs_capabilities : Z;
  hs_collation : Z;
  hs_status : StatusFlags;
  hs_auth_plugin : option bytes
}.

Inductive ServerPacket :=
  | ServerHandshake (h : HandshakePacket)
  | AuthSwitchRequest (plugin_name plugin_data : bytes)
  | ServerStatus (p : Packet)
  | ServerError (e : ConnectError).

(** Packets of the client come in order; [live_buffers] counts the packets that were
    read and are still in use, which share the read buffer of the connection. *)
Record MySQLConnection := { incoming : list Incoming; live_buffers : nat; written : list ServerPacket }.

(** [AuthenticationHandler] *)
Inductive LoginMethod := Cleartext (password : bytes) | NativePassword (password scramble_data : bytes).

Record ConnectionPhaseState := {
  conn : MySQLConnection;
  capabilities : option Z;
  auth_method : AuthPlugin;
  initial_db : option bytes;
  max_packet_size : Z
}.

Definition on_conn (f : MySQLConnection -> MySQLConnection) (s : ConnectionPhaseState) : ConnectionPhaseState :=
  {| conn := f (conn s); capabilities := capabilities s; auth_method := auth_method s; initial_db := initial_db s;
     max_packet_size := max_packet_size s |}.

(** Steps of the connection phase. *)
Definition PM (A : Type) : Type := ConnectionPhaseState -> ConnectionPhaseState * attempt A.
Definition pret {A} (a : A) : PM A := fun s => (s, Accepted a).
Definition plift {A} (o : attempt A) : PM A := fun s => (s, o).
Definition pget : PM ConnectionPhaseState := fun s => (s, Accepted s).
Definition pbind {A B} (m : PM A) (f : A -> PM B) : PM B :=
  fun s => let '(s, o) := m s in
           match o with Accepted a => f a s | Refused e => (s, Refused e) | Crashed => (s, Crashed) end.
Local Notation "'let!' x := m 'in' k" := (pbind m (fun x => k)) (at level 10, x pattern, k at level 200).

Definition write (p : ServerPacket) (c : MySQLConnection) : MySQLConnection :=
  {| incoming := incoming c; live_buffers := live_buffers c; written := written c ++ [p] |}.
Definition psend (p : ServerPacket) : PM unit := fun s => (on_conn (write p) s, Accepted tt).

(** [MySQLConnection::read]: the buffer is taken back for writing, which fails while a
    packet that shares it is in use ([Bytes::try_into_mut]). *)
Definition read (c : MySQLConnection) : MySQLConnection * attempt Incoming :=
  if bool_decide (live_buffers c = 0) then
    match incoming c with
    | [] => (c, Accepted Closed)
    | Received p :: rest => ({| incoming := rest; live_buffers := 1; written := written c |}, Accepted (Received p))
    | other :: rest => ({| incoming := rest; live_buffers := 0; written := written c |}, Accepted other)
    end
  else (c, Crashed).

(** A closed connection panics. *)
Definition receive_next_packet : PM bytes := fun s =>
  let '(c, o) := read (conn s) in
  (on_conn (fun _ => c) s,
   match o with
   | Accepted (Received p) => Accepted p
   | Accepted Malformed => Refused PacketCodecError
   | Accepted Closed => Crashed
   | Refused e => Refused e
   | Crashed => Crashed
   end).

(** The packet that a function has read is dropped when it returns. *)
Definition drop_buffer (c : MySQLConnection) : MySQLConnection :=
  {| incoming := incoming c; live_buffers := live_buffers c - 1; written := written c |}.
Definition with_packet {A} (f : bytes -> PM A) : PM A := fun s =>
  let '(s, o) := receive_next_packet s in
  match o with
  | Accepted p => let '(s, o) := f p s in (on_conn drop_buffer s, o)
  | Refused e => (s, Refused e)
  | Crashed => (s, Crashed)
  end.

(** ** The handshake of a client *)

Inductive ScrambleBuf := NullTerminated (bs : bytes) | LenEncoded (bs : bytes) | FixedLength (bs : bytes).

Record CustomClientHandshake := {
  ch_capabilities : Z;
  ch_max_packet_size : Z;
  ch_collation : Z;
  ch_scramble_buf : ScrambleBuf;
  ch_user : bytes;
  ch_db_name : option bytes;
  ch_auth_plugin : option AuthPlugin;
  ch_connect_attributes : option (list (bytes * bytes))
}.

Definition scramble_buf (h : CustomClientHandshake) : bytes :=
  match ch_scramble_buf h with NullTerminated bs | LenEncoded bs | FixedLength bs => bs end.

Section Handshake.
Context `{MysqlCommon} `{LenEnc}.

(** Pairs until the data are used up: every turn reads at least one byte. A key that is
    repeated replaces its value. *)
Fixpoint connect_attrs_fuel (fuel : nat) (data : bytes) (attrs : list (bytes * bytes)) : attempt (list (bytes * bytes)) :=
  match data, fuel with
  | [], _ => Accepted attrs
  | _, O => Crashed
  | _, Datatypes.S fuel =>
      let* (key, data) := or_refused (checked_eat_lenenc_str data) in
      let* (value, data) := or_refused (checked_eat_lenenc_str data) in
      connect_attrs_fuel fuel data (List.filter (fun '(k, _) => negb (bool_decide (k = key))) attrs ++ [(key, value)])
  end.

Definition deserialize_connect_attrs (buf : bytes) : attempt (list (bytes * bytes) * bytes) :=
  let* (data_len, buf) := or_refused (eat_lenenc_int buf) in
  if (data_len <=? Z.of_nat (length buf))%Z then
    let data := take (Z.to_nat data_len) buf in
    let* attrs := connect_attrs_fuel (length data) data [] in
    Accepted (attrs, drop (Z.to_nat data_len) buf)
  else Refused IoError.

(** [RawBytes<U8Bytes>]: one byte for the length. *)
Definition parse_u8_bytes (buf : bytes) : option (bytes * bytes) :=
  match buf with
  | [] => None
  | b :: r => let n := Z.to_nat (from_le_bytes [b]) in if bool_decide (n <= length r) then Some (take n r, drop n r) else None
  end.

Definition parse_scramble (server_cap : Z) (buf : bytes) : attempt (ScrambleBuf * bytes) :=
  if contains server_cap CLIENT_PLUGIN_AUTH_LENENC_CLIENT_DATA then
    let* (s, buf) := or_refused (checked_eat_lenenc_str buf) in Accepted (LenEncoded s, buf)
  else if contains server_cap CLIENT_SECURE_CONNECTION then
    let* (s, buf) := or_refused (parse_u8_bytes buf) in Accepted (FixedLength s, buf)
  else let* (s, buf) := or_refused (parse_null_bytes buf) in Accepted (NullTerminated s, buf).

(** [CustomClientHandshake::deserialize]; unknown capabilities panic ([unwrap]). *)
Definition deserialize (server_cap : Z) (buf : bytes) : attempt CustomClientHandshake :=
  if bool_decide (length buf < 32) then Refused IoError
  else
    let sbuf := take 32 buf in
    let buf := drop 32 buf in
    match from_bits (from_le_bytes (take 4 sbuf)) with
    | None => Crashed
    | Some client_flags =>
        if negb (contains client_flags CLIENT_PROTOCOL_41) then Refused IoError
        else
          let shared_flags := intersection client_flags server_cap in
          let* (user, buf) := or_refused (parse_null_bytes buf) in
          let* (scramble, buf) := parse_scramble server_cap buf in
          let* (db_name, buf) :=
            if contains shared_flags CLIENT_CONNECT_WITH_DB then
              let* (db, buf) := or_refused (parse_null_bytes buf) in Accepted (Some db, buf)
            else Accepted (None, buf) in
          let (auth_plugin, buf) :=
            if contains server_cap CLIENT_PLUGIN_AUTH then
              let name := eat_null_str buf in (Some (plugin_from_bytes name), drop (length name + 1) buf)
            else (None, buf) in
          let* attrs :=
            if contains server_cap CLIENT_CONNECT_ATTRS then
              let* (attrs, _) := deserialize_connect_attrs buf in Accepted (Some attrs)
            else Accepted None in
          Accepted {| ch_capabilities := client_flags;
                      ch_max_packet_size := from_le_bytes (take 4 (drop 4 sbuf));
                      ch_collation := from_le_bytes (take 1 (drop 8 sbuf));
                      ch_scramble_buf := scramble; ch_user := user; ch_db_name := db_name; ch_auth_plugin := auth_plugin;
                      ch_connect_attributes := attrs |}
    end.
End Handshake.

(** ** Authentication *)

(** [AuthData] *)
Definition scramble_1 (data : bytes) : attempt bytes := if bool_decide (8 <= length data) then Accepted (take 8 data) else Crashed.
Definition scramble_2 (data : bytes) : option bytes := if bool_decide (8 < length data) then Some (drop 8 data) else None.

Section Auth.
Context `{MysqlCommon} `{LenEnc}.
(** Whether a login is accepted, and what the random generator of the system fills a
    buffer with, if it works. *)
Variable try_login : bytes -> LoginMethod -> bool.
Variable try_fill_bytes : nat -> option bytes.

Definition gen_initial_data (p : AuthPlugin) : attempt bytes :=
  match p with
  | MysqlClearPassword => Accepted (replicate 20 Byte.x00)
  | MysqlNativePassword =>
      match try_fill_bytes 21 with Some bs => Accepted (<[20 := Byte.x00]> bs) | None => Crashed end
  | _ => Refused IncompatibleAuthPlugin
  end.

Definition is_auth_switch (p other : AuthPlugin) : bool := negb (bool_decide (plugin_as_bytes p = plugin_as_bytes other)).

Definition finish (p : AuthPlugin) (client_auth_data username password_data : bytes) : attempt unit :=
  let username := from_utf8_lossy username in
  let login m := if try_login username m then Accepted tt else Refused IncompatibleAuthPlugin in
  match p with
  | MysqlClearPassword => if utf8_valid password_data then login (Cleartext password_data) else Refused IncompatibleAuthPlugin
  | MysqlNativePassword => login (NativePassword password_data client_auth_data)
  | MysqlOldPassword | CachingSha2Password | Ed25519 | OtherPlugin _ => Crashed
  end.

(** The switch to a plugin that is not [MysqlNativePassword]. *)
Definition switch_to (p : AuthPlugin) (username : bytes) : PM unit :=
  let! auth_data := plift (gen_initial_data p) in
  let! _ := psend (AuthSwitchRequest (plugin_as_bytes p) auth_data) in
  with_packet (fun response => plift (finish p auth_data username response)).

Definition handle_switch_exchange (p : AuthPlugin) (username : bytes) : PM unit :=
  if bool_decide (p = MysqlNativePassword) then switch_to MysqlClearPassword username else switch_to p username.

(** ** The connection sequence *)

Definition set_negotiated (client_caps max : Z) (db : option bytes) : PM unit := fun s =>
  ({| conn := conn s; capabilities := Some client_caps; auth_method := auth_method s; initial_db := db;
      max_packet_size := Z.min (max_packet_size s) max |}, Accepted tt).

Definition valid_string (bs : bytes) : option bytes := if utf8_valid bs then Some bs else None.

Definition authenticate (auth_data : bytes) (handshake : CustomClientHandshake) : PM unit :=
  let client_caps := intersection (ch_capabilities handshake) supported_capabilities in
  let missing_required := difference required_capabilities client_caps in
  if negb (missing_required =? 0)%Z then plift (Refused (MissingCapabilities missing_required))
  else
    let! _ := set_negotiated client_caps (ch_max_packet_size handshake) (ch_db_name handshake ≫= valid_string) in
    let! s := pget in
    let other_auth_plugin :=
      match ch_auth_plugin handshake with
      | Some v => if is_auth_switch (auth_method s) v then Some v else None
      | None => None
      end in
    match other_auth_plugin with
    | Some other_plugin => handle_switch_exchange other_plugin (ch_user handshake)
    | None => plift (finish (auth_method s) auth_data (ch_user handshake) (scramble_buf handshake))
    end.

Definition client_authentication (auth_data : bytes) : PM unit :=
  with_packet (fun packet =>
    let! handshake := plift (deserialize supported_capabilities packet) in
    authenticate auth_data handshake).

Definition send_server_handshake : PM bytes :=
  let! s := pget in
  let! auth_data := plift (gen_initial_data (auth_method s)) in
  let! s1 := plift (scramble_1 auth_data) in
  let! _ := psend (ServerHandshake
    {| hs_version := 10; hs_server_version := "0.1.0"; hs_connection_id := 1; hs_scramble_1 := s1;
       hs_scramble_2 := scramble_2 auth_data; hs_capabilities := supported_capabilities;
       hs_collation := wrap_u 8 (wrap_u 16 utf8mb3_bin); hs_status := no_flags;
       hs_auth_plugin := Some (plugin_as_bytes (auth_method s)) |}) in
  pret auth_data.

Record ConnectionResponse := { capability_flags : Z; response_db : option bytes; max_allowed_packet : Z }.

Definition do_handle_connection_sequence : PM ConnectionResponse :=
  let! auth_data := send_server_handshake in
  let! _ := client_authentication auth_data in
  let! s := pget in
  let! _ := psend (ServerStatus (ok_packet (negotiated (default 0%Z (capabilities s))) (DetailedOk None None) no_flags)) in
  match capabilities s with
  | Some flags => pret {| capability_flags := flags; response_db := initial_db s; max_allowed_packet := max_packet_size s |}
  | None => plift Crashed
  end.

Definition connection_phase_new (client : MySQLConnection) : ConnectionPhaseState :=
  {| conn := client; capabilities := None; auth_method := MysqlNativePassword; initial_db := None;
     max_packet_size := default_max_allowed_packet |}.

(** An error is sent to the client. *)
Definition handle_connection_sequence (client : MySQLConnection) : MySQLConnection * attempt ConnectionResponse :=
  let '(s, o) := do_handle_connection_sequence (connection_phase_new client) in
  match o with
  | Refused e => (write (ServerError e) (conn s), Refused e)
  | o => (conn s, o)
  end.

(** ** The thread of a connection *)

Section Serve.
Context {S A : Type} `{ProxySession S A} `{Engine S} `{NullBitmap} {error_texts : ErrorText}.
Variable parse_sql : bytes -> outcome (list (SqlStatement A)).
Variable rewrite_statement : A -> result A.
Variable number_placeholders : A -> A.
Variable format : DataType -> ArrowValue -> result bytes.
Variable cast_to : DataType -> ScalarValue -> result ScalarValue.
Variable float_of_bits : Z -> spec_float.
Variable double_of_bits : Z -> spec_float.
Variable from_utf8 : bytes -> option string.
Variable column_type_try_from : Z -> option ColumnType.
Variable new_session : option bytes -> S.

Definition client_wrapper_new (info : ConnectionResponse) (session : S) : Client S :=
  {| sent := []; caps := negotiated (capability_flags info); session := session; statements := ∅;
     current_statement_id := 1; supports_multiple_statements := false |}.

(** Commands until the connection is closed or the thread panics; a connection without
    further packets is closed. *)
Fixpoint command_loop (packets : list Incoming) (c : Client S) : Client S * outcome HandleResult :=
  let next i := read_handle_next_command parse_sql rewrite_statement number_placeholders format cast_to float_of_bits
                  double_of_bits from_utf8 column_type_try_from i c in
  match packets with
  | [] => next Closed
  | i :: packets =>
      let '(c, o) := next i in
      match o with Done HandledPacket => command_loop packets c | o => (c, o) end
  end.

(** The client that was served, if a session was opened. *)
Definition serve (client : MySQLConnection) : MySQLConnection * option (Client S * outcome HandleResult) :=
  let '(c, o) := handle_connection_sequence client in
  match o with
  | Accepted info => (c, Some (command_loop (incoming c) (client_wrapper_new info (new_session (response_db info)))))
  | _ => (c, None)
  end.
End Serve.
End Auth.
