(* ===== verification/ConnectTheorems.v ===== *)
(** * What a connection guarantees

    Theorems on Connect.v: no command is handled before a login was accepted, a client
    with the required capabilities and an accepted login is served, and what a client
    that asks for another method of authentication gets. *)
From S2P Require Import Prelude Values SqlSchema ArrowCodec PhysicalExprs Sinks CharUtils RowProtocol CommandPhase CommandTheorems ParamTheorems ProxyCommands Connect.
From Stdlib Require Import Floats.SpecFloat.

(** ** Sets of capabilities *)

Section Flags.
Context `{MysqlCommonLaws}.

Lemma flag_bits c i : (0 <= i)%Z -> Z.testbit (flag c) i = bool_decide (i = cap_bit c).
Proof.
  intros Hi. pose proof (cap_bit_range c). unfold flag. rewrite Z.shiftl_1_l, Z.pow2_bits_eqb by lia.
  case_bool_decide; [apply Z.eqb_eq; lia|apply Z.eqb_neq; lia].
Qed.

Lemma contains_bit z c : contains z c = Z.testbit z (cap_bit c).
Proof.
  pose proof (cap_bit_range c) as Hc. unfold contains. destruct (Z.testbit z (cap_bit c)) eqn:Hb.
  - apply Z.eqb_eq, Z.bits_inj'. intros i Hi. rewrite Z.land_spec, flag_bits by done.
    case_bool_decide; [subst; by rewrite Hb|by rewrite andb_false_r].
  - apply Z.eqb_neq. intros E. apply (f_equal (fun z => Z.testbit z (cap_bit c))) in E.
    rewrite Z.land_spec, Hb, flag_bits in E by lia. by rewrite bool_decide_true in E by done.
Qed.

Lemma contains_flags cs c : contains (flags_of cs) c = bool_decide (c ∈ cs).
Proof.
  rewrite contains_bit. pose proof (cap_bit_range c). induction cs as [|d cs IH]; cbn [flags_of foldr].
  - rewrite Z.bits_0. by rewrite bool_decide_false by set_solver.
  - rewrite Z.lor_spec, flag_bits by lia. fold (flags_of cs). rewrite IH. destruct (decide (c = d)) as [->|Hne].
    + rewrite (bool_decide_true (cap_bit d = cap_bit d)) by done. symmetry. apply bool_decide_eq_true. set_solver.
    + rewrite (bool_decide_false (cap_bit c = cap_bit d)) by (intros E; by apply Hne, cap_bit_inj). cbn.
      apply bool_decide_ext. set_solver.
Qed.

Lemma contains_intersection a b c : contains (intersection a b) c = contains a c && contains b c.
Proof. rewrite !contains_bit. apply Z.land_spec. Qed.

(** Nothing that is required is missing. *)
Lemma nothing_missing caps : difference required_capabilities caps = 0%Z <-> (forall c, c ∈ required_list -> contains caps c = true).
Proof.
  split.
  - intros E c Hc. rewrite contains_bit. pose proof (cap_bit_range c) as Hr.
    apply (f_equal (fun z => Z.testbit z (cap_bit c))) in E. unfold difference in E. rewrite Z.ldiff_spec, Z.bits_0 in E.
    rewrite <- contains_bit in E. unfold required_capabilities in E. rewrite contains_flags, bool_decide_true in E by done.
    cbn in E. by apply negb_false_iff in E.
  - intros Hall. apply Z.bits_inj'. intros i Hi. unfold difference. rewrite Z.ldiff_spec, Z.bits_0. unfold required_capabilities. cbn [required_list flags_of foldr].
    rewrite !Z.lor_spec, Z.bits_0, !flag_bits by done.
    destruct (decide (i = cap_bit CLIENT_PROTOCOL_41)) as [->|H1].
    { rewrite <- (contains_bit caps), Hall by (cbn; set_solver). apply andb_false_r. }
    destruct (decide (i = cap_bit CLIENT_PLUGIN_AUTH)) as [->|H2].
    { rewrite <- (contains_bit caps), Hall by (cbn; set_solver). apply andb_false_r. }
    by rewrite !bool_decide_false by done.
Qed.

(** The command phase is always told the same: the old end-of-file packets, protocol
    4.1, no attributes of queries. *)
Lemma negotiated_capabilities z :
  difference required_capabilities (intersection z supported_capabilities) = 0%Z ->
  negotiated (intersection z supported_capabilities) = {| deprecate_eof := false; protocol_41 := true; query_attributes := false |}.
Proof.
  intros Hm. pose proof (proj1 (nothing_missing _) Hm) as Hall. unfold negotiated. f_equal.
  - rewrite contains_intersection. unfold supported_capabilities. by rewrite contains_flags, andb_false_r.
  - apply Hall. cbn. set_solver.
  - rewrite contains_intersection. unfold supported_capabilities. by rewrite contains_flags, andb_false_r.
Qed.
End Flags.

(** ** Commands keep the capabilities *)

Section Caps.
Context {S A : Type} `{ProxySession S A} `{Engine S} `{LenEnc} `{NullBitmap} {error_texts : ErrorText}.
Variable parse_sql : bytes -> outcome (list (SqlStatement A)).
Variable rewrite_statement : A -> result A.
Variable number_placeholders : A -> A.
Variable format : DataType -> ArrowValue -> result bytes.
Variable cast_to : DataType -> ScalarValue -> result ScalarValue.
Variable float_of_bits : Z -> spec_float.
Variable double_of_bits : Z -> spec_float.
Variable from_utf8 : bytes -> option string.
Variable column_type_try_from : Z -> option ColumnType.

Ltac caps := repeat first [solve [apply _] | apply caps_bind | progress intros | case_match].

#[local] Instance caps_fail {B} e : KeepsCaps (S := S) (fail (B := B) e).
Proof. by intros c. Qed.
#[local] Instance caps_set m : KeepsCaps (S := S) (set_statements m).
Proof. by intros c. Qed.
#[local] Instance caps_next : KeepsCaps (S := S) next_statement_id.
Proof. by intros c. Qed.
#[local] Instance caps_multiple b : KeepsCaps (S := S) (set_multiple b).
Proof. by intros c. Qed.
#[local] Instance caps_ok ok flags : KeepsCaps (S := S) (handle_ok ok flags).
Proof. unfold handle_ok. apply _. Qed.
#[local] Instance caps_rows rows : KeepsCaps (S := S) (send_rows_until rows).
Proof. induction rows as [|[bs|e] rows IH]; cbn; apply _. Qed.
#[local] Instance caps_stream h bs : KeepsCaps (S := S) (send_records_stream format h bs).
Proof. induction bs as [|b bs IH]; cbn; apply _. Qed.
#[local] Instance caps_result h r ok flags : KeepsCaps (S := S) (handle_query_result format h r ok flags).
Proof. unfold handle_query_result. caps. Qed.
#[local] Instance caps_local cmd flags : KeepsCaps (S := S) (handle_local_command cmd flags).
Proof. unfold handle_local_command. caps. Qed.
#[local] Instance caps_statement a status : KeepsCaps (S := S) (handle_statement rewrite_statement format a status).
Proof. unfold handle_statement. caps. Qed.
#[local] Instance caps_statements l : KeepsCaps (S := S) (handle_statements rewrite_statement format l).
Proof. induction l as [|a [|b l] IH]; cbn; apply _. Qed.
#[local] Instance caps_prepare q : KeepsCaps (S := S) (do_prepare_statement parse_sql rewrite_statement number_placeholders q).
Proof. unfold do_prepare_statement, sql_to_statements. caps. Qed.
#[local] Instance caps_query q : KeepsCaps (S := S) (handle_query parse_sql rewrite_statement format q).
Proof. unfold handle_query, sql_to_statements. caps. Qed.

#[local] Instance caps_packet packet : KeepsCaps (S := S) (handle_packet_can_error parse_sql rewrite_statement number_placeholders format
  cast_to float_of_bits double_of_bits from_utf8 column_type_try_from packet).
Proof.
  destruct packet as [|h rest]; [apply _|].
  destruct h; cbn [handle_packet_can_error]; first [solve [apply _] | unfold handle_execute, handle_prepare, handle_com_query, handle_close; caps].
Qed.

#[export] Instance caps_next_command i : KeepsCaps (S := S) (read_handle_next_command parse_sql rewrite_statement number_placeholders format
  cast_to float_of_bits double_of_bits from_utf8 column_type_try_from i).
Proof.
  intros c. destruct i as [| |packet]; cbn; [done|done|]. pose proof (caps_packet packet c) as Hp.
  destruct (handle_packet_can_error _ _ _ _ _ _ _ _ _ _ _) as [c1 [r|e|]]; [done| |done]. by destruct (to_sql_error e).
Qed.
End Caps.

(** ** A session needs a login *)

Lemma pbind_accepted {A B} (m : PM A) (f : A -> PM B) s s' b :
  pbind m f s = (s', Accepted b) -> exists a s1, m s = (s1, Accepted a) /\ f a s1 = (s', Accepted b).
Proof. unfold pbind. destruct (m s) as [s1 [a|e|]]; intros E; try done. by exists a, s1. Qed.

Lemma attempt_bind_accepted {A B} (m : attempt A) (f : A -> attempt B) b :
  attempt_bind m f = Accepted b -> exists a, m = Accepted a /\ f a = Accepted b.
Proof. destruct m as [a|e|]; intros E; try done. by exists a. Qed.

(** Takes a sequence of steps that was accepted apart. *)
Ltac inv_accepted :=
  repeat match goal with
  | H : pbind _ _ _ = (_, Accepted _) |- _ =>
      let a := fresh "a" in let s := fresh "s" in let E := fresh "E" in apply pbind_accepted in H as (a & s & E & H)
  | H : plift _ _ = (_, Accepted _) |- _ => unfold plift in H; injection H as ? ?; subst
  | H : pret _ _ = (_, Accepted _) |- _ => unfold pret in H; injection H as ? ?; subst
  | H : pget _ = (_, Accepted _) |- _ => unfold pget in H; injection H as ? ?; subst
  | H : psend _ _ = (_, Accepted _) |- _ => unfold psend in H; injection H as ?; subst
  end.

Section Login.
Context `{MysqlCommonLaws} `{LenEnc}.
Variable try_login : bytes -> LoginMethod -> bool.
Variable try_fill_bytes : nat -> option bytes.

(** Reading a second packet while the first one is in use panics. *)
Lemma second_read_crashes {A} (f : bytes -> PM A) s : live_buffers (conn s) <> 0 -> exists s', with_packet f s = (s', Crashed).
Proof.
  intros Hl. unfold with_packet, receive_next_packet, read. rewrite bool_decide_false by done. by eexists.
Qed.

(** So a switch to another plugin never succeeds. *)
Lemma switch_never_accepts p user s s' :
  live_buffers (conn s) <> 0 -> handle_switch_exchange try_login try_fill_bytes p user s <> (s', Accepted tt).
Proof.
  intros Hl Hc. assert (forall p, switch_to try_login try_fill_bytes p user s <> (s', Accepted tt)) as Hsw.
  { clear p Hc. intros p Hc. unfold switch_to in Hc. inv_accepted.
    match type of Hc with with_packet ?f ?s = _ => destruct (second_read_crashes f s) as [s2 Hs2]; [done|] end.
    rewrite Hs2 in Hc. done. }
  unfold handle_switch_exchange in Hc. case_bool_decide; by eapply Hsw.
Qed.

(** The handshake that the server sends carries the scramble, in two parts. *)
Definition server_handshake (auth_data : bytes) : HandshakePacket :=
  {| hs_version := 10; hs_server_version := "0.1.0"; hs_connection_id := 1; hs_scramble_1 := take 8 auth_data;
     hs_scramble_2 := scramble_2 auth_data; hs_capabilities := supported_capabilities;
     hs_collation := wrap_u 8 (wrap_u 16 utf8mb3_bin); hs_status := no_flags;
     hs_auth_plugin := Some (plugin_as_bytes MysqlNativePassword) |}.

Lemma handshake_accepted s s' auth_data :
  auth_method s = MysqlNativePassword -> send_server_handshake try_fill_bytes s = (s', Accepted auth_data) ->
  exists data, try_fill_bytes 21 = Some data /\ auth_data = <[20 := Byte.x00]> data /\
    s' = on_conn (write (ServerHandshake (server_handshake auth_data))) s /\
    take 8 auth_data ++ default [] (scramble_2 auth_data) = auth_data.
Proof.
  intros Hm Hs. unfold send_server_handshake, pbind, pget, plift, psend, pret in Hs. rewrite Hm in Hs. cbn [gen_initial_data] in Hs.
  destruct (try_fill_bytes 21) as [data|]; [|done]. unfold scramble_1 in Hs. case_bool_decide as Hl; [|done].
  injection Hs as <- <-. exists data. split; [done|]. split; [done|]. split; [done|].
  unfold scramble_2. case_bool_decide; cbn; [apply take_drop|]. rewrite app_nil_r. apply take_ge. lia.
Qed.

(** A client that is let in sent a handshake, answered with the capabilities that are
    required, and its login with the scramble of the server was accepted. *)
Lemma authentication_accepted s s' auth_data :
  auth_method s = MysqlNativePassword -> client_authentication try_login try_fill_bytes auth_data s = (s', Accepted tt) ->
  exists packet rest hs,
    incoming (conn s) = Received packet :: rest /\ deserialize supported_capabilities packet = Accepted hs /\
    try_login (from_utf8_lossy (ch_user hs)) (NativePassword (scramble_buf hs) auth_data) = true /\
    difference required_capabilities (intersection (ch_capabilities hs) supported_capabilities) = 0%Z /\
    capabilities s' = Some (intersection (ch_capabilities hs) supported_capabilities) /\
    max_packet_size s' = Z.min (max_packet_size s) (ch_max_packet_size hs) /\
    initial_db s' = ch_db_name hs ≫= valid_string /\
    conn s' = {| incoming := rest; live_buffers := 0; written := written (conn s) |}.
Proof.
  intros Hm Hc. unfold client_authentication, with_packet, receive_next_packet, read in Hc.
  case_bool_decide as Hl; [|done]. destruct (incoming (conn s)) as [|[| |packet] rest] eqn:Hin; try done.
  unfold pbind at 1, plift at 1 in Hc. destruct (deserialize supported_capabilities packet) as [hs|e|] eqn:Hd; try done.
  exists packet, rest, hs. split; [done|]. split; [done|]. unfold authenticate in Hc.
  destruct (negb _) eqn:Hmiss; [done|]. apply negb_false_iff, Z.eqb_eq in Hmiss.
  unfold pbind, set_negotiated, pget in Hc. cbn [auth_method on_conn] in Hc. rewrite Hm in Hc.
  match type of Hc with (let '(_, _) := ?m in _) = _ => destruct m as [s2 o2] eqn:E end. injection Hc as <- ->.
  destruct (match ch_auth_plugin hs with Some _ => _ | None => None end) as [p|] in E.
  { by apply switch_never_accepts in E. }
  unfold plift in E. injection E as <- E. cbn in E. destruct (try_login _ _) eqn:Hlogin; [|done]. repeat split; done.
Qed.

Section Sessions.
Context {S A : Type} `{ProxySession S A} `{Engine S} `{NullBitmap} {error_texts : ErrorText}.
Variable parse_sql : bytes -> outcome (list (SqlStatement A)).
Variable rewrite_statement : A -> result A.
Variable number_placeholders : A -> A.
Variable format : DataType -> ArrowValue -> result bytes.
Variable cast_to : DataType -> ScalarValue -> result ScalarValue.
Variable float_of_bits : Z -> spec_float.
Variable double_of_bits : Z -> spec_float.
Variable from_utf8 : bytes -> option string.
Variable column_type_try_from : Z -> option ColumnType.
Variable new_session : option bytes -> S.

Abbreviation reached := (reachable parse_sql rewrite_statement number_placeholders format cast_to float_of_bits double_of_bits from_utf8
  column_type_try_from).
Abbreviation loop := (command_loop parse_sql rewrite_statement number_placeholders format cast_to float_of_bits double_of_bits from_utf8
  column_type_try_from).
Abbreviation serve := (serve try_login try_fill_bytes parse_sql rewrite_statement number_placeholders format cast_to float_of_bits
  double_of_bits from_utf8 column_type_try_from new_session).

(** The loop ends in a client that the commands reach, with the capabilities of the
    first one. *)
Lemma loop_reaches packets n c : reached n c ->
  exists k, k <= length packets + 1 /\ reached (n + k) (loop packets c).1 /\ caps (loop packets c).1 = caps c.
Proof.
  revert n c. induction packets as [|i packets IH]; intros n c Hr; cbn [command_loop].
  - exists 1. split; [cbn; lia|]. rewrite Nat.add_1_r. split; [|done]. eapply reach_step; [exact Hr|]. apply surjective_pairing.
  - pose proof (caps_next_command parse_sql rewrite_statement number_placeholders format cast_to float_of_bits double_of_bits from_utf8
      column_type_try_from i c) as Hcaps.
    destruct (read_handle_next_command _ _ _ _ _ _ _ _ _ i c) as [c1 o] eqn:Hn. cbn in Hcaps.
    assert (reached (Datatypes.S n) c1) as Hr1 by (eapply reach_step; [exact Hr|exact Hn]).
    destruct o as [[|reason]|e|].
    2-4: exists 1; split; [cbn; lia|]; rewrite Nat.add_1_r; done.
    destruct (IH _ _ Hr1) as (k & Hk & Hrk & Hck). exists (Datatypes.S k). split; [cbn; lia|].
    rewrite Nat.add_succ_r. split; [exact Hrk|congruence].
Qed.

(** C12: No session is opened, and no command is handled, before a login: the first packet of
    the client is its handshake, the login of its user was accepted with the password it
    sent for the scramble that the server had sent, and the capabilities that are
    required are there. The thread then serves the client, in states that commands reach
    from a new client, under the same capabilities until the end. *)
Theorem session_requires_login client client' c o :
  serve client = (client', Some (c, o)) ->
  exists packet rest hs data,
    incoming client = Received packet :: rest /\ deserialize supported_capabilities packet = Accepted hs /\
    try_fill_bytes 21 = Some data /\
    try_login (from_utf8_lossy (ch_user hs)) (NativePassword (scramble_buf hs) (<[20 := Byte.x00]> data)) = true /\
    written client' = written client ++ [ServerHandshake (server_handshake (<[20 := Byte.x00]> data)); ServerStatus (OkPacket 0 0 no_flags)] /\
    hs_scramble_1 (server_handshake (<[20 := Byte.x00]> data)) ++
      default [] (hs_scramble_2 (server_handshake (<[20 := Byte.x00]> data))) = <[20 := Byte.x00]> data /\
    (forall cap, cap ∈ required_list -> contains (ch_capabilities hs) cap = true) /\
    caps c = {| deprecate_eof := false; protocol_41 := true; query_attributes := false |} /\
    exists n, n <= length rest + 1 /\ reached n c.
Proof.
  intros Hs. unfold Connect.serve, handle_connection_sequence in Hs.
  destruct (do_handle_connection_sequence _ _ _) as [s o1] eqn:Hd. destruct o1 as [info|e|]; try done. injection Hs as <- Hloop.
  unfold do_handle_connection_sequence in Hd.
  apply pbind_accepted in Hd as (auth_data & s1 & Hh & Hd). apply handshake_accepted in Hh as (data & Hdata & -> & -> & Hscr); [|done].
  apply pbind_accepted in Hd as (u & s2 & Ha & Hd). destruct u.
  apply authentication_accepted in Ha as (packet & rest & hs & Hin & Hde & Hlogin & Hmiss & Hcaps & _ & _ & Hconn); [|done].
  apply pbind_accepted in Hd as (s3 & s4 & Hg & Hd). injection Hg as <- <-. unfold pbind, psend in Hd. rewrite Hcaps in Hd.
  unfold pret in Hd. injection Hd as <- <-. cbn in Hin, Hconn.
  exists packet, rest, hs, data. split; [done|]. split; [done|]. split; [done|]. split; [done|].
  cbn [conn on_conn] in Hloop |- *. rewrite Hconn in Hloop |- *. cbn in Hloop |- *. split; [by rewrite <- app_assoc|]. split; [exact Hscr|].
  split. { intros cap Hcap. pose proof (proj1 (nothing_missing _) Hmiss cap Hcap) as Hc. rewrite contains_intersection in Hc. by apply andb_true_iff in Hc as [Hc _]. }
  match type of Hloop with command_loop _ _ _ _ _ _ _ _ _ _ ?c0 = _ => destruct (loop_reaches rest 0 c0) as (k & Hk & Hr & Hck); [apply reach_new|] end.
  rewrite Hloop in Hr, Hck. cbn [fst caps client_wrapper_new capability_flags] in Hr, Hck. split; [|by exists k].
  rewrite Hck. by apply negotiated_capabilities.
Qed.
End Sessions.
End Login.

(** ** A client with an accepted login is served *)

Section Accept.
Context `{MysqlCommonLaws} `{LenEncLaws}.

Definition attributes_bytes (attrs : list (bytes * bytes)) : bytes :=
  attrs ≫= fun '(k, v) => put_lenenc_str k ++ put_lenenc_str v.

(** The handshake of a client, as the protocol has it. *)
Record ClientResponse := {
  cr_flags : Z; cr_max_packet : Z; cr_collation : Z; cr_user : bytes; cr_password : bytes; cr_db : option bytes;
  cr_attributes : list (bytes * bytes)
}.

Definition response_bytes (r : ClientResponse) : bytes :=
  (to_le_bytes 4 (cr_flags r) ++ to_le_bytes 4 (cr_max_packet r) ++ to_le_bytes 1 (cr_collation r) ++ replicate 23 Byte.x00) ++
  cr_user r ++ Byte.x00 :: put_lenenc_str (cr_password r) ++
  match cr_db r with Some db => db ++ [Byte.x00] | None => [] end ++
  plugin_as_bytes MysqlNativePassword ++ Byte.x00 :: put_lenenc_str (attributes_bytes (cr_attributes r)).

Record response_ok (r : ClientResponse) : Prop := {
  ro_flags : fits_u 32 (cr_flags r);
  ro_known : from_bits (cr_flags r) = Some (cr_flags r);
  ro_max : fits_u 32 (cr_max_packet r);
  ro_collation : fits_u 8 (cr_collation r);
  ro_required c : c ∈ required_list -> contains (cr_flags r) c = true;
  ro_user : Byte.x00 ∉ cr_user r;
  ro_db : contains (cr_flags r) CLIENT_CONNECT_WITH_DB = bool_decide (is_Some (cr_db r));
  ro_db_zero db : cr_db r = Some db -> Byte.x00 ∉ db;
  ro_size : (Z.of_nat (length (response_bytes r)) < 2 ^ 64)%Z
}.

Lemma lenenc_str_length bs : (Z.of_nat (length bs) < 2 ^ 64)%Z -> length bs < length (put_lenenc_str bs).
Proof.
  intros Hb. unfold put_lenenc_str. rewrite length_app, lenenc_length by (unfold fits_u; lia). unfold lenenc_size. repeat case_match; lia.
Qed.

(** The attributes are read to the end: the fuel is enough. *)
Lemma attributes_read attrs fuel acc :
  Forall (fun '(k, v) => Z.of_nat (length k) < 2 ^ 64 /\ Z.of_nat (length v) < 2 ^ 64)%Z attrs ->
  length (attributes_bytes attrs) <= fuel -> exists acc', connect_attrs_fuel fuel (attributes_bytes attrs) acc = Accepted acc'.
Proof.
  intros Hall. revert fuel acc. induction Hall as [|[k v] attrs [Hk Hv] _ IH]; intros fuel acc Hf.
  - exists acc. by destruct fuel.
  - change (attributes_bytes ((k, v) :: attrs)) with ((put_lenenc_str k ++ put_lenenc_str v) ++ attributes_bytes attrs) in *.
    rewrite <- app_assoc in *. pose proof (lenenc_str_length k Hk) as Hlk. rewrite !length_app in Hf.
    destruct fuel as [|fuel]; [lia|].
    destruct (put_lenenc_str k ++ put_lenenc_str v ++ attributes_bytes attrs) as [|b bs] eqn:Hb.
    { apply (f_equal length) in Hb. rewrite length_app in Hb. cbn in Hb. lia. }
    cbn [connect_attrs_fuel]. rewrite <- Hb, eat_lenenc_str_put by done. cbn. rewrite eat_lenenc_str_put by done. cbn. apply IH. lia.
Qed.

Lemma eat_null_str_app s r : Byte.x00 ∉ s -> eat_null_str (s ++ Byte.x00 :: r) = s.
Proof.
  induction s as [|b s IH]; intros Hs; cbn; [done|]. rewrite bool_decide_false by set_solver. rewrite IH by set_solver. done.
Qed.

Lemma supported_has c : c ∈ supported_list -> contains supported_capabilities c = true.
Proof. intros Hc. unfold supported_capabilities. rewrite contains_flags. by apply bool_decide_eq_true. Qed.
Lemma supported_has_not c : contains supported_capabilities c = bool_decide (c ∈ supported_list).
Proof. unfold supported_capabilities. apply contains_flags. Qed.

Lemma attribute_sizes attrs : (Z.of_nat (length (attributes_bytes attrs)) < 2 ^ 64)%Z ->
  Forall (fun '(k, v) => Z.of_nat (length k) < 2 ^ 64 /\ Z.of_nat (length v) < 2 ^ 64)%Z attrs.
Proof.
  induction attrs as [|[k v] attrs IH]; intros Hl; [constructor|].
  change (attributes_bytes ((k, v) :: attrs)) with ((put_lenenc_str k ++ put_lenenc_str v) ++ attributes_bytes attrs) in *.
  unfold put_lenenc_str in Hl. rewrite !length_app in Hl. constructor; [lia|]. apply IH. lia.
Qed.

Lemma attrs_deserialized attrs : (Z.of_nat (length (attributes_bytes attrs)) < 2 ^ 64)%Z ->
  exists attrs', deserialize_connect_attrs (put_lenenc_str (attributes_bytes attrs)) = Accepted (attrs', []).
Proof.
  intros Hl. unfold deserialize_connect_attrs, put_lenenc_str. rewrite lenenc_read by (unfold fits_u; lia). cbn [or_refused attempt_bind].
  rewrite (proj2 (Z.leb_le _ _)) by lia. rewrite Nat2Z.id, take_ge, drop_ge by done.
  destruct (attributes_read attrs (length (attributes_bytes attrs)) []) as [acc Hacc]; [by apply attribute_sizes|done|].
  exists acc. by rewrite Hacc.
Qed.

(** The fixed part, and the name of the database. *)
Lemma fixed_part_read r : response_ok r ->
  let head := to_le_bytes 4 (cr_flags r) ++ to_le_bytes 4 (cr_max_packet r) ++ to_le_bytes 1 (cr_collation r) ++ replicate 23 Byte.x00 in
  length head = 32 /\ from_le_bytes (take 4 head) = cr_flags r /\ from_le_bytes (take 4 (drop 4 head)) = cr_max_packet r /\
  from_le_bytes (take 1 (drop 8 head)) = cr_collation r.
Proof.
  intros Hr head. split; [unfold head; rewrite !length_app, !length_to_le_bytes; done|].
  destruct (le_bytes_read 4 (cr_flags r) (to_le_bytes 4 (cr_max_packet r) ++ to_le_bytes 1 (cr_collation r) ++ replicate 23 Byte.x00))
    as [E1 E2]; [apply Hr|].
  destruct (le_bytes_read 4 (cr_max_packet r) (to_le_bytes 1 (cr_collation r) ++ replicate 23 Byte.x00)) as [E3 E4]; [apply Hr|].
  unfold head. split; [exact E1|]. rewrite E2. split; [exact E3|]. rewrite <- (drop_drop _ 4 4), E2, E4.
  by apply le_bytes_read, Hr.
Qed.

Lemma database_read r (rest : bytes) : response_ok r ->
  (if bool_decide (is_Some (cr_db r)) then
     attempt_bind (or_refused (parse_null_bytes (match cr_db r with Some db => db ++ [Byte.x00] | None => [] end ++ rest)))
       (fun '(db, buf) => Accepted (Some db, buf))
   else Accepted (None, match cr_db r with Some db => db ++ [Byte.x00] | None => [] end ++ rest)) = Accepted (cr_db r, rest).
Proof.
  intros Hr. pose proof (ro_db_zero r Hr) as Hz. destruct (cr_db r) as [db|] eqn:E; [|by rewrite bool_decide_false by (by intros [? ?])].
  rewrite bool_decide_true by done. rewrite <- app_assoc. cbn. by rewrite parse_null_read by (by apply Hz).
Qed.

(** The handshake of a client is read back. *)
Lemma response_read r : response_ok r -> exists attrs,
  deserialize supported_capabilities (response_bytes r) =
  Accepted {| ch_capabilities := cr_flags r; ch_max_packet_size := cr_max_packet r; ch_collation := cr_collation r;
              ch_scramble_buf := LenEncoded (cr_password r); ch_user := cr_user r; ch_db_name := cr_db r;
              ch_auth_plugin := Some MysqlNativePassword; ch_connect_attributes := attrs |}.
Proof.
  intros Hr. pose proof (ro_size r Hr) as Hsize. pose proof (fixed_part_read r Hr) as (Hlh & Ef & Em & Ec). unfold response_bytes in *.
  rewrite !length_app in Hsize. cbn [length] in Hsize. rewrite !length_app in Hsize. cbn [length] in Hsize.
  set (head := to_le_bytes 4 (cr_flags r) ++ _) in *. pose proof (database_read r) as Hdb.
  assert (length (cr_password r) <= length (put_lenenc_str (cr_password r)) /\
          length (attributes_bytes (cr_attributes r)) <= length (put_lenenc_str (attributes_bytes (cr_attributes r)))) as [Hl1 Hl2].
  { unfold put_lenenc_str. rewrite !length_app. lia. }
  destruct (attrs_deserialized (cr_attributes r)) as [attrs Hattrs]; [lia|].
  exists (Some attrs). unfold deserialize. cbv zeta. rewrite bool_decide_false by (rewrite length_app; lia).
  rewrite !(take_app_length' head), !(drop_app_length' head) by done.
  rewrite Ef, Em, Ec, (ro_known r Hr), (ro_required r Hr) by (cbn; set_solver). cbn [negb].
  rewrite parse_null_read by apply Hr. cbn [or_refused attempt_bind]. unfold parse_scramble.
  rewrite supported_has by (cbn; set_solver). rewrite eat_lenenc_str_put by lia. cbn [or_refused attempt_bind].
  rewrite contains_intersection, (ro_db r Hr), supported_has, andb_true_r by (cbn; set_solver).
  rewrite Hdb by done. cbn [attempt_bind]. rewrite !supported_has by (cbn; set_solver).
  rewrite eat_null_str_app by apply native_name_no_zero. rewrite native_from_bytes.
  rewrite Nat.add_1_r, drop_app_ge by lia. replace (Datatypes.S _ - _) with 1 by lia. cbn [drop]. by rewrite drop_0, Hattrs.
Qed.

Variable try_login : bytes -> LoginMethod -> bool.
Variable try_fill_bytes : nat -> option bytes.

(** The handshake of a client whose login is accepted is answered with OK. *)
Lemma sequence_accepts r rest w data :
  response_ok r -> try_fill_bytes 21 = Some data -> length data = 21 ->
  try_login (from_utf8_lossy (cr_user r)) (NativePassword (cr_password r) (<[20 := Byte.x00]> data)) = true ->
  handle_connection_sequence try_login try_fill_bytes
    {| incoming := Received (response_bytes r) :: rest; live_buffers := 0; written := w |} =
  ({| incoming := rest; live_buffers := 0;
      written := w ++ [ServerHandshake (server_handshake (<[20 := Byte.x00]> data)); ServerStatus (OkPacket 0 0 no_flags)] |},
   Accepted {| capability_flags := intersection (cr_flags r) supported_capabilities; response_db := cr_db r ≫= valid_string;
               max_allowed_packet := Z.min default_max_allowed_packet (cr_max_packet r) |}).
Proof.
  intros Hr Hdata Hlen Hlogin. destruct (response_read r Hr) as [attrs Hd].
  assert (send_server_handshake try_fill_bytes (connection_phase_new {| incoming := Received (response_bytes r) :: rest; live_buffers := 0; written := w |}) =
    (on_conn (write (ServerHandshake (server_handshake (<[20 := Byte.x00]> data)))) (connection_phase_new {| incoming := Received (response_bytes r) :: rest; live_buffers := 0; written := w |}),
     Accepted (<[20 := Byte.x00]> data))) as Hh.
  { unfold send_server_handshake, pbind, pget, plift, psend, pret. cbn [auth_method connection_phase_new gen_initial_data].
    rewrite Hdata. unfold scramble_1. rewrite bool_decide_true by (rewrite length_insert; lia). done. }
  assert (difference required_capabilities (intersection (cr_flags r) supported_capabilities) = 0%Z) as Hmiss.
  { apply nothing_missing. intros c Hc. rewrite contains_intersection, (ro_required r Hr c Hc). apply supported_has.
    unfold supported_list. set_solver. }
  unfold handle_connection_sequence, do_handle_connection_sequence. unfold pbind at 1. rewrite Hh.
  unfold client_authentication, with_packet, receive_next_packet, read, pbind at 1. cbn [conn on_conn connection_phase_new write live_buffers incoming].
  rewrite bool_decide_true by done. unfold pbind at 1, plift at 1. rewrite Hd.
  unfold authenticate. cbn [ch_capabilities]. rewrite Hmiss. cbn [negb Z.eqb].
  unfold pbind, set_negotiated, pget. cbn [auth_method on_conn ch_auth_plugin]. unfold is_auth_switch. rewrite bool_decide_true by done. cbn [negb].
  unfold plift, finish. cbn [ch_user scramble_buf ch_scramble_buf]. rewrite Hlogin. cbn. unfold write, drop_buffer. cbn [written incoming live_buffers Nat.sub]. by rewrite <- app_assoc.
Qed.

Section Served.
Context {S A : Type} `{ProxySession S A} `{Engine S} `{NullBitmap} {error_texts : ErrorText}.
Variable parse_sql : bytes -> outcome (list (SqlStatement A)).
Variable rewrite_statement : A -> result A.
Variable number_placeholders : A -> A.
Variable format : DataType -> ArrowValue -> result bytes.
Variable cast_to : DataType -> ScalarValue -> result ScalarValue.
Variable float_of_bits : Z -> spec_float.
Variable double_of_bits : Z -> spec_float.
Variable from_utf8 : bytes -> option string.
Variable column_type_try_from : Z -> option ColumnType.
Variable new_session : option bytes -> S.

(** C32: A client with the required capabilities whose login is accepted is served: the answer
    to its handshake is OK, a session is opened on its database (when the name is valid),
    and the commands that follow are handled on it, in their order, for the capabilities
    that both sides have. *)
Theorem client_served r rest w data :
  response_ok r -> try_fill_bytes 21 = Some data -> length data = 21 ->
  try_login (from_utf8_lossy (cr_user r)) (NativePassword (cr_password r) (<[20 := Byte.x00]> data)) = true ->
  serve try_login try_fill_bytes parse_sql rewrite_statement number_placeholders format cast_to float_of_bits double_of_bits from_utf8
    column_type_try_from new_session {| incoming := Received (response_bytes r) :: rest; live_buffers := 0; written := w |} =
  ({| incoming := rest; live_buffers := 0;
      written := w ++ [ServerHandshake (server_handshake (<[20 := Byte.x00]> data)); ServerStatus (OkPacket 0 0 no_flags)] |},
   Some (command_loop parse_sql rewrite_statement number_placeholders format cast_to float_of_bits double_of_bits from_utf8
     column_type_try_from rest
     {| sent := []; caps := {| deprecate_eof := false; protocol_41 := true; query_attributes := false |};
        session := new_session (cr_db r ≫= valid_string); statements := ∅; current_statement_id := 1;
        supports_multiple_statements := false |})).
Proof.
  intros Hr Hdata Hlen Hlogin. unfold serve. rewrite (sequence_accepts r rest w data) by done. cbn [incoming]. do 3 f_equal.
  unfold client_wrapper_new. cbn [capability_flags response_db]. rewrite negotiated_capabilities; [done|].
  apply nothing_missing. intros c Hc. rewrite contains_intersection, (ro_required r Hr c Hc). apply supported_has.
  unfold supported_list. set_solver.
Qed.
End Served.
End Accept.

(** ** A concrete protocol *)

Fixpoint split_null (bs : bytes) : option (bytes * bytes) :=
  match bs with
  | [] => None
  | b :: bs =>
      if bool_decide (b = Byte.x00) then Some ([], bs)
      else match split_null bs with Some (s, r) => Some (b :: s, r) | None => None end
  end.

Definition native_name : bytes := String.list_byte_of_string "mysql_native_password".

(** The bits of the protocol. *)
#[export] Instance protocol_mysql : MysqlCommon := {
  cap_bit c := (match c with
    | CLIENT_LONG_PASSWORD => 0 | CLIENT_LONG_FLAG => 2 | CLIENT_CONNECT_WITH_DB => 3 | CLIENT_LOCAL_FILES => 7
    | CLIENT_PROTOCOL_41 => 9 | CLIENT_INTERACTIVE => 10 | CLIENT_TRANSACTIONS => 13 | CLIENT_SECURE_CONNECTION => 15
    | CLIENT_MULTI_STATEMENTS => 16 | CLIENT_MULTI_RESULTS => 17 | CLIENT_PS_MULTI_RESULTS => 18 | CLIENT_PLUGIN_AUTH => 19
    | CLIENT_CONNECT_ATTRS => 20 | CLIENT_PLUGIN_AUTH_LENENC_CLIENT_DATA => 21 | CLIENT_CAN_HANDLE_EXPIRED_PASSWORDS => 22
    | CLIENT_SESSION_TRACK => 23 | CLIENT_DEPRECATE_EOF => 24 | CLIENT_QUERY_ATTRIBUTES => 27
    end)%Z;
  known_bits := 2 ^ 32 - 1;
  plugin_from_bytes name :=
    if bool_decide (name = native_name) then MysqlNativePassword
    else if bool_decide (name = String.list_byte_of_string "mysql_clear_password") then MysqlClearPassword
    else if bool_decide (name = String.list_byte_of_string "caching_sha2_password") then CachingSha2Password
    else OtherPlugin name;
  plugin_as_bytes p := match p with
    | MysqlOldPassword => String.list_byte_of_string "mysql_old_password"
    | MysqlClearPassword => String.list_byte_of_string "mysql_clear_password"
    | MysqlNativePassword => native_name
    | CachingSha2Password => String.list_byte_of_string "caching_sha2_password"
    | Ed25519 => String.list_byte_of_string "client_ed25519"
    | OtherPlugin name => name
    end;
  parse_null_bytes := split_null;
  default_max_allowed_packet := 4194304;
  utf8mb3_bin := 83
}.

#[export] Instance protocol_mysql_laws : MysqlCommonLaws.
Proof.
  split.
  - intros c. destruct c; cbn; lia.
  - intros c c' E. destruct c, c'; done.
  - reflexivity.
  - cbn. unfold native_name. cbn. set_solver.
  - intros s r. cbn. induction s as [|b s IH]; intros Hs; cbn; [done|]. rewrite bool_decide_false by set_solver. by rewrite IH by set_solver.
Qed.

(** A client that connects to its database and sends a ping; the password is accepted
    when it is the last byte of the scramble. *)
Module SampleConnection.
Definition response (db : option bytes) : ClientResponse :=
  {| cr_flags := flags_of (CLIENT_DEPRECATE_EOF :: match db with Some _ => [CLIENT_CONNECT_WITH_DB] | None => [] end ++ required_list);
     cr_max_packet := 65536; cr_collation := 45; cr_user := [Byte.x72; Byte.x6f]; cr_password := [Byte.x00]; cr_db := db;
     cr_attributes := [([Byte.x6b], [Byte.x76])] |}.
Definition scramble : bytes := replicate 21 Byte.x07.
Definition login (user : bytes) (m : LoginMethod) : bool :=
  match m with NativePassword password data => bool_decide (user = [Byte.x72; Byte.x6f] /\ Some password = (fun b => [b]) <$> data !! 20) | _ => false end.
Definition connection (db : option bytes) : MySQLConnection :=
  {| incoming := [Received (response_bytes (response db)); Received [Byte.x0e]]; live_buffers := 0; written := [] |}.
End SampleConnection.

Lemma sample_response_ok db : db = None \/ db = Some [Byte.x64] -> response_ok (SampleConnection.response db).
Proof.
  intros Hdb. split.
  - destruct Hdb as [->| ->]; split; vm_compute; congruence.
  - destruct Hdb as [->| ->]; vm_compute; reflexivity.
  - split; vm_compute; congruence.
  - split; vm_compute; congruence.
  - intros c Hc. apply elem_of_cons in Hc as [->|Hc]; [destruct Hdb as [->| ->]; vm_compute; reflexivity|].
    apply elem_of_cons in Hc as [->|Hc]; [destruct Hdb as [->| ->]; vm_compute; reflexivity|]. by apply elem_of_nil in Hc.
  - cbn. set_solver.
  - destruct Hdb as [->| ->]; vm_compute; reflexivity.
  - intros d Hd. destruct Hdb as [->| ->]; cbn in Hd; [done|]. injection Hd as <-. set_solver.
  - destruct Hdb as [->| ->]; vm_compute; reflexivity.
Qed.

Module SampleServe.
Definition serve_sample := serve SampleConnection.login (fun _ => Some SampleConnection.scramble) SampleProxy.parse Ok id demo_format
  (fun _ v => Ok v) (fun _ => S754_nan) (fun _ => S754_nan) (fun _ => None) SampleProxy.codes
  (fun _ => (0%Z, PlanCache.session_new "clinic") : SampleProxy.State).
End SampleServe.

Lemma client_served_witness : exists c,
  (SampleServe.serve_sample (SampleConnection.connection (Some [Byte.x64]))).2 = Some (c, Done (ConnectionClosed "closed by peer")) /\
  sent c = [OkPacket 0 0 no_flags].
Proof.
  unfold SampleServe.serve_sample, SampleConnection.connection.
  rewrite (client_served SampleConnection.login (fun _ => Some SampleConnection.scramble) SampleProxy.parse Ok id demo_format
    (fun _ v => Ok v) (fun _ => S754_nan) (fun _ => S754_nan) (fun _ => None) SampleProxy.codes
    (fun _ => (0%Z, PlanCache.session_new "clinic") : SampleProxy.State) (SampleConnection.response (Some [Byte.x64]))
    [Received [Byte.x0e]] [] SampleConnection.scramble).
  - eexists. split; [vm_compute; reflexivity|reflexivity].
  - apply sample_response_ok. by right.
  - reflexivity.
  - reflexivity.
  - vm_compute. reflexivity.
Defined.

Lemma session_requires_login_witness : exists packet rest hs,
  incoming (SampleConnection.connection None) = Received packet :: rest /\
  SampleConnection.login (from_utf8_lossy (ch_user hs)) (NativePassword (scramble_buf hs) (<[20 := Byte.x00]> SampleConnection.scramble)) = true.
Proof.
  destruct (session_requires_login SampleConnection.login (fun _ => Some SampleConnection.scramble) SampleProxy.parse Ok id demo_format
    (fun _ v => Ok v) (fun _ => S754_nan) (fun _ => S754_nan) (fun _ => None) SampleProxy.codes
    (fun _ => (0%Z, PlanCache.session_new "clinic") : SampleProxy.State) (SampleConnection.connection None)
    (SampleServe.serve_sample (SampleConnection.connection None)).1
    {| sent := [OkPacket 0 0 no_flags]; caps := {| deprecate_eof := false; protocol_41 := true; query_attributes := false |};
       session := (0%Z, PlanCache.session_new "clinic"); statements := ∅; current_statement_id := 1; supports_multiple_statements := false |}
    (Done (ConnectionClosed "closed by peer")))
    as (packet & rest & hs & data & Hin & _ & Hdata & Hlogin & _).
  - vm_compute. reflexivity.
  - injection Hdata as <-. exists packet, rest, hs. split; [exact Hin|exact Hlogin].
Defined.

(** ** Findings *)

(** The login of the server in [server/src/main.rs]: every user and password is accepted. *)
Definition stub_try_login (username : bytes) (m : LoginMethod) : bool := true.

Section Findings.
Context `{MysqlCommonLaws} `{LenEncLaws}.
Variable try_login : bytes -> LoginMethod -> bool.
Variable try_fill_bytes : nat -> option bytes.

(** Finding: with the login of the server, every client gets in, whatever its user and
    its password are. *)
Lemma stub_accepts_everyone r rest w data : response_ok r -> try_fill_bytes 21 = Some data -> length data = 21 ->
  exists info, (handle_connection_sequence stub_try_login try_fill_bytes
    {| incoming := Received (response_bytes r) :: rest; live_buffers := 0; written := w |}).2 = Accepted info.
Proof. intros Hr Hdata Hl. eexists. by rewrite (sequence_accepts stub_try_login try_fill_bytes r rest w data). Qed.

(** The answer to a handshake that asks for another plugin. *)
Lemma other_plugin_answer packet rest w data hs p :
  deserialize supported_capabilities packet = Accepted hs -> ch_auth_plugin hs = Some p ->
  plugin_as_bytes MysqlNativePassword <> plugin_as_bytes p ->
  difference required_capabilities (intersection (ch_capabilities hs) supported_capabilities) = 0%Z ->
  try_fill_bytes 21 = Some data -> length data = 21 ->
  (handle_connection_sequence try_login try_fill_bytes {| incoming := Received packet :: rest; live_buffers := 0; written := w |}).2 =
  match p with MysqlClearPassword | MysqlNativePassword => Crashed | _ => Refused IncompatibleAuthPlugin end.
Proof.
  intros Hd Hp Hne Hmiss Hdata Hlen.
  unfold handle_connection_sequence, do_handle_connection_sequence, send_server_handshake, pbind, pget, plift, psend, pret.
  cbn [auth_method connection_phase_new gen_initial_data]. rewrite Hdata. unfold scramble_1. rewrite bool_decide_true by (rewrite length_insert; lia).
  unfold client_authentication, with_packet at 1, receive_next_packet, read at 1, pbind, plift. cbn [conn on_conn connection_phase_new write live_buffers incoming].
  rewrite bool_decide_true by done. cbn [conn on_conn]. rewrite Hd. unfold authenticate. rewrite Hmiss. cbn [negb Z.eqb].
  unfold pbind, set_negotiated, pget. rewrite Hp. cbn [auth_method on_conn]. unfold is_auth_switch. rewrite bool_decide_false by done. cbn [negb].
  destruct p; try done; unfold handle_switch_exchange, switch_to, pbind, plift, psend; cbn; reflexivity.
Qed.

(** Finding: a client that asks for [caching_sha2_password], the default of current
    clients, is refused, although a switch to the plugin of the server would be enough. *)
Lemma sha2_refused packet rest w data hs :
  deserialize supported_capabilities packet = Accepted hs -> ch_auth_plugin hs = Some CachingSha2Password ->
  plugin_as_bytes MysqlNativePassword <> plugin_as_bytes CachingSha2Password ->
  difference required_capabilities (intersection (ch_capabilities hs) supported_capabilities) = 0%Z ->
  try_fill_bytes 21 = Some data -> length data = 21 ->
  (handle_connection_sequence try_login try_fill_bytes {| incoming := Received packet :: rest; live_buffers := 0; written := w |}).2 =
  Refused IncompatibleAuthPlugin.
Proof. intros Hd Hp Hne Hm Hdata Hl. exact (other_plugin_answer _ _ _ _ _ _ Hd Hp Hne Hm Hdata Hl). Qed.

(** Finding: the one switch that is implemented panics. The answer of the client is read
    while the packet of its handshake, which shares the read buffer, is still in use. *)
Lemma clear_password_crashes packet rest w data hs :
  deserialize supported_capabilities packet = Accepted hs -> ch_auth_plugin hs = Some MysqlClearPassword ->
  plugin_as_bytes MysqlNativePassword <> plugin_as_bytes MysqlClearPassword ->
  difference required_capabilities (intersection (ch_capabilities hs) supported_capabilities) = 0%Z ->
  try_fill_bytes 21 = Some data -> length data = 21 ->
  (handle_connection_sequence try_login try_fill_bytes {| incoming := Received packet :: rest; live_buffers := 0; written := w |}).2 = Crashed.
Proof. intros Hd Hp Hne Hm Hdata Hl. exact (other_plugin_answer _ _ _ _ _ _ Hd Hp Hne Hm Hdata Hl). Qed.
End Findings.

(** Finding: whether a part of the handshake is there is decided by the capabilities of
    the server, not by those that the client has: a client without connection attributes
    is refused. *)
Lemma attributes_required :
  deserialize supported_capabilities
    ((to_le_bytes 4 (flags_of required_list) ++ to_le_bytes 4 65536 ++ [Byte.x2d] ++ replicate 23 Byte.x00) ++
     [Byte.x72; Byte.x00] ++ put_lenenc_str [Byte.x01] ++ native_name ++ [Byte.x00]) = Refused IoError.
Proof. vm_compute. reflexivity. Qed.
